(* ===== verification/_CoqProject ===== *)
-Q . S2P
Prelude.v
EconomicFills.v
Wire.v
Json.v
BookProtocol.v
Decoder.v
FillChecks.v
JobDetail.v
JobContracts.v
JobMachine.v
JobLiveness.v
ObjectKeys.v
JobHistory.v
JobStore.v
JobStoreProps.v
JobDocuments.v
JobDocumentsProps.v
Order.v
Outcomes.v
OutcomesProps.v
LineWriter.v
Availability.v
AvailabilityProps.v
CoverageProps.v
OutcomeSpace.v
Masks.v
Claims.v
ClaimsProps.v
OutcomeSpaceProps.v
Fraction.v
FeeDomain.v
FeeSchedules.v
FeeSchedulesProps.v
FeeEngine.v
FeeEngineProps.v
FeeBridge.v
FeeBridgeProps.v
EconomicTypes.v
Intervals.v
Episodes.v
EpisodeFacts.v
EpisodesProps.v
EpisodesRuns.v
Scopes.v
Views.v
ViewsProps.v
ViewsCuts.v
Staging.v
Fingerprints.v
StagingProps.v
StagingScopes.v
StagingCuts.v
Entities.v
ProfileStreams.v
ProfileDemo.v
Levels.v
LevelsBooks.v
LevelsCuts.v
LevelsRows.v
LevelsProps.v
Tops.v
TopsProps.v
