(* ===== verification/Prelude.v ===== *)
(** * Prediction Indexer: a verification library

    Prediction Indexer captures prediction-market order books, normalizes them and replays
    them to economic strategies.  Splices record venues; the Rust ingester and engine turn
    the recordings into verified derivatives; the Targeter chooses what to capture and
    publishes claims about markets; Universe stores events and runs the control plane of
    Replay jobs; Replay prepares a hash-bound context, streams records to a strategy over
    Redis and checks what it wrote.  This library models the Python parts of that system
    whose behaviour is exact, from the wire format of a Replay stream to the net gap of
    a basket and the rows of a market profile, and from the row of a Replay job to the
    documents it archives.

    ** How to read it

    Every definition is a translation of the code named in its file's opening comment and
    keeps the source's name where Rocq allows it.  A Python exception is the [Err] of
    [result] (or of [ST], where the code keeps mutating an object that outlives the
    exception); a dataclass is a record and its [__post_init__] a [make_] function; a
    dictionary is a [gmap], or an association list where its order shows.  Python
    integers are [Z]; strings are the bytes of their UTF-8 form ([text] lists code points
    where single characters matter); [fractions.Fraction] is [Qc].  Properties are the
    theorems whose comments begin with a claim number; each that has hypotheses is
    followed by a [_witness] that applies it to a concrete input.

    ** The files

    Shared: [Prelude] (exceptions, [result], the state monad [ST], frames, stable sorting),
    [Order] (the [Compare] interface with its laws, and [sorted]), [Json] (documents, key
    order, UTF-8, and the [JsonCodec] interface of [json.loads] and [json.dumps]),
    [Fraction] (exact rationals, floors and grids).

    Replay streams, src/replay/streams/protocol.py:
    - [Wire]: the closed-schema validators.  They accept exactly canonical integers and
      raise nothing but the protocol error.
    - [BookProtocol]: the class Book with its dense and sparse stores, cached best price
      and bounded scan; it refines two maps from prices to quantities, exceptions included.
    - [Decoder]: the stream decoder.  What it accepts is one run, numbered without gaps,
      with the initial record first and a terminal one last; a refusal closes it.

    Economics, src/replay/economic_fills.py, economic_sdk/, fees/ and strategies/:
    - [EconomicFills]: ladder walks, baskets, edge walks and kill prices.  A walk is the
      level-by-level reference fill; the edge walk finds the maximum of a concave
      valuation; kill prices are boundaries.
    - [FillChecks]: fill policies and the crossing checks of economic_sdk/fills.py, over the
      ladders of [EconomicFills].
    - [Outcomes], [OutcomesProps]: outcome views, payoffs, partitions and the search for
      complete sets, which finds exactly the exact covers.
    - [LineWriter], [Availability], [AvailabilityProps], [CoverageProps]: the bounded writer
      behind the class [RowWriter], the availability interval engine and the bundle
      coverage strategy over it.  The rows tile each scope and state what was in force
      at every instant; the incremental engine is the full one; legal streams complete.
    - [FeeDomain], [FeeSchedules], [FeeSchedulesProps], [FeeEngine], [FeeEngineProps]: the fee
      SDK of src/replay/fees.  Values and their identities; the resolver, which selects
      the schedule in force until the boundary it reports whatever its memo holds, at every
      event time of the domain, and raises beyond it; the
      engine, whose net deltas are exact and whose Kalshi orders settle on the balance
      grid with no rounding lost.
    - [FeeBridge], [FeeBridgeProps]: a basket's ladder fills become hypothetical fills, and
      their exact deltas its net gap: the worst case over its legs.

    The economic runtime, src/replay/economic_sdk/runtime.py and economic_intervals.py:
    - [EconomicTypes]: observations, entities, the declared experiment, the closed-form costs
      of retained state and the budget that adds them up.
    - [Intervals]: the cut clock and the arithmetic of one closed slice.  Accepted windows
      cover the requested range and scope ends are crossed once, in order.
    - [Episodes]: what the runtime does with the observations it commits (lines 720 to 1127, output
      layout 2): measurements and denominators, episodes and their slices, priced fills, and
      the rows of a scope.
    - [EpisodeFacts]: reference definitions of what is measured, as time spent by a history
      of commits, and the accumulators of a slice against them.
    - [EpisodesProps], [EpisodesRuns], [Scopes]: frames and invariants, the engine against
      the histories, and the rows of a scope: denominators are exact, episodes are the
      maximal runs of their predicate, and fill time partitions the time a trigger held.

    - [Views], [ViewsProps], [ViewsCuts]: views.py, where objects have addresses because the code
      compares by identity.  A view refreshed cut by cut, which reuses whatever it can, has
      exactly the values of a view built from scratch of the decoder's book.
    - [Entities]: entities.py.  A scope holds exactly the declared baskets and their controls,
      and cyclic controls are a derangement of the peers.
    - [Staging]: the rest of runtime.py (lines 252 to 720, layout 2): scopes and their tables,
      evaluation with its memo, staging, skew, flushing, selection and the callback.
    - [Fingerprints]: what a memo's fingerprint, compared by identity, vouches for.
    - [StagingProps], [StagingScopes], [StagingCuts]: the invariant of the staging, scopes entered,
      and cuts.  After every accepted cut each entity holds the observation its strategy
      returns for the full views of the decoder's books, and positive ones the live skew,
      for strategies whose context-free observations depend on declared inputs alone.

    The market profile, economic_sdk/transitions.py, levels.py and profile_streams.py:
    - [ProfileStreams]: the table of written books, the scan of a cut, venue times and the lazy
      first scope, which both row streams share, and the events that drive a stream.
    - [Levels], [LevelsBooks], [LevelsCuts], [LevelsRows], [LevelsProps]: the level mirrors, full
      ladders and signed changes, and their reader.  Mirrors agree with the decoder's books
      whatever the transition; the rows read back to the ladders of these books.
    - [Tops], [TopsProps]: top-of-book and trade rows and their reader.  A row by operations
      is always news, and the last rows show the best levels of the ladders the books list,
      those which the level rows rebuild.
    - [ProfileDemo]: the plans and cuts of the witnesses.

    Outcomes and claims, src/analysis:
    - [OutcomeSpace], [OutcomeSpaceProps]: spaces; a series space lists exactly the plays of
      its format.
    - [Masks], [Claims], [ClaimsProps]: markets as sets of outcomes and claims over them; the
      algebra over claims implies exactly the pairwise relations of the markets.

    Replay jobs, src/replay/jobs/contracts.py and src/universe/jobs/store.py:
    - [JobDetail], [JobContracts], [JobMachine], [JobLiveness]: reason details, job rows and
      their transitions.  A transition succeeds exactly when its guard holds; terminal
      rows come from archiving and are final; jobs come to rest.
    - [ObjectKeys], [JobHistory]: object keys confined to their job; bundle history resolved
      to occurrences that partition the interval, and aligned windows.
    - [JobStore], [JobStoreProps]: the SQLite store as tables with the schema's checks and
      triggers; every sequence of calls keeps it consistent and within quotas, and
      submissions are idempotent.
    - [JobDocuments], [JobDocumentsProps]: the documents of a job and their byte forms, which
      round-trip.

    The parts meet where the code makes them meet: [Decoder] over [BookProtocol] and [Wire];
    [FillChecks] and [FeeBridge] over [EconomicFills]; [CoverageProps] over the [RowWriter]
    interface, which [LineWriter] implements; [Episodes] over [RowWriter], [Intervals] and the
    pricing of [FillChecks]; [ViewsCuts] over [Decoder] and [EconomicFills]; [StagingCuts]
    over [ViewsCuts], [Episodes], [Intervals] and [Decoder], with the entities of [Entities];
    [LevelsProps] and [TopsProps] over [Decoder], [BookProtocol] and [RowWriter], driven as the
    profile's collector drives them, the quotes of the one being the best levels of the ladders
    of the other; [JobStore] over [JobContracts] and [JobMachine]; [JobDocuments],
    [Claims] and the fee identities over [Json].

    ** Parameters and their laws

    SHA-256 is a function argument; only the completeness of claims needs more of it, that
    it tells the claims of one space apart, and the resolver, that a digest has 64
    characters.  [json.dumps] and [json.loads] satisfy
    [JsonCodec] where a property depends on it: float-free text reads back as its document
    with sorted keys.  [str.isprintable] and [str.isspace] satisfy [UnicodeLaws].
    The streams of the profile assume what the preparation of a snapshot provides: the books
    of an instrument are on one venue and have two orientations, for the tops every planned
    book belongs to a scope, ladders are published sorted, and once cuts count they go on
    counting.  Valuations of baskets are functions, as in the code.  Each of these has a concrete
    instance that the witnesses use.

    ** Fuel

    Recursion that Python leaves to a loop takes fuel, and running out is its own error,
    [OutOfFuel], which the functional theorems exclude.  A ladder walk is given one step
    per level and one more, since each step leaves a level behind or reaches the target;
    the edge walk one per candidate and per unit of its limit; the bisection of a kill
    price the logarithm of the interval it halves.  A series walk of [2 * target] steps
    suffices because each step adds a win; the loop of [_advance] passes one scope per
    step; the search for complete sets removes a leg's keys at every step, so that the
    number of keys bounds its depth; the [advance] of the clock and that of the runtime
    enter a later scope at every step.

    ** Not modelled

    Sockets, files, Redis, HTTP, SQL text and child processes, which the code reaches
    through third-party libraries: splices, archive storage, job stages, the supervisor,
    Universe ingest and API.  Code over regular expressions on prose or binary floating
    point: compiling titles to masks, matching and scoring in the Targeter, rate limits.
    The lock-protected caches are modelled where they decide a result ([outcome_scope],
    the resolver's memo) and are otherwise invisible.  Of the economic runtime, output
    layout 1, which is frozen, time-shifted controls with their rings and timers, and
    game state; of the market profile, the buckets, depth and survival statistics of profile.py
    and the sealing of a stream as one Zstandard frame; of [iter_levels], the ladders it
    yields on the way, where the ladders it holds are modelled.  The strategies are a
    parameter of the runtime, with the one law its documentation states of them; the
    independent readers re-derive from files what the runtime's theorems say of its rows. *)
From stdpp Require Export base tactics list list_numbers strings gmap numbers sorting.
From Stdlib Require Export ZArith Lia.

#[global] Open Scope Z_scope.
Declare Scope pi_scope.
Delimit Scope pi_scope with pi.

(** ** Python exceptions and fallible results

    [exn] lists the exceptions the modelled code raises.  Interpolated values of
    a message are dropped; its fixed text is kept.  [OutOfFuel] is not an
    exception of the program: it marks a loop that was given too little fuel, and
    every component proves that its fuel never runs out.  [Raised] names an exception
    class that a single component defines. *)
Inductive exn :=
| TypeError (msg : string)
| ValueError (msg : string)
| IndexError
| KeyError
| AttributeError
| ProtocolError (msg : string)
| ContractError (msg : string) (code : option string)
| ReplayJobError (status : Z) (msg : string)
| SegmentError (msg : string)
| OSError (msg : string)
| IntegrityError
| OverflowError
| Raised (cls msg : string)
| OutOfFuel.

#[global] Instance exn_eq_dec : EqDecision exn.
Proof. solve_decision. Defined.

Inductive result (A : Type) :=
| Ok (a : A)
| Err (e : exn).
Arguments Ok {A} a.
Arguments Err {A} e.

#[global] Instance result_ret : MRet result := λ A a, Ok a.
#[global] Instance result_bind : MBind result := λ A B f m,
  match m with Ok a => f a | Err e => Err e end.

Definition is_ok {A} (m : result A) : Prop := ∃ a, m = Ok a.

(** [require ok message] of [replay/streams/protocol.py]. *)
Definition require (ok : bool) (message : string) : result () :=
  if ok then Ok () else Err (ProtocolError message).

(** A guard that raises [e] unless [ok]. *)
Definition guard_or (ok : bool) (e : exn) : result () :=
  if ok then Ok () else Err e.

Fixpoint mapR {A B} (f : A → result B) (l : list A) : result (list B) :=
  match l with
  | [] => Ok []
  | a :: l => b ← f a; bs ← mapR f l; Ok (b :: bs)
  end.

Fixpoint foldR {S A} (f : S → A → result S) (s : S) (l : list A) : result S :=
  match l with
  | [] => Ok s
  | a :: l => s ← f s a; foldR f s l
  end.

Lemma foldR_app {S A} (f : S → A → result S) s l k :
  foldR f s (l ++ k) = s' ← foldR f s l; foldR f s' k.
Proof.
  revert s. induction l as [|a l IH]; intros s; simpl; [done|].
  destruct (f s a); simpl; [apply IH|done].
Qed.

(** Python's [zip]: stops at the shorter list. *)
Abbreviation zip2 := (zip_with pair).

(** ** State with exceptions

    [ST S A] is a statement that mutates an object of type [S] and may raise: on an
    exception the object keeps the mutations made before it. *)
Definition ST (S A : Type) : Type := S → S * result A.
#[global] Instance ST_ret S : MRet (ST S) := λ A a s, (s, Ok a).
#[global] Instance ST_bind S : MBind (ST S) := λ A B f m s,
  match m s with
  | (s', Ok a) => f a s'
  | (s', Err e) => (s', Err e)
  end.

Definition getS {S} : ST S S := λ s, (s, Ok s).
Definition putS {S} (s : S) : ST S () := λ _, (s, Ok ()).
Definition modifyS {S} (f : S → S) : ST S () := λ s, (f s, Ok ()).
Definition liftR {S A} (m : result A) : ST S A := λ s, (s, m).
Definition requireS {S} (ok : bool) (message : string) : ST S () :=
  liftR (require ok message).

Fixpoint forS {S A} (f : A → ST S ()) (l : list A) : ST S () :=
  match l with
  | [] => mret ()
  | a :: l => _ ← f a; forS f l
  end.

(** Run [m] on a part of the state. *)
Definition zoomS {S T A} (get : S → T) (set : T → S → S) (m : ST T A) : ST S A :=
  λ s, let '(t, r) := m (get s) in (set t s, r).

(** ** Inversion of the two monads *)
Lemma bind_ok {A B} (m : result A) (f : A → result B) b :
  m ≫= f = Ok b ↔ ∃ a, m = Ok a ∧ f a = Ok b.
Proof. destruct m; cbn; naive_solver. Qed.

Lemma Ok_inj {A} (a b : A) : Ok a = Ok b → a = b.
Proof. congruence. Qed.

Lemma bind_err {A B} (m : result A) (f : A → result B) e :
  m ≫= f = Err e ↔ m = Err e ∨ ∃ a, m = Ok a ∧ f a = Err e.
Proof. destruct m; cbn; naive_solver. Qed.

Lemma require_ok b m u : require b m = Ok u ↔ b = true.
Proof. destruct b, u; cbn; naive_solver. Qed.

Lemma guard_or_ok b e u : guard_or b e = Ok u ↔ b = true.
Proof. destruct b, u; cbn; naive_solver. Qed.

(** A comprehension, in its order. *)
Fixpoint mapS {S A B} (f : A → ST S B) (l : list A) : ST S (list B) :=
  match l with
  | [] => mret []
  | a :: l => b ← f a; bs ← mapS f l; mret (b :: bs)
  end.

Lemma stbind_ok {S A B} (m : ST S A) (f : A → ST S B) s s' b :
  (m ≫= f) s = (s', Ok b) ↔ ∃ s1 a, m s = (s1, Ok a) ∧ f a s1 = (s', Ok b).
Proof.
  unfold mbind, ST_bind. destruct (m s) as [s1 [a|e]]; naive_solver.
Qed.

(** An accepted run, from its result. *)
Lemma ran {A} (p : A * result ()) : p.2 = Ok () → p = (p.1, Ok ()).
Proof. by destruct p; simpl; intros ->. Qed.
Lemma requireS_ok {S} b msg (s s' : S) u :
  requireS b msg s = (s', Ok u) ↔ b = true ∧ s' = s.
Proof. unfold requireS, liftR. destruct b, u; cbn; naive_solver. Qed.

Lemma liftR_ok {S A} (m : result A) (s s' : S) a :
  liftR m s = (s', Ok a) → s' = s ∧ m = Ok a.
Proof. by intros [= -> ->]. Qed.

Lemma getS_ok {S} (s s' a : S) : getS s = (s', Ok a) → s' = s ∧ a = s.
Proof. by intros [= -> ->]. Qed.
Lemma putS_ok {S} (t s s' : S) u : putS t s = (s', Ok u) → s' = t.
Proof. by intros [= ->]. Qed.
Lemma modifyS_ok {S} f (s s' : S) u : modifyS f s = (s', Ok u) → s' = f s.
Proof. by intros [= ->]. Qed.
Lemma mretS_ok {S A} (a b : A) (s s' : S) : (mret a : ST S A) s = (s', Ok b) → s' = s ∧ b = a.
Proof. by intros [= -> ->]. Qed.

(** [res_inv] takes apart every successful bind and guard in the context. *)
Ltac res_step :=
  match goal with
  | H : _ ≫= _ = Ok _ |- _ => apply bind_ok in H; destruct H as (? & ? & H)
  | H : (_ ≫= _) _ = (_, Ok _) |- _ =>
      apply stbind_ok in H; destruct H as (? & ? & ? & H)
  | H : require _ _ = Ok _ |- _ => apply require_ok in H
  | H : guard_or _ _ = Ok _ |- _ => apply guard_or_ok in H
  | H : requireS _ _ _ = (_, Ok _) |- _ => apply requireS_ok in H; destruct H as [? ->]
  | H : Ok _ = Ok _ |- _ => injection H as H; subst
  | H : mret _ = Ok _ |- _ => injection H as H; subst
  | H : getS _ = (_, Ok _) |- _ => apply getS_ok in H; destruct H as [-> ->]
  | H : putS _ _ = (_, Ok _) |- _ => apply putS_ok in H; subst
  | H : modifyS _ _ = (_, Ok _) |- _ => apply modifyS_ok in H; subst
  | H : mret _ _ = (_, Ok _) |- _ => apply mretS_ok in H; destruct H as [-> ->]
  | H : liftR _ _ = (_, Ok _) |- _ => apply liftR_ok in H; destruct H as [-> H]
  | H : Err _ = Ok _ |- _ => discriminate H
  | H : Ok _ = Err _ |- _ => discriminate H
  | H : _ && _ = true |- _ => apply andb_true_iff in H; destruct H
  end.
Ltac res_inv := repeat (res_step; simpl in * ).

(** [frame f m]: [m] leaves the part [f] of the state as it was, also when it raises. *)
Definition frame {S A T} (f : S → T) (m : ST S A) : Prop := ∀ s, f (fst (m s)) = f s.

Lemma frame_bind {S A B T} (f : S → T) (m : ST S A) (k : A → ST S B) :
  frame f m → (∀ a, frame f (k a)) → frame f (m ≫= k).
Proof.
  intros Hm Hk s. unfold mbind, ST_bind. specialize (Hm s).
  destruct (m s) as [s' [a|e]]; simpl in *; [by rewrite Hk|done].
Qed.

Lemma frame_ret {S A T} (f : S → T) (a : A) : frame f (mret a : ST S A).
Proof. done. Qed.
Lemma frame_liftR {S A T} (f : S → T) (m : result A) : frame f (liftR m : ST S A).
Proof. done. Qed.
Lemma frame_requireS {S T} (f : S → T) b msg : frame f (requireS b msg : ST S ()).
Proof. done. Qed.
Lemma frame_getS {S T} (f : S → T) : frame f (getS : ST S S).
Proof. done. Qed.
Lemma frame_modifyS {S T} (f : S → T) g : (∀ s, f (g s) = f s) → frame f (modifyS g).
Proof. done. Qed.
Lemma frame_forS {S A T} (f : S → T) (g : A → ST S ()) l :
  (∀ a, frame f (g a)) → frame f (forS g l).
Proof. intros Hg. induction l; simpl; [done|]. by apply frame_bind. Qed.
Lemma frame_zoomS {S U A T} (f : S → T) get set (m : ST U A) :
  (∀ u s, f (set u s) = f s) → frame f (zoomS get set m : ST S A).
Proof. intros H s. unfold zoomS. destruct (m (get s)). apply H. Qed.

Ltac frame_step :=
  first [ apply frame_ret | apply frame_liftR | apply frame_requireS | apply frame_getS
        | apply frame_modifyS; intros; reflexivity
        | apply frame_zoomS; intros; reflexivity
        | apply frame_bind; [ | intros ? ]
        | apply frame_forS; intros ?
        | match goal with |- frame _ (match ?x with _ => _ end) => destruct x end ].

Lemma mapR_ok {A B} (f : A → result B) l bs :
  mapR f l = Ok bs ↔ Forall2 (λ a b, f a = Ok b) l bs.
Proof.
  revert bs. induction l as [|a l IH]; intros bs; simpl.
  - split; [intros [= <-]; constructor | by inversion 1].
  - rewrite bind_ok. setoid_rewrite bind_ok. split.
    + intros (b & Hb & bs' & Hbs & [= <-]). constructor; [done | by apply IH].
    + inversion 1; subst. eexists; split; [done|]. eexists; split; [by apply IH | done].
Qed.

Lemma mapR_total {A B} (f : A → result B) (g : A → B) l :
  Forall (λ a, f a = Ok (g a)) l → mapR f l = Ok (map g l).
Proof. induction 1 as [|a l Ha _ IH]; simpl; [done|]. by rewrite Ha; simpl; rewrite IH. Qed.

Lemma mapR_exists {A B} (f : A → result B) (P : A → B → Prop) l :
  Forall (λ a, ∃ b, f a = Ok b ∧ P a b) l → ∃ bs, mapR f l = Ok bs ∧ Forall2 P l bs.
Proof.
  induction 1 as [|a l (b & E & Hb) _ (bs & IH & Hbs)]; simpl; [by exists []|].
  rewrite E. simpl. rewrite IH. simpl. eauto.
Qed.

Lemma forallb_Forall {A} (f : A → bool) l : forallb f l = true ↔ Forall (λ a, f a = true) l.
Proof.
  rewrite forallb_forall, Forall_forall. by setoid_rewrite <- list_elem_of_In.
Qed.

(** ** Sums and lists of integers *)
Definition sumZ (l : list Z) : Z := foldr Z.add 0 l.

Lemma sumZ_app l k : sumZ (l ++ k) = sumZ l + sumZ k.
Proof. induction l; simpl in *; [done | lia]. Qed.

Lemma sumZ_nonneg l : Forall (λ x, 0 ≤ x) l → 0 ≤ sumZ l.
Proof. induction 1; simpl in *; lia. Qed.

(** Strictly increasing lists, as [tuple(sorted(set(l))) == l] tests. *)
Fixpoint increasing (l : list Z) : bool :=
  match l with
  | a :: (b :: _) as l' => (a <? b) && increasing l'
  | _ => true
  end.

Lemma increasing_cons a l :
  increasing (a :: l) = true → increasing l = true ∧ Forall (λ b, a < b) l.
Proof.
  revert a. induction l as [|b l IH]; intros a H; [done|].
  simpl in H. apply andb_true_iff in H as [Hab H]. apply Z.ltb_lt in Hab.
  split; [done|]. constructor; [done|].
  apply IH in H as [_ H]. eapply Forall_impl; [done|]. simpl. lia.
Qed.

(** ** Stable sorting, Python's [sorted] with a key order [leb] *)
Section Sorting.
Context {A : Type} (leb : A → A → bool).

Fixpoint insert_by (a : A) (l : list A) : list A :=
  match l with
  | [] => [a]
  | b :: l' => if leb a b then a :: l else b :: insert_by a l'
  end.

Definition sort_by (l : list A) : list A := foldr insert_by [] l.

Lemma insert_by_perm a l : Permutation (insert_by a l) (a :: l).
Proof.
  induction l as [|b l IH]; simpl; [done|]. destruct (leb a b); [done|].
  rewrite IH. apply perm_swap.
Qed.

Lemma sort_by_perm l : Permutation (sort_by l) l.
Proof. induction l; simpl; [done|]. rewrite insert_by_perm. by constructor. Qed.

Lemma sort_by_elem a l : a ∈ sort_by l ↔ a ∈ l.
Proof. by rewrite sort_by_perm. Qed.

Context (leb_total : ∀ a b, leb a b = true ∨ leb b a = true)
        (leb_trans : ∀ a b c, leb a b = true → leb b c = true → leb a c = true).

Lemma insert_by_sorted a l :
  StronglySorted (λ a b, leb a b = true) l →
  StronglySorted (λ a b, leb a b = true) (insert_by a l).
Proof.
  induction 1 as [|b l Hl IH Hb]; simpl; [by repeat constructor|].
  destruct (leb a b) eqn:E.
  - constructor; [by constructor|]. constructor; [done|].
    eapply Forall_impl; [done|]. simpl. eauto.
  - constructor; [done|]. rewrite insert_by_perm. constructor; [|done].
    destruct (leb_total a b); congruence.
Qed.

Lemma sort_by_sorted l : StronglySorted (λ a b, leb a b = true) (sort_by l).
Proof. induction l; simpl; [constructor | by apply insert_by_sorted]. Qed.
End Sorting.

(** ** Python's [a < b] on frozensets *)
Definition strict_subset (a b : gset string) : bool :=
  bool_decide (a ⊆ b) && negb (bool_decide (a = b)).

Lemma strict_subset_spec a b : strict_subset a b = true ↔ a ⊂ b.
Proof.
  unfold strict_subset. rewrite andb_true_iff, negb_true_iff, bool_decide_eq_true, bool_decide_eq_false.
  split.
  - intros [Hs Hn]. split; [done|]. intros Hb. apply Hn. set_solver.
  - intros [Hs Hn]. split; [done|]. by intros ->.
Qed.

Create HintDb pi.
#[export] Hint Resolve sumZ_nonneg sort_by_sorted : pi.
#[export] Hint Rewrite sumZ_app : pi.
