(* ===== verification/EconomicFills.v ===== *)
(** * Exact integer ladder walking ([src/replay/economic_fills.py])

    Definitions in source order: [walk] and its inner loop, [walk_basket] with its
    nested functions, [kill_price] with its two binary searches.  The source's
    [type(...) is ...] tests are discharged by the types used here: prices, sizes
    and quantities are integers, tuples are lists. *)
From S2P Require Import Prelude.

Abbreviation level := (Z * Z)%type.

Record Fill := mkFill {
  filled_atoms : Z;
  cost : Z;
  depth_limited : bool;
  taken : list level;
  consumed : list level;
}.
#[global] Instance Fill_eq_dec : EqDecision Fill.
Proof. solve_decision. Defined.

(** ** [walk] *)

(** [levels[index]], validated as the walk touches it. *)
Definition level_at (levels : list level) (index : nat) : result level :=
  match levels !! index with
  | None => Err IndexError
  | Some (price, quantity) =>
      if (price <? 0) || (quantity <=? 0)
      then Err (ValueError "levels require nonnegative prices and positive quantities")
      else Ok (price, quantity)
  end.

(** The local variables of one traversal. *)
Record walk_state := WalkState {
  level_index : nat;
  remaining : Z;
  filled : Z;
  wcost : Z;
  wtaken : list level;
  wconsumed : list level;
}.

(** [taken[-1] = (prior_price, prior_quantity + amount)]. *)
Fixpoint bump_last (l : list level) (amount : Z) : result (list level) :=
  match l with
  | [] => Err IndexError
  | [(price, quantity)] => Ok [(price, quantity + amount)]
  | x :: l => l' ← bump_last l amount; Ok (x :: l')
  end.

(** One iteration of the inner [while]. *)
Definition walk_step (levels : list level) (target : Z) (s : walk_state) : result walk_state :=
  match levels !! level_index s with
  | None => Err IndexError
  | Some (price, displayed) =>
      let amount := Z.min (remaining s) (target - filled s) in
      tc ← (if remaining s =? displayed
            then Ok (wtaken s ++ [(price, amount)], wconsumed s ++ [(price, displayed)])
            else t ← bump_last (wtaken s) amount; Ok (t, wconsumed s));
      let left := remaining s - amount in
      ir ← (if left =? 0 then
              let index := S (level_index s) in
              if (index <? length levels)%nat
              then l ← level_at levels index; Ok (index, l.2)
              else Ok (index, left)
            else Ok (level_index s, left));
      Ok (WalkState ir.1 ir.2 (filled s + amount) (wcost s + price * amount) tc.1 tc.2)
  end.

Fixpoint walk_target (fuel : nat) (levels : list level) (target : Z) (s : walk_state)
    : result walk_state :=
  if (filled s <? target) && (level_index s <? length levels)%nat then
    match fuel with
    | O => Err OutOfFuel
    | S fuel => s' ← walk_step levels target s; walk_target fuel levels target s'
    end
  else Ok s.

Definition walk_fill (target : Z) (s : walk_state) : Fill :=
  mkFill (Z.min (filled s) target) (wcost s) (filled s <? target) (wtaken s) (wconsumed s).

(** The [for target in sizes_atoms] loop. *)
Fixpoint walk_sizes (levels : list level) (sizes : list Z) (s : walk_state)
    : result (list Fill) :=
  match sizes with
  | [] => Ok []
  | target :: sizes =>
      s' ← walk_target (S (length levels)) levels target s;
      fills ← walk_sizes levels sizes s';
      Ok (walk_fill target s' :: fills)
  end.

(** [level(0)[1] if levels else 0]. *)
Definition walk_first (levels : list level) : result Z :=
  match levels with [] => Ok 0 | _ => l ← level_at levels 0; Ok l.2 end.

Definition walk (levels : list level) (sizes_atoms : list Z) : result (list Fill) :=
  _ ← guard_or (match sizes_atoms with [] => false | _ => forallb (λ s, 0 <? s) sizes_atoms end)
        (ValueError "positive integer sizes required");
  _ ← guard_or (increasing sizes_atoms) (ValueError "sizes must be sorted and unique");
  first ← walk_first levels;
  walk_sizes levels sizes_atoms (WalkState 0 first 0 0 [] []).

(** ** [walk_basket] *)
Record BasketFill := mkBasketFill {
  steps : Z;
  legs : list Fill;
  stop : string;
  value : option Z;
  before : list (option level);
  after : list (option level);
  impact_ppm : list (option Z);
  beyond : list (list level);
}.

(** The caller's valuation [value(steps, legs)]. *)
Abbreviation valuation := (Z → list Fill → option Z).

(** Cumulative depth at each usable level, lines 173-179. *)
Fixpoint boundary_points (cumulative : Z) (usable : list level) : result (list Z) :=
  match usable with
  | [] => Ok []
  | (price, quantity) :: usable =>
      _ ← guard_or (negb ((price <? 0) || (quantity <=? 0)))
            (ValueError "levels require nonnegative prices and positive quantities");
      let cumulative := cumulative + quantity in
      points ← boundary_points cumulative usable;
      Ok (cumulative :: points)
  end.

Definition usable_levels (max_levels : option nat) (ladder : list level) : list level :=
  match max_levels with None => ladder | Some n => take n ladder end.

(** The loop of lines 169-183: boundaries per leg and the step limit. *)
Fixpoint basket_boundaries (max_levels : option nat) (pairs : list (list level * Z))
    (limit : option Z) : result (list (list Z) * option Z) :=
  match pairs with
  | [] => Ok ([], limit)
  | (ladder, unit) :: pairs =>
      points ← boundary_points 0 (usable_levels max_levels ladder);
      let steps := default 0 (last points) / unit in
      let limit := match limit with
                   | None => Some steps
                   | Some l => if steps <? l then Some steps else Some l
                   end in
      rest ← basket_boundaries max_levels pairs limit;
      Ok (points :: rest.1, rest.2)
  end.

Definition depth (ladder : list level) : Z := sumZ (map snd ladder).

Fixpoint min_list (l : list Z) : option Z :=
  match l with
  | [] => None
  | a :: l => Some (match min_list l with None => a | Some b => Z.min a b end)
  end.

(** Whether the level cap, not the book, bounds the walk: lines 185-187. *)
Definition basket_capped (max_levels : option nat) (pairs : list (list level * Z)) (limit : Z)
    : bool :=
  match max_levels with
  | None => false
  | Some _ =>
      match min_list (map (λ lu, depth lu.1 / lu.2) pairs) with
      | None => false
      | Some full => limit <? full
      end
  end.

Definition empty_fill : Fill := mkFill 0 0 false [] [].

Definition legs_at (ladders : list (list level)) (units : list Z) (steps : Z)
    : result (list Fill) :=
  if steps =? 0 then Ok (map (λ _, empty_fill) ladders)
  else mapR (λ lu, fs ← walk lu.1 [steps * lu.2];
                   match fs with f :: _ => Ok f | [] => Err IndexError end)
            (zip2 ladders units).

(** The levels left after [filled] atoms, lines 203-209: [rest] grows until it
    holds [unit] atoms or [bound] levels. *)
Fixpoint rest_levels (filled unit : Z) (bound : option nat) (cumulative : Z)
    (rest : list level) (ladder : list level) : list level :=
  match ladder with
  | [] => rest
  | (price, quantity) :: ladder =>
      let cumulative := cumulative + quantity in
      if filled <? cumulative then
        let rest := rest ++ [(price, Z.min quantity (cumulative - filled))] in
        if (unit <=? sumZ (map snd rest))
           || (match bound with None => false | Some b => (length rest =? b)%nat end)
        then rest
        else rest_levels filled unit bound cumulative rest ladder
      else rest_levels filled unit bound cumulative rest ladder
  end.

Definition impact (first left : option level) : option Z :=
  match first, left with
  | Some (p, _), Some (p', _) => if p =? 0 then None else Some (Z.abs (p' - p) * 10 ^ 6 / p)
  | _, _ => None
  end.

Definition priced (ladders : list (list level)) (units : list Z) (max_levels : option nat)
    (steps : Z) (legs : list Fill) (stop : string) (result : option Z) : BasketFill :=
  let bound := match max_levels with None => None | Some n => Some (S n) end in
  let rows := zip_with (λ ladder lu, (head ladder,
                rest_levels (filled_atoms lu.1) lu.2 bound 0 [] ladder))
                ladders (zip2 legs units) in
  mkBasketFill steps legs stop result
    (map fst rows) (map (λ r, head r.2) rows)
    (map (λ r, impact r.1 (head r.2)) rows) (map snd rows).

Definition valued (value : option valuation) (steps : Z) (legs : list Fill) : option Z :=
  match value with
  | None => None
  | Some v => if steps =? 0 then None else v steps legs
  end.

(** Integer ceiling division [-(-a // b)]. *)
Definition ceil_div (a b : Z) : Z := - (- a / b).

(** The candidate set, sorted and without repetition: lines 233-241. *)
Definition edge_candidates (boundaries : list (list Z)) (units : list Z) (limit : Z)
    : list Z :=
  let all := limit :: concat (zip_with (λ points unit,
               concat (map (λ point, [point / unit; ceil_div point unit]) points))
               boundaries units) in
  sort_by Z.leb (filter (λ c, 0 < c ∧ c ≤ limit) (remove_dups all)).

(** The state of the edge walk: [best], [best_value], [best_legs], [stop]. *)
Record edge_state := EdgeState {
  best : Z;
  best_value : option Z;
  best_legs : list Fill;
  edge_stop : string;
}.

(** The [while] of lines 251-268; [ordered] holds the candidates from [index] on.
    [at_steps] is the function [at]; its memo table only caches a pure value. *)
Fixpoint edge_loop (fuel : nat) (at_steps : Z → result (list Fill * option Z))
    (ordered : list Z) (best best_value : Z) (best_legs : list Fill) (stop : string)
    : result edge_state :=
  match ordered with
  | [] => Ok (EdgeState best (Some best_value) best_legs stop)
  | steps :: later =>
      match fuel with
      | O => Err OutOfFuel
      | S fuel =>
          lc ← at_steps steps;
          let settle (steps : Z) (legs : list Fill) (current : option Z) :=
            match current with
            | None => Ok (EdgeState steps None legs "value_unknown")
            | Some c =>
                if c <=? best_value
                then Ok (EdgeState best (Some best_value) best_legs "edge")
                else edge_loop fuel at_steps later steps c legs stop
            end in
          match lc.2 with
          | Some c =>
              if (c <=? best_value) && (best + 1 <? steps) then
                lc' ← at_steps (best + 1);
                match lc'.2 with
                | Some c' =>
                    if best_value <? c'
                    then edge_loop fuel at_steps ordered (best + 1) c' lc'.1 stop
                    else settle (best + 1) lc'.1 lc'.2
                | None => settle (best + 1) lc'.1 lc'.2
                end
              else settle steps lc.1 lc.2
          | None => settle steps lc.1 lc.2
          end
      end
  end.

(** [legs_at] and [valued] at a step count, the function [at]. *)
Definition at_steps (ladders : list (list level)) (units : list Z) (value : option valuation)
    (steps : Z) : result (list Fill * option Z) :=
  legs ← legs_at ladders units steps; Ok (legs, valued value steps legs).

(** The argument checks of lines 151-166 that types do not discharge. *)
Definition basket_guards (ladders : list (list level)) (units targets : list Z)
    (value : option valuation) (edge : bool) (max_levels : option nat) : result () :=
  _ ← guard_or (negb (bool_decide (units = [])) && (length ladders =? length units)%nat)
        (ValueError "one positive unit per ladder required");
  _ ← guard_or (forallb (λ u, 0 <? u) units) (ValueError "one positive unit per ladder required");
  _ ← guard_or (forallb (λ t, 0 <? t) targets) (ValueError "positive integer targets required");
  _ ← guard_or (increasing targets) (ValueError "targets must be sorted and unique");
  _ ← guard_or (negb (bool_decide (targets = [])) || edge)
        (ValueError "a target or the edge walk is required");
  _ ← guard_or (negb (edge && match value with None => true | _ => false end))
        (ValueError "the edge walk requires a value");
  guard_or (match max_levels with Some O => false | _ => true end)
        (ValueError "max_levels must be a positive integer").

(** The target results, lines 228-231. *)
Definition basket_target (ladders : list (list level)) (units : list Z)
    (value : option valuation) (max_levels : option nat) (limit : Z) (exhausted : string)
    (target : Z) : result BasketFill :=
  let '(steps, stop) := if target <=? limit then (target, "target") else (limit, exhausted) in
  legs ← legs_at ladders units steps;
  Ok (priced ladders units max_levels steps legs stop (valued value steps legs)).

(** The edge result, lines 232-269. *)
Definition basket_edge (ladders : list (list level)) (units : list Z)
    (value : option valuation) (max_levels : option nat) (limit : Z) (exhausted : string)
    (boundaries : list (list Z)) : result BasketFill :=
  none ← legs_at ladders units 0;
  let ordered := edge_candidates boundaries units limit in
  e ← edge_loop (S (length ordered + Z.to_nat limit)) (at_steps ladders units value)
        ordered 0 0 none exhausted;
  Ok (priced ladders units max_levels (best e) (best_legs e) (edge_stop e)
        (if best e =? 0 then None else best_value e)).

Definition walk_basket (ladders : list (list level)) (units targets : list Z)
    (value : option valuation) (edge : bool) (max_levels : option nat)
    : result (list BasketFill) :=
  _ ← basket_guards ladders units targets value edge max_levels;
  bl ← basket_boundaries max_levels (zip2 ladders units) None;
  let limit := default 0 bl.2 in
  let exhausted := if basket_capped max_levels (zip2 ladders units) limit
                   then "level_cap" else "book_exhausted" in
  results ← mapR (basket_target ladders units value max_levels limit exhausted) targets;
  if edge then
    e ← basket_edge ladders units value max_levels limit exhausted bl.1;
    Ok (results ++ [e])
  else Ok results.

(** ** [kill_price] *)

(** [positive(price)]: the leg's whole fill at that single price is worth taking. *)
Definition positive_at (value : valuation) (steps : Z) (legs : list Fill) (leg : nat)
    (quantity price : Z) : bool :=
  let single := mkFill quantity (price * quantity) false [(price, quantity)] [(price, quantity)] in
  match value steps (take leg legs ++ single :: drop (S leg) legs) with
  | Some result => 0 <? result
  | None => false
  end.

(** Lines 307-314: [positive low] is false, [positive high] is assumed. *)
Fixpoint sell_search (fuel : nat) (positive : Z → bool) (low high : Z) : result Z :=
  if 1 <? high - low then
    match fuel with
    | O => Err OutOfFuel
    | S fuel =>
        let middle := (low + high) / 2 in
        if positive middle then sell_search fuel positive low middle
        else sell_search fuel positive middle high
    end
  else Ok low.

(** Lines 317-324: [positive low] is assumed, [positive high] is false. *)
Fixpoint buy_search (fuel : nat) (positive : Z → bool) (low high : Z) : result Z :=
  if 1 <? high - low then
    match fuel with
    | O => Err OutOfFuel
    | S fuel =>
        let middle := (low + high) / 2 in
        if positive middle then buy_search fuel positive middle high
        else buy_search fuel positive low middle
    end
  else Ok high.

(** Enough iterations to bring an interval of length [d] to length one. *)
Definition search_fuel (d : Z) : nat := Z.to_nat (Z.log2_up d).

Definition kill_price (value : valuation) (steps : Z) (legs : list Fill) (leg : nat)
    (maximum : Z) (sell : bool) : result (option Z) :=
  _ ← guard_or ((0 <? steps) && (0 <=? maximum))
        (ValueError "positive steps and a nonnegative maximum price required");
  match legs !! leg with
  | None => Err IndexError
  | Some l =>
      let quantity := filled_atoms l in
      _ ← guard_or (0 <? quantity) (ValueError "the leg must have filled atoms");
      let positive := positive_at value steps legs leg quantity in
      if sell then
        if positive 0 then Ok None
        else k ← sell_search (search_fuel (maximum + 1)) positive 0 (maximum + 1); Ok (Some k)
      else
        if positive maximum then Ok None
        else k ← buy_search (search_fuel (maximum + 1)) positive (-1) maximum; Ok (Some k)
  end.

(** ** Reference: what a walk of [n] atoms takes

    A walk is specified level by level, without indices, remainders or a resumed
    traversal. *)
Definition level_ok (l : level) : Prop := 0 ≤ l.1 ∧ 0 < l.2.

Fixpoint fill_taken (levels : list level) (n : Z) : list level :=
  match levels with
  | [] => []
  | (p, q) :: ls => if n <=? 0 then [] else (p, Z.min q n) :: fill_taken ls (n - q)
  end.

Fixpoint fill_consumed (levels : list level) (n : Z) : list level :=
  match levels with
  | [] => []
  | (p, q) :: ls => if n <=? 0 then [] else (p, q) :: fill_consumed ls (n - q)
  end.

Definition notional (l : list level) : Z := sumZ (map (λ pq, pq.1 * pq.2) l).

Definition ref_fill (levels : list level) (target : Z) : Fill :=
  let n := Z.min (depth levels) target in
  mkFill n (notional (fill_taken levels n)) (n <? target)
    (fill_taken levels n) (fill_consumed levels n).

Lemma depth_app l k : depth (l ++ k) = depth l + depth k.
Proof. unfold depth. by rewrite map_app, sumZ_app. Qed.

Lemma notional_app l k : notional (l ++ k) = notional l + notional k.
Proof. unfold notional. by rewrite map_app, sumZ_app. Qed.

Lemma depth_cons l k : depth (l :: k) = l.2 + depth k.
Proof. done. Qed.

Lemma depth_nonneg ls : Forall level_ok ls → 0 ≤ depth ls.
Proof. induction 1 as [|l ls [_ ?] _ IH]; [done|]. rewrite depth_cons. lia. Qed.

#[export] Hint Resolve depth_nonneg : pi.

Lemma fill_taken_nil ls n : n ≤ 0 → fill_taken ls n = [].
Proof. destruct ls as [|[]]; simpl; [done|]. destruct (Z.leb_spec n 0); [done|lia]. Qed.
Lemma fill_consumed_nil ls n : n ≤ 0 → fill_consumed ls n = [].
Proof. destruct ls as [|[]]; simpl; [done|]. destruct (Z.leb_spec n 0); [done|lia]. Qed.

Lemma fill_taken_pass pre suf u :
  Forall level_ok pre → 0 ≤ u → fill_taken (pre ++ suf) (depth pre + u) = pre ++ fill_taken suf u.
Proof.
  intros Hpre Hu. induction Hpre as [|[p q] pre [? ?] Hpre IH]; [done|].
  rewrite <- app_comm_cons, depth_cons. simpl in *.
  assert (0 ≤ depth pre) by auto with pi.
  destruct (Z.leb_spec (q + depth pre + u) 0); [lia|].
  rewrite Z.min_l by lia. f_equal. rewrite <- IH. f_equal. lia.
Qed.

Lemma fill_consumed_pass pre suf u :
  Forall level_ok pre → 0 ≤ u →
  fill_consumed (pre ++ suf) (depth pre + u) = pre ++ fill_consumed suf u.
Proof.
  intros Hpre Hu. induction Hpre as [|[p q] pre [? ?] Hpre IH]; [done|].
  rewrite <- app_comm_cons, depth_cons. simpl in *.
  assert (0 ≤ depth pre) by auto with pi.
  destruct (Z.leb_spec (q + depth pre + u) 0); [lia|].
  f_equal. rewrite <- IH. f_equal. lia.
Qed.

(** A level after the last one a walk touches does not matter. *)
Lemma fill_taken_hidden vis hidden n :
  Forall level_ok vis → n ≤ depth vis → fill_taken (vis ++ hidden) n = fill_taken vis n.
Proof.
  intros Hv. revert n. induction Hv as [|[p q] vis [? ?] Hv IH]; intros n Hn; simpl.
  - by rewrite fill_taken_nil.
  - destruct (Z.leb_spec n 0); [done|]. f_equal. apply IH. unfold depth in *; simpl in *; lia.
Qed.

Lemma fill_taken_depth ls n :
  Forall level_ok ls → 0 ≤ n ≤ depth ls → depth (fill_taken ls n) = n.
Proof.
  intros Hv. revert n. induction Hv as [|[p q] ls [? ?] Hv IH]; intros n Hn; simpl.
  - unfold depth in Hn; simpl in Hn. unfold depth; simpl; lia.
  - destruct (Z.leb_spec n 0); [unfold depth; simpl; lia|].
    rewrite depth_cons in *. simpl in *. destruct (Z.le_ge_cases q n).
    + rewrite IH by lia. lia.
    + rewrite fill_taken_nil by lia. unfold depth; simpl; lia.
Qed.

(** ** The traversal refines the reference *)

(** The state of the traversal after [filled] atoms: [index] levels are used up,
    and [remaining] atoms are left of the next one. *)
Definition walk_inv (vis hidden : list level) (s : walk_state) : Prop :=
  ∃ pre suf, vis = pre ++ suf ∧ level_index s = length pre ∧
    wcost s = notional (fill_taken vis (filled s)) ∧
    wtaken s = fill_taken vis (filled s) ∧
    wconsumed s = fill_consumed vis (filled s) ∧
    match suf with
    | [] => hidden = [] ∧ filled s = depth pre
    | (_, q) :: _ => 0 < remaining s ≤ q ∧ filled s = depth pre + (q - remaining s)
    end.

Lemma walk_inv_filled vis hidden s :
  Forall level_ok vis → walk_inv vis hidden s → 0 ≤ filled s ≤ depth vis.
Proof.
  intros Hv (pre & suf & -> & _ & _ & _ & _ & H). apply Forall_app in Hv as [? Hs].
  assert (0 ≤ depth pre) by auto with pi. rewrite depth_app.
  destruct suf as [|[p q] suf].
  - destruct H as [_ ->]. replace (depth []) with 0 by done. lia.
  - apply Forall_cons in Hs as [[? ?] Hs]. rewrite depth_cons. simpl in *.
    apply depth_nonneg in Hs. lia.
Qed.

Lemma bump_last_app pre l l' amount :
  bump_last l amount = Ok l' → bump_last (pre ++ l) amount = Ok (pre ++ l').
Proof.
  intros H. assert (l ≠ []) by (by intros ->).
  induction pre as [|[x y] pre IH]; [done|]. rewrite <- !app_comm_cons. simpl.
  rewrite IH. by destruct pre, l.
Qed.

Lemma level_at_ok vis hidden i p q :
  Forall level_ok vis → vis !! i = Some (p, q) → level_at (vis ++ hidden) i = Ok (p, q).
Proof.
  intros Hv Hi. unfold level_at. rewrite (lookup_app_l_Some vis hidden i (p, q)) by done.
  destruct (Forall_lookup_1 _ _ _ _ Hv Hi) as [? ?]. simpl in *.
  destruct (Z.ltb_spec p 0), (Z.leb_spec q 0); simpl; done || lia.
Qed.

(** What one iteration does to the reference when [u] atoms of the current level
    are used and [amount] more are taken. *)
Lemma fill_taken_more p q suf u amount :
  0 ≤ u → 0 < amount → u + amount ≤ q →
  (if u =? 0 then Ok (fill_taken ((p, q) :: suf) u ++ [(p, amount)])
   else bump_last (fill_taken ((p, q) :: suf) u) amount)
  = Ok (fill_taken ((p, q) :: suf) (u + amount)).
Proof.
  intros. simpl. destruct (Z.leb_spec (u + amount) 0); [lia|].
  rewrite (fill_taken_nil suf (u + amount - q)) by lia. rewrite !Z.min_r by lia.
  destruct (Z.eqb_spec u 0) as [->|].
  - done.
  - destruct (Z.leb_spec u 0); [lia|]. by rewrite fill_taken_nil by lia.
Qed.

Lemma fill_consumed_more p q suf u amount :
  0 ≤ u → 0 < amount → u + amount ≤ q →
  fill_consumed ((p, q) :: suf) (u + amount)
  = if u =? 0 then fill_consumed ((p, q) :: suf) u ++ [(p, q)] else fill_consumed ((p, q) :: suf) u.
Proof.
  intros. simpl. destruct (Z.leb_spec (u + amount) 0); [lia|].
  rewrite (fill_consumed_nil suf (u + amount - q)) by lia.
  destruct (Z.eqb_spec u 0) as [->|].
  - done.
  - destruct (Z.leb_spec u 0); [lia|]. by rewrite fill_consumed_nil by lia.
Qed.

Lemma notional_more p q suf u amount :
  0 ≤ u → 0 < amount → u + amount ≤ q →
  notional (fill_taken ((p, q) :: suf) (u + amount))
  = notional (fill_taken ((p, q) :: suf) u) + p * amount.
Proof.
  intros. simpl. destruct (Z.leb_spec (u + amount) 0); [lia|].
  rewrite (fill_taken_nil suf (u + amount - q)) by lia.
  destruct (Z.leb_spec u 0).
  - assert (u = 0) as -> by lia. rewrite Z.min_r by lia. unfold notional; simpl. lia.
  - rewrite fill_taken_nil by lia. rewrite !Z.min_r by lia. unfold notional; simpl. lia.
Qed.

Lemma walk_step_ok vis hidden target s :
  Forall level_ok vis → hidden = [] ∨ target < depth vis →
  walk_inv vis hidden s → filled s < target →
  (level_index s < length (vis ++ hidden))%nat →
  ∃ s', walk_step (vis ++ hidden) target s = Ok s' ∧ walk_inv vis hidden s' ∧
        filled s ≤ filled s' ≤ target ∧
        (filled s' = target ∨ level_index s' = S (level_index s)).
Proof.
  intros Hv Hh (pre & suf & -> & Hi & Hc & Ht & Hk & Hs) Hf Hl.
  apply Forall_app in Hv as [Hpre Hsuf].
  assert (0 ≤ depth pre) by auto with pi.
  destruct suf as [|[p q] suf].
  { destruct Hs as [-> _]. rewrite !app_nil_r in Hl. lia. }
  apply Forall_cons in Hsuf as [[Hp Hq] Hsuf]. simpl in Hp, Hq. destruct Hs as [Hr Hfill].
  set (u := q - remaining s) in *.
  assert (Hv : Forall level_ok (pre ++ (p, q) :: suf)).
  { apply Forall_app. split; [done|]. by constructor. }
  assert (Hlook : (pre ++ (p, q) :: suf) !! level_index s = Some (p, q)).
  { rewrite Hi, lookup_app_r by lia. by rewrite Nat.sub_diag. }
  set (amount := Z.min (remaining s) (target - filled s)).
  assert (0 < amount ∧ u + amount ≤ q) as [Ha Hua] by lia.
  (* the reference after the step *)
  rewrite Hfill, fill_taken_pass in Hc, Ht by (done || lia).
  rewrite Hfill, fill_consumed_pass in Hk by (done || lia).
  assert (Htc : (if remaining s =? q
            then Ok (wtaken s ++ [(p, amount)], wconsumed s ++ [(p, q)])
            else t ← bump_last (wtaken s) amount; Ok (t, wconsumed s))
          = Ok (fill_taken (pre ++ (p, q) :: suf) (filled s + amount),
                fill_consumed (pre ++ (p, q) :: suf) (filled s + amount))).
  { rewrite Ht, Hk, Hfill, <- Z.add_assoc.
    rewrite fill_taken_pass, fill_consumed_pass by (done || lia).
    pose proof (fill_taken_more p q suf u amount ltac:(lia) Ha Hua) as Hm.
    rewrite (fill_consumed_more p q suf u amount) by lia.
    destruct (Z.eqb_spec (remaining s) q); destruct (Z.eqb_spec u 0); try lia.
    - apply Ok_inj in Hm. rewrite <- Hm. by rewrite !app_assoc.
    - by rewrite (bump_last_app _ _ _ _ Hm). }
  assert (Hcost : wcost s + p * amount
          = notional (fill_taken (pre ++ (p, q) :: suf) (filled s + amount))).
  { rewrite Hfill, <- Z.add_assoc, fill_taken_pass by (done || lia).
    rewrite notional_app, (notional_more p q suf u amount) by lia.
    rewrite Hc, notional_app. lia. }
  assert (Hbnd : filled s + amount ≤ target) by lia.
  unfold walk_step. rewrite (lookup_app_l_Some _ _ _ _ Hlook). fold amount. rewrite Htc. simpl.
  destruct (Z.eqb_spec (remaining s - amount) 0) as [E|E].
  - (* the level is used up *)
    assert (Hd : filled s + amount = depth (pre ++ [(p, q)])).
    { rewrite depth_app. replace (depth [(p, q)]) with q by (unfold depth; simpl; lia). lia. }
    destruct suf as [|[p' q'] suf'].
    + assert (hidden = []) as ->.
      { destruct Hh as [|Hh]; [done|]. rewrite <- Hd in Hh. lia. }
      rewrite app_nil_r, length_app. simpl.
      destruct (Nat.ltb_spec (S (level_index s)) (length pre + 1)); [lia|]. simpl.
      eexists. split; [done|]. split; [|simpl; split; [lia|by right]].
      exists (pre ++ [(p, q)]), []. rewrite app_nil_r. simpl.
      rewrite length_app. simpl. repeat split; done || lia.
    + assert (Hlook' : (pre ++ (p, q) :: (p', q') :: suf') !! S (level_index s) = Some (p', q')).
      { rewrite Hi, lookup_app_r by lia. by replace (S (length pre) - length pre)%nat with 1%nat by lia. }
      assert (S (level_index s) < length ((pre ++ (p, q) :: (p', q') :: suf') ++ hidden))%nat.
      { rewrite length_app. apply lookup_lt_Some in Hlook'. lia. }
      destruct (Nat.ltb_spec (S (level_index s))
        (length ((pre ++ (p, q) :: (p', q') :: suf') ++ hidden))); [|lia].
      rewrite (level_at_ok _ _ _ _ _ Hv Hlook'). simpl.
      eexists. split; [done|]. split; [|simpl; split; [lia|by right]].
      exists (pre ++ [(p, q)]), ((p', q') :: suf'). rewrite <- app_assoc. simpl.
      rewrite length_app. simpl.
      apply Forall_cons in Hsuf as [[? ?] _]. simpl in *. repeat split; done || lia.
  - (* the target is reached inside the level *)
    simpl. eexists. split; [done|]. split; [|simpl; split; [lia|left; lia]].
    exists pre, ((p, q) :: suf). simpl. repeat split; done || lia.
Qed.

Lemma walk_target_ok fuel vis hidden target s :
  Forall level_ok vis → hidden = [] ∨ target < depth vis →
  walk_inv vis hidden s → filled s ≤ target →
  (length (vis ++ hidden) - level_index s < fuel)%nat →
  ∃ s', walk_target fuel (vis ++ hidden) target s = Ok s' ∧ walk_inv vis hidden s' ∧
        filled s' = Z.min (depth vis) target.
Proof.
  intros Hv Hh. revert s. induction fuel as [|fuel IH]; intros s Hs Hle Hfuel; [lia|].
  simpl. destruct (Z.ltb_spec (filled s) target) as [Hlt|Hge]; simpl.
  - destruct (Nat.ltb_spec (level_index s) (length (vis ++ hidden))) as [Hi|Hi].
    + destruct (walk_step_ok vis hidden target s) as (s1 & E & Hs1 & ? & Hp); [done..|].
      rewrite E. simpl. destruct Hp as [Hp|Hp]; [|apply IH; done || lia].
      assert (walk_target fuel (vis ++ hidden) target s1 = Ok s1) as ->.
      { destruct fuel; simpl; destruct (Z.ltb_spec (filled s1) target); done || lia. }
      exists s1. split; [done|]. split; [done|].
      pose proof (walk_inv_filled _ _ _ Hv Hs1). lia.
    + exists s. split; [done|]. split; [done|].
      destruct Hs as (pre & suf & -> & Hidx & _ & _ & _ & Hm).
      rewrite Hidx, !length_app in Hi. destruct suf as [|[p q] suf]; simpl in Hi; [|lia].
      destruct Hm as [-> Hf]. rewrite app_nil_r in *. rewrite Hf in *. lia.
  - exists s. split; [done|]. split; [done|]. pose proof (walk_inv_filled _ _ _ Hv Hs). lia.
Qed.

Lemma walk_fill_ref vis hidden target s :
  walk_inv vis hidden s → filled s = Z.min (depth vis) target →
  walk_fill target s = ref_fill vis target.
Proof.
  intros (_ & _ & _ & _ & Hc & Ht & Hk & _) Hf. unfold walk_fill, ref_fill.
  rewrite Hc, Ht, Hk, Hf. by replace (Z.min (Z.min (depth vis) target) target)
    with (Z.min (depth vis) target) by lia.
Qed.

Lemma walk_sizes_ok vis hidden sizes s :
  Forall level_ok vis → Forall (λ t, hidden = [] ∨ t < depth vis) sizes →
  increasing sizes = true → walk_inv vis hidden s →
  Forall (λ t, filled s ≤ t) sizes →
  walk_sizes (vis ++ hidden) sizes s = Ok (map (ref_fill vis) sizes).
Proof.
  intros Hv Hh. revert s. induction Hh as [|t sizes Ht Hh IH]; intros s Hinc Hs Hle; [done|].
  apply Forall_cons in Hle as [Hle Hall].
  apply increasing_cons in Hinc as [Hinc Hgt].
  destruct (walk_target_ok (S (length (vis ++ hidden))) vis hidden t s) as (s' & E & Hs' & Hf);
    [done..|lia|].
  change (walk_sizes (vis ++ hidden) (t :: sizes) s) with
    (s' ← walk_target (S (length (vis ++ hidden))) (vis ++ hidden) t s;
     fills ← walk_sizes (vis ++ hidden) sizes s'; Ok (walk_fill t s' :: fills)).
  rewrite E. simpl. rewrite IH; [|done..|].
  - simpl. by rewrite (walk_fill_ref _ _ _ _ Hs' Hf).
  - eapply Forall_impl; [exact Hgt|]. simpl. lia.
Qed.

Lemma walk_start vis hidden :
  Forall level_ok vis → vis ≠ [] ∨ hidden = [] →
  ∃ q, walk_first (vis ++ hidden) = Ok q ∧ walk_inv vis hidden (WalkState 0 q 0 0 [] []).
Proof.
  intros Hv Hne. unfold walk_first. destruct vis as [|[p q] vis].
  - destruct Hne as [ | ->]; [done|]. exists 0. split; [done|]. exists [], []. done.
  - rewrite <- app_comm_cons.
    pose proof (level_at_ok _ hidden 0 p q Hv eq_refl) as E. rewrite <- app_comm_cons in E.
    rewrite E. exists q. split; [done|].
    apply Forall_cons in Hv as [[? ?] _]. simpl in *.
    exists [], ((p, q) :: vis). simpl. repeat split; done || lia || (unfold depth; simpl; lia).
Qed.

(** The sizes [walk] accepts. *)
Definition sizes_ok (sizes : list Z) : bool :=
  match sizes with [] => false | _ => forallb (λ s, 0 <? s) sizes && increasing sizes end.

Lemma walk_prefix_fills vis hidden sizes :
  sizes_ok sizes = true → Forall level_ok vis →
  hidden = [] ∨ Forall (λ t, t < depth vis) sizes →
  walk (vis ++ hidden) sizes = Ok (map (ref_fill vis) sizes).
Proof.
  intros Hok Hv Hh. unfold walk. unfold sizes_ok in Hok.
  destruct sizes as [|t sizes]; [done|]. apply andb_true_iff in Hok as [Hpos Hinc].
  rewrite Hpos, Hinc. cbn [guard_or mbind result_bind].
  assert (Hpos' : Forall (λ u, 0 < u) (t :: sizes)).
  { apply forallb_Forall in Hpos. eapply Forall_impl; [exact Hpos|]. intros u. apply Z.ltb_lt. }
  destruct (walk_start vis hidden Hv) as (q & E & Hs).
  { destruct vis as [|l vis]; [|by left]. right. destruct Hh as [|Hh]; [done|].
    apply Forall_cons in Hh as [Hh _]. apply Forall_cons in Hpos' as [Hp _].
    unfold depth in Hh; simpl in Hh. lia. }
  rewrite E. cbn [mbind result_bind].
  apply (walk_sizes_ok vis hidden (t :: sizes)); [done| |done|done|].
  - destruct Hh as [->|Hh]; [apply Forall_true; by left|].
    eapply Forall_impl; [exact Hh|]. intros u ?. by right.
  - eapply Forall_impl; [exact Hpos'|]. simpl. lia.
Qed.

(** ** The basket: limit, legs and targets *)

(** The step limit of each leg: its usable depth over its unit. *)
Definition leg_limits (ladders : list (list level)) (units : list Z) (max_levels : option nat)
    : list Z :=
  zip_with (λ ladder unit, depth (usable_levels max_levels ladder) / unit) ladders units.

Definition ref_legs (ladders : list (list level)) (units : list Z) (steps : Z) : list Fill :=
  zip_with (λ ladder unit, ref_fill ladder (steps * unit)) ladders units.

Lemma usable_ok max_levels ladder :
  Forall level_ok ladder → Forall level_ok (usable_levels max_levels ladder).
Proof. destruct max_levels; simpl; [apply Forall_take | done]. Qed.

Lemma usable_depth_le max_levels ladder :
  Forall level_ok ladder → depth (usable_levels max_levels ladder) ≤ depth ladder.
Proof.
  intros H. destruct max_levels as [n|]; simpl; [|lia].
  rewrite <- (take_drop n ladder) at 2. rewrite depth_app.
  assert (0 ≤ depth (drop n ladder)) by (apply depth_nonneg; by apply Forall_drop). lia.
Qed.

Lemma boundary_points_ok cumulative usable :
  Forall level_ok usable →
  ∃ points, boundary_points cumulative usable = Ok points ∧
    default cumulative (last points) = cumulative + depth usable.
Proof.
  intros H. revert cumulative. induction H as [|[p q] ls [Hp Hq] _ IH]; intros c; simpl.
  - exists []. split; [done|]. unfold depth; simpl. lia.
  - simpl in Hp, Hq. destruct (Z.ltb_spec p 0); [lia|]. destruct (Z.leb_spec q 0); [lia|]. simpl.
    destruct (IH (c + q)) as (points & -> & Hl). simpl. eexists. split; [done|].
    rewrite depth_cons, last_cons. simpl. destruct (last points); simpl in *; lia.
Qed.

Definition min_opt (o : option Z) (z : Z) : option Z :=
  Some (match o with None => z | Some l => Z.min l z end).

Lemma basket_boundaries_ok max_levels ladders units limit :
  Forall (Forall level_ok) ladders →
  ∃ bs, basket_boundaries max_levels (zip2 ladders units) limit
        = Ok (bs, foldl min_opt limit (leg_limits ladders units max_levels)).
Proof.
  intros H. revert units limit.
  induction H as [|ladder ladders Hl _ IH]; intros [|u units] limit; simpl; eauto.
  destruct (boundary_points_ok 0 (usable_levels max_levels ladder)) as (points & -> & Hlast);
    [by apply usable_ok|].
  simpl. rewrite Hlast, Z.add_0_l.
  replace (match limit with None => Some (depth (usable_levels max_levels ladder) / u)
           | Some l => if depth (usable_levels max_levels ladder) / u <? l
                       then Some (depth (usable_levels max_levels ladder) / u) else Some l end)
    with (min_opt limit (depth (usable_levels max_levels ladder) / u)).
  - destruct (IH units (min_opt limit (depth (usable_levels max_levels ladder) / u))) as [bs ->].
    simpl. eauto.
  - unfold min_opt. destruct limit as [l|]; [|done].
    destruct (Z.ltb_spec (depth (usable_levels max_levels ladder) / u) l); f_equal; lia.
Qed.

(** The least of a list of limits (0 for the empty list, which [walk_basket] refuses). *)
Definition step_limit (limits : list Z) : Z := default 0 (foldl min_opt None limits).

Lemma foldl_min_opt_some l z : ∃ m, foldl min_opt (Some z) l = Some m ∧ m ≤ z ∧
  Forall (λ x, m ≤ x) l ∧ (m = z ∨ m ∈ l).
Proof.
  revert z. induction l as [|x l IH]; intros z; simpl.
  - exists z. split_and!; [done|lia|constructor|by left].
  - change (min_opt (Some z) x) with (Some (Z.min z x)).
    destruct (IH (Z.min z x)) as (m & -> & Hm & Hall & Hin). exists m.
    split_and!; [done|lia|constructor; [lia|done]|].
    destruct Hin as [->|Hin]; [|right; by constructor].
    destruct (Z.min_spec z x) as [[_ ->]|[_ ->]]; [by left | right; constructor].
Qed.

(** [step_limit] is the minimum. *)
Lemma step_limit_min limits :
  limits ≠ [] → step_limit limits ∈ limits ∧ Forall (λ x, step_limit limits ≤ x) limits.
Proof.
  destruct limits as [|z l]; [done|]. intros _. unfold step_limit. simpl.
  destruct (foldl_min_opt_some l z) as (m & E & Hm & Hall & Hin).
  change (min_opt None z) with (Some z). rewrite E. simpl. split.
  - destruct Hin as [->|Hin]; by constructor.
  - by constructor.
Qed.

Lemma ref_fill_zero ladder : Forall level_ok ladder → ref_fill ladder 0 = empty_fill.
Proof.
  intros H. unfold ref_fill. apply depth_nonneg in H. rewrite Z.min_r by lia.
  by rewrite fill_taken_nil, fill_consumed_nil by lia.
Qed.

Lemma legs_at_ref ladders units steps :
  Forall (Forall level_ok) ladders → Forall (λ u, 0 < u) units →
  length ladders = length units → 0 ≤ steps →
  legs_at ladders units steps = Ok (ref_legs ladders units steps).
Proof.
  intros Hl Hu Hlen Hs. unfold legs_at, ref_legs. destruct (Z.eqb_spec steps 0) as [->|Hne].
  - f_equal. revert units Hu Hlen. induction Hl as [|ladder ladders Hl _ IH];
      intros [|u units] Hu Hlen; simpl in *; [done..|].
    rewrite ref_fill_zero by done. f_equal. apply Forall_cons in Hu as [_ Hu]. auto.
  - revert units Hu Hlen. induction Hl as [|ladder ladders Hl _ IH];
      intros [|u units] Hu Hlen; simpl in *; [done..|].
    apply Forall_cons in Hu as [Hu0 Hu].
    pose proof (walk_prefix_fills ladder [] [steps * u]) as E. rewrite app_nil_r in E.
    rewrite E; [|simpl; destruct (Z.ltb_spec 0 (steps * u)); done || nia|done|by left].
    simpl. rewrite IH by (done || lia). done.
Qed.

(** A leg at or below the limit is filled exactly. *)
Definition exact_fill (steps unit : Z) (f : Fill) : Prop :=
  filled_atoms f = steps * unit ∧ depth_limited f = false ∧
  depth (taken f) = steps * unit ∧ cost f = notional (taken f).

Lemma ref_fill_exact ladder n :
  Forall level_ok ladder → 0 ≤ n ≤ depth ladder →
  filled_atoms (ref_fill ladder n) = n ∧ depth_limited (ref_fill ladder n) = false ∧
  depth (taken (ref_fill ladder n)) = n.
Proof.
  intros Hl Hn. unfold ref_fill; simpl. rewrite Z.min_r by lia.
  split_and!; [done|apply Z.ltb_ge; lia|by apply fill_taken_depth].
Qed.

Lemma limit_depth max_levels ladders units steps :
  Forall (Forall level_ok) ladders → Forall (λ u, 0 < u) units →
  length ladders = length units → 0 ≤ steps →
  Forall (λ x, steps ≤ x) (leg_limits ladders units max_levels) →
  Forall2 (exact_fill steps) units (ref_legs ladders units steps).
Proof.
  intros Hl. revert units. induction Hl as [|ladder ladders Hl _ IH];
    intros [|u units] Hu Hlen Hs Hlim; simpl in *; [constructor|done..|].
  apply Forall_cons in Hu as [Hu0 Hu]. apply Forall_cons in Hlim as [Hlim Hrest].
  constructor; [|apply IH; done || lia].
  assert (steps * u ≤ depth ladder).
  { pose proof (usable_depth_le max_levels ladder Hl).
    pose proof (Z.mul_div_le (depth (usable_levels max_levels ladder)) u Hu0). nia. }
  destruct (ref_fill_exact ladder (steps * u) Hl ltac:(nia)) as (? & ? & ?).
  unfold exact_fill. split_and!; done.
Qed.

(** Whatever is walked, the levels before the fill are the heads of the ladders. *)
Definition shows_heads (ladders : list (list level)) (units : list Z) (r : BasketFill) : Prop :=
  length (legs r) = length ladders → length ladders = length units → before r = map head ladders.

Lemma priced_shows_heads ladders units max_levels n ls s v :
  shows_heads ladders units (priced ladders units max_levels n ls s v).
Proof.
  unfold shows_heads, priced. cbn [legs before]. generalize (match max_levels with
    None => None | Some n => Some (S n) end) as bound. intros bound.
  revert ls units. induction ladders as [|l ladders IH]; intros [|f ls] [|u units]; try done.
  simpl. intros [= H1] [= H2]. f_equal. by apply IH.
Qed.

Lemma walk_basket_heads ladders units targets value edge max_levels rs :
  walk_basket ladders units targets value edge max_levels = Ok rs →
  Forall (shows_heads ladders units) rs.
Proof.
  intros H. unfold walk_basket in H. apply bind_ok in H as (u & _ & H).
  apply bind_ok in H as (bl & _ & H). apply bind_ok in H as (ts & Ht & H).
  assert (Forall (shows_heads ladders units) ts) as Hts.
  { apply mapR_ok in Ht. clear -Ht. induction Ht as [|t r l ts Htr _ IH]; constructor; [|done].
    unfold basket_target in Htr. destruct (t <=? _); apply bind_ok in Htr as (ls & _ & [= <-]);
      apply priced_shows_heads. }
  destruct edge; [|by injection H as <-]. apply bind_ok in H as (e & He & [= <-]).
  apply Forall_app. split; [done|]. constructor; [|done].
  unfold basket_edge in He. apply bind_ok in He as (none & _ & He).
  apply bind_ok in He as (es & _ & [= <-]). apply priced_shows_heads.
Qed.

(** ** The edge walk, over an abstract valuation *)
Section EdgeLoop.
Context (L : Z → list Fill) (V : Z → option Z) (limit : Z) (stop : string).

Context (at_fn : Z → result (list Fill * option Z)).
Context (at_fn_ok : ∀ s, 0 < s ≤ limit → at_fn s = Ok (L s, V s)).

(** Zero steps is worth exactly zero. *)
Definition worth (s : Z) : option Z := if s =? 0 then Some 0 else V s.

(** What the loop may end with, from the best step count [b] and the candidates
    [ordered] after it. *)
Definition edge_outcome (b : Z) (ordered : list Z) (e : edge_state) : Prop :=
  b ≤ best e ≤ limit ∧ best_legs e = L (best e) ∧
  best_value e = worth (best e) ∧
  (∀ c, c = b ∨ c ∈ ordered → c < best e → ∀ vb, worth (best e) = Some vb →
     ∃ vc, worth c = Some vc ∧ vc < vb) ∧
  ((edge_stop e = "edge"%string ∧ best e < limit ∧
      ∃ vb vn, worth (best e) = Some vb ∧ worth (best e + 1) = Some vn ∧ vn ≤ vb)
   ∨ (edge_stop e = "value_unknown"%string ∧ 0 < best e ∧ worth (best e) = None)
   ∨ (edge_stop e = stop ∧ is_Some (worth (best e)) ∧ best e = default b (last ordered))).

(** The next candidate [c] is accepted, with value [v]: the rest of the loop
    starts at [c]. *)
Lemma edge_outcome_accept b v c ordered e :
  0 ≤ b → worth b = Some v → b < c →
  (∀ vc, worth c = Some vc → v < vc) →
  edge_outcome c ordered e → edge_outcome b (c :: ordered) e.
Proof.
  intros Hb0 Hb Hbc Hv (He & HL & Hval & Hall & Hstop). split_and!; [lia..|done|done| |].
  - intros d Hd Hlt vb Hvb.
    assert (Hc : c < best e → ∃ vc, worth c = Some vc ∧ vc < vb) by (intros; apply Hall; auto).
    destruct Hd as [->|Hd].
    + exists v. split; [done|]. destruct (decide (c = best e)) as [->|].
      * by apply Hv in Hvb.
      * destruct Hc as (vc & Hvc & ?); [lia|]. apply Hv in Hvc. lia.
    + apply elem_of_cons in Hd as [->|Hd]; [auto|]. apply Hall; auto.
  - destruct Hstop as [Hs|[Hs|(Hs & Hsm & Hlast)]]; [by left|by right; left|].
    right; right. split_and!; [done..|]. rewrite last_cons. rewrite Hlast.
    by destruct (last ordered).
Qed.

(** The walk climbs one step, to [b + 1], before the next candidate. *)
Lemma edge_outcome_climb b v v' ordered e :
  0 ≤ b → worth b = Some v → worth (b + 1) = Some v' → v < v' → ordered ≠ [] →
  edge_outcome (b + 1) ordered e → edge_outcome b ordered e.
Proof.
  intros Hb0 Hb Hb' Hv Hne (He & HL & Hval & Hall & Hstop). split_and!; [lia..|done|done| |].
  - intros d [->|Hd] Hlt vb Hvb; [|by apply Hall; auto].
    exists v. split; [done|]. destruct (decide (b + 1 = best e)) as [E|].
    + rewrite <- E in Hvb. simplify_eq. lia.
    + destruct (Hall (b + 1)) with vb as (? & ? & ?); [by left|lia|done|]. simplify_eq. lia.
  - destruct Hstop as [Hs|[Hs|(Hs & Hsm & Hlast)]]; [by left|by right; left|].
    right; right. split_and!; [done..|]. rewrite Hlast.
    destruct ordered as [|c l] using rev_ind; [done|]. by rewrite last_snoc.
Qed.

Lemma edge_loop_outcome fuel ordered b v :
  0 ≤ b ≤ limit → worth b = Some v → StronglySorted Z.lt ordered →
  Forall (λ c, b < c ≤ limit) ordered →
  (length ordered + Z.to_nat (limit - b) < fuel)%nat →
  ∃ e, edge_loop fuel at_fn ordered b v (L b) stop = Ok e ∧ edge_outcome b ordered e.
Proof.
  revert ordered b v. induction fuel as [|fuel IH]; intros ordered b v Hb Hv Hs Hc Hf; [lia|].
  destruct ordered as [|c later].
  { simpl. eexists. split; [done|]. split_and!; simpl; [lia..|done|by rewrite Hv| |].
    - intros d [->|Hd]; [lia|by apply elem_of_nil in Hd].
    - right; right. rewrite Hv. by split_and!. }
  apply Forall_cons in Hc as [Hc Hlater]. apply StronglySorted_inv in Hs as [Hs Hclt].
  assert (Hworth : ∀ s, 0 < s → worth s = V s).
  { intros s Hs0. unfold worth. by destruct (Z.eqb_spec s 0); [lia|]. }
  assert (Hnext : Forall (λ d, c < d ≤ limit) later).
  { apply Forall_forall. intros d Hd. rewrite Forall_forall in Hlater, Hclt.
    specialize (Hlater d Hd). specialize (Hclt d Hd). lia. }
  (* the candidate [c] settles the iteration *)
  assert (Hunknown : ∀ s, b < s ≤ limit → V s = None →
            edge_outcome b (c :: later) (EdgeState s None (L s) "value_unknown")).
  { intros s Hsb HV. rewrite <- Hworth in HV by lia. split_and!; simpl; [lia..|done|done| |].
    - intros ????; congruence.
    - right; left. split_and!; [done|lia|done]. }
  assert (Hedge : ∀ s vs, s = b + 1 → b < limit → V s = Some vs → vs ≤ v →
            edge_outcome b (c :: later) (EdgeState b (Some v) (L b) "edge")).
  { intros s vs -> Hlt HV Hle. rewrite <- Hworth in HV by lia.
    split_and!; simpl; [lia..|done|done| |].
    - intros d [->|Hd] ?; [lia|]. apply elem_of_cons in Hd as [->|Hd]; [lia|].
      rewrite Forall_forall in Hlater. specialize (Hlater d Hd). lia.
    - left. split_and!; [done|lia|eauto]. }
  simpl. rewrite (at_fn_ok c) by lia. simpl.
  destruct (V c) as [vc|] eqn:EV; [|eexists; split; [done|apply Hunknown; done || lia]].
  destruct (Z.leb_spec vc v) as [Hle|Hgt]; simpl.
  - destruct (Z.ltb_spec (b + 1) c) as [Hb1|Hb1]; simpl.
    + rewrite (at_fn_ok (b + 1)) by lia. simpl. destruct (V (b + 1)) as [v'|] eqn:EV'.
      * destruct (Z.ltb_spec v v') as [Hup|Hdown].
        -- (* climb by one and compare [c] again *)
           destruct (IH (c :: later) (b + 1) v') as (e & -> & He).
           ++ lia.
           ++ by rewrite Hworth by lia.
           ++ by constructor.
           ++ constructor; [lia|]. eapply Forall_impl; [exact Hnext|]. simpl. lia.
           ++ simpl in *. lia.
           ++ exists e. split; [done|].
              apply edge_outcome_climb with v v'; try done || lia.
              by rewrite Hworth by lia.
        -- destruct (Z.leb_spec v' v); [|lia]. eexists. split; [done|].
           eapply Hedge; done || lia.
      * eexists. split; [done|]. apply Hunknown; done || lia.
    + eexists. split; [done|]. eapply (Hedge c vc); done || lia.
  - destruct (IH later c vc) as (e & -> & He).
    + lia.
    + by rewrite Hworth by lia.
    + done.
    + done.
    + simpl in *. lia.
    + exists e. split; [done|]. eapply edge_outcome_accept; [lia|done|lia| |done].
      intros w Hw. rewrite Hworth in Hw by lia. congruence.
Qed.
End EdgeLoop.

(** The candidates are the step counts around every leg's level boundaries, in
    increasing order, within the limit. *)
Lemma edge_candidates_elem boundaries units limit c :
  c ∈ edge_candidates boundaries units limit ↔
  0 < c ≤ limit ∧ (c = limit ∨ ∃ i points unit p, boundaries !! i = Some points ∧
    units !! i = Some unit ∧ p ∈ points ∧ (c = p / unit ∨ c = ceil_div p unit)).
Proof.
  unfold edge_candidates. rewrite sort_by_elem, list_elem_of_filter, elem_of_remove_dups.
  apply and_iff_compat_l. rewrite elem_of_cons. apply or_iff_compat_l.
  rewrite list_elem_of_In, in_concat. setoid_rewrite <- list_elem_of_In. split.
  - intros (l & Hl & Hc). apply elem_of_lookup_zip_with in Hl
      as (i & points & unit & -> & Hp & Hu).
    apply list_elem_of_In, in_concat in Hc as (l' & Hl' & Hc).
    apply in_map_iff in Hl' as (p & <- & Hpp).
    exists i, points, unit, p. split_and!; [done..|by apply list_elem_of_In|].
    destruct Hc as [<-|[<-|[]]]; auto.
  - intros (i & points & unit & p & Hp & Hu & Hpp & Hc).
    eexists. split; [apply elem_of_lookup_zip_with; by eauto 10|].
    apply list_elem_of_In, in_concat. eexists. split; [apply in_map_iff; exists p; split; [done|]|].
    + by apply list_elem_of_In.
    + simpl. naive_solver.
Qed.

Lemma sorted_nodup_strict l :
  StronglySorted (λ a b, (a <=? b) = true) l → NoDup l → StronglySorted Z.lt l.
Proof.
  induction 1 as [|a l Hl IH Ha]; intros Hnd; [constructor|].
  apply NoDup_cons in Hnd as [Hnin Hnd]. constructor; [auto|].
  apply Forall_forall. intros b Hb. rewrite Forall_forall in Ha.
  specialize (Ha b Hb). simpl in Ha. apply Z.leb_le in Ha.
  assert (a ≠ b) by congruence. lia.
Qed.

Lemma edge_candidates_sorted boundaries units limit :
  StronglySorted Z.lt (edge_candidates boundaries units limit).
Proof.
  unfold edge_candidates. apply sorted_nodup_strict.
  - apply sort_by_sorted; intros *; rewrite !Z.leb_le; lia.
  - rewrite sort_by_perm. apply NoDup_filter, NoDup_remove_dups.
Qed.

Lemma edge_candidates_range boundaries units limit :
  Forall (λ c, 0 < c ≤ limit) (edge_candidates boundaries units limit).
Proof. apply Forall_forall. intros c Hc. by apply edge_candidates_elem in Hc as [? _]. Qed.

Lemma sorted_last l m :
  StronglySorted Z.lt l → Forall (λ c, c ≤ m) l → m ∈ l → last l = Some m.
Proof.
  induction l as [|a l IH] using rev_ind; intros Hs Hle Hin; [by apply elem_of_nil in Hin|].
  rewrite last_snoc. f_equal. apply Forall_app in Hle as [_ Ha].
  apply Forall_cons in Ha as [Ha _]. apply elem_of_app in Hin as [Hin|Hin].
  - assert (m < a); [|lia]. clear IH. induction l as [|b l IHl]; [by apply elem_of_nil in Hin|].
    rewrite <- app_comm_cons in Hs. apply StronglySorted_inv in Hs as [Hs Hb].
    apply elem_of_cons in Hin as [->|Hin]; [|auto].
    apply Forall_app in Hb as [_ Hb]. by apply Forall_cons in Hb as [? _].
  - by apply elem_of_cons in Hin as [->|Hin%elem_of_nil].
Qed.

(** Running out of candidates means having reached the limit. *)
Lemma edge_candidates_last boundaries units limit :
  0 ≤ limit → default 0 (last (edge_candidates boundaries units limit)) = limit.
Proof.
  intros Hl. destruct (decide (limit = 0)) as [->|].
  - assert (edge_candidates boundaries units 0 = []) as ->; [|done].
    pose proof (edge_candidates_range boundaries units 0) as Hr.
    destruct (edge_candidates boundaries units 0); [done|].
    apply Forall_cons in Hr as [? _]. lia.
  - erewrite sorted_last; [done|apply edge_candidates_sorted| |].
    + eapply Forall_impl; [apply edge_candidates_range|]. simpl. lia.
    + apply edge_candidates_elem. split; [lia|by left].
Qed.

(** ** The theorems of [walk_basket] *)

(** The arguments [walk_basket] is called with: best-first ladders with nonnegative
    prices and positive quantities, one positive unit per ladder. *)
Record basket_args (ladders : list (list level)) (units targets : list Z)
    (value : option valuation) (edge : bool) (max_levels : option nat) : Prop := BasketArgs {
  ba_ladders : Forall (Forall level_ok) ladders;
  ba_units : Forall (λ u, 0 < u) units;
  ba_length : length ladders = length units;
  ba_nonempty : units ≠ [];
  ba_targets : forallb (λ t, 0 <? t) targets = true;
  ba_increasing : increasing targets = true;
  ba_some : targets ≠ [] ∨ edge = true;
  ba_value : edge = true → is_Some value;
  ba_cap : max_levels ≠ Some O;
}.

Section BasketTheorems.
Context (ladders : list (list level)) (units targets : list Z)
        (value_fn : option valuation) (edge : bool) (max_levels : option nat).
Context (args : basket_args ladders units targets value_fn edge max_levels).

Let limit := step_limit (leg_limits ladders units max_levels).
Let exhausted : string :=
  if basket_capped max_levels (zip2 ladders units) limit then "level_cap" else "book_exhausted".

Lemma basket_guards_ok : basket_guards ladders units targets value_fn edge max_levels = Ok ().
Proof.
  destruct args as [_ Hu Hlen Hne Ht Hinc Hsome Hv Hcap]. unfold basket_guards.
  rewrite (bool_decide_false (units = [])) by done. rewrite Hlen, Nat.eqb_refl. simpl.
  assert (forallb (λ u, 0 <? u) units = true) as ->.
  { apply forallb_Forall. eapply Forall_impl; [exact Hu|]. intros u. apply Z.ltb_lt. }
  rewrite Ht, Hinc. simpl.
  replace (negb (bool_decide (targets = [])) || edge) with true.
  2:{ destruct Hsome as [Hs|Hs]; [by rewrite bool_decide_false|].
      rewrite Hs. by rewrite orb_true_r. }
  replace (negb (edge && match value_fn with Some _ => false | None => true end)) with true.
  2:{ destruct edge; [|done]. by destruct Hv as [? ->]. }
  simpl. by destruct max_levels as [[]|].
Qed.

Lemma limit_bounds : 0 ≤ limit ∧ Forall (λ x, limit ≤ x) (leg_limits ladders units max_levels).
Proof.
  destruct args as [Hl Hu Hlen Hne _ _ _ _ _].
  assert (leg_limits ladders units max_levels ≠ []) as Hnil.
  { unfold leg_limits. destruct ladders, units; simpl in *; done. }
  destruct (step_limit_min _ Hnil) as [Hin Hall]. split; [|done].
  apply elem_of_lookup_zip_with in Hin as (i & ladder & u & Heq & Hi & Hj).
  unfold limit. rewrite Heq.
  apply Z.div_pos; [|by apply (Forall_lookup_1 _ _ _ _ Hu) in Hj].
  apply depth_nonneg, usable_ok. by apply (Forall_lookup_1 _ _ _ _ Hl) in Hi.
Qed.

Lemma at_steps_ref s :
  0 ≤ s → at_steps ladders units value_fn s
          = Ok (ref_legs ladders units s, valued value_fn s (ref_legs ladders units s)).
Proof.
  intros Hs. destruct args. unfold at_steps. by rewrite legs_at_ref.
Qed.

(** What a priced fill of [n] steps says about its legs. *)
Definition priced_ok (n : Z) (r : BasketFill) : Prop :=
  steps r = n ∧ legs r = ref_legs ladders units n ∧ Forall2 (exact_fill n) units (legs r).

Lemma priced_is_ok n s v :
  0 ≤ n ≤ limit →
  priced_ok n (priced ladders units max_levels n (ref_legs ladders units n) s v).
Proof.
  intros Hn. destruct args as [Hl Hu Hlen _ _ _ _ _ _], limit_bounds as [_ Hb].
  unfold priced_ok. simpl. split_and!; [done..|].
  apply limit_depth with max_levels; [done..|lia|].
  eapply Forall_impl; [exact Hb|]. simpl. lia.
Qed.

(** The result for one target. *)
Definition target_result (target : Z) (r : BasketFill) : Prop :=
  priced_ok (Z.min target limit) r ∧
  stop r = (if target <=? limit then "target"%string else exhausted) ∧
  value r = valued value_fn (steps r) (legs r).

Lemma basket_target_ok target :
  0 < target →
  ∃ r, basket_target ladders units value_fn max_levels limit exhausted target = Ok r ∧
       target_result target r.
Proof.
  intros Ht. destruct args as [Hl Hu Hlen _ _ _ _ _ _], limit_bounds as [Hl0 Hb].
  unfold basket_target, target_result.
  destruct (Z.leb_spec target limit) as [H|H].
  - rewrite legs_at_ref by (done || lia). rewrite Z.min_l by lia. simpl.
    eexists. split; [done|]. split; [apply priced_is_ok; lia|done].
  - rewrite legs_at_ref by (done || lia). rewrite Z.min_r by lia. simpl.
    eexists. split; [done|]. split; [apply priced_is_ok; lia|done].
Qed.

Lemma basket_targets_ok :
  ∃ rs, mapR (basket_target ladders units value_fn max_levels limit exhausted) targets = Ok rs ∧
        Forall2 target_result targets rs.
Proof.
  apply mapR_exists. pose proof (ba_targets _ _ _ _ _ _ args) as Ht.
  apply forallb_Forall in Ht. eapply Forall_impl; [exact Ht|].
  intros t Hpos. by apply basket_target_ok, Z.ltb_lt.
Qed.

(** The result of the edge walk under valuation [v]. *)
Definition edge_result (v : valuation) (boundaries : list (list Z)) (r : BasketFill) : Prop :=
  let w n := worth (λ n, v n (ref_legs ladders units n)) n in
  let n := steps r in
  priced_ok n r ∧ 0 ≤ n ≤ limit ∧
  value r = (if n =? 0 then None else w n) ∧
  (∀ c, c = 0 ∨ c ∈ edge_candidates boundaries units limit → c < n →
     ∀ vn, w n = Some vn → ∃ vc, w c = Some vc ∧ vc < vn) ∧
  ((stop r = "edge"%string ∧ n < limit ∧
      ∃ vn vn', w n = Some vn ∧ w (n + 1) = Some vn' ∧ vn' ≤ vn)
   ∨ (stop r = "value_unknown"%string ∧ 0 < n ∧ w n = None)
   ∨ (stop r = exhausted ∧ is_Some (w n) ∧ n = limit)).

Lemma basket_edge_ok v boundaries :
  value_fn = Some v →
  ∃ r, basket_edge ladders units value_fn max_levels limit exhausted boundaries = Ok r ∧
       edge_result v boundaries r.
Proof.
  intros Hv. destruct args as [Hl Hu Hlen _ _ _ _ _ _], limit_bounds as [Hl0 Hb].
  unfold basket_edge. rewrite legs_at_ref by (done || lia). cbn [mbind result_bind].
  set (ordered := edge_candidates boundaries units limit).
  set (V := λ n, v n (ref_legs ladders units n)).
  destruct (edge_loop_outcome (ref_legs ladders units) V limit exhausted
    (at_steps ladders units value_fn)) with
    (fuel := S (length ordered + Z.to_nat limit)) (ordered := ordered) (b := 0) (v := 0)
    as (e & E & He).
  - intros s Hs. rewrite at_steps_ref by lia. rewrite Hv. simpl.
    by destruct (Z.eqb_spec s 0); [lia|].
  - lia.
  - done.
  - apply edge_candidates_sorted.
  - apply edge_candidates_range.
  - rewrite Z.sub_0_r. lia.
  - rewrite E. cbn [mbind result_bind]. eexists. split; [done|].
    destruct He as (Hrange & HL & Hval & Hall & Hstop).
    rewrite HL. unfold edge_result. simpl.
    split_and!; [by apply priced_is_ok|lia|lia|by rewrite Hval|exact Hall|].
    destruct Hstop as [(Hs & ?)|[(Hs & ?)|(Hs & ? & Hlast)]]; rewrite Hs; [by left|by right; left|].
    right; right. split_and!; [done..|]. rewrite Hlast. by apply edge_candidates_last.
Qed.

Lemma walk_basket_ok :
  ∃ rs tail boundaries,
    walk_basket ladders units targets value_fn edge max_levels = Ok (rs ++ tail) ∧
    basket_boundaries max_levels (zip2 ladders units) None = Ok (boundaries, Some limit) ∧
    Forall2 target_result targets rs ∧
    (if edge then ∃ v r, value_fn = Some v ∧ tail = [r] ∧ edge_result v boundaries r
     else tail = []).
Proof.
  unfold walk_basket. rewrite basket_guards_ok. cbn [mbind result_bind].
  destruct (basket_boundaries_ok max_levels ladders units None) as [bs Hbs];
    [by destruct args|].
  assert (Hlim : foldl min_opt None (leg_limits ladders units max_levels) = Some limit).
  { unfold limit, step_limit. destruct (leg_limits ladders units max_levels) as [|z l] eqn:E.
    - unfold leg_limits in E. destruct args as [_ _ Hlen Hne _ _ _ _ _].
      destruct ladders, units; simpl in *; done.
    - simpl. destruct (foldl_min_opt_some l z) as (m & Em & _).
      change (min_opt None z) with (Some z). by rewrite Em. }
  rewrite Hlim in Hbs. rewrite Hbs. cbn [mbind result_bind snd fst].
  change (default 0 (Some limit)) with limit. fold exhausted. destruct basket_targets_ok as (rs & -> & Hrs). cbn [mbind result_bind].
  assert (edge = true ∨ edge = false) as [Ee|Ee] by (destruct edge; auto); rewrite Ee.
  - destruct (ba_value _ _ _ _ _ _ args Ee) as [v Hv].
    destruct (basket_edge_ok v bs Hv) as (r & -> & Hr). cbn [mbind result_bind].
    exists rs, [r], bs. split_and!; [done..|]. eauto.
  - exists rs, [], bs. by rewrite app_nil_r.
Qed.
End BasketTheorems.

(** ** The maximum of a concave, piecewise linear valuation *)
Definition concave (f : Z → Z) (limit : Z) : Prop :=
  ∀ s, 0 < s < limit → f (s + 1) - f s ≤ f s - f (s - 1).

(** The valuation bends only at candidates, i.e. around level boundaries. *)
Definition linear_between (f : Z → Z) (limit : Z) (candidates : list Z) : Prop :=
  ∀ s, 0 < s < limit → s ∉ candidates → f (s + 1) - f s = f s - f (s - 1).

Definition smallest_maximum (f : Z → Z) (limit n : Z) : Prop :=
  0 ≤ n ≤ limit ∧ (∀ s, 0 ≤ s ≤ limit → f s ≤ f n) ∧ (∀ s, 0 ≤ s < n → f s < f n).

Section Maximum.
Context (f : Z → Z) (limit n : Z) (candidates : list Z).
Context (f_concave : concave f limit) (f_linear : linear_between f limit candidates).
Context (n_range : 0 ≤ n ≤ limit).
Context (below : ∀ c, c = 0 ∨ c ∈ candidates → c < n → f c < f n).

Lemma below_rising s : 0 < s < n → f (s - 1) < f s → f s < f n.
Proof.
  intros Hs Hup. remember (Z.to_nat (n - s)) as k eqn:Hk.
  revert s Hs Hup Hk. induction k as [|k IH]; intros s Hs Hup Hk; [lia|].
  destruct (decide (s ∈ candidates)) as [Hc|Hc]; [by apply below; [right|lia]|].
  pose proof (f_linear s ltac:(lia) Hc). destruct (decide (s + 1 = n)) as [<-|]; [lia|].
  specialize (IH (s + 1)). replace (s + 1 - 1) with s in IH by lia. lia.
Qed.

Lemma below_falling s : 0 ≤ s < n → f (s + 1) ≤ f s → f s < f n.
Proof.
  intros Hs Hdown. remember (Z.to_nat s) as k eqn:Hk.
  revert s Hs Hdown Hk. induction k as [|k IH]; intros s Hs Hdown Hk.
  { apply below; [left|]; lia. }
  destruct (decide (s ∈ candidates)) as [Hc|Hc]; [by apply below; [right|lia]|].
  pose proof (f_linear s ltac:(lia) Hc).
  specialize (IH (s - 1)). replace (s - 1 + 1) with s in IH by lia. lia.
Qed.

Lemma below_all s : 0 ≤ s < n → f s < f n.
Proof.
  intros Hs. destruct (Z.le_gt_cases (f (s + 1)) (f s)); [by apply below_falling|].
  destruct (decide (s = 0)) as [->|]; [apply below; [by left|lia]|].
  destruct (decide (s ∈ candidates)) as [Hc|Hc]; [by apply below; [right|lia]|].
  pose proof (f_linear s ltac:(lia) Hc). apply below_rising; lia.
Qed.

Lemma after_falling s : n ≤ s ≤ limit → n < limit → f (n + 1) ≤ f n → f s ≤ f n.
Proof.
  intros Hs Hlt Hdown.
  assert (∀ m, 0 ≤ m → n + m < limit → f (n + m + 1) ≤ f (n + m) ∧ f (n + m) ≤ f n) as Hm.
  { intros m Hm. pattern m. apply natlike_ind; [|intros k Hk IH|done].
    - rewrite Z.add_0_r. lia.
    - intros Hl. destruct IH as [IH1 IH2]; [lia|].
      pose proof (f_concave (n + Z.succ k) ltac:(lia)).
      replace (n + Z.succ k) with (n + k + 1) in * by lia.
      replace (n + k + 1 - 1) with (n + k) in * by lia. lia. }
  destruct (decide (s = n)) as [->|]; [lia|].
  specialize (Hm (s - n - 1)). replace (n + (s - n - 1)) with (s - 1) in Hm by lia.
  replace (s - 1 + 1) with s in Hm by lia. lia.
Qed.

Lemma maximum_reached :
  n = limit ∨ (n < limit ∧ f (n + 1) ≤ f n) → smallest_maximum f limit n.
Proof.
  intros Hend. split; [done|]. split; [|apply below_all]. intros s Hs.
  destruct (decide (s < n)); [pose proof (below_all s); lia|].
  destruct Hend as [->|[? ?]]; [by replace s with limit by lia|]. by apply after_falling; [lia|..].
Qed.
End Maximum.

(** ** Searching a kill price *)
Lemma search_fuel_step d d' fuel :
  2 ≤ d → 1 ≤ d' ≤ (d + 1) / 2 → (search_fuel d ≤ S fuel)%nat → (search_fuel d' ≤ fuel)%nat.
Proof.
  unfold search_fuel. intros Hd Hd' Hf.
  pose proof (Z.log2_up_spec d ltac:(lia)) as [_ Hhi].
  pose proof (Z.log2_up_pos d ltac:(lia)) as Hpos.
  replace (Z.log2_up d) with (Z.succ (Z.log2_up d - 1)) in Hhi by lia.
  rewrite Z.pow_succ_r in Hhi by lia.
  pose proof (Z.div_mod (d + 1) 2 ltac:(lia)). pose proof (Z.mod_pos_bound (d + 1) 2 ltac:(lia)).
  assert (Z.log2_up d' ≤ Z.log2_up d - 1) by (apply Z.log2_up_le_pow2; lia).
  pose proof (Z.log2_up_nonneg d'). lia.
Qed.

Lemma search_fuel_pos d : 2 ≤ d → (0 < search_fuel d)%nat.
Proof. intros. unfold search_fuel. pose proof (Z.log2_up_pos d). lia. Qed.

Lemma buy_search_ok fuel positive low high :
  low < high → (search_fuel (high - low) ≤ fuel)%nat →
  positive high = false →
  ∃ k, buy_search fuel positive low high = Ok k ∧ low < k ≤ high ∧ positive k = false ∧
       (low < k - 1 → positive (k - 1) = true).
Proof.
  revert low high. induction fuel as [|fuel IH]; intros low high Hlt Hf Hhigh; simpl;
    (destruct (Z.ltb_spec 1 (high - low)) as [H|H];
      [|exists high; split_and!; done || lia]).
  - pose proof (search_fuel_pos (high - low)). lia.
  - pose proof (Z.div_mod (low + high) 2 ltac:(lia)).
    pose proof (Z.mod_pos_bound (low + high) 2 ltac:(lia)).
    set (middle := (low + high) / 2) in *.
    pose proof (Z.div_mod (high - low + 1) 2 ltac:(lia)).
    pose proof (Z.mod_pos_bound (high - low + 1) 2 ltac:(lia)).
    destruct (positive middle) eqn:E.
    + destruct (IH middle high) as (k & -> & Hk & Hpos & Hprev); [lia|..|done|].
      * eapply search_fuel_step; [|split|exact Hf]; lia.
      * exists k. split_and!; [done|lia|lia|done|]. intros _.
        destruct (decide (k - 1 = middle)) as [->|]; [done|]. apply Hprev. lia.
    + destruct (IH low middle) as (k & -> & Hk & Hpos & Hprev); [lia|..|done|].
      * eapply search_fuel_step; [|split|exact Hf]; lia.
      * exists k. split_and!; done || lia.
Qed.

Lemma sell_search_ok fuel positive low high :
  low < high → (search_fuel (high - low) ≤ fuel)%nat →
  positive low = false →
  ∃ k, sell_search fuel positive low high = Ok k ∧ low ≤ k < high ∧ positive k = false ∧
       (k + 1 < high → positive (k + 1) = true).
Proof.
  revert low high. induction fuel as [|fuel IH]; intros low high Hlt Hf Hlow; simpl;
    (destruct (Z.ltb_spec 1 (high - low)) as [H|H];
      [|exists low; split_and!; done || lia]).
  - pose proof (search_fuel_pos (high - low)). lia.
  - pose proof (Z.div_mod (low + high) 2 ltac:(lia)).
    pose proof (Z.mod_pos_bound (low + high) 2 ltac:(lia)).
    set (middle := (low + high) / 2) in *.
    pose proof (Z.div_mod (high - low + 1) 2 ltac:(lia)).
    pose proof (Z.mod_pos_bound (high - low + 1) 2 ltac:(lia)).
    destruct (positive middle) eqn:E.
    + destruct (IH low middle) as (k & -> & Hk & Hpos & Hprev); [lia|..|done|].
      * eapply search_fuel_step; [|split|exact Hf]; lia.
      * exists k. split_and!; [done|lia|lia|done|]. intros _.
        destruct (decide (k + 1 = middle)) as [->|]; [done|]. apply Hprev. lia.
    + destruct (IH middle high) as (k & -> & Hk & Hpos & Hprev); [lia|..|done|].
      * eapply search_fuel_step; [|split|exact Hf]; lia.
      * exists k. split_and!; done || lia.
Qed.

(** ** Properties *)

(** C10. [walk] is its level-by-level reference: for positive, strictly increasing
    sizes and valid levels, each requested size gets the fill that takes whole
    levels best-first until the size or the book ends, whatever the other sizes of
    the same traversal are.  Levels after the last one touched ([hidden]) are not
    read: they may even be malformed. *)
Theorem walk_refines_reference vis hidden sizes :
  sizes_ok sizes = true → Forall level_ok vis →
  hidden = [] ∨ Forall (λ t, t < depth vis) sizes →
  walk (vis ++ hidden) sizes = Ok (map (ref_fill vis) sizes).
Proof. apply walk_prefix_fills. Qed.

Lemma walk_refines_reference_witness :
  walk ([(30, 5); (40, 10)] ++ [(-1, 0)]) [3; 5; 12]
  = Ok (map (ref_fill [(30, 5); (40, 10)]) [3; 5; 12]).
Proof.
  apply (walk_refines_reference [(30, 5); (40, 10)] [(-1, 0)]).
  - reflexivity.
  - repeat constructor; simpl; lia.
  - right. repeat constructor.
Defined.

(** C32. Each target of [walk_basket] is priced at the smaller of the target and the
    depth limit of the shallowest usable leg; every leg is then filled exactly
    [steps * unit] atoms, never short, at the cost of the levels it took; and the
    stop says ["target"] exactly when the target was served. *)
Theorem walk_basket_targets_exact ladders units targets value_fn edge max_levels :
  basket_args ladders units targets value_fn edge max_levels →
  let limit := step_limit (leg_limits ladders units max_levels) in
  ∃ rs tail, walk_basket ladders units targets value_fn edge max_levels = Ok (rs ++ tail) ∧
    length tail = (if edge then 1 else 0)%nat ∧
    Forall2 (λ target r,
      steps r = Z.min target limit ∧ Forall2 (exact_fill (steps r)) units (legs r) ∧
      (target ≤ limit ↔ stop r = "target"%string) ∧
      value r = valued value_fn (steps r) (legs r)) targets rs.
Proof.
  intros args limit.
  destruct (walk_basket_ok _ _ _ _ _ _ args) as (rs & tail & bs & E & _ & Hrs & Htail).
  exists rs, tail. split; [done|]. split; [by destruct edge; naive_solver|].
  eapply Forall2_impl; [exact Hrs|]. intros t r [(Hs & _ & Hex) [Hstop Hval]].
  rewrite <- Hs in Hex. split_and!; [done..| |done]. rewrite Hstop. fold limit.
  destruct (Z.leb_spec t limit); [done|]. split; [lia|]. by destruct (basket_capped _ _ _).
Qed.

(** Two legs, bought at 30/40 and 20/25; a payout of 60 per step. *)
Definition demo_ladders : list (list level) := [[(30, 5); (40, 5)]; [(20, 8); (25, 8)]].
Definition demo_value : valuation := λ steps legs, Some (60 * steps - sumZ (map cost legs)).

Lemma demo_args edge : basket_args demo_ladders [1; 1] [3; 12] (Some demo_value) edge (Some 4%nat).
Proof.
  constructor; try done; eauto; by repeat constructor.
Qed.

Lemma walk_basket_targets_exact_witness :
  let limit := step_limit (leg_limits demo_ladders [1; 1] (Some 4%nat)) in
  ∃ rs tail, walk_basket demo_ladders [1; 1] [3; 12] (Some demo_value) true (Some 4%nat)
             = Ok (rs ++ tail) ∧
    length tail = 1%nat ∧
    Forall2 (λ target r,
      steps r = Z.min target limit ∧ Forall2 (exact_fill (steps r)) [1; 1] (legs r) ∧
      (target ≤ limit ↔ stop r = "target"%string) ∧
      value r = valued (Some demo_value) (steps r) (legs r)) [3; 12] rs.
Proof.
  exact (walk_basket_targets_exact _ _ _ _ _ _ (demo_args true)).
Defined.

(** The documented guarantee of the edge walk, for any valuation: the walk
    terminates with a result; an ["edge"] stop has [value(steps + 1) <= value(steps)]
    (zero steps being worth zero); an exhausted stop has reached the depth limit;
    ["value_unknown"] stops at a step count whose value is unknown. *)
Theorem edge_stop_justified ladders units targets v max_levels :
  basket_args ladders units targets (Some v) true max_levels →
  let limit := step_limit (leg_limits ladders units max_levels) in
  let w n := worth (λ n, v n (ref_legs ladders units n)) n in
  ∃ rs r, walk_basket ladders units targets (Some v) true max_levels = Ok (rs ++ [r]) ∧
    0 ≤ steps r ≤ limit ∧ legs r = ref_legs ladders units (steps r) ∧
    (stop r = "edge"%string → ∃ vn vn', w (steps r) = Some vn ∧
       w (steps r + 1) = Some vn' ∧ vn' ≤ vn) ∧
    (stop r = "value_unknown"%string → w (steps r) = None) ∧
    (stop r ≠ "edge"%string → stop r ≠ "value_unknown"%string → steps r = limit).
Proof.
  intros args limit w.
  destruct (walk_basket_ok _ _ _ _ _ _ args)
    as (rs & tail & bs & E & _ & _ & v' & r & [= <-] & -> & Hr).
  exists rs, r. destruct Hr as ((_ & HL & _) & Hn & _ & _ & Hstop).
  split_and!; [done|apply Hn..|done| | |].
  - intros Hs. destruct Hstop as [(_ & _ & H)|[(Hs' & _)|(Hs' & _)]]; [done|congruence|].
    rewrite Hs in Hs'. by destruct (basket_capped _ _ _).
  - intros Hs. destruct Hstop as [(Hs' & _)|[(_ & _ & H)|(Hs' & _)]]; [congruence|done|].
    rewrite Hs in Hs'. by destruct (basket_capped _ _ _).
  - intros H1 H2. by destruct Hstop as [(Hs & _)|[(Hs & _)|(_ & _ & ?)]].
Qed.

Lemma edge_stop_justified_witness :
  let limit := step_limit (leg_limits demo_ladders [1; 1] (Some 4%nat)) in
  let w n := worth (λ n, demo_value n (ref_legs demo_ladders [1; 1] n)) n in
  ∃ rs r, walk_basket demo_ladders [1; 1] [3; 12] (Some demo_value) true (Some 4%nat)
          = Ok (rs ++ [r]) ∧
    0 ≤ steps r ≤ limit ∧ legs r = ref_legs demo_ladders [1; 1] (steps r) ∧
    (stop r = "edge"%string → ∃ vn vn', w (steps r) = Some vn ∧
       w (steps r + 1) = Some vn' ∧ vn' ≤ vn) ∧
    (stop r = "value_unknown"%string → w (steps r) = None) ∧
    (stop r ≠ "edge"%string → stop r ≠ "value_unknown"%string → steps r = limit).
Proof. exact (edge_stop_justified _ _ _ _ _ (demo_args true)). Defined.

(** C28. For a valuation [f] of the step count that is known, concave, and linear away
    from the level boundaries (the docstring's assumption), the edge walk returns the
    smallest step count that maximizes it over the whole depth limit. *)
Theorem edge_walk_finds_maximum ladders units targets v max_levels f :
  basket_args ladders units targets (Some v) true max_levels →
  let limit := step_limit (leg_limits ladders units max_levels) in
  f 0 = 0 →
  (∀ n, 0 < n ≤ limit → v n (ref_legs ladders units n) = Some (f n)) →
  concave f limit →
  (∀ boundaries, basket_boundaries max_levels (zip2 ladders units) None
                 = Ok (boundaries, Some limit) →
     linear_between f limit (edge_candidates boundaries units limit)) →
  ∃ rs r, walk_basket ladders units targets (Some v) true max_levels = Ok (rs ++ [r]) ∧
    smallest_maximum f limit (steps r) ∧
    value r = (if steps r =? 0 then None else Some (f (steps r))).
Proof.
  intros args limit Hf0 Hf Hconc Hlin.
  destruct (walk_basket_ok _ _ _ _ _ _ args)
    as (rs & tail & bs & E & Hbs & _ & v' & r & [= <-] & -> & Hr).
  exists rs, r. split; [done|]. destruct Hr as (_ & Hn & Hval & Hall & Hstop).
  assert (Hw : ∀ n, 0 ≤ n ≤ limit →
            worth (λ n, v n (ref_legs ladders units n)) n = Some (f n)).
  { intros n Hn'. unfold worth. destruct (Z.eqb_spec n 0) as [->|]; [by rewrite Hf0|].
    apply Hf. lia. }
  fold limit in Hn. split.
  - apply maximum_reached with (edge_candidates bs units limit); [done|by apply Hlin|done| |].
    + intros c Hc Hlt. destruct (Hall c Hc Hlt (f (steps r))) as (vc & Hvc & ?); [by apply Hw|].
      rewrite Hw in Hvc; [by simplify_eq|]. destruct Hc as [->|Hc]; [lia|].
      apply edge_candidates_elem in Hc as [? _]. lia.
    + destruct Hstop as [(_ & Hlt & vn & vn' & H1 & H2 & Hle)|[(_ & _ & H)|(_ & _ & Hlim)]].
      * rewrite Hw in H1, H2 by lia. simplify_eq. right. lia.
      * by rewrite Hw in H.
      * by left.
  - rewrite Hval. destruct (Z.eqb_spec (steps r) 0); [done|]. by apply Hw.
Qed.

Definition demo_f (n : Z) : Z := if n <=? 5 then 10 * n else if n <=? 8 then 50 else 50 - 5 * (n - 8).

Lemma edge_walk_finds_maximum_witness :
  ∃ rs r, walk_basket demo_ladders [1; 1] [3; 12] (Some demo_value) true (Some 4%nat)
          = Ok (rs ++ [r]) ∧
    smallest_maximum demo_f (step_limit (leg_limits demo_ladders [1; 1] (Some 4%nat))) (steps r) ∧
    value r = (if steps r =? 0 then None else Some (demo_f (steps r))).
Proof.
  apply (edge_walk_finds_maximum _ _ _ _ _ demo_f (demo_args true)).
  - reflexivity.
  - intros n Hn. change (0 < n ≤ 10) in Hn.
    assert (n = 1 ∨ n = 2 ∨ n = 3 ∨ n = 4 ∨ n = 5 ∨ n = 6 ∨ n = 7 ∨ n = 8 ∨ n = 9 ∨ n = 10)
      as Hc by lia.
    repeat destruct Hc as [->|Hc]; [reflexivity..|]. by rewrite Hc.
  - intros s Hs. change (0 < s < 10) in Hs. unfold demo_f.
    repeat match goal with |- context [?a <=? ?b] => destruct (Z.leb_spec a b) end; lia.
  - intros bs [= <-] s Hs Hn. change (0 < s < 10) in Hs.
    assert (s ≠ 5) by (intros ->; apply Hn; vm_compute; repeat constructor).
    assert (s ≠ 8) by (intros ->; apply Hn; vm_compute; repeat constructor).
    unfold demo_f.
    repeat match goal with |- context [?a <=? ?b] => destruct (Z.leb_spec a b) end; lia.
Defined.

(** The leg's whole fill at one price, the property [kill_price] searches for. *)
Definition worth_taking (value : valuation) (steps : Z) (legs : list Fill) (leg : nat) (price : Z)
    : bool :=
  match legs !! leg with
  | Some l => positive_at value steps legs leg (filled_atoms l) price
  | None => false
  end.

Lemma kill_price_cases value steps legs leg maximum sell l :
  0 < steps → 0 ≤ maximum → legs !! leg = Some l → 0 < filled_atoms l →
  let positive := worth_taking value steps legs leg in
  ∃ ko, kill_price value steps legs leg maximum sell = Ok ko ∧
    match ko with
    | None => positive (if sell then 0 else maximum) = true
    | Some k => 0 ≤ k ≤ maximum ∧ positive k = false ∧
        (if sell then k < maximum → positive (k + 1) = true
         else 0 < k → positive (k - 1) = true)
    end.
Proof.
  intros Hs Hm Hl Hf positive. unfold kill_price, positive, worth_taking. rewrite Hl.
  destruct (Z.ltb_spec 0 steps); [|lia]. destruct (Z.leb_spec 0 maximum); [|lia].
  destruct (Z.ltb_spec 0 (filled_atoms l)); [|lia]. simpl.
  set (pos := positive_at value steps legs leg (filled_atoms l)).
  destruct sell.
  - destruct (pos 0) eqn:E; [by exists None|].
    destruct (sell_search_ok (search_fuel (maximum + 1)) pos 0 (maximum + 1))
      as (k & -> & ? & ? & ?); [lia|by rewrite Z.sub_0_r|done|]. simpl.
    exists (Some k). split_and!; [done|lia|lia|done|]. intros. auto with lia.
  - destruct (pos maximum) eqn:E; [by exists None|].
    destruct (buy_search_ok (search_fuel (maximum + 1)) pos (-1) maximum)
      as (k & -> & ? & ? & ?); [lia|by replace (maximum - -1) with (maximum + 1) by lia|done|]. simpl.
    exists (Some k). split_and!; [done|lia|lia|done|]. intros. auto with lia.
Qed.

(** [kill_price] terminates and, whatever the valuation does, returns the boundary
    the docstring promises: for a bought leg a price in [0, maximum] that is not worth
    taking while the next lower one is, or [None] when even [maximum] is worth taking;
    the mirror image for a sold leg. *)
Theorem kill_price_boundary value steps legs leg maximum sell l :
  0 < steps → 0 ≤ maximum → legs !! leg = Some l → 0 < filled_atoms l →
  let positive := worth_taking value steps legs leg in
  ∃ ko, kill_price value steps legs leg maximum sell = Ok ko ∧
    match ko with
    | None => positive (if sell then 0 else maximum) = true
    | Some k => 0 ≤ k ≤ maximum ∧ positive k = false ∧
        (if sell then k < maximum → positive (k + 1) = true
         else 0 < k → positive (k - 1) = true)
    end.
Proof. apply kill_price_cases. Qed.

Lemma kill_price_boundary_witness :
  let legs := ref_legs demo_ladders [1; 1] 5 in
  let positive := worth_taking demo_value 5 legs 0 in
  ∃ ko, kill_price demo_value 5 legs 0 100 false = Ok ko ∧
    match ko with
    | None => positive 100 = true
    | Some k => 0 ≤ k ≤ 100 ∧ positive k = false ∧ (0 < k → positive (k - 1) = true)
    end.
Proof.
  apply (kill_price_boundary demo_value 5 (ref_legs demo_ladders [1; 1] 5) 0 100 false
           (ref_fill [(30, 5); (40, 5)] 5)); reflexivity || (vm_compute; congruence).
Defined.

(** When the valuation loses value as a bought leg's price rises, the kill price is
    the lowest price of [0, maximum] at which the fill is not worth taking. *)
Theorem kill_price_lowest value steps legs leg maximum l :
  0 < steps → 0 ≤ maximum → legs !! leg = Some l → 0 < filled_atoms l →
  let positive := worth_taking value steps legs leg in
  (∀ p p', 0 ≤ p ≤ p' → p' ≤ maximum → positive p' = true → positive p = true) →
  ∃ ko, kill_price value steps legs leg maximum false = Ok ko ∧
    ∀ p, 0 ≤ p ≤ maximum → positive p = match ko with None => true | Some k => p <? k end.
Proof.
  intros Hs Hm Hl Hf positive Hmono.
  destruct (kill_price_cases value steps legs leg maximum false l) as (ko & E & H); [done..|].
  fold positive in H. exists ko. split; [done|]. intros p Hp. destruct ko as [k|].
  - destruct H as (Hk & Hno & Hyes). destruct (Z.ltb_spec p k).
    + apply Hmono with (k - 1); [lia..|]. apply Hyes. lia.
    + destruct (positive p) eqn:Ep; [|done]. rewrite (Hmono k p) in Hno; done || lia.
  - by apply Hmono with maximum; [lia..|].
Qed.

Lemma kill_price_lowest_witness :
  let legs := ref_legs demo_ladders [1; 1] 5 in
  ∃ ko, kill_price demo_value 5 legs 0 100 false = Ok ko ∧
    ∀ p, 0 ≤ p ≤ 100 → worth_taking demo_value 5 legs 0 p
                       = match ko with None => true | Some k => p <? k end.
Proof.
  apply (kill_price_lowest demo_value 5 (ref_legs demo_ladders [1; 1] 5) 0 100
           (ref_fill [(30, 5); (40, 5)] 5)); [reflexivity|lia|reflexivity|reflexivity|].
  intros p p' Hp Hp' H. unfold worth_taking, positive_at in *. simpl in *.
  apply Z.ltb_lt in H. apply Z.ltb_lt. set (q := Z.min _ (5 * 1)) in *.
  assert (0 ≤ q) by (vm_compute; discriminate). nia.
Defined.
