(* ===== verification/Wire.v ===== *)
(** * Wire values and their validators ([src/replay/streams/protocol.py], lines 23-235)

    JSON values, canonical unsigned integers, and the closed-schema validators that
    the stream, the policies and the job contracts share.  A character is a byte:
    the validators only test ASCII classes and [ord(c) >= 32]. *)
From stdpp Require Import list strings.
From S2P Require Import Prelude.

(** A decoded JSON document.  [JFloat m e] is the finite float [m * 2^e]; [JInf] is an
    infinity, which a literal such as [1e999] reads as, and [JNaN] the one NaN object of
    [json.loads], which [parse_constant] refuses.  A dict is a list of bindings with
    distinct keys. *)
Inductive json :=
| JNull
| JBool (b : bool)
| JInt (n : Z)
| JFloat (mantissa exponent : Z)
| JInf (negative : bool)
| JNaN
| JStr (s : string)
| JArr (l : list json)
| JObj (d : list (string * json)).

Definition dict := list (string * json).

Fixpoint dget (d : dict) (k : string) : option json :=
  match d with
  | [] => None
  | (k', v) :: d => if String.eqb k k' then Some v else dget d k
  end.

(** [value[k]] for a string [k]. *)
Definition jget (value : json) (k : string) : result json :=
  match value with
  | JObj d => match dget d k with Some v => Ok v | None => Err KeyError end
  | _ => Err (TypeError "indices")
  end.

Definition jeq_str (value : json) (s : string) : bool :=
  match value with JStr s' => String.eqb s' s | _ => false end.

Definition is_none (value : json) : bool := match value with JNull => true | _ => false end.

Definition in_list (l : list string) (s : string) : bool := existsb (String.eqb s) l.

(** ** Characters and decimal integers *)
Definition code (c : Ascii.ascii) : Z := Z.of_N (Ascii.N_of_ascii c).
Definition chars (s : string) : list Ascii.ascii := String.list_ascii_of_string s.
Definition is_digit (c : Ascii.ascii) : bool := (48 <=? code c) && (code c <=? 57).
Definition digit_char (d : Z) : Ascii.ascii := Ascii.ascii_of_N (Z.to_N (d + 48)).

(** [0|[1-9][0-9]*]. *)
Definition canonical (l : list Ascii.ascii) : bool :=
  match l with
  | [] => false
  | [c] => is_digit c
  | c :: l => is_digit c && negb (code c =? 48) && forallb is_digit l
  end.

Definition digits_value (l : list Ascii.ascii) : Z :=
  foldl (λ n c, n * 10 + (code c - 48)) 0 l.

(** [str(n)] of a nonnegative integer. *)
Fixpoint digits_of (fuel : nat) (n : Z) : list Ascii.ascii :=
  if n <? 10 then [digit_char n]
  else match fuel with
       | O => [digit_char (n mod 10)]
       | S fuel => digits_of fuel (n / 10) ++ [digit_char (n mod 10)]
       end.

(** Each digit takes more than three bits, so [log2 n] iterations are enough. *)
Definition decimal (n : Z) : list Ascii.ascii := digits_of (Z.to_nat (Z.log2 n)) n.

Definition str_int (n : Z) : string :=
  if n <? 0
  then String.append "-" (String.string_of_list_ascii (decimal (- n)))
  else String.string_of_list_ascii (decimal n).

Definition is_space (c : Ascii.ascii) : bool :=
  ((9 <=? code c) && (code c <=? 13)) || ((28 <=? code c) && (code c <=? 32)).

Fixpoint lstrip (l : list Ascii.ascii) : list Ascii.ascii :=
  match l with
  | c :: l' => if is_space c then lstrip l' else l
  | [] => []
  end.

(** Digits, single underscores allowed between them. *)
Fixpoint digits_under (after_digit : bool) (acc : Z) (l : list Ascii.ascii) : option Z :=
  match l with
  | [] => if after_digit then Some acc else None
  | c :: l =>
      if is_digit c then digits_under true (acc * 10 + (code c - 48)) l
      else if (code c =? 95) && after_digit then
        match l with
        | c' :: _ => if is_digit c' then digits_under false acc l else None
        | [] => None
        end
      else None
  end.

(** [int] converts at most 4300 digits. *)
Definition MAX_STR_DIGITS : nat := Z.to_nat 4300.

Definition parse_int (s : string) : option Z :=
  if negb (length (filter (λ c, is_digit c = true) (chars s)) <=? MAX_STR_DIGITS)%nat then None else
  match rev (lstrip (rev (lstrip (chars s)))) with
  | c :: l =>
      if code c =? 45 then option_map Z.opp (digits_under false 0 l)
      else if code c =? 43 then digits_under false 0 l
      else digits_under false 0 (c :: l)
  | [] => None
  end.

(** [int(value)]. *)
Definition py_int (value : json) : result Z :=
  match value with
  | JInt n => Ok n
  | JBool b => Ok (if b then 1 else 0)
  | JFloat m e => Ok (if 0 <=? e then m * 2 ^ e else Z.quot m (2 ^ (- e)))
  | JInf _ => Err OverflowError
  | JNaN => Err (ValueError "int")
  | JStr s => match parse_int s with Some n => Ok n | None => Err (ValueError "int") end
  | _ => Err (TypeError "int")
  end.

(** ** Iteration, unpacking, indexing and equality of decoded values *)

Definition char_str (c : Ascii.ascii) : json := JStr (String.String c String.EmptyString).

(** [iter(value)]. *)
Definition py_iter (value : json) : result (list json) :=
  match value with
  | JArr l => Ok l
  | JObj d => Ok (map (λ kv, JStr kv.1) d)
  | JStr s => Ok (map char_str (chars s))
  | _ => Err (TypeError "iter")
  end.

(** [first, second = value]. *)
Definition unpack2 (value : json) : result (json * json) :=
  l ← py_iter value;
  match l with
  | [a; b] => Ok (a, b)
  | _ => Err (ValueError "unpack")
  end.

(** [value[index]] for an index counted from the end when [from_end]. *)
Definition jindex (value : json) (from_end : bool) (index : nat) : result json :=
  let pick (l : list json) :=
    match (if from_end then rev l else l) !! index with
    | Some v => Ok v
    | None => Err IndexError
    end in
  match value with
  | JArr l => pick l
  | JStr s => pick (map char_str (chars s))
  | JObj _ => Err KeyError
  | _ => Err (TypeError "index")
  end.

(** [bool(value)]. *)
Definition truthy (value : json) : bool :=
  match value with
  | JNull => false
  | JBool b => b
  | JInt n => negb (n =? 0)
  | JFloat m _ => negb (m =? 0)
  | JInf _ | JNaN => true
  | JStr s => negb (String.eqb s "")
  | JArr l => match l with [] => false | _ => true end
  | JObj d => match d with [] => false | _ => true end
  end.

(** A number [m * 2^e] as Python compares it: booleans are integers. *)
Definition as_number (value : json) : option (Z * Z) :=
  match value with
  | JBool b => Some (if b then 1 else 0, 0)
  | JInt n => Some (n, 0)
  | JFloat m e => Some (m, e)
  | _ => None
  end.

(** The one object that does not equal itself; containers compare identity first. *)
Definition both_nan (a b : json) : bool :=
  match a, b with JNaN, JNaN => true | _, _ => false end.

(** [a == b]: dicts compare without order, numbers by value. *)
Fixpoint json_eqb (a b : json) : bool :=
  match a, b with
  | JNull, JNull => true
  | JStr s, JStr t => String.eqb s t
  | JArr l, JArr k =>
      (fix go (l k : list json) :=
         match l, k with
         | [], [] => true
         | x :: l, y :: k => (both_nan x y || json_eqb x y) && go l k
         | _, _ => false
         end) l k
  | JObj d, JObj e =>
      (length d =? length e)%nat &&
      (fix go (d : list (string * json)) :=
         match d with
         | [] => true
         | (k, v) :: d =>
             match dget e k with Some w => both_nan v w || json_eqb v w | None => false end && go d
         end) d
  | JInf a, JInf b => Bool.eqb a b
  | _, _ =>
      match as_number a, as_number b with
      | Some (m, i), Some (n, j) =>
          let low := Z.min i j in m * 2 ^ (i - low) =? n * 2 ^ (j - low)
      | _, _ => false
      end
  end.

(** Equality of the elements of a container: [a is b or a == b]. *)
Definition json_same (a b : json) : bool := both_nan a b || json_eqb a b.

(** ** The closed-schema validators *)

(** [require(ok)] with the default message. *)
Definition require_wire (ok : bool) : result () := require ok "invalid wire value".

Definition keys (d : dict) : list string := map fst d.

(** [obj(value, fields)]; [fields] is split. *)
Definition obj (value : json) (fields : list string) : result dict :=
  match value with
  | JObj d =>
      _ ← require (forallb (in_list fields) (keys d) && forallb (in_list (keys d)) fields)
            "closed schema";
      Ok d
  | _ => Err (ProtocolError "closed schema")
  end.

Definition max_u64 : Z := 2 ^ 64 - 1.

Definition uint (value : json) (maximum : Z) : result Z :=
  match value with
  | JStr s =>
      _ ← require_wire (canonical (chars s));
      _ ← require_wire (String.length s <=? 20)%nat;
      let n := digits_value (chars s) in
      _ ← require (n <=? maximum) "integer range";
      Ok n
  | _ => Err (ProtocolError "invalid wire value")
  end.

Definition text (value : json) : result string :=
  match value with
  | JStr s =>
      _ ← require_wire (negb (String.eqb s "") && forallb (λ c, 32 <=? code c) (chars s));
      Ok s
  | _ => Err (ProtocolError "invalid wire value")
  end.

Definition choice (value : json) (choices : list string) : result string :=
  match value with
  | JStr s => _ ← require_wire (in_list choices s); Ok s
  | _ => Err (ProtocolError "invalid wire value")
  end.

Definition array (value : json) : result (list json) :=
  match value with
  | JArr l => Ok l
  | _ => Err (ProtocolError "invalid wire value")
  end.

(** [instrument.split(":", 1)] when it has a colon. *)
Fixpoint split_colon (l : list Ascii.ascii) : option (list Ascii.ascii * list Ascii.ascii) :=
  match l with
  | [] => None
  | c :: l =>
      if code c =? 58 then Some ([], l)
      else match split_colon l with Some (a, b) => Some (c :: a, b) | None => None end
  end.

Definition namespaced (instrument : string) : bool :=
  match split_colon (chars instrument) with
  | Some (_ :: _, _ :: _) => true
  | _ => false
  end.

Definition key (value : json) : result (string * string) :=
  d ← obj value ["instrument"; "orientation"];
  i ← jget value "instrument";
  instrument ← text i;
  _ ← require_wire (namespaced instrument);
  o ← jget value "orientation";
  orientation ← choice o ["outcome"; "complement"];
  Ok (instrument, orientation).

(** [re.fullmatch("[0-9a-f]{n}", s)]. *)
Definition hex_string (n : nat) (value : json) : bool :=
  match value with
  | JStr s => (String.length s =? n)%nat &&
      forallb (λ c, is_digit c || ((97 <=? code c) && (code c <=? 102))) (chars s)
  | _ => false
  end.

Definition as_str (value : json) : result string :=
  match value with JStr s => Ok s | _ => Err (TypeError "str") end.

Definition pin (value : json) : result (string * string) :=
  d ← obj value ["derivative_address"; "receipt_sha256"];
  _ ← mapR (λ s, require_wire (hex_string 64 s)) (map snd d);
  a ← jget value "derivative_address"; a ← as_str a;
  r ← jget value "receipt_sha256"; r ← as_str r;
  Ok (a, r).

Definition address (value : json) : result () :=
  _ ← obj value ["canonical_seq"; "lane"; "delivery_index"; "event_index"];
  c ← jget value "canonical_seq"; n ← uint c (2 ^ 63 - 1); _ ← require_wire (0 <? n);
  l ← jget value "lane"; _ ← text l;
  i ← jget value "delivery_index"; _ ← uint i max_u64;
  e ← jget value "event_index"; _ ← uint e (2 ^ 32 - 1);
  Ok ().

Definition in_pins (pins : list (string * string)) (p : string * string) : bool :=
  existsb (λ q, String.eqb p.1 q.1 && String.eqb p.2 q.2) pins.

Definition reference (value : json) (pins : list (string * string)) : result () :=
  _ ← obj value ["pin"; "address"; "visible_ns"; "order_ns"];
  p ← jget value "pin"; p ← pin p; _ ← require (in_pins pins p) "unbound reference";
  a ← jget value "address"; _ ← address a;
  v ← jget value "visible_ns"; _ ← uint v max_u64;
  o ← jget value "order_ns"; _ ← uint o max_u64;
  Ok ().

Definition dict_of (value : json) : result dict :=
  match value with JObj d => Ok d | _ => Err (ProtocolError "invalid wire value") end.

(** [value.get(k)] on a dict. *)
Definition get_or_none (d : dict) (k : string) : json := default JNull (dget d k).

Definition origin (value : json) (pins : list (string * string)) : result () :=
  d ← dict_of value;
  _ ← (if jeq_str (get_or_none d "kind") "window" then
         _ ← obj value ["kind"; "pin"; "start_ns"; "end_ns"];
         s ← jget value "start_ns"; s ← uint s max_u64;
         e ← jget value "end_ns"; e ← uint e max_u64;
         require_wire (s <? e)
       else
         _ ← obj value ["kind"; "pin"; "first"; "last"; "visible_ns"];
         k ← jget value "kind"; _ ← require_wire (jeq_str k "group");
         f ← jget value "first"; _ ← address f;
         l ← jget value "last"; _ ← address l;
         v ← jget value "visible_ns"; _ ← uint v max_u64;
         Ok ());
  p ← jget value "pin"; p ← pin p;
  require_wire (in_pins pins p).

Definition number (value : json) (quantity : bool) : result (Z * Z) :=
  _ ← obj value ["atoms"; "scale"; "unit"];
  s ← jget value "scale"; scale ← uint s 18;
  a ← jget value "atoms"; n ← uint a (if quantity then 2 ^ 63 - 1 else 10 ^ scale);
  u ← jget value "unit";
  _ ← require_wire (jeq_str u (if quantity then "contracts" else "quote_per_contract"));
  _ ← require_wire (negb quantity || (0 <? n));
  Ok (n, scale).

Definition book_hash (value : json) : result () :=
  if is_none value then Ok () else
  _ ← obj value ["algorithm"; "digest"];
  a ← jget value "algorithm"; d ← jget value "digest";
  require_wire (jeq_str a "sha1" && hex_string 40 d).

Definition venue_time (value : json) : result () :=
  if is_none value then Ok () else
  _ ← obj value ["event_ns"; "event_resolution"; "event_kind"; "sent_ns"];
  e ← jget value "event_ns"; r ← jget value "event_resolution";
  k ← jget value "event_kind"; s ← jget value "sent_ns";
  let has_event := negb (is_none e) in
  _ ← require_wire (has_event || negb (is_none s));
  _ ← require_wire (eqb has_event (negb (is_none r)));
  _ ← require_wire (eqb has_event (negb (is_none k)));
  _ ← (if has_event then
         _ ← uint e max_u64;
         _ ← choice r ["millisecond"; "microsecond"];
         _ ← choice k ["exchange_event"; "book_update"; "trade_report"; "book_as_of"];
         Ok ()
       else Ok ());
  if is_none s then Ok () else _ ← uint s max_u64; Ok ().

(** [key({k: value[k] for k in ("instrument", "orientation")})]. *)
Definition key_of (value : json) : result (string * string) :=
  i ← jget value "instrument"; o ← jget value "orientation";
  key (JObj [("instrument", i); ("orientation", o)]).

(** The parsed change of one delta. *)
Record delta_row := DeltaRow {
  delta_key : string * string;
  delta_side : string;
  delta_price : Z * Z;
  delta_kind : string;
  delta_quantity : option (Z * Z);
}.

Definition delta (value : json) (annotated : bool) : result delta_row :=
  _ ← obj value (["instrument"; "orientation"; "side"; "price"; "change"; "book_hash"]
                 ++ (if annotated then ["venue_time"] else []));
  _ ← (if annotated then v ← jget value "venue_time"; venue_time v else Ok ());
  k ← key_of value;
  s ← jget value "side"; side ← choice s ["bid"; "ask"];
  p ← jget value "price"; price ← number p false;
  change ← jget value "change"; c ← dict_of change;
  kind ← choice (get_or_none c "kind") ["set"; "delete"; "increase"; "decrease"];
  _ ← obj change (if String.eqb kind "delete" then ["kind"] else ["kind"; "value"]);
  quantity ← (if String.eqb kind "delete" then Ok None
              else v ← jget change "value"; q ← number v true; Ok (Some q));
  h ← jget value "book_hash"; _ ← book_hash h;
  Ok (DeltaRow k side price kind quantity).

(** One level of a full book: its price, and its two scales. *)
Definition full_level (level : json) : result (Z * (Z * Z)) :=
  _ ← obj level ["price"; "quantity"];
  p ← jget level "price"; p ← number p false;
  q ← jget level "quantity"; q ← number q true;
  Ok (p.1, (p.2, q.2)).

(** [prices == sorted(set(prices), reverse=...)]. *)
Definition ladder_ordered (descending : bool) (prices : list Z) : bool :=
  increasing (if descending then rev prices else prices).

(** One side of a full book; [scales] grows. *)
Definition full_side (b : json) (side : string) : result (list (Z * Z)) :=
  a ← jget b side; levels ← array a;
  rows ← mapR full_level levels;
  _ ← require_wire (ladder_ordered (String.eqb side "bids") (map fst rows));
  Ok (map snd rows).

Definition one_scale (scales : list (Z * Z)) : bool :=
  match scales with
  | [] => true
  | s :: scales => forallb (λ s', (s.1 =? s'.1) && (s.2 =? s'.2)) scales
  end.

Definition full_book (b : json) : result () :=
  _ ← obj b ["instrument"; "orientation"; "bids"; "asks"; "snapshot_hash";
             "source_observed_ns"; "venue_time"];
  t ← jget b "venue_time"; _ ← venue_time t;
  _ ← key_of b;
  bids ← full_side b "bids";
  asks ← full_side b "asks";
  _ ← require_wire (one_scale (bids ++ asks));
  h ← jget b "snapshot_hash"; _ ← book_hash h;
  o ← jget b "source_observed_ns";
  if is_none o then Ok () else _ ← uint o max_u64; Ok ().

Definition trade (value : json) : result () :=
  _ ← obj value ["instrument"; "orientation"; "price"; "quantity"; "aggressor"; "venue_time"];
  t ← jget value "venue_time"; _ ← venue_time t;
  _ ← key_of value;
  p ← jget value "price"; _ ← number p false;
  q ← jget value "quantity"; _ ← number q true;
  a ← jget value "aggressor";
  if is_none a then Ok () else _ ← choice a ["bid"; "ask"]; Ok ().

Definition event (value : json) : result () :=
  _ ← obj value ["kind"; "value"];
  kind ← jget value "kind"; v ← jget value "value";
  if jeq_str kind "trade" then trade v
  else
    _ ← require_wire (jeq_str kind "book");
    _ ← obj v ["kind"; "value"];
    kind ← jget v "kind"; b ← jget v "value";
    if jeq_str kind "delta" then _ ← delta b true; Ok ()
    else _ ← require_wire (jeq_str kind "full"); full_book b.

Definition control_event (value : json) : result () :=
  _ ← obj value ["kind"; "from"; "to"];
  k ← jget value "kind"; _ ← require_wire (jeq_str k "metadata_changed");
  f ← jget value "from"; _ ← (if is_none f then Ok () else _ ← text f; Ok ());
  t ← jget value "to"; _ ← text t; Ok ().

Definition plain_reasons : list string :=
  ["missing_initialization"; "epoch_changed"; "connection_opened"; "connection_closed";
   "connection_failed"; "subscription_changed"; "metadata_changed"; "unsupported_state";
   "scale_mismatch"; "quantity_underflow"; "quantity_overflow"; "lane_not_expected";
   "lane_missing"].

Definition reason (value : json) : result () :=
  d ← dict_of value;
  let kind := get_or_none d "kind" in
  if jeq_str kind "continuity" then
    _ ← obj value ["kind"; "verdict"];
    v ← jget value "verdict";
    _ ← choice v ["gap_proven"; "cursor_went_backwards"; "local_counter_broken"; "conflict"];
    Ok ()
  else if jeq_str kind "lane_invalid" then
    _ ← obj value ["kind"; "detail"];
    d ← jget value "detail";
    require_wire (match d with JNull | JStr _ => true | _ => false end)
  else if jeq_str kind "visible_clock_regression" then
    _ ← obj value ["kind"; "previous_visible_ns"; "observed_visible_ns"];
    p ← jget value "previous_visible_ns"; _ ← uint p max_u64;
    o ← jget value "observed_visible_ns"; _ ← uint o max_u64;
    Ok ()
  else
    _ ← obj value ["kind"];
    _ ← choice kind plain_reasons;
    Ok ().

(** [pairs]: the object hook that refuses a repeated key. *)
Fixpoint pairs (result : dict) (values : list (string * json)) : Prelude.result dict :=
  match values with
  | [] => Ok result
  | (k, v) :: values =>
      _ ← require (negb (in_list (keys result) k)) "duplicate JSON key";
      pairs (result ++ [(k, v)]) values
  end.

(** ** Decimal round trip *)
Lemma digit_char_code d : 0 ≤ d < 10 → code (digit_char d) = d + 48.
Proof.
  intros H. unfold code, digit_char. rewrite Ascii.N_ascii_embedding by lia. lia.
Qed.

Lemma digit_code_char c : is_digit c = true → digit_char (code c - 48) = c.
Proof.
  unfold is_digit, digit_char, code. intros H. apply andb_true_iff in H as [H1 H2].
  apply Z.leb_le in H1. replace (Z.to_N _) with (Ascii.N_of_ascii c) by lia.
  apply Ascii.ascii_N_embedding.
Qed.

Lemma is_digit_range c : is_digit c = true ↔ 48 ≤ code c ≤ 57.
Proof. unfold is_digit. rewrite andb_true_iff, !Z.leb_le. lia. Qed.

Lemma digit_char_is_digit d : 0 ≤ d < 10 → is_digit (digit_char d) = true.
Proof. intros H. apply is_digit_range. rewrite digit_char_code by done. lia. Qed.

Lemma digits_value_app l c : digits_value (l ++ [c]) = digits_value l * 10 + (code c - 48).
Proof. unfold digits_value. by rewrite foldl_app. Qed.

Lemma canonical_app l c :
  l ≠ [] → canonical (l ++ [c]) = true →
  canonical l = true ∧ is_digit c = true ∧ head l ≠ Some (digit_char 0).
Proof.
  destruct l as [|a [|b l]]; [done| |]; intros _; simpl.
  - rewrite !andb_true_r, !andb_true_iff, negb_true_iff, Z.eqb_neq. intros [[Ha Hz] Hc].
    split_and!; [done..|]. intros [= ->]. by apply Hz.
  - rewrite forallb_app. simpl. rewrite !andb_true_r, !andb_true_iff, negb_true_iff, Z.eqb_neq.
    intros [[Ha Hz] (? & ? & Hc)]. split_and!; [done..|]. intros [= ->]. by apply Hz.
Qed.

Lemma canonical_bounds l :
  canonical l = true →
  0 ≤ digits_value l < 10 ^ Z.of_nat (length l) ∧
  (head l ≠ Some (digit_char 0) → 10 ^ (Z.of_nat (length l) - 1) ≤ digits_value l).
Proof.
  induction l as [|c l IH] using rev_ind; [done|]. intros H.
  rewrite digits_value_app, length_app. simpl length.
  destruct (decide (l = [])) as [->|Hne].
  - simpl in *. apply is_digit_range in H as Hd. change (digits_value []) with 0.
    split; [simpl; lia|]. intros Hh. simpl.
    assert (code c ≠ 48); [|lia]. intros E. apply Hh. rewrite <- (digit_code_char c H), E. done.
  - apply canonical_app in H as (Hl & Hd & Hh); [|done].
    apply is_digit_range in Hd. destruct (IH Hl) as [IH1 IH2]. specialize (IH2 Hh).
    replace (Z.of_nat (length l + 1)) with (Z.of_nat (length l) + 1) by lia.
    rewrite Z.pow_add_r by lia. split; [lia|]. intros _.
    destruct l as [|a l]; [done|]. simpl length in *.
    replace (Z.of_nat (S (length l)) + 1 - 1) with (Z.of_nat (S (length l)) - 1 + 1) by lia.
    rewrite Z.pow_add_r by lia. lia.
Qed.

Lemma log2_div10 n : 10 ≤ n → Z.log2 (n / 10) < Z.log2 n.
Proof.
  intros H. assert (1 ≤ n / 10 ≤ n / 2).
  { split; [apply Z.div_le_lower_bound; lia|]. apply Z.div_le_compat_l; lia. }
  assert (Z.log2 (n / 10) ≤ Z.log2 (n / 2)) by (apply Z.log2_le_mono; lia).
  change 2 with (2 ^ 1) in *. rewrite <- Z.shiftr_div_pow2, Z.log2_shiftr in * by lia.
  assert (1 ≤ Z.log2 n) by (change 1 with (Z.log2 2); apply Z.log2_le_mono; lia). lia.
Qed.

Lemma digits_of_canonical l fuel :
  canonical l = true → Z.log2 (digits_value l) ≤ Z.of_nat fuel →
  digits_of fuel (digits_value l) = l.
Proof.
  revert fuel. induction l as [|c l IH] using rev_ind; [done|]. intros fuel H Hf.
  rewrite digits_value_app in *. destruct (decide (l = [])) as [->|Hne].
  - simpl in *. change (digits_value []) with 0 in *. apply is_digit_range in H as Hd.
    replace (0 * 10 + (code c - 48)) with (code c - 48) by lia.
    destruct fuel; simpl; (destruct (Z.ltb_spec (code c - 48) 10); [|lia]); by rewrite digit_code_char.
  - apply canonical_app in H as (Hl & Hd & Hh); [|done].
    destruct (canonical_bounds l Hl) as [? Hlow]. specialize (Hlow Hh).
    assert (1 ≤ digits_value l).
    { destruct l; [done|]. simpl length in Hlow.
      assert (0 < 10 ^ (Z.of_nat (S (length l)) - 1)) by (apply Z.pow_pos_nonneg; lia). lia. }
    pose proof (proj1 (is_digit_range c) Hd).
    set (n := digits_value l * 10 + (code c - 48)) in *.
    assert (n / 10 = digits_value l) as Hdiv by (subst n; nia || (rewrite Z.div_add_l; [|lia]; rewrite Z.div_small; lia)).
    assert (n mod 10 = code c - 48) as Hmod.
    { subst n. rewrite Z.add_comm, Z.mod_add by lia. apply Z.mod_small. lia. }
    assert (10 ≤ n) by lia. pose proof (log2_div10 n ltac:(lia)) as Hlog.
    pose proof (Z.log2_nonneg (n / 10)).
    destruct fuel as [|fuel]; [lia|]. cbn [digits_of]. destruct (Z.ltb_spec n 10); [lia|].
    rewrite Hdiv, Hmod, digit_code_char by done. rewrite Hdiv in Hlog. f_equal. apply IH; [done|lia].
Qed.

Lemma decimal_canonical n :
  0 ≤ n → canonical (decimal n) = true ∧ digits_value (decimal n) = n ∧
          (0 < n → head (decimal n) ≠ Some (digit_char 0)).
Proof.
  intros Hn. unfold decimal.
  assert (Z.log2 n ≤ Z.of_nat (Z.to_nat (Z.log2 n))) as Hf by lia.
  revert Hf. generalize (Z.to_nat (Z.log2 n)) as fuel. intros fuel Hf.
  cut (canonical (digits_of fuel n) = true ∧ digits_value (digits_of fuel n) = n ∧
       (0 < n → head (digits_of fuel n) ≠ Some (digit_char 0)) ∧ digits_of fuel n ≠ []);
    [naive_solver|].
  revert n Hn Hf. induction fuel as [|fuel IH]; intros n Hn Hf; cbn [digits_of];
    destruct (Z.ltb_spec n 10).
  1, 3: unfold canonical; rewrite digit_char_is_digit by lia;
    split_and!; [done|unfold digits_value; simpl; rewrite digit_char_code; lia| |done];
    intros ? [= E]; apply (f_equal code) in E; rewrite !digit_char_code in E; lia.
  - pose proof (log2_div10 n ltac:(lia)). pose proof (Z.log2_nonneg (n / 10)). lia.
  - pose proof (log2_div10 n ltac:(lia)).
    assert (1 ≤ n / 10) by (apply Z.div_le_lower_bound; lia).
    destruct (IH (n / 10)) as (Hc & Hv & Hh & Hne); [lia..|].
    pose proof (Z.mod_pos_bound n 10 ltac:(lia)). specialize (Hh ltac:(lia)).
    set (l := digits_of fuel (n / 10)) in *. split_and!.
    + destruct l as [|a l]; [done|]. simpl in Hc, Hh.
      assert (is_digit a = true ∧ forallb is_digit l = true) as [Ha Hl].
      { destruct l; [by split|]. rewrite !andb_true_iff in Hc. tauto. }
      assert (code a ≠ 48) as Hz. { intros E. apply Hh. rewrite <- (digit_code_char a Ha), E. done. }
      simpl. rewrite Ha. apply Z.eqb_neq in Hz. rewrite Hz. simpl. rewrite forallb_app, Hl. simpl.
      rewrite digit_char_is_digit by done. by destruct l.
    + rewrite digits_value_app, Hv, digit_char_code by done.
      pose proof (Z.div_mod n 10). lia.
    + intros _. by destruct l.
    + by destruct l.
Qed.

Lemma chars_length s : length (chars s) = String.length s.
Proof. unfold chars. induction s; simpl; congruence. Qed.

Lemma uint_spec s maximum n :
  maximum < 10 ^ 20 →
  uint (JStr s) maximum = Ok n ↔ 0 ≤ n ≤ maximum ∧ s = str_int n.
Proof.
  intros Hmax. unfold uint, require_wire. split.
  - intros H. res_inv. apply Z.leb_le in H2. destruct (canonical_bounds (chars s)) as [? _]; [done|].
    split; [lia|]. unfold str_int, decimal. destruct (Z.ltb_spec (digits_value (chars s)) 0); [lia|].
    rewrite digits_of_canonical by (done || lia). unfold chars. by rewrite String.string_of_list_ascii_of_string.
  - intros [Hn ->]. unfold str_int. destruct (Z.ltb_spec n 0); [lia|].
    unfold chars. rewrite String.list_ascii_of_string_of_list_ascii.
    destruct (decimal_canonical n) as (Hc & Hv & Hh); [lia|]. rewrite Hc, Hv. simpl.
    rewrite <- chars_length. unfold chars. rewrite String.list_ascii_of_string_of_list_ascii.
    assert (length (decimal n) ≤ 20)%nat.
    { destruct (decide (n = 0)) as [->|]; [vm_compute; lia|].
      destruct (canonical_bounds _ Hc) as [_ Hb]. rewrite Hv in Hb.
      destruct (decide (length (decimal n) ≤ 20)%nat) as [|Hlt]; [done|].
      assert (10 ^ 20 ≤ n); [|lia]. etrans; [|apply Hb].
      - apply Z.pow_le_mono_r; lia.
      - apply Hh. lia. }
    destruct (Nat.leb_spec (length (decimal n)) 20); [|lia]. simpl.
    by destruct (Z.leb_spec n maximum); [|lia].
Qed.

Lemma uint_range value maximum n : uint value maximum = Ok n → 0 ≤ n ≤ maximum.
Proof.
  unfold uint, require_wire. destruct value; try done. intros H. res_inv.
  destruct (canonical_bounds (chars s)) as [? _]; [done|].
  match goal with H : (_ <=? maximum) = true |- _ => apply Z.leb_le in H end. lia.
Qed.

Lemma str_int_inj n m : 0 ≤ n → 0 ≤ m → str_int n = str_int m → n = m.
Proof.
  intros Hn Hm E. unfold str_int in E.
  destruct (Z.ltb_spec n 0), (Z.ltb_spec m 0); try lia.
  apply (f_equal String.list_ascii_of_string) in E.
  rewrite !String.list_ascii_of_string_of_list_ascii in E.
  destruct (decimal_canonical n Hn) as (_ & <- & _).
  destruct (decimal_canonical m Hm) as (_ & <- & _). by rewrite E.
Qed.

(** ** Every refusal is a [ProtocolError] *)

(** [m] raises nothing but [ProtocolError]. *)
Definition protocol_only {A} (m : result A) : Prop :=
  ∀ e, m = Err e → ∃ msg, e = ProtocolError msg.

Lemma po_ok {A} (a : A) : protocol_only (Ok a).
Proof. done. Qed.

Lemma po_protocol {A} msg : protocol_only (A := A) (Err (ProtocolError msg)).
Proof. intros e [= <-]. eauto. Qed.

Lemma po_require b msg : protocol_only (require b msg).
Proof. intros e. destruct b; simpl; intros [= <-]. eauto. Qed.

Lemma po_bind {A B} (m : result A) (f : A → result B) :
  protocol_only m → (∀ a, m = Ok a → protocol_only (f a)) → protocol_only (m ≫= f).
Proof. intros Hm Hf e He. apply bind_err in He as [He|(a & Ha & He)]; [eauto|by eapply Hf]. Qed.

Lemma po_mapR {A B} (f : A → result B) l :
  (∀ a, protocol_only (f a)) → protocol_only (mapR f l).
Proof.
  intros Hf. induction l; simpl; [apply po_ok|].
  apply po_bind; [done|]. intros. apply po_bind; [done|]. intros. apply po_ok.
Qed.

Lemma in_list_elem l s : in_list l s = true ↔ s ∈ l.
Proof.
  unfold in_list. rewrite existsb_exists, list_elem_of_In. setoid_rewrite String.eqb_eq. naive_solver.
Qed.

Lemma dget_elem d k : k ∈ keys d → is_Some (dget d k).
Proof.
  induction d as [|[k' v] d IH]; simpl; [by inversion 1|].
  destruct (String.eqb_spec k k'); [eauto|]. inversion 1; subst; [done|auto].
Qed.

Lemma dget_Some_key d k v : dget d k = Some v → k ∈ keys d.
Proof.
  induction d as [|[k' w] d IH]; simpl; [done|].
  destruct (String.eqb_spec k k') as [->|]; [left|right; auto].
Qed.

Lemma obj_ok value fields d :
  obj value fields = Ok d →
  value = JObj d ∧ (∀ k, k ∈ keys d ↔ k ∈ fields).
Proof.
  unfold obj. destruct value as [| | | | | | | |d']; try discriminate. intros H. res_inv.
  split; [done|]. rewrite forallb_Forall, Forall_forall in *.
  intros k; split; intros Hk; apply in_list_elem; auto.
Qed.

(** After [obj], the lookup of a declared field succeeds. *)
Lemma obj_jget value fields d k :
  obj value fields = Ok d → in_list fields k = true → is_ok (jget value k).
Proof.
  intros [-> Hk]%obj_ok Hin. apply in_list_elem, Hk, dget_elem in Hin as [v Hv].
  exists v. simpl. by rewrite Hv.
Qed.

Lemma po_jget value fields d k :
  obj value fields = Ok d → in_list fields k = true → protocol_only (jget value k).
Proof. intros Ho Hin e He. destruct (obj_jget _ _ _ _ Ho Hin) as [v Hv]. congruence. Qed.

Ltac po_step :=
  match goal with
  | |- protocol_only (Ok _) => apply po_ok
  | |- protocol_only (Err (ProtocolError _)) => apply po_protocol
  | |- protocol_only (require _ _) => apply po_require
  | |- protocol_only (require_wire _) => apply po_require
  | |- protocol_only (_ ≫= _) => apply po_bind; [ | intros ]
  | |- protocol_only (mapR _ _) => apply po_mapR; intros
  | |- protocol_only (if ?b then _ else _) => destruct b eqn:?
  | H : obj ?v _ = Ok _ |- protocol_only (jget ?v _) => eapply po_jget; [exact H | reflexivity]
  | |- protocol_only (jget _ _) => eapply po_jget; [eassumption | reflexivity]
  | |- protocol_only _ => solve [eauto with po]
  end.
Ltac po := repeat po_step.
Create HintDb po.

Lemma obj_po value fields : protocol_only (obj value fields).
Proof. unfold obj. destruct value; po. Qed.
Lemma uint_po value maximum : protocol_only (uint value maximum).
Proof. unfold uint. destruct value; po. Qed.
Lemma text_po value : protocol_only (text value).
Proof. unfold text. destruct value; po. Qed.
Lemma choice_po value choices : protocol_only (choice value choices).
Proof. unfold choice. destruct value; po. Qed.
Lemma array_po value : protocol_only (array value).
Proof. unfold array. destruct value; po. Qed.
Lemma dict_of_po value : protocol_only (dict_of value).
Proof. unfold dict_of. destruct value; po. Qed.
#[export] Hint Resolve obj_po uint_po text_po choice_po array_po dict_of_po : po.

Lemma key_po value : protocol_only (key value).
Proof. unfold key. po. Qed.
#[export] Hint Resolve key_po : po.

Lemma hex_values (d : dict) us k v :
  mapR (λ s, require_wire (hex_string 64 s)) (map snd d) = Ok us →
  jget (JObj d) k = Ok v → protocol_only (as_str v).
Proof.
  revert us. simpl. induction d as [|[k' v'] d IH]; simpl; [done|]. intros us H Hv. res_inv.
  destruct (String.eqb k k'); [|by eapply IH].
  injection Hv as <-. by destruct v'; discriminate.
Qed.

Lemma pin_po value : protocol_only (pin value).
Proof.
  unfold pin. apply po_bind; [po|]. intros d Hd. destruct (obj_ok _ _ _ Hd) as [-> _].
  apply po_bind; [po|]. intros us Hus.
  repeat (apply po_bind; [first [po_step | by eapply hex_values]|intros]). po.
Qed.
Lemma address_po value : protocol_only (address value).
Proof. unfold address. po. Qed.
Lemma number_po value q : protocol_only (number value q).
Proof. unfold number. po. Qed.
Lemma book_hash_po value : protocol_only (book_hash value).
Proof. unfold book_hash. po. Qed.
Lemma venue_time_po value : protocol_only (venue_time value).
Proof. unfold venue_time. po. Qed.
#[export] Hint Resolve pin_po address_po number_po book_hash_po venue_time_po : po.

(** [key_of] is called on objects that declare the two key fields. *)
Lemma key_of_po value fields d :
  obj value fields = Ok d → in_list fields "instrument" = true →
  in_list fields "orientation" = true → protocol_only (key_of value).
Proof. intros Ho Hi Hq. unfold key_of. po. all: by eapply po_jget. Qed.

Ltac po_key := po; try (eapply key_of_po; [eassumption | reflexivity | reflexivity]).

Lemma delta_po value annotated : protocol_only (delta value annotated).
Proof. unfold delta. destruct annotated; po_key.  Qed.
Lemma trade_po value : protocol_only (trade value).
Proof. unfold trade. po_key. Qed.
Lemma full_level_po level : protocol_only (full_level level).
Proof. unfold full_level. po. Qed.
#[export] Hint Resolve delta_po trade_po full_level_po : po.

Lemma full_side_po b fields d side :
  obj b fields = Ok d → in_list fields side = true → protocol_only (full_side b side).
Proof. intros. unfold full_side. po. by eapply po_jget. Qed.

Lemma full_book_po b : protocol_only (full_book b).
Proof. unfold full_book. po_key; eapply full_side_po; done. Qed.
#[export] Hint Resolve full_book_po : po.

Lemma event_po value : protocol_only (event value).
Proof. unfold event. po. Qed.
Lemma control_event_po value : protocol_only (control_event value).
Proof. unfold control_event. po. Qed.
Lemma reason_po value : protocol_only (reason value).
Proof. unfold reason. po. Qed.
Lemma reference_po value pins : protocol_only (reference value pins).
Proof. unfold reference. po. Qed.
Lemma origin_po value pins : protocol_only (origin value pins).
Proof.
  unfold origin. apply po_bind; [po|]. intros d Hd. destruct (jeq_str _ _).
  all: apply po_bind; [po|]; intros [] (? & ? & _)%bind_ok; po.
Qed.

(** [pairs] accepts exactly the documents without a repeated key, unchanged. *)
Lemma pairs_spec d values d' :
  NoDup (keys d) → pairs d values = Ok d' ↔ d' = d ++ values ∧ NoDup (keys (d ++ values)).
Proof.
  revert d. induction values as [|[k v] values IH]; intros d Hd; simpl.
  - rewrite app_nil_r. naive_solver.
  - destruct (in_list (keys d) k) eqn:E; simpl.
    + apply in_list_elem in E. split; [done|]. intros [_ Hnd]. unfold keys in *.
      rewrite map_app in Hnd. apply NoDup_app in Hnd as (_ & Hnd & _).
      exfalso. apply (Hnd k E). simpl. left.
    + rewrite IH.
      * by rewrite <- app_assoc.
      * assert (k ∉ keys d) by (rewrite <- in_list_elem; by rewrite E).
        unfold keys in *. rewrite map_app. apply NoDup_app. split_and!; [done| |apply NoDup_singleton].
        intros x Hx Hin. simpl in Hin. apply list_elem_of_singleton in Hin. by subst.
Qed.

(** ** Properties *)

(** [uint] reads exactly what [str] writes: for a bound below [10^20] it accepts a
    value if and only if it is the canonical decimal of an integer between 0 and the
    bound, and returns that integer; any other value is a [ProtocolError]. *)
Theorem uint_reads_canonical value maximum :
  maximum < 10 ^ 20 →
  (∀ n, uint value maximum = Ok n ↔ 0 ≤ n ≤ maximum ∧ value = JStr (str_int n)) ∧
  protocol_only (uint value maximum).
Proof.
  intros Hmax. split; [|apply uint_po]. intros n. destruct value.
  7: rewrite uint_spec by done; naive_solver.
  all: simpl; naive_solver.
Qed.

Lemma uint_reads_canonical_witness :
  uint (JStr (str_int 1234567)) max_u64 = Ok 1234567 ∧ ¬ is_ok (uint (JStr "007") max_u64).
Proof.
  split.
  - apply (uint_reads_canonical (JStr (str_int 1234567)) max_u64); [reflexivity|].
    split; [split; vm_compute; discriminate | reflexivity].
  - intros [n Hn]. vm_compute in Hn. discriminate.
Defined.

(** C34. The wire validators are closed: whatever JSON value they are given, they
    either accept it or raise [ProtocolError]; none of the lookups, conversions and
    tests after a schema check can raise anything else. *)
Theorem validators_raise_only_protocol_error value pins :
  protocol_only (event value) ∧ protocol_only (control_event value) ∧
  protocol_only (reason value) ∧ protocol_only (origin value pins) ∧
  protocol_only (reference value pins) ∧ protocol_only (pin value) ∧
  protocol_only (key value) ∧ protocol_only (number value true) ∧
  protocol_only (delta value true).
Proof.
  auto 20 using event_po, control_event_po, reason_po, origin_po, reference_po with po.
Qed.
