(* ===== verification/Json.v ===== *)
(** * Serialized documents ([src/replay/preparation.py] [encoded], [src/replay/streams/protocol.py] [decode])

    Key-sorted documents, UTF-8, and the codec interface: [json.dumps] with sorted
    keys and [json.loads] with a duplicate check are functions of the standard
    library, represented by a class with their documented law.  A [JStr] holds the
    UTF-8 bytes of its characters; a lone surrogate, which no encoder accepts, makes
    those bytes invalid. *)
From stdpp Require Import list strings countable.
From S2P Require Import Prelude Wire.

(** ** Induction on documents *)
Section JsonInd.
Context (P : json → Prop).
Context (Hnull : P JNull) (Hbool : ∀ b, P (JBool b)) (Hint : ∀ n, P (JInt n))
        (Hfloat : ∀ m e, P (JFloat m e)) (Hinf : ∀ b, P (JInf b)) (Hnan : P JNaN) (Hstr : ∀ s, P (JStr s))
        (Harr : ∀ l, Forall P l → P (JArr l))
        (Hobj : ∀ d, Forall (λ kv, P kv.2) d → P (JObj d)).

Fixpoint json_nested_ind (v : json) : P v :=
  match v with
  | JNull => Hnull
  | JBool b => Hbool b
  | JInt n => Hint n
  | JFloat m e => Hfloat m e
  | JInf b => Hinf b
  | JNaN => Hnan
  | JStr s => Hstr s
  | JArr l => Harr l ((fix go l : Forall P l :=
      match l with [] => Forall_nil_2 _ | x :: l => Forall_cons_2 _ _ _ (json_nested_ind x) (go l) end) l)
  | JObj d => Hobj d ((fix go d : Forall (λ kv, P kv.2) d :=
      match d with [] => Forall_nil_2 _ | kv :: d => Forall_cons_2 _ _ _ (json_nested_ind kv.2) (go d) end) d)
  end.
End JsonInd.

(** ** Key order *)
Definition binding_leb (a b : string * json) : bool :=
  match String.compare a.1 b.1 with Gt => false | _ => true end.

(** [sort_keys=True], at every depth. *)
Fixpoint sort_json (v : json) : json :=
  match v with
  | JArr l => JArr (map sort_json l)
  | JObj d => JObj (sort_by binding_leb (map (λ kv, (kv.1, sort_json kv.2)) d))
  | _ => v
  end.

Lemma dget_insert kv d k :
  dget (insert_by binding_leb kv d) k = if String.eqb k kv.1 then Some kv.2 else dget d k.
Proof.
  destruct kv as [k' v]. induction d as [|[k1 v1] d IH]; simpl; [done|].
  unfold binding_leb at 1. simpl. destruct (String.compare k' k1) eqn:E; simpl; try done.
  rewrite IH. simpl. destruct (String.eqb_spec k k1) as [->|]; [|done].
  destruct (String.eqb_spec k1 k') as [<-|]; [|done].
  pose proof (String.compare_antisym k1 k1) as Ha. by rewrite E in Ha.
Qed.

Lemma dget_sort d k : dget (sort_by binding_leb d) k = dget d k.
Proof.
  induction d as [|[k' v] d IH]; simpl; [done|]. rewrite dget_insert. simpl. by rewrite IH.
Qed.

Lemma dget_map f d k : dget (map (λ kv : string * json, (kv.1, f kv.2)) d) k = option_map f (dget d k).
Proof. induction d as [|[k' v] d IH]; simpl; [done|]. by destruct (String.eqb k k'). Qed.

Lemma jget_sort v k : jget (sort_json v) k = (x ← jget v k; Ok (sort_json x)).
Proof.
  destruct v; simpl; try done. rewrite dget_sort, dget_map. by destruct (dget d k).
Qed.

Lemma keys_sort d : Permutation (keys (sort_by binding_leb (map (λ kv, (kv.1, sort_json kv.2)) d))) (keys d).
Proof.
  unfold keys. rewrite sort_by_perm, map_map. done.
Qed.

Lemma forallb_perm {A} (f : A → bool) l k : Permutation l k → forallb f l = forallb f k.
Proof. induction 1; simpl; [done|congruence| |congruence]. by rewrite !andb_assoc, (andb_comm (f y)). Qed.

Lemma in_list_perm l k s : Permutation l k → in_list l s = in_list k s.
Proof. intros H. apply eq_bool_prop_intro. rewrite !Is_true_true, !in_list_elem. by rewrite H. Qed.

(** ** UTF-8 *)
Definition byte_of (n : Z) : Ascii.ascii := Ascii.ascii_of_N (Z.to_N n).

(** A Unicode scalar value: a code point that is not a surrogate. *)
Definition scalar (c : Z) : bool := ((0 <=? c) && (c <? 55296)) || ((57344 <=? c) && (c <? 1114112)).

Definition utf8_char (c : Z) : list Ascii.ascii :=
  if c <? 128 then [byte_of c]
  else if c <? 2048 then [byte_of (192 + c / 64); byte_of (128 + c mod 64)]
  else if c <? 65536 then [byte_of (224 + c / 4096); byte_of (128 + c / 64 mod 64); byte_of (128 + c mod 64)]
  else [byte_of (240 + c / 262144); byte_of (128 + c / 4096 mod 64);
        byte_of (128 + c / 64 mod 64); byte_of (128 + c mod 64)].

Definition utf8_encode (t : list Z) : string :=
  String.string_of_list_ascii (concat (map utf8_char t)).

Definition continuation (b : Ascii.ascii) : bool := (128 <=? code b) && (code b <? 192).
Definition low6 (b : Ascii.ascii) : Z := code b - 128.

(** One character, in its shortest form. *)
Definition checked (c low : Z) (rest : option (list Z)) : option (list Z) :=
  if (low <=? c) && scalar c then option_map (cons c) rest else None.

Fixpoint utf8_chars (l : list Ascii.ascii) : option (list Z) :=
  match l with
  | [] => Some []
  | b0 :: l0 =>
      if code b0 <? 128 then option_map (cons (code b0)) (utf8_chars l0)
      else match l0 with
      | b1 :: l1 =>
          if negb ((192 <=? code b0) && continuation b1) then None
          else if code b0 <? 224 then checked ((code b0 - 192) * 64 + low6 b1) 128 (utf8_chars l1)
          else match l1 with
          | b2 :: l2 =>
              if negb (continuation b2) then None
              else if code b0 <? 240
              then checked ((code b0 - 224) * 4096 + low6 b1 * 64 + low6 b2) 2048 (utf8_chars l2)
              else match l2 with
              | b3 :: l3 =>
                  if negb (continuation b3 && (code b0 <? 248)) then None
                  else checked ((code b0 - 240) * 262144 + low6 b1 * 4096 + low6 b2 * 64 + low6 b3) 65536
                         (utf8_chars l3)
              | [] => None
              end
          | [] => None
          end
      | [] => None
      end
  end.

(** The characters of a string, when it holds no surrogate. *)
Definition utf8_decode (s : string) : option (list Z) := utf8_chars (chars s).
Definition encodable (s : string) : bool := match utf8_decode s with Some _ => true | None => false end.

(** [len(s)]: the bytes that begin a character. *)
Definition str_len (s : string) : nat := length (filter (λ b, continuation b = false) (chars s)).

Lemma code_byte n : 0 ≤ n < 256 → code (byte_of n) = n.
Proof.
  intros H. unfold code, byte_of. rewrite Ascii.N_ascii_embedding, Z2N.id by lia. done.
Qed.

Lemma utf8_chars_char c l : scalar c = true →
  utf8_chars (utf8_char c ++ l) = option_map (cons c) (utf8_chars l).
Proof.
  intros Hs. unfold utf8_char.
  assert (0 ≤ c < 1114112) as Hc.
  { unfold scalar in Hs. rewrite orb_true_iff, !andb_true_iff, !Z.leb_le, !Z.ltb_lt in Hs. lia. }
  pose proof (Z.mod_pos_bound c 64 eq_refl). pose proof (Z.mod_pos_bound (c / 64) 64 eq_refl).
  pose proof (Z.mod_pos_bound (c / 4096) 64 eq_refl).
  pose proof (Z.div_mod c 64 ltac:(lia)). pose proof (Z.div_mod (c / 64) 64 ltac:(lia)) as H64.
  pose proof (Z.div_mod (c / 4096) 64 ltac:(lia)) as H4096.
  rewrite Z.div_div in H64 by lia. rewrite Z.div_div in H4096 by lia.
  change (64 * 64) with 4096 in H64. change (4096 * 64) with 262144 in H4096.
  assert (0 ≤ c / 64 ∧ 0 ≤ c / 4096 ∧ 0 ≤ c / 262144) as (? & ? & ?) by (split_and!; apply Z.div_pos; lia).
  assert (∀ v low, v = c → low ≤ c → checked v low (utf8_chars l) = option_map (cons c) (utf8_chars l)) as Hck.
  { intros v low -> Hlow. unfold checked. by rewrite (proj2 (Z.leb_le _ _) Hlow), Hs. }
  assert (∀ n, 0 ≤ n < 64 → continuation (byte_of (128 + n)) = true) as Hcont.
  { intros n Hn. unfold continuation. rewrite code_byte by lia.
    apply andb_true_iff. rewrite Z.leb_le, Z.ltb_lt. lia. }
  assert (∀ n, 0 ≤ n < 64 → low6 (byte_of (128 + n)) = n) as Hlow by (intros n Hn; unfold low6; rewrite code_byte; lia).
  destruct (Z.ltb_spec c 128); [simpl; rewrite code_byte by lia; by rewrite (proj2 (Z.ltb_lt c 128))|].
  destruct (Z.ltb_spec c 2048).
  { simpl. rewrite code_byte by lia. rewrite Hcont by lia. rewrite Hlow by lia.
    rewrite (proj2 (Z.ltb_ge _ 128)), (proj2 (Z.leb_le 192 _)), (proj2 (Z.ltb_lt _ 224)) by lia. simpl. apply Hck; lia. }
  destruct (Z.ltb_spec c 65536).
  { simpl. rewrite code_byte by lia. rewrite !Hcont by lia. rewrite !Hlow by lia.
    rewrite (proj2 (Z.ltb_ge _ 128)), (proj2 (Z.leb_le 192 _)), (proj2 (Z.ltb_ge _ 224)),
      (proj2 (Z.ltb_lt _ 240)) by lia. simpl. apply Hck; lia. }
  simpl. rewrite code_byte by lia. rewrite !Hcont by lia. rewrite !Hlow by lia.
  rewrite (proj2 (Z.ltb_ge _ 128)), (proj2 (Z.leb_le 192 _)), (proj2 (Z.ltb_ge _ 224)),
    (proj2 (Z.ltb_ge _ 240)), (proj2 (Z.ltb_lt _ 248)) by lia. simpl. apply Hck; lia.
Qed.

Lemma utf8_decode_encode t : Forall (λ c, scalar c = true) t → utf8_decode (utf8_encode t) = Some t.
Proof.
  unfold utf8_decode, utf8_encode, chars. rewrite String.list_ascii_of_string_of_list_ascii.
  induction 1 as [|c t Hc _ IH]; [done|]. simpl concat. rewrite utf8_chars_char by done. by rewrite IH.
Qed.

(** ASCII strings are encodable. *)
Lemma ascii_encodable s : Forall (λ c, code c < 128) (chars s) → encodable s = true.
Proof.
  unfold encodable, utf8_decode. intros H.
  assert (is_Some (utf8_chars (chars s))) as [t ->]; [|done].
  induction H as [|c l Hc _ [t IH]]; simpl; [eauto|].
  apply Z.ltb_lt in Hc. rewrite Hc, IH. simpl. eauto.
Qed.

#[export] Instance byte_eq_dec : EqDecision Byte.byte.
Proof. exact Byte.byte_eq_dec. Defined.

(** ** The codec *)

(** Every string of the document, keys included, can be encoded. *)
Fixpoint all_encodable (v : json) : bool :=
  match v with
  | JStr s => encodable s
  | JArr l => forallb all_encodable l
  | JObj d => forallb (λ kv, encodable kv.1 && all_encodable kv.2) d
  | _ => true
  end.

Fixpoint float_free (v : json) : bool :=
  match v with
  | JFloat _ _ | JInf _ | JNaN => false
  | JArr l => forallb float_free l
  | JObj d => forallb (λ kv, float_free kv.2) d
  | _ => true
  end.

(** [json.loads] with the duplicate-key hook, and [json.dumps] with sorted keys and no
    whitespace: the text of a float-free document reads back as that document with its
    keys sorted, and key order does not show in the text. *)
Class JsonCodec (loads : list Byte.byte → option json) (dumps : json → list Byte.byte) : Prop := {
  loads_dumps : ∀ v, float_free v = true → all_encodable v = true → loads (dumps v) = Some (sort_json v);
  dumps_sort : ∀ v, dumps (sort_json v) = dumps v;
}.

Section Codec.
Context (loads : list Byte.byte → option json) (dumps : json → list Byte.byte).

(** [encoded]: [.encode()] refuses surrogates. *)
Definition encoded (v : json) : result (list Byte.byte) :=
  if all_encodable v then Ok (dumps v) else Err (ValueError "surrogates not allowed").

Definition decode_json (data : list Byte.byte) (limit : Z) : result json :=
  _ ← require (Z.of_nat (length data) <=? limit) "entry limit";
  match loads data with
  | Some v => Ok v
  | None => Err (ProtocolError "malformed JSON")
  end.
End Codec.

(** ** A codec that satisfies the law *)
Lemma binding_leb_total a b : binding_leb a b = true ∨ binding_leb b a = true.
Proof.
  unfold binding_leb. rewrite (String.compare_antisym a.1 b.1).
  destruct (String.compare b.1 a.1); simpl; auto.
Qed.

Lemma sort_map_keys (f : json → json) d :
  map (λ kv, (kv.1, f kv.2)) (sort_by binding_leb d)
  = sort_by binding_leb (map (λ kv : string * json, (kv.1, f kv.2)) d).
Proof.
  assert (∀ kv l, map (λ kv : string * json, (kv.1, f kv.2)) (insert_by binding_leb kv l)
    = insert_by binding_leb (kv.1, f kv.2) (map (λ kv, (kv.1, f kv.2)) l)) as Hi.
  { intros kv l. induction l as [|x l IH]; simpl; [done|].
    unfold binding_leb at 1 3. simpl. destruct (String.compare kv.1 x.1); simpl; congruence. }
  induction d as [|kv d IH]; simpl; [done|]. by rewrite Hi, IH.
Qed.

(** Sorting what is sorted pairwise changes nothing. *)
Fixpoint chained (d : dict) : bool :=
  match d with a :: ((b :: _) as d') => binding_leb a b && chained d' | _ => true end.

Lemma insert_chained a d : chained d = true → chained (insert_by binding_leb a d) = true.
Proof.
  induction d as [|b d IH]; simpl; [done|]. intros H. destruct (binding_leb a b) eqn:E.
  - change (binding_leb a b && chained (b :: d) = true). by rewrite E.
  - destruct (binding_leb_total a b) as [Hab|Hba]; [congruence|]. destruct d as [|c d]; simpl; [by rewrite Hba|].
    apply andb_true_iff in H as [Hbc H]. specialize (IH H). simpl in IH |- *.
    destruct (binding_leb a c); [by rewrite Hba|by rewrite Hbc].
Qed.

Lemma sort_chained d : chained (sort_by binding_leb d) = true.
Proof. induction d; simpl; [done|]. by apply insert_chained. Qed.

Lemma chained_sort d : chained d = true → sort_by binding_leb d = d.
Proof.
  induction d as [|a d IH]; [done|]. intros H. simpl. rewrite IH.
  - destruct d as [|b d]; simpl; [done|]. simpl in H. apply andb_true_iff in H as [-> _]. done.
  - destruct d; [done|]. simpl in H. by apply andb_true_iff in H as [_ ?].
Qed.

Lemma sort_json_idem v : sort_json (sort_json v) = sort_json v.
Proof.
  induction v as [| | | | | | |l IH|d IH] using json_nested_ind; simpl; try done; f_equal.
  - rewrite map_map. induction IH as [|x l Hx _ IH]; simpl; [done|]. by rewrite Hx, IH.
  - rewrite sort_map_keys, map_map. simpl.
    rewrite (chained_sort (sort_by _ (map _ d))); [|].
    2:{ apply sort_chained. }
    f_equal. induction IH as [|[k x] d Hx _ IH]; simpl in *; [done|]. by rewrite Hx, IH.
Qed.

Inductive leaf := LNull | LBool (b : bool) | LInt (n : Z) | LFloat (m e : Z) | LInf (b : bool) | LNaN | LStr (s : string).
#[local] Instance leaf_eq_dec : EqDecision leaf.
Proof. solve_decision. Defined.
#[local] Instance leaf_countable : Countable leaf.
Proof.
  refine (inj_countable'
    (λ l, match l with
     | LNull => inl () | LBool b => inr (inl b) | LInt n => inr (inr (inl n))
     | LFloat m e => inr (inr (inr (inl (inl (m, e))))) | LInf b => inr (inr (inr (inl (inr (Some b)))))
     | LNaN => inr (inr (inr (inl (inr None)))) | LStr s => inr (inr (inr (inr s))) end)
    (λ x, match x with
     | inl _ => LNull | inr (inl b) => LBool b | inr (inr (inl n)) => LInt n
     | inr (inr (inr (inl (inl (m, e))))) => LFloat m e | inr (inr (inr (inl (inr (Some b))))) => LInf b
     | inr (inr (inr (inl (inr None)))) => LNaN | inr (inr (inr (inr s))) => LStr s end) _).
  by intros [].
Defined.

Fixpoint to_tree (v : json) : gen_tree leaf :=
  match v with
  | JNull => GenLeaf LNull
  | JBool b => GenLeaf (LBool b)
  | JInt n => GenLeaf (LInt n)
  | JFloat m e => GenLeaf (LFloat m e)
  | JInf b => GenLeaf (LInf b)
  | JNaN => GenLeaf LNaN
  | JStr s => GenLeaf (LStr s)
  | JArr l => GenNode 0 (map to_tree l)
  | JObj d => GenNode 1 (map (λ kv, GenNode 2 [GenLeaf (LStr kv.1); to_tree kv.2]) d)
  end.

Fixpoint of_tree (t : gen_tree leaf) : json :=
  match t with
  | GenLeaf LNull => JNull
  | GenLeaf (LBool b) => JBool b
  | GenLeaf (LInt n) => JInt n
  | GenLeaf (LFloat m e) => JFloat m e
  | GenLeaf (LInf b) => JInf b
  | GenLeaf LNaN => JNaN
  | GenLeaf (LStr s) => JStr s
  | GenNode 0 l => JArr (map of_tree l)
  | GenNode _ l => JObj (map (λ t, match t with
                               | GenNode _ [GenLeaf (LStr k); u] => (k, of_tree u)
                               | _ => (EmptyString, JNull)
                               end) l)
  end.

Lemma of_to_tree v : of_tree (to_tree v) = v.
Proof.
  induction v as [| | | | | | |l IH|d IH] using json_nested_ind; simpl; try done; f_equal; rewrite map_map.
  - induction IH as [|x l Hx _ IH]; simpl; [done|]. by rewrite Hx, IH.
  - induction IH as [|[k x] d Hx _ IH]; simpl in *; [done|]. by rewrite Hx, IH.
Qed.

Definition bit (b : bool) : Byte.byte := if b then Byte.x01 else Byte.x00.
Fixpoint pos_bytes (p : positive) : list Byte.byte :=
  match p with xH => [] | xO p => bit false :: pos_bytes p | xI p => bit true :: pos_bytes p end.
Fixpoint bytes_pos (l : list Byte.byte) : positive :=
  match l with [] => 1%positive | Byte.x01 :: l => xI (bytes_pos l) | _ :: l => xO (bytes_pos l) end.

Lemma bytes_pos_bytes p : bytes_pos (pos_bytes p) = p.
Proof. induction p; simpl; congruence. Qed.

(** The codec of the demonstrations: a bit string that numbers the sorted document. *)
Definition demo_dumps (v : json) : list Byte.byte := pos_bytes (encode (to_tree (sort_json v))).
Definition demo_loads (l : list Byte.byte) : option json := option_map of_tree (decode (bytes_pos l)).

#[export] Instance demo_codec : JsonCodec demo_loads demo_dumps.
Proof.
  split.
  - intros v _ _. unfold demo_loads, demo_dumps. rewrite bytes_pos_bytes, decode_encode. simpl. by rewrite of_to_tree.
  - intros v. unfold demo_dumps. by rewrite sort_json_idem.
Qed.

(** A short stand-in for a digest. *)
Definition demo_digest (l : list Byte.byte) : string :=
  str_int (foldl (λ h b, (h * 257 + Z.of_N (Byte.to_N b) + 1) mod 2147483648) 7 l).
