(* ===== verification/BookProtocol.v ===== *)
(** * Replay books ([src/replay/streams/protocol.py], class [Book])

    A planned book as the decoder mutates it: two quantity stores (a dense array for
    small price scales, a dict for larger ones), the occupied price sets and the
    cached best prices.  Every method is a state-and-exception computation on the
    book: what it wrote before raising stays written. *)
From stdpp Require Import gmap fin_sets.
From S2P Require Import Prelude Wire.

Definition DENSE_MAX_PRICE_SCALE : Z := 4.
Definition BEST_SCAN_SLOTS : Z := 64.

(** [SIDES]: index 0 is the bid side. *)
Inductive side := Bid | Ask.
#[global] Instance side_eq_dec : EqDecision side.
Proof. solve_decision. Defined.

Definition side_of (name : string) : option side :=
  if String.eqb name "bid" then Some Bid else if String.eqb name "ask" then Some Ask else None.

(** A pair indexed by a side. *)
Record sided (A : Type) := Sided { on_bid : A; on_ask : A }.
Arguments Sided {A} _ _.
Arguments on_bid {A} _.
Arguments on_ask {A} _.

Definition sget {A} (s : side) (p : sided A) : A :=
  match s with Bid => on_bid p | Ask => on_ask p end.
Definition sset {A} (s : side) (a : A) (p : sided A) : sided A :=
  match s with Bid => Sided a (on_ask p) | Ask => Sided (on_bid p) a end.

Lemma sget_sset {A} s s' (a : A) p :
  sget s (sset s' a p) = if decide (s = s') then a else sget s p.
Proof. by destruct s, s', p. Qed.

(** ** Quantity stores *)
Inductive store :=
| Dense (slots : list Z)
| Sparse (levels : gmap Z Z).

(** A Python list index: negative indices count from the end. *)
Definition slot (len : nat) (p : Z) : nat :=
  Z.to_nat (if p <? 0 then p + Z.of_nat len else p).

(** [quantities[p]]; a sparse store reads 0 where it has no entry. *)
Definition read (q : store) (p : Z) : result Z :=
  match q with
  | Dense l =>
      if p <? - Z.of_nat (length l) then Err IndexError
      else match l !! slot (length l) p with Some v => Ok v | None => Err IndexError end
  | Sparse m => Ok (default 0 (m !! p))
  end.

(** [quantities[p] = v]. *)
Definition write (q : store) (p v : Z) : result store :=
  match q with
  | Dense l =>
      if (p <? - Z.of_nat (length l)) || (Z.of_nat (length l) <=? p) then Err IndexError
      else Ok (Dense (<[slot (length l) p := v]> l))
  | Sparse m => Ok (Sparse (<[p := v]> m))
  end.

(** [del quantities[p]] of a sparse store. *)
Definition del (q : store) (p : Z) : result store :=
  match q with
  | Dense _ => Err (TypeError "del")
  | Sparse m => match m !! p with Some _ => Ok (Sparse (delete p m)) | None => Err KeyError end
  end.

(** ** The book *)
Record Book := mkBook {
  revision : Z;
  validity : string;
  dependency : json;
  as_of : json;
  reason : json;
  limit : Z;
  dense : bool;
  quantities : option (sided store);
  occupied : sided (gset Z);
  best : sided (option Z);
}.

Definition new_book (price_scale : Z) : Book :=
  mkBook 0 "not_initialized" JNull JNull JNull (10 ^ price_scale)
    (price_scale <=? DENSE_MAX_PRICE_SCALE) None (Sided ∅ ∅) (Sided None None).

Definition set_quantities (q : option (sided store)) (b : Book) : Book :=
  mkBook (revision b) (validity b) (dependency b) (as_of b) (reason b) (limit b) (dense b)
    q (occupied b) (best b).
Definition set_occupied (o : sided (gset Z)) (b : Book) : Book :=
  mkBook (revision b) (validity b) (dependency b) (as_of b) (reason b) (limit b) (dense b)
    (quantities b) o (best b).
Definition set_best (t : sided (option Z)) (b : Book) : Book :=
  mkBook (revision b) (validity b) (dependency b) (as_of b) (reason b) (limit b) (dense b)
    (quantities b) (occupied b) t.
(** The five public fields, which the decoder assigns. *)
Definition set_header (revision : Z) (validity : string) (dependency as_of reason : json)
    (b : Book) : Book :=
  mkBook revision validity dependency as_of reason (limit b) (dense b) (quantities b)
    (occupied b) (best b).

(** [self._quantities[s]]. *)
Definition quantities_of (b : Book) (s : side) : result store :=
  match quantities b with
  | Some q => Ok (sget s q)
  | None => Err (TypeError "NoneType")
  end.

(** [better s p q]: price [p] is strictly better than [q] on side [s]. *)
Definition better (s : side) (p q : Z) : bool :=
  match s with Bid => q <? p | Ask => p <? q end.

(** Price order, best first. *)
Definition ahead (s : side) (p q : Z) : bool :=
  match s with Bid => q <=? p | Ask => p <=? q end.

(** [sorted(occupied, reverse=s == 0)]. *)
Definition sorted_prices (s : side) (o : gset Z) : list Z := sort_by (ahead s) (elements o).

(** [levels]: [heapq.nlargest(n, o)] is the first [n] of [sorted(o, reverse=True)]. *)
Definition levels (b : Book) (side_name : string) (n : option Z) : result (list (Z * Z)) :=
  match side_of side_name with
  | None => Err (ProtocolError "invalid wire value")
  | Some s =>
      _ ← require (match n with None => true | Some n => 0 <=? n end) "level count";
      if negb (String.eqb (validity b) "usable") then Ok [] else
      q ← quantities_of b s;
      let prices := match n with
        | None => sorted_prices s (sget s (occupied b))
        | Some n => if n =? 1 then match sget s (best b) with None => [] | Some p => [p] end
                    else take (Z.to_nat n) (sorted_prices s (sget s (occupied b)))
        end in
      mapR (λ p, v ← read q p; Ok (p, v)) prices
  end.

Definition top (b : Book) (s : side) : result (option (Z * Z)) :=
  match sget s (best b) with
  | None => Ok None
  | Some p =>
      if negb (String.eqb (validity b) "usable") then Ok None
      else q ← quantities_of b s; v ← read q p; Ok (Some (p, v))
  end.

Definition best_bid (b : Book) : result (option (Z * Z)) := top b Bid.
Definition best_ask (b : Book) : result (option (Z * Z)) := top b Ask.

(** ** [_clear] and [_snapshot] *)

(** One side of [_clear]. *)
Definition clear_side (b : Book) (s : side) (q : store) : result store :=
  if dense b then foldR (λ q p, write q p 0) q (elements (sget s (occupied b)))
  else Ok (Sparse ∅).

Definition clear : ST Book () := λ b,
  let done b := (set_best (Sided None None) b, Ok ()) in
  match quantities b with
  | None => done b
  | Some q =>
      match clear_side b Bid (on_bid q) with
      | Err e => (b, Err e)
      | Ok qb =>
          let b := set_occupied (sset Bid ∅ (occupied b)) (set_quantities (Some (sset Bid qb q)) b) in
          match clear_side b Ask (on_ask q) with
          | Err e => (b, Err e)
          | Ok qa =>
              done (set_occupied (Sided ∅ ∅) (set_quantities (Some (Sided qb qa)) b))
          end
      end
  end.

(** [quantities[p] = v] on the book. *)
Definition write_quantity (s : side) (p v : Z) : ST Book () := λ b,
  match quantities b with
  | None => (b, Err (TypeError "NoneType"))
  | Some q => match write (sget s q) p v with
              | Ok w => (set_quantities (Some (sset s w q)) b, Ok ())
              | Err e => (b, Err e)
              end
  end.

Definition del_quantity (s : side) (p : Z) : ST Book () := λ b,
  match quantities b with
  | None => (b, Err (TypeError "NoneType"))
  | Some q => match del (sget s q) p with
              | Ok w => (set_quantities (Some (sset s w q)) b, Ok ())
              | Err e => (b, Err e)
              end
  end.

Definition add_occupied (s : side) (p : Z) : ST Book () :=
  modifyS (λ b, set_occupied (sset s ({[p]} ∪ sget s (occupied b)) (occupied b)) b).
Definition discard_occupied (s : side) (p : Z) : ST Book () :=
  modifyS (λ b, set_occupied (sset s (sget s (occupied b) ∖ {[p]}) (occupied b)) b).
Definition put_best (s : side) (t : option Z) : ST Book () :=
  modifyS (λ b, set_best (sset s t (best b)) b).

(** Fresh stores, or the cleared old ones. *)
Definition snapshot_start : ST Book () :=
  b ← getS;
  match quantities b with
  | None =>
      let size := Z.to_nat (limit b + 1) in
      putS (set_quantities (Some (if dense b
              then Sided (Dense (replicate size 0)) (Dense (replicate size 0))
              else Sided (Sparse ∅) (Sparse ∅))) b)
  | Some _ => clear
  end.

(** The body of the inner loop of [_snapshot]. *)
Definition snapshot_level (s : side) (level : json) : ST Book () :=
  pq ← liftR (unpack2 level);
  p ← liftR (py_int pq.1);
  b ← getS;
  _ ← requireS ((0 <=? p) && (p <=? limit b)) "price outside plan scale";
  v ← liftR (py_int pq.2);
  _ ← write_quantity s p v;
  add_occupied s p.

Definition snapshot_side (s : side) (ladder : json) : ST Book () :=
  rows ← liftR (py_iter ladder);
  _ ← forS (snapshot_level s) rows;
  if truthy ladder then
    row ← liftR (jindex ladder (match s with Bid => true | Ask => false end) 0);
    price ← liftR (jindex row false 0);
    p ← liftR (py_int price);
    put_best s (Some p)
  else mret ().

Definition snapshot (bids asks : json) : ST Book () :=
  _ ← snapshot_start;
  _ ← snapshot_side Bid bids;
  snapshot_side Ask asks.

(** ** [_next_best] and [_operations] *)

(** [max(occupied)] on the bid side, [min(occupied)] on the ask side. *)
Definition extreme (s : side) (o : gset Z) : option Z := head (sorted_prices s o).

(** The first nonzero slot among [scan]. *)
Fixpoint first_nonzero (q : store) (scan : list Z) : result (option Z) :=
  match scan with
  | [] => Ok None
  | p :: scan => v ← read q p; if v =? 0 then first_nonzero q scan else Ok (Some p)
  end.

(** The two [range]s of lines 429-434. *)
Definition scan_prices (s : side) (limit removed : Z) : list Z :=
  match s with
  | Bid => map (λ i, removed - 1 - Z.of_nat i)
             (seq 0 (Z.to_nat (removed - 1 - Z.max (removed - 1 - BEST_SCAN_SLOTS) (-1))))
  | Ask => map (λ i, removed + 1 + Z.of_nat i)
             (seq 0 (Z.to_nat (Z.min (removed + 1 + BEST_SCAN_SLOTS) (limit + 1) - (removed + 1))))
  end.

Definition next_best (b : Book) (s : side) (removed : Z) : result (option Z) :=
  let o := sget s (occupied b) in
  if decide (o = ∅) then Ok None else
  found ← (if dense b then q ← quantities_of b s; first_nonzero q (scan_prices s (limit b) removed)
           else Ok None);
  match found with
  | Some p => Ok (Some p)
  | None => Ok (extreme s o)
  end.

(** The quantity a level change asks for, lines 393-403; [current] is
    [quantities[p]], which only two of the kinds read. *)
Definition new_quantity (change : json) (current : result Z) : result Z :=
  k ← jget change "kind";
  let amount := v ← jget change "value"; a ← jget v "atoms"; py_int a in
  if jeq_str k "set" then amount
  else if jeq_str k "increase" then v ← current; a ← amount; Ok (v + a)
  else if jeq_str k "decrease" then v ← current; a ← amount; Ok (v - a)
  else _ ← require (jeq_str k "delete") "unknown level change"; Ok 0.

(** [SIDES[op["side"]]]. *)
Definition op_side (value : json) : result side :=
  match value with
  | JStr name => match side_of name with Some s => Ok s | None => Err KeyError end
  | JArr _ | JObj _ => Err (TypeError "unhashable")
  | _ => Err KeyError
  end.

(** [new > 0]: lines 404-411. *)
Definition put_level (s : side) (p new : Z) : ST Book () :=
  _ ← write_quantity s p new;
  b ← getS;
  if decide (p ∈ sget s (occupied b)) then mret ()
  else
    _ ← add_occupied s p;
    match sget s (best b) with
    | None => put_best s (Some p)
    | Some t => if better s p t then put_best s (Some p) else mret ()
    end.

(** [new == 0]: lines 412-421. *)
Definition drop_level (s : side) (p : Z) : ST Book () :=
  b ← getS;
  if decide (p ∈ sget s (occupied b)) then
    _ ← discard_occupied s p;
    _ ← (if dense b then write_quantity s p 0 else del_quantity s p);
    if decide (sget s (best b) = Some p) then
      b ← getS;
      t ← liftR (next_best b s p);
      put_best s t
    else mret ()
  else mret ().

(** One operation of the loop. *)
Definition operation (op : json) : ST Book () :=
  b ← getS;
  sv ← liftR (jget op "side");
  s ← liftR (op_side sv);
  price ← liftR (jget op "price");
  atoms ← liftR (jget price "atoms");
  p ← liftR (py_int atoms);
  _ ← requireS ((0 <=? p) && (p <=? limit b)) "price outside plan scale";
  q ← liftR (quantities_of b s);
  change ← liftR (jget op "change");
  new ← liftR (new_quantity change (read q p));
  if 0 <? new then put_level s p new
  else
    _ ← requireS (new =? 0) "invalid authoritative operation";
    drop_level s p.

Definition operations (ops : json) : ST Book () :=
  rows ← liftR (py_iter ops);
  forS operation rows.

(** ** What a book represents

    Abstractly a side is a finite map from price to positive quantity. *)
Abbreviation ladder := (gmap Z Z).

Definition is_best (s : side) (o : gset Z) (t : option Z) : Prop :=
  match t with
  | None => o = ∅
  | Some p => p ∈ o ∧ ∀ p', p' ∈ o → ahead s p p' = true
  end.

Definition store_rep (limit : Z) (dense : bool) (q : store) (m : ladder) : Prop :=
  match q with
  | Dense l => dense = true ∧ Z.of_nat (length l) = limit + 1 ∧
      ∀ p, 0 ≤ p ≤ limit → l !! Z.to_nat p = Some (default 0 (m !! p))
  | Sparse m' => dense = false ∧ m' = m
  end.

Definition ladder_ok (limit : Z) (m : ladder) : Prop :=
  ∀ p v, m !! p = Some v → 0 ≤ p ≤ limit ∧ 0 < v.

(** [rep b mm]: the stores, the occupied sets and the cached best prices of [b] all
    describe the two ladders [mm]. *)
Definition rep (b : Book) (mm : sided ladder) : Prop :=
  0 ≤ limit b ∧
  (∀ s, ladder_ok (limit b) (sget s mm)) ∧
  (∀ s, sget s (occupied b) = dom (sget s mm)) ∧
  (∀ s, is_best s (dom (sget s mm)) (sget s (best b))) ∧
  match quantities b with
  | None => ∀ s, sget s mm = ∅
  | Some q => ∀ s, store_rep (limit b) (dense b) (sget s q) (sget s mm)
  end.

Lemma ahead_total s p q : ahead s p q = true ∨ ahead s q p = true.
Proof. destruct s; unfold ahead; rewrite !Z.leb_le; lia. Qed.

Lemma ahead_trans s p q r : ahead s p q = true → ahead s q r = true → ahead s p r = true.
Proof. destruct s; unfold ahead; rewrite !Z.leb_le; lia. Qed.

Lemma ahead_antisym s p q : ahead s p q = true → ahead s q p = true → p = q.
Proof. destruct s; unfold ahead; rewrite !Z.leb_le; lia. Qed.

Lemma better_ahead s p q : better s p q = negb (ahead s q p).
Proof. destruct s; unfold better, ahead; rewrite Z.ltb_antisym; done. Qed.

Lemma sorted_prices_elem s o p : p ∈ sorted_prices s o ↔ p ∈ o.
Proof. unfold sorted_prices. by rewrite sort_by_elem, elem_of_elements. Qed.

Lemma sorted_prices_sorted s o : StronglySorted (λ p q, ahead s p q = true) (sorted_prices s o).
Proof. apply sort_by_sorted; [apply ahead_total | apply ahead_trans]. Qed.

Lemma sorted_prices_nodup s o : NoDup (sorted_prices s o).
Proof. unfold sorted_prices. rewrite sort_by_perm. apply NoDup_elements. Qed.

Lemma extreme_best s o : is_best s o (extreme s o).
Proof.
  unfold extreme, is_best. pose proof (sorted_prices_sorted s o) as Hs.
  pose proof (sorted_prices_elem s o) as He.
  destruct (sorted_prices s o) as [|p l]; simpl.
  - apply set_eq. intros x. rewrite <- He. set_solver.
  - apply StronglySorted_inv in Hs as [_ Hs]. rewrite Forall_forall in Hs. split.
    + apply He. by left.
    + intros p' Hp'. apply He, elem_of_cons in Hp' as [->|Hp']; [|auto].
      destruct (ahead_total s p p); done.
Qed.

Lemma is_best_unique s o t t' : is_best s o t → is_best s o t' → t = t'.
Proof.
  destruct t as [p|], t' as [p'|]; simpl; [|set_solver..].
  intros [Hp H] [Hp' H']. f_equal. by apply ahead_antisym with s; auto.
Qed.

(** Stores *)
Lemma read_rep lim d q m p :
  store_rep lim d q m → 0 ≤ p ≤ lim → read q p = Ok (default 0 (m !! p)).
Proof.
  destruct q as [l|m']; simpl; [|by intros [_ ->]].
  intros (_ & Hlen & Hl) Hp. destruct (Z.ltb_spec p (- Z.of_nat (length l))); [lia|].
  unfold slot. destruct (Z.ltb_spec p 0); [lia|]. by rewrite (Hl p Hp).
Qed.

(** Writing a positive quantity inserts it; writing 0 to a dense slot deletes. *)
Lemma write_rep lim d q m p v :
  store_rep lim d q m → 0 ≤ p ≤ lim → v ≠ 0 ∨ d = true →
  ∃ w, write q p v = Ok w ∧
       store_rep lim d w (if decide (v = 0) then delete p m else <[p := v]> m).
Proof.
  destruct q as [l|m']; simpl.
  - intros (Hd & Hlen & Hl) Hp _.
    destruct (Z.ltb_spec p (- Z.of_nat (length l))); [lia|].
    destruct (Z.leb_spec (Z.of_nat (length l)) p); [lia|]. simpl. eexists. split; [done|]. simpl.
    rewrite length_insert. split_and!; [done..|]. intros p' Hp'.
    unfold slot. destruct (Z.ltb_spec p 0); [lia|].
    destruct (decide (p' = p)) as [->|Hne].
    + rewrite list_lookup_insert_eq by lia. case_decide; subst; by simplify_map_eq.
    + rewrite list_lookup_insert_ne by lia. rewrite Hl by done. case_decide; by simplify_map_eq.
  - intros [Hd ->] _ [Hv|Hv]; [|congruence]. eexists. split; [done|]. by rewrite decide_False.
Qed.

Lemma del_rep lim q m p :
  store_rep lim false q m → is_Some (m !! p) →
  ∃ w, del q p = Ok w ∧ store_rep lim false w (delete p m).
Proof.
  destruct q as [l|m']; simpl; [naive_solver|]. intros [_ ->] [v ->].
  eexists. split; [done|]. by split.
Qed.

(** ** [_next_best] *)
Lemma first_nonzero_ok (q : store) (f : Z → Z) scan :
  Forall (λ p, read q p = Ok (f p)) scan →
  ∃ r, first_nonzero q scan = Ok r ∧
    match r with
    | None => Forall (λ p, f p = 0) scan
    | Some p => ∃ pre post, scan = pre ++ p :: post ∧ Forall (λ p, f p = 0) pre ∧ f p ≠ 0
    end.
Proof.
  induction 1 as [|p scan Hp _ (r & Hr & IH)]; simpl; [by exists None|].
  rewrite Hp. simpl. destruct (Z.eqb_spec (f p) 0) as [E|E].
  - rewrite Hr. exists r. split; [done|]. destruct r as [p'|]; [|by constructor].
    destruct IH as (pre & post & -> & Hpre & Hf). exists (p :: pre), post.
    split_and!; [done|by constructor|done].
  - exists (Some p). split; [done|]. exists nil, scan. by split_and!.
Qed.

Lemma scan_prices_range s lim removed :
  0 ≤ removed ≤ lim → Forall (λ p, 0 ≤ p ≤ lim) (scan_prices s lim removed).
Proof.
  intros H. apply Forall_forall. intros p Hp. unfold scan_prices, BEST_SCAN_SLOTS in Hp.
  destruct s; apply list_elem_of_fmap in Hp as (i & -> & Hi%elem_of_seq); lia.
Qed.

(** A price skipped by the scan is not strictly between [removed] and the price found. *)
Lemma scan_prices_order s lim removed pre p post p' :
  scan_prices s lim removed = pre ++ p :: post →
  better s removed p' = true → 0 ≤ p' ≤ lim → p' ∉ pre → ahead s p p' = true.
Proof.
  unfold scan_prices. intros E Hb Hr Hn.
  assert (∀ i, (i < length pre)%nat → p' ≠ match s with
    Bid => removed - 1 - Z.of_nat i | Ask => removed + 1 + Z.of_nat i end) as Hpre.
  { intros i Hi ->. apply Hn. destruct (lookup_lt_is_Some_2 _ _ Hi) as [x Hx].
    apply (lookup_app_l_Some _ (p :: post)) in Hx as Hx'. rewrite <- E in Hx'.
    apply list_elem_of_lookup. exists i. rewrite Hx. f_equal.
    destruct s; apply list_lookup_fmap_Some in Hx' as (j & -> & Hj);
      apply lookup_seq in Hj as [-> _]; lia. }
  assert ((pre ++ p :: post) !! length pre = Some p) as Hp by (by rewrite list_lookup_middle).
  rewrite <- E in Hp.
  assert (p = match s with Bid => removed - 1 - Z.of_nat (length pre)
                         | Ask => removed + 1 + Z.of_nat (length pre) end) as ->.
  { destruct s; apply list_lookup_fmap_Some in Hp as (j & -> & Hj);
      apply lookup_seq in Hj as [-> _]; lia. }
  destruct s; unfold better, ahead in *; apply Z.ltb_lt in Hb; apply Z.leb_le.
  - destruct (Z.le_gt_cases p' (removed - 1 - Z.of_nat (length pre))); [done|].
    destruct (Hpre (Z.to_nat (removed - 1 - p'))); lia.
  - destruct (Z.le_gt_cases (removed + 1 + Z.of_nat (length pre)) p'); [done|].
    destruct (Hpre (Z.to_nat (p' - removed - 1))); lia.
Qed.

(** After the best price [removed] is taken off a ladder, [next_best] is the best of
    what is left, whichever of the scan and the fallback finds it. *)
Lemma next_best_rep b s removed q m :
  quantities b = Some q → store_rep (limit b) (dense b) (sget s q) m →
  ladder_ok (limit b) m → sget s (occupied b) = dom m → 0 ≤ removed ≤ limit b →
  (∀ p, p ∈ dom m → better s removed p = true) →
  next_best b s removed = Ok (extreme s (dom m)).
Proof.
  intros Hq Hst Hok Ho Hr Hall. unfold next_best. rewrite Ho.
  destruct (decide (dom m = ∅)) as [->|Hne]; [done|].
  unfold quantities_of. rewrite Hq. cbn [mbind result_bind].
  destruct (dense b); [|done].
  destruct (first_nonzero_ok (sget s q) (λ p, default 0 (m !! p)) (scan_prices s (limit b) removed))
    as (r & -> & H).
  { eapply Forall_impl; [apply scan_prices_range; exact Hr|]. intros p Hp. by eapply read_rep. }
  cbn [mbind result_bind]. destruct r as [p|]; [|done]. do 2 f_equal.
  destruct H as (pre & post & E & Hpre & Hp). f_equal.
  apply is_best_unique with s (dom m : gset Z); [|apply extreme_best].
  assert (is_Some (m !! p)) as Hin by (destruct (m !! p); [done|by destruct Hp]).
  split; [by apply elem_of_dom|]. intros p' Hp'.
  apply elem_of_dom in Hp' as Hs'. destruct Hs' as [v Hv].
  destruct (Hok _ _ Hv) as [Hrange Hpos].
  eapply scan_prices_order; [exact E|by apply Hall|done|].
  intros Hpre'. rewrite Forall_forall in Hpre. apply Hpre in Hpre'. rewrite Hv in Hpre'. simpl in *. lia.
Qed.

(** ** Level changes *)

(** What no level change touches. *)
Definition header (b : Book) :=
  (revision b, validity b, (dependency b, as_of b, reason b), limit b, dense b).

Lemma write_quantity_rep b q s p v m :
  quantities b = Some q → store_rep (limit b) (dense b) (sget s q) m → 0 ≤ p ≤ limit b →
  v ≠ 0 ∨ dense b = true →
  ∃ w, write_quantity s p v b = (set_quantities (Some (sset s w q)) b, Ok ()) ∧
       store_rep (limit b) (dense b) w (if decide (v = 0) then delete p m else <[p := v]> m).
Proof.
  intros Hq Hst Hp Hv. destruct (write_rep _ _ _ _ p v Hst Hp Hv) as (w & E & Hw).
  exists w. split; [|done]. unfold write_quantity. by rewrite Hq, E.
Qed.

Lemma is_best_insert s o p t :
  is_best s o t → p ∉ o →
  is_best s ({[p]} ∪ o)
    (match t with None => Some p | Some t => if better s p t then Some p else Some t end).
Proof.
  intros Ht Hp. destruct t as [t|]; simpl in *.
  - destruct Ht as [Hin Hall]. rewrite better_ahead.
    destruct (ahead s t p) eqn:E; simpl.
    + split; [set_solver|]. intros p' [->%elem_of_singleton|?]%elem_of_union; auto.
    + split; [set_solver|]. intros p' [->%elem_of_singleton|?]%elem_of_union.
      * destruct (ahead_total s p p); done.
      * apply ahead_trans with t; [|auto]. destruct (ahead_total s p t); congruence.
  - subst. split; [set_solver|]. intros p' [->%elem_of_singleton|?]%elem_of_union; [|set_solver].
    destruct (ahead_total s p p); done.
Qed.

Lemma put_level_rep b mm q s p new :
  rep b mm → quantities b = Some q → 0 ≤ p ≤ limit b → 0 < new →
  ∃ b' q', put_level s p new b = (b', Ok ()) ∧ header b' = header b ∧ quantities b' = Some q' ∧
    rep b' (sset s (<[p := new]> (sget s mm)) mm).
Proof.
  intros (Hlim & Hok & Ho & Hb & Hst) Hq Hp Hnew. rewrite Hq in Hst.
  destruct (write_quantity_rep b q s p new (sget s mm)) as (w & E & Hw);
    [done..|left; lia|]. rewrite decide_False in Hw by lia.
  unfold put_level, mbind, ST_bind. rewrite E. unfold getS. simpl. rewrite Ho.
  assert (∀ s', ladder_ok (limit b) (sget s' (sset s (<[p:=new]> (sget s mm)) mm))) as Hok'.
  { intros s'. rewrite sget_sset. destruct (decide (s' = s)) as [->|]; [|done].
    intros p' v'. destruct (decide (p' = p)) as [->|]; intros; simplify_map_eq; [done|by eapply Hok]. }
  assert (∀ s', store_rep (limit b) (dense b) (sget s' (sset s w q))
                  (sget s' (sset s (<[p:=new]> (sget s mm)) mm))) as Hst'.
  { intros s'. rewrite !sget_sset. by destruct (decide (s' = s)) as [->|]. }
  case_decide as Hin.
  - eexists _, _. split_and!; [done..|]. split_and!; [done..| | |done]; simpl; intros s';
      rewrite sget_sset; (destruct (decide (s' = s)) as [->|]; [|done]);
      rewrite dom_insert_L; replace ({[p]} ∪ dom (sget s mm)) with (dom (sget s mm)) by set_solver;
      done.
  - assert (∃ b' q', (match sget s (best b) with
        | None => put_best s (Some p)
        | Some t => if better s p t then put_best s (Some p) else mret () end)
      (set_occupied (sset s ({[p]} ∪ dom (sget s mm)) (occupied b)) (set_quantities (Some (sset s w q)) b))
      = (b', Ok ()) ∧ header b' = header b ∧ quantities b' = Some q' ∧ q' = sset s w q ∧
        occupied b' = sset s ({[p]} ∪ dom (sget s mm)) (occupied b) ∧
        best b' = sset s (match sget s (best b) with None => Some p
           | Some t => if better s p t then Some p else Some t end) (best b))
      as (b' & q' & E' & Hh & Hq' & -> & Ho' & Hb').
    { destruct (sget s (best b)) as [t|] eqn:Et; [destruct (better s p t)|];
        (eexists _, _; split; [done|]; split_and!; try done).
      simpl. destruct s, (best b); simpl in *; congruence. }
    exists b', (sset s w q). unfold add_occupied, modifyS. simpl. rewrite Ho.
    split_and!; [exact E'|done..|]. injection Hh as ? ? ? ? ? Hl Hd. unfold rep. rewrite Hl, Hd, Hq', Ho', Hb'.
    split_and!; [done..| | |done]; intros s'; rewrite !sget_sset;
      (destruct (decide (s' = s)) as [->|]; [|done]); rewrite dom_insert_L; [done|].
    by apply is_best_insert.
Qed.

Lemma drop_level_rep b mm q s p :
  rep b mm → quantities b = Some q → 0 ≤ p ≤ limit b →
  ∃ b' q', drop_level s p b = (b', Ok ()) ∧ header b' = header b ∧ quantities b' = Some q' ∧
    rep b' (sset s (delete p (sget s mm)) mm).
Proof.
  intros Hrep Hq Hp. pose proof Hrep as (Hlim & Hok & Ho & Hb & Hst). rewrite Hq in Hst.
  unfold drop_level, mbind, ST_bind, getS. simpl. rewrite Ho. case_decide as Hin.
  2:{ exists b, q. split_and!; [done..|]. apply not_elem_of_dom in Hin.
      rewrite delete_id by done. by destruct s, mm. }
  unfold discard_occupied, modifyS. simpl. rewrite Ho.
  set (o' := dom (sget s mm) ∖ {[p]}).
  set (b1 := set_occupied (sset s o' (occupied b)) b).
  assert (∃ w, (if dense b then write_quantity s p 0 else del_quantity s p) b1
     = (set_quantities (Some (sset s w q)) b1, Ok ()) ∧
     store_rep (limit b) (dense b) w (delete p (sget s mm))) as (w & E & Hw).
  { destruct (dense b) eqn:Ed.
    - destruct (write_quantity_rep b1 q s p 0 (sget s mm)) as (w & Ew & Hw);
        [done|unfold b1; simpl; rewrite Ed; apply Hst|done|by right|]. exists w. split; [exact Ew|].
      rewrite decide_True in Hw by done. unfold b1 in Hw. simpl in Hw. by rewrite Ed in Hw.
    - destruct (del_rep (limit b) (sget s q) (sget s mm) p) as (w & Ew & Hw);
        [apply Hst|by apply elem_of_dom|]. exists w. split; [|done].
      unfold del_quantity. unfold b1; simpl. by rewrite Hq, Ew. }
  rewrite E. set (b2 := set_quantities (Some (sset s w q)) b1).
  assert (∀ s', ladder_ok (limit b) (sget s' (sset s (delete p (sget s mm)) mm))) as Hok'.
  { intros s'. rewrite sget_sset. destruct (decide (s' = s)) as [->|]; [|done].
    intros p' v' [_ ?]%lookup_delete_Some. by eapply Hok. }
  assert (∀ s', store_rep (limit b) (dense b) (sget s' (sset s w q))
                  (sget s' (sset s (delete p (sget s mm)) mm))) as Hst'.
  { intros s'. rewrite !sget_sset. by destruct (decide (s' = s)) as [->|]. }
  assert (∀ t, is_best s o' t →
    rep (set_best (sset s t (best b)) b2) (sset s (delete p (sget s mm)) mm)) as Hrep'.
  { intros t Ht. unfold rep. simpl. split_and!; [done..| | |done]; intros s'; rewrite !sget_sset;
      (destruct (decide (s' = s)) as [->|]; [|done]); by rewrite dom_delete_L. }
  case_decide as Ebest; simpl in Ebest.
  - assert (next_best b2 s p = Ok (extreme s o')) as En.
    { unfold o'. rewrite <- dom_delete_L. apply next_best_rep with (sset s w q); try done.
      - specialize (Hst' s). rewrite !sget_sset, decide_True in Hst' by done.
        unfold b2, b1; simpl. by rewrite sget_sset, decide_True.
      - specialize (Hok' s). by rewrite sget_sset, decide_True in Hok'.
      - unfold b2, b1; simpl. by rewrite sget_sset, decide_True, dom_delete_L.
      - intros p'. rewrite dom_delete_L. intros [Hp' Hne%not_elem_of_singleton]%elem_of_difference.
        specialize (Hb s). rewrite Ebest in Hb. destruct Hb as [_ Hb].
        rewrite better_ahead. apply negb_true_iff, not_true_is_false. intros Ha.
        apply Hne. apply ahead_antisym with s; [done|]. by apply Hb. }
    rewrite En. unfold liftR, put_best, modifyS.
    eexists _, _. split_and!; [reflexivity|done|reflexivity|]. apply Hrep'. apply extreme_best.
  - exists b2, (sset s w q). split_and!; [done..|].
    replace b2 with (set_best (sset s (sget s (best b)) (best b)) b2).
    + apply Hrep'. specialize (Hb s). destruct (sget s (best b)) as [t|]; simpl in *; [|set_solver].
      unfold o'. destruct Hb as [Hbin Hball]. split; [set_solver|]. set_solver.
    + unfold b2, b1. destruct b as [? ? ? ? ? ? ? ? ? [? ?]], s; done.
Qed.

(** ** Refinement of [_operations]

    The specification reads the same wire operations but keeps only the two
    ladders. *)
Definition spec_operation (lim : Z) (mm : sided ladder) (op : json) : result (sided ladder) :=
  sv ← jget op "side";
  s ← op_side sv;
  price ← jget op "price";
  atoms ← jget price "atoms";
  p ← py_int atoms;
  _ ← require ((0 <=? p) && (p <=? lim)) "price outside plan scale";
  change ← jget op "change";
  new ← new_quantity change (Ok (default 0 (sget s mm !! p)));
  if 0 <? new then Ok (sset s (<[p := new]> (sget s mm)) mm)
  else
    _ ← require (new =? 0) "invalid authoritative operation";
    Ok (sset s (delete p (sget s mm)) mm).

Definition spec_operations (lim : Z) (mm : sided ladder) (ops : json) : result (sided ladder) :=
  rows ← py_iter ops; foldR (spec_operation lim) mm rows.

(** The outcome [r] of an operation on [b] simulates [spec]. *)
Definition simulates (b : Book) (r : Book * result ()) (spec : result (sided ladder)) : Prop :=
  header r.1 = header b ∧ is_Some (quantities r.1) ∧
  match spec with
  | Ok mm' => r.2 = Ok () ∧ rep r.1 mm'
  | Err e => r.2 = Err e ∧ ∃ mm', rep r.1 mm'
  end.

Lemma simulates_bind {A} b mm (m : result A) f g :
  rep b mm → is_Some (quantities b) →
  (∀ a, m = Ok a → simulates b (f a b) (g a)) →
  simulates b ((a ← liftR m; f a) b) (a ← m; g a).
Proof.
  intros Hr Hq H. destruct m as [a|e]; simpl; [by apply H|]. split_and!; simpl; eauto.
Qed.

Lemma operation_simulates b mm op :
  rep b mm → is_Some (quantities b) →
  simulates b (operation op b) (spec_operation (limit b) mm op).
Proof.
  intros Hr [q Hq]. unfold operation, spec_operation.
  unfold mbind at 1, ST_bind at 1, getS at 1.
  do 5 (eapply simulates_bind; [done|by eexists|]; intros ? ?).
  eapply simulates_bind; [done|by eexists|]. intros ? Hrange.
  apply require_ok in Hrange. apply andb_true_iff in Hrange as [Hp0%Z.leb_le Hp1%Z.leb_le].
  unfold quantities_of. rewrite Hq.
  unfold mbind at 1, ST_bind at 1, liftR at 1.
  eapply simulates_bind; [done|by eexists|]. intros change _.
  rename a0 into s, a3 into p.
  assert (read (sget s q) p = Ok (default 0 (sget s mm !! p))) as ->.
  { destruct Hr as (_ & _ & _ & _ & Hst). rewrite Hq in Hst. by eapply read_rep. }
  eapply simulates_bind; [done|by eexists|]. intros new _.
  destruct (Z.ltb_spec 0 new).
  - destruct (put_level_rep b mm q s p new) as (b' & q' & E & Hh & Hq' & Hrep); [done..|].
    rewrite E. split_and!; simpl; eauto.
  - eapply simulates_bind; [done|by eexists|]. intros ? _.
    destruct (drop_level_rep b mm q s p) as (b' & q' & E & Hh & Hq' & Hrep); [done..|].
    rewrite E. split_and!; simpl; eauto.
Qed.

Lemma forS_simulates b mm ops :
  rep b mm → is_Some (quantities b) →
  simulates b (forS operation ops b) (foldR (spec_operation (limit b)) mm ops).
Proof.
  revert b mm. induction ops as [|op ops IH]; intros b mm Hr Hq; [done|].
  cbn [forS foldR]. unfold mbind at 1, ST_bind at 1.
  destruct (operation_simulates b mm op Hr Hq) as (Hh & Hq' & H).
  destruct (operation op b) as [b1 r]. simpl in *. destruct (spec_operation _ _ _) as [mm1|e].
  - destruct H as [-> Hr1]. cbn [mbind result_bind].
    assert (limit b1 = limit b) as Hl by (by injection Hh).
    specialize (IH b1 mm1 Hr1 Hq'). rewrite Hl in IH.
    destruct IH as (Hh2 & ? & ?). split; [congruence|done].
  - destruct H as [-> ?]. by split_and!.
Qed.

Lemma operations_simulate b mm ops :
  rep b mm → is_Some (quantities b) →
  simulates b (operations ops b) (spec_operations (limit b) mm ops).
Proof.
  intros Hr Hq. unfold operations, spec_operations.
  apply simulates_bind with mm; [done..|]. intros rows _. by apply forS_simulates.
Qed.

(** ** [_clear] and [_snapshot] *)
Definition no_levels : sided ladder := Sided ∅ ∅.

Lemma clear_dense lim l m (X : list Z) :
  store_rep lim true (Dense l) m → Forall (λ p, 0 ≤ p ≤ lim) X →
  ∃ w, foldR (λ q p, write q p 0) (Dense l) X = Ok w ∧
       store_rep lim true w (foldr delete m X).
Proof.
  intros Hst HX. revert l m Hst. induction HX as [|p X Hp _ IH]; intros l m Hst; simpl; [eauto|].
  destruct (write_rep lim true (Dense l) m p 0) as (w & E & Hw); [done..|by right|].
  rewrite decide_True in Hw by done. simpl in E. rewrite E. cbn [mbind result_bind].
  destruct w as [l'|]; [|by destruct Hw].
  destruct (IH _ _ Hw) as (w & Ew & Hw'). exists w. split; [done|].
  replace (delete p (foldr delete m X)) with (foldr delete (delete p m) X); [done|].
  clear. induction X as [|x X IH]; simpl; [done|]. rewrite IH. apply delete_delete.
Qed.

Lemma foldr_delete_dom (m : ladder) X :
  (∀ p, p ∈ dom m → p ∈ X) → foldr delete m X = ∅.
Proof.
  intros H. apply map_eq. intros p. rewrite lookup_empty.
  destruct (decide (p ∈ X)) as [Hin|Hn].
  - clear H. induction X as [|x X IH]; simpl; [by inversion Hin|].
    destruct (decide (x = p)) as [->|Hne]; [by simplify_map_eq|].
    rewrite lookup_delete_ne by done. apply IH. set_solver.
  - assert (m !! p = None) as Hm by (apply not_elem_of_dom; naive_solver).
    clear H. induction X as [|x X IH]; simpl; [done|].
    rewrite lookup_delete_ne by set_solver. apply IH. set_solver.
Qed.

Lemma clear_side_rep b s q m :
  store_rep (limit b) (dense b) q m → ladder_ok (limit b) m → sget s (occupied b) = dom m →
  ∃ w, clear_side b s q = Ok w ∧ store_rep (limit b) (dense b) w ∅.
Proof.
  intros Hst Hok Ho. unfold clear_side. rewrite Ho. destruct (dense b) eqn:Hd.
  - destruct q as [l|]; [|by destruct Hst].
    destruct (clear_dense (limit b) l m (elements (dom m : gset Z))) as (w & E & Hw); [done| |].
    + apply Forall_forall. intros p Hp%elem_of_elements%elem_of_dom. destruct Hp as [v Hv].
      by apply Hok in Hv as [? _].
    + exists w. rewrite foldr_delete_dom in Hw by (intros p; by rewrite elem_of_elements).
      by rewrite E.
  - eexists. split; [done|]. done.
Qed.

Lemma clear_rep b mm :
  rep b mm →
  ∃ b', clear b = (b', Ok ()) ∧ header b' = header b ∧
        (is_Some (quantities b) → is_Some (quantities b')) ∧ rep b' no_levels.
Proof.
  intros (Hlim & Hok & Ho & Hb & Hst).
  assert (∀ q, quantities b = q →
    (match q with None => True | Some q => ∀ s, store_rep (limit b) (dense b) (sget s q) ∅ end) →
    occupied b = Sided ∅ ∅ → rep (set_best (Sided None None) b) no_levels) as Hdone.
  { intros q Hq Hq' Hocc. unfold rep; simpl. rewrite Hocc, Hq.
    split_and!; [done|by intros []|by intros []|by intros []|]. destruct q as [q|]; [|by intros []].
    intros s. specialize (Hq' s). by destruct s. }
  unfold clear. destruct (quantities b) as [[qb qa]|] eqn:Hq; simpl.
  - pose proof (Hst Bid) as HB. pose proof (Hst Ask) as HA. simpl in HB, HA.
    destruct (clear_side_rep b Bid qb _ HB (Hok Bid) (Ho Bid)) as (wb & Eb & Hwb). rewrite Eb.
    set (b1 := set_occupied _ _).
    destruct (clear_side_rep b1 Ask qa (sget Ask mm) HA (Hok Ask)) as (wa & Ea & Hwa).
    { unfold b1. specialize (Ho Ask). by destruct b as [? ? ? ? ? ? ? ? [? ?] ?]. }
    rewrite Ea. eexists. split_and!; [reflexivity|done|done|]. unfold rep; simpl.
    split_and!; [done|by intros []|by intros []|by intros []|]. by intros [].
  - eexists. split_and!; [reflexivity|done|by intros [? [=]]|].
    apply Hdone with None; [done..|]. pose proof (Ho Bid) as HB. pose proof (Ho Ask) as HA.
    pose proof (Hst Bid) as HB'. pose proof (Hst Ask) as HA'. simpl in *.
    rewrite HB', dom_empty_L in HB. rewrite HA', dom_empty_L in HA.
    destruct (occupied b); simpl in *; by subst.
Qed.

(** A well-formed wire ladder: rows [[price, quantity]] with ascending prices inside
    the plan scale and positive quantities. *)
Definition wire_level (row : json) (pq : Z * Z) : Prop :=
  ∃ a c, row = JArr [a; c] ∧ py_int a = Ok pq.1 ∧ py_int c = Ok pq.2.

Definition wire_ladder (lim : Z) (ladder : json) (l : list (Z * Z)) : Prop :=
  ∃ rows, ladder = JArr rows ∧ Forall2 wire_level rows l ∧
    increasing (map fst l) = true ∧ Forall (λ pq, 0 ≤ pq.1 ≤ lim ∧ 0 < pq.2) l.

Definition insert_all (m : ladder) (l : list (Z * Z)) : ladder :=
  foldl (λ m pq, <[pq.1 := pq.2]> m) m l.

(** [rep] without the cached best prices. *)
Definition rep_stores (b : Book) (mm : sided ladder) : Prop :=
  (∀ s, ladder_ok (limit b) (sget s mm)) ∧
  (∀ s, sget s (occupied b) = dom (sget s mm)) ∧
  match quantities b with
  | None => False
  | Some q => ∀ s, store_rep (limit b) (dense b) (sget s q) (sget s mm)
  end.

Lemma snapshot_level_rep b mm s row pq :
  rep_stores b mm → wire_level row pq → 0 ≤ pq.1 ≤ limit b → 0 < pq.2 →
  ∃ b', snapshot_level s row b = (b', Ok ()) ∧ header b' = header b ∧ best b' = best b ∧
    rep_stores b' (sset s (<[pq.1 := pq.2]> (sget s mm)) mm).
Proof.
  intros (Hok & Ho & Hst) (a & c & -> & Ha & Hc) Hp Hv. destruct pq as [p v]; simpl in *.
  destruct (quantities b) as [q|] eqn:Hq; [|done].
  unfold snapshot_level. simpl. unfold mbind, ST_bind, liftR, getS, requireS, liftR. simpl.
  rewrite Ha. destruct (Z.leb_spec 0 p); [|lia]. destruct (Z.leb_spec p (limit b)); [|lia]. simpl.
  rewrite Hc. destruct (write_quantity_rep b q s p v (sget s mm)) as (w & E & Hw);
    [done..|left; lia|]. rewrite E. rewrite decide_False in Hw by lia.
  eexists. split_and!; [reflexivity|done|done|]. unfold rep_stores; simpl. split_and!; intros s'.
  - rewrite sget_sset. destruct (decide (s' = s)) as [->|]; [|done].
    intros p' v'. destruct (decide (p' = p)) as [->|]; intros; simplify_map_eq; [done|by eapply Hok].
  - rewrite !sget_sset. destruct (decide (s' = s)) as [->|]; [|done]. by rewrite Ho, dom_insert_L.
  - rewrite !sget_sset. by destruct (decide (s' = s)) as [->|].
Qed.

Lemma sset_sget {A} s (p : sided A) : sset s (sget s p) p = p.
Proof. by destruct s, p. Qed.
Lemma sset_sset {A} s (a a' : A) p : sset s a (sset s a' p) = sset s a p.
Proof. by destruct s, p. Qed.

Lemma snapshot_rows_rep b mm s rows l :
  rep_stores b mm → Forall2 wire_level rows l →
  Forall (λ pq, 0 ≤ pq.1 ≤ limit b ∧ 0 < pq.2) l →
  ∃ b', forS (snapshot_level s) rows b = (b', Ok ()) ∧ header b' = header b ∧ best b' = best b ∧
    rep_stores b' (sset s (insert_all (sget s mm) l) mm).
Proof.
  intros Hr Hrows. revert b mm Hr. induction Hrows as [|row pq rows l Hrow _ IH]; intros b mm Hr Hl.
  - exists b. simpl. rewrite sset_sget. by split_and!.
  - apply Forall_cons in Hl as [[Hp Hv] Hl].
    destruct (snapshot_level_rep b mm s row pq Hr Hrow Hp Hv) as (b1 & E & Hh & Hb & Hr1).
    assert (limit b1 = limit b) as Hlim by (by injection Hh). rewrite <- Hlim in Hl.
    destruct (IH b1 _ Hr1 Hl) as (b2 & E2 & Hh2 & Hb2 & Hr2).
    exists b2. cbn [forS]. unfold mbind, ST_bind. rewrite E, E2. split_and!; [done|congruence..|].
    by rewrite sget_sset, decide_True, sset_sset in Hr2.
Qed.

Lemma increasing_nodup l : increasing l = true → NoDup l.
Proof.
  induction l as [|a l IH]; intros H; [constructor|].
  apply increasing_cons in H as [Hl Ha]. constructor; [|auto].
  rewrite Forall_forall in Ha. intros Hin. apply Ha in Hin. lia.
Qed.

Lemma insert_all_map l :
  NoDup (map fst l) → insert_all ∅ l = list_to_map l.
Proof.
  intros Hnd. unfold insert_all. induction l as [|[p v] l IH] using rev_ind; [done|].
  rewrite map_app in Hnd. apply NoDup_app in Hnd as (Hnd & Hp & _).
  rewrite foldl_app, IH by done. simpl. rewrite list_to_map_snoc; [done|].
  intros Hin. apply (Hp p Hin). simpl. left.
Qed.

(** The best price the publisher's order gives: last bid, first ask. *)
Definition published_best (s : side) (l : list (Z * Z)) : option Z :=
  fst <$> (match s with Bid => last l | Ask => head l end).

Lemma increasing_last l x p :
  increasing l = true → last l = Some x → p ∈ l → p ≤ x.
Proof.
  induction l as [|a l IH]; intros Hi Hl Hp; [by inversion Hp|].
  apply increasing_cons in Hi as [Hi Ha]. rewrite last_cons in Hl.
  apply elem_of_cons in Hp as [->|Hp].
  - destruct (last l) as [y|] eqn:E; [|injection Hl; lia]. injection Hl as ->.
    apply last_Some_elem_of in E. rewrite Forall_forall in Ha. apply Ha in E. lia.
  - destruct (last l) as [y|] eqn:E; [auto|]. apply last_None in E as ->. by inversion Hp.
Qed.

Lemma published_is_best s l :
  increasing (map fst l) = true →
  is_best s (dom (list_to_map l : ladder)) (published_best s l).
Proof.
  intros Hi. rewrite dom_list_to_map_L. unfold published_best. destruct s.
  - destruct (last l) as [[p v]|] eqn:E; simpl.
    + split.
      * apply elem_of_list_to_set, list_elem_of_fmap. exists (p, v).
        split; [done|by apply last_Some_elem_of].
      * intros p' Hp'%elem_of_list_to_set. apply Z.leb_le.
        apply increasing_last with (map fst l); [done| |done]. by rewrite fmap_last, E.
    + by apply last_None in E as ->.
  - destruct l as [|[p v] l]; simpl in *; [done|]. split; [set_solver|].
    apply increasing_cons in Hi as [_ Hi]. rewrite Forall_forall in Hi.
    intros p' [->%elem_of_singleton|Hp'%elem_of_list_to_set]%elem_of_union; apply Z.leb_le; [lia|].
    specialize (Hi p' Hp'). lia.
Qed.

Lemma rows_best s rows l :
  Forall2 wire_level rows l → l ≠ [] →
  ∃ row price p, jindex (JArr rows) (match s with Bid => true | Ask => false end) 0 = Ok row ∧
    jindex row false 0 = Ok price ∧ py_int price = Ok p ∧ published_best s l = Some p.
Proof.
  intros Hrows Hl. unfold published_best. destruct s.
  - destruct (last l) as [pq|] eqn:E; [|by apply last_None in E].
    rewrite last_lookup in E.
    destruct (Forall2_lookup_r _ _ _ _ _ Hrows E) as (row & Hrow & a & c & -> & Ha & Hc).
    exists (JArr [a; c]), a, pq.1. split_and!; [|done..]. unfold jindex.
    rewrite <- (Forall2_length _ _ _ Hrows), <- last_lookup in Hrow.
    rewrite List.rev_alt. change (List.rev_append rows []) with (reverse rows).
    rewrite <- head_lookup, head_reverse, Hrow. done.
  - destruct l as [|pq l]; [done|]. inversion Hrows as [|row ? rows' ? (a & c & -> & Ha & Hc)]; subst.
    exists (JArr [a; c]), a, pq.1. done.
Qed.

Lemma snapshot_side_rep b mm s ladder l :
  rep_stores b mm → sget s mm = ∅ → sget s (best b) = None → wire_ladder (limit b) ladder l →
  ∃ b', snapshot_side s ladder b = (b', Ok ()) ∧ header b' = header b ∧
    best b' = sset s (published_best s l) (best b) ∧
    rep_stores b' (sset s (list_to_map l) mm).
Proof.
  intros Hr Hm Hb (rows & -> & Hrows & Hinc & Hl).
  destruct (snapshot_rows_rep b mm s rows l Hr Hrows Hl) as (b1 & E & Hh & Hb1 & Hr1).
  rewrite Hm, insert_all_map in Hr1 by (by apply increasing_nodup).
  unfold snapshot_side, py_iter. unfold mbind, ST_bind, liftR at 1. rewrite E.
  destruct (decide (l = [])) as [->|Hne].
  - inversion Hrows; subst. exists b1. simpl. split_and!; [done..| |done].
    rewrite Hb1. unfold published_best. destruct s, (best b); simpl in *; by subst.
  - destruct (rows_best s rows l Hrows Hne) as (row & price & p & Ei & Ep & Epi & Epb).
    assert (truthy (JArr rows) = true) as -> by (by destruct Hrows).
    unfold liftR. rewrite Ei, Ep, Epi, Epb. eexists. split_and!; [reflexivity|done| |done].
    simpl. by rewrite Hb1.
Qed.

Lemma snapshot_start_rep b mm :
  rep b mm →
  ∃ b', snapshot_start b = (b', Ok ()) ∧ header b' = header b ∧
    best b' = Sided None None ∧ rep_stores b' no_levels.
Proof.
  intros Hr. unfold snapshot_start, mbind, ST_bind, getS.
  destruct (quantities b) as [q|] eqn:Hq.
  - destruct (clear_rep b mm Hr) as (b' & E & Hh & Hq' & Hr'). exists b'.
    destruct Hr' as (_ & Hok & Ho & Hb & Hst).
    split_and!; [done..| |].
    + pose proof (Hb Bid) as H1. pose proof (Hb Ask) as H2.
      destruct (best b') as [[] []]; simpl in *; set_solver.
    + destruct (Hq' ltac:(by eexists)) as [q' Eq']. unfold rep_stores. rewrite Eq' in *. done.
  - destruct Hr as (Hlim & Hok & Ho & Hb & Hst). rewrite Hq in Hst.
    assert (∀ s, sget s (occupied b) = ∅ ∧ sget s (best b) = None) as He.
    { intros s. specialize (Ho s). specialize (Hb s). rewrite Hst, dom_empty_L in *.
      split; [done|]. destruct (sget s (best b)); simpl in *; [set_solver|done]. }
    eexists. split_and!; [reflexivity|done| |].
    + pose proof (He Bid) as [_ H1]. pose proof (He Ask) as [_ H2]. simpl.
      destruct (best b); simpl in *; by subst.
    + unfold rep_stores; simpl. split_and!; [by intros []| |].
      * intros s. destruct (He s) as [-> _]. by destruct s.
      * destruct (dense b); intros [];
          simpl; try done; (split_and!; [done|rewrite length_replicate; lia|]);
          intros p Hp; rewrite lookup_empty; apply lookup_replicate; split; (done || lia).
Qed.

Lemma snapshot_rep b mm bids asks lb la :
  rep b mm → wire_ladder (limit b) bids lb → wire_ladder (limit b) asks la →
  ∃ b', snapshot bids asks b = (b', Ok ()) ∧ header b' = header b ∧ is_Some (quantities b') ∧
    rep b' (Sided (list_to_map lb) (list_to_map la)).
Proof.
  intros Hr Hb Ha. pose proof Hr as [Hlim _].
  destruct (snapshot_start_rep b mm Hr) as (b1 & E1 & Hh1 & Hb1 & Hr1).
  assert (limit b1 = limit b) as Hl1 by (by injection Hh1). rewrite <- Hl1 in Hb, Ha.
  destruct (snapshot_side_rep b1 no_levels Bid bids lb Hr1) as (b2 & E2 & Hh2 & Hb2 & Hr2);
    [done|by rewrite Hb1|done|].
  assert (limit b2 = limit b1) as Hl2 by (by injection Hh2). rewrite <- Hl2 in Ha.
  destruct (snapshot_side_rep b2 _ Ask asks la Hr2) as (b3 & E3 & Hh3 & Hb3 & Hr3);
    [done|by rewrite Hb2, Hb1|done|].
  exists b3. unfold snapshot, mbind, ST_bind. rewrite E1, E2, E3.
  destruct Hr3 as (Hok & Ho & Hst). destruct (quantities b3) as [q|] eqn:Hq3; [|done].
  split_and!; [done|congruence|done|]. unfold rep. rewrite Hq3.
  assert (limit b3 = limit b2) as Hl3 by (by injection Hh3).
  split_and!; [congruence|done|done| |done].
  rewrite Hb3, Hb2, Hb1. destruct Hb as (? & _ & _ & Hib & _), Ha as (? & _ & _ & Hia & _).
  intros []; simpl; by apply published_is_best.
Qed.

(** ** [levels] and the best prices *)

(** The levels of a ladder, best first. *)
Definition ladder_levels (s : side) (m : ladder) : list (Z * Z) :=
  map (λ p, (p, default 0 (m !! p))) (sorted_prices s (dom m)).

Definition side_name (s : side) : string := match s with Bid => "bid" | Ask => "ask" end.

Definition cap {A} (n : option Z) (l : list A) : list A :=
  match n with None => l | Some n => take (Z.to_nat n) l end.

Lemma read_prices b mm s q prices :
  store_rep (limit b) (dense b) q (sget s mm) → ladder_ok (limit b) (sget s mm) →
  Forall (λ p, p ∈ dom (sget s mm)) prices →
  mapR (λ p, v ← read q p; Ok (p, v)) prices
  = Ok (map (λ p, (p, default 0 (sget s mm !! p))) prices).
Proof.
  intros Hst Hok Hp. apply mapR_total. eapply Forall_impl; [exact Hp|].
  intros p [v Hv]%elem_of_dom. simpl. by erewrite read_rep; [|done|by eapply Hok].
Qed.

Lemma levels_rep b mm s n :
  rep b mm → validity b = "usable" → is_Some (quantities b) → (∀ k, n = Some k → 0 ≤ k) →
  levels b (side_name s) n = Ok (cap n (ladder_levels s (sget s mm))).
Proof.
  intros (_ & Hok & Ho & Hb & Hst) Hu [q Hq] Hn. rewrite Hq in Hst.
  unfold levels. assert (side_of (side_name s) = Some s) as -> by (by destruct s).
  assert (match n with None => true | Some k => 0 <=? k end = true) as ->.
  { destruct n; [|done]. by apply Z.leb_le, Hn. }
  rewrite Hu. unfold quantities_of. rewrite Hq. cbn [mbind result_bind require].
  change (negb ("usable" =? "usable")%string) with false. cbn iota.
  rewrite Ho. set (prices := match n with None => _ | Some _ => _ end).
  assert (prices = cap n (sorted_prices s (dom (sget s mm)))) as ->.
  { unfold prices. destruct n as [k|]; [|done]. destruct (Z.eqb_spec k 1) as [->|]; [|done].
    rewrite (is_best_unique _ _ _ _ (Hb s) (extreme_best s _)). unfold extreme. simpl.
    change (Z.to_nat 1) with 1%nat. by destruct (sorted_prices _ _). }
  rewrite (read_prices b mm s); [|apply Hst|apply Hok|].
  - f_equal. unfold ladder_levels. destruct n; [|done]. simpl. symmetry. apply firstn_map.
  - apply Forall_forall. intros p Hp. apply (sorted_prices_elem s).
    destruct n; simpl in Hp; [|done]. by apply elem_of_take in Hp as (i & Hi%list_elem_of_lookup_2 & _).
Qed.

Lemma top_rep b mm s :
  rep b mm → validity b = "usable" → is_Some (quantities b) →
  top b s = Ok (head (ladder_levels s (sget s mm))).
Proof.
  intros (_ & Hok & Ho & Hb & Hst) Hu [q Hq]. rewrite Hq in Hst.
  unfold top. rewrite (is_best_unique _ _ _ _ (Hb s) (extreme_best s _)), Hu.
  unfold quantities_of. rewrite Hq. unfold extreme, ladder_levels.
  pose proof (sorted_prices_elem s (dom (sget s mm))) as He.
  destruct (sorted_prices _ _) as [|p l]; [done|]. simpl.
  assert (is_Some (sget s mm !! p)) as [v Hv] by (apply elem_of_dom, He; left).
  by erewrite read_rep; [|apply Hst|by eapply Hok].
Qed.

Lemma ladder_levels_published s l :
  increasing (map fst l) = true →
  ladder_levels s (list_to_map l) = match s with Bid => reverse l | Ask => l end.
Proof.
  intros Hi. assert (NoDup (map fst l)) as Hnd by (by apply increasing_nodup).
  assert (∀ p v, (p, v) ∈ l → (list_to_map l : ladder) !! p = Some v) as Hl.
  { intros p v. by apply elem_of_list_to_map_1. }
  set (l' := match s with Bid => reverse l | Ask => l end).
  assert (∀ x, x ∈ l' ↔ x ∈ l) as Hin.
  { intros x. destruct s; [apply elem_of_reverse | done]. }
  assert (sorted_prices s (dom (list_to_map l : ladder)) = map fst l') as E.
  { assert (AntiSymm eq (λ p q, ahead s p q = true)) by (intros p q; apply ahead_antisym).
    apply (StronglySorted_unique (λ p q, ahead s p q = true)).
    - apply sorted_prices_sorted.
    - assert (StronglySorted Z.le (map fst l)) as Hs.
      { clear -Hi. induction (map fst l) as [|a k IH]; [constructor|].
        apply increasing_cons in Hi as [Hi Ha]. constructor; [auto|].
        eapply Forall_impl; [exact Ha|]. simpl. lia. }
      destruct s; unfold l', ahead.
      + clear -Hs. induction l as [|[a v] l IH]; [constructor|]. rewrite reverse_cons, map_app.
        apply StronglySorted_inv in Hs as [Hs Ha].
        apply StronglySorted_app_2; [|auto|by repeat constructor].
        intros x1 x2 Hx1 Hx2%list_elem_of_singleton. subst. apply Z.leb_le.
        rewrite Forall_forall in Ha. apply Ha. apply list_elem_of_fmap in Hx1 as (y & -> & Hy).
        rewrite elem_of_reverse in Hy. apply list_elem_of_In, in_map.
        by apply list_elem_of_In.
      + clear -Hs. induction Hs as [|a k _ IH Ha]; constructor; [done|].
        eapply Forall_impl; [exact Ha|]. intros. by apply Z.leb_le.
    - apply NoDup_Permutation; [apply sorted_prices_nodup| |].
      + destruct s; unfold l'; [|done]. change (map fst (reverse l)) with (fst <$> reverse l).
        rewrite fmap_reverse. by rewrite reverse_Permutation.
      + intros p. rewrite sorted_prices_elem, dom_list_to_map_L, elem_of_list_to_set.
        rewrite !list_elem_of_fmap. by setoid_rewrite Hin. }
  unfold ladder_levels. rewrite E. rewrite map_map. transitivity (map id l'); [|apply map_id].
  apply map_ext_in. intros [p v] Hx. apply list_elem_of_In, Hin, Hl in Hx. simpl. by rewrite Hx.
Qed.

(** No book operation touches the header, even when it raises. *)
Lemma write_quantity_frame s p v : frame header (write_quantity s p v).
Proof.
  intros b. unfold write_quantity. destruct (quantities b) as [q|]; [|done].
  by destruct (write _ _ _).
Qed.
Lemma del_quantity_frame s p : frame header (del_quantity s p).
Proof.
  intros b. unfold del_quantity. destruct (quantities b) as [q|]; [|done]. by destruct (del _ _).
Qed.
Lemma clear_frame : frame header clear.
Proof.
  intros b. unfold clear. destruct (quantities b) as [q|]; [|done].
  destruct (clear_side b Bid _); [|done]. by destruct (clear_side _ Ask _).
Qed.

Ltac book_frame :=
  repeat first [apply write_quantity_frame | apply del_quantity_frame | apply clear_frame
               | frame_step].

Lemma operations_frame ops : frame header (operations ops).
Proof. unfold operations, operation, put_level, drop_level. book_frame. Qed.

Lemma snapshot_frame bids asks : frame header (snapshot bids asks).
Proof.
  unfold snapshot, snapshot_side, snapshot_level.
  apply frame_bind; [|intros; book_frame].
  intros b. unfold snapshot_start, mbind, ST_bind, getS.
  destruct (quantities b); [apply clear_frame|done].
Qed.

Lemma new_book_rep price_scale : 0 ≤ price_scale → rep (new_book price_scale) no_levels.
Proof.
  intros H. unfold rep; simpl. split_and!; [lia|by intros []|by intros []|by intros []|by intros []].
Qed.

(** ** Properties *)

(** C13. A usable book that represents two ladders keeps representing them under
    any list of authoritative operations: the operations succeed exactly when the
    same changes to two price-to-quantity maps are legal, with the same exception
    otherwise, and then [levels] (whole or capped), [best_bid] and [best_ask] show
    exactly the changed maps, best price first.  Dense array, dict, cached best
    price and bounded scan are unobservable. *)
Theorem operations_refine_ladders b mm ops :
  rep b mm → validity b = "usable" → is_Some (quantities b) →
  ∃ b' r, operations ops b = (b', r) ∧ header b' = header b ∧ (∃ mm', rep b' mm') ∧
    match spec_operations (limit b) mm ops with
    | Err e => r = Err e
    | Ok mm' => r = Ok () ∧ rep b' mm' ∧
        (∀ s n, (∀ k, n = Some k → 0 ≤ k) →
           levels b' (side_name s) n = Ok (cap n (ladder_levels s (sget s mm')))) ∧
        best_bid b' = Ok (head (ladder_levels Bid (on_bid mm'))) ∧
        best_ask b' = Ok (head (ladder_levels Ask (on_ask mm')))
    end.
Proof.
  intros Hr Hu Hq. destruct (operations_simulate b mm ops Hr Hq) as (Hh & Hq' & H).
  destruct (operations ops b) as [b' r]. simpl in *. exists b', r. split_and!; [done..| |].
  - destruct (spec_operations _ _ _); naive_solver.
  - destruct (spec_operations _ _ _) as [mm'|e]; [|naive_solver]. destruct H as [-> Hr'].
    assert (validity b' = "usable"%string) as Hu' by (injection Hh; congruence).
    split_and!; [done..| | |].
    + intros. by apply levels_rep.
    + by apply (top_rep b' mm' Bid).
    + by apply (top_rep b' mm' Ask).
Qed.

(** C33. A published snapshot is shown back: whatever the book held before, [_snapshot]
    of two well-formed ascending ladders succeeds, and the book then lists exactly
    the published bids in descending and the published asks in ascending order. *)
Theorem snapshot_shows_published b mm bids asks lb la :
  rep b mm → validity b = "usable" →
  wire_ladder (limit b) bids lb → wire_ladder (limit b) asks la →
  ∃ b', snapshot bids asks b = (b', Ok ()) ∧
    levels b' "bid" None = Ok (reverse lb) ∧ levels b' "ask" None = Ok la ∧
    best_bid b' = Ok (last lb) ∧ best_ask b' = Ok (head la).
Proof.
  intros Hr Hu Hb Ha.
  destruct (snapshot_rep b mm bids asks lb la Hr Hb Ha) as (b' & E & Hh & Hq & Hr').
  assert (validity b' = "usable"%string) as Hu' by (injection Hh; congruence).
  destruct Hb as (? & _ & _ & Hib & _), Ha as (? & _ & _ & Hia & _).
  pose proof (ladder_levels_published Bid lb Hib) as HB.
  pose proof (ladder_levels_published Ask la Hia) as HA. simpl in HB, HA.
  exists b'. split_and!; [done|..].
  - pose proof (levels_rep b' _ Bid None Hr' Hu' Hq) as E'. simpl in E'. by rewrite E', HB.
  - pose proof (levels_rep b' _ Ask None Hr' Hu' Hq) as E'. simpl in E'. by rewrite E', HA.
  - unfold best_bid. rewrite (top_rep b' _ Bid Hr' Hu' Hq). simpl.
    by rewrite HB, head_reverse.
  - unfold best_ask. rewrite (top_rep b' _ Ask Hr' Hu' Hq). simpl. by rewrite HA.
Qed.

(** A two-sided demonstration book. *)
Definition wire_rows (l : list (Z * Z)) : json :=
  JArr (map (λ pq, JArr [JStr (str_int pq.1); JStr (str_int pq.2)]) l).
Definition usable_book (price_scale : Z) : Book :=
  set_header 0 "usable" JNull JNull JNull (new_book price_scale).
Definition demo_bids : list (Z * Z) := [(3, 5); (40, 7); (42, 1)].
Definition demo_asks : list (Z * Z) := [(45, 2); (99, 9)].
Definition demo_book : Book :=
  (snapshot (wire_rows demo_bids) (wire_rows demo_asks) (usable_book 2)).1.

Lemma usable_book_rep price_scale : 0 ≤ price_scale → rep (usable_book price_scale) no_levels.
Proof. apply new_book_rep. Qed.

Lemma demo_wire l :
  Forall2 wire_level (map (λ pq, JArr [JStr (str_int pq.1); JStr (str_int pq.2)]) l) l →
  increasing (map fst l) = true → forallb (λ pq, (0 <=? pq.1) && (pq.1 <=? 100) && (0 <? pq.2)) l = true →
  wire_ladder 100 (wire_rows l) l.
Proof.
  intros Hw Hi Hb. exists (map (λ pq, JArr [JStr (str_int pq.1); JStr (str_int pq.2)]) l).
  split_and!; [done..|]. apply forallb_Forall in Hb. eapply Forall_impl; [exact Hb|].
  intros pq. rewrite !andb_true_iff, !Z.leb_le, Z.ltb_lt. lia.
Qed.

Lemma demo_ladders_wire :
  wire_ladder 100 (wire_rows demo_bids) demo_bids ∧ wire_ladder 100 (wire_rows demo_asks) demo_asks.
Proof.
  split; apply demo_wire; try reflexivity;
    repeat constructor; eexists _, _; split_and!; reflexivity.
Qed.

Lemma demo_book_rep :
  rep demo_book (Sided (list_to_map demo_bids) (list_to_map demo_asks)) ∧
  is_Some (quantities demo_book).
Proof.
  destruct demo_ladders_wire as [Hb Ha].
  destruct (snapshot_rep (usable_book 2) no_levels (wire_rows demo_bids) (wire_rows demo_asks)
    demo_bids demo_asks) as (b' & E & Hh & Hq & Hr); [by apply usable_book_rep|done..|].
  unfold demo_book. rewrite E. done.
Qed.

Definition wire_op (side kind : string) (price : Z) (quantity : option Z) : json :=
  JObj [("side", JStr side); ("price", JObj [("atoms", JStr (str_int price))]);
        ("change", JObj (("kind", JStr kind) ::
            match quantity with
            | None => []
            | Some q => [("value", JObj [("atoms", JStr (str_int q))])]
            end))].

(** Deletes the best bid across a gap, adds a better ask, and empties one ask. *)
Definition demo_ops : json :=
  JArr [wire_op "bid" "delete" 42 None; wire_op "bid" "decrease" 40 (Some 7);
        wire_op "ask" "set" 44 (Some 6); wire_op "ask" "decrease" 45 (Some 2)].

Lemma operations_refine_ladders_witness :
  ∃ b', operations demo_ops demo_book = (b', Ok ()) ∧
    levels b' "bid" None = Ok [(3, 5)] ∧ best_ask b' = Ok (Some (44, 6)).
Proof.
  destruct demo_book_rep as [Hr Hq].
  assert (validity demo_book = "usable"%string) as Hu by (vm_compute; reflexivity).
  destruct (operations_refine_ladders demo_book _ demo_ops Hr Hu Hq)
    as (b' & r & E & _ & _ & H).
  assert (∃ mm', spec_operations (limit demo_book)
    (Sided (list_to_map demo_bids) (list_to_map demo_asks)) demo_ops = Ok mm' ∧
    ladder_levels Bid (on_bid mm') = [(3, 5)] ∧ head (ladder_levels Ask (on_ask mm')) = Some (44, 6))
    as (mm' & Es & HB & HA).
  { eexists. split; [vm_compute; reflexivity|]. split; vm_compute; reflexivity. }
  rewrite Es in H. destruct H as (-> & _ & Hl & _ & Ha). exists b'. split_and!; [done| |].
  - specialize (Hl Bid None ltac:(done)). simpl in Hl. by rewrite Hl, HB.
  - by rewrite Ha, HA.
Defined.

Lemma snapshot_shows_published_witness :
  ∃ b', snapshot (wire_rows demo_bids) (wire_rows demo_asks) (usable_book 2) = (b', Ok ()) ∧
    levels b' "bid" None = Ok (reverse demo_bids) ∧ levels b' "ask" None = Ok demo_asks ∧
    best_bid b' = Ok (last demo_bids) ∧ best_ask b' = Ok (head demo_asks).
Proof.
  destruct demo_ladders_wire as [Hb Ha].
  apply (snapshot_shows_published (usable_book 2) no_levels); [by apply usable_book_rep|reflexivity|done..].
Defined.
