(* ===== verification/Decoder.v ===== *)
(** * The replay stream decoder ([src/replay/streams/protocol.py], class [Decoder])

    The decoder owns the books of one attempt and applies one record at a time; any
    failure poisons it.  [json.loads] and SHA-256 are not unfolded: a record comes
    with what [json.loads] makes of it, and [sha256] is a parameter. *)
From stdpp Require Import gmap strings.
From S2P Require Import Prelude Wire BookProtocol.

Abbreviation book_key := (string * string)%type.

(** One record as [apply] receives it: whether it is a [bytes] object, its length,
    and the document [json.loads] returns ([None]: it raises). *)
Record data := Data {
  is_bytes : bool;
  size : Z;
  loaded : option json;
}.

Record Decoder := mkDecoder {
  run_id : string;
  attempt_id : string;
  expected : json;
  entry_limit : Z;
  books : gmap book_key Book;
  plans : gmap book_key (Z * Z);
  pins : list (string * string);
  sequence : Z;
  terminal : bool;
  poisoned : bool;
}.

Definition new_decoder (run_id attempt_id : string) (expected : json) (max_entry_bytes : Z)
    : Decoder :=
  mkDecoder run_id attempt_id expected max_entry_bytes ∅ ∅ [] (-1) false false.

Definition set_books (bs : gmap book_key Book) (d : Decoder) : Decoder :=
  mkDecoder (run_id d) (attempt_id d) (expected d) (entry_limit d) bs (plans d) (pins d)
    (sequence d) (terminal d) (poisoned d).
Definition set_plans (ps : gmap book_key (Z * Z)) (d : Decoder) : Decoder :=
  mkDecoder (run_id d) (attempt_id d) (expected d) (entry_limit d) (books d) ps (pins d)
    (sequence d) (terminal d) (poisoned d).
Definition set_pins (ps : list (string * string)) (d : Decoder) : Decoder :=
  mkDecoder (run_id d) (attempt_id d) (expected d) (entry_limit d) (books d) (plans d) ps
    (sequence d) (terminal d) (poisoned d).
Definition set_sequence (n : Z) (d : Decoder) : Decoder :=
  mkDecoder (run_id d) (attempt_id d) (expected d) (entry_limit d) (books d) (plans d) (pins d)
    n (terminal d) (poisoned d).
Definition set_terminal (d : Decoder) : Decoder :=
  mkDecoder (run_id d) (attempt_id d) (expected d) (entry_limit d) (books d) (plans d) (pins d)
    (sequence d) true (poisoned d).
Definition set_poisoned (d : Decoder) : Decoder :=
  mkDecoder (run_id d) (attempt_id d) (expected d) (entry_limit d) (books d) (plans d) (pins d)
    (sequence d) (terminal d) true.

Definition ENVELOPE_FIELDS : list string :=
  ["version"; "run_id"; "attempt_id"; "sequence"; "kind"; "body"].
Definition INITIAL_FIELDS : list string :=
  ["pins"; "start_ns"; "end_ns"; "lower_bound"; "plans"; "groups"; "max_entry_bytes";
   "max_queue_bytes"].

(** A delivered record. *)
Record Cut := mkCut { cut_sequence : Z; cut_kind : json; cut_body : json }.

Section Digest.
Context (sha256 : string → string).

(** ** [books_sha256] *)
Definition level_text (pq : Z * Z) : string := str_int pq.1 +:+ ":" +:+ str_int pq.2.

Definition tab : string := String.String (Ascii.ascii_of_nat 9) EmptyString.
Definition newline : string := String.String (Ascii.ascii_of_nat 10) EmptyString.

Definition book_line (k : book_key) (b : Book) : result string :=
  bids ← levels b "bid" None;
  asks ← levels b "ask" None;
  Ok (k.1 +:+ tab +:+ k.2 +:+ tab +:+ str_int (revision b) +:+ tab +:+ validity b +:+ tab
      +:+ String.concat "," (map level_text bids) +:+ tab
      +:+ String.concat "," (map level_text asks) +:+ newline).

(** Tuples of strings in code-point order. *)
Definition key_leb (a b : book_key) : bool :=
  match String.compare a.1 b.1 with
  | Lt => true
  | Gt => false
  | Eq => match String.compare a.2 b.2 with Gt => false | _ => true end
  end.

Definition books_sha256 (bs : gmap book_key Book) : result string :=
  lines ← mapR (λ kb, book_line kb.1 kb.2)
            (sort_by (λ a b, key_leb a.1 b.1) (map_to_list bs));
  Ok (sha256 (String.concat "" lines)).

(** ** [_initial] *)
Definition nodupb (l : list string) : bool := bool_decide (NoDup l).

(** One plan of the loop of lines 565-575; [fresh] is the local [books]. *)
Definition initial_plan (fresh : gmap book_key Book) (p : json)
    : ST Decoder (gmap book_key Book) :=
  _ ← liftR (obj p ["instrument"; "orientation"; "lane"; "venue"; "price_scale"; "quantity_scale"]);
  k ← liftR (key_of p);
  d ← getS;
  _ ← requireS (bool_decide (plans d !! k = None)) "invalid wire value";
  lane ← liftR (jget p "lane"); _ ← liftR (text lane);
  v ← liftR (jget p "venue");
  _ ← requireS (match split_colon (chars k.1) with
                | Some (venue, _) => jeq_str v (String.string_of_list_ascii venue)
                | None => jeq_str v k.1
                end) "invalid wire value";
  ps ← liftR (jget p "price_scale"); price_scale ← liftR (uint ps 18);
  qs ← liftR (jget p "quantity_scale"); quantity_scale ← liftR (uint qs 18);
  _ ← modifyS (λ d, set_plans (<[k := (price_scale, quantity_scale)]> (plans d)) d);
  mret (<[k := new_book price_scale]> fresh).

Fixpoint initial_plans (fresh : gmap book_key Book) (ps : list json)
    : ST Decoder (gmap book_key Book) :=
  match ps with
  | [] => mret fresh
  | p :: ps => fresh ← initial_plan fresh p; initial_plans fresh ps
  end.

Definition pins_of (b : json) : result (list (string * string)) :=
  p ← jget b "pins"; l ← array p; mapR pin l.

Definition initial (kind b : json) : ST Decoder () :=
  d ← getS;
  _ ← requireS (jeq_str kind "initial" && json_eqb b (expected d)) "initial binding";
  _ ← liftR (obj b INITIAL_FIELDS);
  s ← liftR (jget b "start_ns"); s ← liftR (uint s max_u64);
  e ← liftR (jget b "end_ns"); e ← liftR (uint e max_u64);
  _ ← requireS (s <? e) "invalid wire value";
  lb ← liftR (jget b "lower_bound");
  _ ← liftR (choice lb ["clip"; "expand_to_window_start"; "require_window_boundary"]);
  m ← liftR (jget b "max_entry_bytes"); m ← liftR (uint m max_u64);
  _ ← requireS (m =? entry_limit d) "invalid wire value";
  q ← liftR (jget b "max_queue_bytes"); q ← liftR (uint q max_u64);
  _ ← requireS (entry_limit d <=? q) "invalid wire value";
  ps ← liftR (pins_of b);
  _ ← modifyS (set_pins (remove_dups ps));
  _ ← requireS (negb (bool_decide (ps = [])) && bool_decide (NoDup ps)) "invalid wire value";
  g ← liftR (jget b "groups"); g ← liftR (array g); groups ← liftR (mapR text g);
  _ ← requireS (negb (bool_decide (groups = [])) && nodupb groups) "invalid wire value";
  pl ← liftR (jget b "plans"); pl ← liftR (array pl);
  fresh ← initial_plans ∅ pl;
  _ ← requireS (negb (bool_decide (fresh = ∅))) "invalid wire value";
  modifyS (λ d, set_books (fresh ∪ books d) d).

(** ** [_cut] *)

(** [books.get((instrument, orientation))]; a list or a dict cannot be hashed. *)
Definition get_book (bs : gmap book_key Book) (instrument orientation : json)
    : result (option (book_key * Book)) :=
  match instrument, orientation with
  | (JArr _ | JObj _), _ | _, (JArr _ | JObj _) => Err (TypeError "unhashable")
  | JStr i, JStr o => Ok (match bs !! (i, o) with Some b => Some ((i, o), b) | None => None end)
  | _, _ => Ok None
  end.

(** The decision of one transition on its book, lines 595-613. *)
Definition decide_book (t origin : json) (new_revision : Z) : ST Book () :=
  d ← liftR (jget t "decision");
  kind ← liftR (jget d "kind");
  b ← getS;
  _ ← (if jeq_str kind "operations" then
         _ ← requireS (String.eqb (validity b) "usable") "operations on unusable book";
         ops ← liftR (jget d "operations");
         _ ← operations ops;
         dep ← liftR (jget t "dependency");
         modifyS (λ b, set_header (revision b) (validity b) dep (as_of b) (BookProtocol.reason b) b)
       else if jeq_str kind "snapshot" then
         bids ← liftR (jget d "bids"); asks ← liftR (jget d "asks");
         _ ← snapshot bids asks;
         _ ← modifyS (λ b, set_header (revision b) "usable" (dependency b) (as_of b)
                              (BookProtocol.reason b) b);
         dep ← liftR (jget t "dependency");
         modifyS (λ b, set_header (revision b) (validity b) dep (as_of b) JNull b)
       else
         _ ← requireS (jeq_str kind "invalidation") "unknown decision";
         _ ← clear;
         _ ← modifyS (λ b, set_header (revision b) "unusable" JNull (as_of b)
                              (BookProtocol.reason b) b);
         why ← liftR (jget d "reason");
         modifyS (λ b, set_header (revision b) (validity b) (dependency b) (as_of b) why b));
  modifyS (λ b, set_header new_revision (validity b) (dependency b) origin
                  (BookProtocol.reason b) b).

(** One transition of the loop. *)
Definition transition (origin : json) (t : json) : ST Decoder () :=
  k ← liftR (jget t "key");
  i ← liftR (jget k "instrument"); o ← liftR (jget k "orientation");
  d ← getS;
  found ← liftR (get_book (books d) i o);
  match found with
  | None => liftR (Err (ProtocolError "unplanned transition"))
  | Some (bk, b) =>
      r ← liftR (jget t "revision"); new_revision ← liftR (py_int r);
      p ← liftR (jget t "previous_revision"); previous ← liftR (py_int p);
      _ ← requireS ((previous =? revision b) && (new_revision =? revision b + 1))
            "book revision gap";
      zoomS (λ d, default b (books d !! bk)) (λ b' d, set_books (<[bk := b']> (books d)) d)
        (decide_book t origin new_revision)
  end.

Definition cut (b : json) : ST Decoder () :=
  origin ← liftR (jget b "origin");
  ts ← liftR (jget b "book_transitions"); rows ← liftR (py_iter ts);
  forS (transition origin) rows.

(** ** [_apply] and [apply] *)
(** The body of a record, by stream position and kind: lines 535-548. *)
Definition dispatch (seq : Z) (kind b : json) : ST Decoder () :=
  if seq =? 0 then initial kind b
  else if jeq_str kind "terminal" then
    _ ← liftR (obj b ["cuts"; "books_sha256"]);
    c ← liftR (jget b "cuts"); cuts ← liftR (uint c max_u64);
    _ ← requireS (cuts =? seq - 1) "terminal count";
    d ← getS;
    h ← liftR (jget b "books_sha256");
    digest ← liftR (books_sha256 (books d));
    _ ← requireS (jeq_str h digest) "terminal book digest";
    modifyS set_terminal
  else
    _ ← requireS (jeq_str kind "cut") "record kind";
    cut b.

Definition apply_record (r : data) : ST Decoder Cut :=
  d ← getS;
  _ ← requireS (is_bytes r && (size r <=? entry_limit d)) "entry limit";
  doc ← liftR (match loaded r with Some v => Ok v | None => Err (ProtocolError "malformed JSON") end);
  _ ← liftR (obj doc ENVELOPE_FIELDS);
  version ← liftR (jget doc "version");
  run ← liftR (jget doc "run_id"); attempt ← liftR (jget doc "attempt_id");
  _ ← requireS (jeq_str version "2" && jeq_str run (run_id d) && jeq_str attempt (attempt_id d))
        "identity/version";
  let seq := sequence d + 1 in
  s ← liftR (jget doc "sequence");
  _ ← requireS (jeq_str s (str_int seq)) "stream sequence gap or duplicate";
  kind ← liftR (jget doc "kind"); b ← liftR (jget doc "body");
  _ ← dispatch seq kind b;
  _ ← modifyS (set_sequence seq);
  mret (mkCut seq kind b).

(** [MALFORMED] exceptions are reported as one [ProtocolError]. *)
Definition malformed (e : exn) : bool :=
  match e with
  | KeyError | TypeError _ | ValueError _ | AttributeError | IndexError => true
  | _ => false
  end.

Definition apply (r : data) : ST Decoder Cut := λ d,
  if poisoned d || terminal d then (d, Err (ProtocolError "closed decoder"))
  else match apply_record r d with
       | (d', Ok c) => (d', Ok c)
       | (d', Err e) =>
           (set_poisoned d',
            Err (if malformed e then ProtocolError "malformed record" else e))
       end.

Definition finish (d : Decoder) : result () :=
  require (terminal d && negb (poisoned d)) "missing terminal / failed attempt".

(** A client feeding records until one is refused. *)
Fixpoint feed (rs : list data) (d : Decoder) : Decoder * list Cut * option exn :=
  match rs with
  | [] => (d, [], None)
  | r :: rs =>
      match apply r d with
      | (d, Err e) => (d, [], Some e)
      | (d, Ok c) => let '(d, cs, e) := feed rs d in (d, c :: cs, e)
      end
  end.

(** ** Frames *)

(** The stream position and the status flags. *)
Definition position (d : Decoder) := (sequence d, terminal d, poisoned d).

Lemma initial_plans_frame fresh ps : frame position (initial_plans fresh ps).
Proof.
  revert fresh. induction ps as [|p ps IH]; intros fresh; simpl; [done|].
  apply frame_bind; [|done]. unfold initial_plan. repeat frame_step.
Qed.

Lemma initial_frame kind b : frame position (initial kind b).
Proof.
  unfold initial. repeat first [apply initial_plans_frame | frame_step].
Qed.

Lemma transition_frame origin t : frame position (transition origin t).
Proof. unfold transition. repeat frame_step. Qed.

Lemma cut_frame b : frame position (cut b).
Proof. unfold cut. repeat first [apply transition_frame | frame_step]. Qed.

(** ** One accepted record *)

Lemma jeq_str_eq v s : jeq_str v s = true → v = JStr s.
Proof. destruct v; simpl; try done. by intros ->%String.eqb_eq. Qed.

(** What an accepted body does to the decoder, by stream position and kind. *)
Definition dispatched (seq : Z) (kind b : json) (d d1 : Decoder) : Prop :=
  if seq =? 0 then kind = JStr "initial" ∧ terminal d1 = terminal d ∧ initial kind b d = (d1, Ok ())
  else if terminal d1 then
    kind = JStr "terminal" ∧ is_ok (obj b ["cuts"; "books_sha256"]) ∧ d1 = set_terminal d
  else kind = JStr "cut" ∧ cut b d = (d1, Ok ()).

Lemma dispatch_ok seq kind b d d1 u :
  terminal d = false → dispatch seq kind b d = (d1, Ok u) →
  sequence d1 = sequence d ∧ poisoned d1 = poisoned d ∧ dispatched seq kind b d d1.
Proof.
  intros Ht H. unfold dispatch in H. unfold dispatched. destruct u. destruct (seq =? 0) eqn:Hseq.
  - pose proof (initial_frame kind b d) as Hf. rewrite H in Hf. injection Hf as ? ? ?.
    split_and!; [done..| |done|done].
    unfold initial in H. res_inv. by apply jeq_str_eq.
  - destruct (jeq_str kind "terminal") eqn:Hk.
    + apply jeq_str_eq in Hk. res_inv.
      simpl. split_and!; try done. by eexists.
    + res_inv. pose proof (cut_frame b d) as Hf. rewrite H in Hf. injection Hf as ? Ht' ?.
      rewrite Ht', Ht. split_and!; [done..| |done]. by apply jeq_str_eq.
Qed.

(** What [apply] checks and does on the record it accepts. *)
Lemma apply_ok r d d' c :
  apply r d = (d', Ok c) →
  poisoned d = false ∧ terminal d = false ∧ poisoned d' = false ∧
  sequence d' = sequence d + 1 ∧ cut_sequence c = sequence d + 1 ∧
  ∃ d1, d' = set_sequence (sequence d + 1) d1 ∧
        dispatched (sequence d + 1) (cut_kind c) (cut_body c) d d1.
Proof.
  unfold apply. destruct (poisoned d) eqn:Hp, (terminal d) eqn:Ht; simpl; try done.
  destruct (apply_record r d) as [d1 [c1|e]] eqn:E; intros [= <- <-].
  unfold apply_record in E. res_inv.
  match goal with H : dispatch _ _ _ _ = _ |- _ =>
    destruct (dispatch_ok _ _ _ _ _ _ Ht H) as (? & ? & ?) end.
  split_and!; try done; [congruence|]. eauto.
Qed.

(** [m] leaves [f] of the state as it was when it raises. *)
Definition keeps {T A} (f : Decoder → T) (m : ST Decoder A) : Prop :=
  ∀ d d' e, m d = (d', Err e) → f d' = f d.

Lemma keeps_bind {T A B} (f : Decoder → T) (m : ST Decoder A) (k : A → ST Decoder B) :
  frame f m → (∀ a, keeps f (k a)) → keeps f (m ≫= k).
Proof.
  intros Hm Hk d d' e. unfold mbind, ST_bind. specialize (Hm d).
  destruct (m d) as [d1 [a|e1]]; simpl in *; [|by intros [= <- _]].
  intros H. apply Hk in H. congruence.
Qed.

Lemma keeps_last {T A B} (f : Decoder → T) (m : ST Decoder A) (k : A → ST Decoder B) :
  keeps f m → (∀ a d, is_ok (k a d).2) → keeps f (m ≫= k).
Proof.
  intros Hm Hk d d' e. unfold mbind, ST_bind. destruct (m d) as [d1 [a|e1]] eqn:E.
  - intros H. destruct (Hk a d1) as [b Hb]. by rewrite H in Hb.
  - intros [= <- <-]. by eapply Hm.
Qed.

Lemma frame_keeps {T A} (f : Decoder → T) (m : ST Decoder A) : frame f m → keeps f m.
Proof. intros H d d' e E. specialize (H d). by rewrite E in H. Qed.

(** Where the stream is. *)
Definition stream (d : Decoder) := (sequence d, terminal d).

Lemma frame_stream {A} (m : ST Decoder A) : frame position m → frame stream m.
Proof. intros H s. specialize (H s). injection H as ? ? ?. unfold stream. congruence. Qed.

Lemma dispatch_keeps seq kind b : keeps stream (dispatch seq kind b).
Proof.
  unfold dispatch. destruct (seq =? 0); [apply frame_keeps, frame_stream, initial_frame|].
  destruct (jeq_str kind "terminal").
  - repeat (apply keeps_bind; [frame_step|intros ?]). by intros ? ? ? [=].
  - apply keeps_bind; [frame_step|]. intros _. apply frame_keeps, frame_stream, cut_frame.
Qed.

Lemma apply_record_keeps r : keeps stream (apply_record r).
Proof.
  unfold apply_record. apply keeps_bind; [done|]. intros d.
  repeat (apply keeps_bind; [frame_step|intros ?]).
  apply keeps_last; [apply dispatch_keeps|]. intros. by eexists.
Qed.

Lemma apply_err r d d' e :
  apply r d = (d', Err e) →
  stream d' = stream d ∧
  ((d' = d ∧ (poisoned d || terminal d) = true) ∨ poisoned d' = true).
Proof.
  unfold apply. destruct (poisoned d || terminal d) eqn:Hclosed; [intros [= <- <-]; auto|].
  destruct (apply_record r d) as [d1 [c1|e1]] eqn:E; intros [= <- <-]. split; [|by right].
  by apply (apply_record_keeps r) in E.
Qed.

(** ** Runs *)

(** The kinds of the records of a run from a fresh decoder. *)
Definition run_kinds (terminated : bool) (n : nat) : list json :=
  match n with
  | O => []
  | S n => JStr "initial" ::
      if terminated then replicate (n - 1) (JStr "cut") ++ [JStr "terminal"]
      else replicate n (JStr "cut")
  end.

(** The decoder after accepting [cs]. *)
Definition accepted (cs : list Cut) (d : Decoder) : Prop :=
  sequence d = Z.of_nat (length cs) - 1 ∧
  map cut_sequence cs = map Z.of_nat (seq 0 (length cs)) ∧
  map cut_kind cs = run_kinds (terminal d) (length cs) ∧
  (terminal d = true → (2 ≤ length cs)%nat).

Lemma accepted_snoc cs d r d' c :
  accepted cs d → apply r d = (d', Ok c) → accepted (cs ++ [c]) d'.
Proof.
  intros (Hs & Hn & Hk & Ht2) (Hp & Ht & Hp' & Hs' & Hc & d1 & -> & Hd)%apply_ok.
  unfold accepted. rewrite Ht in Hk. rewrite length_app, !map_app, Hn, Hk, seq_app, map_app. simpl.
  rewrite Hc, Hs. replace (Z.of_nat (length cs) - 1 + 1) with (Z.of_nat (length cs)) in * by lia.
  unfold dispatched in Hd. rewrite Hs in Hd.
  replace (Z.of_nat (length cs) - 1 + 1) with (Z.of_nat (length cs)) in Hd by lia.
  destruct (Z.eqb_spec (Z.of_nat (length cs)) 0) as [E|E].
  - destruct Hd as (-> & Ht1 & _). rewrite Ht in Ht1. rewrite Ht1.
    destruct cs; [|simpl in E; lia]. by split_and!.
  - destruct (length cs) as [|n] eqn:Hlen; [lia|]. simpl.
    destruct (terminal d1) eqn:Ht1; destruct Hd as [-> Hd].
    + split_and!; [lia|done| |lia]. by rewrite Nat.add_sub.
    + split_and!; [lia|done| |done].
      rewrite Nat.add_comm. simpl. by rewrite <- replicate_cons_app.
Qed.

Lemma feed_accepted rs cs0 d d' cs e :
  accepted cs0 d → feed rs d = (d', cs, e) →
  accepted (cs0 ++ cs) d' ∧
  match e with None => length cs = length rs | Some _ => (poisoned d' || terminal d') = true end.
Proof.
  revert cs0 d cs. induction rs as [|r rs IH]; intros cs0 d cs Hacc; cbn [feed].
  - intros [= <- <- <-]. by rewrite app_nil_r.
  - destruct (apply r d) as [d1 [c|e1]] eqn:E.
    + destruct (feed rs d1) as [[d2 cs2] e2] eqn:E2. intros [= <- <- <-].
      apply (accepted_snoc cs0) in E; [|done].
      destruct (IH _ _ _ E E2) as [H1 H2]. rewrite <- app_assoc in H1. split; [done|].
      simpl. destruct e2; [done|congruence].
    + intros [= <- <- <-]. rewrite app_nil_r. apply apply_err in E as (Hs & [[-> Hc]|Hp]).
      * done.
      * split; [|by rewrite Hp]. injection Hs as Hs Ht.
        unfold accepted. by rewrite Hs, Ht.
Qed.

(** ** The books along a run *)

(** Transition [t] is addressed to book [bk]. *)
Definition addressed (bk : book_key) (t : json) : bool :=
  match jget t "key" with
  | Ok k => match jget k "instrument", jget k "orientation" with
            | Ok (JStr i), Ok (JStr o) => String.eqb i bk.1 && String.eqb o bk.2
            | _, _ => false
            end
  | Err _ => false
  end.

(** The transitions a record body addresses to [bk]. *)
Definition transitions_for (bk : book_key) (body : json) : list json :=
  match (ts ← jget body "book_transitions"; py_iter ts) with
  | Ok rows => filter (λ t, addressed bk t = true) rows
  | Err _ => []
  end.

Definition revisions_for (bk : book_key) (cs : list Cut) : Z :=
  Z.of_nat (length (concat (map (λ c, transitions_for bk (cut_body c)) cs))).

(** What the decoder trusts the publisher for: the ladders of a snapshot are well
    formed at the book's price scale. *)
Definition published (lim : Z) (t : json) : Prop :=
  ∀ d k bids asks, jget t "decision" = Ok d → jget d "kind" = Ok k → jeq_str k "snapshot" = true →
  jget d "bids" = Ok bids → jget d "asks" = Ok asks →
  (∃ lb, wire_ladder lim bids lb) ∧ (∃ la, wire_ladder lim asks la).

Definition book_inv (b : Book) : Prop :=
  (∃ mm, rep b mm) ∧ (validity b = "usable"%string → is_Some (quantities b)).

Lemma new_book_inv price_scale : 0 ≤ price_scale → book_inv (new_book price_scale).
Proof. split; [eexists; by apply new_book_rep | done]. Qed.

(** The header fields do not matter to [rep]. *)
Lemma rep_header r v dep o why b mm : rep (set_header r v dep o why b) mm ↔ rep b mm.
Proof. done. Qed.

(** The decision alone, without the final revision and origin. *)
Lemma operations_inv b b' ops u :
  operations ops b = (b', Ok u) → validity b = "usable"%string → book_inv b → book_inv b'.
Proof.
  intros E Hu [[mm Hr] Hq]. destruct (operations_simulate b mm ops Hr (Hq Hu)) as (Hh & Hq' & H).
  rewrite E in *. simpl in *. split; [|done].
  destruct (spec_operations _ _ _) as [mm'|e]; destruct H as [? H]; eauto.
Qed.

Lemma clear_inv b b' u : clear b = (b', Ok u) → book_inv b → book_inv b'.
Proof.
  intros E [[mm Hr] Hq]. destruct (clear_rep b mm Hr) as (b1 & E1 & Hh & Hq1 & Hr1).
  rewrite E in E1. injection E1 as <-. injection Hh as _ Hv _ _ _ _ _. split; [eauto|].
  rewrite Hv. auto.
Qed.

Lemma snapshot_inv b b' bids asks u lb la :
  snapshot bids asks b = (b', Ok u) → wire_ladder (limit b) bids lb → wire_ladder (limit b) asks la →
  book_inv b → (∃ mm, rep b' mm) ∧ is_Some (quantities b').
Proof.
  intros E Hb Ha [[mm Hr] _].
  destruct (snapshot_rep b mm bids asks lb la Hr Hb Ha) as (b1 & E1 & _ & Hq & Hr').
  rewrite E in E1. injection E1 as <-. eauto.
Qed.

Lemma frame_limit {A} (m : ST Book A) b b' r :
  frame header m → m b = (b', r) → limit b' = limit b.
Proof. intros H E. specialize (H b). rewrite E in H. by injection H. Qed.

(** The decision alone, without the final revision and origin. *)
Lemma decide_book_ok t origin n b b' u :
  decide_book t origin n b = (b', Ok u) →
  revision b' = n ∧ limit b' = limit b ∧ (published (limit b) t → book_inv b → book_inv b').
Proof.
  intros H. unfold decide_book in H. res_inv. split; [done|].
  destruct (jeq_str _ "operations") eqn:Ek; [|destruct (jeq_str _ "snapshot") eqn:Ek2]; res_inv.
  - match goal with H : operations ?ops b = _ |- _ => rename H into E end.
    split; [exact (frame_limit _ _ _ _ (operations_frame _) E)|]. intros _ Hi.
    apply (operations_inv _ _ _ _ E); [by apply String.eqb_eq|done].
  - match goal with H : snapshot _ _ b = _ |- _ => rename H into E end.
    split; [exact (frame_limit _ _ _ _ (snapshot_frame _ _) E)|]. intros Hpub Hi.
    destruct (Hpub _ _ _ _ H0 H1 Ek2 H H2) as [[lb Hlb] [la Hla]].
    destruct (snapshot_inv _ _ _ _ _ _ _ E Hlb Hla Hi) as [Hr Hq]. by split.
  - match goal with H : clear b = _ |- _ => rename H into E end.
    split; [exact (frame_limit _ _ _ _ clear_frame E)|]. intros _ Hi.
    apply clear_inv in E as [Hr Hq]; [|done]. by split.
Qed.

(** [P] of the book at [bk], given what happened to it in a list of transitions. *)
Definition advanced (bk : book_key) (rows : list json) (bs bs' : gmap book_key Book) : Prop :=
  match bs !! bk with
  | None => bs' !! bk = None
  | Some b => ∃ b', bs' !! bk = Some b' ∧ limit b' = limit b ∧
      revision b' = revision b + Z.of_nat (length rows) ∧
      (Forall (published (limit b)) rows → book_inv b → book_inv b')
  end.

Lemma transition_advanced origin t d d' u bk :
  transition origin t d = (d', Ok u) →
  advanced bk (filter (λ t, addressed bk t = true) [t]) (books d) (books d').
Proof.
  intros H. unfold transition in H. res_inv.
  match goal with H : get_book _ _ _ = Ok ?f |- _ => rename H into Hg; destruct f as [[bk' b]|] end;
    [|res_inv; done]. res_inv.
  match goal with H : jget ?k "instrument" = Ok ?i, H' : jget ?k "orientation" = Ok ?o |- _ =>
    rename H into Hi; rename H' into Ho; rename i into vi; rename o into vo end.
  assert (∃ i o, vi = JStr i ∧ vo = JStr o ∧ bk' = (i, o) ∧ books d !! bk' = Some b)
    as (i & o & -> & -> & -> & Hb).
  { destruct vi as [| | | | | |i| |], vo as [| | | | | |o| |]; simpl in Hg; try discriminate.
    destruct (books d !! (i, o)) as [b'|] eqn:E; [|discriminate]. injection Hg as <- <-. eauto 10. }
  match goal with H : jget t "key" = Ok _ |- _ => rename H into Hk end.
  assert (addressed bk t = bool_decide (bk = (i, o))) as Ha.
  { unfold addressed. rewrite Hk, Hi, Ho. destruct bk as [i' o']. simpl.
    apply eq_bool_prop_intro. rewrite bool_decide_spec. rewrite andb_True, !Is_true_true, !String.eqb_eq.
    naive_solver. }
  match goal with H : zoomS _ _ _ _ = _ |- _ => rename H into Hz end.
  unfold zoomS in Hz. rewrite Hb in Hz. simpl in Hz.
  destruct (decide_book _ _ _ b) as [b1 r1] eqn:Ed. injection Hz as <- ->. simpl.
  apply decide_book_ok in Ed as (Hrev & Hlim & Hinv).
  unfold advanced. destruct (decide (bk = (i, o))) as [->|Hne].
  - rewrite Hb, lookup_insert_eq. exists b1. rewrite filter_cons, filter_nil.
    rewrite decide_True by (rewrite Ha; by apply bool_decide_true). simpl.
    match goal with H : _ && _ = true |- _ => apply andb_true_iff in H as [_ ?%Z.eqb_eq] | H : (_ =? revision b + 1) = true |- _ => apply Z.eqb_eq in H end.
    split_and!; [done..|lia|]. intros [Hp _]%Forall_cons. auto.
  - rewrite filter_cons, filter_nil.
    rewrite decide_False by (rewrite Ha; by rewrite bool_decide_false).
    rewrite lookup_insert_ne by done. destruct (books d !! bk) as [b0|]; [|done].
    exists b0. split_and!; [done..|simpl; lia|done].
Qed.

Lemma advanced_app bk l k bs1 bs2 bs3 :
  advanced bk l bs1 bs2 → advanced bk k bs2 bs3 → advanced bk (l ++ k) bs1 bs3.
Proof.
  unfold advanced. destruct (bs1 !! bk) as [b1|].
  - intros (b2 & -> & Hl2 & Hr2 & Hi2) (b3 & -> & Hl3 & Hr3 & Hi3). exists b3.
    rewrite length_app. split_and!; [done|congruence|lia|].
    intros [Hp Hq]%Forall_app Hi. apply Hi3; [by rewrite Hl2|auto].
  - by intros ->.
Qed.

Lemma advanced_nil bk bs : advanced bk [] bs bs.
Proof.
  unfold advanced. destruct (bs !! bk) as [b|]; [|done]. exists b. split_and!; [done..|simpl; lia|done].
Qed.

Lemma cut_advanced b d d' u bk :
  cut b d = (d', Ok u) → advanced bk (transitions_for bk b) (books d) (books d').
Proof.
  unfold cut, transitions_for. intros H. res_inv.
  match goal with H : jget b "book_transitions" = Ok _, H' : py_iter _ = Ok ?l |- _ =>
    rewrite H; simpl; rewrite H'; clear H'; rename l into rows end.
  revert d H. induction rows as [|t rows IH]; intros d H; simpl in H.
  - res_inv. apply advanced_nil.
  - res_inv. rewrite (filter_app _ [t] rows). eapply advanced_app; [by eapply transition_advanced|].
    by apply IH.
Qed.

(** [initial] creates every book fresh. *)
Definition fresh_books (bs : gmap book_key Book) : Prop :=
  ∀ bk b, bs !! bk = Some b → ∃ price_scale, 0 ≤ price_scale ∧ b = new_book price_scale.

Lemma initial_plan_fresh fresh p d d' fresh' :
  initial_plan fresh p d = (d', Ok fresh') → fresh_books fresh →
  fresh_books fresh' ∧ books d' = books d.
Proof.
  intros H Hf. unfold initial_plan in H. res_inv. split; [|done]. intros bk b.
  match goal with H : key_of p = Ok ?k |- _ => destruct (decide (bk = k)) as [->|] end.
  - rewrite lookup_insert_eq. intros [= <-]. eexists. split; [|done].
    match goal with H : uint _ 18 = Ok ?n |- 0 ≤ ?n => by apply uint_range in H as [? _] end.
  - rewrite lookup_insert_ne by done. apply Hf.
Qed.

Lemma initial_plans_fresh fresh ps d d' fresh' :
  initial_plans fresh ps d = (d', Ok fresh') → fresh_books fresh →
  fresh_books fresh' ∧ books d' = books d.
Proof.
  revert fresh d. induction ps as [|p ps IH]; intros fresh d H Hf; simpl in H.
  - res_inv. done.
  - apply stbind_ok in H as (d1 & f1 & H1 & H).
    apply initial_plan_fresh in H1 as [Hf1 Hb1]; [|done].
    apply IH in H as [? ?]; [|done]. split; [done|congruence].
Qed.

Lemma initial_fresh kind b d d' u :
  initial kind b d = (d', Ok u) → books d = ∅ → fresh_books (books d').
Proof.
  intros H Hd. unfold initial in H. res_inv.
  match goal with H : initial_plans ∅ _ _ = _ |- _ => apply initial_plans_fresh in H as [Hf Hb]; [|done] end.
  simpl in *. rewrite Hb, Hd, (right_id_L ∅ (∪)). done.
Qed.

(** The books after accepting [cs]: each one's revision counts the transitions it was
    sent, and well-formed snapshots leave it well formed. *)
Definition books_inv (cs : list Cut) (d : Decoder) : Prop :=
  (cs = [] → books d = ∅) ∧
  ∀ bk b, books d !! bk = Some b →
    revision b = revisions_for bk cs ∧
    (Forall (λ c, Forall (published (limit b)) (transitions_for bk (cut_body c))) cs → book_inv b).

Lemma closed_no_transitions bk b fields d :
  obj b fields = Ok d → "book_transitions" ∉ fields → transitions_for bk b = [].
Proof.
  intros [-> Hk]%obj_ok Hn. unfold transitions_for. simpl.
  destruct (dget d "book_transitions") as [v|] eqn:E; [|done].
  destruct Hn. by apply Hk, dget_Some_key with v.
Qed.

Lemma revisions_snoc bk cs c :
  revisions_for bk (cs ++ [c])
  = revisions_for bk cs + Z.of_nat (length (transitions_for bk (cut_body c))).
Proof.
  unfold revisions_for. rewrite map_app, concat_app, length_app. simpl. rewrite app_nil_r. lia.
Qed.

Lemma revisions_no_transitions bk cs c :
  transitions_for bk (cut_body c) = [] → revisions_for bk (cs ++ [c]) = revisions_for bk cs.
Proof. intros E. rewrite revisions_snoc, E. simpl. lia. Qed.

Lemma books_inv_snoc cs d r d' c :
  accepted cs d → books_inv cs d → apply r d = (d', Ok c) → books_inv (cs ++ [c]) d'.
Proof.
  intros Hacc [H0 Hinv] (_ & _ & _ & _ & _ & d1 & -> & Hd)%apply_ok.
  split; [by destruct cs|]. change (books (set_sequence _ d1)) with (books d1). intros bk b Hb.
  unfold dispatched in Hd. destruct Hacc as (Hs & _). rewrite Hs in Hd.
  destruct (Z.eqb_spec (Z.of_nat (length cs) - 1 + 1) 0) as [E|E].
  - destruct Hd as (_ & _ & Hi). destruct cs; [|simpl in E; lia].
    apply initial_fresh in Hi as Hf; [|auto]. destruct (Hf bk b Hb) as (ps & Hps & ->).
    assert (transitions_for bk (cut_body c) = []) as Ht.
    { unfold initial in Hi. res_inv. eapply closed_no_transitions; [done|].
      by rewrite <- in_list_elem. }
    rewrite revisions_no_transitions by done. split; [done|]. intros _. by apply new_book_inv.
  - destruct (terminal d1).
    + destruct Hd as (_ & [o Ho] & ->). destruct (Hinv bk b Hb) as [Hrev Hi].
      assert (transitions_for bk (cut_body c) = []) as Ht.
      { eapply closed_no_transitions; [done|]. by rewrite <- in_list_elem. }
      rewrite revisions_no_transitions by done. split; [done|].
      intros [Hp _]%Forall_app. auto.
    + destruct Hd as [_ Hc]. apply (cut_advanced _ _ _ _ bk) in Hc. unfold advanced in Hc.
      destruct (books d !! bk) as [b0|] eqn:Hb0; [|congruence].
      destruct Hc as (b' & Hb' & Hlim & Hrev & Hpub). rewrite Hb in Hb'. injection Hb' as <-.
      destruct (Hinv bk b0 Hb0) as [Hrev0 Hi0]. rewrite revisions_snoc. split; [lia|].
      rewrite Hlim. intros [Hp Hq]%Forall_app. rewrite Forall_singleton in Hq. auto.
Qed.

Lemma feed_books rs cs0 d d' cs e :
  accepted cs0 d → books_inv cs0 d → feed rs d = (d', cs, e) → poisoned d' = false →
  books_inv (cs0 ++ cs) d'.
Proof.
  revert cs0 d cs. induction rs as [|r rs IH]; intros cs0 d cs Hacc Hinv; cbn [feed].
  - intros [= <- <- <-]. by rewrite app_nil_r.
  - destruct (apply r d) as [d1 [c|e1]] eqn:E.
    + destruct (feed rs d1) as [[d2 cs2] e2] eqn:E2. intros [= <- <- <-] Hp.
      replace (cs0 ++ c :: cs2) with ((cs0 ++ [c]) ++ cs2) by (by rewrite <- app_assoc).
      eapply IH; [by eapply accepted_snoc|by eapply books_inv_snoc|done|done].
    + intros [= <- <- <-] Hp. rewrite app_nil_r. apply apply_err in E as (_ & [[-> _]|Hp']); congruence.
Qed.

Lemma books_inv_digest cs d :
  books_inv cs d →
  (∀ bk b, books d !! bk = Some b →
     Forall (λ c, Forall (published (limit b)) (transitions_for bk (cut_body c))) cs) →
  is_ok (books_sha256 (books d)).
Proof.
  intros [_ Hinv] Hpub. unfold books_sha256.
  destruct (mapR_exists (λ kb : book_key * Book, book_line kb.1 kb.2) (λ _ _, True)
    (sort_by (λ a b, key_leb a.1 b.1) (map_to_list (books d)))) as (lines & -> & _); [|by eexists].
  apply Forall_forall. intros [bk b] Hin%sort_by_elem%elem_of_map_to_list.
  destruct (Hinv bk b Hin) as [_ Hi]. destruct (Hi (Hpub _ _ Hin)) as [[mm Hr] Hq].
  unfold book_line. cbn [fst snd].
  assert (∀ s, is_ok (levels b (side_name s) None)) as Hl.
  { intros s. destruct (decide (validity b = "usable"%string)) as [Hu|Hu].
    - eexists. apply levels_rep with (n := None); [done..|auto|done].
    - exists []. unfold levels. assert (side_of (side_name s) = Some s) as -> by (by destruct s).
      cbn [mbind result_bind require]. by apply String.eqb_neq in Hu as ->. }
  destruct (Hl Bid) as [bl Hb], (Hl Ask) as [al Ha]. simpl in Hb, Ha. rewrite Hb, Ha.
  cbn [mbind result_bind]. eauto.
Qed.

Lemma accepted_new run attempt exp lim : accepted [] (new_decoder run attempt exp lim).
Proof. by split_and!. Qed.
Lemma books_inv_new run attempt exp lim : books_inv [] (new_decoder run attempt exp lim).
Proof. split; [done|]. intros bk b. simpl. by rewrite lookup_empty. Qed.

(** ** Properties *)

(** C16. From a fresh decoder, the accepted records of any input are numbered 0, 1,
    2, ... in order; the first is the initial record and all others are cuts, but for
    a terminal record, which can only be the last; the first refusal closes the
    decoder for good; and [finish] succeeds only on a run that ends in a terminal. *)
Theorem stream_accepts_one_run run attempt exp lim rs d cs e :
  feed rs (new_decoder run attempt exp lim) = (d, cs, e) →
  map cut_sequence cs = map Z.of_nat (seq 0 (length cs)) ∧
  map cut_kind cs = run_kinds (terminal d) (length cs) ∧
  (is_ok (finish d) → cut_kind <$> last cs = Some (JStr "terminal")) ∧
  match e with
  | None => length cs = length rs
  | Some _ => ∀ r, apply r d = (d, Err (ProtocolError "closed decoder"))
  end.
Proof.
  intros H. pose proof H as Hf.
  apply (feed_accepted rs [] _ _ _ _ (accepted_new _ _ _ _)) in H as [(Hs & Hn & Hk & Ht) He].
  simpl in *. split_and!; [done..| |].
  - intros [u Hu]. unfold finish in Hu. res_inv.
    rewrite <- fmap_last. change (cut_kind <$> cs) with (map cut_kind cs). rewrite Hk, H.
    specialize (Ht H). destruct (length cs) as [|[|n]]; [lia..|]. simpl.
    by rewrite app_comm_cons, last_snoc.
  - destruct e as [e|]; [|done]. intros r. unfold apply. by rewrite He.
Qed.

(** C27. Along an accepted run every planned book's revision is exactly the number of
    transitions the accepted cuts addressed to it, none lost, repeated or reordered
    past a gap; and when the publisher's snapshots are well formed at the plans'
    price scales, every book still represents two ladders, so its levels and the
    terminal digest can always be computed. *)
Theorem revisions_count_transitions run attempt exp lim rs d cs e :
  feed rs (new_decoder run attempt exp lim) = (d, cs, e) → poisoned d = false →
  let well_published (bk : book_key) (b : Book) :=
    Forall (λ c, Forall (published (limit b)) (transitions_for bk (cut_body c))) cs in
  (∀ bk b, books d !! bk = Some b →
     revision b = revisions_for bk cs ∧
     (well_published bk b → (∃ mm, rep b mm) ∧
        (validity b = "usable"%string → is_Some (quantities b)))) ∧
  ((∀ bk b, books d !! bk = Some b → well_published bk b) → is_ok (books_sha256 (books d))).
Proof.
  intros H Hp well_published.
  apply (feed_books rs [] _ _ _ _ (accepted_new _ _ _ _) (books_inv_new _ _ _ _)) in H; [|done].
  simpl in H. split; [apply H|]. intros Hpub. by apply books_inv_digest with cs.
Qed.
End Digest.

(** ** A demonstration stream *)
Definition demo_hex : string := String.concat "" (replicate 64 "a").

Definition demo_initial : json := JObj
  [("pins", JArr [JObj [("derivative_address", JStr demo_hex); ("receipt_sha256", JStr demo_hex)]]);
   ("start_ns", JStr "10"); ("end_ns", JStr "20"); ("lower_bound", JStr "clip");
   ("plans", JArr [JObj [("instrument", JStr "kalshi:A"); ("orientation", JStr "outcome");
                         ("lane", JStr "l"); ("venue", JStr "kalshi");
                         ("price_scale", JStr "2"); ("quantity_scale", JStr "2")]]);
   ("groups", JArr [JStr "g"]); ("max_entry_bytes", JStr "1000");
   ("max_queue_bytes", JStr "2000")].

Definition demo_transition (previous : Z) (decision : json) : json := JObj
  [("key", JObj [("instrument", JStr "kalshi:A"); ("orientation", JStr "outcome")]);
   ("revision", JStr (str_int (previous + 1))); ("previous_revision", JStr (str_int previous));
   ("dependency", JNull); ("decision", decision)].

Definition demo_cut (ts : list json) : json :=
  JObj [("origin", JNull); ("book_transitions", JArr ts)].

Definition demo_record (sequence : Z) (kind : string) (body : json) : data :=
  Data true 500 (Some (JObj
    [("version", JStr "2"); ("run_id", JStr "r"); ("attempt_id", JStr "a");
     ("sequence", JStr (str_int sequence)); ("kind", JStr kind); ("body", body)])).

Definition demo_snapshot : json :=
  JObj [("kind", JStr "snapshot"); ("bids", wire_rows demo_bids); ("asks", wire_rows demo_asks)].
Definition demo_operations : json :=
  JObj [("kind", JStr "operations"); ("operations", demo_ops)].

Definition demo_stream : list data :=
  [demo_record 0 "initial" demo_initial;
   demo_record 1 "cut" (demo_cut [demo_transition 0 demo_snapshot]);
   demo_record 2 "cut" (demo_cut [demo_transition 1 demo_operations;
                                  demo_transition 2 (JObj [("kind", JStr "invalidation");
                                                           ("reason", JNull)])]);
   demo_record 3 "cut" (demo_cut [])].

Definition demo_decoder : Decoder := new_decoder "r" "a" demo_initial 1000.

Lemma stream_accepts_one_run_witness :
  let '(d, cs, e) := feed id (demo_stream ++ [demo_record 7 "cut" (demo_cut [])]) demo_decoder in
  map cut_sequence cs = [0; 1; 2; 3] ∧
  ∀ r, apply id r d = (d, Err (ProtocolError "closed decoder")).
Proof.
  destruct (feed id (demo_stream ++ [demo_record 7 "cut" (demo_cut [])]) demo_decoder)
    as [[d cs] e] eqn:E.
  destruct (stream_accepts_one_run id "r" "a" demo_initial 1000 _ d cs e E) as (H1 & _ & _ & H2).
  assert (∃ msg, e = Some msg ∧ length cs = 4%nat) as (msg & -> & Hlen).
  { vm_compute in E. injection E as <- <- <-. eexists. split; reflexivity. }
  rewrite Hlen in H1. split; [exact H1 | exact H2].
Defined.

Lemma revisions_count_transitions_witness :
  let '(d, cs, e) := feed id demo_stream demo_decoder in
  poisoned d = false ∧ revision <$> (books d !! ("kalshi:A", "outcome")) = Some 3.
Proof.
  destruct (feed id demo_stream demo_decoder) as [[d cs] e] eqn:E.
  pose proof (revisions_count_transitions id "r" "a" demo_initial 1000 _ d cs e E) as H.
  assert (poisoned d = false ∧ is_Some (books d !! ("kalshi:A", "outcome")) ∧
          revisions_for ("kalshi:A", "outcome") cs = 3) as (Hp & [b Hb] & Hr).
  { vm_compute in E. injection E as <- <- <-. split_and!; [reflexivity|by eexists|reflexivity]. }
  split; [done|]. rewrite Hb. simpl. f_equal. rewrite <- Hr. by apply (H Hp).
Defined.
