(* ===== verification/FillChecks.v ===== *)
(** * Fill checks ([src/replay/economic_sdk/fills.py])

    The closed fill policy, the pricing of one fill at one committed instant with
    its per-leg kill prices, and the kill test of a live fill.  A rational is a [Q];
    the dataclasses of [economic_sdk/types.py] are records; the view of a leg is
    reduced to the four fields this module reads. *)
From Stdlib Require Import QArith.
From stdpp Require Import list strings gmap.
From S2P Require Import Prelude Wire EconomicFills.
#[local] Open Scope Z_scope.

Definition FILL_LIVE : string := "FILL_LIVE".
Definition FILL_DEPTH_SHORT : string := "FILL_DEPTH_SHORT".
Definition FILL_VALUE_UNKNOWN : string := "FILL_VALUE_UNKNOWN".
Definition FILL_NONPOSITIVE : string := "FILL_NONPOSITIVE".
Definition NO_FILL_PRECEDENCE : list string :=
  [FILL_DEPTH_SHORT; FILL_VALUE_UNKNOWN; FILL_NONPOSITIVE].
Definition GOVERNS : string := "governs".
Definition RECORDS : string := "records".
Definition BUY_SOURCES : list string := ["ask"; "kalshi_complement_ask"].
Definition SELL_SOURCES : list string := ["bid"; "kalshi_complement_bid"].
Definition FILL_SOURCES : list string := BUY_SOURCES ++ SELL_SOURCES.
Definition MAX_SIZINGS : Z := 8.
Definition MAX_CONSUMED_LEVELS : Z := 1024.
Definition MAX_END_REASON : nat := 128.

Record FillSpec := mkFillSpec { sources : list string; units : list Z }.
Record FillSizing := mkFillSizing {
  sizing_name : string;
  role : string;
  mode : string;
  target_contracts : option string;
  target_steps : option Z;
}.
Record FillPolicy := mkFillPolicy {
  kind : string;
  step_contracts : string;
  max_levels : Z;
  sizings : list FillSizing;
}.

(** ** The closed policy *)

(** The integer and fraction characters of a text, split at its first point. *)
Fixpoint split_point (l : list Ascii.ascii) : list Ascii.ascii * option (list Ascii.ascii) :=
  match l with
  | [] => ([], None)
  | c :: l => if code c =? 46 then ([], Some l)
              else let '(a, b) := split_point l in (c :: a, b)
  end.

(** [[0-9]*[1-9]]. *)
Definition fraction_digits (l : list Ascii.ascii) : bool :=
  match rev l with
  | c :: _ => forallb is_digit l && negb (code c =? 48)
  | [] => false
  end.

(** [_DECIMAL.fullmatch]. *)
Definition is_decimal (l : list Ascii.ascii) : bool :=
  let '(a, b) := split_point l in
  canonical a && match b with None => true | Some b => fraction_digits b end.

(** [Fraction(text)] of a canonical decimal. *)
Definition decimal_value (l : list Ascii.ascii) : Q :=
  let '(a, b) := split_point l in
  let frac := default [] b in
  Qmake (digits_value (a ++ frac)) (Z.to_pos (10 ^ Z.of_nat (length frac))).

Definition contracts (value : json) : result Q :=
  match value with
  | JStr s =>
      _ ← require (is_decimal (chars s)) "fill contracts must be canonical decimal strings";
      let value := decimal_value (chars s) in
      _ ← require (0 <? Qnum value) "fill contracts must be positive";
      Ok value
  | _ => Err (ProtocolError "fill contracts must be canonical decimal strings")
  end.

(** [q.denominator == 1] and [int(q)]. *)
Definition is_integral (q : Q) : bool := Zpos (Qden (Qred q)) =? 1.
Definition integral (q : Q) : Z := Qnum (Qred q).

(** [_NAME.fullmatch]. *)
Definition is_name (l : list Ascii.ascii) : bool :=
  (1 <=? length l)%nat && (length l <=? 64)%nat &&
  forallb (λ c, is_digit c || ((65 <=? code c) && (code c <=? 90))
             || ((97 <=? code c) && (code c <=? 122))
             || existsb (Z.eqb (code c)) [95; 46; 45]) l.

Definition has_key (d : dict) (k : string) : bool := in_list (keys d) k.

Definition sizing (value : json) (step : Q) : result FillSizing :=
  match value with
  | JObj d =>
      _ ← require (has_key d "name" && has_key d "role") "fill sizing";
      let modes := filter (λ f, has_key d f = true) ["target_contracts"; "edge"] in
      match modes with
      | [field] =>
          _ ← obj value ["name"; "role"; field];
          n ← jget value "name";
          name ← match n with
                 | JStr s => _ ← require (is_name (chars s)) "fill sizing name"; Ok s
                 | _ => Err (ProtocolError "fill sizing name")
                 end;
          r ← jget value "role";
          role ← match r with
                 | JStr s => _ ← require (in_list [GOVERNS; RECORDS] s) "fill sizing role"; Ok s
                 | _ => Err (ProtocolError "fill sizing role")
                 end;
          v ← jget value field;
          if String.eqb field "target_contracts" then
            target ← contracts v;
            let ratio := Qdiv target step in
            _ ← require (is_integral ratio) "fill target must be a whole number of steps";
            text ← as_str v;
            Ok (mkFillSizing name role "target" (Some text) (Some (integral ratio)))
          else
            _ ← require (match v with JBool true => true | _ => false end)
                  "fill edge sizing must be true";
            Ok (mkFillSizing name role "edge" None None)
      | _ => Err (ProtocolError "a fill sizing has exactly one mode")
      end
  | _ => Err (ProtocolError "fill sizing")
  end.

Definition is_int (value : json) (ok : Z → bool) : bool :=
  match value with JInt n => ok n | _ => false end.

Definition fill_policy (value kind : json) : result FillPolicy :=
  _ ← obj value ["version"; "step_contracts"; "max_levels"; "sizings"];
  v ← jget value "version";
  _ ← require (is_int v (Z.eqb 1)) "fill policy version";
  sc ← jget value "step_contracts"; step ← contracts sc;
  lv ← jget value "max_levels";
  levels ← match lv with
           | JInt n => _ ← require ((1 <=? n) && (n <=? MAX_CONSUMED_LEVELS)) "fill max_levels"; Ok n
           | _ => Err (ProtocolError "fill max_levels")
           end;
  sv ← jget value "sizings";
  l ← match sv with
      | JArr l => _ ← require ((1 <=? Z.of_nat (length l)) && (Z.of_nat (length l) <=? MAX_SIZINGS))
                        "fill sizings"; Ok l
      | _ => Err (ProtocolError "fill sizings")
      end;
  rows ← mapR (λ s, sizing s step) l;
  _ ← require (bool_decide (NoDup (map sizing_name rows))) "fill sizing names must be unique";
  _ ← require (existsb (λ s, String.eqb (role s) GOVERNS) rows) "a fill sizing must govern";
  k ← match kind with
      | JStr s => _ ← require (negb (String.eqb s "")) "fill trigger kind"; Ok s
      | _ => Err (ProtocolError "fill trigger kind")
      end;
  step_text ← as_str sc;
  Ok (mkFillPolicy k step_text levels rows).

Definition step_atoms (policy : FillPolicy) (quantity_scale : Z) (ratio : Q) : result Z :=
  c ← contracts (JStr (step_contracts policy));
  let atoms := Qmult (Qmult c ratio) (inject_Z (10 ^ quantity_scale)) in
  _ ← require (is_integral atoms && (0 <? integral atoms))
        "fill step is not a whole number of quantity atoms";
  Ok (integral atoms).

(** The static checks on an experiment and on an entity's spec; [layout],
    [has_controls] and [kinds] are the experiment's fields, [legs] the entity's
    number of legs. *)
Definition check_experiment (fills : option FillPolicy) (layout : Z) (has_controls : bool)
    (kinds : list string) : result () :=
  match fills with
  | None => Ok ()
  | Some policy =>
      _ ← require (layout =? 2) "fill checks require output layout 2";
      _ ← require (negb has_controls) "controls are not supported with fill checks (deferred)";
      require (in_list kinds (kind policy)) "fill trigger kind must be a declared episode kind"
  end.

Definition check_spec (spec : FillSpec) (legs : nat) : result () :=
  _ ← require ((length (sources spec) =? length (units spec))%nat
               && (length (units spec) =? legs)%nat) "fill spec shape";
  _ ← require (forallb (in_list FILL_SOURCES) (sources spec)) "fill ladder source";
  require (forallb (λ u, 0 <? u) (units spec)) "fill units".

(** ** Kill prices *)
Definition sells (sources : list string) : list bool := map (in_list SELL_SOURCES) sources.

Definition reached (best : Z) (kill : option Z) (sell : bool) : bool :=
  match kill with
  | None => false
  | Some kill => if sell then best <=? kill else kill <=? best
  end.

Definition tighter (current kill : option Z) (sell : bool) : option Z :=
  match current, kill with
  | None, _ => kill
  | _, None => current
  | Some c, Some k => Some (if sell then Z.max c k else Z.min c k)
  end.

(** The fields of a [BookView] that fill checks read. *)
Record fill_view := FillView {
  view_validity : string;
  view_reason : json;
  view_crossed : bool;
  ladders_of : gmap string (list level);
}.

Definition str_level (l : option level) : json :=
  match l with
  | None => JNull
  | Some (p, q) => JArr [JStr (str_int p); JStr (str_int q)]
  end.
Definition str_pairs (ls : list level) : json := JArr (map (λ l, str_level (Some l)) ls).
Definition str_optional (o : option Z) : json :=
  match o with None => JNull | Some n => JStr (str_int n) end.

Definition end_book (source : string) (view : fill_view) : result json :=
  let kind := match view_reason view with JObj d => get_or_none d "kind" | _ => JNull end in
  _ ← require (match kind with
               | JNull => true
               | JStr s => (String.length s <=? MAX_END_REASON)%nat
               | _ => false
               end) "fill end book reason";
  let ladder := if String.eqb (view_validity view) "usable" then ladders_of view !! source else None in
  Ok (JObj [("validity", JStr (view_validity view)); ("reason", kind);
            ("crossed", JBool (view_crossed view));
            ("best", str_level (match ladder with Some (l :: _) => Some l | _ => None end))]).

Definition end_books (sources : list string) (views : list fill_view) : result json :=
  rows ← mapR (λ sv, end_book sv.1 sv.2) (zip2 sources views); Ok (JArr rows).

(** ** Pricing *)
Definition walk_sizing (s : FillSizing) (ladders : list (list level)) (units : list Z)
    (value : valuation) (max_levels : Z) : result BasketFill :=
  let cap := Some (Z.to_nat max_levels) in
  results ← (if String.eqb (mode s) "target" then
               match target_steps s with
               | Some t => walk_basket ladders units [t] (Some value) false cap
               | None => Err (ValueError "positive integer targets required")
               end
             else walk_basket ladders units [] (Some value) true cap);
  match results with
  | [r] => Ok r
  | _ => Err (ValueError "unpack")
  end.

(** [result.steps < sizing.target_steps], or an edge walk that depth left at zero. *)
Definition is_short (s : FillSizing) (r : BasketFill) : result bool :=
  if String.eqb (mode s) "target" then
    match target_steps s with
    | Some t => Ok (steps r <? t)
    | None => Err (TypeError "NoneType")
    end
  else Ok ((steps r =? 0) && negb (String.eqb (stop r) "edge")).

(** [any(reached(before[0], kill, side) for ...)]. *)
Fixpoint any_reached (kills : list (option Z)) (before : list (option level)) (sell : list bool)
    : result bool :=
  match kills, before, sell with
  | kill :: kills, level :: before, side :: sell =>
      match level with
      | None => Err (TypeError "NoneType")
      | Some (best, _) =>
          if reached best kill side then Ok true else any_reached kills before sell
      end
  | _, _, _ => Ok false
  end.

Definition leg_kill (value : valuation) (r : BasketFill) (maxima : list Z) (sell : list bool)
    (leg : nat) : result (option Z) :=
  match maxima !! leg, sell !! leg with
  | Some maximum, Some side => kill_price value (steps r) (legs r) leg maximum side
  | _, _ => Err IndexError
  end.

(** The value of a sizing that took steps is a known positive integer. *)
Definition is_positive (r : BasketFill) : bool :=
  negb (steps r =? 0) && match EconomicFills.value r with Some v => 0 <? v | None => false end.

Definition assess (s : FillSizing) (r : BasketFill) (value : valuation) (maxima : list Z)
    (sell : list bool) : result (option (list (option Z)) * option string) :=
  short ← is_short s r;
  if short && String.eqb (role s) GOVERNS then Ok (None, Some FILL_DEPTH_SHORT) else
  kills ← (if is_positive r
           then ks ← mapR (leg_kill value r maxima sell) (seq 0 (length (legs r))); Ok (Some ks)
           else Ok None);
  if (short : bool) then Ok (kills, Some FILL_DEPTH_SHORT) else
  if negb (steps r =? 0) && match EconomicFills.value r with None => true | _ => false end
  then Ok (kills, Some FILL_VALUE_UNKNOWN) else
  match kills with
  | None => Ok (kills, Some FILL_NONPOSITIVE)
  | Some ks =>
      hit ← any_reached ks (before r) sell;
      Ok (kills, if (hit : bool) then Some FILL_NONPOSITIVE else None)
  end.

Definition leg_row (f : Fill) : json :=
  JObj [("atoms", JStr (str_int (filled_atoms f))); ("cost", JStr (str_int (cost f)));
        ("taken", str_pairs (taken f)); ("consumed", str_pairs (consumed f))].

Definition row (s : FillSizing) (r : BasketFill) (kills : option (list (option Z)))
    (reason : option string) : json :=
  JObj [("name", JStr (sizing_name s)); ("role", JStr (role s)); ("mode", JStr (mode s));
        ("steps", JStr (str_int (steps r))); ("stop", JStr (stop r));
        ("value", str_optional (EconomicFills.value r));
        ("legs", JArr (map leg_row (legs r)));
        ("before", JArr (map str_level (before r)));
        ("after", JArr (map str_level (after r)));
        ("impact_ppm", JArr (map str_optional (impact_ppm r)));
        ("beyond", JArr (map str_pairs (beyond r)));
        ("tradeable", JBool (match reason with None => true | Some _ => false end));
        ("kill_prices", match kills with None => JNull | Some ks => JArr (map str_optional ks) end)].

Record Priced := mkPriced {
  state : string;
  kill : option (list (option Z));
  priced_json : option json;
}.

(** What pricing one sizing yields: its fill, kill prices and no-fill reason. *)
Definition sizing_price := (BasketFill * option (list (option Z)) * option string)%type.

Definition price_sizing (policy : FillPolicy) (spec : FillSpec) (ladders : list (list level))
    (maxima : list Z) (value : valuation) (s : FillSizing) : result sizing_price :=
  r ← walk_sizing s ladders (units spec) value (max_levels policy);
  a ← assess s r value maxima (sells (sources spec));
  Ok (r, a.1, a.2).

Definition governs (s : FillSizing) : bool := String.eqb (role s) GOVERNS.

(** The first loop, lines 256-263: [governing] holds the entry of each sizing that
    governs. *)
Definition price_governing (policy : FillPolicy) (spec : FillSpec) (ladders : list (list level))
    (maxima : list Z) (value : valuation) : result (list (option sizing_price)) :=
  mapR (λ s, if governs s
             then p ← price_sizing policy spec ladders maxima value s; Ok (Some p)
             else Ok None) (sizings policy).

Definition reasons_of (governing : list (option sizing_price)) : list string :=
  omap (λ g, match g with Some (_, _, reason) => reason | None => None end) governing.

(** [tighter] leg by leg, as [zip] aligns them. *)
Fixpoint tighten (effective kills : list (option Z)) (sell : list bool) : list (option Z) :=
  match effective, kills, sell with
  | e :: effective, k :: kills, s :: sell => tighter e k s :: tighten effective kills sell
  | _, _, _ => []
  end.

(** The second loop, lines 268-276. *)
Fixpoint price_rows (policy : FillPolicy) (spec : FillSpec) (ladders : list (list level))
    (maxima : list Z) (value : valuation) (entries : list (FillSizing * option sizing_price))
    (effective : list (option Z)) (rows : list json)
    : result (list (option Z) * list json) :=
  match entries with
  | [] => Ok (effective, rows)
  | (s, Some (r, kills, reason)) :: entries =>
      match kills with
      | None => Err (TypeError "NoneType")
      | Some ks => price_rows policy spec ladders maxima value entries
                     (tighten effective ks (sells (sources spec))) (rows ++ [row s r kills reason])
      end
  | (s, None) :: entries =>
      p ← price_sizing policy spec ladders maxima value s;
      let '(r, kills, reason) := p in
      price_rows policy spec ladders maxima value entries effective (rows ++ [row s r kills reason])
  end.

Definition price (policy : FillPolicy) (spec : FillSpec) (ladders : list (list level))
    (maxima : list Z) (value : valuation) : result Priced :=
  governing ← price_governing policy spec ladders maxima value;
  let reasons := reasons_of governing in
  match reasons with
  | _ :: _ =>
      match filter (λ r, in_list reasons r = true) NO_FILL_PRECEDENCE with
      | r :: _ => Ok (mkPriced r None None)
      | [] => Err (TypeError "StopIteration")
      end
  | [] =>
      er ← price_rows policy spec ladders maxima value (zip2 (sizings policy) governing)
             (map (λ _, None) ladders) [];
      Ok (mkPriced FILL_LIVE (Some er.1) (Some (JObj
        [("sources", JArr (map JStr (sources spec)));
         ("units", JArr (map (λ u, JStr (str_int u)) (units spec)));
         ("results", JArr er.2); ("kill_prices", JArr (map str_optional er.1));
         ("kill_leg", JNull); ("kill_best", JNull); ("end_books", JNull)])))
  end.

(** [crossed]: the first leg whose best walked price has reached its kill price. *)
Fixpoint crossed_from (leg : nat) (kill : list (option Z)) (sources : list string)
    (views : list fill_view) : result (option (nat * level)) :=
  match kill, sources, views with
  | limit :: kill, source :: sources, view :: views =>
      match limit with
      | None => crossed_from (S leg) kill sources views
      | Some _ =>
          match ladders_of view !! source with
          | None => Err KeyError
          | Some [] => crossed_from (S leg) kill sources views
          | Some (best :: _) =>
              if reached best.1 limit (in_list SELL_SOURCES source) then Ok (Some (leg, best))
              else crossed_from (S leg) kill sources views
          end
      end
  | _, _, _ => Ok None
  end.

Definition crossed (kill : list (option Z)) (sources : list string) (views : list fill_view)
    : result (option (nat * level)) := crossed_from 0 kill sources views.

(** ** Well-formed pricing arguments *)

(** What [fill_policy] guarantees of each sizing. *)
Definition sizing_ok (s : FillSizing) : Prop :=
  (mode s = "target"%string ∧ ∃ t, target_steps s = Some t ∧ 0 < t)
  ∨ (mode s = "edge"%string ∧ target_steps s = None).

Record policy_ok (p : FillPolicy) : Prop := PolicyOk {
  po_sizings : Forall sizing_ok (sizings p);
  po_governs : Exists (λ s, role s = GOVERNS) (sizings p);
  po_names : NoDup (map sizing_name (sizings p));
  po_count : 1 ≤ Z.of_nat (length (sizings p)) ≤ MAX_SIZINGS;
  po_levels : 1 ≤ max_levels p ≤ MAX_CONSUMED_LEVELS;
}.

Record instant_ok (spec : FillSpec) (ladders : list (list level)) (maxima : list Z) : Prop := InstantOk {
  io_ladders : Forall (Forall level_ok) ladders;
  io_units : Forall (λ u, 0 < u) (units spec);
  io_length : length ladders = length (units spec);
  io_sources : length (sources spec) = length (units spec);
  io_nonempty : units spec ≠ [];
  io_maxima : Forall (λ m, 0 ≤ m) maxima;
  io_maxima_length : length maxima = length (units spec);
}.

(** ** The policy parser *)
Lemma integral_spec q : is_integral q = true → inject_Z (integral q) == q.
Proof.
  unfold is_integral, integral. intros H%Z.eqb_eq. rewrite <- (Qred_correct q) at 2.
  destruct (Qred q) as [n d]. simpl in *. injection H as ->. done.
Qed.

Lemma contracts_ok v q : contracts v = Ok q → (0 < q)%Q.
Proof.
  unfold contracts. destruct v; try done. intros H. res_inv.
  match goal with H : (0 <? _) = true |- _ => apply Z.ltb_lt in H; rename H into Hn end.
  unfold Qlt. simpl. lia.
Qed.

Lemma sizing_parsed v step s :
  sizing v step = Ok s → (0 < step)%Q →
  sizing_ok s ∧
  (∀ t, target_steps s = Some t → ∃ text c, target_contracts s = Some text ∧
     contracts (JStr text) = Ok c ∧ inject_Z t * step == c)%Q.
Proof.
  intros H Hstep. unfold sizing in H. destruct v as [| | | | | | | |d]; try done. res_inv.
  destruct (filter _ _) as [|field [|]]; try done. res_inv.
  destruct (String.eqb field "target_contracts"); res_inv.
  - match goal with H : contracts ?v = Ok ?c |- _ => rename H into Hc; rename c into target; rename v into tv end.
    match goal with H : is_integral _ = true |- _ => apply integral_spec in H; rename H into Hi end.
    assert (inject_Z (integral (target / step)) * step == target)%Q as Heq.
    { rewrite Hi. rewrite Qmult_comm, Qmult_div_r; [done|]. intros E. rewrite E in Hstep. discriminate. }
    split.
    + left. split; [done|]. eexists. split; [done|]. apply contracts_ok in Hc.
      set (t := integral (target / step)) in *.
      destruct (Z.le_gt_cases t 0) as [Hle|]; [|lia]. exfalso.
      apply (Qlt_not_le _ _ Hc). rewrite <- Heq.
      assert (inject_Z t <= 0)%Q as Ht by (unfold Qle; simpl; lia).
      apply (Qmult_le_compat_r _ _ step) in Ht; [|by apply Qlt_le_weak].
      by rewrite Qmult_0_l in Ht.
    + intros t [= <-]. destruct tv as [| | | | | |text| |]; try done.
       match goal with H : as_str _ = _ |- _ => injection H as <- end.
      exists text, target. split_and!; [done|exact Hc|exact Heq].
  - split; [by right|]. done.
Qed.

Lemma fill_policy_parsed v k p :
  fill_policy v k = Ok p →
  policy_ok p ∧
  ∃ step, contracts (JStr (step_contracts p)) = Ok step ∧ (0 < step)%Q ∧
    Forall (λ s, ∀ t, target_steps s = Some t → ∃ text c, target_contracts s = Some text ∧
              contracts (JStr text) = Ok c ∧ (inject_Z t * step == c)%Q) (sizings p).
Proof.
  intros H. unfold fill_policy in H. apply bind_ok in H as (? & _ & H).
  apply bind_ok in H as (? & _ & H). apply bind_ok in H as (? & _ & H).
  apply bind_ok in H as (sc & _ & H). apply bind_ok in H as (step & Hstep & H).
  apply bind_ok in H as (lv & _ & H). apply bind_ok in H as (levels & Hlv & H).
  apply bind_ok in H as (sv & _ & H). apply bind_ok in H as (l & Hl & H).
  apply bind_ok in H as (rows & Hrows & H). apply bind_ok in H as (? & Hnd%require_ok & H).
  apply bind_ok in H as (? & Hgov%require_ok & H). apply bind_ok in H as (kd & _ & H).
  apply bind_ok in H as (txt & Htxt & [= <-]).
  destruct sc as [| | | | | |sct| |]; try done. injection Htxt as ->.
  apply contracts_ok in Hstep as Hpos. apply mapR_ok in Hrows.
  assert (Forall (λ s, sizing_ok s ∧ ∀ t, target_steps s = Some t → ∃ text c,
    target_contracts s = Some text ∧ contracts (JStr text) = Ok c ∧ (inject_Z t * step == c)%Q) rows) as Hall.
  { clear -Hrows Hpos. induction Hrows as [|v s ? ? Hs _ IH]; [constructor|].
    constructor; [by apply (sizing_parsed v step s)|done]. }
  assert (1 ≤ Z.of_nat (length l) ≤ MAX_SIZINGS) as Hcount.
  { destruct sv; try done. apply bind_ok in Hl as (? & Hr%require_ok & [= <-]).
    by apply andb_true_iff in Hr as [?%Z.leb_le ?%Z.leb_le]. }
  rewrite (Forall2_length _ _ _ Hrows) in Hcount.
  split.
  - split; simpl; [by eapply Forall_impl; [exact Hall|]; intros ? []| | |done|].
    + apply existsb_exists in Hgov as (s & Hs & Hr). apply Exists_exists. exists s.
      split; [by apply list_elem_of_In|by apply String.eqb_eq].
    + by apply bool_decide_eq_true in Hnd.
    + destruct lv; try done. apply bind_ok in Hlv as (? & Hr%require_ok & [= <-]).
      by apply andb_true_iff in Hr as [?%Z.leb_le ?%Z.leb_le].
  - exists step. split_and!; [done..|]. eapply Forall_impl; [exact Hall|]. by intros ? [].
Qed.

Lemma step_atoms_spec p scale ratio a :
  step_atoms p scale ratio = Ok a →
  0 < a ∧ ∃ c, contracts (JStr (step_contracts p)) = Ok c ∧
    (inject_Z a == c * ratio * inject_Z (10 ^ scale))%Q.
Proof.
  intros H. unfold step_atoms in H. apply bind_ok in H as (c & Hc & H).
  apply bind_ok in H as (? & Hr%require_ok & [= <-]). apply andb_true_iff in Hr as [Hi Hp%Z.ltb_lt].
  split; [done|]. exists c. split; [done|]. by apply integral_spec.
Qed.

(** ** Pricing one sizing *)
Section Pricing.
Context (policy : FillPolicy) (spec : FillSpec) (ladders : list (list level))
        (maxima : list Z) (value : valuation).
Context (Hcap : 1 ≤ max_levels policy) (Hi : instant_ok spec ladders maxima).

Let sell := sells (sources spec).

(** What a walked sizing looks like. *)
Definition walked (r : BasketFill) : Prop :=
  0 ≤ steps r ∧ Forall2 (exact_fill (steps r)) (units spec) (legs r) ∧
  before r = map head ladders ∧ legs r = ref_legs ladders (units spec) (steps r).

Lemma basket_args_of targets edge :
  forallb (λ t, 0 <? t) targets = true → increasing targets = true → targets ≠ [] ∨ edge = true →
  basket_args ladders (units spec) targets (Some value) edge (Some (Z.to_nat (max_levels policy))).
Proof.
  intros. destruct Hi. split; try done. intros [= E]. lia.
Qed.

Lemma walked_before r rs targets edge :
  walk_basket ladders (units spec) targets (Some value) edge (Some (Z.to_nat (max_levels policy)))
    = Ok rs → r ∈ rs → length (legs r) = length (units spec) → before r = map head ladders.
Proof.
  intros H Hr Hlen. destruct Hi. apply walk_basket_heads in H. rewrite Forall_forall in H.
  apply (H r Hr); congruence.
Qed.

Lemma walk_sizing_ok s :
  sizing_ok s →
  ∃ r, walk_sizing s ladders (units spec) value (max_levels policy) = Ok r ∧ walked r.
Proof.
  intros [(Hm & t & Ht & Hpos)|[Hm Ht]]; unfold walk_sizing; rewrite Hm, Ht; cbn [String.eqb Ascii.eqb Bool.eqb].
  - assert (basket_args ladders (units spec) [t] (Some value) false (Some (Z.to_nat (max_levels policy)))) as Hargs.
    { apply basket_args_of; [simpl; by destruct (Z.ltb_spec 0 t); [|lia]|done|by left]. }
    destruct (walk_basket_ok _ _ _ _ _ _ Hargs) as (rs & tail & bs & E & _ & Hrs & ->).
    pose proof (limit_bounds _ _ _ _ _ _ Hargs) as [Hlim _].
    inversion Hrs as [|? r ? rs' (Hst & Hlegs & Hex) Hnil]; subst. inversion Hnil; subst.
    destruct Hst as (Hst & Hlegs' & Hex'). rewrite E. exists r. split; [done|]. unfold walked.
    rewrite Hst in *. split_and!; [lia|done| |done].
    eapply walked_before; [exact E|left|]. by rewrite <- (Forall2_length _ _ _ Hex').
  - assert (basket_args ladders (units spec) [] (Some value) true (Some (Z.to_nat (max_levels policy)))) as Hargs.
    { apply basket_args_of; [done|done|by right]. }
    destruct (walk_basket_ok _ _ _ _ _ _ Hargs) as (rs & tail & bs & E & _ & Hrs & v & r & _ & -> & Hr).
    inversion Hrs; subst. destruct Hr as ((Hst & Hlegs & Hex) & Hn & _).
    simpl in E. rewrite E. exists r. split; [done|]. split_and!; [lia|done| |done].
    eapply walked_before; [exact E|left|]. by rewrite <- (Forall2_length _ _ _ Hex).
Qed.

(** A walked fill that took steps has filled every leg, from a nonempty ladder. *)
Lemma walked_legs r leg :
  walked r → 0 < steps r → (leg < length (legs r))%nat →
  ∃ f, legs r !! leg = Some f ∧ 0 < filled_atoms f.
Proof.
  intros (_ & Hex & _) Hs Hleg. apply lookup_lt_is_Some_2 in Hleg as [f Hf].
  destruct (Forall2_lookup_r _ _ _ _ _ Hex Hf) as (u & Hu & (Hfill & _)).
  exists f. split; [done|]. destruct Hi. rewrite Hfill.
  apply (Forall_lookup_1 _ _ _ _ io_units0) in Hu. nia.
Qed.

Lemma leg_kills_ok r :
  walked r → 0 < steps r →
  ∃ ks, mapR (leg_kill value r maxima sell) (seq 0 (length (legs r))) = Ok ks ∧
        length ks = length (units spec).
Proof.
  intros Hw Hs. destruct (mapR_exists (leg_kill value r maxima sell) (λ _ _, True)
    (seq 0 (length (legs r)))) as (ks & E & Hks).
  - apply Forall_forall. intros leg Hleg%elem_of_seq.
    destruct (walked_legs r leg Hw Hs ltac:(lia)) as (f & Hf & Hpos).
    destruct Hw as (_ & Hex & _). apply Forall2_length in Hex. destruct Hi.
    destruct (lookup_lt_is_Some_2 maxima leg ltac:(lia)) as [m Hm].
    assert (length sell = length (units spec)) as Hsl by (unfold sell, sells; by rewrite length_map).
    destruct (lookup_lt_is_Some_2 sell leg ltac:(lia)) as [side Hside].
    unfold leg_kill. rewrite Hm, Hside.
    destruct (kill_price_cases value (steps r) (legs r) leg m side f) as (ko & Ek & _); eauto.
    by apply (Forall_lookup_1 _ _ _ _ io_maxima0) in Hm.
  - exists ks. split; [done|]. apply Forall2_length in Hks. rewrite <- Hks, length_seq.
    destruct Hw as (_ & Hex & _). by apply Forall2_length in Hex.
Qed.

(** Every ladder a fill took steps from has a best level. *)
Lemma walked_ladders r : walked r → 0 < steps r → Forall (λ l, l ≠ []) ladders.
Proof.
  intros (_ & Hex & _ & Hlegs) Hs. destruct Hi. rewrite Hlegs in Hex. clear Hlegs.
  revert io_units0 io_length0 Hex. generalize (units spec) as us.
  clear -Hs. induction ladders as [|l ls IH]; intros [|u us]; try done.
  intros [Hu Hus]%Forall_cons [= Hlen] Hex. simpl in Hex. apply Forall2_cons in Hex as [(Hf & _) Hex].
  constructor; [|eauto]. intros ->. unfold ref_fill in Hf. simpl in Hf. unfold depth in Hf. simpl in Hf. nia.
Qed.

(** Some leg's best level has reached its kill price. *)
Fixpoint hit (ks : list (option Z)) (ls : list (list level)) (sides : list bool) : bool :=
  match ks, ls, sides with
  | k :: ks, l :: ls, s :: sides =>
      match l with (p, _) :: _ => reached p k s | [] => false end || hit ks ls sides
  | _, _, _ => false
  end.

Lemma any_reached_hit ks ls sides :
  Forall (λ l, l ≠ []) ls → any_reached ks (map head ls) sides = Ok (hit ks ls sides).
Proof.
  intros H. revert ks sides. induction H as [|[|[p q] l] ls Hl _ IH]; intros [|k ks] [|s sides]; try done.
  simpl. destruct (reached p k s); [done|]. by rewrite IH.
Qed.

(** What [assess] says of a walked sizing. *)
Definition assessed (s : FillSizing) (r : BasketFill) (kills : option (list (option Z)))
    (reason : option string) : Prop :=
  match reason with
  | None => ∃ ks, kills = Some ks ∧ length ks = length (units spec) ∧ is_positive r = true ∧
              is_short s r = Ok false ∧ hit ks ladders sell = false
  | Some x => x ∈ NO_FILL_PRECEDENCE
  end.

Lemma assess_ok s r :
  walked r → sizing_ok s →
  ∃ kills reason, assess s r value maxima sell = Ok (kills, reason) ∧ assessed s r kills reason.
Proof.
  intros Hw Hs. unfold assess.
  assert (∃ short, is_short s r = Ok short) as [short Hshort].
  { unfold is_short. destruct Hs as [(-> & t & -> & _)|[-> _]]; simpl; eauto. }
  rewrite Hshort. cbn [mbind result_bind].
  destruct (short && String.eqb (role s) GOVERNS) eqn:E.
  { eexists _, _. split; [done|]. left. }
  assert (∃ kills, (if is_positive r
     then ks ← mapR (leg_kill value r maxima sell) (seq 0 (length (legs r))); Ok (Some ks)
     else Ok None) = Ok kills ∧
     (is_positive r = true → 0 < steps r ∧ ∃ ks, kills = Some ks ∧ length ks = length (units spec)) ∧
     (is_positive r = false → kills = None)) as (kills & -> & Hyes & Hno).
  { destruct (is_positive r) eqn:Ep; [|by exists None]. unfold is_positive in Ep.
    apply andb_true_iff in Ep as [Hz%negb_true_iff%Z.eqb_neq _].
    assert (0 < steps r) by (destruct Hw; lia).
    destruct (leg_kills_ok r Hw) as (ks & -> & Hlen); [done|].
    exists (Some ks). split_and!; [done|eauto|done]. }
  cbn [mbind result_bind]. destruct short.
  { eexists _, _. split; [done|]. left. }
  destruct (negb (steps r =? 0) && _).
  { eexists _, _. split; [done|]. right; left. }
  destruct (is_positive r) eqn:Ep.
  - destruct Hyes as (Hpos & ks & -> & Hlen); [done|].
    assert (before r = map head ladders) as -> by apply Hw.
    rewrite any_reached_hit by (by eapply walked_ladders).
    cbn [mbind result_bind]. destruct (hit ks ladders sell) eqn:Eh; (eexists _, _; split; [done|]).
    + right; right; left.
    + exists ks. by split_and!.
  - rewrite Hno by done. eexists _, _. split; [done|]. right; right; left.
Qed.

Lemma price_sizing_ok s :
  sizing_ok s →
  ∃ r kills reason, price_sizing policy spec ladders maxima value s = Ok (r, kills, reason) ∧
    walked r ∧ assessed s r kills reason.
Proof.
  intros Hs. destruct (walk_sizing_ok s Hs) as (r & Er & Hw).
  destruct (assess_ok s r Hw Hs) as (kills & reason & Ea & Ha).
  exists r, kills, reason. unfold price_sizing. rewrite Er. cbn [mbind result_bind].
  fold sell. by rewrite Ea.
Qed.
End Pricing.

(** ** Kill prices of a live fill *)
Lemma reached_tighter p c k side : reached p (tighter c k side) side = reached p c side || reached p k side.
Proof.
  destruct c as [c|], k as [k|]; simpl; [|by rewrite orb_false_r|done|done].
  destruct side; simpl.
  - destruct (Z.leb_spec p (Z.max c k)), (Z.leb_spec p c), (Z.leb_spec p k); simpl; lia.
  - destruct (Z.leb_spec (Z.min c k) p), (Z.leb_spec c p), (Z.leb_spec k p); simpl; lia.
Qed.

Lemma hit_tighten e ks ls sides :
  length e = length ks → length ks = length sides →
  hit (tighten e ks sides) ls sides = hit e ls sides || hit ks ls sides.
Proof.
  revert ks ls sides. induction e as [|c e IH]; intros [|k ks] ls [|s sides]; try done.
  intros [= H1] [= H2]. destruct ls as [|l ls]; [done|]. simpl. rewrite IH by done.
  destruct l as [|[p q] l]; [done|]. rewrite reached_tighter.
  by destruct (reached p c s), (reached p k s), (hit e ls sides).
Qed.

Lemma length_tighten e ks sides :
  length e = length ks → length ks = length sides → length (tighten e ks sides) = length sides.
Proof.
  revert ks sides. induction e as [|c e IH]; intros [|k ks] [|s sides]; try done.
  intros [= H1] [= H2]. simpl. f_equal. by apply IH.
Qed.

Lemma hit_none {A} (l : list A) ls sides : hit (map (λ _, None) l) ls sides = false.
Proof.
  revert ls sides. induction l; intros [|[|[p q] k] ls] [|s sides]; simpl; done || auto.
Qed.

(** The views show the ladders [now] on the walked sources. *)
Inductive shows : list string → list fill_view → list (list level) → Prop :=
| shows_nil : shows [] [] []
| shows_cons source view ladder sources views now :
    ladders_of view !! source = Some ladder → shows sources views now →
    shows (source :: sources) (view :: views) (ladder :: now).

Lemma crossed_hit n ks sources views now :
  shows sources views now → length ks = length sources →
  ∃ o, crossed_from n ks sources views = Ok o ∧ (is_Some o ↔ hit ks now (sells sources) = true).
Proof.
  intros H. revert n ks. induction H as [|source view ladder sources views now Hl H IH];
    intros n [|k ks]; try done.
  - intros _. exists None. split; [done|]. split; [by intros []|done].
  - intros [= Hlen]. destruct (IH (S n) ks Hlen) as (o & Eo & Ho).
    unfold sells in *. cbn [crossed_from hit map]. destruct k as [k|].
    + rewrite Hl. destruct ladder as [|[p q] ladder]; [eauto|]. cbn [fst].
      destruct (reached p (Some k) _) eqn:E; [|eauto].
      eexists. split; [done|]. split; [done|]. by eexists.
    + exists o. split; [done|]. by destruct ladder as [|[p q] ?].
Qed.

Section Price.
Context (policy : FillPolicy) (spec : FillSpec) (ladders : list (list level))
        (maxima : list Z) (value : valuation).
Context (Hp : policy_ok policy) (Hi : instant_ok spec ladders maxima).

Let sell := sells (sources spec).

(** The outcome of pricing [s], as a function. *)
Definition outcome (s : FillSizing) : option (list (option Z)) * option string :=
  match price_sizing policy spec ladders maxima value s with
  | Ok (_, kills, reason) => (kills, reason)
  | Err _ => (None, None)
  end.

Definition governing_sizings : list FillSizing := filter (λ s, governs s = true) (sizings policy).

(** The kill prices of a sizing, when it has them. *)
Definition kills_of (s : FillSizing) : list (option Z) := default [] (outcome s).1.

Lemma outcome_ok s :
  sizing_ok s →
  ∃ r, price_sizing policy spec ladders maxima value s = Ok (r, (outcome s).1, (outcome s).2) ∧
       walked spec ladders r ∧ assessed spec ladders s r (outcome s).1 (outcome s).2.
Proof.
  intros Hs. destruct (price_sizing_ok policy spec ladders maxima value) with s
    as (r & kills & reason & E & Hw & Ha); [by destruct Hp as [_ _ _ _ []]|done..|].
  exists r. unfold outcome. rewrite E. by split_and!.
Qed.

(** An entry of the first loop. *)
Definition entry_of (s : FillSizing) (e : option sizing_price) : Prop :=
  if governs s then ∃ r, e = Some (r, (outcome s).1, (outcome s).2) else e = None.

Lemma price_governing_ok :
  ∃ g, price_governing policy spec ladders maxima value = Ok g ∧
       Forall2 entry_of (sizings policy) g ∧
       reasons_of g = omap (λ s, (outcome s).2) governing_sizings.
Proof.
  destruct (mapR_exists (λ s, if governs s
    then p ← price_sizing policy spec ladders maxima value s; Ok (Some p) else Ok None)
    entry_of (sizings policy)) as (g & E & Hg).
  { pose proof (po_sizings _ Hp) as Hs. eapply Forall_impl; [exact Hs|].
    intros s Hok. unfold entry_of. destruct (governs s); [|eauto].
    destruct (outcome_ok s Hok) as (r & -> & _). simpl. eauto. }
  exists g. split_and!; [done..|]. unfold governing_sizings, reasons_of.
  clear -Hg. induction Hg as [|s e l g He _ IH]; [done|]. unfold entry_of in He.
  rewrite filter_cons. destruct (governs s) eqn:Eg.
  - rewrite decide_True by done. destruct He as [r ->]. cbn [omap list_omap]. destruct ((outcome s).2); [f_equal|]; exact IH.
  - rewrite decide_False by congruence. subst. simpl. done.
Qed.

(** The second loop tightens by every governing sizing. *)
Lemma price_rows_ok ss g effective rows :
  Forall2 entry_of ss g → Forall sizing_ok ss →
  omap (λ s, (outcome s).2) (filter (λ s, governs s = true) ss) = [] →
  length effective = length (units spec) →
  ∃ eff rows', price_rows policy spec ladders maxima value (zip2 ss g) effective rows = Ok (eff, rows') ∧
    length eff = length (units spec) ∧
    ∀ now, hit eff now sell = hit effective now sell
      || existsb (λ s, hit (kills_of s) now sell) (filter (λ s, governs s = true) ss).
Proof.
  intros Hg. revert effective rows. induction Hg as [|s e ss g He _ IH]; intros effective rows Hok Hr Hlen.
  - simpl. eexists _, _. split_and!; [done..|]. intros. by rewrite orb_false_r.
  - apply Forall_cons in Hok as [Hs Hok]. destruct (outcome_ok s Hs) as (r & Er & Hw & Ha).
    unfold entry_of in He. rewrite filter_cons in *. destruct (governs s) eqn:Eg; cbn [zip_with price_rows].
    + rewrite decide_True in * by done. destruct He as [r' ->]. simpl in Hr.
      destruct ((outcome s).2) as [x|] eqn:Ex; [done|]. destruct Ha as (ks & Eks & Hlks & _).
      assert (kills_of s = ks) as Hks by (unfold kills_of; by rewrite Eks).
      rewrite Eks. assert (length (sells (sources spec)) = length (units spec)) as Hls.
      { unfold sells. rewrite length_map. apply Hi. }
      destruct (IH (tighten effective ks (sells (sources spec))) (rows ++ [row s r' (Some ks) None]))
        as (eff & rows' & E & Hl & Hhit); [done|done|by rewrite length_tighten; congruence|].
      exists eff, rows'. split_and!; [done..|]. intros now. rewrite Hhit. fold sell.
      rewrite hit_tighten by (unfold sell; congruence). simpl. by rewrite Hks, orb_assoc.
    + rewrite decide_False in * by congruence. subst e. rewrite Er. cbn [mbind result_bind].
      destruct (IH effective (rows ++ [row s r (outcome s).1 (outcome s).2]) Hok Hr Hlen)
        as (eff & rows' & E & Hl & Hhit). eauto 10.
Qed.

Lemma length_none : length (map (λ _ : list level, None : option Z) ladders) = length (units spec).
Proof. rewrite length_map. apply Hi. Qed.

(** The no-fill reasons of the governing sizings. *)
Definition no_fill_reasons : list string := omap (λ s, (outcome s).2) governing_sizings.

Lemma reasons_known : Forall (λ x, x ∈ NO_FILL_PRECEDENCE) no_fill_reasons.
Proof.
  unfold no_fill_reasons, governing_sizings. pose proof (po_sizings _ Hp) as Hs.
  induction Hs as [|s l Hok _ IH]; [constructor|]. rewrite filter_cons. case_decide; [|done].
  destruct (outcome_ok s Hok) as (r & _ & _ & Ha). cbn [omap list_omap].
  destruct ((outcome s).2); [by constructor|done].
Qed.

(** [price] never raises; it opens a fill exactly when no governing sizing has a
    no-fill reason. *)
Lemma price_ok :
  ∃ p, price policy spec ladders maxima value = Ok p ∧
    match no_fill_reasons with
    | [] => state p = FILL_LIVE ∧ is_Some (priced_json p) ∧ ∃ ks, kill p = Some ks ∧
        length ks = length (units spec) ∧
        ∀ now, hit ks now sell = existsb (λ s, hit (kills_of s) now sell) governing_sizings
    | _ => ∃ x, p = mkPriced x None None ∧ x ∈ no_fill_reasons ∧
        head (filter (λ r, r ∈ no_fill_reasons) NO_FILL_PRECEDENCE) = Some x
    end.
Proof.
  destruct price_governing_ok as (g & Eg & Hg & Hr). unfold price. rewrite Eg. cbn [mbind result_bind].
  fold no_fill_reasons in Hr. rewrite Hr. pose proof reasons_known as Hk.
  destruct no_fill_reasons as [|x0 l] eqn:El.
  - destruct (price_rows_ok (sizings policy) g (map (λ _, None) ladders) []) as (eff & rows & E & Hl & Hhit);
      [done|apply Hp|exact El|apply length_none|].
    rewrite E. cbn [mbind result_bind]. eexists. split; [done|]. split_and!; [done|by eexists|].
    exists eff. split_and!; [done..|]. intros now. rewrite Hhit, hit_none. done.
  - rewrite <- El in *. clear Hr.
    assert (filter (λ r, in_list no_fill_reasons r = true) NO_FILL_PRECEDENCE
            = filter (λ r, r ∈ no_fill_reasons) NO_FILL_PRECEDENCE) as ->.
    { apply list_filter_iff. intros r. apply in_list_elem. }
    assert (x0 ∈ filter (λ r, r ∈ no_fill_reasons) NO_FILL_PRECEDENCE) as Hin.
    { apply list_elem_of_filter. rewrite El in *. split; [left|]. by apply Forall_cons in Hk as [? _]. }
    destruct (filter (λ r, r ∈ no_fill_reasons) NO_FILL_PRECEDENCE) as [|x k] eqn:Ef; [by inversion Hin|].
    eexists. split; [done|]. exists x. split_and!; [done| |done].
    assert (x ∈ filter (λ r, r ∈ no_fill_reasons) NO_FILL_PRECEDENCE) as Hx by (rewrite Ef; left).
    by apply list_elem_of_filter in Hx as [? _].
Qed.

(** At the opening instant no governing sizing's kill price is reached. *)
Lemma open_not_hit :
  no_fill_reasons = [] → existsb (λ s, hit (kills_of s) ladders sell) governing_sizings = false.
Proof.
  intros Hn. apply not_true_iff_false. rewrite existsb_exists. intros (s & Hs & Hh).
  apply list_elem_of_In, list_elem_of_filter in Hs as [Hg Hs].
  pose proof (po_sizings _ Hp) as Hok. rewrite Forall_forall in Hok.
  destruct (outcome_ok s (Hok s Hs)) as (r & _ & _ & Ha).
  destruct ((outcome s).2) as [x|] eqn:Ex.
  - assert (x ∈ no_fill_reasons) as Hx; [|rewrite Hn in Hx; by inversion Hx].
    apply list_elem_of_omap. exists s. split; [by apply list_elem_of_filter|done].
  - destruct Ha as (ks & Eks & _ & _ & _ & Hno). unfold kills_of in Hh. rewrite Eks in Hh.
    simpl in Hh. unfold sell in Hh. congruence.
Qed.
End Price.

(** ** Properties *)

(** The closed fill policy is closed: an accepted policy has one to eight sizings
    with distinct names, at least one governing, each either an edge walk or a
    positive number of steps that multiplies the step size to exactly the declared
    contracts, and a level cap [walk_basket] accepts. *)
Theorem fill_policy_closed v k p :
  fill_policy v k = Ok p →
  policy_ok p ∧
  ∃ step, contracts (JStr (step_contracts p)) = Ok step ∧ (0 < step)%Q ∧
    Forall (λ s, ∀ t, target_steps s = Some t → ∃ text c, target_contracts s = Some text ∧
              contracts (JStr text) = Ok c ∧ (inject_Z t * step == c)%Q) (sizings p).
Proof. apply fill_policy_parsed. Qed.

(** C35. Pricing never raises on a parsed policy at a well-formed instant: it opens a
    live fill exactly when every governing sizing is tradeable, and otherwise reports
    the first reason, in the declared precedence, that any governing sizing has. *)
Theorem price_state_partition policy spec ladders maxima value :
  policy_ok policy → instant_ok spec ladders maxima →
  let reasons := no_fill_reasons policy spec ladders maxima value in
  ∃ p, price policy spec ladders maxima value = Ok p ∧
    (state p = FILL_LIVE ↔ reasons = []) ∧
    (is_Some (kill p) ↔ reasons = []) ∧
    (reasons ≠ [] → Some (state p) = head (filter (λ r, r ∈ reasons) NO_FILL_PRECEDENCE)).
Proof.
  intros Hp Hi reasons. destruct (price_ok policy spec ladders maxima value Hp Hi) as (p & E & H).
  exists p. split; [done|]. fold reasons in H.
  pose proof (reasons_known policy spec ladders maxima value Hp Hi) as Hk. fold reasons in Hk.
  destruct reasons as [|x l]; [|destruct H as (y & -> & Hy & Hhead); simpl; split_and!].
  - destruct H as (Hs & _ & ks & Hks & _). by rewrite Hks.
  - split; [|done]. intros ->. rewrite Forall_forall in Hk. apply Hk in Hy.
    unfold NO_FILL_PRECEDENCE in Hy. repeat (apply elem_of_cons in Hy as [Hy|Hy]; [done|]). by inversion Hy.
  - split; [by intros []|done].
  - by rewrite Hhead.
Qed.

(** C18. A live fill ends for the declared reason and is never born dead: against any
    later ladders of its walked sources, [crossed] reports a leg exactly when some
    governing sizing's own kill price is reached by the best level of some leg, and
    at the opening instant it reports none. *)
Theorem live_fill_killed_by_governing policy spec ladders maxima value p ks views now :
  policy_ok policy → instant_ok spec ladders maxima →
  price policy spec ladders maxima value = Ok p → kill p = Some ks →
  shows (sources spec) views now →
  ∃ o, crossed ks (sources spec) views = Ok o ∧
    (is_Some o ↔ Exists (λ s, hit (kills_of policy spec ladders maxima value s) now
                                (sells (sources spec)) = true) (governing_sizings policy)) ∧
    (now = ladders → o = None).
Proof.
  intros Hp Hi E Hk Hshow. destruct (price_ok policy spec ladders maxima value Hp Hi) as (p' & E' & H).
  rewrite E in E'. injection E' as <-.
  destruct (no_fill_reasons policy spec ladders maxima value) as [|x l] eqn:Er;
    [|destruct H as (y & -> & _); done].
  destruct H as (_ & _ & ks' & Hks & Hlen & Hhit). rewrite Hk in Hks. injection Hks as <-.
  destruct (crossed_hit 0 ks _ _ _ Hshow) as (o & Eo & Ho).
  { rewrite Hlen. symmetry. apply Hi. }
  exists o. split; [done|]. rewrite Ho, Hhit. split.
  - rewrite existsb_exists, Exists_exists. by setoid_rewrite <- list_elem_of_In.
  - intros ->. rewrite Hhit, open_not_hit in Ho by done.
    destruct o as [x|]; [|done]. by pose proof (proj1 Ho (mk_is_Some _ _ eq_refl)).
Qed.

(** ** Demonstration *)
Definition demo_policy_json : json := JObj
  [("version", JInt 1); ("step_contracts", JStr "0.5"); ("max_levels", JInt 4);
   ("sizings", JArr [JObj [("name", JStr "small"); ("role", JStr "governs");
                           ("target_contracts", JStr "1.5")];
                     JObj [("name", JStr "most"); ("role", JStr "records"); ("edge", JBool true)]])].
Definition demo_policy : FillPolicy := mkFillPolicy "k" "0.5" 4
  [mkFillSizing "small" "governs" "target" (Some "1.5"%string) (Some 3);
   mkFillSizing "most" "records" "edge" None None].
Definition demo_spec : FillSpec := mkFillSpec ["ask"; "ask"] [1; 1].

Lemma demo_policy_parsed : fill_policy demo_policy_json (JStr "k") = Ok demo_policy.
Proof. vm_compute. reflexivity. Qed.

Lemma demo_policy_ok : policy_ok demo_policy.
Proof. exact (proj1 (fill_policy_parsed _ _ _ demo_policy_parsed)). Qed.

Lemma demo_instant : instant_ok demo_spec demo_ladders [100; 100].
Proof. split; try done; repeat constructor; simpl; lia. Qed.

Lemma fill_policy_closed_witness : policy_ok demo_policy.
Proof. exact (proj1 (fill_policy_closed _ _ _ demo_policy_parsed)). Defined.

Lemma price_state_partition_witness :
  ∃ p, price demo_policy demo_spec demo_ladders [100; 100] demo_value = Ok p ∧ state p = FILL_LIVE.
Proof.
  destruct (price_state_partition demo_policy demo_spec demo_ladders [100; 100] demo_value
    demo_policy_ok demo_instant) as (p & E & H & _).
  exists p. split; [done|]. apply H. vm_compute. reflexivity.
Defined.

Definition demo_views (now : list (list level)) : list fill_view :=
  map (λ l, FillView "usable" JNull false {["ask"%string := l]}) now.

(** The first leg's kill price is 40: the fill lives at the opening ladders and dies
    when the first ask rises to it. *)
Lemma live_fill_killed_by_governing_witness :
  crossed [Some 40; Some 30] ["ask"; "ask"] (demo_views demo_ladders) = Ok None ∧
  crossed [Some 40; Some 30] ["ask"; "ask"] (demo_views [[(40, 5)]; [(20, 8)]]) = Ok (Some (0%nat, (40, 5))).
Proof.
  assert (∃ p, price demo_policy demo_spec demo_ladders [100; 100] demo_value = Ok p ∧
               kill p = Some [Some 40; Some 30]) as (p & E & Hk).
  { eexists. split; vm_compute; reflexivity. }
  assert (∀ l k, shows (sources demo_spec) (demo_views [l; k]) [l; k]) as Hshow.
  { intros. repeat constructor. }
  split.
  - destruct (live_fill_killed_by_governing demo_policy demo_spec demo_ladders [100; 100] demo_value
      p _ _ demo_ladders demo_policy_ok demo_instant E Hk (Hshow _ _)) as (o & Eo & _ & Ho).
    rewrite Ho in Eo by done. exact Eo.
  - reflexivity.
Defined.
