(* ===== verification/JobDetail.v ===== *)
(** * Human detail text of a job ([reason_detail] of [src/replay/jobs/contracts.py])

    Bounded, printable, userinfo-redacted text, and why sanitizing it twice changes
    nothing: a job row refuses a detail that [reason_detail] would still change.  Text
    is a list of code points; the Unicode predicates of [str.isprintable] and of the
    regular expression class [\s] are parameters. *)
From stdpp Require Import list strings.
From S2P Require Import Prelude.

Definition MAX_REASON_DETAIL : nat := 1024.

Abbreviation text := (list Z).

Definition is_alpha (c : Z) : bool := ((65 <=? c) && (c <=? 90)) || ((97 <=? c) && (c <=? 122)).
(** [[A-Za-z0-9+.-]]. *)
Definition scheme_char (c : Z) : bool :=
  is_alpha c || ((48 <=? c) && (c <=? 57)) || existsb (Z.eqb c) [43; 46; 45].
Definition slashes : text := [58; 47; 47].
Definition stars : text := [42; 42; 42; 64].
Definition ellipsis : Z := 8230.

(** The longest prefix of characters that satisfy [f], and the rest. *)
Fixpoint span (f : Z → bool) (l : text) : text * text :=
  match l with
  | c :: l' => if f c then let '(a, b) := span f l' in (c :: a, b) else ([], l)
  | [] => ([], [])
  end.

(** What the code relies on of the Unicode predicates: the space is printable white
    space, the ellipsis is printable and no white space. *)
Class UnicodeLaws (isprintable isspace : Z → bool) : Prop := {
  space_printable : isprintable 32 = true;
  ellipsis_printable : isprintable ellipsis = true;
  space_space : isspace 32 = true;
  ellipsis_no_space : isspace ellipsis = false;
}.

(** The two predicates on ASCII and the ellipsis. *)
Definition ascii_printable (c : Z) : bool := ((32 <=? c) && (c <=? 126)) || (c =? ellipsis).
Definition ascii_space (c : Z) : bool := ((9 <=? c) && (c <=? 13)) || ((28 <=? c) && (c <=? 32)).
#[export] Instance ascii_unicode : UnicodeLaws ascii_printable ascii_space.
Proof. by split. Qed.

Section Unicode.
Context (isprintable isspace : Z → bool).

(** [[^/@\s]]. *)
Definition userinfo_char (c : Z) : bool := negb ((c =? 47) || (c =? 64) || isspace c).

(** One match of [_URL_USERINFO] at the head: the scheme with its slashes, and what
    follows the user information. *)
Definition match_userinfo (l : text) : option (text * text) :=
  match l with
  | c :: _ =>
      if is_alpha c then
        let '(scheme, rest) := span scheme_char l in
        match rest with
        | 58 :: 47 :: 47 :: rest =>
            let '(_, rest) := span userinfo_char rest in
            match rest with
            | 64 :: rest => Some (scheme ++ slashes, rest)
            | _ => None
            end
        | _ => None
        end
      else None
  | [] => None
  end.

(** [_URL_USERINFO.sub(r"\1***@", text)], leftmost matches. *)
Fixpoint redact (fuel : nat) (l : text) : text :=
  match fuel with
  | O => l
  | S fuel =>
      match match_userinfo l with
      | Some (prefix, rest) => prefix ++ stars ++ redact fuel rest
      | None => match l with [] => [] | c :: l => c :: redact fuel l end
      end
  end.

Fixpoint lstrip_text (l : text) : text :=
  match l with
  | c :: l' => if isspace c then lstrip_text l' else l
  | [] => []
  end.
Definition strip_text (l : text) : text := rev (lstrip_text (rev (lstrip_text l))).

Definition reason_detail (l : text) : option text :=
  let redacted := redact (length l) l in
  let printable := strip_text (map (λ c, if isprintable c then c else 32) redacted) in
  let printable := if (MAX_REASON_DETAIL <? length printable)%nat
                   then take (MAX_REASON_DETAIL - 1) printable ++ [ellipsis] else printable in
  match printable with [] => None | _ => Some printable end.

(** [reason_detail(detail) if detail else None]. *)
Definition clean_detail (detail : option text) : option text :=
  match detail with None | Some [] => None | Some d => reason_detail d end.

(** ** Matches as decompositions *)
Lemma span_split f l a b :
  span f l = (a, b) → l = a ++ b ∧ Forall (λ c, f c = true) a ∧ ∀ c b', b = c :: b' → f c = false.
Proof.
  revert a b. induction l as [|c l IH]; intros a b; simpl; [intros [= <- <-]; by split_and!|].
  destruct (f c) eqn:E.
  - destruct (span f l) as [a' b'] eqn:Es. intros [= <- <-].
    destruct (IH _ _ eq_refl) as (-> & Ha & Hb). split_and!; [done|by constructor|done].
  - intros [= <- <-]. split_and!; [done|constructor|]. by intros ? ? [= <- _].
Qed.

Lemma span_app f a c b :
  Forall (λ c, f c = true) a → f c = false → span f (a ++ c :: b) = (a, c :: b).
Proof. intros Ha Hc. induction Ha as [|x a Hx _ IH]; simpl; [by rewrite Hc|]. by rewrite Hx, IH. Qed.

(** Two decompositions at the first character outside a class agree. *)
Lemma app_cons_inj (f : Z → bool) a a' c c' b b' :
  Forall (λ c, f c = true) a → Forall (λ c, f c = true) a' → f c = false → f c' = false →
  a ++ c :: b = a' ++ c' :: b' → a = a' ∧ c = c' ∧ b = b'.
Proof.
  intros Ha Ha' Hc Hc' E. pose proof (span_app f a c b Ha Hc) as H.
  rewrite E, span_app in H by done. by injection H as <- <- <-.
Qed.

Lemma scheme_colon : scheme_char 58 = false. Proof. done. Qed.
Lemma userinfo_at_sign : userinfo_char 64 = false. Proof. done. Qed.
Lemma userinfo_slash : userinfo_char 47 = false. Proof. done. Qed.
Lemma alpha_scheme c : is_alpha c = true → scheme_char c = true.
Proof. unfold scheme_char. by intros ->. Qed.

(** [l] starts with a scheme, [://], user information [ui] and an at sign. *)
Definition userinfo_at (l sch ui rest : text) : Prop :=
  l = sch ++ slashes ++ ui ++ 64 :: rest ∧
  (∃ c sch', sch = c :: sch' ∧ is_alpha c = true) ∧
  Forall (λ c, scheme_char c = true) sch ∧ Forall (λ c, userinfo_char c = true) ui.

Lemma match_userinfo_at l prefix rest :
  match_userinfo l = Some (prefix, rest) ↔
  ∃ sch ui, userinfo_at l sch ui rest ∧ prefix = sch ++ slashes.
Proof.
  split.
  - unfold match_userinfo. destruct l as [|c l]; [done|]. destruct (is_alpha c) eqn:Ec; [|done].
    destruct (span scheme_char (c :: l)) as [sch r] eqn:Es.
    destruct (span_split _ _ _ _ Es) as (E & Hsch & _).
    destruct r as [|x1 [|x2 [|x3 r]]]; try (repeat case_match; done).
    destruct (decide (x1 = 58 ∧ x2 = 47 ∧ x3 = 47)) as [(-> & -> & ->)|Hne].
    2:{ intros H. exfalso. apply Hne. revert H. clear. repeat case_match; subst; done. }
    destruct (span userinfo_char r) as [ui r'] eqn:Er.
    destruct (span_split _ _ _ _ Er) as (-> & Hui & _).
    destruct r' as [|y r']; [done|]. destruct (decide (y = 64)) as [->|Hy].
    2:{ intros H. exfalso. apply Hy. revert H. clear. repeat case_match; subst; done. }
    intros [= <- <-]. exists sch, ui. split; [|done]. split_and!; [by rewrite E|..|done|done].
    destruct sch as [|c' sch]; [simpl in E; injection E as -> _; done|].
    injection E as -> _. eauto.
  - intros (sch & ui & (-> & (c & sch' & -> & Hc) & Hsch & Hui) & ->). unfold match_userinfo.
    change ((c :: sch') ++ slashes ++ ui ++ 64 :: rest)
      with ((c :: sch') ++ 58 :: 47 :: 47 :: ui ++ 64 :: rest).
    rewrite span_app by done. simpl. rewrite Hc. by rewrite span_app.
Qed.

Lemma userinfo_unique l sch ui rest sch' ui' rest' :
  userinfo_at l sch ui rest → userinfo_at l sch' ui' rest' → sch = sch' ∧ ui = ui' ∧ rest = rest'.
Proof.
  intros (-> & _ & Hs & Hu) (E & _ & Hs' & Hu').
  apply (app_cons_inj scheme_char) in E as (-> & _ & E); [|done..].
  injection E as E. by apply (app_cons_inj userinfo_char) in E as (-> & _ & ->).
Qed.

(** No user information but the stars is left anywhere. *)
Definition masked : text := [42; 42; 42].
Definition shielded (l : text) : Prop :=
  ∀ pre s sch ui rest, l = pre ++ s → userinfo_at s sch ui rest → ui = masked.

Lemma shielded_fixed fuel l : shielded l → redact fuel l = l.
Proof.
  revert l. induction fuel as [|fuel IH]; intros l Hl; [done|]. cbn [redact].
  destruct (match_userinfo l) as [[prefix rest]|] eqn:E.
  - apply match_userinfo_at in E as (sch & ui & Hat & ->).
    pose proof (Hl [] l _ _ _ eq_refl Hat) as ->. destruct Hat as (-> & _).
    rewrite IH; [by rewrite <- app_assoc|].
    intros pre s sch' ui' rest' Es. apply (Hl ((sch ++ slashes ++ masked ++ [64]) ++ pre) s).
    by rewrite Es, <- !app_assoc.
  - destruct l as [|c l]; [done|]. rewrite IH; [done|].
    intros pre s sch' ui' rest' Es. apply (Hl (c :: pre) s). by rewrite Es.
Qed.

(** ** What redaction produces is shielded *)
Definition not_at (c : Z) : bool := negb (c =? 64).
Definition not_slash_at (c : Z) : bool := negb ((c =? 47) || (c =? 64)).

Lemma scheme_not_slash_at l : Forall (λ c, scheme_char c = true) l → Forall (λ c, not_slash_at c = true) l.
Proof.
  intros H. eapply Forall_impl; [exact H|]. intros c Hc. unfold not_slash_at.
  destruct (Z.eqb_spec c 47) as [->|]; [done|]. by destruct (Z.eqb_spec c 64) as [->|].
Qed.

Lemma userinfo_not_slash_at l : Forall (λ c, userinfo_char c = true) l → Forall (λ c, not_slash_at c = true) l.
Proof.
  intros H. eapply Forall_impl; [exact H|]. intros c. unfold userinfo_char, not_slash_at.
  rewrite !negb_true_iff, !orb_false_iff. tauto.
Qed.

Lemma userinfo_not_at l : Forall (λ c, userinfo_char c = true) l → Forall (λ c, not_at c = true) l.
Proof.
  intros H. eapply Forall_impl; [exact H|]. intros c. unfold userinfo_char, not_at.
  rewrite !negb_true_iff, !orb_false_iff. tauto.
Qed.

Lemma redact_match fuel l prefix rest :
  match_userinfo l = Some (prefix, rest) → redact (S fuel) l = prefix ++ stars ++ redact fuel rest.
Proof. intros H. cbn [redact]. by rewrite H. Qed.

Lemma redact_skip fuel c l :
  match_userinfo (c :: l) = None → redact (S fuel) (c :: l) = c :: redact fuel l.
Proof. intros H. cbn [redact]. by rewrite H. Qed.

Lemma redact_userinfo fuel l ui rest :
  Forall (λ c, userinfo_char c = true) ui → redact fuel l = ui ++ 64 :: rest →
  ∃ rest', l = ui ++ 64 :: rest'.
Proof.
  revert l ui. induction fuel as [|fuel IH]; intros l ui Hui; [eauto|].
  destruct (match_userinfo l) as [[prefix r]|] eqn:E.
  - rewrite (redact_match _ _ _ _ E). apply match_userinfo_at in E as (sch & ui0 & Hat & ->).
    destruct Hat as (_ & _ & Hs & _).
    change (((sch ++ slashes) ++ stars ++ redact fuel r))
      with ((sch ++ [58] ++ 47 :: [47]) ++ stars ++ redact fuel r).
    rewrite <- !app_assoc, (app_assoc sch [58]). intros Eq.
    apply (app_cons_inj not_slash_at) in Eq as (_ & ? & _); try done.
    + apply Forall_app. split; [by apply scheme_not_slash_at|by repeat constructor].
    + by apply userinfo_not_slash_at.
  - destruct l as [|c l]; [cbn [redact]; rewrite E; by destruct ui|].
    rewrite (redact_skip _ _ _ E). destruct ui as [|u ui]; intros [= -> Eq]; [by exists l|].
    apply Forall_cons in Hui as [_ Hui]. destruct (IH l ui Hui Eq) as (rest' & ->). by exists rest'.
Qed.

(** A character that is no letter is copied. *)
Lemma redact_copies fuel l x out :
  redact fuel l = x :: out → is_alpha x = false → ∃ l' fuel', l = x :: l' ∧ redact fuel' l' = out.
Proof.
  intros H Hx. destruct fuel as [|fuel]; [exists out, O; done|].
  destruct (match_userinfo l) as [[prefix r]|] eqn:E.
  - rewrite (redact_match _ _ _ _ E) in H. apply match_userinfo_at in E as (sch & ui & Hat & ->).
    destruct Hat as (_ & (c & sch' & -> & Hc) & _). injection H as -> _. congruence.
  - destruct l as [|c l]; [cbn [redact] in H; by rewrite E in H|].
    rewrite (redact_skip _ _ _ E) in H. injection H as -> H. eauto.
Qed.

Lemma redact_scheme fuel l sch ui rest :
  Forall (λ c, scheme_char c = true) sch → Forall (λ c, userinfo_char c = true) ui →
  redact fuel l = sch ++ slashes ++ ui ++ 64 :: rest →
  ui = masked ∨ ∃ rest', l = sch ++ slashes ++ ui ++ 64 :: rest'.
Proof.
  intros Hs Hui. revert l sch Hs. induction fuel as [|fuel IH]; intros l sch Hs H; [right; eauto|].
  destruct sch as [|c sch].
  - right. apply redact_copies in H as (l1 & f1 & -> & H); [|done].
    apply redact_copies in H as (l2 & f2 & -> & H); [|done].
    apply redact_copies in H as (l3 & f3 & -> & H); [|done].
    apply redact_userinfo in H as (rest' & ->); [|done]. by exists rest'.
  - destruct (match_userinfo l) as [[prefix r]|] eqn:E.
    + left. rewrite (redact_match _ _ _ _ E) in H.
      apply match_userinfo_at in E as (sch0 & ui0 & (_ & _ & Hs0 & _) & ->).
      rewrite <- app_assoc in H. apply (app_cons_inj scheme_char) in H as (_ & _ & H); [|done..].
      injection H as H. change (masked ++ 64 :: redact fuel r = ui ++ 64 :: rest) in H.
      symmetry. apply (app_cons_inj not_at) in H as (H & _ & _); [done|by repeat constructor|..|done|done].
      by apply userinfo_not_at.
    + destruct l as [|c' l]; [cbn [redact] in H; by rewrite E in H|].
      rewrite (redact_skip _ _ _ E) in H. injection H as -> H.
      apply Forall_cons in Hs as [_ Hs]. destruct (IH l sch Hs H) as [->|(rest' & ->)]; [by left|].
      right. by exists rest'.
Qed.

Lemma redact_shielded fuel l : (length l ≤ fuel)%nat → shielded (redact fuel l).
Proof.
  revert l. induction fuel as [|fuel IH]; intros l Hlen pre s sch ui rest Es Hat.
  { destruct l; [|simpl in Hlen; lia]. destruct Hat as (-> & (c & sch' & -> & _) & _). by destruct pre. }
  destruct (match_userinfo l) as [[prefix r]|] eqn:E.
  - rewrite (redact_match _ _ _ _ E) in Es. apply match_userinfo_at in E as (sch0 & ui0 & Hat0 & ->).
    destruct Hat0 as (-> & _ & Hs0 & _). rewrite <- app_assoc in Es.
    destruct Hat as (Hs & (c & sch' & -> & Hc) & Hsch & Hui).
    apply app_eq_inv in Es as [(k & -> & ->)|(k & -> & Es)].
    + apply Forall_app in Hs0 as [_ Hk].
      apply (app_cons_inj scheme_char) in Hs as (_ & _ & Hs); [|done..]. injection Hs as Hs.
      change (masked ++ 64 :: redact fuel r = ui ++ 64 :: rest) in Hs. symmetry.
      apply (app_cons_inj not_at) in Hs as (Hs & _ & _); [done|by repeat constructor|..|done|done].
      by apply userinfo_not_at.
    + unfold slashes, stars in Es. subst s.
      do 7 (destruct k as [|x k]; [injection Es as <-; done|injection Es as <- Es]).
      apply (IH r) with k ((c :: sch') ++ slashes ++ ui ++ 64 :: rest) (c :: sch') rest.
      * rewrite !length_app in Hlen. simpl in Hlen. lia.
      * exact Es.
      * split_and!; eauto.
  - destruct l as [|c l].
    { cbn [redact] in Es. rewrite E in Es. destruct Hat as (-> & (x & sch' & -> & _) & _).
      by destruct pre. }
    rewrite (redact_skip _ _ _ E) in Es. simpl in Hlen. destruct pre as [|c' pre].
    + simpl in Es. subst s. destruct Hat as (Hs & (x & sch' & -> & Hc) & Hsch & Hui).
      injection Hs as -> Hs. apply Forall_cons in Hsch as [Hx Hsch].
      apply redact_scheme in Hs as [->|(rest' & ->)]; [done| |done..].
      assert (match_userinfo (x :: sch' ++ slashes ++ ui ++ 64 :: rest')
              = Some ((x :: sch') ++ slashes, rest')) as Em; [|congruence].
      apply match_userinfo_at. exists (x :: sch'), ui. split; [|done].
      split_and!; [done|by exists x, sch'|by constructor|done].
    + injection Es as -> Es. apply (IH l) with pre s sch rest; [lia|done..].
Qed.

(** ** Printing, stripping and truncating keep a text shielded *)
Lemma shielded_infix pre l post : shielded (pre ++ l ++ post) → shielded l.
Proof.
  intros H p s sch ui rest -> (-> & Hat).
  apply (H (pre ++ p) (sch ++ slashes ++ ui ++ 64 :: rest ++ post) sch ui (rest ++ post)).
  - by rewrite <- !app_assoc.
  - by split.
Qed.

Lemma map_fixed (f : Z → Z) a sch :
  map f a = sch → (∀ x y, f x = y → y ∈ sch → x = y) → a = sch.
Proof.
  revert a. induction sch as [|y sch IH]; intros [|x a] H Hf; try done. injection H as H1 H2.
  f_equal; [apply Hf; [done|left]|]. apply IH; [done|]. intros. apply Hf; [done|by right].
Qed.

Lemma shielded_map (f : Z → Z) l :
  (∀ x, f x = x ∨ f x = 32) → isspace 32 = true → shielded l → shielded (map f l).
Proof.
  intros Hf Hsp H p s sch ui rest Es (Hs & Hne & Hsch & Hui).
  assert (∀ t, 32 ∉ t → ∀ a, map f a = t → a = t) as Hfix.
  { intros t Ht a Ha. apply (map_fixed f a t Ha). intros x y Hx Hy. destruct (Hf x); congruence. }
  apply map_eq_app in Es as (p0 & s0 & -> & Hp0 & Hs0). rewrite Hs in Hs0.
  apply map_eq_app in Hs0 as (a & s1 & -> & Ha & Hs1).
  apply map_eq_app in Hs1 as (b & s2 & -> & Hb & Hs2).
  apply map_eq_app in Hs2 as (c & s3 & -> & Hc & Hs3). destruct s3 as [|x rest0]; [done|].
  injection Hs3 as Hx _.
  apply Hfix in Ha as ->; [|intros Hin; rewrite Forall_forall in Hsch; by apply Hsch in Hin].
  apply Hfix in Hb as ->; [|unfold slashes; rewrite !elem_of_cons, elem_of_nil; lia].
  apply Hfix in Hc as ->.
  2:{ intros Hin. rewrite Forall_forall in Hui. apply Hui in Hin. unfold userinfo_char in Hin.
      by rewrite Hsp in Hin. }
  apply (H p0 _ sch ui rest0 eq_refl). split_and!; [|done..].
  destruct (Hf x) as [Hx'|Hx']; congruence.
Qed.

Lemma shielded_snoc l c : c ≠ 64 → shielded l → shielded (l ++ [c]).
Proof.
  intros Hc H p s sch ui rest Es (Hs & Hat). destruct s as [|x s _] using rev_ind.
  { destruct Hat as [(y & sch' & -> & _) _]. done. }
  rewrite app_assoc in Es. apply app_inj_tail in Es as [-> ->].
  destruct rest as [|y rest _] using rev_ind.
  - rewrite !app_assoc in Hs. apply app_inj_tail in Hs as [_ Hs]. congruence.
  - apply (H p s sch ui rest); [done|]. split; [|done].
    replace (sch ++ slashes ++ ui ++ 64 :: rest ++ [y])
      with ((sch ++ slashes ++ ui ++ 64 :: rest) ++ [y]) in Hs by (by rewrite <- !app_assoc).
    by apply app_inj_tail in Hs as [-> _].
Qed.

Lemma lstrip_suffix l : ∃ a, l = a ++ lstrip_text l.
Proof.
  induction l as [|c l [a IH]]; simpl; [by exists nil|].
  destruct (isspace c); [exists (c :: a); simpl; congruence|by exists nil].
Qed.

Lemma lstrip_head l c k : lstrip_text l = c :: k → isspace c = false.
Proof. induction l as [|x l IH]; simpl; [done|]. destruct (isspace x) eqn:E; [done|]. by intros [= <- _]. Qed.

Lemma lstrip_fixed l : (∀ c k, l = c :: k → isspace c = false) → lstrip_text l = l.
Proof. destruct l as [|c l]; [done|]. intros H. simpl. by rewrite (H c l eq_refl). Qed.

Lemma strip_infix l : ∃ a b, l = a ++ strip_text l ++ b.
Proof.
  unfold strip_text. destruct (lstrip_suffix l) as [a Ha].
  destruct (lstrip_suffix (rev (lstrip_text l))) as [b Hb]. exists a, (rev b).
  rewrite Ha at 1. f_equal. rewrite <- rev_app_distr, <- Hb. by rewrite rev_involutive.
Qed.

Lemma strip_fixed l :
  (∀ c k, l = c :: k → isspace c = false) → (∀ c k, l = k ++ [c] → isspace c = false) →
  strip_text l = l.
Proof.
  intros Hh Ht. unfold strip_text. rewrite (lstrip_fixed l Hh), lstrip_fixed; [apply rev_involutive|].
  intros c k E. apply (Ht c (rev k)). by rewrite <- (rev_involutive l), E.
Qed.

Lemma strip_last l c k : strip_text l = k ++ [c] → isspace c = false.
Proof.
  unfold strip_text. intros E. apply (f_equal (@rev Z)) in E.
  rewrite rev_involutive, rev_app_distr in E. simpl in E. by apply lstrip_head in E.
Qed.

Lemma strip_head l c k : strip_text l = c :: k → isspace c = false.
Proof.
  intros E. unfold strip_text in E. destruct (lstrip_suffix (rev (lstrip_text l))) as [b Hb].
  apply (f_equal (@rev Z)) in Hb. rewrite rev_involutive, rev_app_distr, E in Hb.
  by apply lstrip_head in Hb.
Qed.

Context `{!UnicodeLaws isprintable isspace}.

Definition show_char (c : Z) : Z := if isprintable c then c else 32.

(** What sanitized text looks like. *)
Record sanitized (d : text) : Prop := Sanitized {
  sn_shielded : shielded d;
  sn_printable : Forall (λ c, isprintable c = true) d;
  sn_strip : strip_text d = d;
  sn_length : (length d ≤ MAX_REASON_DETAIL)%nat;
  sn_nonempty : d ≠ [];
}.

Lemma reason_detail_sanitizes l d : reason_detail l = Some d → sanitized d.
Proof.
  unfold reason_detail. set (m := map _ (redact (length l) l)).
  assert (shielded m) as Hm.
  { apply shielded_map; [|exact space_space|by apply redact_shielded].
    intros x. destruct (isprintable x); auto. }
  assert (Forall (λ c, isprintable c = true) m) as Hpr.
  { unfold m. apply Forall_fmap, Forall_true. intros c. simpl.
    destruct (isprintable c) eqn:E; [done|exact space_printable]. }
  destruct (strip_infix m) as (a & b & Em).
  assert (shielded (strip_text m)) as Hsh by (rewrite Em in Hm; by eapply shielded_infix).
  assert (Forall (λ c, isprintable c = true) (strip_text m)) as Hps.
  { rewrite Em in Hpr. by apply Forall_app in Hpr as [_ [? _]%Forall_app]. }
  pose proof (strip_head m) as Hh. pose proof (strip_last m) as Hl.
  generalize dependent (strip_text m). intros t Em Hsh Hps Hh Hl. destruct (Nat.ltb_spec MAX_REASON_DETAIL (length t)) as [Hlt|Hle].
  - intros H. assert (d = take (MAX_REASON_DETAIL - 1) t ++ [ellipsis]) as ->.
    { destruct (take _ t); by injection H as <-. }
    split.
    + apply shielded_snoc; [done|]. apply (shielded_infix [] _ (drop (MAX_REASON_DETAIL - 1) t)).
      simpl. by rewrite take_drop.
    + apply Forall_app. split; [by apply Forall_take|].
      constructor; [exact ellipsis_printable|done].
    + apply strip_fixed.
      * intros c k E. destruct t as [|x t]; [simpl in Hlt; lia|].
        injection E as <- _. by eapply Hh.
      * intros c k E. apply app_inj_tail in E as [_ <-]. exact ellipsis_no_space.
    + rewrite length_app, length_take. change (length [ellipsis]) with 1%nat.
      pose proof (Nat.le_min_l (MAX_REASON_DETAIL - 1) (length t)).
      assert (1 ≤ MAX_REASON_DETAIL)%nat by (unfold MAX_REASON_DETAIL; lia). lia.
    + by destruct (take _ t).
  - intros H. assert (d = t ∧ t ≠ []) as [-> Hne] by (destruct t; [done|by injection H as <-]).
    split; try done. by apply strip_fixed.
Qed.

Lemma sanitized_fixed d : sanitized d → reason_detail d = Some d.
Proof.
  intros [Hsh Hpr Hst Hlen Hne]. unfold reason_detail. rewrite (shielded_fixed _ _ Hsh).
  assert (map (λ c, if isprintable c then c else 32) d = d) as ->.
  { clear -Hpr. induction Hpr as [|c d Hc _ IH]; simpl; [done|]. by rewrite Hc, IH. }
  rewrite Hst. destruct (Nat.ltb_spec MAX_REASON_DETAIL (length d)); [lia|]. by destruct d.
Qed.

Lemma reason_detail_idempotent l d : reason_detail l = Some d → reason_detail d = Some d.
Proof. intros H. by apply sanitized_fixed, (reason_detail_sanitizes l). Qed.

Lemma clean_detail_fixed detail d : clean_detail detail = Some d → reason_detail d = Some d.
Proof. unfold clean_detail. destruct detail as [[|c l]|]; [done| |done]. apply reason_detail_idempotent. Qed.

End Unicode.

(** ** Properties *)

(** Sanitizing is idempotent: whatever text a failure carries, what
    [reason_detail] stores is bounded, holds only printable characters, shows no user
    information but the stars, and is left unchanged by another [reason_detail], the
    condition every later copy of the job row is checked against. *)
Theorem reason_detail_stable isprintable isspace (laws : UnicodeLaws isprintable isspace) l d :
  reason_detail isprintable isspace l = Some d →
  reason_detail isprintable isspace d = Some d ∧
  (length d ≤ MAX_REASON_DETAIL)%nat ∧ Forall (λ c, isprintable c = true) d ∧
  ∀ pre sch ui rest, d = pre ++ sch ++ slashes ++ ui ++ 64 :: rest →
    (∃ c sch', sch = c :: sch' ∧ is_alpha c = true) → Forall (λ c, scheme_char c = true) sch →
    Forall (λ c, userinfo_char isspace c = true) ui → ui = masked.
Proof.
  intros H. pose proof (reason_detail_sanitizes isprintable isspace l d H) as Hs.
  split_and!; [by apply sanitized_fixed|apply Hs..|].
  intros pre sch ui rest Ed Hne Hsch Hui. eapply (sn_shielded _ _ _ Hs); [exact Ed|]. by split_and!.
Qed.

(** ["x http://u:p@h"]. *)
Definition demo_detail : text := [120; 32; 104; 116; 116; 112; 58; 47; 47; 117; 58; 112; 64; 104; 9].

Lemma reason_detail_stable_witness :
  let d := [120; 32; 104; 116; 116; 112; 58; 47; 47; 42; 42; 42; 64; 104] in
  reason_detail ascii_printable ascii_space demo_detail = Some d ∧
  reason_detail ascii_printable ascii_space d = Some d.
Proof.
  assert (reason_detail ascii_printable ascii_space demo_detail
    = Some [120; 32; 104; 116; 116; 112; 58; 47; 47; 42; 42; 42; 64; 104]) as H by (vm_compute; reflexivity).
  split; [exact H|]. exact (proj1 (reason_detail_stable _ _ ascii_unicode _ _ H)).
Defined.
