(* ===== verification/JobContracts.v ===== *)
(** * Replay job rows and transitions ([src/replay/jobs/contracts.py])

    The closed row of one job, its checks, and the pure transitions of its state
    machine; bundle-history resolution and window alignment.  Statuses and stages
    are enumerations, so the source's membership tests on them hold by type; reason
    codes stay strings.  Human detail text is that of [JobDetail]. *)
From stdpp Require Import list strings.
From S2P Require Import Prelude Wire JobDetail.

Definition _require (ok : bool) (message : string) (code : option string) : result () :=
  guard_or ok (ContractError message code).

(** [_require] without a code. *)
Definition ensure (ok : bool) (message : string) : result () := _require ok message None.

Definition _ns (value : Z) (message : string) : result () :=
  ensure ((0 <=? value) && (value <? 2 ^ 64)) message.

Definition _nonnegative_int (value : Z) (message : string) : result () :=
  ensure (0 <=? value) message.

Definition _optional (check : Z → string → result ()) (value : option Z) (message : string)
    : result () :=
  match value with None => Ok () | Some v => check v message end.

(** ** Status, stage and reason codes *)
Inductive status :=
| QUEUED | RUNNING | ARCHIVING | ARCHIVE_BLOCKED
| SUCCEEDED | FAILED | EXHAUSTED | NOT_READY | STALE_BUNDLE_CACHE | CANCELLED.
#[global] Instance status_eq_dec : EqDecision status.
Proof. solve_decision. Defined.

Inductive stage := resolve | bundle | prepare | run | read | archive.
#[global] Instance stage_eq_dec : EqDecision stage.
Proof. solve_decision. Defined.

Definition is_status (a b : status) : bool := bool_decide (a = b).

Definition TERMINAL (s : status) : bool :=
  match s with
  | SUCCEEDED | FAILED | EXHAUSTED | NOT_READY | STALE_BUNDLE_CACHE | CANCELLED => true
  | _ => false
  end.
Definition RESUMABLE (s : status) : bool :=
  match s with RUNNING | ARCHIVING => true | _ => false end.

Definition STAGES : list stage := [resolve; bundle; prepare; run; read; archive].
Definition WORK_STAGES : list stage := take 5 STAGES.
Definition is_work_stage (s : stage) : bool := bool_decide (s ∈ WORK_STAGES).

Definition stage_name (s : stage) : string :=
  match s with
  | resolve => "resolve" | bundle => "bundle" | prepare => "prepare"
  | run => "run" | read => "read" | archive => "archive"
  end.

(** [STAGES.index(s)]. *)
Definition stage_index (s : stage) : nat :=
  match s with resolve => 0 | bundle => 1 | prepare => 2 | run => 3 | read => 4 | archive => 5 end.

Definition OUTCOME_OF_CODE : list (string * status) :=
  [("cancelled", CANCELLED); ("bundle_not_retired", NOT_READY);
   ("canonical_not_archived", NOT_READY); ("stale_bundle_cache", STALE_BUNDLE_CACHE);
   ("supervisor_exhausted", EXHAUSTED); ("bundle_history_invalid", FAILED);
   ("interval_out_of_range", FAILED); ("local_state_lost", FAILED);
   ("universe_unavailable", FAILED); ("integrity_failure", FAILED);
   ("resource_exhausted", FAILED); ("tool_failure", FAILED); ("supervisor_failed", FAILED);
   ("result_invalid", FAILED); ("stage_attempts_exhausted", FAILED);
   ("job_deadline_exceeded", FAILED); ("internal_failure", FAILED)].

Fixpoint assoc {A} (l : list (string * A)) (k : string) : option A :=
  match l with
  | [] => None
  | (k', v) :: l => if String.eqb k k' then Some v else assoc l k
  end.

Definition outcome_of_code (code : string) : option status := assoc OUTCOME_OF_CODE code.
Definition ARCHIVE_BLOCK_CODES : list string :=
  ["archive_unavailable"; "archive_conflict"; "stage_attempts_exhausted"].
Definition REASON_CODES : list string := map fst OUTCOME_OF_CODE ++ ARCHIVE_BLOCK_CODES.
Definition RETRYABLE_CODES : list string :=
  ["universe_unavailable"; "archive_unavailable"; "resource_exhausted"].

Section Unicode.
Context (isprintable isspace : Z → bool).

Local Abbreviation reason_detail := (reason_detail isprintable isspace).
Local Abbreviation clean_detail := (clean_detail isprintable isspace).

(** ** Identifiers *)
Definition lower_hex (c : Ascii.ascii) : bool :=
  is_digit c || ((97 <=? code c) && (code c <=? 102)).

(** The character at [i] has code [n]. *)
Definition char_is (l : list Ascii.ascii) (i : nat) (n : Z) : bool :=
  match l !! i with Some c => code c =? n | None => false end.

(** [_JOB_ID.fullmatch]: 8 digits, T, 6 digits, Z, a dash, 16 hex digits. *)
Definition valid_job_id (value : string) : bool :=
  let l := chars value in
  (length l =? 33)%nat
  && forallb is_digit (take 8 l) && char_is l 8 84
  && forallb is_digit (take 6 (drop 9 l)) && char_is l 15 90
  && char_is l 16 45 && forallb lower_hex (drop 17 l).

Definition check_job_id (value : string) : result () :=
  ensure (valid_job_id value) "job id must be <yyyymmddTHHMMSSZ>-<16 hex>".

Definition job_receipt_key (job_id : string) : result string :=
  _ ← check_job_id job_id; Ok ("replay/jobs/" +:+ job_id +:+ "/job_receipt.json").

(** [_ADDRESS.fullmatch]. *)
Definition is_address (value : string) : bool :=
  let l := chars value in
  (length l =? 42)%nat && char_is l 0 48 && char_is l 1 120 && forallb lower_hex (drop 2 l).

Definition is_hex64 (value : string) : bool :=
  (length (chars value) =? 64)%nat && forallb lower_hex (chars value).

(** ** The job row *)
Record JobRow := mkJobRow {
  job_id : string;
  created_at_ns : Z;
  submitted_by : string;
  request_sha256 : string;
  job_status : status;
  job_stage : option stage;
  stage_attempts : Z;
  next_attempt_at_ns : option Z;
  started_at_ns : option Z;
  updated_at_ns : Z;
  finished_at_ns : option Z;
  pending_outcome : option status;
  reason_code : option string;
  detail : option text;
  blocked_reason_code : option string;
  blocked_at_ns : option Z;
  archive_receipt_key : option string;
}.

Definition is_some {A} (o : option A) : bool := match o with Some _ => true | None => false end.

(** Lines 282-303: every field on its own. *)
Definition check_fields (r : JobRow) : result () :=
  _ ← check_job_id (job_id r);
  _ ← _ns (created_at_ns r) "created_at_ns";
  _ ← ensure (is_address (submitted_by r)) "submitted_by must be a lowercase 0x address";
  _ ← ensure (is_hex64 (request_sha256 r)) "request_sha256";
  _ ← _nonnegative_int (stage_attempts r) "stage_attempts";
  _ ← _optional _ns (next_attempt_at_ns r) "next_attempt_at_ns";
  _ ← _optional _ns (started_at_ns r) "started_at_ns";
  _ ← _optional _ns (finished_at_ns r) "finished_at_ns";
  _ ← _optional _ns (blocked_at_ns r) "blocked_at_ns";
  _ ← _ns (updated_at_ns r) "updated_at_ns";
  _ ← ensure (match reason_code r with None => true | Some c => in_list REASON_CODES c end)
        "reason_code must be a known reason code";
  ensure (match detail r with None => true | Some d => bool_decide (reason_detail d = Some d) end)
    "reason_detail must be sanitized by reason_detail()".

(** Lines 304-338: which fields are set in which status. *)
Definition check_status (r : JobRow) : result () :=
  let s := job_status r in
  let blocked := is_status s ARCHIVE_BLOCKED in
  _ ← ensure (eqb (is_status s ARCHIVING || blocked) (is_some (pending_outcome r)))
        "pending_outcome is set exactly while archiving or archive_blocked";
  _ ← ensure (match pending_outcome r with None => true | Some o => TERMINAL o end)
        "pending_outcome must be a terminal status";
  _ ← ensure (eqb blocked (is_some (blocked_reason_code r) && is_some (blocked_at_ns r))
              && (blocked || (negb (is_some (blocked_reason_code r)) && negb (is_some (blocked_at_ns r)))))
        "blocked fields are set exactly while archive_blocked";
  _ ← ensure (match blocked_reason_code r with None => true | Some c => in_list ARCHIVE_BLOCK_CODES c end)
        "blocked_reason_code must be an archive block code";
  _ ← ensure (eqb (TERMINAL s) (is_some (finished_at_ns r))
              && eqb (TERMINAL s) (is_some (archive_receipt_key r)))
        "terminal rows, and only they, have finished_at_ns and archive_receipt_key";
  _ ← (match archive_receipt_key r with
       | None => Ok ()
       | Some k => key ← job_receipt_key (job_id r);
                   ensure (String.eqb k key) "archive_receipt_key must be this job's receipt key"
       end);
  ensure (negb (is_some (next_attempt_at_ns r)) || RESUMABLE s) "only resumable rows are scheduled".

(** Lines 339-369: the shape of each status. *)
Definition check_shape (r : JobRow) : result () :=
  let s := job_status r in
  match s with
  | QUEUED =>
      ensure (negb (is_some (job_stage r)) && (stage_attempts r =? 0)
              && negb (is_some (started_at_ns r)) && negb (is_some (reason_code r)))
        "queued rows have no stage, attempts, start, or reason"
  | RUNNING =>
      _ ← ensure (match job_stage r with Some g => is_work_stage g | None => false end
                  && (1 <=? stage_attempts r) && is_some (started_at_ns r))
            "running rows have a work stage, an attempt, and a start";
      ensure (match reason_code r with None => true | Some c => in_list RETRYABLE_CODES c end)
        "a running row may only record its last retryable reason"
  | _ =>
      _ ← ensure (bool_decide (job_stage r = Some archive))
            "archiving and terminal rows are in stage archive";
      let outcome := if TERMINAL s then Some s else pending_outcome r in
      _ ← (if bool_decide (outcome = Some SUCCEEDED)
           then ensure (negb (is_some (reason_code r))) "succeeded has no reason code"
           else ensure (bool_decide ((reason_code r ≫= outcome_of_code) = outcome))
                  "requires a matching reason code");
      if TERMINAL s then ensure (stage_attempts r =? 0) "terminal rows hold no attempt" else Ok ()
  end.

(** [JobRow.__post_init__]. *)
Definition check_row (r : JobRow) : result () :=
  _ ← check_fields r; _ ← check_status r; check_shape r.

(** Construction, and [dataclasses.replace], check the new row. *)
Definition build (r : JobRow) : result JobRow := _ ← check_row r; Ok r.

Definition new_job (job_id_value submitted_by request_sha256 : string) (now_ns : Z)
    : result JobRow :=
  build (mkJobRow job_id_value now_ns submitted_by request_sha256 QUEUED None 0 None None now_ns
           None None None None None None None).

(** ** Claim order *)
Definition claimable (row : JobRow) (now_ns : Z) : bool :=
  RESUMABLE (job_status row) &&
  match next_attempt_at_ns row with None => true | Some t => t <=? now_ns end.

(** [(created_at_ns, job_id)] order. *)
Definition row_leb (a b : JobRow) : bool :=
  (created_at_ns a <? created_at_ns b) ||
  ((created_at_ns a =? created_at_ns b) &&
   match String.compare (job_id a) (job_id b) with Gt => false | _ => true end).

Definition select_next (rows : list JobRow) (now_ns : Z) : option JobRow :=
  match sort_by row_leb (filter (λ r, claimable r now_ns = true) rows) with
  | r :: _ => Some r
  | [] => head (sort_by row_leb (filter (λ r, job_status r = QUEUED) rows))
  end.

(** ** Transitions *)
Record orchestration := Orchestration {
  retry_backoff_seconds : Z;
  max_job_seconds : Z;
  max_stage_attempts : Z;
}.

(** The fields a transition replaces. *)
Definition set_progress (s : status) (g : option stage) (attempts : Z) (next started : option Z)
    (updated : Z) (r : JobRow) : JobRow :=
  mkJobRow (job_id r) (created_at_ns r) (submitted_by r) (request_sha256 r) s g attempts next
    started updated (finished_at_ns r) (pending_outcome r) (reason_code r) (detail r)
    (blocked_reason_code r) (blocked_at_ns r) (archive_receipt_key r).
Definition set_outcome (pending : option status) (code : option string) (d : option text)
    (r : JobRow) : JobRow :=
  mkJobRow (job_id r) (created_at_ns r) (submitted_by r) (request_sha256 r) (job_status r)
    (job_stage r) (stage_attempts r) (next_attempt_at_ns r) (started_at_ns r) (updated_at_ns r)
    (finished_at_ns r) pending code d (blocked_reason_code r) (blocked_at_ns r)
    (archive_receipt_key r).
Definition set_blocked (code : option string) (at_ns : option Z) (r : JobRow) : JobRow :=
  mkJobRow (job_id r) (created_at_ns r) (submitted_by r) (request_sha256 r) (job_status r)
    (job_stage r) (stage_attempts r) (next_attempt_at_ns r) (started_at_ns r) (updated_at_ns r)
    (finished_at_ns r) (pending_outcome r) (reason_code r) (detail r) code at_ns
    (archive_receipt_key r).
Definition set_finished (at_ns : option Z) (key : option string) (r : JobRow) : JobRow :=
  mkJobRow (job_id r) (created_at_ns r) (submitted_by r) (request_sha256 r) (job_status r)
    (job_stage r) (stage_attempts r) (next_attempt_at_ns r) (started_at_ns r) (updated_at_ns r)
    at_ns (pending_outcome r) (reason_code r) (detail r) (blocked_reason_code r) (blocked_at_ns r)
    key.

Definition seconds (n : Z) : Z := n * 1000000000.

Definition _enter_archiving (row : JobRow) (outcome : status) (code : option string)
    (d : option text) (now_ns : Z) : result JobRow :=
  build (set_outcome (Some outcome) code (clean_detail d)
    (set_progress ARCHIVING (Some archive) (if is_status (job_status row) QUEUED then 0 else 1)
       None (started_at_ns row) now_ns row)).

Definition succeed (row : JobRow) (now_ns : Z) : result JobRow :=
  _ ← ensure (is_status (job_status row) RUNNING && bool_decide (job_stage row = Some read))
        "only a read-complete job succeeds";
  _enter_archiving row SUCCEEDED None None now_ns.

Definition fail (row : JobRow) (code : string) (d : option text) (now_ns : Z) : result JobRow :=
  _ ← ensure (is_status (job_status row) RUNNING) "only running jobs end their work stages";
  match outcome_of_code code with
  | Some outcome =>
      _ ← ensure (negb (String.eqb code "cancelled")) "is not a work outcome";
      _enter_archiving row outcome (Some code) d now_ns
  | None => Err (ContractError "is not a work outcome" None)
  end.

Definition cancel (row : JobRow) (now_ns : Z) : result JobRow :=
  _ ← ensure (is_status (job_status row) QUEUED) "only queued jobs can be cancelled";
  _enter_archiving row CANCELLED (Some "cancelled"%string) None now_ns.

Definition block_archive (row : JobRow) (code : string) (now_ns : Z) : result JobRow :=
  _ ← ensure (is_status (job_status row) ARCHIVING) "only archiving jobs block";
  _ ← ensure (in_list ARCHIVE_BLOCK_CODES code) "is not an archive block code";
  build (set_blocked (Some code) (Some now_ns)
    (set_progress ARCHIVE_BLOCKED (job_stage row) (stage_attempts row) None (started_at_ns row)
       now_ns row)).

(** The detail [claim] records when a stage spent its attempts. *)
Definition codes (s : string) : text := map code (chars s).
Definition attempts_detail (row : JobRow) : text :=
  codes ("stage " +:+ match job_stage row with Some g => stage_name g | None => "None" end
         +:+ " started " +:+ str_int (stage_attempts row) +:+ " times").

Definition claim (row : JobRow) (o : orchestration) (now_ns : Z) : result JobRow :=
  let backoff := seconds (retry_backoff_seconds o) in
  if is_status (job_status row) QUEUED then
    build (set_progress RUNNING (Some resolve) 1 (Some (now_ns + backoff)) (Some now_ns) now_ns row)
  else
    _ ← ensure (claimable row now_ns) "is not claimable now";
    let again := build (set_progress (job_status row) (job_stage row) (stage_attempts row + 1)
                          (Some (now_ns + backoff)) (started_at_ns row) now_ns row) in
    let spent := max_stage_attempts o <=? stage_attempts row in
    if is_status (job_status row) RUNNING then
      match started_at_ns row with
      | None => Err (TypeError "NoneType")
      | Some started =>
          if started + seconds (max_job_seconds o) <=? now_ns
          then fail row "job_deadline_exceeded" None now_ns
          else if spent
          then fail row "stage_attempts_exhausted" (Some (attempts_detail row)) now_ns
          else again
      end
    else if spent then block_archive row "stage_attempts_exhausted" now_ns
    else again.

Definition advance (row : JobRow) (g : stage) (now_ns : Z) : result JobRow :=
  _ ← ensure (is_status (job_status row) RUNNING) "only running jobs advance";
  _ ← ensure (is_work_stage g) "does not follow";
  match job_stage row with
  | None => Err (ValueError "index")
  | Some g0 =>
      _ ← ensure (stage_index g =? stage_index g0 + 1)%nat "does not follow";
      build (set_outcome (pending_outcome row) None None
        (set_progress (job_status row) (Some g) 1 (next_attempt_at_ns row) (started_at_ns row)
           now_ns row))
  end.

Definition retry_later (row : JobRow) (code : string) (d : option text) (o : orchestration)
    (now_ns : Z) : result JobRow :=
  _ ← ensure (RESUMABLE (job_status row)) "only resumable jobs retry";
  _ ← ensure (in_list RETRYABLE_CODES code) "is not retryable";
  let next := Some (now_ns + seconds (retry_backoff_seconds o)) in
  let row' := set_progress (job_status row) (job_stage row) (stage_attempts row) next
                (started_at_ns row) now_ns row in
  if is_status (job_status row) ARCHIVING then build row'
  else build (set_outcome (pending_outcome row) (Some code) (clean_detail d) row').

Definition lose_local_state (row : JobRow) (d : option text) (now_ns : Z) : result JobRow :=
  _ ← ensure (RESUMABLE (job_status row)) "only resumable jobs can lose local state";
  if is_status (job_status row) RUNNING then fail row "local_state_lost" d now_ns
  else build (set_outcome (Some FAILED) (Some "local_state_lost"%string) (clean_detail d)
         (set_progress (job_status row) (job_stage row) (stage_attempts row)
            (next_attempt_at_ns row) (started_at_ns row) now_ns row)).

Definition resume_blocked (row : JobRow) (now_ns : Z) : result JobRow :=
  _ ← ensure (is_status (job_status row) ARCHIVE_BLOCKED) "only blocked jobs resume";
  build (set_blocked None None
    (set_progress ARCHIVING (job_stage row) 0 (next_attempt_at_ns row) (started_at_ns row)
       now_ns row)).

Definition finish (row : JobRow) (finished_ns now_ns : Z) : result JobRow :=
  _ ← ensure (is_status (job_status row) ARCHIVING) "only archiving jobs finish";
  _ ← _ns finished_ns "finished_at_ns";
  _ ← _ns now_ns "now_ns";
  _ ← ensure ((created_at_ns row <=? finished_ns) && (finished_ns <=? now_ns))
        "finished_at_ns must be between job creation and reconciliation time";
  key ← job_receipt_key (job_id row);
  match pending_outcome row with
  | None => Err (ContractError "unknown job status" None)
  | Some outcome =>
      build (set_finished (Some finished_ns) (Some key)
        (set_outcome None (reason_code row) (detail row)
          (set_progress outcome (job_stage row) 0 None (started_at_ns row) now_ns row)))
  end.
End Unicode.

(** ** Window alignment *)
Definition _window_period (window_seconds : Z) : result Z :=
  _ ← ensure ((0 <? window_seconds) && (86400 mod window_seconds =? 0))
        "canonical_window_seconds must be a positive divisor of 86400";
  Ok (seconds window_seconds).

(** [range(first, last, period)] for a positive period. *)
Definition py_range (first last period : Z) : list Z :=
  map (λ i, first + period * Z.of_nat i) (seq 0 (Z.to_nat (- (- (last - first) / period)))).

Definition window_bounds (start_ns end_ns window_seconds : Z) : result (Z * Z * list Z) :=
  _ ← ensure (start_ns <? end_ns) "interval must satisfy start_ns < end_ns";
  period ← _window_period window_seconds;
  let first := start_ns / period * period in
  let last := - (- end_ns / period) * period in
  Ok (first, last, py_range first last period).

(** ** The row checks as propositions *)
Lemma ensure_bind {A} b m (k : () → result A) v : (ensure b m ≫= k) = Ok v ↔ b = true ∧ k () = Ok v.
Proof. destruct b; cbn; naive_solver. Qed.
Lemma ensure_ok b m : ensure b m = Ok () ↔ b = true.
Proof. destruct b; cbn; naive_solver. Qed.

Definition u64 (n : Z) : Prop := 0 ≤ n < 2 ^ 64.
Definition opt_u64 (o : option Z) : Prop := match o with None => True | Some n => u64 n end.

Lemma ns_bind {A} n m (k : () → result A) v : (_ns n m ≫= k) = Ok v ↔ u64 n ∧ k () = Ok v.
Proof. unfold _ns, u64. rewrite ensure_bind, andb_true_iff, Z.leb_le, Z.ltb_lt. done. Qed.

Lemma optional_ns_bind {A} o m (k : () → result A) v :
  (_optional _ns o m ≫= k) = Ok v ↔ opt_u64 o ∧ k () = Ok v.
Proof. destruct o; simpl; [apply ns_bind|naive_solver]. Qed.

Section Rows.
Context (isprintable isspace : Z → bool).

Local Abbreviation fields_check := (check_fields isprintable isspace).
Local Abbreviation row_check := (check_row isprintable isspace).
Local Abbreviation row_build := (build isprintable isspace).
Local Abbreviation sanitize := (reason_detail isprintable isspace).
Local Abbreviation clean_text := (clean_detail isprintable isspace).
Definition clean (d : option text) : Prop :=
  match d with None => True | Some d => sanitize d = Some d end.

Record fields_ok (r : JobRow) : Prop := FieldsOk {
  fo_id : valid_job_id (job_id r) = true;
  fo_created : u64 (created_at_ns r);
  fo_by : is_address (submitted_by r) = true;
  fo_sha : is_hex64 (request_sha256 r) = true;
  fo_attempts : 0 ≤ stage_attempts r;
  fo_next : opt_u64 (next_attempt_at_ns r);
  fo_started : opt_u64 (started_at_ns r);
  fo_finished : opt_u64 (finished_at_ns r);
  fo_blocked : opt_u64 (blocked_at_ns r);
  fo_updated : u64 (updated_at_ns r);
  fo_code : match reason_code r with None => True | Some c => in_list REASON_CODES c = true end;
  fo_detail : clean (detail r);
}.

Lemma check_fields_ok r : fields_check r = Ok () ↔ fields_ok r.
Proof.
  unfold check_fields, check_job_id, _nonnegative_int.
  rewrite !ensure_bind, ns_bind, !ensure_bind, !optional_ns_bind, ns_bind, ensure_bind, ensure_ok.
  rewrite Z.leb_le. split.
  - intros (? & ? & ? & ? & ? & ? & ? & ? & ? & ? & Hc & Hd). split; try done.
    + by destruct (reason_code r).
    + unfold clean. destruct (detail r); [|done]. by apply bool_decide_eq_true in Hd.
  - intros []. split_and!; try done.
    + by destruct (reason_code r).
    + unfold clean in *. destruct (detail r); [|done]. by apply bool_decide_eq_true.
Qed.

Definition code_matches (o : status) (code : option string) : Prop :=
  if decide (o = SUCCEEDED) then code = None else (code ≫= outcome_of_code) = Some o.

Definition receipt_key (r : JobRow) : string := "replay/jobs/" +:+ job_id r +:+ "/job_receipt.json".

(** The shape of a row of each status. *)
Definition shape_ok (r : JobRow) : Prop :=
  let unblocked := blocked_reason_code r = None ∧ blocked_at_ns r = None in
  let unfinished := finished_at_ns r = None ∧ archive_receipt_key r = None in
  match job_status r with
  | QUEUED =>
      job_stage r = None ∧ stage_attempts r = 0 ∧ started_at_ns r = None ∧ reason_code r = None ∧
      next_attempt_at_ns r = None ∧ pending_outcome r = None ∧ unblocked ∧ unfinished
  | RUNNING =>
      (∃ g, job_stage r = Some g ∧ is_work_stage g = true) ∧ 1 ≤ stage_attempts r ∧
      is_Some (started_at_ns r) ∧
      (∀ c, reason_code r = Some c → in_list RETRYABLE_CODES c = true) ∧
      pending_outcome r = None ∧ unblocked ∧ unfinished
  | ARCHIVING =>
      job_stage r = Some archive ∧ unblocked ∧ unfinished ∧
      ∃ o, pending_outcome r = Some o ∧ TERMINAL o = true ∧ code_matches o (reason_code r)
  | ARCHIVE_BLOCKED =>
      job_stage r = Some archive ∧ unfinished ∧ next_attempt_at_ns r = None ∧
      (∃ c, blocked_reason_code r = Some c ∧ in_list ARCHIVE_BLOCK_CODES c = true) ∧
      is_Some (blocked_at_ns r) ∧
      ∃ o, pending_outcome r = Some o ∧ TERMINAL o = true ∧ code_matches o (reason_code r)
  | t =>
      job_stage r = Some archive ∧ stage_attempts r = 0 ∧ next_attempt_at_ns r = None ∧
      pending_outcome r = None ∧ unblocked ∧ is_Some (finished_at_ns r) ∧
      archive_receipt_key r = Some (receipt_key r) ∧ code_matches t (reason_code r)
  end.

Lemma job_receipt_key_ok id : valid_job_id id = true →
  job_receipt_key id = Ok ("replay/jobs/" +:+ id +:+ "/job_receipt.json").
Proof. intros H. unfold job_receipt_key, check_job_id. by rewrite H. Qed.

Lemma code_matches_check o c :
  (if bool_decide (Some o = Some SUCCEEDED) then ensure (negb (is_some c)) "succeeded has no reason code"
   else ensure (bool_decide ((c ≫= outcome_of_code) = Some o)) "requires a matching reason code") = Ok ()
  ↔ code_matches o c.
Proof.
  unfold code_matches. destruct (decide (o = SUCCEEDED)) as [->|Hne].
  - rewrite bool_decide_true by done. rewrite ensure_ok. destruct c; simpl; naive_solver.
  - rewrite bool_decide_false by congruence. by rewrite ensure_ok, bool_decide_eq_true.
Qed.

Lemma check_status_ok r :
  valid_job_id (job_id r) = true →
  check_status r = Ok () ↔
  (is_Some (pending_outcome r) ↔ job_status r = ARCHIVING ∨ job_status r = ARCHIVE_BLOCKED) ∧
  (∀ o, pending_outcome r = Some o → TERMINAL o = true) ∧
  (if decide (job_status r = ARCHIVE_BLOCKED)
   then is_Some (blocked_reason_code r) ∧ is_Some (blocked_at_ns r)
   else blocked_reason_code r = None ∧ blocked_at_ns r = None) ∧
  (∀ c, blocked_reason_code r = Some c → in_list ARCHIVE_BLOCK_CODES c = true) ∧
  (if TERMINAL (job_status r)
   then is_Some (finished_at_ns r) ∧ archive_receipt_key r = Some (receipt_key r)
   else finished_at_ns r = None ∧ archive_receipt_key r = None) ∧
  (RESUMABLE (job_status r) = false → next_attempt_at_ns r = None).
Proof.
  intros Hid. unfold check_status. rewrite !ensure_bind.
  assert (∀ k, ((match archive_receipt_key r with
       | None => Ok ()
       | Some k => key ← job_receipt_key (job_id r);
                   ensure (String.eqb k key) "archive_receipt_key must be this job's receipt key"
       end) ≫= k) = Ok () ↔ (∀ key, archive_receipt_key r = Some key → key = receipt_key r) ∧ k () = Ok ()) as Hkey.
  { intros k. destruct (archive_receipt_key r) as [key|]; simpl; [|naive_solver].
    rewrite job_receipt_key_ok by done. cbn [mbind result_bind]. unfold receipt_key.
    destruct (String.eqb_spec key ("replay/jobs/" +:+ job_id r +:+ "/job_receipt.json")); simpl; naive_solver. }
  rewrite Hkey, ensure_ok. clear Hkey.
  destruct (job_status r) eqn:Es, (pending_outcome r) as [o|], (blocked_reason_code r) as [c|],
    (blocked_at_ns r), (finished_at_ns r), (archive_receipt_key r), (next_attempt_at_ns r); simpl;
    try (split; [intros (? & ? & ? & ? & ? & ? & ?); done|intros (? & ? & ? & ? & ? & ?)];
         exfalso; naive_solver).
  all: try naive_solver.
Qed.

Lemma result_unit_bind (m k : result ()) : (m ≫= λ _, k) = Ok () ↔ m = Ok () ∧ k = Ok ().
Proof. rewrite bind_ok. split; [intros ([] & ? & ?); auto|intros [? ?]; eauto]. Qed.

Ltac close_row :=
  first [ done | by apply Z.leb_le | by apply Z.eqb_eq | solve [auto] | by eexists | solve [eauto] | idtac ].

(** The two directions for a terminal status. *)
Ltac terminal_shape Hp Hb Hfin Hshape :=
  rewrite decide_False in Hb by done;
  match type of Hp with is_Some ?p ↔ _ =>
    assert (p = None) by (apply eq_None_not_Some; naive_solver) end;
  cbn [TERMINAL] in Hshape; rewrite ensure_bind, result_unit_bind, code_matches_check, ensure_ok,
    bool_decide_eq_true, Z.eqb_eq in Hshape;
  destruct Hshape as (? & ? & ?), Hb, Hfin; split_and!; close_row.
Ltac terminal_checks H :=
  destruct H as (-> & -> & -> & -> & [-> ->] & [f ->] & -> & Hm); cbn [TERMINAL RESUMABLE];
  rewrite ensure_bind, result_unit_bind, code_matches_check; (split; [naive_solver|]);
  (split_and!; [by apply bool_decide_eq_true|done|done]).

Lemma check_row_ok r : row_check r = Ok () ↔ fields_ok r ∧ shape_ok r.
Proof.
  unfold check_row. rewrite !result_unit_bind.
   rewrite check_fields_ok. split; (intros [Hf H]; split; [done|]).
  - destruct H as [H Hshape]. apply check_status_ok in H; [|apply Hf].
    destruct H as (Hp & Ht & Hb & Hbc & Hfin & Hn).
    unfold check_shape in Hshape. unfold shape_ok. destruct (job_status r) eqn:Es; simpl in Hfin, Hn.
    + rewrite decide_False in Hb by done. rewrite ensure_ok in Hshape.
      repeat (apply andb_true_iff in Hshape as [Hshape ?]).
      assert (pending_outcome r = None) by (apply eq_None_not_Some; naive_solver).
      destruct (job_stage r), (started_at_ns r), (reason_code r); try done.
      destruct Hb, Hfin. split_and!; close_row.
    + rewrite decide_False in Hb by done. rewrite ensure_bind, ensure_ok in Hshape.
      destruct Hshape as [Hs Hc]. repeat (apply andb_true_iff in Hs as [Hs ?]).
      assert (pending_outcome r = None) by (apply eq_None_not_Some; naive_solver).
      destruct (job_stage r) as [g|], (started_at_ns r); try done.
      destruct Hb, Hfin. split_and!; close_row. intros c Ec. by rewrite Ec in Hc.
    + rewrite decide_False in Hb by done.
      destruct (pending_outcome r) as [o|]; [|by destruct (proj2 Hp ltac:(by left))].
      simpl in Hshape. rewrite ensure_bind, result_unit_bind, code_matches_check, bool_decide_eq_true in Hshape.
      destruct Hshape as (? & ? & _), Hb, Hfin. split_and!; close_row.
    + rewrite decide_True in Hb by done.
      destruct (pending_outcome r) as [o|]; [|by destruct (proj2 Hp ltac:(by right))].
      simpl in Hshape. rewrite ensure_bind, result_unit_bind, code_matches_check, bool_decide_eq_true in Hshape.
      destruct Hb as [[c Hc] Hb]. destruct Hshape as (? & ? & _), Hfin.
      split_and!; close_row.
    + terminal_shape Hp Hb Hfin Hshape.
    + terminal_shape Hp Hb Hfin Hshape.
    + terminal_shape Hp Hb Hfin Hshape.
    + terminal_shape Hp Hb Hfin Hshape.
    + terminal_shape Hp Hb Hfin Hshape.
    + terminal_shape Hp Hb Hfin Hshape.
  - rewrite check_status_ok by apply Hf. unfold shape_ok in H. unfold check_shape.
    destruct (job_status r) eqn:Es.
    + destruct H as (-> & -> & -> & -> & -> & -> & [-> ->] & [-> ->]). simpl. naive_solver.
    + destruct H as ((g & -> & Hg) & Ha & [st ->] & Hc & -> & [-> ->] & [-> ->]). simpl.
      split; [naive_solver|]. rewrite Hg. apply Z.leb_le in Ha. rewrite Ha. simpl.
      destruct (reason_code r) as [c|]; [|done]. rewrite ensure_ok. by apply Hc.
    + destruct H as (-> & [-> ->] & [-> ->] & o & -> & Ho & Hm). cbn [TERMINAL RESUMABLE].
      rewrite ensure_bind, result_unit_bind, code_matches_check. split; [naive_solver|].
      split_and!; [by apply bool_decide_eq_true|done|done].
    + destruct H as (-> & [-> ->] & -> & (c & -> & Hc) & [b ->] & o & -> & Ho & Hm).
      cbn [TERMINAL RESUMABLE].
      rewrite ensure_bind, result_unit_bind, code_matches_check. split; [naive_solver|].
      split_and!; [by apply bool_decide_eq_true|done|done].
    + terminal_checks H.
    + terminal_checks H.
    + terminal_checks H.
    + terminal_checks H.
    + terminal_checks H.
    + terminal_checks H.
Qed.
End Rows.
