(* ===== verification/JobMachine.v ===== *)
(** * The job state machine ([src/replay/jobs/contracts.py], lines 375-575)

    Every transition of [JobContracts] keeps rows well formed and never fails when its
    guard holds; terminal outcomes are frozen on an archiving row first; claim order,
    bundle-history resolution and window alignment. *)
From stdpp Require Import list strings.
From S2P Require Import Prelude Wire JobDetail JobContracts.

Section Rows.
Context (isprintable isspace : Z → bool).

Local Abbreviation row_check := (check_row isprintable isspace).
Local Abbreviation row_build := (build isprintable isspace).
Local Abbreviation clean_text := (clean_detail isprintable isspace).
Local Abbreviation clean := (clean isprintable isspace).
Local Abbreviation fields_ok := (fields_ok isprintable isspace).

Definition valid (r : JobRow) : Prop := fields_ok r ∧ shape_ok r.

Lemma build_ok r r' : row_build r = Ok r' ↔ r' = r ∧ valid r.
Proof.
  unfold build, valid. rewrite <- check_row_ok. destruct (row_check r) as [[]|e]; simpl; naive_solver.
Qed.

Lemma build_valid r : valid r → row_build r = Ok r.
Proof. intros H. by apply build_ok. Qed.

Context (laws : UnicodeLaws isprintable isspace).

Lemma clean_text_clean d : clean (clean_text d).
Proof. unfold clean. destruct (clean_text d) eqn:E; [by eapply clean_detail_fixed|done]. Qed.

Lemma assoc_elem {A} (l : list (string * A)) k v : assoc l k = Some v → (k, v) ∈ l.
Proof.
  induction l as [|[k' w] l IH]; simpl; [done|].
  destruct (String.eqb_spec k k') as [->|]; [intros [= ->]; left|right; auto].
Qed.

Lemma outcome_known code o :
  outcome_of_code code = Some o → in_list REASON_CODES code = true ∧ TERMINAL o = true ∧
    (o = SUCCEEDED → False).
Proof.
  intros H%assoc_elem. assert (forallb (λ kv, in_list REASON_CODES kv.1 && TERMINAL kv.2
    && negb (is_status kv.2 SUCCEEDED)) OUTCOME_OF_CODE = true) as Hall by (vm_compute; reflexivity).
  apply forallb_Forall in Hall. rewrite Forall_forall in Hall. apply Hall in H.
  apply andb_true_iff in H as [[H1 H2]%andb_true_iff H3]. split_and!; [done..|].
  simpl in H3. by intros ->.
Qed.

Lemma retryable_known code : in_list RETRYABLE_CODES code = true → in_list REASON_CODES code = true.
Proof.
  unfold RETRYABLE_CODES. rewrite in_list_elem, !elem_of_cons, elem_of_nil.
  intros [->|[->|[->|[]]]]; reflexivity.
Qed.

(** The time a transition writes fits. *)
Definition time_ok (o : orchestration) (now_ns : Z) : Prop :=
  0 ≤ now_ns ∧ 0 ≤ retry_backoff_seconds o ∧ now_ns + seconds (retry_backoff_seconds o) < 2 ^ 64.

Lemma time_u64 o now : time_ok o now → u64 now ∧ u64 (now + seconds (retry_backoff_seconds o)).
Proof. unfold time_ok, u64, seconds. lia. Qed.

(** Who the job is: never changed by a transition. *)
Definition identity (r : JobRow) := (job_id r, created_at_ns r, submitted_by r, request_sha256 r).

Lemma enter_archiving_ok row outcome code d now :
  valid row → job_status row = QUEUED ∨ job_status row = RUNNING → u64 now →
  TERMINAL outcome = true → code_matches outcome code →
  (∀ c, code = Some c → in_list REASON_CODES c = true) →
  ∃ r', _enter_archiving isprintable isspace row outcome code d now = Ok r' ∧ valid r' ∧
    identity r' = identity row ∧ job_status r' = ARCHIVING ∧ pending_outcome r' = Some outcome ∧
    reason_code r' = code.
Proof.
  intros [[] Hsh] Hst Hnow Ho Hm Hc. unfold _enter_archiving.
  set (r' := set_outcome _ _ _ _). assert (valid r') as Hv.
  2:{ exists r'. rewrite (build_valid _ Hv). by split_and!. }
  unfold shape_ok in Hsh. split.
  - split; try done.
    + subst r'. simpl. by destruct (is_status _ _).
    + subst r'. simpl. destruct code; [by apply Hc|done].
    + apply clean_text_clean.
  - unfold shape_ok. simpl.
    destruct Hst as [E|E]; rewrite E in Hsh; simpl in Hsh; intuition eauto.
Qed.

(** A transition's result: a checked row of the same job. *)
Definition moved (row : JobRow) (m : result JobRow) (P : JobRow → Prop) : Prop :=
  ∃ r', m = Ok r' ∧ valid r' ∧ identity r' = identity row ∧ P r'.

Lemma build_moved row r' (P : JobRow → Prop) :
  fields_ok r' → shape_ok r' → identity r' = identity row → P r' → moved row (row_build r') P.
Proof. intros. exists r'. rewrite build_valid by done. by split_and!. Qed.

Lemma is_status_true s : is_status s s = true.
Proof. unfold is_status. by rewrite bool_decide_true. Qed.
Lemma is_status_false s t : s ≠ t → is_status s t = false.
Proof. intros. unfold is_status. by rewrite bool_decide_false. Qed.

(** The archiving row that carries [outcome]. *)
Definition carries (outcome : status) (code : option string) (r : JobRow) : Prop :=
  job_status r = ARCHIVING ∧ pending_outcome r = Some outcome ∧ reason_code r = code.

Lemma succeed_ok row now :
  valid row → job_status row = RUNNING → job_stage row = Some read → u64 now →
  moved row (succeed isprintable isspace row now) (carries SUCCEEDED None).
Proof.
  intros Hv Hs Hg Hnow. unfold succeed. rewrite Hs, Hg. cbn [is_status bool_decide].
  destruct (enter_archiving_ok row SUCCEEDED None None now) as (r' & E & Hr & Hi & H); try (done || by right).
  exists r'. rewrite <- E. by split_and!.
Qed.

Lemma fail_ok row code o d now :
  valid row → job_status row = RUNNING → outcome_of_code code = Some o → code ≠ "cancelled"%string →
  u64 now → moved row (fail isprintable isspace row code d now) (carries o (Some code)).
Proof.
  intros Hv Hs Ho Hc Hnow. unfold fail. rewrite Hs, Ho, is_status_true.
  apply String.eqb_neq in Hc as ->. cbn [mbind result_bind ensure _require guard_or negb].
  destruct (outcome_known _ _ Ho) as (Hk & Ht & Hns).
  destruct (enter_archiving_ok row o (Some code) d now) as (r' & E & Hr & Hi & H); try (done || by right).
  - unfold code_matches. destruct (decide (o = SUCCEEDED)) as [->|]; [done|]. exact Ho.
  - by intros c [= <-].
  - exists r'. simpl. rewrite E. by split_and!.
Qed.

Lemma cancel_ok row now :
  valid row → job_status row = QUEUED → u64 now →
  moved row (cancel isprintable isspace row now) (carries CANCELLED (Some "cancelled"%string)).
Proof.
  intros Hv Hs Hnow. unfold cancel. rewrite Hs, is_status_true.
  destruct (enter_archiving_ok row CANCELLED (Some "cancelled"%string) None now)
    as (r' & E & Hr & Hi & H); try (done || by left || by intros c [= <-]).
  exists r'. simpl. rewrite E. by split_and!.
Qed.

Lemma block_archive_ok row code now :
  valid row → job_status row = ARCHIVING → in_list ARCHIVE_BLOCK_CODES code = true → u64 now →
  moved row (block_archive isprintable isspace row code now)
    (λ r', job_status r' = ARCHIVE_BLOCKED ∧ pending_outcome r' = pending_outcome row ∧
           reason_code r' = reason_code row).
Proof.
  intros [[] Hsh] Hs Hc Hnow. unfold block_archive. rewrite Hs, Hc, is_status_true. simpl.
  unfold shape_ok in Hsh. rewrite Hs in Hsh. destruct Hsh as (Hg & [Hb1 Hb2] & Hf & o & Ho).
  apply build_moved; [by split| |done|done]. unfold shape_ok; simpl. split_and!; eauto; apply Hf.
Qed.

Lemma resume_blocked_ok row now :
  valid row → job_status row = ARCHIVE_BLOCKED → u64 now →
  moved row (resume_blocked isprintable isspace row now)
    (λ r', job_status r' = ARCHIVING ∧ pending_outcome r' = pending_outcome row ∧
           reason_code r' = reason_code row).
Proof.
  intros [[] Hsh] Hs Hnow. unfold resume_blocked. rewrite Hs, is_status_true. simpl.
  unfold shape_ok in Hsh. rewrite Hs in Hsh. destruct Hsh as (Hg & Hf & Hn & Hb & Hbt & Ho).
  apply build_moved; [by split| |done|done]. unfold shape_ok; simpl. split_and!; eauto; apply Hf.
Qed.

Lemma advance_ok row g g0 now :
  valid row → job_status row = RUNNING → job_stage row = Some g0 → is_work_stage g = true →
  stage_index g = (stage_index g0 + 1)%nat → u64 now →
  moved row (advance isprintable isspace row g now)
    (λ r', job_status r' = RUNNING ∧ job_stage r' = Some g).
Proof.
  intros [[] Hsh] Hs Hg0 Hg Hi Hnow. unfold advance.
  rewrite Hs, Hg0, Hg, Hi, Nat.eqb_refl, is_status_true. simpl.
  unfold shape_ok in Hsh. rewrite Hs in Hsh. destruct Hsh as (_ & Ha & Hst & Hc & Hp & [Hb1 Hb2] & [Hf1 Hf2]).
  apply build_moved; [by split| |done|done]. unfold shape_ok; simpl. split_and!; eauto; lia || done.
Qed.

Lemma retry_later_ok row code d o now :
  valid row → RESUMABLE (job_status row) = true → in_list RETRYABLE_CODES code = true → time_ok o now →
  moved row (retry_later isprintable isspace row code d o now)
    (λ r', job_status r' = job_status row ∧ pending_outcome r' = pending_outcome row ∧
           (job_status row = ARCHIVING → reason_code r' = reason_code row)).
Proof.
  intros [[] Hsh] Hs Hc Ht. apply time_u64 in Ht as [Hnow Hnext]. unfold retry_later. rewrite Hs, Hc.
  cbn [mbind result_bind ensure _require guard_or].
  unfold shape_ok in Hsh. destruct (job_status row) eqn:E; try done; simpl.
  - destruct Hsh as (Hg & Ha & Hst & _ & Hp & [Hb1 Hb2] & [Hf1 Hf2]).
    apply build_moved; [| |done|by split_and!].
    + split; simpl; try done; [by apply retryable_known|apply clean_text_clean].
    + unfold shape_ok; simpl. split_and!; try done. by intros c [= <-].
  - destruct Hsh as (Hg & [Hb1 Hb2] & [Hf1 Hf2] & out & Ho).
    apply build_moved; [by split| |done|by split_and!].
    unfold shape_ok; simpl. split_and!; eauto.
Qed.

Lemma lose_local_state_ok row d now :
  valid row → RESUMABLE (job_status row) = true → u64 now →
  moved row (lose_local_state isprintable isspace row d now)
    (carries FAILED (Some "local_state_lost"%string)).
Proof.
  intros Hv Hs Hnow. unfold lose_local_state. rewrite Hs. cbn [mbind result_bind ensure _require guard_or].
  destruct (job_status row) eqn:E; try done; simpl.
  - by apply fail_ok.
  - destruct Hv as [[] Hsh]. unfold shape_ok in Hsh. rewrite E in Hsh.
    destruct Hsh as (Hg & [Hb1 Hb2] & [Hf1 Hf2] & out & Ho).
    apply build_moved; [| |done|by split_and!].
    + split; simpl; try done. apply clean_text_clean.
    + unfold shape_ok; simpl. split_and!; try done. exists FAILED. by split_and!.
Qed.

Lemma finish_ok row fin now :
  valid row → job_status row = ARCHIVING → u64 now → created_at_ns row ≤ fin ≤ now →
  moved row (finish isprintable isspace row fin now)
    (λ r', Some (job_status r') = pending_outcome row ∧ TERMINAL (job_status r') = true ∧
           reason_code r' = reason_code row ∧ detail r' = detail row ∧
           finished_at_ns r' = Some fin).
Proof.
  intros [Hf Hsh] Hs Hnow Hfin. unfold finish. rewrite Hs, is_status_true.
  unfold shape_ok in Hsh. rewrite Hs in Hsh. destruct Hsh as (Hg & [Hb1 Hb2] & [Hf1 Hf2] & out & Ho & Ht & Hm).
  assert (u64 fin) as Hu by (destruct Hf; unfold u64 in *; lia).
  assert (∀ n m, u64 n → _ns n m = Ok ()) as Hns.
  { intros n m Hn. unfold _ns. apply ensure_ok, andb_true_iff. rewrite Z.leb_le, Z.ltb_lt. exact Hn. }
  rewrite !Hns by done. destruct Hfin as [?%Z.leb_le ?%Z.leb_le]. rewrite H, H0.
  rewrite job_receipt_key_ok by apply Hf. rewrite Ho. cbn [mbind result_bind ensure _require guard_or andb].
  destruct Hf. apply build_moved; [by split| |done|by split_and!].
  unfold shape_ok; simpl. destruct out; try done; simpl; split_and!; try done; by eexists.
Qed.

Lemma claim_ok row o now :
  valid row → job_status row = QUEUED ∨ claimable row now = true → time_ok o now →
  moved row (claim isprintable isspace row o now)
    (λ r', (job_status r' = RUNNING ∧ (job_status row = QUEUED ∨ job_status row = RUNNING)) ∨
           (job_status row = RUNNING ∧ (carries FAILED (Some "job_deadline_exceeded"%string) r' ∨
                                        carries FAILED (Some "stage_attempts_exhausted"%string) r')) ∨
           (job_status row = ARCHIVING ∧ (job_status r' = ARCHIVING ∨ job_status r' = ARCHIVE_BLOCKED) ∧
            pending_outcome r' = pending_outcome row ∧ reason_code r' = reason_code row)).
Proof.
  intros Hv Hc Ht. pose proof (time_u64 _ _ Ht) as [Hnow Hnext]. unfold claim.
  destruct (decide (job_status row = QUEUED)) as [E|E].
  - rewrite E, is_status_true. destruct Hv as [[] Hsh]. unfold shape_ok in Hsh. rewrite E in Hsh.
    destruct Hsh as (_ & _ & _ & Hcode & _ & Hp & [Hb1 Hb2] & [Hf1 Hf2]).
    apply build_moved; [by split| |done|left; auto].
    unfold shape_ok; simpl. split_and!; try done; [by exists resolve|by rewrite Hcode].
  - destruct Hc as [Hc|Hc]; [done|]. rewrite is_status_false, Hc by done.
    cbn [mbind result_bind ensure _require guard_or].
    assert (∀ P, P (set_progress (job_status row) (job_stage row) (stage_attempts row + 1)
      (Some (now + seconds (retry_backoff_seconds o))) (started_at_ns row) now row) →
      moved row (row_build (set_progress (job_status row) (job_stage row) (stage_attempts row + 1)
      (Some (now + seconds (retry_backoff_seconds o))) (started_at_ns row) now row)) P) as Hagain.
    { intros P HP. destruct Hv as [[] Hsh]. unfold claimable in Hc. unfold shape_ok in Hsh.
      apply build_moved; [split; simpl; done || lia| |done|done]. unfold shape_ok; simpl.
      destruct (job_status row); try done; intuition eauto with lia. }
    assert (job_status row = RUNNING ∨ job_status row = ARCHIVING) as [Es|Es]
      by (unfold claimable in Hc; destruct (job_status row); auto; done).
    + rewrite Es, is_status_true. pose proof Hv as [_ Hsh]. unfold shape_ok in Hsh. rewrite Es in Hsh.
      destruct Hsh as (_ & _ & [st Est] & _). rewrite Est in Hagain |- *. destruct (_ <=? now).
      * destruct (fail_ok row "job_deadline_exceeded" FAILED None now) as (r' & Er & ? & ? & ?); try done.
        exists r'. split_and!; [done..|]. right; left. auto.
      * destruct (max_stage_attempts o <=? stage_attempts row).
        -- destruct (fail_ok row "stage_attempts_exhausted" FAILED (Some (attempts_detail row)) now)
             as (r' & Er & ? & ? & ?); try done.
           exists r'. split_and!; [done..|]. right; left. auto.
        -- rewrite Es in Hagain. apply Hagain. left. auto.
    + rewrite Es. rewrite is_status_false by done. destruct (max_stage_attempts o <=? stage_attempts row).
      * destruct (block_archive_ok row "stage_attempts_exhausted" now) as (r' & Er & ? & ? & ? & ? & ?); try done.
        exists r'. split_and!; [done..|]. right; right. auto.
      * rewrite Es in Hagain. apply Hagain. right; right. auto.
Qed.

(** ** The state machine *)

(** A transition request with its arguments. *)
Inductive event :=
| EClaim
| EAdvance (g : stage)
| ERetry (code : string) (d : option text)
| ESucceed
| EFail (code : string) (d : option text)
| ECancel
| ELose (d : option text)
| EBlock (code : string)
| EResume
| EFinish (finished_ns : Z).

Definition apply_event (o : orchestration) (row : JobRow) (e : event * Z) : result JobRow :=
  let now := e.2 in
  match e.1 with
  | EClaim => claim isprintable isspace row o now
  | EAdvance g => advance isprintable isspace row g now
  | ERetry code d => retry_later isprintable isspace row code d o now
  | ESucceed => succeed isprintable isspace row now
  | EFail code d => fail isprintable isspace row code d now
  | ECancel => cancel isprintable isspace row now
  | ELose d => lose_local_state isprintable isspace row d now
  | EBlock code => block_archive isprintable isspace row code now
  | EResume => resume_blocked isprintable isspace row now
  | EFinish fin => finish isprintable isspace row fin now
  end.

(** The guard of a transition. *)
Definition enabled (row : JobRow) (e : event * Z) : Prop :=
  let s := job_status row in
  match e.1 with
  | EClaim => s = QUEUED ∨ claimable row e.2 = true
  | EAdvance g => s = RUNNING ∧ is_work_stage g = true ∧
      ∃ g0, job_stage row = Some g0 ∧ stage_index g = (stage_index g0 + 1)%nat
  | ERetry code _ => RESUMABLE s = true ∧ in_list RETRYABLE_CODES code = true
  | ESucceed => s = RUNNING ∧ job_stage row = Some read
  | EFail code _ => s = RUNNING ∧ is_Some (outcome_of_code code) ∧ code ≠ "cancelled"%string
  | ECancel => s = QUEUED
  | ELose _ => RESUMABLE s = true
  | EBlock code => s = ARCHIVING ∧ in_list ARCHIVE_BLOCK_CODES code = true
  | EResume => s = ARCHIVE_BLOCKED
  | EFinish fin => s = ARCHIVING ∧ created_at_ns row ≤ fin ≤ e.2
  end.

Lemma moved_valid row m P : moved row m P → ∃ r', m = Ok r' ∧ valid r' ∧ identity r' = identity row.
Proof. intros (r' & ? & ? & ? & _). eauto. Qed.

Lemma enabled_moves o row e :
  valid row → time_ok o e.2 → enabled row e →
  ∃ r', apply_event o row e = Ok r' ∧ valid r' ∧ identity r' = identity row.
Proof.
  intros Hv Ht. pose proof (time_u64 _ _ Ht) as [Hnow _]. destruct e as [ev now]; simpl in *.
  destruct ev; unfold enabled; simpl.
  - intros. eapply moved_valid, claim_ok; eauto.
  - intros (? & ? & g0 & ? & ?). eapply moved_valid, advance_ok; eauto.
  - intros (? & ?). eapply moved_valid, retry_later_ok; eauto.
  - intros (? & ?). eapply moved_valid, succeed_ok; eauto.
  - intros (? & [? ?] & ?). eapply moved_valid, fail_ok; eauto.
  - intros. eapply moved_valid, cancel_ok; eauto.
  - intros. eapply moved_valid, lose_local_state_ok; eauto.
  - intros (? & ?). eapply moved_valid, block_archive_ok; eauto.
  - intros. eapply moved_valid, resume_blocked_ok; eauto.
  - intros (? & ?). eapply moved_valid, finish_ok; eauto.
Qed.

Lemma is_status_eq s t : is_status s t = true ↔ s = t.
Proof. unfold is_status. apply bool_decide_eq_true. Qed.

End Rows.

(** What a successful transition checked. *)
Ltac edge_inv :=
  repeat match goal with
  | H : (ensure _ _ ≫= _) = Ok _ |- _ => apply ensure_bind in H as [? H]
  | H : is_status _ _ = true |- _ => apply is_status_eq in H
  | H : _ && _ = true |- _ => apply andb_true_iff in H as [? ?]
  | H : bool_decide _ = true |- _ => apply bool_decide_eq_true in H
  | H : build _ _ _ = Ok _ |- _ => apply build_ok in H as [-> H]
  | H : _enter_archiving _ _ _ _ _ _ _ = Ok _ |- _ => unfold _enter_archiving in H
  end.

Section Steps.
Context (isprintable isspace : Z → bool).
Local Abbreviation row_build := (build isprintable isspace).
Local Abbreviation valid := (valid isprintable isspace).
Local Abbreviation apply_event := (apply_event isprintable isspace).

(** Where a successful transition can lead. *)
Definition edge (row : JobRow) (e : event * Z) (r' : JobRow) : Prop :=
  enabled row e ∧ valid r' ∧ identity r' = identity row ∧
  (TERMINAL (job_status r') = true →
     ∃ fin, e.1 = EFinish fin ∧ job_status row = ARCHIVING ∧
       pending_outcome row = Some (job_status r') ∧ reason_code row = reason_code r' ∧
       detail row = detail r').

Lemma fail_edge row code d now r' :
  fail isprintable isspace row code d now = Ok r' →
  job_status row = RUNNING ∧ is_Some (outcome_of_code code) ∧ code ≠ "cancelled"%string ∧
  valid r' ∧ identity r' = identity row ∧ job_status r' = ARCHIVING.
Proof.
  unfold fail. intros H. edge_inv. destruct (outcome_of_code code); [|done]. edge_inv.
  split_and!; try done. intros ->. done.
Qed.

Lemma block_edge row code now r' :
  block_archive isprintable isspace row code now = Ok r' →
  job_status row = ARCHIVING ∧ in_list ARCHIVE_BLOCK_CODES code = true ∧
  valid r' ∧ identity r' = identity row ∧ job_status r' = ARCHIVE_BLOCKED.
Proof. unfold block_archive. intros H. edge_inv. by split_and!. Qed.

Lemma claim_edge row o now r' :
  claim isprintable isspace row o now = Ok r' → edge row (EClaim, now) r'.
Proof.
  unfold claim, edge, enabled. simpl. intros H. destruct (is_status (job_status row) QUEUED) eqn:Eq.
  - edge_inv. by split_and!; [left|..].
  - edge_inv. assert (job_status row = RUNNING ∨ job_status row = ARCHIVING) as Hs
      by (unfold claimable in *; destruct (job_status row); auto; done).
    assert (∀ r, job_status r = RUNNING ∨ job_status r = ARCHIVING ∨ job_status r = ARCHIVE_BLOCKED →
      TERMINAL (job_status r) = true → False) as Hn by (intros r [->|[->| ->]]; done).
    assert (∀ A : Prop, valid r' ∧ identity r' = identity row ∧
      (job_status r' = RUNNING ∨ job_status r' = ARCHIVING ∨ job_status r' = ARCHIVE_BLOCKED) →
      (job_status row = QUEUED ∨ claimable row now = true) ∧ valid r' ∧ identity r' = identity row ∧
      (TERMINAL (job_status r') = true → A)) as Hgoal.
    { intros A (? & ? & ?). split_and!; [by right|done..|]. intros. by destruct (Hn r'). }
    apply Hgoal. clear Hgoal Hn.
    destruct (is_status (job_status row) RUNNING) eqn:Er.
    + destruct (started_at_ns row); [|done]. destruct (_ <=? now).
      { apply fail_edge in H as (? & ? & ? & ? & ? & ?). auto. }
      destruct (_ <=? stage_attempts row).
      { apply fail_edge in H as (? & ? & ? & ? & ? & ?). auto. }
      edge_inv. split_and!; [done..|]. simpl. tauto.
    + destruct (_ <=? stage_attempts row).
      { apply block_edge in H as (? & ? & ? & ? & ?). auto. }
      edge_inv. split_and!; [done..|]. simpl. tauto.
Qed.

Lemma finish_edge row fin now r' :
  finish isprintable isspace row fin now = Ok r' → edge row (EFinish fin, now) r'.
Proof.
  unfold finish, edge, enabled. simpl. intros H. edge_inv.
  apply bind_ok in H as (? & _ & H). apply bind_ok in H as (? & _ & H). edge_inv.
  apply bind_ok in H as (key & _ & H). destruct (pending_outcome row) as [out|] eqn:Ep; [|done].
  edge_inv. split_and!; try done; try (by apply Z.leb_le). intros _. exists fin. by split_and!.
Qed.

Lemma apply_event_edge o row e r' : apply_event o row e = Ok r' → edge row e r'.
Proof.
  destruct e as [[]now]; unfold apply_event; cbn [fst snd].
  - apply claim_edge.
  - unfold advance, edge, enabled; simpl. intros H. edge_inv. destruct (job_stage row) as [g0|]; [|done].
    edge_inv. match goal with H : (_ =? _)%nat = true |- _ => apply Nat.eqb_eq in H end.
    split_and!; eauto; simpl. match goal with H : job_status row = RUNNING |- _ => by rewrite H end.
  - unfold retry_later, edge, enabled; simpl. intros H. edge_inv. destruct (is_status _ ARCHIVING) eqn:E;
      edge_inv; split_and!; try done; simpl; destruct (job_status row); done.
  - unfold succeed, edge, enabled; simpl. intros H. edge_inv. by split_and!.
  - intros H. apply fail_edge in H as (? & ? & ? & ? & ? & Hs). unfold edge, enabled; simpl.
    rewrite Hs. by split_and!.
  - unfold cancel, edge, enabled; simpl. intros H. edge_inv. by split_and!.
  - unfold lose_local_state, edge, enabled; simpl. intros H. edge_inv.
    destruct (is_status _ RUNNING) eqn:E.
    + apply fail_edge in H as (? & ? & ? & ? & ? & Hs). rewrite Hs. by split_and!.
    + edge_inv. split_and!; try done. simpl. by destruct (job_status row).
  - intros H. apply block_edge in H as (? & ? & ? & ? & Hs). unfold edge, enabled; simpl.
    rewrite Hs. by split_and!.
  - unfold resume_blocked, edge, enabled; simpl. intros H. edge_inv. by split_and!.
  - apply finish_edge.
Qed.

(** A run of transitions from a row. *)
Definition run_events (o : orchestration) (row : JobRow) (es : list (event * Z)) : result JobRow :=
  foldR (apply_event o) row es.

Lemma run_events_snoc o row es e r' :
  run_events o row (es ++ [e]) = Ok r' ↔
  ∃ r, run_events o row es = Ok r ∧ apply_event o r e = Ok r'.
Proof.
  unfold run_events. revert row. induction es as [|x es IH]; intros row; cbn [foldR app].
  - rewrite bind_ok. split; [intros (? & ? & [= ->]); eauto|intros (? & [= ->] & ?); eauto].
  - rewrite bind_ok. setoid_rewrite IH. split.
    + intros (r1 & H1 & r & H & Hr). exists r. rewrite bind_ok. eauto.
    + intros (r & H & Hr). apply bind_ok in H as (r1 & H1 & H). eauto.
Qed.

Lemma run_events_valid o row es r :
  valid row → run_events o row es = Ok r → valid r ∧ identity r = identity row.
Proof.
  intros Hv. revert r. induction es as [|e es IH] using rev_ind; intros r.
  - by intros [= <-].
  - rewrite run_events_snoc. intros (r1 & H1 & H). destruct (IH _ H1) as [_ Hi].
    apply apply_event_edge in H as (_ & Hr & Hi' & _). split; [done|congruence].
Qed.

Lemma new_job_valid id by_ sha now row :
  new_job isprintable isspace id by_ sha now = Ok row →
  valid row ∧ job_status row = QUEUED ∧ job_id row = id.
Proof. unfold new_job. intros [-> Hv]%build_ok. by split_and!. Qed.
End Steps.

(** ** Claim order *)
Lemma row_leb_total a b : row_leb a b = true ∨ row_leb b a = true.
Proof.
  unfold row_leb. destruct (Z.lt_trichotomy (created_at_ns a) (created_at_ns b)) as [H|[H|H]].
  - left. by apply Z.ltb_lt in H as ->.
  - rewrite H, Z.ltb_irrefl, Z.eqb_refl. simpl. rewrite (String.compare_antisym (job_id a) (job_id b)).
    destruct (String.compare (job_id b) (job_id a)); auto.
  - right. by apply Z.ltb_lt in H as ->.
Qed.

(** Lexicographic order of strings is transitive. *)
Lemma ascii_compare_code a b : Ascii.compare a b = Z.compare (code a) (code b).
Proof. unfold Ascii.compare, code. by rewrite N2Z.inj_compare. Qed.

Lemma compare_le_trans a b c :
  String.compare a b ≠ Gt → String.compare b c ≠ Gt → String.compare a c ≠ Gt.
Proof.
  revert b c. induction a as [|x a IH]; intros [|y b] [|z c]; simpl; try done.
  rewrite !ascii_compare_code.
  destruct (Z.compare_spec (code x) (code y)), (Z.compare_spec (code y) (code z)),
    (Z.compare_spec (code x) (code z)); try lia; try done. apply IH.
Qed.

Lemma row_leb_trans a b c : row_leb a b = true → row_leb b c = true → row_leb a c = true.
Proof.
  unfold row_leb. rewrite !orb_true_iff, !andb_true_iff, !Z.ltb_lt, !Z.eqb_eq.
  intros [H1|[H1 H1']] [H2|[H2 H2']]; try (left; lia). right. split; [lia|].
  pose proof (compare_le_trans (job_id a) (job_id b) (job_id c)) as Ht.
  destruct (String.compare (job_id a) (job_id c)); try done.
  destruct (String.compare (job_id a) (job_id b)), (String.compare (job_id b) (job_id c)); try done;
    by destruct Ht.
Qed.

(** The head of a sorted filter is its least element. *)
Lemma sorted_filter_head (P : JobRow → Prop) `{∀ r, Decision (P r)} rows r :
  head (sort_by row_leb (filter P rows)) = Some r →
  r ∈ rows ∧ P r ∧ ∀ r', r' ∈ rows → P r' → row_leb r r' = true.
Proof.
  intros Hh. pose proof (sort_by_sorted row_leb row_leb_total row_leb_trans (filter P rows)) as Hs.
  pose proof (sort_by_elem row_leb) as He.
  destruct (sort_by row_leb (filter P rows)) as [|x l] eqn:E; [done|]. injection Hh as ->.
  assert (∀ y, y ∈ rows ∧ P y ↔ y ∈ r :: l) as Hin.
  { intros y. rewrite <- E, He, list_elem_of_filter. tauto. }
  apply StronglySorted_inv in Hs as [_ Hs]. rewrite Forall_forall in Hs.
  destruct (proj2 (Hin r)) as [? ?]; [left|]. split_and!; [done..|].
  intros r' Hr' HP. assert (r' ∈ r :: l) as Hr'' by (by apply Hin).
  apply elem_of_cons in Hr'' as [->|Hr'']; [|auto].
  destruct (row_leb_total r r); done.
Qed.

Lemma sorted_filter_nil (P : JobRow → Prop) `{∀ r, Decision (P r)} rows :
  sort_by row_leb (filter P rows) = [] → ∀ r, r ∈ rows → ¬ P r.
Proof.
  intros E r Hr HP. assert (r ∈ sort_by row_leb (filter P rows)) as Hin
    by (by apply sort_by_elem, list_elem_of_filter). rewrite E in Hin. by inversion Hin.
Qed.

(** ** Properties *)

(** C36. The transitions are exactly their guards: on a well-formed row, with times that
    fit 64 bits, a transition succeeds if and only if its guard holds, and then
    yields a well-formed row of the same job; no row check, no sanitizing and no
    arithmetic of a transition can fail on its own. *)
Theorem transitions_exactly_guarded isprintable isspace (laws : UnicodeLaws isprintable isspace) o row e :
  valid isprintable isspace row → time_ok o e.2 →
  (is_ok (apply_event isprintable isspace o row e) ↔ enabled row e) ∧
  ∀ r', apply_event isprintable isspace o row e = Ok r' →
    check_row isprintable isspace r' = Ok () ∧ identity r' = identity row.
Proof.
  intros Hv Ht. split; [split|].
  - intros [r' H]. by apply apply_event_edge in H as [? _].
  - intros He. destruct (enabled_moves isprintable isspace laws o row e Hv Ht He) as (r' & E & _).
    by exists r'.
  - intros r' H. apply apply_event_edge in H as (_ & Hr & Hi & _). split; [|done].
    by apply check_row_ok.
Qed.

(** C17. Every terminal outcome passes through archiving and is frozen there: a run of
    transitions from a new job that ends in a terminal row ends with [finish] on a
    row of the same job, archiving, whose pending outcome, reason code and detail are
    the terminal ones; and no transition applies to the terminal row. *)
Theorem terminal_through_archiving isprintable isspace (laws : UnicodeLaws isprintable isspace)
    o id by_ sha now row es r :
  new_job isprintable isspace id by_ sha now = Ok row →
  run_events isprintable isspace o row es = Ok r → TERMINAL (job_status r) = true →
  (∃ pre fin t r1, es = pre ++ [(EFinish fin, t)] ∧ run_events isprintable isspace o row pre = Ok r1 ∧
     job_status r1 = ARCHIVING ∧ pending_outcome r1 = Some (job_status r) ∧
     reason_code r1 = reason_code r ∧ detail r1 = detail r) ∧
  identity r = identity row ∧
  ∀ e, ¬ is_ok (apply_event isprintable isspace o r e).
Proof.
  intros Hnew H Ht. destruct (new_job_valid _ _ _ _ _ _ _ Hnew) as (Hv & Hq & _).
  destruct (run_events_valid _ _ _ _ _ _ Hv H) as [_ Hi]. split_and!; [|done|].
  - destruct es as [|[ev t] pre _] using rev_ind.
    { injection H as <-. by rewrite Hq in Ht. }
    apply run_events_snoc in H as (r1 & H1 & H). apply apply_event_edge in H as (_ & _ & _ & Hend).
    destruct (Hend Ht) as (fin & Hev & ?). simpl in Hev. subst ev. exists pre, fin, t, r1.
    by destruct_and!.
  - intros e [r' H']. apply apply_event_edge in H' as [He _]. destruct e as [ev t].
    unfold enabled, claimable in He. simpl in He.
    destruct (job_status r), ev; simpl in *; done || naive_solver.
Qed.

(** [select_next] is the documented claim order: it picks the oldest claimable
    resumable row if there is one, otherwise the oldest queued row, so backed-off and
    blocked rows never delay queued work; it picks nothing only if nothing is
    claimable or queued. *)
Theorem select_next_order rows now :
  match select_next rows now with
  | None => ∀ r, r ∈ rows → claimable r now = false ∧ job_status r ≠ QUEUED
  | Some r => r ∈ rows ∧
      (claimable r now = true ∧ (∀ r', r' ∈ rows → claimable r' now = true → row_leb r r' = true)
       ∨ job_status r = QUEUED ∧ (∀ r', r' ∈ rows → claimable r' now = false) ∧
         (∀ r', r' ∈ rows → job_status r' = QUEUED → row_leb r r' = true))
  end.
Proof.
  unfold select_next.
  destruct (sort_by row_leb (filter (λ r, claimable r now = true) rows)) as [|r l] eqn:E.
  - pose proof (sorted_filter_nil _ _ E) as Hn.
    assert (∀ r, r ∈ rows → claimable r now = false) as Hno
      by (intros r Hr; apply not_true_iff_false; by apply Hn).
    destruct (head _) as [r|] eqn:Eh.
    + apply sorted_filter_head in Eh as (? & ? & ?). split; [done|]. right. by split_and!.
    + intros r Hr. split; [auto|]. apply (sorted_filter_nil (λ r, job_status r = QUEUED) rows); [|done].
      by apply head_None.
  - destruct (sorted_filter_head (λ r, claimable r now = true) rows r) as (? & ? & ?); [by rewrite E|].
    split; [done|]. left. by split.
Qed.

(** ** A demonstration run *)
Definition demo_id : string := "20240101T000000Z-0123456789abcdef".
Definition demo_by : string := "0x" +:+ String.concat "" (replicate 40 "a").
Definition demo_sha : string := String.concat "" (replicate 64 "b").
Definition demo_orchestration : orchestration := Orchestration 30 3600 3.

Definition demo_events : list (event * Z) :=
  [(EClaim, 10); (ERetry "universe_unavailable" (Some demo_detail), 20);
   (EClaim, 40000000000); (EAdvance bundle, 40000000001);
   (EFail "tool_failure" (Some demo_detail), 40000000002);
   (EBlock "archive_conflict", 40000000003); (EResume, 40000000004);
   (EFinish 40000000002, 40000000005)].

Lemma terminal_through_archiving_witness :
  ∃ row r, new_job ascii_printable ascii_space demo_id demo_by demo_sha 5 = Ok row ∧
    run_events ascii_printable ascii_space demo_orchestration row demo_events = Ok r ∧
    job_status r = FAILED ∧ identity r = identity row.
Proof.
  assert ((row ← new_job ascii_printable ascii_space demo_id demo_by demo_sha 5;
           r ← run_events ascii_printable ascii_space demo_orchestration row demo_events;
           Ok (job_status r)) = Ok FAILED) as H by (vm_compute; reflexivity).
  apply bind_ok in H as (row & Hn & H). apply bind_ok in H as (r & Hr & Hs). apply Ok_inj in Hs.
  exists row, r. split_and!; [exact Hn|exact Hr|exact Hs|].
  apply (terminal_through_archiving _ _ ascii_unicode demo_orchestration demo_id demo_by demo_sha 5 row
    demo_events r Hn Hr). by rewrite Hs.
Defined.

Lemma transitions_exactly_guarded_witness :
  ∃ row, new_job ascii_printable ascii_space demo_id demo_by demo_sha 5 = Ok row ∧
    is_ok (apply_event ascii_printable ascii_space demo_orchestration row (ECancel, 7)) ∧
    ¬ is_ok (apply_event ascii_printable ascii_space demo_orchestration row (ESucceed, 7)).
Proof.
  assert ((row ← new_job ascii_printable ascii_space demo_id demo_by demo_sha 5; Ok ()) = Ok ()) as H
    by (vm_compute; reflexivity).
  apply bind_ok in H as (row & Hn & _).
  destruct (new_job_valid _ _ _ _ _ _ _ Hn) as (Hv & Hq & _).
  assert (time_ok demo_orchestration 7) as Ht by (split_and!; vm_compute; congruence).
  exists row. split_and!; [exact Hn| |].
  - apply (transitions_exactly_guarded _ _ ascii_unicode demo_orchestration row (ECancel, 7) Hv Ht).
    exact Hq.
  - intros H. apply (transitions_exactly_guarded _ _ ascii_unicode demo_orchestration row (ESucceed, 7) Hv Ht) in H.
    destruct H as [H _]. congruence.
Defined.
