(* ===== verification/JobLiveness.v ===== *)
(** * Jobs come to rest ([src/replay/jobs/contracts.py])

    A rank that every step of work lowers: without an operator, a job is claimed only a
    bounded number of times before it is terminal or parked as archive-blocked, and
    until then it can always be claimed once its backoff has passed. *)
From stdpp Require Import strings.
From S2P Require Import Prelude Wire JobDetail JobContracts JobMachine.

(** What is left of the attempts of a stage. *)
Definition attempts_left (o : orchestration) (r : JobRow) : Z := Z.max 0 (max_stage_attempts o - stage_attempts r).

Definition rank (o : orchestration) (r : JobRow) : Z :=
  let m := Z.max 0 (max_stage_attempts o) in
  match job_status r with
  | QUEUED => 6 * m + 8
  | RUNNING =>
      match job_stage r with
      | Some g => (4 - Z.of_nat (stage_index g)) * (m + 1) + attempts_left o r + m + 3
      | None => 0
      end
  | ARCHIVING => attempts_left o r + 2
  | ARCHIVE_BLOCKED => 1
  | _ => 0
  end.

(** The steps that do work, as opposed to those that note a delay and to the operator's. *)
Definition works (e : event) : bool :=
  match e with ERetry _ _ | ELose _ | EResume => false | _ => true end.
Definition operator (e : event) : bool := match e with EResume => true | _ => false end.

(** At rest: finished, or waiting for the operator. *)
Definition rests (r : JobRow) : Prop := TERMINAL (job_status r) = true ∨ job_status r = ARCHIVE_BLOCKED.

Section Rank.
Context (isprintable isspace : Z → bool).
Local Abbreviation valid := (valid isprintable isspace).
Local Abbreviation apply_event := (apply_event isprintable isspace).

Lemma work_stage_index g : is_work_stage g = true → (stage_index g ≤ 4)%nat.
Proof. by destruct g; intros; vm_compute; repeat constructor. Qed.

Lemma rank_nonneg o r : valid r → 0 ≤ rank o r.
Proof.
  intros [_ Hsh]. unfold rank, attempts_left. unfold shape_ok in Hsh.
  destruct (job_status r); try lia. destruct Hsh as ((g & -> & Hg) & _). apply work_stage_index in Hg. nia.
Qed.

(** A job that starts to archive ranks below every running one. *)
Lemma enter_rank o row out code d now r' :
  valid row → job_status row = QUEUED ∨ job_status row = RUNNING →
  _enter_archiving isprintable isspace row out code d now = Ok r' → rank o r' < rank o row.
Proof.
  intros [_ Hsh] Hs H. edge_inv. unfold rank, attempts_left. cbn [job_status set_outcome set_progress stage_attempts].
  unfold shape_ok in Hsh. destruct Hs as [E|E]; rewrite E in Hsh |- *.
  - rewrite is_status_true. lia.
  - rewrite is_status_false by done. destruct Hsh as ((g & -> & Hg) & _). apply work_stage_index in Hg. nia.
Qed.

Lemma fail_rank o row code d now r' :
  valid row → fail isprintable isspace row code d now = Ok r' → rank o r' < rank o row.
Proof.
  intros Hv. unfold fail. intros H. edge_inv. destruct (outcome_of_code code); [|done].
  apply ensure_bind in H as [_ H]. eapply enter_rank; eauto.
Qed.

Lemma block_rank o row code now r' : block_archive isprintable isspace row code now = Ok r' → rank o r' < rank o row.
Proof.
  unfold block_archive. intros H. edge_inv. unfold rank, attempts_left.
  match goal with E : job_status row = _ |- _ => rewrite E end. simpl. lia.
Qed.

Lemma finish_rank o row fin now r' : finish isprintable isspace row fin now = Ok r' → rank o r' < rank o row.
Proof.
  intros H. unfold finish in H. apply ensure_bind in H as [Hs%is_status_eq H].
  apply bind_ok in H as (? & _ & H). apply bind_ok in H as (? & _ & H). apply ensure_bind in H as [_ H].
  apply bind_ok in H as (key & _ & H). destruct (pending_outcome row) as [out|] eqn:Ep; [|done].
  apply build_ok in H as [-> [_ Hsh]]. unfold rank, attempts_left. rewrite Hs. unfold shape_ok in Hsh. cbn in Hsh |- *.
  destruct out; try lia; exfalso; naive_solver.
Qed.

Lemma claim_rank o row now r' :
  valid row → claim isprintable isspace row o now = Ok r' → rank o r' < rank o row.
Proof.
  intros Hv. pose proof Hv as [_ Hsh]. unfold claim. intros H. destruct (is_status (job_status row) QUEUED) eqn:Eq.
  { edge_inv. unfold rank, attempts_left. rewrite Eq. simpl. lia. }
  apply ensure_bind in H as [Hc H].
  destruct (is_status (job_status row) RUNNING) eqn:Er.
  - destruct (started_at_ns row); [|done]. destruct (_ <=? now); [by eapply fail_rank|].
    destruct (_ <=? stage_attempts row) eqn:Ea; [by eapply fail_rank|]. edge_inv.
    unfold rank, attempts_left, shape_ok in *. rewrite Er in Hsh. cbn [job_status set_progress job_stage stage_attempts]. rewrite Er.
    destruct Hsh as ((g & -> & Hg) & _). lia.
  - destruct (_ <=? stage_attempts row) eqn:Ea; [by eapply block_rank|]. edge_inv.
    unfold claimable in Hc. unfold rank, attempts_left. cbn [job_status set_progress job_stage stage_attempts].
    destruct (job_status row); try done. lia.
Qed.

Lemma advance_rank o row g now r' :
  valid row → advance isprintable isspace row g now = Ok r' → rank o r' < rank o row.
Proof.
  intros [_ Hsh]. unfold advance. intros H. edge_inv.
  match goal with E : job_status row = _ |- _ => rename E into Es end.
  unfold shape_ok in Hsh. rewrite Es in Hsh. destruct Hsh as ((g0 & Eg & Hg0) & Ha & _). rewrite Eg in H.
  edge_inv. unfold rank, attempts_left. cbn. rewrite Es, Eg.
  match goal with E : (_ =? _)%nat = true |- _ => apply Nat.eqb_eq in E; rewrite E end. nia.
Qed.

Lemma event_rank o row e r' :
  valid row → apply_event o row e = Ok r' → operator e.1 = false →
  rank o r' + (if works e.1 then 1 else 0) ≤ rank o row.
Proof.
  intros Hv. destruct e as [[] now]; unfold JobMachine.apply_event; cbn [fst snd works operator]; intros H Ho; try done.
  - apply claim_rank with (o := o) in H; [lia|done].
  - apply advance_rank with (o := o) in H; [lia|done].
  - unfold retry_later in H. edge_inv. unfold rank, attempts_left.
    destruct (is_status (job_status row) ARCHIVING) eqn:E; edge_inv; cbn; lia.
  - unfold succeed in H. apply ensure_bind in H as [[Hs%is_status_eq _]%andb_true_iff H].
    apply enter_rank with (o := o) in H; [lia|done|by right].
  - apply fail_rank with (o := o) in H; [lia|done].
  - unfold cancel in H. apply ensure_bind in H as [Hs%is_status_eq H].
    apply enter_rank with (o := o) in H; [lia|done|by left].
  - unfold lose_local_state in H. edge_inv. destruct (is_status (job_status row) RUNNING) eqn:E.
    + apply fail_rank with (o := o) in H; [lia|done].
    + edge_inv. unfold rank, attempts_left. cbn. lia.
  - apply block_rank with (o := o) in H. lia.
  - apply finish_rank with (o := o) in H. lia.
Qed.

Lemma run_rank o row es r :
  valid row → run_events isprintable isspace o row es = Ok r → Forall (λ e, operator e.1 = false) es →
  rank o r + Z.of_nat (length (filter (λ e, works e.1 = true) es)) ≤ rank o row.
Proof.
  intros Hv. revert r. induction es as [|e es IH] using rev_ind; intros r.
  { intros [= <-] _. simpl. lia. }
  rewrite run_events_snoc, Forall_app, filter_app, length_app. intros (r1 & H1 & H) [Hes He].
  inversion He as [|? ? Ho _]; subst. destruct (run_events_valid _ _ _ _ _ _ Hv H1) as [Hv1 _].
  specialize (IH _ H1 Hes). pose proof (event_rank o r1 e r Hv1 H Ho) as Hr.
  destruct (works e.1) eqn:Ew.
  - rewrite filter_cons_True by done. simpl. lia.
  - rewrite filter_cons_False by congruence. simpl. lia.
Qed.
End Rank.

(** C24. Jobs come to rest.  However stages fail, are retried or lose their state, a run of
    transitions of a new job without the operator's resumption has at most
    [6 * max_stage_attempts + 8] working steps, claims among them; and after any run the
    job is finished, waits for the operator, or can be claimed at every moment from its
    due time on. *)
Theorem jobs_come_to_rest isprintable isspace (laws : UnicodeLaws isprintable isspace) o id by_ sha now row es r :
  new_job isprintable isspace id by_ sha now = Ok row →
  run_events isprintable isspace o row es = Ok r →
  (Forall (λ e, operator e.1 = false) es →
     Z.of_nat (length (filter (λ e, works e.1 = true) es)) ≤ 6 * Z.max 0 (max_stage_attempts o) + 8) ∧
  (rests r ∨
   ∀ t, default 0 (next_attempt_at_ns r) ≤ t → time_ok o t →
     is_ok (apply_event isprintable isspace o r (EClaim, t))).
Proof.
  intros Hn H. destruct (new_job_valid _ _ _ _ _ _ _ Hn) as (Hv & Hq & _).
  destruct (run_events_valid _ _ _ _ _ _ Hv H) as [Hr _]. split.
  - intros Hes. pose proof (run_rank _ _ _ _ _ _ Hv H Hes) as Hrank.
    pose proof (rank_nonneg _ _ o _ Hr). unfold rank in Hrank at 2. rewrite Hq in Hrank. lia.
  - assert (rests r ∨ job_status r = QUEUED ∨ RESUMABLE (job_status r) = true) as [Hs|Hs]
      by (unfold rests; destruct (job_status r); auto).
    { by left. }
    right. intros t Hd Ht. destruct (enabled_moves _ _ laws o r (EClaim, t) Hr Ht) as (r' & E & _); [|by exists r'].
    destruct Hs as [Hs|Hs]; [by left|]. right. unfold claimable. simpl. rewrite Hs.
    destruct (next_attempt_at_ns r); simpl in Hd |- *; [by apply Z.leb_le|done].
Qed.

(** A worker that only ever claims the job: the first claim starts it, two more repeat its
    first stage, the fourth gives the stage up, two repeat archiving and the last parks
    the job. *)
Definition demo_claims : list (event * Z) := map (λ n, (EClaim, n * 40000000000)) [1; 2; 3; 4; 5; 6; 7].

Lemma jobs_come_to_rest_witness :
  ∃ row r, new_job ascii_printable ascii_space demo_id demo_by demo_sha 5 = Ok row ∧
    run_events ascii_printable ascii_space demo_orchestration row demo_claims = Ok r ∧
    job_status r = ARCHIVE_BLOCKED ∧
    Z.of_nat (length (filter (λ e, works e.1 = true) demo_claims)) ≤ 6 * Z.max 0 3 + 8.
Proof.
  assert ((row ← new_job ascii_printable ascii_space demo_id demo_by demo_sha 5;
           r ← run_events ascii_printable ascii_space demo_orchestration row demo_claims;
           Ok (job_status r)) = Ok ARCHIVE_BLOCKED) as H by (vm_compute; reflexivity).
  apply bind_ok in H as (row & Hn & H). apply bind_ok in H as (r & Hr & Hs). apply Ok_inj in Hs.
  exists row, r. split_and!; [exact Hn|exact Hr|exact Hs|].
  apply (jobs_come_to_rest _ _ ascii_unicode demo_orchestration demo_id demo_by demo_sha 5 row demo_claims r Hn Hr).
  repeat constructor.
Defined.
