(* ===== verification/ObjectKeys.v ===== *)
(** * Object keys and job identifiers
      ([src/archive/storage/base.py], [normalize_key]; [src/replay/jobs/contracts.py], lines 658-757)

    Keys are lists of characters; [date(1970, 1, 1) + timedelta(days)] is the proleptic
    Gregorian calendar of Python's [datetime]. *)
From stdpp Require Import list strings.
From S2P Require Import Prelude Wire JobContracts.

(** ** [normalize_key] *)
Definition METADATA_DIRECTORY : string := ".objectmeta".

(** [key.split("/")]. *)
Fixpoint split_slash (l : list Ascii.ascii) : list (list Ascii.ascii) :=
  match l with
  | [] => [[]]
  | c :: l =>
      if code c =? 47 then [] :: split_slash l
      else match split_slash l with
           | part :: parts => (c :: part) :: parts
           | [] => [[c]]
           end
  end.

(** ["/".join(parts)]. *)
Fixpoint join_slash (parts : list (list Ascii.ascii)) : list Ascii.ascii :=
  match parts with
  | [] => []
  | [part] => part
  | part :: parts => part ++ Ascii.ascii_of_N 47 :: join_slash parts
  end.

Definition traversing (part : list Ascii.ascii) : bool :=
  match part with
  | [] => true
  | [c] => code c =? 46
  | [c; d] => (code c =? 46) && (code d =? 46)
  | _ => false
  end.

Definition normalize_key (key : string) : result string :=
  let l := chars key in
  _ ← guard_or (negb (bool_decide (l = []))) (ValueError "object key must be a non-empty string");
  _ ← guard_or (negb (existsb (λ c, code c =? 92) l)) (ValueError "object key contains a backslash");
  _ ← guard_or (match l with c :: _ => negb (code c =? 47) | [] => true end)
        (ValueError "object key is absolute");
  _ ← guard_or (negb (existsb (λ c, code c =? 0) l)) (ValueError "object key contains a NUL byte");
  let parts := split_slash l in
  _ ← guard_or (negb (existsb traversing parts))
        (ValueError "object key has an empty or traversing component");
  _ ← guard_or (negb (bool_decide (head parts = Some (chars METADATA_DIRECTORY))))
        (ValueError "object key enters the store's metadata area");
  Ok (String.string_of_list_ascii (join_slash parts)).

(** [_key]: the store's refusal as a contract error. *)
Definition _key (value : string) : result string :=
  match normalize_key value with
  | Ok k => Ok k
  | Err (ValueError msg) => Err (ContractError msg None)
  | Err e => Err e
  end.

(** ** Dates *)

(** Year, month and day of a day count since 1970-01-01. *)
Definition civil (days : Z) : Z * Z * Z :=
  let z := days + 719468 in
  let era := z / 146097 in
  let doe := z mod 146097 in
  let yoe := (doe - doe / 1460 + doe / 36524 - doe / 146096) / 365 in
  let doy := doe - (365 * yoe + yoe / 4 - yoe / 100) in
  let mp := (5 * doy + 2) / 153 in
  let d := doy - (153 * mp + 2) / 5 + 1 in
  let m := if mp <? 10 then mp + 3 else mp - 9 in
  (yoe + era * 400 + (if m <=? 2 then 1 else 0), m, d).

(** [n] in exactly [w] decimal digits. *)
Fixpoint padded (w : nat) (n : Z) : list Ascii.ascii :=
  match w with
  | O => []
  | S w => padded w (n / 10) ++ [digit_char (n mod 10)]
  end.

Definition of_chars (l : list Ascii.ascii) : string := String.string_of_list_ascii l.
Definition ch (n : N) : Ascii.ascii := Ascii.ascii_of_N n.

Definition _NS_PER_DAY : Z := 86400000000000.

(** ** Identifiers and keys *)
Definition job_id (now_ns : Z) (suffix_hex : string) : result string :=
  _ ← _ns now_ns "job time";
  _ ← ensure ((length (chars suffix_hex) =? 16)%nat && forallb lower_hex (chars suffix_hex))
        "job suffix must be 16 lowercase hex characters";
  let seconds := now_ns / 1000000000 in
  let '(y, m, d) := civil (seconds / 86400) in
  let remainder := seconds mod 86400 in
  Ok (of_chars (padded 4 y ++ padded 2 m ++ padded 2 d ++ [ch 84]
        ++ padded 2 (remainder / 3600) ++ padded 2 (remainder mod 3600 / 60)
        ++ padded 2 (remainder mod 60) ++ [ch 90; ch 45] ++ chars suffix_hex)).

Definition date_partition (window_start_ns : Z) : result string :=
  _ ← _ns window_start_ns "window start";
  let '(y, m, d) := civil (window_start_ns / _NS_PER_DAY) in
  Ok (of_chars (padded 4 y ++ [ch 45] ++ padded 2 m ++ [ch 45] ++ padded 2 d)).

Definition canonical_window_keys (window_start_ns : Z) : result (string * string * string) :=
  date ← date_partition window_start_ns;
  let base := "canonical/date=" +:+ date +:+ "/window=" +:+ str_int window_start_ns in
  Ok (base +:+ "/evidence.ndjson.zst", base +:+ "/provenance.ndjson.zst", base +:+ "/receipt.json").

Definition DERIVATIVE_FILES : list string :=
  ["events.ndjson.zst"; "rejects.ndjson.zst"; "sources.ndjson.zst"; "manifest.json"; "receipt.json"].

Definition derivative_key (derivative_address file : string) : result string :=
  _ ← ensure (is_hex64 derivative_address) "derivative address must be 64 lowercase hex characters";
  _ ← ensure (in_list DERIVATIVE_FILES file) "unknown derivative file";
  Ok ("replay/derivatives/" +:+ derivative_address +:+ "/" +:+ file).

(** [_identifier]: [[A-Za-z0-9_.-]{1,128}], neither [.] nor [..]. *)
Definition identifier_char (c : Ascii.ascii) : bool :=
  is_digit c || ((65 <=? code c) && (code c <=? 90)) || ((97 <=? code c) && (code c <=? 122))
  || existsb (Z.eqb (code c)) [95; 46; 45].
Definition _identifier (value : string) : result string :=
  let l := chars value in
  _ ← ensure ((1 <=? length l)%nat && (length l <=? 128)%nat && forallb identifier_char l
              && negb (traversing l)) "must match [A-Za-z0-9_.-]{1,128}";
  Ok value.

Definition bundle_receipt_key (bundle_id : string) : result string :=
  id ← _identifier bundle_id; Ok ("replay/bundles/" +:+ id +:+ "/bundle_receipt.json").

Definition job_object_key (job_id_value relative : string) : result string :=
  _ ← check_job_id job_id_value;
  let path := "replay/jobs/" +:+ job_id_value +:+ "/" +:+ relative in
  key ← _key path;
  _ ← ensure (String.eqb key path) "job object path must already be normalized";
  _ ← ensure (negb (String.eqb relative "job_receipt.json")) "job_receipt.json is reserved";
  Ok key.

(** ** Splitting and joining *)
Lemma split_slash_nonempty l : split_slash l ≠ [].
Proof. destruct l as [|c l]; simpl; [done|]. destruct (code c =? 47); [done|]. by destruct (split_slash l). Qed.

Lemma join_split l : join_slash (split_slash l) = l.
Proof.
  induction l as [|c l IH]; simpl; [done|]. destruct (Z.eqb_spec (code c) 47) as [E|E].
  - destruct (split_slash l) as [|p ps] eqn:Es; [by apply split_slash_nonempty in Es|].
    change (Ascii.ascii_of_N 47 :: join_slash (p :: ps) = c :: l). rewrite IH. f_equal. unfold code in E.
    rewrite <- (Ascii.ascii_N_embedding c). f_equal. lia.
  - destruct (split_slash l) as [|p ps] eqn:Es; [by apply split_slash_nonempty in Es|].
    rewrite <- IH. by destruct ps.
Qed.

Lemma chars_app s t : chars (s +:+ t) = chars s ++ chars t.
Proof. unfold chars. induction s as [|c s IH]; simpl; [done|]. f_equal. exact IH. Qed.

Lemma chars_of l : chars (of_chars l) = l.
Proof. apply String.list_ascii_of_string_of_list_ascii. Qed.

Lemma chars_inj s t : chars s = chars t → s = t.
Proof.
  intros H. rewrite <- (String.string_of_list_ascii_of_string s), <- (String.string_of_list_ascii_of_string t).
  unfold chars in H. by rewrite H.
Qed.

Lemma normalize_key_ok k k' :
  normalize_key k = Ok k' →
  k' = k ∧ Forall (λ p, traversing p = false) (split_slash (chars k)) ∧
  head (split_slash (chars k)) ≠ Some (chars METADATA_DIRECTORY).
Proof.
  unfold normalize_key. intros H.
  do 6 (apply bind_ok in H as (? & ?%guard_or_ok & H)). injection H as <-.
  rewrite join_split. split_and!.
  - apply String.string_of_list_ascii_of_string.
  - apply Forall_forall. intros p Hp.
    match goal with H : negb (existsb traversing _) = true |- _ => apply negb_true_iff in H; rename H into Ht end.
    apply not_true_is_false. intros E. rewrite <- not_true_iff_false in Ht. apply Ht.
    apply existsb_exists. exists p. split; [by apply list_elem_of_In|done].
  - intros E. match goal with H : negb (bool_decide _) = true |- _ =>
      rewrite bool_decide_true in H by exact E end. done.
Qed.

Lemma job_id_length id : valid_job_id id = true → length (chars id) = 33%nat.
Proof. unfold valid_job_id. intros H. repeat (apply andb_true_iff in H as [H _]). by apply Nat.eqb_eq. Qed.

Definition job_path (id relative : string) : string := "replay/jobs/" +:+ id +:+ "/" +:+ relative.

Lemma job_object_key_ok id relative k :
  job_object_key id relative = Ok k →
  valid_job_id id = true ∧ k = job_path id relative ∧ relative ≠ "job_receipt.json"%string ∧
  Forall (λ p, traversing p = false) (split_slash (chars k)).
Proof.
  unfold job_object_key, check_job_id. intros H. apply ensure_bind in H as [Hid H].
  apply bind_ok in H as (key & Hkey & H). apply ensure_bind in H as [Hn H].
  apply ensure_bind in H as [Hr [= ->]]. apply String.eqb_eq in Hn.
  split_and!; [done|done| |].
  - intros ->. done.
  - unfold _key in Hkey. destruct (normalize_key _) as [k'|e] eqn:E; [|by destruct e].
    injection Hkey as ->. apply normalize_key_ok in E as (E & Hall & _). by rewrite <- E in Hall.
Qed.

Lemma job_path_inj id relative id' relative' :
  length (chars id) = 33%nat → length (chars id') = 33%nat →
  job_path id relative = job_path id' relative' → id = id' ∧ relative = relative'.
Proof.
  intros Hl Hl' H. unfold job_path in H. apply (f_equal chars) in H. rewrite !chars_app in H.
  apply app_inv_head in H. apply app_inj_1 in H as [Hi Hr]; [|congruence].
  apply app_inv_head in Hr. split; by apply chars_inj.
Qed.

(** ** Dates in fixed width *)
Lemma padded_length w n : length (padded w n) = w.
Proof. revert n. induction w as [|w IH]; intros n; simpl; [done|]. rewrite length_app, IH. simpl. lia. Qed.

Lemma padded_digits w n : forallb is_digit (padded w n) = true.
Proof.
  revert n. induction w as [|w IH]; intros n; cbn [padded]; [done|].
  rewrite forallb_app, IH. cbn [forallb]. rewrite digit_char_is_digit; [done|].
  apply Z.mod_pos_bound. lia.
Qed.

Lemma mod10_digit n : is_digit (digit_char (n mod 10)) = true.
Proof. apply digit_char_is_digit, Z.mod_pos_bound. lia. Qed.

Lemma job_id_valid now suffix id : job_id now suffix = Ok id → valid_job_id id = true.
Proof.
  unfold job_id. intros H. apply ns_bind in H as [_ H]. apply ensure_bind in H as [Hs H].
  apply andb_true_iff in Hs as [Hlen%Nat.eqb_eq Hhex].
  destruct (civil _) as [[y m] d]. apply Ok_inj in H as <-. unfold valid_job_id. rewrite chars_of.
  revert Hlen Hhex. generalize (chars suffix) as sfx. intros sfx Hlen Hhex.
  cbn [padded app take drop length forallb andb]. rewrite Hlen, !mod10_digit. cbn [andb].
  repeat match goal with |- context [char_is ?l ?i ?n] => change (char_is l i n) with true end.
  exact Hhex.
Qed.

Lemma job_id_total now suffix :
  u64 now → length (chars suffix) = 16%nat → forallb lower_hex (chars suffix) = true →
  is_ok (job_id now suffix).
Proof.
  intros Hn Hl Hh. unfold job_id, _ns, ensure, _require. destruct Hn as [Hn1%Z.leb_le Hn2%Z.ltb_lt].
  rewrite Hn1, Hn2, Hl, Hh. cbn [mbind result_bind guard_or andb Nat.eqb].
  destruct (civil _) as [[y m] d]. by eexists.
Qed.

(** ** Properties *)

(** C37. Object keys of jobs are confined and distinct: a key [job_object_key] accepts
    is exactly the job's prefix and the relative path, with no empty, [.] or [..]
    component; two accepted keys are equal only for the same job and path; and none
    is any job's receipt key. *)
Theorem job_object_keys_confined id relative k :
  job_object_key id relative = Ok k →
  k = job_path id relative ∧
  Forall (λ p, traversing p = false) (split_slash (chars k)) ∧
  (∀ id' relative', job_object_key id' relative' = Ok k → id' = id ∧ relative' = relative) ∧
  (∀ id' r, job_receipt_key id' = Ok r → r ≠ k).
Proof.
  intros H. apply job_object_key_ok in H as (Hid & -> & Hr & Hp). apply job_id_length in Hid as Hl.
  split_and!; [done..| |].
  - intros id' relative' (Hid' & E & _)%job_object_key_ok.
    apply job_path_inj in E as [-> ->]; [done|done|by apply job_id_length].
  - intros id' r Hr' ->. unfold job_receipt_key, check_job_id in Hr'.
    apply ensure_bind in Hr' as [Hid' E]. apply Ok_inj in E.
    change (job_path id' "job_receipt.json" = job_path id relative) in E.
    apply job_path_inj in E as [_ E]; [by apply Hr|by apply job_id_length|done].
Qed.

Lemma job_object_keys_confined_witness :
  job_path "20240101T000000Z-0123456789abcdef" "a/b.json"
  = "replay/jobs/20240101T000000Z-0123456789abcdef/a/b.json"%string.
Proof.
  assert (job_object_key "20240101T000000Z-0123456789abcdef" "a/b.json"
    = Ok "replay/jobs/20240101T000000Z-0123456789abcdef/a/b.json"%string) as H by (vm_compute; reflexivity).
  symmetry. exact (proj1 (job_object_keys_confined _ _ _ H)).
Defined.

(** [job_id] always mints an identifier that [check_job_id] accepts: for any 64-bit
    time and any 16 lowercase hex digits it succeeds, and the result passes the row
    check. *)
Theorem job_id_accepted now suffix :
  u64 now → length (chars suffix) = 16%nat → forallb lower_hex (chars suffix) = true →
  ∃ id, job_id now suffix = Ok id ∧ check_job_id id = Ok ().
Proof.
  intros Hn Hl Hh. destruct (job_id_total now suffix Hn Hl Hh) as [id E]. exists id.
  split; [done|]. unfold check_job_id. by rewrite (job_id_valid _ _ _ E).
Qed.

Lemma job_id_accepted_witness :
  ∃ id, job_id 1704067201000000000 "0123456789abcdef" = Ok id ∧ check_job_id id = Ok ().
Proof.
  apply (job_id_accepted 1704067201000000000 "0123456789abcdef");
    [split; vm_compute; congruence|reflexivity|reflexivity].
Defined.
