(* ===== verification/JobHistory.v ===== *)
(** * Bundle history and canonical windows ([src/replay/jobs/contracts.py], lines 741-757 and 1071-1161)

    A bundle's life is partitioned into the occurrences of its selection, clipped to
    the requested interval; windows are aligned to a divisor of the day. *)
From stdpp Require Import list strings.
From S2P Require Import Prelude Wire Json JobContracts ObjectKeys.

(** ** Occurrences *)
Record Occurrence := mkOccurrence {
  run_id : string;
  start_ns : Z;
  end_ns : Z;
  manifest_key : string;
  manifest_sha256 : string;
  report_key : string;
  report_sha256 : string;
}.

Record HistoryEntry := mkHistoryEntry {
  entry_run_id : string;
  generated_at_ns : Z;
  entry_manifest_key : string;
  entry_manifest_sha256 : string;
  entry_report_key : string;
  entry_report_sha256 : string;
}.

(** [_text(value, where, limit)]. *)
Definition _text (value : string) (limit : nat) : result () :=
  let l := chars value in
  ensure ((1 <=? str_len value)%nat && (str_len value <=? limit)%nat
          && forallb (λ c, (32 <=? code c) && negb (code c =? 127)) l)
    "must be 1-limit printable characters".

Definition _check_interval (interval : Z * Z) : result () :=
  let '(a, b) := interval in
  ensure ((0 <=? a) && (a <? 2 ^ 64) && (0 <=? b) && (b <? 2 ^ 64) && (a <? b))
    "must be a (start_ns, end_ns) tuple with start < end".

(** [_key(value) == value], or the contract error. *)
Definition check_normalized (value : string) : result () :=
  k ← _key value; ensure (String.eqb k value) "must be normalized".

(** [Occurrence.__post_init__], on construction. *)
Definition make_occurrence (o : Occurrence) : result Occurrence :=
  _ ← _text (run_id o) 128;
  _ ← _check_interval (start_ns o, end_ns o);
  _ ← check_normalized (manifest_key o);
  _ ← check_normalized (report_key o);
  _ ← ensure (is_hex64 (manifest_sha256 o)) "must be 64 lowercase hex characters";
  _ ← ensure (is_hex64 (report_sha256 o)) "must be 64 lowercase hex characters";
  Ok o.

(** [(generated_at_ns, run_id)] order. *)
Definition entry_leb (a b : HistoryEntry) : bool :=
  (generated_at_ns a <? generated_at_ns b) ||
  ((generated_at_ns a =? generated_at_ns b) &&
   match String.compare (entry_run_id a) (entry_run_id b) with Gt => false | _ => true end).

Definition invalid_history : option string := Some "bundle_history_invalid"%string.

(** The pairwise check of lines 1127-1132. *)
Fixpoint check_distinct (ordered : list HistoryEntry) : result () :=
  match ordered with
  | previous :: (current :: _) as rest =>
      _ ← _require (generated_at_ns previous <? generated_at_ns current)
            "runs share generated_at_ns" invalid_history;
      check_distinct rest
  | _ => Ok ()
  end.

(** The loop of lines 1147-1160 over [zip(ordered, ends)]. *)
Fixpoint clip_occurrences (entries : list (HistoryEntry * Z)) (job : Z * Z)
    : result (list Occurrence) :=
  match entries with
  | [] => Ok []
  | (entry, end_) :: entries =>
      let start := Z.max (generated_at_ns entry) job.1 in
      let stop := Z.min end_ job.2 in
      if start <? stop then
        o ← make_occurrence (mkOccurrence (entry_run_id entry) start stop
              (entry_manifest_key entry) (entry_manifest_sha256 entry)
              (entry_report_key entry) (entry_report_sha256 entry));
        os ← clip_occurrences entries job;
        Ok (o :: os)
      else clip_occurrences entries job
  end.

Definition resolve_occurrences (history : list HistoryEntry) (retired_at_ns : Z)
    (job_interval : option (Z * Z)) : result ((Z * Z) * (Z * Z) * list Occurrence) :=
  let ordered := sort_by entry_leb history in
  match ordered with
  | [] => Err (ContractError "bundle has no selection occurrences" invalid_history)
  | first :: later =>
      _ ← check_distinct ordered;
      _ ← _require (generated_at_ns (List.last ordered first) <? retired_at_ns)
            "bundle retirement does not follow its last occurrence" invalid_history;
      let bundle := (generated_at_ns first, retired_at_ns) in
      let job := default bundle job_interval in
      _ ← _require ((bundle.1 <=? job.1) && (job.1 <? job.2) && (job.2 <=? bundle.2))
            "requested interval is outside the bundle interval"
            (Some "interval_out_of_range"%string);
      let ends := map generated_at_ns later ++ [retired_at_ns] in
      occurrences ← clip_occurrences (zip2 ordered ends) job;
      Ok (bundle, job, occurrences)
  end.

(** ** Tilings *)

(** The occurrences cover [a, z) in order, without a gap or an overlap. *)
Fixpoint tiles (a z : Z) (os : list Occurrence) : Prop :=
  match os with
  | [] => a = z
  | o :: os => start_ns o = a ∧ a < end_ns o ∧ tiles (end_ns o) z os
  end.

(** [entry] is the selection in force at [t]: the latest one generated by then. *)
Definition in_force (history : list HistoryEntry) (t : Z) (entry : HistoryEntry) : Prop :=
  entry ∈ history ∧ generated_at_ns entry ≤ t ∧
  ∀ e, e ∈ history → generated_at_ns e ≤ t → generated_at_ns e ≤ generated_at_ns entry.

(** The occurrence repeats its entry's evidence. *)
Definition describes (o : Occurrence) (e : HistoryEntry) : Prop :=
  run_id o = entry_run_id e ∧ manifest_key o = entry_manifest_key e ∧
  manifest_sha256 o = entry_manifest_sha256 e ∧ report_key o = entry_report_key e ∧
  report_sha256 o = entry_report_sha256 e.

(** Entries in strictly increasing order of generation, all before [retired]. *)
Fixpoint chronological (es : list HistoryEntry) (retired : Z) : Prop :=
  match es with
  | [] => True
  | e :: es => Forall (λ e', generated_at_ns e < generated_at_ns e') es ∧
               generated_at_ns e < retired ∧ chronological es retired
  end.

Definition ends_of (es : list HistoryEntry) (retired : Z) : list Z :=
  map generated_at_ns (tail es) ++ [retired].

Lemma make_occurrence_ok o o' : make_occurrence o = Ok o' → o' = o.
Proof.
  unfold make_occurrence. intros H. do 4 (apply bind_ok in H as (? & _ & H)).
  apply ensure_bind in H as [_ H]. by apply ensure_bind in H as [_ [= <-]].
Qed.

Lemma clip_late e es ends job os :
  Forall (λ e, job.2 ≤ Z.max (generated_at_ns e) job.1) (e :: es) →
  clip_occurrences (zip2 (e :: es) ends) job = Ok os → os = [].
Proof.
  intros H. revert ends. induction H as [|x l Hx _ IH]; intros [|z ends]; simpl; try (by intros [= <-]).
  destruct (Z.ltb_spec (Z.max (generated_at_ns x) job.1) (Z.min z job.2)); [lia|]. apply IH.
Qed.

Lemma in_force_from (es : list HistoryEntry) e t retired :
  chronological (e :: es) retired → generated_at_ns e ≤ t →
  match es with [] => True | e' :: _ => t < generated_at_ns e' end → in_force (e :: es) t e.
Proof.
  intros (He & _ & Hc) Ht Hnext. split; [left|]. split; [done|]. intros x [->|Hx]%elem_of_cons Hxt; [done|].
  exfalso. destruct es as [|e' es]; [by inversion Hx|]. apply elem_of_cons in Hx as [->|Hx]; [lia|].
  destruct Hc as (He' & _). rewrite Forall_forall in He'. apply He' in Hx. lia.
Qed.

Lemma in_force_later e es t x :
  in_force es t x → generated_at_ns e < generated_at_ns x → in_force (e :: es) t x.
Proof.
  intros (Hx & Ht & Hall) He. split; [by right|]. split; [done|].
  intros y [->|Hy]%elem_of_cons; [lia|auto].
Qed.

(** Each occurrence shows the evidence of the selection in force throughout it. *)
Definition attributed (es : list HistoryEntry) (o : Occurrence) : Prop :=
  ∃ x, describes o x ∧ ∀ t, start_ns o ≤ t < end_ns o → in_force es t x.

Lemma attributed_later e es o :
  Forall (λ e', generated_at_ns e < generated_at_ns e') es → attributed es o → start_ns o < end_ns o →
  attributed (e :: es) o.
Proof.
  intros He (x & Hd & Hx) Hlt. exists x. split; [done|]. intros t Ht.
  apply in_force_later; [auto|]. destruct (Hx t Ht) as [Hin _].
  rewrite Forall_forall in He. auto.
Qed.

Lemma tiles_nonempty a z os : tiles a z os → Forall (λ o, start_ns o < end_ns o) os.
Proof.
  revert a. induction os as [|o os IH]; intros a; [constructor|]. intros (Hs & ? & H). constructor; [lia|eauto].
Qed.

Lemma clip_tiles es e retired job os :
  chronological (e :: es) retired → job.2 ≤ retired →
  Z.max (generated_at_ns e) job.1 ≤ job.2 →
  clip_occurrences (zip2 (e :: es) (ends_of (e :: es) retired)) job = Ok os →
  tiles (Z.max (generated_at_ns e) job.1) job.2 os ∧ Forall (attributed (e :: es)) os.
Proof.
  revert e os. induction es as [|e' es IH]; intros e os Hc Hr Ha.
  - unfold ends_of. cbn [tail map app zip_with clip_occurrences].
    destruct (Z.ltb_spec (Z.max (generated_at_ns e) job.1) (Z.min retired job.2)).
    + intros H'. apply bind_ok in H' as (o & Ho & H'). apply make_occurrence_ok in Ho as ->.
      apply bind_ok in H' as (os' & [= <-] & [= <-]). simpl. split; [lia|].
      constructor; [|constructor]. eexists. split; [by split_and!|]. simpl. intros t Ht.
      by apply (in_force_from [] e t retired Hc); [lia|].
    + intros [= <-]. simpl. split; [lia|constructor].
  - destruct Hc as (He & Her & Hc'). pose proof Hc' as (He' & He'r & Hc'').
    change (ends_of (e :: e' :: es) retired) with (generated_at_ns e' :: ends_of (e' :: es) retired).
    cbn [zip_with]. set (rest := zip2 (e' :: es) (ends_of (e' :: es) retired)). cbn [clip_occurrences].
    pose proof (Forall_cons_1 _ _ _ He) as [Hee' _].
    assert (∀ os', clip_occurrences rest job = Ok os' →
      (Z.max (generated_at_ns e') job.1 ≤ job.2 →
         tiles (Z.max (generated_at_ns e') job.1) job.2 os' ∧ Forall (attributed (e :: e' :: es)) os') ∧
      (job.2 ≤ Z.max (generated_at_ns e') job.1 → os' = [])) as Hrest.
    { intros os' Hos'. split.
      - intros Hle. destruct (IH e' os' Hc' Hr Hle Hos') as [Ht Hat]. split; [done|].
        pose proof (tiles_nonempty _ _ _ Ht) as Hne. rewrite Forall_forall in Hat, Hne |- *.
        intros o Hin. apply attributed_later; auto.
      - intros Hge. apply (clip_late e' es (ends_of (e' :: es) retired) job os'); [|done].
        constructor; [done|]. eapply Forall_impl; [exact He'|]. simpl. lia. }
    destruct (Z.ltb_spec (Z.max (generated_at_ns e) job.1) (Z.min (generated_at_ns e') job.2)) as [Hlt|Hge].
    + intros H. apply bind_ok in H as (o & Ho & H). apply make_occurrence_ok in Ho as ->.
      apply bind_ok in H as (os' & Hos' & [= <-]). apply Hrest in Hos' as [Hyes Hno].
      assert (attributed (e :: e' :: es) (mkOccurrence (entry_run_id e)
        (Z.max (generated_at_ns e) job.1) (Z.min (generated_at_ns e') job.2) (entry_manifest_key e)
        (entry_manifest_sha256 e) (entry_report_key e) (entry_report_sha256 e))) as Hat.
      { exists e. split; [by split_and!|]. simpl. intros t Ht.
        apply (in_force_from (e' :: es) e t retired); [by split_and!|lia|lia]. }
      cbn [tiles start_ns end_ns]. destruct (Z.le_gt_cases (generated_at_ns e') job.2).
      * destruct Hyes as [Ht Hall]; [lia|].
        replace (Z.min (generated_at_ns e') job.2) with (Z.max (generated_at_ns e') job.1) in * by lia.
        split; [by split_and!|by constructor].
      * rewrite Hno by lia. split; [|by repeat constructor]. split_and!; [done|done|]. simpl. lia.
    + intros H. apply Hrest in H as [Hyes Hno]. destruct (Z.le_gt_cases (generated_at_ns e') job.1).
      * replace (Z.max (generated_at_ns e) job.1) with (Z.max (generated_at_ns e') job.1) by lia.
        apply Hyes. lia.
      * rewrite Hno by lia. simpl. split; [lia|constructor].
Qed.

Lemma last_default {A} (l : list A) a b : l ≠ [] → List.last l a = List.last l b.
Proof. induction l as [|x [|y l] IH]; intros H; [done|done|]. by apply IH. Qed.

Lemma check_distinct_chronological e es retired :
  check_distinct (e :: es) = Ok () → generated_at_ns (List.last (e :: es) e) < retired →
  chronological (e :: es) retired.
Proof.
  revert e. induction es as [|e' es IH]; intros e H Hr.
  - simpl in *. split_and!; [constructor|done|done].
  - cbn [check_distinct] in H. unfold _require in H. apply bind_ok in H as (? & Hlt%guard_or_ok & H).
    apply Z.ltb_lt in Hlt.
    assert (generated_at_ns (List.last (e' :: es) e') < retired) as Hr'.
    { by rewrite (last_default (e' :: es) e' e). }
    pose proof (IH e' H Hr') as (He' & Her & Hc). split_and!; [|lia|by split_and!].
    constructor; [done|]. eapply Forall_impl; [exact He'|]. simpl. lia.
Qed.

(** ** Windows *)
Lemma py_range_multiples a k period :
  0 < period → py_range (a * period) ((a + Z.of_nat k) * period) period
               = map (λ i, (a + Z.of_nat i) * period) (seq 0 k).
Proof.
  intros Hp. unfold py_range.
  replace (- ((a + Z.of_nat k) * period - a * period)) with (- Z.of_nat k * period) by lia.
  rewrite Z.div_mul by lia. replace (Z.to_nat (- - Z.of_nat k)) with k by lia.
  apply map_ext. intros i. lia.
Qed.

Lemma increasing_multiples a n k period :
  0 < period → increasing (map (λ i, (a + Z.of_nat i) * period) (seq n k)) = true.
Proof.
  intros Hp. revert n. induction k as [|k IH]; intros n; [done|].
  specialize (IH (S n)). cbn [seq map] in *. destruct k as [|k]; [done|].
  cbn [seq map increasing] in *. rewrite IH, andb_true_r. apply Z.ltb_lt. nia.
Qed.

(** ** Properties *)

(** C20. Resolving a bundle's history partitions the job interval: on success the
    bundle interval runs from the first generation to the retirement, the
    occurrences tile the requested interval (the whole bundle by default) without
    gap or overlap, and at every instant of an occurrence its entry is the latest
    selection generated by then. *)
Theorem occurrences_partition history retired ji b j os :
  resolve_occurrences history retired ji = Ok (b, j, os) →
  j = default b ji ∧ b.2 = retired ∧ b.1 ≤ j.1 < j.2 ∧ j.2 ≤ b.2 ∧
  (∀ e, e ∈ history → b.1 ≤ generated_at_ns e < retired) ∧
  tiles j.1 j.2 os ∧ Forall (attributed history) os.
Proof.
  unfold resolve_occurrences. destruct (sort_by entry_leb history) as [|e es] eqn:Es; [done|].
  intros H. apply bind_ok in H as ([] & Hd & H). unfold _require in H.
  apply bind_ok in H as (? & Hr%guard_or_ok%Z.ltb_lt & H).
  apply bind_ok in H as (? & Hj%guard_or_ok & H). apply bind_ok in H as (os' & Hos & [= <- <- <-]).
  set (j := default _ ji) in *. simpl in Hj.
  apply andb_true_iff in Hj as [[H1%Z.leb_le H2%Z.ltb_lt]%andb_true_iff H3%Z.leb_le].
  pose proof (check_distinct_chronological e es retired Hd Hr) as Hc.
  assert (∀ y, y ∈ history ↔ y ∈ e :: es) as Hin by (intros y; rewrite <- Es; symmetry; apply sort_by_elem).
  destruct (clip_tiles es e retired j os' Hc H3) as [Ht Hat]; [lia|done|].
  rewrite Z.max_r in Ht by done. split_and!; try done.
  - intros y Hx%Hin. simpl. clear -Hx Hc. revert e Hx Hc. induction es as [|e' es IH]; intros e Hx (He & Her & Hc).
    + apply list_elem_of_singleton in Hx as ->. lia.
    + apply elem_of_cons in Hx as [->|Hx]; [lia|]. rewrite Forall_forall in He. pose proof (He y Hx).
      destruct (IH e' Hx Hc). lia.
  - eapply Forall_impl; [exact Hat|]. intros o (en & Hdx & Hx). exists en. split; [done|].
    intros t Ht'. destruct (Hx t Ht') as (Hxin & Hxt & Hall). split_and!; [by apply Hin|done|].
    intros y Hy. by apply Hall, Hin.
Qed.

Definition demo_history : list HistoryEntry :=
  [mkHistoryEntry "r2" 200 "m/2" (String.concat "" (replicate 64 "b")) "p/2" (String.concat "" (replicate 64 "c"));
   mkHistoryEntry "r1" 100 "m/1" (String.concat "" (replicate 64 "a")) "p/1" (String.concat "" (replicate 64 "d"));
   mkHistoryEntry "r3" 300 "m/3" (String.concat "" (replicate 64 "e")) "p/3" (String.concat "" (replicate 64 "f"))].

Lemma occurrences_partition_witness :
  ∃ os, resolve_occurrences demo_history 400 (Some (150, 250)) = Ok ((100, 400), (150, 250), os) ∧
    map start_ns os = [150; 200] ∧ tiles 150 250 os.
Proof.
  assert (∃ os, resolve_occurrences demo_history 400 (Some (150, 250)) = Ok ((100, 400), (150, 250), os) ∧
    map start_ns os = [150; 200]) as (os & E & Hs) by (eexists; split; vm_compute; reflexivity).
  exists os. split; [exact E|]. split; [exact Hs|].
  destruct (occurrences_partition _ _ _ _ _ _ E) as (_ & _ & _ & _ & _ & Ht & _). exact Ht.
Defined.

(** Windows cover the interval exactly once at the given period: for any divisor of
    the day and any nonempty interval, [window_bounds] succeeds; its bounds are the
    tightest multiples of the period around the interval, and every instant of the
    bounds lies in exactly one of the listed windows. *)
Theorem window_bounds_cover start_ns end_ns window_seconds :
  start_ns < end_ns → 0 < window_seconds → 86400 mod window_seconds = 0 →
  let period := seconds window_seconds in
  ∃ first last starts, window_bounds start_ns end_ns window_seconds = Ok (first, last, starts) ∧
    first mod period = 0 ∧ last mod period = 0 ∧
    first ≤ start_ns < first + period ∧ last - period < end_ns ≤ last ∧
    increasing starts = true ∧
    (∀ t, first ≤ t < last ↔ ∃ w, w ∈ starts ∧ w ≤ t < w + period) ∧
    (∀ w, w ∈ starts → w mod period = 0).
Proof.
  intros Hse Hw Hd period. assert (0 < period) as Hp by (unfold period, seconds; lia).
  set (a := start_ns / period). set (k := Z.to_nat (- (- end_ns / period) - a)).
  assert (a * period ≤ start_ns < a * period + period) as Ha.
  { pose proof (Z.mul_div_le start_ns period Hp). pose proof (Z.mul_succ_div_gt start_ns period Hp).
    unfold a. nia. }
  set (z := - (- end_ns / period)).
  assert (z * period - period < end_ns ≤ z * period) as Hz.
  { pose proof (Z.mul_div_le (- end_ns) period Hp). pose proof (Z.mul_succ_div_gt (- end_ns) period Hp).
    unfold z. nia. }
  assert (a < z) as Haz by nia. assert (z = a + Z.of_nat k) as Hk by (unfold k; fold z; lia).
  exists (a * period), (z * period), (map (λ i, (a + Z.of_nat i) * period) (seq 0 k)).
  split_and!; try lia; try (apply Z.mod_mul; lia).
  - unfold window_bounds, _window_period. apply Z.ltb_lt in Hse as ->. apply Z.ltb_lt in Hw as ->.
    apply Z.eqb_eq in Hd as ->. cbn [mbind result_bind ensure _require guard_or andb].
    fold period. fold a z. rewrite Hk. by rewrite py_range_multiples.
  - by apply increasing_multiples.
  - intros t. rewrite Hk. split.
    + intros Ht. exists (t / period * period).
      pose proof (Z.mul_div_le t period Hp). pose proof (Z.mul_succ_div_gt t period Hp).
      split; [|nia]. apply list_elem_of_fmap. exists (Z.to_nat (t / period - a)).
      rewrite elem_of_seq. assert (a ≤ t / period) by (apply Z.div_le_lower_bound; lia).
      assert (t / period < a + Z.of_nat k) by (apply Z.div_lt_upper_bound; lia). split; [f_equal; lia|lia].
    + intros (w & (i & -> & Hi%elem_of_seq)%list_elem_of_fmap & Hw1). nia.
  - intros w (i & -> & _)%list_elem_of_fmap. apply Z.mod_mul. lia.
Qed.

Lemma window_bounds_cover_witness :
  ∃ first last starts, window_bounds 5000000000 9000000000 3 = Ok (first, last, starts) ∧
    first ≤ 5000000000 < first + seconds 3 ∧ last - seconds 3 < 9000000000 ≤ last.
Proof.
  destruct (window_bounds_cover 5000000000 9000000000 3) as (f & l & s & E & _ & _ & H1 & H2 & _);
    [lia|lia|reflexivity|]. exists f, l, s. split; [exact E|]. split; [exact H1|exact H2].
Defined.
