(* ===== verification/JobStore.v ===== *)
(** * The durable job store ([src/universe/jobs/store.py])

    The three tables of the replay-job database, the CHECK constraints of
    [JOBS_SCHEMA_SQL] ([src/replay/jobs/contracts.py]) and every operation of
    [ReplayJobStore] that reads or writes rows.  An operation is a transaction: it
    returns its answer with the database it commits, and an exception rolls back, so
    the caller keeps the database it had.  Integers reach SQLite as signed 64-bit
    values.  The request document and its digest are arguments. *)
From stdpp Require Import list strings gmap fin_maps.
From S2P Require Import Prelude Wire JobDetail ObjectKeys JobContracts JobMachine.

#[global] Instance job_row_eq_dec : EqDecision JobRow.
Proof. solve_decision. Defined.

(** ** Tables *)
Record stored := mkStored { stored_row : JobRow; request_json : list Byte.byte }.

Record submission := mkSubmission {
  sub_sha256 : string;
  sub_job_id : string;
  sub_created_at_ns : Z;
}.

(** One row of [job_events]; its [event_id] is its position, counted from 1. *)
Record job_event := mkEvent {
  event_job_id : string;
  event_type : string;
  event_created_at_ns : Z;
  event_status : status;
  event_stage : option stage;
  event_attempts : Z;
  event_pending : option status;
  event_reason : option string;
}.

Record db := mkDb {
  jobs : gmap string stored;
  submissions : gmap (string * string) submission;
  events : list job_event;
}.

Definition empty_db : db := mkDb ∅ ∅ [].

Record Limits := mkLimits {
  max_active_jobs_per_submitter : Z;
  max_active_jobs_total : Z;
  max_queued_jobs_total : Z;
}.

Record Principal := mkPrincipal { principal_address : string; principal_role : string }.

Definition _require_http (ok : bool) (code : Z) (message : string) : result () :=
  guard_or ok (ReplayJobError code message).

(** [str.lower] of an ASCII string. *)
Definition lower_char (c : Ascii.ascii) : Ascii.ascii :=
  if (65 <=? code c) && (code c <=? 90) then Ascii.ascii_of_N (Z.to_N (code c + 32)) else c.
Definition str_lower (s : string) : string :=
  String.string_of_list_ascii (map lower_char (chars s)).

(** ** Binding and constraints *)

(** A Python int bound to a statement parameter. *)
Definition fits_int64 (n : Z) : bool := (- 2 ^ 63 <=? n) && (n <? 2 ^ 63).
Definition bind_int (n : Z) : result () := guard_or (fits_int64 n) OverflowError.
Definition fits_optional (o : option Z) : bool :=
  match o with None => true | Some n => fits_int64 n end.
Definition row_fits (r : JobRow) : bool :=
  fits_int64 (created_at_ns r) && fits_int64 (stage_attempts r)
  && fits_optional (next_attempt_at_ns r) && fits_optional (started_at_ns r)
  && fits_int64 (updated_at_ns r) && fits_optional (finished_at_ns r)
  && fits_optional (blocked_at_ns r).

(** [length(text)] stops at the first NUL. *)
Definition sql_length (t : text) : nat := length (fst (span (λ c, negb (c =? 0)) t)).

Definition archiving_like (s : status) : bool := is_status s ARCHIVING || is_status s ARCHIVE_BLOCKED.

(** The column checks of [JOBS_SCHEMA_SQL]; a NULL operand lets a CHECK pass. *)
Definition column_checks (r : JobRow) : bool :=
  valid_job_id (job_id r) && (0 <=? created_at_ns r) && is_address (submitted_by r)
  && is_hex64 (request_sha256 r) && (0 <=? stage_attempts r)
  && match pending_outcome r with None => true | Some o => TERMINAL o end
  && match reason_code r with None => true | Some c => in_list REASON_CODES c end
  && match detail r with None => true | Some d => (sql_length d <=? MAX_REASON_DETAIL)%nat end
  && match blocked_reason_code r with None => true | Some c => in_list ARCHIVE_BLOCK_CODES c end.

(** Its table checks. *)
Definition table_checks (r : JobRow) : bool :=
  let s := job_status r in
  eqb (archiving_like s) (is_some (pending_outcome r))
  && eqb (is_status s ARCHIVE_BLOCKED) (is_some (blocked_reason_code r))
  && eqb (is_status s ARCHIVE_BLOCKED) (is_some (blocked_at_ns r))
  && eqb (TERMINAL s) (is_some (finished_at_ns r))
  && eqb (TERMINAL s) (is_some (archive_receipt_key r))
  && match archive_receipt_key r with
     | None => true
     | Some k => String.eqb k ("replay/jobs/" +:+ job_id r +:+ "/job_receipt.json")
     end
  && (negb (is_some (next_attempt_at_ns r)) || RESUMABLE s)
  && (negb (is_status s QUEUED) ||
      negb (is_some (job_stage r)) && (stage_attempts r =? 0)
      && negb (is_some (started_at_ns r)) && negb (is_some (reason_code r)))
  && (negb (is_status s RUNNING) ||
      match job_stage r with None => false | Some g => bool_decide (g ≠ archive) end
      && (1 <=? stage_attempts r) && is_some (started_at_ns r))
  && (is_status s QUEUED || is_status s RUNNING ||
      match job_stage r with None => true | Some g => bool_decide (g = archive) end)
  && (negb (is_status s SUCCEEDED) && negb (bool_decide (pending_outcome r = Some SUCCEEDED))
      || negb (is_some (reason_code r)))
  && (negb (existsb (is_status s) [FAILED; EXHAUSTED; NOT_READY; STALE_BUNDLE_CACHE; CANCELLED])
      || is_some (reason_code r)).

Definition schema_check (r : JobRow) : bool := column_checks r && table_checks r.

(** [IDEMPOTENCY_KEY_RE], and the same set as a GLOB in the schema. *)
Definition key_char (c : Ascii.ascii) : bool :=
  is_digit c || ((65 <=? code c) && (code c <=? 90)) || ((97 <=? code c) && (code c <=? 122))
  || existsb (Z.eqb (code c)) [46; 95; 126; 45].
Definition valid_key (key : string) : bool :=
  let l := chars key in (1 <=? length l)%nat && (length l <=? 128)%nat && forallb key_char l.
Definition _validate_key (key : string) : result () :=
  _require_http (valid_key key) 400 "invalid Idempotency-Key".

Definition EVENT_TYPES : list string :=
  ["submitted"; "cancelled"; "claimed_initialize"; "claimed_resume"; "stage_advanced";
   "retry_scheduled"; "outcome_pending"; "outcome_replaced"; "archive_blocked";
   "archive_resumed"; "finished"].

Definition event_check (d : db) (e : job_event) : bool :=
  in_list EVENT_TYPES (event_type e) && (0 <=? event_created_at_ns e) && (0 <=? event_attempts e)
  && match event_pending e with None => true | Some o => TERMINAL o end
  && eqb (archiving_like (event_status e)) (is_some (event_pending e))
  && bool_decide (is_Some (jobs d !! event_job_id e)).

(** ** Statements *)
Definition row_event (r : JobRow) (type : string) (now_ns : Z) : job_event :=
  mkEvent (job_id r) type now_ns (job_status r) (job_stage r) (stage_attempts r)
    (pending_outcome r) (reason_code r).

Definition _append_event (d : db) (r : JobRow) (type : string) (now_ns : Z) : result db :=
  let e := row_event r type now_ns in
  _ ← bind_int now_ns; _ ← bind_int (stage_attempts r);
  _ ← guard_or (event_check d e) IntegrityError;
  Ok (mkDb (jobs d) (submissions d) (events d ++ [e])).

(** The row an UPDATE's WHERE clause names. *)
Definition cas_matches (stored before : JobRow) : bool :=
  bool_decide (job_status stored = job_status before)
  && bool_decide (job_stage stored = job_stage before)
  && (stage_attempts stored =? stage_attempts before)
  && (updated_at_ns stored =? updated_at_ns before).

(** The callers keep the job id, so the row stays under its key. *)
Definition _update (d : db) (before after : JobRow) : result db :=
  _ ← guard_or (row_fits after && fits_int64 (stage_attempts before)
                && fits_int64 (updated_at_ns before)) OverflowError;
  match jobs d !! job_id before with
  | Some s =>
      _ ← _require_http (cas_matches (stored_row s) before) 409 "job compare-and-set failed";
      _ ← guard_or (schema_check after) IntegrityError;
      Ok (mkDb (<[job_id before := mkStored after (request_json s)]> (jobs d))
            (submissions d) (events d))
  | None => Err (ReplayJobError 409 "job compare-and-set failed")
  end.

(** [ORDER BY ... LIMIT 1]. *)
Fixpoint first_by (l : list JobRow) : option JobRow :=
  match l with
  | [] => None
  | a :: l => match first_by l with
              | None => Some a
              | Some b => Some (if row_leb a b then a else b)
              end
  end.

Definition rows (d : db) : list JobRow := map (λ kv, stored_row kv.2) (map_to_list (jobs d)).

Definition active (r : JobRow) : bool := negb (TERMINAL (job_status r)).
Definition count (P : JobRow → bool) (d : db) : Z :=
  Z.of_nat (length (filter (λ r, P r = true) (rows d))).
Definition by_submitter (who : string) (r : JobRow) : bool := String.eqb (submitted_by r) who.
Definition queued (r : JobRow) : bool := is_status (job_status r) QUEUED.

(** ** Operations *)
Section Store.
Context (isprintable isspace : Z → bool).
Context (limits : Limits).

Local Abbreviation row_build := (build isprintable isspace).

(** [_job_row]: reading a row checks it. *)
Definition _job_row (s : stored) : result JobRow := row_build (stored_row s).

(** The join selects the submission's digest first, so the row carries that one. *)
Definition with_sha256 (sha : string) (r : JobRow) : JobRow :=
  mkJobRow (job_id r) (created_at_ns r) (submitted_by r) sha (job_status r) (job_stage r)
    (stage_attempts r) (next_attempt_at_ns r) (started_at_ns r) (updated_at_ns r)
    (finished_at_ns r) (pending_outcome r) (reason_code r) (detail r)
    (blocked_reason_code r) (blocked_at_ns r) (archive_receipt_key r).

Definition _lookup_submission (d : db) (who key sha : string) : result (option (JobRow * bool)) :=
  match submissions d !! (who, key) with
  | None => Ok None
  | Some sub =>
      match jobs d !! sub_job_id sub with
      | None => Ok None
      | Some s =>
          _ ← _require_http (String.eqb (sub_sha256 sub) sha) 409
                "idempotency key was used for a different request";
          r ← row_build (with_sha256 (sub_sha256 sub) (stored_row s));
          Ok (Some (r, false))
      end
  end.

Definition _check_quotas (d : db) (who : string) : result () :=
  _ ← _require_http (count (λ r, by_submitter who r && active r) d
                     <? max_active_jobs_per_submitter limits)
        429 "submitter active job quota exhausted";
  _ ← _require_http (count active d <? max_active_jobs_total limits)
        503 "global active job quota exhausted";
  _require_http (count queued d <? max_queued_jobs_total limits)
    503 "global queued job quota exhausted".

(** The 128 attempts of [_insert_job]; [suffix i] is the [i]-th call of the source of
    randomness. *)
Fixpoint insert_attempts (fuel : nat) (i : nat) (suffix : nat → string)
    (d : db) (request : list Byte.byte) (who sha : string) (now_ns : Z) : result (JobRow * db) :=
  match fuel with
  | O => Err (ReplayJobError 503 "could not allocate a replay job id")
  | S fuel =>
      id ← ObjectKeys.job_id now_ns (suffix i);
      candidate ← new_job isprintable isspace id who sha now_ns;
      _ ← guard_or (row_fits candidate) OverflowError;
      if bool_decide (is_Some (jobs d !! job_id candidate))
      then insert_attempts fuel (S i) suffix d request who sha now_ns
      else
        _ ← guard_or (schema_check candidate) IntegrityError;
        Ok (candidate, mkDb (<[job_id candidate := mkStored candidate request]> (jobs d))
                         (submissions d) (events d))
  end.

Definition submission_check (d : db) (who key : string) (sub : submission) : bool :=
  is_address who && valid_key key && is_hex64 (sub_sha256 sub) && (0 <=? sub_created_at_ns sub)
  && bool_decide (is_Some (jobs d !! sub_job_id sub))
  && forallb (λ kv, negb (String.eqb (sub_job_id kv.2) (sub_job_id sub))) (map_to_list (submissions d))
  && negb (bool_decide (is_Some (submissions d !! (who, key)))).

Definition submit (d : db) (request_bytes : list Byte.byte) (request_hash : string)
    (principal : Principal) (idempotency_key : string) (suffix : nat → string) (now_ns : Z)
    (bundle_exists : bool) : result ((JobRow * bool) * db) :=
  _ ← _validate_key idempotency_key;
  let submitted_by := str_lower (principal_address principal) in
  existing ← _lookup_submission d submitted_by idempotency_key request_hash;
  match existing with
  | Some found => Ok (found, d)
  | None =>
      _ ← _require_http bundle_exists 404 "bundle not found";
      _ ← _check_quotas d submitted_by;
      '(row, d1) ← insert_attempts 128 0 suffix d request_bytes submitted_by request_hash now_ns;
      let sub := mkSubmission request_hash (job_id row) now_ns in
      _ ← bind_int now_ns;
      _ ← guard_or (submission_check d1 submitted_by idempotency_key sub) IntegrityError;
      let d2 := mkDb (jobs d1) (<[(submitted_by, idempotency_key) := sub]> (submissions d1)) (events d1) in
      d3 ← _append_event d2 row "submitted" now_ns;
      Ok ((row, true), d3)
  end.

Definition lookup_submission (d : db) (who key sha : string) : result (option (JobRow * bool)) :=
  _ ← _validate_key key; _lookup_submission d (str_lower who) key sha.

Definition get_job (d : db) (id : string) : result (option (JobRow * list Byte.byte)) :=
  _ ← check_job_id id;
  match jobs d !! id with
  | None => Ok None
  | Some s => r ← _job_row s; Ok (Some (r, request_json s))
  end.

Definition _limit (limit : Z) : result () :=
  guard_or ((1 <=? limit) && (limit <=? 100)) (ValueError "limit must be between 1 and 100").

(** [(created_at_ns,job_id) < (?,?)]. *)
Definition row_before (r : JobRow) (after : Z * string) : bool :=
  (created_at_ns r <? after.1) ||
  ((created_at_ns r =? after.1) &&
   match String.compare (job_id r) after.2 with Lt => true | _ => false end).

Definition list_jobs (d : db) (wanted : option status) (limit : Z) (after : option (Z * string))
    : result (list JobRow * bool) :=
  _ ← _limit limit;
  _ ← match after with None => Ok () | Some a => bind_int a.1 end;
  let selected := filter (λ r,
    match wanted with None => true | Some s => is_status (job_status r) s end
    && match after with None => true | Some a => row_before r a end = true) (rows d) in
  let found := take (Z.to_nat (limit + 1)) (sort_by (λ a b, row_leb b a) selected) in
  page ← mapR row_build (take (Z.to_nat limit) found);
  Ok (page, limit <? Z.of_nat (length found)).

(** The events with their ids. *)
Definition numbered (d : db) : list (Z * job_event) :=
  zip2 (seqZ 1 (Z.of_nat (length (events d)))) (events d).

Definition list_events (d : db) (id : string) (limit : Z) (after_event_id : option Z)
    : result (list (Z * job_event) * bool) :=
  _ ← check_job_id id;
  _ ← _limit limit;
  _ ← match after_event_id with
      | None => Ok ()
      | Some a => guard_or (0 <=? a) (ValueError "event cursor must be a nonnegative integer")
      end;
  let cursor := default 0 after_event_id in
  _ ← bind_int cursor;
  let found := take (Z.to_nat (limit + 1))
    (filter (λ e, String.eqb (event_job_id e.2) id && (cursor <? e.1) = true) (numbered d)) in
  Ok (take (Z.to_nat limit) found, limit <? Z.of_nat (length found)).

Definition cancel_job (d : db) (id : string) (principal : Principal) (now_ns : Z)
    : result (JobRow * db) :=
  _ ← check_job_id id;
  match jobs d !! id with
  | None => Err (ReplayJobError 404 "job not found")
  | Some s =>
      before ← _job_row s;
      _ ← _require_http (String.eqb (principal_role principal) "admin"
                         || String.eqb (str_lower (principal_address principal)) (submitted_by before))
            403 "forbidden";
      _ ← _require_http (queued before) 409 "only queued jobs can be cancelled";
      after ← cancel isprintable isspace before now_ns;
      d1 ← _update d before after;
      d2 ← _append_event d1 after "cancelled" now_ns;
      Ok (after, d2)
  end.

Inductive mode := initialize | resume.

Definition _claim_event (before after : JobRow) (m : mode) : string :=
  if is_status (job_status after) ARCHIVE_BLOCKED then "archive_blocked"
  else if is_status (job_status before) RUNNING && is_status (job_status after) ARCHIVING
  then "outcome_pending"
  else match m with initialize => "claimed_initialize" | resume => "claimed_resume" end.

(** The two queries of [claim_next]. *)
Definition due (now_ns : Z) (r : JobRow) : bool :=
  (is_status (job_status r) RUNNING || is_status (job_status r) ARCHIVING)
  && match next_attempt_at_ns r with None => true | Some t => t <=? now_ns end.
Definition next_stored (d : db) (now_ns : Z) : option JobRow :=
  match first_by (filter (λ r, due now_ns r = true) (rows d)) with
  | Some r => Some r
  | None => first_by (filter (λ r, queued r = true) (rows d))
  end.

Definition claim_mode (before : JobRow) : mode :=
  if is_status (job_status before) QUEUED
     || (is_status (job_status before) ARCHIVING
         && bool_decide (pending_outcome before = Some CANCELLED)
         && negb (is_some (started_at_ns before)) && (stage_attempts before =? 0))
  then initialize else resume.

Definition claim_next (d : db) (o : orchestration) (now_ns : Z)
    : result (option (JobRow * mode) * db) :=
  _ ← bind_int now_ns;
  match next_stored d now_ns with
  | None => Ok (None, d)
  | Some r =>
      before ← row_build r;
      let m := claim_mode before in
      after ← claim isprintable isspace before o now_ns;
      d1 ← _update d before after;
      d2 ← _append_event d1 after (_claim_event before after m) now_ns;
      Ok (Some (after, m), d2)
  end.

(** [except jobs.ContractError]. *)
Definition conflict {A} (m : result A) : result A :=
  match m with
  | Err (ContractError _ _) => Err (ReplayJobError 409 "invalid job transition")
  | _ => m
  end.

(** [before] with the fields a running, or an archiving, retry may change. *)
Definition retry_fields (before after : JobRow) : JobRow :=
  set_outcome (pending_outcome before) (reason_code after) (detail after)
    (set_progress (job_status before) (job_stage before) (stage_attempts before)
       (next_attempt_at_ns after) (started_at_ns before) (updated_at_ns after) before).
Definition archive_retry_fields (before after : JobRow) : JobRow :=
  set_outcome (pending_outcome before) (reason_code before) (detail after)
    (set_progress (job_status before) (job_stage before) (stage_attempts before)
       (next_attempt_at_ns after) (started_at_ns before) (updated_at_ns after) before).

(** One [if] block of [_transition_event]: it returns an event type, falls through
    ([None]) or raises.  [andthen] runs the next block on a fall-through. *)
Definition andthen (m : result (option string)) (k : result (option string)) : result (option string) :=
  found ← m; match found with Some ev => Ok (Some ev) | None => k end.

Definition when_equal (expected after : JobRow) (ev : string) : result (option string) :=
  Ok (if bool_decide (after = expected) then Some ev else None).

Definition immutable_ok (before after : JobRow) : bool :=
  bool_decide (job_id before = job_id after) && (created_at_ns before =? created_at_ns after)
  && bool_decide (submitted_by before = submitted_by after)
  && bool_decide (request_sha256 before = request_sha256 after)
  && bool_decide (started_at_ns before = started_at_ns after).

Definition from_to (before after : JobRow) (a b : status) : bool :=
  is_status (job_status before) a && is_status (job_status after) b.

(** running → running *)
Definition event_running (before after : JobRow) : result (option string) :=
  andthen
    (if bool_decide (job_stage before = job_stage after) then Ok None
     else expected ← conflict (match job_stage after with
            | Some g => advance isprintable isspace before g (updated_at_ns after)
            | None => Err (ContractError "does not follow" None)
            end);
          when_equal expected after "stage_advanced")
    (if stage_attempts before =? stage_attempts after
     then when_equal (retry_fields before after) after "retry_scheduled" else Ok None).

(** running → archiving *)
Definition event_pending_outcome (before after : JobRow) : result (option string) :=
  if bool_decide (pending_outcome after = Some SUCCEEDED)
  then expected ← succeed isprintable isspace before (updated_at_ns after);
       when_equal expected after "outcome_pending"
  else match reason_code after with
       | Some code =>
           if is_some (outcome_of_code code)
           then expected ← conflict (fail isprintable isspace before code (detail after) (updated_at_ns after));
                when_equal expected after "outcome_pending"
           else Ok None
       | None => Ok None
       end.

(** archiving → archiving *)
Definition event_archiving (before after : JobRow) : result (option string) :=
  andthen
    (if bool_decide (pending_outcome before = pending_outcome after)
        && bool_decide (reason_code before = reason_code after) then Ok None
     else expected ← lose_local_state isprintable isspace before (detail after) (updated_at_ns after);
          when_equal expected after "outcome_replaced")
    (if stage_attempts before =? stage_attempts after
     then when_equal (archive_retry_fields before after) after "retry_scheduled" else Ok None).

(** archiving → archive_blocked *)
Definition event_blocked (before after : JobRow) : result (option string) :=
  match blocked_reason_code after with
  | None => Ok None
  | Some code =>
      expected ← block_archive isprintable isspace before code (updated_at_ns after);
      when_equal expected after "archive_blocked"
  end.

(** archiving → terminal *)
Definition event_finished (before after : JobRow) : result (option string) :=
  expected ← match finished_at_ns after with
             | Some fin => finish isprintable isspace before fin (updated_at_ns after)
             | None => Err (ContractError "must be u64 ns" None)
             end;
  when_equal expected after "finished".

Definition only_if (b : bool) (m : result (option string)) : result (option string) :=
  if b then m else Ok None.

Definition _transition_event (before after : JobRow) : result string :=
  _ ← _require_http (immutable_ok before after) 409 "invalid job transition";
  found ←
    andthen (only_if (from_to before after RUNNING RUNNING) (event_running before after))
    (andthen (only_if (from_to before after RUNNING ARCHIVING) (event_pending_outcome before after))
    (andthen (only_if (from_to before after ARCHIVING ARCHIVING) (event_archiving before after))
    (andthen (only_if (from_to before after ARCHIVING ARCHIVE_BLOCKED) (event_blocked before after))
    (andthen (only_if (from_to before after ARCHIVE_BLOCKED ARCHIVING)
                (expected ← resume_blocked isprintable isspace before (updated_at_ns after);
                 when_equal expected after "archive_resumed"))
    (only_if (is_status (job_status before) ARCHIVING && TERMINAL (job_status after))
       (event_finished before after))))));
  match found with
  | Some ev => Ok ev
  | None => Err (ReplayJobError 409 "invalid job transition")
  end.

Definition save (d : db) (before after : JobRow) : result (JobRow * db) :=
  _ ← _require_http (String.eqb (job_id before) (job_id after)) 409 "job compare-and-set failed";
  event_type ← _transition_event before after;
  match jobs d !! job_id before with
  | None => Err (ReplayJobError 409 "job compare-and-set failed")
  | Some s =>
      r ← _job_row s;
      _ ← _require_http (bool_decide (r = before)) 409 "job compare-and-set failed";
      d1 ← _update d before after;
      d2 ← _append_event d1 after event_type (updated_at_ns after);
      Ok (after, d2)
  end.

(** ** A caller of the store *)
Inductive op :=
| OSubmit (request : list Byte.byte) (sha : string) (p : Principal) (key : string)
    (suffix : nat → string) (now_ns : Z) (bundle_exists : bool)
| OCancel (id : string) (p : Principal) (now_ns : Z)
| OClaim (o : orchestration) (now_ns : Z)
| OSave (before after : JobRow).

(** One call.  A caller holds checked rows only; an exception leaves the database. *)
Definition call (d : db) (o : op) : result db :=
  match o with
  | OSubmit request sha p key suffix now be => x ← submit d request sha p key suffix now be; Ok x.2
  | OCancel id p now => x ← cancel_job d id p now; Ok x.2
  | OClaim o now => x ← claim_next d o now; Ok x.2
  | OSave before after => _ ← row_build before; _ ← row_build after; x ← save d before after; Ok x.2
  end.

Definition apply_op (d : db) (o : op) : db := match call d o with Ok d' => d' | Err _ => d end.
Definition run_ops (d : db) (os : list op) : db := foldl apply_op d os.
End Store.
