(* ===== verification/JobStoreProps.v ===== *)
(** * What the job store promises ([src/universe/jobs/store.py])

    Every checked row satisfies the SQL schema; the tables stay consistent and the
    quotas hold under any calls; submissions are idempotent for ever; claims follow
    [select_next]; and [save] commits the transitions of the state machine. *)
From stdpp Require Import list strings gmap fin_maps.
From S2P Require Import Prelude Wire JobDetail ObjectKeys JobContracts JobMachine JobStore.

Lemma span_length f l : (length (fst (span f l)) ≤ length l)%nat.
Proof. induction l as [|c l IH]; simpl; [lia|]. destruct (f c), (span f l); simpl in *; lia. Qed.

Section Rows.
Context (isprintable isspace : Z → bool) (laws : UnicodeLaws isprintable isspace).
Local Abbreviation valid := (valid isprintable isspace).

Lemma column_checks_valid r : valid r → column_checks r = true.
Proof.
  intros [[] Hs]. unfold column_checks. unfold u64, opt_u64 in *.
  rewrite !andb_true_iff, !Z.leb_le. split_and!; try (done || lia).
  - destruct (pending_outcome r) as [o|] eqn:E; [|done]. unfold shape_ok in Hs. rewrite E in Hs.
    destruct (job_status r); naive_solver.
  - by destruct (reason_code r).
  - destruct (detail r) as [d|] eqn:E; [|done]. apply Nat.leb_le.
    apply (reason_detail_sanitizes isprintable isspace d) in fo_detail.
    pose proof (span_length (λ c, negb (c =? 0)) d). destruct fo_detail. unfold sql_length. lia.
  - destruct (blocked_reason_code r) as [c|] eqn:E; [|done]. unfold shape_ok in Hs. rewrite E in Hs.
    destruct (job_status r); naive_solver.
Qed.

Lemma code_matches_some o c : code_matches o c → o ≠ SUCCEEDED → is_some c = true.
Proof. intros H Hn. unfold code_matches in H. rewrite decide_False in H by done. by destruct c. Qed.
Lemma code_matches_none c : code_matches SUCCEEDED c → c = None.
Proof. done. Qed.

Lemma table_checks_valid r : valid r → table_checks r = true.
Proof.
  intros [_ Hs]. unfold table_checks. unfold shape_ok in Hs. unfold archiving_like.
  destruct (job_status r) eqn:E; cbn [TERMINAL RESUMABLE].
  - destruct Hs as (-> & -> & -> & -> & -> & -> & [-> ->] & [-> ->]). done.
  - destruct Hs as ((g & -> & Hg) & Ha & [st ->] & Hc & -> & [-> ->] & [-> ->]).
    apply Z.leb_le in Ha. rewrite Ha. destruct g; try done; by destruct (next_attempt_at_ns r).
  - destruct Hs as (-> & [-> ->] & [-> ->] & o & -> & Ho & Hm). simpl.
    destruct (decide (o = SUCCEEDED)) as [->|Hne].
    + rewrite (code_matches_none _ Hm). by destruct (next_attempt_at_ns r).
    + rewrite (bool_decide_false (Some o = Some SUCCEEDED)) by congruence. by destruct (next_attempt_at_ns r).
  - destruct Hs as (-> & [-> ->] & -> & (c & -> & Hc) & [b ->] & o & -> & Ho & Hm). simpl.
    destruct (decide (o = SUCCEEDED)) as [->|Hne]; [by rewrite (code_matches_none _ Hm)|].
    by rewrite (bool_decide_false (Some o = Some SUCCEEDED)) by congruence.
  - destruct Hs as (-> & -> & -> & -> & [-> ->] & [f ->] & -> & Hm).
    rewrite (code_matches_none _ Hm). simpl. unfold receipt_key. by rewrite String.eqb_refl.
  - destruct Hs as (-> & -> & -> & -> & [-> ->] & [f ->] & -> & Hm).
    rewrite (code_matches_some _ _ Hm) by done. simpl. unfold receipt_key. by rewrite String.eqb_refl.
  - destruct Hs as (-> & -> & -> & -> & [-> ->] & [f ->] & -> & Hm).
    rewrite (code_matches_some _ _ Hm) by done. simpl. unfold receipt_key. by rewrite String.eqb_refl.
  - destruct Hs as (-> & -> & -> & -> & [-> ->] & [f ->] & -> & Hm).
    rewrite (code_matches_some _ _ Hm) by done. simpl. unfold receipt_key. by rewrite String.eqb_refl.
  - destruct Hs as (-> & -> & -> & -> & [-> ->] & [f ->] & -> & Hm).
    rewrite (code_matches_some _ _ Hm) by done. simpl. unfold receipt_key. by rewrite String.eqb_refl.
  - destruct Hs as (-> & -> & -> & -> & [-> ->] & [f ->] & -> & Hm).
    rewrite (code_matches_some _ _ Hm) by done. simpl. unfold receipt_key. by rewrite String.eqb_refl.
Qed.

Lemma schema_check_valid r : valid r → schema_check r = true.
Proof. intros H. unfold schema_check. by rewrite column_checks_valid, table_checks_valid. Qed.
End Rows.

(** ** Rows of the table *)
Lemma rows_elem d r : r ∈ rows d ↔ ∃ id s, jobs d !! id = Some s ∧ stored_row s = r.
Proof.
  unfold rows. rewrite list_elem_of_fmap. split.
  - intros ([id s] & -> & H). apply elem_of_map_to_list in H. eauto.
  - intros (id & s & H & <-). exists (id, s). split; [done|]. by apply elem_of_map_to_list.
Qed.

Lemma count_perm P d l :
  Permutation (rows d) l → count P d = Z.of_nat (length (filter (λ r, P r = true) l)).
Proof. intros H. unfold count. by rewrite H. Qed.

Lemma rows_insert d id s subs es :
  jobs d !! id = None →
  Permutation (rows (mkDb (<[id := s]> (jobs d)) subs es)) (stored_row s :: rows d).
Proof. intros H. unfold rows. simpl. by rewrite map_to_list_insert. Qed.

Lemma rows_replace d id s0 :
  jobs d !! id = Some s0 →
  ∃ rest, Permutation (rows d) (stored_row s0 :: rest) ∧
    ∀ s subs es, Permutation (rows (mkDb (<[id := s]> (jobs d)) subs es)) (stored_row s :: rest).
Proof.
  intros H. exists (rows (mkDb (delete id (jobs d)) ∅ [])). split.
  - rewrite <- (rows_insert (mkDb (delete id (jobs d)) ∅ []) id s0 ∅ []) by apply lookup_delete_eq.
    simpl. rewrite insert_delete_eq, insert_id by done. by destruct d.
  - intros s subs es. rewrite <- (rows_insert (mkDb (delete id (jobs d)) ∅ []) id s subs es)
      by apply lookup_delete_eq. simpl. by rewrite insert_delete_eq.
Qed.

Lemma count_insert P d id s subs es :
  jobs d !! id = None →
  count P (mkDb (<[id := s]> (jobs d)) subs es) = count P d + (if P (stored_row s) then 1 else 0).
Proof.
  intros H. rewrite (count_perm _ _ _ (rows_insert d id s subs es H)), filter_cons.
  unfold count. destruct (P (stored_row s)); [rewrite decide_True by done; simpl; lia|].
  rewrite decide_False by done. lia.
Qed.

Lemma count_replace P d id s0 s subs es :
  jobs d !! id = Some s0 → (P (stored_row s) = true → P (stored_row s0) = true) →
  count P (mkDb (<[id := s]> (jobs d)) subs es) ≤ count P d.
Proof.
  intros H HP. destruct (rows_replace d id s0 H) as (rest & H0 & H1).
  rewrite (count_perm _ _ _ (H1 s subs es)), (count_perm _ _ _ H0), !filter_cons.
  destruct (decide (P (stored_row s) = true)) as [E|E].
  - rewrite decide_True by auto. simpl. lia.
  - destruct (decide _); simpl; lia.
Qed.

Lemma first_by_sorted l : first_by l = head (sort_by row_leb l).
Proof.
  induction l as [|a l IH]; simpl; [done|]. rewrite IH.
  destruct (sort_by row_leb l) as [|b k]; simpl; [done|]. by destruct (row_leb a b).
Qed.

Lemma due_claimable now r : due now r = claimable r now.
Proof. unfold due, claimable. by destruct (job_status r). Qed.

Lemma queued_true r : queued r = true ↔ job_status r = QUEUED.
Proof. apply is_status_eq. Qed.

Lemma filter_same {A} (P Q : A → Prop) `{∀ x, Decision (P x)} `{∀ x, Decision (Q x)} (l : list A) :
  (∀ x, P x ↔ Q x) → filter P l = filter Q l.
Proof. intros H1. by apply list_filter_iff. Qed.

(** The two queries are [select_next]. *)
Lemma next_stored_select d now : next_stored d now = select_next (rows d) now.
Proof.
  unfold next_stored, select_next. rewrite !first_by_sorted.
  rewrite (filter_same (λ r, due now r = true) (λ r, claimable r now = true))
    by (intros r; by rewrite due_claimable).
  rewrite (filter_same (λ r, queued r = true) (λ r, job_status r = QUEUED)) by apply queued_true.
  by destruct (sort_by _ _).
Qed.

(** ** Consistency of the tables *)
Section Store.
Context (isprintable isspace : Z → bool) (laws : UnicodeLaws isprintable isspace).
Context (limits : Limits).
Local Abbreviation valid := (valid isprintable isspace).

Definition events_of (d : db) (id : string) : list job_event :=
  filter (λ e, String.eqb (event_job_id e) id = true) (events d).

Record consistent (d : db) : Prop := Consistent {
  co_rows : ∀ id s, jobs d !! id = Some s →
    job_id (stored_row s) = id ∧ valid (stored_row s) ∧ row_fits (stored_row s) = true;
  co_submissions : ∀ who key sub, submissions d !! (who, key) = Some sub →
    ∃ s, jobs d !! sub_job_id sub = Some s ∧
      submitted_by (stored_row s) = who ∧ request_sha256 (stored_row s) = sub_sha256 sub;
  co_submitted : ∀ id s, jobs d !! id = Some s → ∃ k sub, submissions d !! k = Some sub ∧ sub_job_id sub = id;
  co_unique : ∀ k1 k2 s1 s2, submissions d !! k1 = Some s1 → submissions d !! k2 = Some s2 →
    sub_job_id s1 = sub_job_id s2 → k1 = k2;
  co_first : ∀ id s, jobs d !! id = Some s →
    ∃ e, head (events_of d id) = Some e ∧ event_type e = "submitted"%string;
  co_last : ∀ id s, jobs d !! id = Some s →
    ∃ type now, last (events_of d id) = Some (row_event (stored_row s) type now);
  co_events : ∀ e, e ∈ events d → is_Some (jobs d !! event_job_id e);
}.

Record within_quotas (d : db) : Prop := WithinQuotas {
  wq_submitter : ∀ who, count (λ r, by_submitter who r && active r) d
                        ≤ max_active_jobs_per_submitter limits;
  wq_active : count active d ≤ max_active_jobs_total limits;
  wq_queued : count queued d ≤ max_queued_jobs_total limits;
}.

(** What a later database keeps of an earlier one. *)
Record keeps (d d' : db) : Prop := Keeps {
  kp_submissions : ∀ k sub, submissions d !! k = Some sub → submissions d' !! k = Some sub;
  kp_jobs : ∀ id s, jobs d !! id = Some s →
    ∃ s', jobs d' !! id = Some s' ∧ identity (stored_row s') = identity (stored_row s) ∧
      request_json s' = request_json s;
  kp_events : ∃ more, events d' = events d ++ more;
}.

#[global] Instance keeps_preorder : PreOrder keeps.
Proof.
  split.
  - intros d. split; [done|eauto|]. exists []. by rewrite app_nil_r.
  - intros d1 d2 d3 [Hs Hj [m Hm]] [Hs' Hj' [m' Hm']]. split; [auto| |].
    + intros id s H. apply Hj in H as (s' & H & ? & ?). apply Hj' in H as (s'' & H & ? & ?).
      exists s''. split_and!; [done|congruence..].
    + exists (m ++ m'). by rewrite Hm', Hm, app_assoc.
Qed.

Lemma empty_consistent : consistent empty_db.
Proof. split; intros; simplify_map_eq; try done. by inversion H. Qed.

Lemma events_of_app d e subs jobs' id :
  events_of (mkDb jobs' subs (events d ++ [e])) id
  = events_of d id ++ (if String.eqb (event_job_id e) id then [e] else []).
Proof.
  unfold events_of. simpl. rewrite filter_app. f_equal. rewrite filter_cons, filter_nil.
  destruct (String.eqb (event_job_id e) id); [by rewrite decide_True|by rewrite decide_False].
Qed.

(** The database after a transition of a stored row. *)
Definition committed (d : db) (before after : JobRow) (req : list Byte.byte) (type : string) (now : Z) : db :=
  mkDb (<[job_id before := mkStored after req]> (jobs d)) (submissions d)
    (events d ++ [row_event after type now]).

Lemma update_ok d before after d1 type now d2 s :
  jobs d !! job_id before = Some s →
  _update d before after = Ok d1 → _append_event d1 after type now = Ok d2 →
  d2 = committed d before after (request_json s) type now ∧ row_fits after = true.
Proof.
  unfold _update, _append_event. intros Hs H1 H2. rewrite Hs in H1.
  apply bind_ok in H1 as ([] & Hf & H1). apply guard_or_ok, andb_true_iff in Hf as [[Hf _]%andb_true_iff _].
  apply bind_ok in H1 as (_ & _ & H1). apply bind_ok in H1 as (_ & _ & H1). apply Ok_inj in H1 as <-.
  apply bind_ok in H2 as (_ & _ & H2). apply bind_ok in H2 as (_ & _ & H2).
  apply bind_ok in H2 as (_ & _ & H2). apply Ok_inj in H2 as <-. done.
Qed.

Lemma head_app_some {A} (l k : list A) x : head l = Some x → head (l ++ k) = Some x.
Proof. by destruct l. Qed.

Lemma commit_keeps d before after s type now :
  jobs d !! job_id before = Some s → stored_row s = before → identity after = identity before →
  keeps d (committed d before after (request_json s) type now).
Proof.
  intros Hs Hrow Hid. split; simpl; [done| |by eexists].
  intros id t Ht. destruct (decide (id = job_id before)) as [->|Hne].
  - rewrite Hs in Ht. injection Ht as <-. rewrite lookup_insert_eq.
    eexists; split_and!; [done| |done]. simpl. congruence.
  - rewrite lookup_insert_ne by done. by exists t.
Qed.

Lemma commit_consistent d before after s type now :
  consistent d → jobs d !! job_id before = Some s → stored_row s = before →
  valid after → row_fits after = true → identity after = identity before →
  consistent (committed d before after (request_json s) type now).
Proof.
  intros Hd Hs Hrow Hv Hf Hid. assert (job_id after = job_id before) as Hj by (injection Hid; congruence).
  destruct Hd as [Hr Hsub Hown Hu H1 Hl He]. split; simpl.
  - intros id t Ht. destruct (decide (id = job_id before)) as [->|Hne].
    + rewrite lookup_insert_eq in Ht. injection Ht as <-. simpl. by split_and!.
    + rewrite lookup_insert_ne in Ht by done. auto.
  - intros who key sub Hk. destruct (Hsub _ _ _ Hk) as (t & Ht & Hw & Hsha).
    destruct (decide (sub_job_id sub = job_id before)) as [E|Hne].
    + rewrite E, lookup_insert_eq. eexists; split; [done|]. simpl. rewrite E, Hs in Ht. injection Ht as <-.
      rewrite Hrow in *. injection Hid. split; congruence.
    + rewrite lookup_insert_ne by done. eauto.
  - intros id t Ht. destruct (decide (id = job_id before)) as [->|Hne]; [eauto|].
    rewrite lookup_insert_ne in Ht by done. eauto.
  - done.
  - intros id t Ht. unfold committed. rewrite events_of_app.
    assert (∃ t0, jobs d !! id = Some t0) as [t0 Ht0].
    { destruct (decide (id = job_id before)) as [->|Hne]; [eauto|]. rewrite lookup_insert_ne in Ht; eauto. }
    destruct (H1 _ _ Ht0) as (e & Hh & Ety). exists e. split; [by apply head_app_some|done].
  - intros id t Ht. unfold committed. rewrite events_of_app. simpl. rewrite Hj.
    destruct (decide (id = job_id before)) as [->|Hne].
    + rewrite lookup_insert_eq in Ht. injection Ht as <-. rewrite String.eqb_refl, last_snoc. eauto.
    + rewrite lookup_insert_ne in Ht by done. destruct (String.eqb_spec (job_id before) id); [done|].
      rewrite app_nil_r. eauto.
  - intros e [Hin| ->%list_elem_of_singleton]%elem_of_app.
    + destruct (decide (event_job_id e = job_id before)) as [->|Hne]; [rewrite lookup_insert_eq; eauto|].
      rewrite lookup_insert_ne by done. auto.
    + simpl. rewrite Hj, lookup_insert_eq. eauto.
Qed.

Lemma commit_quotas d before after s type now :
  within_quotas d → jobs d !! job_id before = Some s → stored_row s = before →
  identity after = identity before → active before = true → queued after = false →
  within_quotas (committed d before after (request_json s) type now).
Proof.
  intros [Hw Ha Hq] Hs <- Hid Hact Hqu. unfold committed. split.
  - intros who. etrans; [eapply count_replace; [exact Hs|]|apply Hw]. simpl. rewrite Hact.
    unfold by_submitter. injection Hid as _ _ -> _. by destruct (active after); destruct (String.eqb _ _).
  - etrans; [eapply count_replace; [exact Hs|]|apply Ha]. done.
  - etrans; [eapply count_replace; [exact Hs|]|apply Hq]. simpl. by rewrite Hqu.
Qed.

(** Transitions start on active rows and never queue. *)
Lemma enter_archiving_status row o c t now r' :
  _enter_archiving isprintable isspace row o c t now = Ok r' → job_status r' = ARCHIVING.
Proof. unfold _enter_archiving. by intros [-> _]%build_ok. Qed.

Lemma claim_not_queued row o now r' :
  claim isprintable isspace row o now = Ok r' → queued r' = false.
Proof.
  unfold claim, queued. intros H. destruct (is_status (job_status row) QUEUED) eqn:Eq.
  { by apply build_ok in H as [-> _]. }
  apply ensure_bind in H as [_ H].
  assert (∀ c t, fail isprintable isspace row c t now = Ok r' → is_status (job_status r') QUEUED = false) as Hfail.
  { intros c t (_ & _ & _ & _ & _ & Hs)%fail_edge. by rewrite Hs. }
  destruct (is_status (job_status row) RUNNING) eqn:Er.
  - destruct (started_at_ns row); [|done]. destruct (_ <=? now); [by eapply Hfail|].
    destruct (_ <=? stage_attempts row); [by eapply Hfail|]. by apply build_ok in H as [-> _].
  - destruct (_ <=? stage_attempts row); [|by apply build_ok in H as [-> _]].
    apply block_edge in H as (_ & _ & _ & _ & Hs). by rewrite Hs.
Qed.

Lemma enabled_active row e : enabled row e → active row = true.
Proof.
  unfold enabled, active, claimable. destruct e as [[] now]; simpl; destruct (job_status row); naive_solver.
Qed.

Lemma transition_statuses before after ev :
  _transition_event isprintable isspace before after = Ok ev →
  immutable_ok before after = true ∧ active before = true ∧ queued after = false.
Proof.
  unfold _transition_event, _require_http. intros H. apply bind_ok in H as ([] & Hi & H).
  apply guard_or_ok in Hi. split; [done|]. unfold active, queued, from_to in *.
  destruct (job_status before) eqn:E1, (job_status after) eqn:E2; try done; exfalso; revert H; cbn; done.
Qed.

Lemma immutable_identity before after : immutable_ok before after = true → identity after = identity before.
Proof.
  unfold immutable_ok, identity. rewrite !andb_true_iff, !bool_decide_eq_true, Z.eqb_eq.
  intros [[[[-> ->] ->] ->] _]. done.
Qed.

(** ** Each operation *)

(** An operation either leaves the database or commits one transition of one row. *)
Definition transition_of (d d' : db) (after : JobRow) : Prop :=
  ∃ s type now, jobs d !! job_id after = Some s ∧ identity after = identity (stored_row s) ∧
    valid after ∧ row_fits after = true ∧ active (stored_row s) = true ∧ queued after = false ∧
    d' = committed d (stored_row s) after (request_json s) type now.

Lemma cancel_job_transition d id p now after d' :
  cancel_job isprintable isspace d id p now = Ok (after, d') → consistent d → transition_of d d' after.
Proof.
  unfold cancel_job, _job_row, _require_http. intros H Hd. apply bind_ok in H as (_ & _ & H).
  destruct (jobs d !! id) as [s|] eqn:Hs; [|done]. destruct (co_rows _ Hd _ _ Hs) as (Hid & Hv & Hf).
  rewrite (build_valid _ _ _ Hv) in H. cbn [mbind result_bind] in H.
  apply bind_ok in H as (_ & _ & H). apply bind_ok in H as (_ & _ & H).
  apply bind_ok in H as (r' & Hc & H). apply bind_ok in H as (d1 & H1 & H).
  apply bind_ok in H as (d2 & H2 & H). injection H as <- <-.
  pose proof (apply_event_edge isprintable isspace (Orchestration 0 0 0) (stored_row s) (ECancel, now) r' Hc)
    as (He & Hv' & Hi & _).
  assert (queued r' = false) as Hq.
  { unfold cancel in Hc. apply ensure_bind in Hc as [_ Hc]. apply enter_archiving_status in Hc.
    unfold queued. by rewrite Hc. }
  assert (job_id r' = id) as Hj by (injection Hi; congruence).
  rewrite <- Hid in Hs. destruct (update_ok _ _ _ _ _ _ _ _ Hs H1 H2) as [-> Hf'].
  exists s, "cancelled"%string, now. rewrite Hj, <- Hid. split_and!; try done. by eapply enabled_active.
Qed.

Lemma claim_next_transition d o now x m d' :
  claim_next isprintable isspace d o now = Ok (Some (x, m), d') → consistent d → transition_of d d' x.
Proof.
  unfold claim_next. intros H Hd. apply bind_ok in H as (_ & _ & H). rewrite next_stored_select in H.
  destruct (select_next (rows d) now) as [r|] eqn:Hsel; [|done].
  assert (r ∈ rows d) as (id & s & Hs & <-)%rows_elem.
  { rewrite <- next_stored_select in Hsel. unfold next_stored in Hsel. rewrite !first_by_sorted in Hsel.
    assert (∀ l, head (sort_by row_leb l) = Some r → r ∈ l) as Hin.
    { intros l Hl. apply (sort_by_elem row_leb). destruct (sort_by row_leb l); [done|]. injection Hl as ->. left. }
    destruct (head (sort_by row_leb (filter (λ r, due now r = true) (rows d)))) as [b|] eqn:E.
    - injection Hsel as ->. apply Hin in E. by apply list_elem_of_filter in E as [_ ?].
    - apply Hin in Hsel. by apply list_elem_of_filter in Hsel as [_ ?]. }
  destruct (co_rows _ Hd _ _ Hs) as (Hid & Hv & Hf).
  rewrite (build_valid _ _ _ Hv) in H. cbn [mbind result_bind] in H.
  apply bind_ok in H as (r' & Hc & H). apply bind_ok in H as (d1 & H1 & H).
  apply bind_ok in H as (d2 & H2 & H). injection H as <- <- <-.
  destruct (claim_edge _ _ _ _ _ _ Hc) as (He & Hv' & Hi & _).
  assert (job_id r' = id) as Hj by (injection Hi; congruence).
  rewrite <- Hid in Hs. destruct (update_ok _ _ _ _ _ _ _ _ Hs H1 H2) as [-> Hf'].
  eexists s, _, now. rewrite Hj, <- Hid. split_and!; try done; [by eapply enabled_active|by eapply claim_not_queued].
Qed.

Lemma save_transition d before after x d' :
  save isprintable isspace d before after = Ok (x, d') → consistent d → valid after →
  x = after ∧ transition_of d d' x ∧ (∃ s, jobs d !! job_id before = Some s ∧ stored_row s = before).
Proof.
  unfold save, _job_row, _require_http. intros H Hd Hva. apply bind_ok in H as ([] & Hj & H).
  apply guard_or_ok, String.eqb_eq in Hj. apply bind_ok in H as (ev & Hev & H).
  destruct (jobs d !! job_id before) as [s|] eqn:Hs; [|done].
  destruct (co_rows _ Hd _ _ Hs) as (Hid & Hv & Hf).
  rewrite (build_valid _ _ _ Hv) in H. cbn [mbind result_bind] in H.
  apply bind_ok in H as ([] & Heq & H). apply guard_or_ok, bool_decide_eq_true in Heq.
  apply bind_ok in H as (d1 & H1 & H). apply bind_ok in H as (d2 & H2 & H). injection H as <- <-.
  destruct (transition_statuses _ _ _ Hev) as (Himm & Hact & Hq). apply immutable_identity in Himm.
  destruct (update_ok _ _ _ _ _ _ _ _ Hs H1 H2) as [-> Hf'].
  split; [done|]. split; [|eauto]. eexists s, _, _. rewrite <- Hj, Heq. by split_and!.
Qed.

Lemma transition_ok d d' after :
  transition_of d d' after → consistent d →
  consistent d' ∧ keeps d d' ∧ (within_quotas d → within_quotas d').
Proof.
  intros (s & type & now & Hs & Hid & Hv & Hf & Ha & Hq & ->) Hd.
  assert (job_id after = job_id (stored_row s)) as Hj by (injection Hid; congruence).
  rewrite Hj in Hs. split_and!.
  - by apply commit_consistent.
  - by apply commit_keeps.
  - intros. by apply commit_quotas.
Qed.

Lemma insert_attempts_ok fuel i suffix d req who sha now row d1 :
  insert_attempts isprintable isspace fuel i suffix d req who sha now = Ok (row, d1) →
  jobs d !! job_id row = None ∧ valid row ∧ row_fits row = true ∧ job_status row = QUEUED ∧
  submitted_by row = who ∧ request_sha256 row = sha ∧ created_at_ns row = now ∧
  d1 = mkDb (<[job_id row := mkStored row req]> (jobs d)) (submissions d) (events d).
Proof.
  revert i. induction fuel as [|fuel IH]; intros i H; simpl in H; [done|].
  apply bind_ok in H as (id & _ & H). apply bind_ok in H as (r & Hn & H).
  apply bind_ok in H as ([] & Hf & H). apply guard_or_ok in Hf.
  case_bool_decide as Hin; [by apply IH in H|]. apply bind_ok in H as ([] & _ & H). injection H as <- <-.
  unfold new_job in Hn. apply build_ok in Hn as [-> Hv]. simpl in *.
  split_and!; try done. by apply eq_None_not_Some.
Qed.

(** What [submit] does: nothing, or one new queued job. *)
Lemma submit_cases d req sha p key suffix now be row created d' :
  submit isprintable isspace limits d req sha p key suffix now be = Ok ((row, created), d') →
  (created = false ∧ d' = d ∧
     _lookup_submission isprintable isspace d (str_lower (principal_address p)) key sha = Ok (Some (row, false))) ∨
  (created = true ∧
     _check_quotas limits d (str_lower (principal_address p)) = Ok () ∧
     jobs d !! job_id row = None ∧ valid row ∧ row_fits row = true ∧ job_status row = QUEUED ∧
     submitted_by row = str_lower (principal_address p) ∧ request_sha256 row = sha ∧
     submissions d !! (str_lower (principal_address p), key) = None ∧
     (∀ k sub, submissions d !! k = Some sub → sub_job_id sub ≠ job_id row) ∧
     d' = mkDb (<[job_id row := mkStored row req]> (jobs d))
            (<[(str_lower (principal_address p), key) := mkSubmission sha (job_id row) now]> (submissions d))
            (events d ++ [row_event row "submitted" now])).
Proof.
  unfold submit, _validate_key, _require_http. set (who := str_lower _). intros H.
  apply bind_ok in H as (_ & _ & H). apply bind_ok in H as ([found|] & Hl & H).
  { injection H as -> <-. left. assert (created = false) as E; [|by subst].
    unfold _lookup_submission in Hl. destruct (submissions d !! _) as [sub|]; [|done].
    destruct (jobs d !! _); [|done]. apply bind_ok in Hl as (? & _ & Hl). apply bind_ok in Hl as (? & _ & Hl).
    congruence. }
  right. apply bind_ok in H as (_ & _ & H). apply bind_ok in H as ([] & Hq & H).
  apply bind_ok in H as ([r d1] & Hi & H). apply bind_ok in H as (_ & _ & H).
  apply bind_ok in H as ([] & Hc & H). apply guard_or_ok in Hc.
  apply bind_ok in H as (d3 & He & H). injection H as <- <- <-.
  apply insert_attempts_ok in Hi as (Hn & Hv & Hf & Hs & Hw & Hsha & Hcr & ->).
  unfold submission_check in Hc. rewrite !andb_true_iff in Hc. destruct Hc as [[[_ _] Hall] Hnew].
  apply forallb_Forall in Hall. rewrite Forall_forall in Hall. simpl in Hall, Hnew.
  apply negb_true_iff, bool_decide_eq_false in Hnew.
  unfold _append_event, bind_int in He. apply bind_ok in He as (_ & _ & He). apply bind_ok in He as (_ & _ & He).
  apply bind_ok in He as (_ & _ & He). injection He as <-. simpl.
  split_and!; try done; [by apply eq_None_not_Some|].
  intros k sub Hk. apply elem_of_map_to_list, Hall, negb_true_iff, String.eqb_neq in Hk. done.
Qed.

Lemma check_quotas_ok d who : _check_quotas limits d who = Ok () →
  count (λ r, by_submitter who r && active r) d < max_active_jobs_per_submitter limits ∧
  count active d < max_active_jobs_total limits ∧ count queued d < max_queued_jobs_total limits.
Proof.
  unfold _check_quotas, _require_http. intros H. res_inv. rewrite Z.ltb_lt in *. auto.
Qed.

Lemma submit_ok d req sha p key suffix now be x d' :
  submit isprintable isspace limits d req sha p key suffix now be = Ok (x, d') → consistent d →
  consistent d' ∧ keeps d d' ∧ (within_quotas d → within_quotas d').
Proof.
  intros H Hd. destruct x as [row created].
  apply submit_cases in H as [(_ & E & _)|(_ & Hquota & Hn & Hv & Hf & Hs & Hw & Hsha & Hk & Hu & ->)];
    [subst d'|].
  { by split_and!. }
  pose proof Hd as [Hr Hsub Hown Huniq H1 Hl He].
  assert (∀ id s, jobs d !! id = Some s → id ≠ job_id row) as Hne by (intros id s H ->; congruence).
  assert (∀ e, e ∈ events d → event_job_id e ≠ job_id row) as Hev
    by (intros e [s Hin]%He; eauto).
  assert (events_of d (job_id row) = []) as Hnil.
  { unfold events_of. destruct (filter _ (events d)) as [|e l] eqn:E; [done|].
    assert (e ∈ filter (λ e, String.eqb (event_job_id e) (job_id row) = true) (events d)) as Hin by (rewrite E; left).
    apply list_elem_of_filter in Hin as [Eid%String.eqb_eq Hin]. by apply Hev in Hin. }
  split_and!.
  - split; simpl.
    + intros id s. destruct (decide (id = job_id row)) as [->|Hid].
      * rewrite lookup_insert_eq. intros [= <-]. by split_and!.
      * rewrite lookup_insert_ne by done. auto.
    + intros who k sub. destruct (decide ((who, k) = (str_lower (principal_address p), key))) as [[= -> ->]|Hid].
      * rewrite lookup_insert_eq. intros [= <-]. simpl. rewrite lookup_insert_eq. eexists. by split_and!.
      * rewrite lookup_insert_ne by done. intros Hwk. destruct (Hsub _ _ _ Hwk) as (s & Hjs & ? & ?).
        rewrite lookup_insert_ne by (intros E; by apply (Hu _ _ Hwk)). eauto.
    + intros id s. destruct (decide (id = job_id row)) as [->|Hid].
      * intros _. eexists _, _. split; [apply lookup_insert_eq|done].
      * rewrite lookup_insert_ne by done. intros (k & sub & Hksub & Esub)%Hown. exists k, sub.
        split; [|done]. rewrite lookup_insert_ne; [done|]. intros <-. congruence.
    + intros k1 k2 s1 s2. rewrite !lookup_insert_Some.
      intros [[<- <-]|[? Hk1]] [[<- <-]|[? Hk2]] E; simpl in *; eauto; [by apply Hu in Hk2|by apply Hu in Hk1].
    + intros id s. rewrite events_of_app. simpl. destruct (decide (id = job_id row)) as [->|Hid].
      * intros _. rewrite Hnil, String.eqb_refl. by eexists.
      * rewrite lookup_insert_ne by done. intros (e & Hh & Ety)%H1. exists e.
        split; [by apply head_app_some|done].
    + intros id s. rewrite events_of_app. simpl. destruct (decide (id = job_id row)) as [->|Hid].
      * rewrite lookup_insert_eq. intros [= <-]. rewrite Hnil, String.eqb_refl. by eexists _, _.
      * rewrite lookup_insert_ne by done. destruct (String.eqb_spec (job_id row) id); [done|].
        rewrite app_nil_r. eauto.
    + intros e [Hin| ->%list_elem_of_singleton]%elem_of_app; simpl; [|rewrite lookup_insert_eq; eauto].
      rewrite lookup_insert_ne; [auto|]. intros E. by apply (Hev e).
  - split; simpl; [| |by eexists].
    + intros k sub Hksub. rewrite lookup_insert_ne; [done|]. intros <-. congruence.
    + intros id s His. exists s. rewrite lookup_insert_ne; [done|]. intros <-. congruence.
  - apply check_quotas_ok in Hquota as (Q1 & Q2 & Q3). intros [W1 W2 W3]. split.
    + intros who. rewrite count_insert by done. simpl. unfold by_submitter at 2. rewrite Hw.
      destruct (String.eqb_spec (str_lower (principal_address p)) who) as [<-|].
      * destruct (active row); simpl; lia.
      * simpl. specialize (W1 who). lia.
    + rewrite count_insert by done. simpl. destruct (active row); lia.
    + rewrite count_insert by done. simpl. destruct (queued row); lia.
Qed.

Lemma apply_op_ok d o :
  consistent d → consistent (apply_op isprintable isspace limits d o) ∧
    keeps d (apply_op isprintable isspace limits d o) ∧
    (within_quotas d → within_quotas (apply_op isprintable isspace limits d o)).
Proof.
  intros Hd. unfold apply_op. destruct (call isprintable isspace limits d o) as [d'|e] eqn:E; [|by split_and!].
  destruct o as [req sha p key suffix now be|id p now|o now|before after]; simpl in E.
  - apply bind_ok in E as ([x d1] & H & [= <-]). by eapply submit_ok.
  - apply bind_ok in E as ([x d1] & H & [= <-]). eapply transition_ok; [|done]. by eapply cancel_job_transition.
  - apply bind_ok in E as ([[[x m]|] d1] & H & [= <-]).
    + eapply transition_ok; [|done]. by eapply claim_next_transition.
    + unfold claim_next in H. apply bind_ok in H as (_ & _ & H). destruct (next_stored d now) as [r|].
      * repeat (apply bind_ok in H as (? & _ & H)). done.
      * injection H as <-. by split_and!.
  - apply bind_ok in E as (_ & _ & E). apply bind_ok in E as (a & Ha & E). apply build_ok in Ha as [-> Hv].
    apply bind_ok in E as ([x d1] & H & [= <-]).
    eapply transition_ok; [|done]. by eapply save_transition.
Qed.

Lemma run_ops_ok d os :
  consistent d → consistent (run_ops isprintable isspace limits d os) ∧
    keeps d (run_ops isprintable isspace limits d os) ∧
    (within_quotas d → within_quotas (run_ops isprintable isspace limits d os)).
Proof.
  revert d. induction os as [|o os IH]; intros d Hd; simpl; [by split_and!|].
  destruct (apply_op_ok d o Hd) as (H1 & H2 & H3). destruct (IH _ H1) as (H4 & H5 & H6).
  split_and!; [done|by etrans|auto].
Qed.
End Store.

(** ** No call breaks a constraint *)
Definition safe {A} (m : result A) : Prop := m ≠ Err IntegrityError.

Lemma safe_ok {A} (a : A) : safe (Ok a).
Proof. done. Qed.
Lemma safe_bind {A B} (m : result A) (k : A → result B) :
  safe m → (∀ a, m = Ok a → safe (k a)) → safe (m ≫= k).
Proof. unfold safe. destruct m as [a|e]; simpl; [auto|congruence]. Qed.
Lemma safe_guard b e : e ≠ IntegrityError → safe (guard_or b e).
Proof. unfold safe. by destruct b; simpl; [|congruence]. Qed.
Lemma safe_guard_true b e : b = true → safe (guard_or b e).
Proof. by intros ->. Qed.
Lemma safe_conflict {A} (m : result A) : safe m → safe (conflict m).
Proof. by destruct m as [|[]]. Qed.

Ltac safe_step :=
  lazymatch goal with
  | |- safe (_ ≫= _) => apply safe_bind; [|intros ? ?]
  | |- safe (Ok _) => apply safe_ok
  | |- safe (mret _) => apply safe_ok
  | |- safe (guard_or _ _) => apply safe_guard; done
  | |- safe (ensure _ _) => apply safe_guard; done
  | |- safe (_require _ _ _) => apply safe_guard; done
  | |- safe (_require_http _ _ _) => apply safe_guard; done
  | |- safe (bind_int _) => apply safe_guard; done
  | |- safe (conflict _) => apply safe_conflict
  | |- safe (when_equal _ _ _) => apply safe_ok
  | |- safe (Err _) => done
  | |- safe (match ?x with _ => _ end) => destruct x
  | |- safe (if ?x then _ else _) => destruct x
  end.
Ltac safe_steps := repeat safe_step.

Section Safety.
Context (isprintable isspace : Z → bool) (laws : UnicodeLaws isprintable isspace).
Context (limits : Limits).
Local Abbreviation valid := (valid isprintable isspace).
Local Abbreviation row_build := (build isprintable isspace).

Lemma safe_ns n m : safe (_ns n m).
Proof. unfold _ns. safe_steps. Qed.
Lemma safe_build r : safe (row_build r).
Proof.
  unfold build, check_row, check_fields, check_status, check_shape, check_job_id, job_receipt_key,
    check_job_id, _nonnegative_int, _optional. repeat first [safe_step | apply safe_ns].
Qed.

Lemma safe_enter row o c t now : safe (_enter_archiving isprintable isspace row o c t now).
Proof. apply safe_build. Qed.
Lemma safe_fail row c t now : safe (fail isprintable isspace row c t now).
Proof. unfold fail. repeat first [safe_step | apply safe_enter]. Qed.
Lemma safe_block row c now : safe (block_archive isprintable isspace row c now).
Proof. unfold block_archive. repeat first [safe_step | apply safe_build]. Qed.

Lemma safe_event o row e : safe (apply_event isprintable isspace o row e).
Proof.
  destruct e as [[] now]; unfold apply_event; cbn [fst snd];
    unfold claim, advance, retry_later, succeed, cancel, lose_local_state, resume_blocked, finish,
      job_receipt_key, check_job_id;
    repeat lazymatch goal with
    | |- safe (fail _ _ _ _ _ _) => apply safe_fail
    | |- safe (block_archive _ _ _ _ _) => apply safe_block
    | |- safe (_enter_archiving _ _ _ _ _ _ _) => apply safe_enter
    | |- safe (build _ _ _) => apply safe_build
    | |- safe (_ns _ _) => apply safe_ns
    | |- _ => safe_step
    end.
Qed.

Lemma safe_andthen m k : safe m → safe k → safe (andthen m k).
Proof. intros. unfold andthen. apply safe_bind; [done|]. intros [] _; done. Qed.
Lemma safe_only_if b m : safe m → safe (only_if b m).
Proof. by destruct b. Qed.

Lemma safe_transition_event before after : safe (_transition_event isprintable isspace before after).
Proof.
  set (o := Orchestration 0 0 0).
  assert (∀ g now, safe (advance isprintable isspace before g now)) as H1
    by (intros g now; exact (safe_event o before (EAdvance g, now))).
  assert (∀ now, safe (succeed isprintable isspace before now)) as H2
    by (intros now; exact (safe_event o before (ESucceed, now))).
  assert (∀ t now, safe (lose_local_state isprintable isspace before t now)) as H3
    by (intros t now; exact (safe_event o before (ELose t, now))).
  assert (∀ now, safe (resume_blocked isprintable isspace before now)) as H4
    by (intros now; exact (safe_event o before (EResume, now))).
  assert (∀ fin now, safe (finish isprintable isspace before fin now)) as H5
    by (intros fin now; exact (safe_event o before (EFinish fin, now))).
  unfold _transition_event, event_running, event_pending_outcome, event_archiving, event_blocked,
    event_finished.
  repeat lazymatch goal with
  | |- safe (andthen _ _) => apply safe_andthen
  | |- safe (only_if _ _) => apply safe_only_if
  | |- safe (advance _ _ _ _ _) => apply H1
  | |- safe (succeed _ _ _ _) => apply H2
  | |- safe (lose_local_state _ _ _ _ _) => apply H3
  | |- safe (resume_blocked _ _ _ _) => apply H4
  | |- safe (finish _ _ _ _ _) => apply H5
  | |- safe (fail _ _ _ _ _ _) => apply safe_fail
  | |- safe (block_archive _ _ _ _ _) => apply safe_block
  | |- _ => safe_step
  end.
Qed.

Definition known (m : result (option string)) : Prop :=
  ∀ ev, m = Ok (Some ev) → in_list EVENT_TYPES ev = true.

Lemma known_andthen m k : known m → known k → known (andthen m k).
Proof.
  unfold known, andthen. intros Hm Hk ev H. apply bind_ok in H as ([e|] & H & Hr); [|auto].
  injection Hr as <-. auto.
Qed.
Lemma known_only_if b m : known m → known (only_if b m).
Proof. by destruct b. Qed.
Lemma known_when {A} (m : result A) expected after ty :
  in_list EVENT_TYPES ty = true → known (m ≫= λ x, when_equal (expected x) after ty).
Proof. intros Ht ev H. apply bind_ok in H as (x & _ & H). unfold when_equal in H. case_bool_decide; naive_solver. Qed.

Lemma transition_event_known before after ev :
  _transition_event isprintable isspace before after = Ok ev → in_list EVENT_TYPES ev = true.
Proof.
  unfold _transition_event. intros H. apply bind_ok in H as (_ & _ & H).
  apply bind_ok in H as ([e|] & H & Hr); [|done]. injection Hr as <-. revert H.
  match goal with |- ?m = _ → _ => enough (known m) as Hk by (apply Hk) end.
  assert (∀ expected ty, in_list EVENT_TYPES ty = true → known (when_equal expected after ty)) as Hw.
  { intros expected ty Ht e' He. unfold when_equal in He. case_bool_decide; naive_solver. }
  assert (∀ m, (∀ x, m ≠ Ok (Some x)) → known m) as Hno by (intros m Hm x Hx; naive_solver).
  unfold event_running, event_pending_outcome, event_archiving, event_blocked, event_finished.
  repeat first [ apply known_andthen | apply known_only_if | apply (known_when _ (λ x, x)); reflexivity
               | apply Hw; reflexivity
               | match goal with |- known (if ?b then _ else _) => destruct b end
               | match goal with |- known (match ?b with _ => _ end) => destruct b end
               | apply Hno; done ].
Qed.

Lemma shape_pending r : valid r →
  eqb (archiving_like (job_status r)) (is_some (pending_outcome r)) = true ∧
  match pending_outcome r with None => true | Some o => TERMINAL o end = true.
Proof.
  intros Hv. pose proof (column_checks_valid _ _ laws _ Hv) as Hc.
  pose proof (table_checks_valid _ _ _ Hv) as Ht.
  unfold column_checks in Hc. unfold table_checks in Ht. cbv zeta in Ht.
  repeat match goal with H : _ && _ = true |- _ => apply andb_true_iff in H as [? ?] end. by split.
Qed.

Lemma event_check_valid d r type now :
  valid r → is_Some (jobs d !! job_id r) → in_list EVENT_TYPES type = true → 0 ≤ now →
  event_check d (row_event r type now) = true.
Proof.
  intros Hv Hj Ht Hn. destruct (shape_pending r Hv) as [H1 H2].
  unfold event_check, row_event. cbn [event_type event_created_at_ns event_attempts
    event_pending event_status event_job_id].
  destruct Hv as [[] _]. rewrite Ht, H1, H2, bool_decide_true by done.
  apply Z.leb_le in Hn, fo_attempts. by rewrite Hn, fo_attempts.
Qed.

Lemma safe_append d r type now :
  valid r → is_Some (jobs d !! job_id r) → in_list EVENT_TYPES type = true → 0 ≤ now →
  safe (_append_event d r type now).
Proof.
  intros Hv Hj Ht Hn. unfold _append_event.
  safe_step; [safe_step|]. safe_step; [safe_step|]. safe_step; [|safe_step].
  apply safe_guard_true. by apply event_check_valid.
Qed.

(** A checked row of the same job whose integers fit is committed. *)
Lemma commit_total d before s after type now :
  jobs d !! job_id before = Some s → stored_row s = before → row_fits before = true →
  valid after → row_fits after = true → job_id after = job_id before →
  in_list EVENT_TYPES type = true → now = updated_at_ns after →
  (d1 ← _update d before after; _append_event d1 after type now)
  = Ok (committed d before after (request_json s) type now).
Proof.
  intros Hs Hb Hfb Hv Hfa Hj Ht ->. unfold _update. rewrite Hs, Hb, Hfa.
  unfold row_fits in Hfb. rewrite !andb_true_iff in Hfb. destruct Hfb as [[[[[[_ Ha] _] _] Hup] _] _].
  rewrite Ha, Hup. unfold cas_matches. rewrite !bool_decide_true, !Z.eqb_refl by done.
  rewrite (schema_check_valid isprintable isspace laws after Hv).
  cbn [guard_or mbind result_bind andb _require_http]. unfold _append_event, bind_int.
  unfold row_fits in Hfa. rewrite !andb_true_iff in Hfa. destruct Hfa as [[[[[[_ Ha'] _] _] Hup'] _] _].
  rewrite Ha', Hup'. cbn [guard_or mbind result_bind]. rewrite event_check_valid; [done|done| |done|].
  - simpl. rewrite Hj, lookup_insert_eq. eauto.
  - pose proof Hv as [[] _]. unfold u64 in *. lia.
Qed.

Lemma safe_update d before after : valid after → safe (_update d before after).
Proof.
  intros Hv. unfold _update. safe_step; [safe_step|].
  destruct (jobs d !! job_id before); [|done]. safe_step; [safe_step|]. safe_step; [|safe_step].
  apply safe_guard_true. by apply (schema_check_valid isprintable isspace).
Qed.

Lemma update_jobs d before after d1 :
  _update d before after = Ok d1 → job_id after = job_id before → is_Some (jobs d1 !! job_id after).
Proof.
  unfold _update. intros H ->. apply bind_ok in H as (_ & _ & H).
  destruct (jobs d !! job_id before); [|done]. apply bind_ok in H as (_ & _ & H).
  apply bind_ok in H as (_ & _ & H). apply Ok_inj in H as <-. simpl. rewrite lookup_insert_eq. eauto.
Qed.

(** Committing a checked row of the same job. *)
Lemma safe_commit {A} d before after type now (k : db → result A) :
  valid after → job_id after = job_id before → in_list EVENT_TYPES type = true → 0 ≤ now →
  (∀ d2, safe (k d2)) →
  safe (d1 ← _update d before after; d2 ← _append_event d1 after type now; k d2).
Proof.
  intros Hv Hj Ht Hn Hk. apply safe_bind; [by apply safe_update|]. intros d1 H1.
  apply safe_bind; [|auto]. apply safe_append; try done. by eapply update_jobs.
Qed.

Lemma event_now o row e r' : apply_event isprintable isspace o row e = Ok r' → u64 (updated_at_ns r').
Proof. intros H. apply apply_event_edge in H as (_ & [[] _] & _). done. Qed.

Lemma identity_job a b : identity a = identity b → job_id a = job_id b.
Proof. intros H. by injection H. Qed.

Lemma safe_cancel_job d id p now : consistent isprintable isspace d →
  safe (cancel_job isprintable isspace d id p now).
Proof.
  intros Hd. unfold cancel_job, _job_row. apply safe_bind; [apply safe_guard; done|]. intros _ _.
  destruct (jobs d !! id) as [s|] eqn:Hs; [|done]. apply safe_bind; [apply safe_build|]. intros before Hb.
  safe_step; [safe_step|]. safe_step; [safe_step|].
  apply safe_bind; [exact (safe_event (Orchestration 0 0 0) before (ECancel, now))|]. intros after Ha.
  pose proof (apply_event_edge isprintable isspace (Orchestration 0 0 0) before (ECancel, now) after Ha)
    as (_ & Hv & Hi & _).
  assert (updated_at_ns after = now) as Hup.
  { unfold cancel in Ha. apply ensure_bind in Ha as [_ Ha]. by apply build_ok in Ha as [-> _]. }
  apply safe_commit; [done|by apply identity_job|done| |done]. destruct Hv as [[] _]. unfold u64 in *. lia.
Qed.

Lemma claim_updated row o now r' : claim isprintable isspace row o now = Ok r' → updated_at_ns r' = now.
Proof.
  unfold claim. intros H. destruct (is_status (job_status row) QUEUED); [by apply build_ok in H as [-> _]|].
  apply ensure_bind in H as [_ H].
  assert (∀ c t, fail isprintable isspace row c t now = Ok r' → updated_at_ns r' = now) as Hfail.
  { unfold fail. intros c t Hf. apply ensure_bind in Hf as [_ Hf]. destruct (outcome_of_code c); [|done].
    apply ensure_bind in Hf as [_ Hf]. by apply build_ok in Hf as [-> _]. }
  assert (block_archive isprintable isspace row "stage_attempts_exhausted" now = Ok r' → updated_at_ns r' = now) as Hb.
  { unfold block_archive. intros Hf. apply ensure_bind in Hf as [_ Hf]. apply ensure_bind in Hf as [_ Hf].
    by apply build_ok in Hf as [-> _]. }
  destruct (is_status (job_status row) RUNNING).
  - destruct (started_at_ns row); [|done]. destruct (_ <=? now); [by eapply Hfail|].
    destruct (_ <=? stage_attempts row); [by eapply Hfail|]. by apply build_ok in H as [-> _].
  - destruct (_ <=? stage_attempts row); [auto|]. by apply build_ok in H as [-> _].
Qed.

Lemma claim_event_known before after m : in_list EVENT_TYPES (_claim_event before after m) = true.
Proof. unfold _claim_event. destruct (is_status _ _); [done|]. destruct (_ && _); [done|]. by destruct m. Qed.

Lemma safe_claim_next d o now : safe (claim_next isprintable isspace d o now).
Proof.
  unfold claim_next. safe_step; [safe_step|]. destruct (next_stored d now) as [r|]; [|done].
  apply safe_bind; [apply safe_build|]. intros before _.
  apply safe_bind; [exact (safe_event o before (EClaim, now))|]. intros after Ha.
  destruct (claim_edge _ _ _ _ _ _ Ha) as (_ & Hv & Hi & _). pose proof (claim_updated _ _ _ _ Ha) as Hup.
  apply safe_commit; [done|by apply identity_job|apply claim_event_known| |done].
  destruct Hv as [[] _]. unfold u64 in *. lia.
Qed.

Lemma safe_save d before after : valid after → safe (save isprintable isspace d before after).
Proof.
  intros Hv. unfold save, _job_row. apply safe_bind; [apply safe_guard; done|]. intros [] H.
  unfold _require_http in H. apply guard_or_ok, String.eqb_eq in H.
  apply safe_bind; [apply safe_transition_event|]. intros ev Hev.
  destruct (jobs d !! job_id before); [|done]. apply safe_bind; [apply safe_build|]. intros r _.
  safe_step; [safe_step|]. apply safe_commit; [done|done|by eapply transition_event_known| |done].
  destruct Hv as [[] _]. unfold u64 in *. lia.
Qed.

Lemma safe_mint now suffix : safe (ObjectKeys.job_id now suffix).
Proof. unfold ObjectKeys.job_id. safe_step; [apply safe_ns|]. safe_step; [safe_step|]. by destruct (ObjectKeys.civil _) as [[??]?]. Qed.

Lemma safe_insert fuel i suffix d req who sha now :
  safe (insert_attempts isprintable isspace fuel i suffix d req who sha now).
Proof.
  revert i. induction fuel as [|fuel IH]; intros i; simpl; [done|].
  apply safe_bind; [apply safe_mint|]. intros id _. apply safe_bind; [apply safe_build|]. intros c Hc.
  safe_step; [safe_step|]. destruct (bool_decide _); [apply IH|]. safe_step; [|done].
  apply safe_guard_true. unfold new_job in Hc. apply build_ok in Hc as [-> Hv].
  by apply (schema_check_valid isprintable isspace).
Qed.

Lemma lookup_none d who key sha : consistent isprintable isspace d →
  _lookup_submission isprintable isspace d who key sha = Ok None → submissions d !! (who, key) = None.
Proof.
  intros Hd. unfold _lookup_submission. destruct (submissions d !! (who, key)) as [sub|] eqn:E; [|done].
  destruct (co_submissions _ _ _ Hd _ _ _ E) as (s & -> & _). intros H.
  apply bind_ok in H as (? & _ & H). by apply bind_ok in H as (r & _ & H).
Qed.

Lemma safe_submit d req sha p key suffix now be : consistent isprintable isspace d →
  safe (submit isprintable isspace limits d req sha p key suffix now be).
Proof.
  intros Hd. unfold submit, _validate_key. apply safe_bind; [apply safe_guard; done|]. intros [] Hkey.
  unfold _require_http in Hkey. apply guard_or_ok in Hkey. set (who := str_lower _).
  apply safe_bind.
  { unfold _lookup_submission. destruct (submissions d !! _) as [sub|]; [|done].
    destruct (jobs d !! _); [|done]. safe_step; [safe_step|]. apply safe_bind; [apply safe_build|done]. }
  intros [found|] Hl; [done|]. apply lookup_none in Hl; [|done].
  apply safe_bind; [apply safe_guard; done|]. intros _ _.
  apply safe_bind; [unfold _check_quotas; safe_steps|]. intros _ _.
  apply safe_bind; [apply safe_insert|]. intros [row d1] Hi.
  apply insert_attempts_ok in Hi as (Hn & Hv & Hf & Hs & Hw & Hsha & Hcr & ->).
  safe_step; [safe_step|]. apply safe_bind.
  - apply safe_guard_true. unfold submission_check. cbn [sub_sha256 sub_created_at_ns sub_job_id jobs submissions].
    pose proof Hv as [[] _]. rewrite Hkey, <- Hw, <- Hsha, fo_by, fo_sha, Hw, <- Hcr.
    rewrite bool_decide_true by (rewrite lookup_insert_eq; eauto).
    rewrite (bool_decide_false (is_Some (submissions d !! _))) by (rewrite Hl; by intros []).
    assert (0 <=? created_at_ns row = true) as -> by (apply Z.leb_le; apply fo_created).
    rewrite andb_true_r. apply forallb_Forall, Forall_forall. intros [k sub] Hin%elem_of_map_to_list.
    apply negb_true_iff, String.eqb_neq. simpl. intros E. destruct k as [w key'].
    destruct (co_submissions _ _ _ Hd _ _ _ Hin) as (s & Hjs & _). congruence.
  - intros _ _. apply safe_bind; [|done]. apply safe_append; [done| |done|]; simpl.
    + rewrite lookup_insert_eq. eauto.
    + rewrite <- Hcr. pose proof Hv as [[] _]. apply fo_created.
Qed.

Lemma safe_call d o : consistent isprintable isspace d → safe (call isprintable isspace limits d o).
Proof.
  intros Hd. destruct o; simpl.
  - apply safe_bind; [by apply safe_submit|done].
  - apply safe_bind; [by apply safe_cancel_job|done].
  - apply safe_bind; [apply safe_claim_next|done].
  - apply safe_bind; [apply safe_build|]. intros _ _. apply safe_bind; [apply safe_build|].
    intros a Ha. apply build_ok in Ha as [-> Hv]. apply safe_bind; [by apply safe_save|done].
Qed.
End Safety.

(** ** [save] and the state machine *)
Section Saving.
Context (isprintable isspace : Z → bool) (laws : UnicodeLaws isprintable isspace).
Local Abbreviation valid := (valid isprintable isspace).
Local Abbreviation apply_event := (apply_event isprintable isspace).
Local Abbreviation transition_event := (_transition_event isprintable isspace).

(** The one block of [_transition_event] that the two statuses select. *)
Definition block (before after : JobRow) : result (option string) :=
  match job_status before, job_status after with
  | RUNNING, RUNNING => event_running isprintable isspace before after
  | RUNNING, ARCHIVING => event_pending_outcome isprintable isspace before after
  | ARCHIVING, ARCHIVING => event_archiving isprintable isspace before after
  | ARCHIVING, ARCHIVE_BLOCKED => event_blocked isprintable isspace before after
  | ARCHIVE_BLOCKED, ARCHIVING =>
      expected ← resume_blocked isprintable isspace before (updated_at_ns after);
      when_equal expected after "archive_resumed"
  | ARCHIVING, t => if TERMINAL t then event_finished isprintable isspace before after else Ok None
  | _, _ => Ok None
  end.

Lemma andthen_none m : andthen m (Ok None) = m.
Proof. unfold andthen. by destruct m as [[]|]. Qed.
Lemma andthen_skip m : andthen (Ok None) m = m.
Proof. done. Qed.

Lemma transition_block before after ev :
  transition_event before after = Ok ev ↔
  immutable_ok before after = true ∧ block before after = Ok (Some ev).
Proof.
  assert (immutable_ok before after = true →
    transition_event before after = (found ← block before after;
      match found with Some ev => Ok ev | None => Err (ReplayJobError 409 "invalid job transition") end)) as Hb.
  { intros Hi. unfold _transition_event, _require_http. rewrite Hi. cbn [guard_or mbind result_bind].
    f_equal. unfold block, from_to.
    destruct (job_status before), (job_status after); cbn [is_status bool_decide decide_rel
      status_eq_dec status_rect andb only_if TERMINAL]; cbn;
      rewrite ?andthen_skip, ?andthen_none; reflexivity. }
  split.
  - intros H. assert (immutable_ok before after = true) as Hi by (by eapply transition_statuses).
    split; [done|]. rewrite Hb in H by done. by apply bind_ok in H as ([e|] & -> & [= ->]).
  - intros [Hi H]. by rewrite Hb, H.
Qed.

Lemma when_equal_ok (expected after : JobRow) ty : after = expected → when_equal expected after ty = Ok (Some ty).
Proof. intros. unfold when_equal. by rewrite bool_decide_true. Qed.
Lemma when_equal_inv (expected after : JobRow) ty ev :
  when_equal expected after ty = Ok (Some ev) → after = expected ∧ ev = ty.
Proof. unfold when_equal. case_bool_decide; naive_solver. Qed.
Lemma andthen_first m k (ev : string) : m = Ok (Some ev) → andthen m k = Ok (Some ev).
Proof. by intros ->. Qed.

(** The transitions a worker saves: all but those the store makes itself. *)
Definition by_worker (e : event) : bool := match e with EClaim | ECancel => false | _ => true end.

Lemma clean_idempotent d : clean_detail isprintable isspace (clean_detail isprintable isspace d)
  = clean_detail isprintable isspace d.
Proof.
  destruct (clean_detail isprintable isspace d) as [t|] eqn:E; [|done].
  pose proof (clean_detail_fixed _ _ _ _ E) as H. unfold clean_detail. destruct t; [|done].
  unfold reason_detail in H. simpl in H. done.
Qed.

(** The shape of each transition's row. *)
Lemma fail_shape row code d now r' : fail isprintable isspace row code d now = Ok r' →
  fail isprintable isspace row code (detail r') now = Ok r' ∧ reason_code r' = Some code ∧
  pending_outcome r' = outcome_of_code code ∧ started_at_ns r' = started_at_ns row ∧ updated_at_ns r' = now.
Proof.
  unfold fail. intros H. apply ensure_bind in H as [Hs H]. destruct (outcome_of_code code) as [out|] eqn:Eo; [|done].
  apply ensure_bind in H as [Hc H]. apply build_ok in H as [-> Hv]. rewrite Hs, Hc. simpl.
  split_and!; try done. unfold _enter_archiving. simpl. rewrite clean_idempotent.
  by apply build_valid.
Qed.

Lemma immutable_intro a b :
  identity b = identity a → started_at_ns b = started_at_ns a → immutable_ok a b = true.
Proof.
  unfold identity, immutable_ok. intros [= H1 H2 H3 H4] H5. rewrite H1, H2, H3, H4, H5.
  by rewrite !bool_decide_true, Z.eqb_refl.
Qed.

(** What a worker's transition does to a row. *)
Definition moves (before after : JobRow) : Prop :=
  started_at_ns after = started_at_ns before ∧ ∃ ty, block before after = Ok (Some ty).

Lemma fail_moves row code d now r' :
  fail isprintable isspace row code d now = Ok r' → moves row r'.
Proof.
  intros H. pose proof (fail_edge _ _ _ _ _ _ _ H) as (Hs & [o Ho] & Hc & _ & _ & Hs').
  destruct (fail_shape _ _ _ _ _ H) as (Hf & Hrc & Hp & Hst & Hup). split; [done|].
  exists "outcome_pending"%string. unfold block, event_pending_outcome. rewrite Hs, Hs', Hrc, Hp, Ho.
  destruct (outcome_known _ _ Ho) as (_ & _ & Hns). rewrite bool_decide_false by (intros [= ->]; auto).
  cbn [is_some]. rewrite Hup, Hf. by apply when_equal_ok.
Qed.

Lemma advance_moves row g now r' : advance isprintable isspace row g now = Ok r' → moves row r'.
Proof.
  intros H. pose proof H as H0. unfold advance in H. apply ensure_bind in H as [Hs%is_status_eq H].
  apply ensure_bind in H as [_ H]. destruct (job_stage row) as [g0|] eqn:Eg; [|done].
  apply ensure_bind in H as [Hi%Nat.eqb_eq H]. apply build_ok in H as [-> Hv]. split; [done|].
  exists "stage_advanced"%string. unfold block, event_running. simpl. rewrite Hs. apply andthen_first.
  rewrite Eg, bool_decide_false by (intros [= ->]; lia).
  unfold set_outcome, set_progress in H0 |- *. simpl in H0 |- *. rewrite Hs in H0. rewrite H0. simpl.
  by apply when_equal_ok.
Qed.

Lemma retry_moves row code d o now r' : retry_later isprintable isspace row code d o now = Ok r' → moves row r'.
Proof.
  unfold retry_later. intros H. apply ensure_bind in H as [Hs H]. apply ensure_bind in H as [_ H].
  unfold moves, block. destruct (is_status (job_status row) ARCHIVING) eqn:E.
  - apply is_status_eq in E. apply build_ok in H as [-> _]. split; [done|]. exists "retry_scheduled"%string.
    simpl. rewrite E. unfold event_archiving. simpl. rewrite !bool_decide_true by done. simpl.
    rewrite Z.eqb_refl. apply when_equal_ok. unfold archive_retry_fields, set_outcome, set_progress. simpl. by rewrite E.
  - apply build_ok in H as [-> _]. split; [done|]. exists "retry_scheduled"%string. simpl.
    assert (job_status row = RUNNING) as Er by (destruct (job_status row); done). rewrite Er.
    unfold event_running. simpl. rewrite bool_decide_true by done. cbn [andthen mbind result_bind].
    rewrite Z.eqb_refl. apply when_equal_ok. unfold retry_fields, set_outcome, set_progress. simpl. by rewrite Er.
Qed.

Lemma lose_moves row d now r' : lose_local_state isprintable isspace row d now = Ok r' → moves row r'.
Proof.
  intros H. pose proof H as H0. unfold lose_local_state in H. apply ensure_bind in H as [Hs H].
  destruct (is_status (job_status row) RUNNING) eqn:E; [by eapply fail_moves|].
  assert (job_status row = ARCHIVING) as Ha by (destruct (job_status row); done).
  apply build_ok in H as [Hr Hv]. unfold moves, block.
  assert (started_at_ns r' = started_at_ns row ∧ job_status r' = ARCHIVING ∧ updated_at_ns r' = now ∧
    stage_attempts r' = stage_attempts row ∧ detail r' = clean_detail isprintable isspace d)
    as (Hst & Hs' & Hup & Hat & Hd) by (subst r'; by split_and!).
  split; [done|]. rewrite Ha, Hs'. unfold event_archiving.
  destruct (bool_decide (pending_outcome row = pending_outcome r') && bool_decide (reason_code row = reason_code r')) eqn:Eq.
  - apply andb_true_iff in Eq as [Hp%bool_decide_eq_true Hc%bool_decide_eq_true].
    exists "retry_scheduled"%string. rewrite andthen_skip, Hat, Z.eqb_refl. apply when_equal_ok.
    unfold archive_retry_fields. rewrite Hp, Hc. subst r'. simpl in *. destruct row; simpl in *. by subst.
  - exists "outcome_replaced"%string. apply andthen_first. unfold lose_local_state. rewrite Ha, Hd, Hup, clean_idempotent.
    rewrite Ha in Hr, Hv. cbn. rewrite build_valid by exact Hv. simpl. by apply when_equal_ok.
Qed.

Lemma worker_moves o row e now r' :
  by_worker e = true → apply_event o row (e, now) = Ok r' → moves row r'.
Proof.
  intros Hw H. destruct e as [|g|code d| |code d| |d|code| |fin]; try done; unfold apply_event in H; cbn [fst snd] in H.
  - by eapply advance_moves.
  - by eapply retry_moves.
  - pose proof H as H0. unfold succeed in H. apply ensure_bind in H as [[Hs%is_status_eq _]%andb_true_iff H].
    apply build_ok in H as [Hr Hv]. unfold moves, block.
    assert (started_at_ns r' = started_at_ns row ∧ job_status r' = ARCHIVING ∧ updated_at_ns r' = now ∧
      pending_outcome r' = Some SUCCEEDED) as (Hst & Hs' & Hup & Hp) by (subst r'; by split_and!).
    split; [done|]. exists "outcome_pending"%string. rewrite Hs, Hs'. unfold event_pending_outcome.
    rewrite Hp, bool_decide_true, Hup, H0 by done. by apply when_equal_ok.
  - by eapply fail_moves.
  - by eapply lose_moves.
  - pose proof H as H0. unfold block_archive in H. apply ensure_bind in H as [Hs%is_status_eq H].
    apply ensure_bind in H as [_ H]. apply build_ok in H as [Hr Hv]. unfold moves, block.
    assert (started_at_ns r' = started_at_ns row ∧ job_status r' = ARCHIVE_BLOCKED ∧ updated_at_ns r' = now ∧
      blocked_reason_code r' = Some code) as (Hst & Hs' & Hup & Hp) by (subst r'; by split_and!).
    split; [done|]. exists "archive_blocked"%string. rewrite Hs, Hs'. unfold event_blocked.
    rewrite Hp, Hup, H0. by apply when_equal_ok.
  - pose proof H as H0. unfold resume_blocked in H. apply ensure_bind in H as [Hs%is_status_eq H].
    apply build_ok in H as [Hr Hv]. unfold moves, block.
    assert (started_at_ns r' = started_at_ns row ∧ job_status r' = ARCHIVING ∧ updated_at_ns r' = now)
      as (Hst & Hs' & Hup) by (subst r'; by split_and!).
    split; [done|]. exists "archive_resumed"%string. rewrite Hs, Hs', Hup, H0. by apply when_equal_ok.
  - pose proof (finish_edge _ _ _ _ _ _ H) as (_ & Hv & _ & _). pose proof H as H0. unfold finish in H.
    apply ensure_bind in H as [Hs%is_status_eq H]. apply bind_ok in H as (_ & _ & H).
    apply bind_ok in H as (_ & _ & H). apply ensure_bind in H as [_ H]. apply bind_ok in H as (key & _ & H).
    destruct (pending_outcome row) as [out|] eqn:Ep; [|done]. apply build_ok in H as [Hr _].
    assert (started_at_ns r' = started_at_ns row ∧ job_status r' = out ∧ updated_at_ns r' = now ∧
      finished_at_ns r' = Some fin) as (Hst & Hs' & Hup & Hf) by (subst r'; by split_and!).
    split; [done|]. exists "finished"%string.
    assert (TERMINAL out = true) as Ht.
    { destruct Hv as [_ Hv]. unfold shape_ok in Hv. rewrite Hs' in Hv. destruct out; try done; exfalso.
      - destruct Hv as (_ & _ & _ & _ & _ & _ & _ & Hv & _). congruence.
      - destruct Hv as (_ & _ & _ & _ & _ & _ & Hv & _). congruence.
      - destruct Hv as (_ & _ & [Hv _] & _). congruence.
      - destruct Hv as (_ & [Hv _] & _). congruence. }
    unfold block. rewrite Hs, Hs'.
    assert (event_finished isprintable isspace row r' = Ok (Some "finished"%string)) as He.
    { unfold event_finished. rewrite Hf, Hup, H0. by apply when_equal_ok. }
    destruct out; done || exact He.
Qed.

Lemma conflict_ok {A} (m : result A) a : conflict m = Ok a → m = Ok a.
Proof. by destruct m as [|[]]. Qed.

(** A saved change is a worker's transition, or a retry's bookkeeping. *)
Definition saved (before after : JobRow) (ty : string) : Prop :=
  (∃ e, by_worker e = true ∧ ∀ o, apply_event o before (e, updated_at_ns after) = Ok after) ∨
  (ty = "retry_scheduled"%string ∧
   (job_status before = RUNNING ∧ after = retry_fields before after ∨
    job_status before = ARCHIVING ∧ after = archive_retry_fields before after)).

Lemma saved_event before after e r' ty :
  apply_event (Orchestration 0 0 0) before (e, updated_at_ns after) = Ok r' → after = r' →
  by_worker e = true → (∀ c d, e ≠ ERetry c d) → saved before after ty.
Proof. intros H <- Hw Hr. left. exists e. split; [done|]. intros o. destruct e; try done. by destruct (Hr code d). Qed.

Lemma block_saved before after ty : block before after = Ok (Some ty) → saved before after ty.
Proof.
  unfold block. intros H.
  assert (job_status before = ARCHIVING → event_finished isprintable isspace before after = Ok (Some ty) →
    saved before after ty) as Hfin.
  { intros _ Hf. unfold event_finished in Hf. destruct (finished_at_ns after) as [fin|]; [|done].
    apply bind_ok in Hf as (x & Hx & [He _]%when_equal_inv). by apply (saved_event _ _ (EFinish fin) x). }
  destruct (job_status before) eqn:Es, (job_status after) eqn:Et; try done; try (by apply Hfin); clear Hfin.
  - unfold event_running, andthen in H. apply bind_ok in H as ([t|] & H1 & H2).
    + injection H2 as <-. case_bool_decide; [done|]. apply bind_ok in H1 as (x & Hx%conflict_ok & [He _]%when_equal_inv).
      destruct (job_stage after) as [g|]; [|done]. by apply (saved_event _ _ (EAdvance g) x).
    + destruct (_ =? _); [|done]. apply when_equal_inv in H2 as [? ->]. right. auto.
  - unfold event_pending_outcome in H. case_bool_decide.
    + apply bind_ok in H as (x & Hx & [He _]%when_equal_inv). by apply (saved_event _ _ ESucceed x).
    + destruct (reason_code after) as [c|]; [|done]. destruct (is_some _); [|done].
      apply bind_ok in H as (x & Hx%conflict_ok & [He _]%when_equal_inv).
      by apply (saved_event _ _ (EFail c (detail after)) x).
  - unfold event_archiving, andthen in H. apply bind_ok in H as ([t|] & H1 & H2).
    + injection H2 as <-. destruct (_ && _); [done|]. apply bind_ok in H1 as (x & Hx & [He _]%when_equal_inv).
      by apply (saved_event _ _ (ELose (detail after)) x).
    + destruct (_ =? _); [|done]. apply when_equal_inv in H2 as [? ->]. right. auto.
  - unfold event_blocked in H. destruct (blocked_reason_code after) as [c|]; [|done].
    apply bind_ok in H as (x & Hx & [He _]%when_equal_inv). by apply (saved_event _ _ (EBlock c) x).
  - apply bind_ok in H as (x & Hx & [He _]%when_equal_inv). by apply (saved_event _ _ EResume x).
Qed.
End Saving.

(** ** Claims *)
Section Claiming.
Context (isprintable isspace : Z → bool) (laws : UnicodeLaws isprintable isspace).
Local Abbreviation valid := (valid isprintable isspace).

Lemma select_next_some rows now r : select_next rows now = Some r →
  r ∈ rows ∧ (job_status r = QUEUED ∨ claimable r now = true).
Proof.
  unfold select_next. intros H.
  destruct (sort_by row_leb (filter (λ r, claimable r now = true) rows)) as [|b l] eqn:E.
  - apply sorted_filter_head in H as (? & ? & _). auto.
  - injection H as ->. assert (head (sort_by row_leb (filter (λ r, claimable r now = true) rows)) = Some r) as Hh by (by rewrite E).
    apply sorted_filter_head in Hh as (? & ? & _). auto.
Qed.

(** The clock and the policy stay within SQLite's integers. *)
Definition clock_fits (o : orchestration) (now : Z) : Prop :=
  time_ok o now ∧ now + seconds (retry_backoff_seconds o) < 2 ^ 63 ∧ max_stage_attempts o < 2 ^ 63.

Lemma fits_intro n : 0 ≤ n < 2 ^ 63 → fits_int64 n = true.
Proof. intros. unfold fits_int64. apply andb_true_iff. rewrite Z.leb_le, Z.ltb_lt. lia. Qed.

Lemma claim_fits row o now r' :
  valid row → row_fits row = true → clock_fits o now →
  claim isprintable isspace row o now = Ok r' → row_fits r' = true.
Proof.
  intros [[] _] Hf ([Hn [Hb _]] & Hnext & Hmax) H.
  assert (fits_int64 now = true) as Hnow by (apply fits_intro; unfold seconds in *; lia).
  assert (fits_int64 (now + seconds (retry_backoff_seconds o)) = true) as Hnb
    by (apply fits_intro; unfold seconds in *; lia).
  unfold row_fits in Hf. rewrite !andb_true_iff in Hf. destruct Hf as [[[[[[Hc Ha] Hne] Hst] Hup] Hfi] Hbl].
  assert (∀ c t, fail isprintable isspace row c t now = Ok r' → row_fits r' = true) as Hfail.
  { unfold fail. intros c t Hx. apply ensure_bind in Hx as [_ Hx]. destruct (outcome_of_code c); [|done].
    apply ensure_bind in Hx as [_ Hx]. apply build_ok in Hx as [-> _]. unfold row_fits. simpl.
    rewrite Hc, Hst, Hnow, Hfi, Hbl. by destruct (is_status _ _). }
  assert (block_archive isprintable isspace row "stage_attempts_exhausted" now = Ok r' → row_fits r' = true) as Hblk.
  { unfold block_archive. intros Hx. apply ensure_bind in Hx as [_ Hx]. apply ensure_bind in Hx as [_ Hx].
    apply build_ok in Hx as [-> _]. unfold row_fits. simpl. by rewrite Hc, Ha, Hst, Hnow, Hfi. }
  assert (max_stage_attempts o <=? stage_attempts row = false →
    build isprintable isspace (set_progress (job_status row) (job_stage row) (stage_attempts row + 1)
      (Some (now + seconds (retry_backoff_seconds o))) (started_at_ns row) now row) = Ok r' → row_fits r' = true) as Hagain.
  { intros Hlt%Z.leb_gt Hx. apply build_ok in Hx as [-> _]. unfold row_fits. simpl.
    rewrite Hc, Hnb, Hst, Hnow, Hfi, Hbl, fits_intro by lia. done. }
  unfold claim in H. destruct (is_status (job_status row) QUEUED).
  { apply build_ok in H as [-> _]. unfold row_fits. simpl. by rewrite Hc, Hnb, Hnow, Hfi, Hbl. }
  apply ensure_bind in H as [_ H]. destruct (is_status (job_status row) RUNNING).
  - destruct (started_at_ns row); [|done]. destruct (_ <=? now); [by eapply Hfail|].
    destruct (_ <=? stage_attempts row); [by eapply Hfail|auto].
  - destruct (_ <=? stage_attempts row); auto.
Qed.

Lemma claim_next_total d o now r :
  consistent isprintable isspace d → clock_fits o now → select_next (rows d) now = Some r →
  ∃ s after type, jobs d !! job_id r = Some s ∧ stored_row s = r ∧
    claim isprintable isspace r o now = Ok after ∧ job_id after = job_id r ∧
    claim_next isprintable isspace d o now
    = Ok (Some (after, claim_mode r), committed d r after (request_json s) type now).
Proof.
  intros Hd Hclock Hsel. destruct (select_next_some _ _ _ Hsel) as [(id & s & Hs & <-)%rows_elem Hq].
  destruct (co_rows _ _ _ Hd _ _ Hs) as (Hid & Hv & Hf). pose proof Hclock as (Ht & Hn & _).
  destruct (claim_ok isprintable isspace laws _ o now Hv Hq Ht) as (after & Hc & Hva & Hi & _).
  assert (job_id after = job_id (stored_row s)) as Hj by (by injection Hi).
  exists s, after, (_claim_event (stored_row s) after (claim_mode (stored_row s))).
  rewrite Hid. split_and!; [done|done|done|congruence|].
  unfold claim_next. rewrite next_stored_select, Hsel. unfold bind_int. rewrite fits_intro.
  2:{ destruct Ht as (? & ? & ?). unfold seconds in *. lia. }
  cbn [guard_or mbind result_bind]. rewrite (build_valid _ _ _ Hv). cbn [mbind result_bind].
  rewrite Hc. cbn [mbind result_bind].
  pose proof (commit_total isprintable isspace laws d (stored_row s) s after
    (_claim_event (stored_row s) after (claim_mode (stored_row s))) now) as Hcommit.
  rewrite Hid in Hcommit. specialize (Hcommit Hs eq_refl Hf Hva).
  pose proof (claim_updated _ _ _ _ _ _ Hc) as Hup.
  specialize (Hcommit (claim_fits _ _ _ _ Hv Hf Hclock Hc) ltac:(congruence) (claim_event_known _ _ _) ltac:(done)).
  apply bind_ok in Hcommit as (d1 & -> & H2). cbn [mbind result_bind]. by rewrite H2.
Qed.
End Claiming.

(** ** Properties *)
Section Properties.
Context (isprintable isspace : Z → bool) (laws : UnicodeLaws isprintable isspace).
Context (limits : Limits).
Local Abbreviation valid := (valid isprintable isspace).
Local Abbreviation after_calls ops := (run_ops isprintable isspace limits empty_db ops).

Definition limits_ok : Prop :=
  0 ≤ max_active_jobs_per_submitter limits ∧ 0 ≤ max_active_jobs_total limits ∧
  0 ≤ max_queued_jobs_total limits.

Lemma empty_quotas : limits_ok → within_quotas limits empty_db.
Proof. intros (? & ? & ?). split; intros; by unfold count. Qed.

Lemma reachable_consistent ops : consistent isprintable isspace (after_calls ops).
Proof. apply run_ops_ok, empty_consistent. Qed.

Lemma save_total d before s after ty :
  consistent isprintable isspace d → jobs d !! job_id before = Some s → stored_row s = before →
  valid after → row_fits after = true →
  _transition_event isprintable isspace before after = Ok ty →
  save isprintable isspace d before after
  = Ok (after, committed d before after (request_json s) ty (updated_at_ns after)).
Proof.
  intros Hd Hs Hb Hv Hf Ht. destruct (co_rows _ _ _ Hd _ _ Hs) as (_ & Hvb & Hfb). rewrite Hb in Hvb, Hfb.
  assert (job_id after = job_id before) as Hj.
  { apply identity_job, immutable_identity. by eapply transition_statuses. }
  unfold save, _require_http. rewrite Hj, String.eqb_refl, Ht, Hs. cbn [guard_or mbind result_bind].
  unfold _job_row. rewrite Hb, (build_valid _ _ _ Hvb). cbn [mbind result_bind].
  rewrite bool_decide_true by done. cbn [guard_or mbind result_bind].
  pose proof (commit_total isprintable isspace laws d before s after ty (updated_at_ns after) Hs Hb Hfb Hv Hf Hj
    ltac:(by eapply transition_event_known) eq_refl) as Hc.
  apply bind_ok in Hc as (d1 & -> & H2). cbn [mbind result_bind]. by rewrite H2.
Qed.

Lemma save_stale d before other s :
  jobs d !! job_id before = Some s → stored_row s ≠ before → valid (stored_row s) →
  ¬ is_ok (save isprintable isspace d before other).
Proof.
  intros Hs Hne Hv [x H]. unfold save, _require_http, _job_row in H. apply bind_ok in H as (? & _ & H).
  apply bind_ok in H as (? & _ & H). rewrite Hs, (build_valid _ _ _ Hv) in H. cbn [mbind result_bind] in H.
  rewrite bool_decide_false in H by done. done.
Qed.
End Properties.

(** C14. The database stays consistent whatever is called: after any calls from the empty
    database, every stored row is checked and filed under its id, every job has
    exactly one submission, by its submitter and for its digest, its events begin
    with [submitted] and end with one that shows its row, the three quotas hold, and
    no further call can violate a constraint of the SQL schema. *)
Theorem store_stays_consistent isprintable isspace (laws : UnicodeLaws isprintable isspace) limits ops :
  limits_ok limits →
  let d := run_ops isprintable isspace limits empty_db ops in
  consistent isprintable isspace d ∧ within_quotas limits d ∧
  ∀ o, call isprintable isspace limits d o ≠ Err IntegrityError.
Proof.
  intros Hl d. pose proof (run_ops_ok isprintable isspace limits empty_db ops (empty_consistent _ _)) as (H1 & _ & H3).
  split_and!; [done|by apply H3, empty_quotas|]. intros o. by apply safe_call.
Qed.

(** C19. Submissions are idempotent for ever: once a submission succeeded, any later
    submission of the same request with the same key, after any other calls, returns
    the same job without creating one and without changing the database, and a
    different request with that key is refused with a conflict. *)
Theorem submissions_idempotent isprintable isspace (laws : UnicodeLaws isprintable isspace) limits
    ops req sha p key suffix now be row created d1 later req2 suffix2 now2 be2 :
  submit isprintable isspace limits (run_ops isprintable isspace limits empty_db ops)
    req sha p key suffix now be = Ok ((row, created), d1) →
  let d2 := run_ops isprintable isspace limits d1 later in
  (∃ row2, submit isprintable isspace limits d2 req2 sha p key suffix2 now2 be2 = Ok ((row2, false), d2) ∧
     identity row2 = identity row ∧
     ∃ s, jobs d2 !! job_id row = Some s ∧ stored_row s = row2) ∧
  ∀ sha2, sha2 ≠ sha →
    submit isprintable isspace limits d2 req2 sha2 p key suffix2 now2 be2
    = Err (ReplayJobError 409 "idempotency key was used for a different request").
Proof.
  intros H d2. pose proof (reachable_consistent isprintable isspace limits ops) as Hd.
  set (d := run_ops _ _ _ _ ops) in *. set (who := str_lower (principal_address p)).
  destruct (submit_ok _ _ _ _ _ _ _ _ _ _ _ _ _ H Hd) as (Hd1 & _ & _).
  assert (valid_key key = true) as Hkey.
  { unfold submit, _validate_key in H. apply bind_ok in H as ([] & Hk & _). by apply guard_or_ok in Hk. }
  assert (∃ sub s1, submissions d1 !! (who, key) = Some sub ∧ sub_sha256 sub = sha ∧
    jobs d1 !! sub_job_id sub = Some s1 ∧ identity (stored_row s1) = identity row) as (sub & s1 & Hsub & Hsha & Hs1 & Hid1).
  { apply submit_cases in H as [(-> & -> & Hl)|(_ & _ & Hn & Hv & _ & _ & Hw & Hsha & _ & _ & ->)].
    - fold who in Hl. unfold _lookup_submission in Hl.
      destruct (submissions d !! (who, key)) as [sub|] eqn:Es; [|done].
      destruct (jobs d !! sub_job_id sub) as [s|] eqn:Ej; [|done].
      apply bind_ok in Hl as ([] & Hg & Hl). unfold _require_http in Hg. apply guard_or_ok, String.eqb_eq in Hg.
      apply bind_ok in Hl as (r & Hr & [= <-]). apply build_ok in Hr as [-> _]. exists sub, s. split_and!; try done.
      destruct (co_submissions _ _ _ Hd _ _ _ Es) as (s' & Hs' & _ & He). rewrite Ej in Hs'. injection Hs' as <-.
      unfold identity, with_sha256. simpl. congruence.
    - exists (mkSubmission sha (job_id row) now), (mkStored row req). simpl.
      split_and!; [apply lookup_insert_eq|done|apply lookup_insert_eq|done]. }
  destruct (run_ops_ok isprintable isspace limits d1 later Hd1) as (Hd2 & [Hks Hkj _] & _).
  fold d2 in Hd2, Hks, Hkj. apply Hks in Hsub as Hsub2.
  destruct (Hkj _ _ Hs1) as (s2 & Hs2 & Hid2 & _).
  destruct (co_submissions _ _ _ Hd2 _ _ _ Hsub2) as (s' & Hs' & _ & Hsha2).
  rewrite Hs2 in Hs'. injection Hs' as <-.
  destruct (co_rows _ _ _ Hd2 _ _ Hs2) as (Hj2 & Hv2 & _).
  assert (sub_job_id sub = job_id row) as Ej by (rewrite <- Hj2; apply identity_job; congruence).
  unfold submit, _validate_key, _require_http. rewrite Hkey. cbn [guard_or mbind result_bind]. fold who.
  unfold _lookup_submission, _require_http. rewrite Hsub2, Hs2, Hsha. split.
  - rewrite String.eqb_refl. cbn [guard_or mbind result_bind].
    assert (with_sha256 sha (stored_row s2) = stored_row s2) as ->.
    { unfold with_sha256. destruct (stored_row s2). simpl in *. congruence. }
    rewrite (build_valid _ _ _ Hv2). cbn [mbind result_bind]. exists (stored_row s2).
    split_and!; [done|congruence|]. exists s2. by rewrite <- Ej.
  - intros sha2 Hne. by destruct (String.eqb_spec sha sha2).
Qed.

(** C38. [claim_next] is [select_next] followed by [claim], and never fails: in any
    reachable database, with a clock and a policy that fit SQLite, it does nothing
    when no job is claimable or queued, and otherwise commits exactly the claim of the
    row [select_next] picks, so a ready job is always started or moved on. *)
Theorem claim_next_follows_order isprintable isspace (laws : UnicodeLaws isprintable isspace) limits ops o now :
  clock_fits o now →
  let d := run_ops isprintable isspace limits empty_db ops in
  match select_next (rows d) now with
  | None => claim_next isprintable isspace d o now = Ok (None, d)
  | Some r => ∃ after d' s,
      claim isprintable isspace r o now = Ok after ∧
      claim_next isprintable isspace d o now = Ok (Some (after, claim_mode r), d') ∧
      jobs d !! job_id r = Some s ∧ stored_row s = r ∧
      jobs d' = <[job_id r := mkStored after (request_json s)]> (jobs d)
  end.
Proof.
  intros Hc d. destruct (select_next (rows d) now) as [r|] eqn:Hsel.
  - destruct (claim_next_total isprintable isspace laws d o now r (reachable_consistent _ _ _ ops) Hc Hsel)
      as (s & after & ty & Hs & Hr & Hcl & Hj & E). exists after, (committed d r after (request_json s) ty now), s.
    by split_and!.
  - unfold claim_next, bind_int. rewrite fits_intro.
    2:{ destruct Hc as ((? & ? & ?) & ? & ?). unfold seconds in *. lia. }
    cbn [guard_or mbind result_bind]. by rewrite next_stored_select, Hsel.
Qed.

(** C31. [save] commits the worker's transitions and nothing else: for the stored row of a
    reachable database, whatever [save] accepts is a transition of the state machine
    or a retry's bookkeeping, every such transition of the row is accepted, and once
    a changed row is saved no other change of the old row is. *)
Theorem save_commits_transitions isprintable isspace (laws : UnicodeLaws isprintable isspace) limits ops s :
  let d := run_ops isprintable isspace limits empty_db ops in
  let before := stored_row s in
  jobs d !! job_id before = Some s →
  (∀ after x d', valid isprintable isspace after →
     save isprintable isspace d before after = Ok (x, d') →
     (∃ ty, saved isprintable isspace before after ty) ∧
     jobs d' = <[job_id before := mkStored after (request_json s)]> (jobs d) ∧
     (after ≠ before → ∀ other, ¬ is_ok (save isprintable isspace d' before other))) ∧
  (∀ o e now after, by_worker e = true →
     apply_event isprintable isspace o before (e, now) = Ok after → row_fits after = true →
     is_ok (save isprintable isspace d before after)).
Proof.
  intros d before Hs. pose proof (reachable_consistent isprintable isspace limits ops) as Hd. fold d in Hd. split.
  - intros after x d' Hv H.
    assert (∃ ty, _transition_event isprintable isspace before after = Ok ty) as [ty Hty].
    { unfold save in H. apply bind_ok in H as (_ & _ & H). apply bind_ok in H as (ty & Hty & _). eauto. }
    destruct (save_transition _ _ _ _ _ _ _ H Hd Hv) as (-> & (s0 & type & now & Hs0 & Hi & _ & _ & _ & _ & ->) & _).
    assert (s0 = s) as ->.
    { assert (job_id after = job_id before) as Hj.
      { apply identity_job, immutable_identity. by eapply transition_statuses. }
      rewrite Hj in Hs0. congruence. }
    split_and!.
    + exists ty. apply block_saved. by apply transition_block.
    + done.
    + intros Hne other. eapply save_stale; [apply lookup_insert_eq|done..].
  - intros o e now after Hw He Hf. pose proof (apply_event_edge _ _ _ _ _ _ He) as (_ & Hv & Hi & _).
    destruct (worker_moves isprintable isspace laws o before e now after Hw He) as (Hst & ty & Hb).
    eexists. eapply save_total; try done. apply transition_block. split; [by apply immutable_intro|done].
Qed.

(** ** A demonstration *)
Definition demo_limits : Limits := mkLimits 1 2 2.
Definition demo_user : Principal := mkPrincipal demo_by "user".
Definition demo_suffix (i : nat) : string := "0123456789abcdef".
Definition demo_submit : op := OSubmit [] demo_sha demo_user "key-1" demo_suffix 1704067201000000000 true.
Definition demo_now : Z := 1704067202000000000.
Definition demo_calls : list op := [demo_submit; OClaim demo_orchestration demo_now].
Local Abbreviation demo_run ops := (run_ops ascii_printable ascii_space demo_limits empty_db ops).

Lemma store_stays_consistent_witness :
  limits_ok demo_limits ∧ consistent ascii_printable ascii_space (demo_run demo_calls) ∧
  length (rows (demo_run demo_calls)) = 1%nat.
Proof.
  assert (limits_ok demo_limits) as Hl by (by split_and!).
  split; [exact Hl|]. split; [|vm_compute; reflexivity].
  apply (store_stays_consistent ascii_printable ascii_space ascii_unicode demo_limits demo_calls Hl).
Defined.

Lemma submissions_idempotent_witness : ∃ row d1,
  submit ascii_printable ascii_space demo_limits empty_db [] demo_sha demo_user "key-1" demo_suffix
    1704067201000000000 true = Ok ((row, true), d1) ∧
  ∃ row2 d2, submit ascii_printable ascii_space demo_limits d2 [] demo_sha demo_user "key-1" demo_suffix
    9 false = Ok ((row2, false), d2) ∧ identity row2 = identity row.
Proof.
  assert ((x ← submit ascii_printable ascii_space demo_limits empty_db [] demo_sha demo_user "key-1"
    demo_suffix 1704067201000000000 true; Ok x.1.2) = Ok true) as H by (vm_compute; reflexivity).
  apply bind_ok in H as ([[row created] d1] & Hs & H). apply Ok_inj in H. simpl in H. subst created.
  exists row, d1. split; [exact Hs|].
  destruct (submissions_idempotent ascii_printable ascii_space ascii_unicode demo_limits [] [] demo_sha
    demo_user "key-1" demo_suffix _ _ row true d1 [OClaim demo_orchestration demo_now] [] demo_suffix 9 false Hs)
    as [(row2 & E & Hi & _) _].
  exists row2. eexists. split; [exact E|exact Hi].
Defined.

Lemma demo_clock : clock_fits demo_orchestration demo_now.
Proof. unfold clock_fits, time_ok, demo_orchestration, demo_now, seconds. simpl. lia. Qed.

Lemma claim_next_follows_order_witness :
  clock_fits demo_orchestration demo_now ∧
  ∃ after m d', claim_next ascii_printable ascii_space (demo_run [demo_submit]) demo_orchestration demo_now
    = Ok (Some (after, m), d').
Proof.
  split; [exact demo_clock|].
  pose proof (claim_next_follows_order ascii_printable ascii_space ascii_unicode demo_limits [demo_submit]
    demo_orchestration demo_now demo_clock) as H. cbv zeta in H.
  destruct (select_next (rows (demo_run [demo_submit])) demo_now) as [r|] eqn:E.
  - destruct H as (after & d' & s & _ & Hc & _). eauto.
  - exfalso. assert (is_some (select_next (rows (demo_run [demo_submit])) demo_now) = true) as Hs
      by (vm_compute; reflexivity). rewrite E in Hs. discriminate Hs.
Defined.

Lemma save_commits_transitions_witness : ∃ s after,
  jobs (demo_run demo_calls) !! job_id (stored_row s) = Some s ∧
  retry_later ascii_printable ascii_space (stored_row s) "resource_exhausted" None demo_orchestration demo_now = Ok after ∧
  is_ok (save ascii_printable ascii_space (demo_run demo_calls) (stored_row s) after).
Proof.
  assert (∃ s, head (map snd (map_to_list (jobs (demo_run demo_calls)))) = Some s) as [s Hs]
    by (eexists; vm_compute; reflexivity).
  assert (jobs (demo_run demo_calls) !! job_id (stored_row s) = Some s) as Hj
    by (vm_compute in Hs; injection Hs as <-; vm_compute; reflexivity).
  assert ((r ← retry_later ascii_printable ascii_space (stored_row s) "resource_exhausted" None
    demo_orchestration demo_now; Ok (row_fits r)) = Ok true) as Hr
    by (vm_compute in Hs; injection Hs as <-; vm_compute; reflexivity).
  apply bind_ok in Hr as (after & Hr & Hf). apply Ok_inj in Hf. exists s, after.
  split; [exact Hj|]. split; [exact Hr|].
  apply (proj2 (save_commits_transitions ascii_printable ascii_space ascii_unicode demo_limits demo_calls s Hj)
    demo_orchestration (ERetry "resource_exhausted" None) demo_now after eq_refl Hr Hf).
Defined.
