(* ===== verification/JobDocuments.v ===== *)
(** * Job documents ([src/replay/jobs/contracts.py], lines 69-171 and 860-1500)

    The closed documents a job publishes: the producer identity, the bundle receipt, the
    resolved job, the job result and the job receipt.  A constructor takes the decoded
    values of the fields whose type its own checks establish; [replace_...] is
    [dataclasses.replace], which runs it again on a built value. *)
From stdpp Require Import list strings.
From S2P Require Import Prelude Wire Json JobDetail ObjectKeys JobContracts JobHistory.

Definition contract {A} (message : string) : result A := Err (ContractError message None).

(** ** Readers *)
Definition protocol_to_contract {A} (message : string) (m : result A) : result A :=
  match m with Err (ProtocolError _) => contract message | _ => m end.

Definition _closed (value : json) (fields : list string) : result () :=
  _ ← protocol_to_contract "must have exactly the fields" (obj value fields); Ok ().

Definition _uint (value : json) : result Z :=
  protocol_to_contract "must be a canonical unsigned decimal string" (uint value max_u64).

(** [f(value[k])]. *)
Definition field {A} (value : json) (k : string) (f : json → result A) : result A :=
  v ← jget value k; f v.

(** A check of a [str], of an [int]. *)
Definition of_str {A} (f : string → result A) (message : string) (value : json) : result A :=
  match value with JStr s => f s | _ => contract message end.
Definition of_int {A} (f : Z → result A) (message : string) (value : json) : result A :=
  match value with JInt n => f n | _ => contract message end.
Definition _optional_json {A} (f : json → result A) (value : json) : result (option A) :=
  match value with JNull => Ok None | _ => x ← f value; Ok (Some x) end.

Definition as_identifier : json → result string := of_str _identifier "must match [A-Za-z0-9_.-]{1,128}".
Definition _hex64 : json → result string :=
  of_str (λ s, _ ← ensure (is_hex64 s) "must be 64 lowercase hex characters"; Ok s)
    "must be 64 lowercase hex characters".
Definition as_text (limit : nat) : json → result string :=
  of_str (λ s, _ ← _text s limit; Ok s) "must be 1-limit printable characters".
Definition as_job_id : json → result string :=
  of_str (λ s, _ ← check_job_id s; Ok s) "job id must be <yyyymmddTHHMMSSZ>-<16 hex>".
(** [_require(_key(v) == v)]. *)
Definition as_key : json → result string :=
  of_str (λ s, _ ← check_normalized s; Ok s) "object key must be a non-empty string".
Definition _positive_int : json → result Z :=
  of_int (λ n, _ ← ensure (0 <? n) "must be a positive integer"; Ok n) "must be a positive integer".
Definition as_nonnegative : json → result Z :=
  of_int (λ n, _ ← _nonnegative_int n "must be a nonnegative integer"; Ok n) "must be a nonnegative integer".
Definition as_period : json → result Z :=
  of_int (λ n, _ ← _window_period n; Ok n) "canonical_window_seconds must be a positive divisor of 86400".
Definition hex32_char_count (s : string) : bool :=
  (length (chars s) =? 32)%nat && forallb lower_hex (chars s).
Definition as_address : json → result string :=
  of_str (λ s, _ ← ensure (is_address s) "submitted_by must be a lowercase 0x address"; Ok s)
    "submitted_by must be a lowercase 0x address".
Definition as_hex32 : json → result string :=
  of_str (λ s, _ ← ensure (hex32_char_count s) "attempt_id must be 32 lowercase hex characters"; Ok s)
    "attempt_id must be 32 lowercase hex characters".

(** [type(v) is int and v == version]. *)
Definition is_version (version : Z) : json → result () :=
  of_int (λ n, ensure (n =? version) "version") "version".

Definition as_list (message : string) (value : json) : result (list json) :=
  match value with JArr l => Ok l | _ => contract message end.

Definition _interval (value : json) : result (Z * Z) :=
  _ ← _closed value ["start_ns"; "end_ns"];
  start ← field value "start_ns" _uint;
  end_ ← field value "end_ns" _uint;
  _ ← ensure (start <? end_) "must satisfy start_ns < end_ns";
  Ok (start, end_).

Definition _interval_document (interval : Z * Z) : json :=
  JObj [("start_ns", JStr (str_int interval.1)); ("end_ns", JStr (str_int interval.2))].

(** ** Producer identity *)
Definition require_ok (ok : bool) : result () := require ok "invalid wire value".

(** [expected] of [normalizer_descriptor]: the schema version and variables of each venue. *)
Definition expected_venues : list (string * (Z * list string)) :=
  [("kalshi", (2, ["price_scale"; "quantity_scale"]));
   ("limitless", (1, ["price_scale"; "quantity_scale"]));
   ("polymarket", (1, ["accept_additive_fields"; "price_scale"; "quantity_scale"]))].

Definition check_variable (variables : json) (name : string) : result Z :=
  v ← jget variables name;
  _ ← obj v ["type"; "value"];
  t ← jget v "type"; x ← jget v "value";
  if String.eqb name "accept_additive_fields" then
    match x with
    | JBool b => _ ← require_ok (jeq_str t "boolean"); Ok (if b then 1 else 0)
    | _ => Err (ProtocolError "invalid wire value")
    end
  else
    match x with
    | JInt n => _ ← require (jeq_str t "unsigned" && (0 <=? n) && (n <=? 18)) "normalizer scale"; Ok n
    | _ => Err (ProtocolError "normalizer scale")
    end.

Definition check_venue (entry : json) (schema : Z) (variables : list string) : result (list Z) :=
  _ ← obj entry ["venue"; "bundle_id"; "parser_version"; "config"];
  b ← jget entry "bundle_id";
  _ ← require_ok (match b with JStr s => negb (String.eqb s "") | _ => false end);
  p ← jget entry "parser_version";
  _ ← require_ok (match p with JInt n => 0 <? n | _ => false end);
  config ← jget entry "config";
  _ ← obj config ["schema_version"; "variables"];
  s ← jget config "schema_version";
  _ ← require_ok (match s with JInt n => n =? schema | _ => false end);
  vs ← jget config "variables";
  _ ← require_ok (match obj vs variables with Ok _ => true | Err _ => false end);
  mapR (check_variable vs) variables.

Definition venue_of (entry : json) : option string :=
  match entry with
  | JObj d => match dget d "venue" with Some (JStr s) => Some s | _ => None end
  | _ => None
  end.

(** The checks of [normalizer_descriptor], with the variables of each venue. *)
Definition normalizer_descriptor (value : json) : result (list (list Z)) :=
  _ ← obj value ["identity_version"; "venues"];
  v ← jget value "identity_version";
  _ ← require_ok (match v with JInt n => n =? 1 | _ => false end);
  venues ← jget value "venues";
  match venues with
  | JArr entries =>
      _ ← require (bool_decide (map venue_of entries = map (λ e, Some e.1) expected_venues)) "normalizer venues";
      mapR (λ e, check_venue e.1 e.2.2.1 e.2.2.2) (zip2 entries expected_venues)
  | _ => Err (ProtocolError "invalid wire value")
  end.

Record Producer := mkProducer {
  normalizer : json;
  normalized_schema_version : Z;
  materializer_version : Z;
  materialization_policy_sha256 : string;
}.

Definition make_producer (normalizer schema materializer policy : json) : result Producer :=
  _ ← protocol_to_contract "producer normalizer is not a valid identity" (normalizer_descriptor normalizer);
  s ← _positive_int schema; m ← _positive_int materializer; p ← _hex64 policy;
  Ok (mkProducer normalizer s m p).

Definition producer_document (p : Producer) : json :=
  JObj [("producer_identity_version", JInt 1); ("normalizer", normalizer p);
        ("normalized_schema_version", JInt (normalized_schema_version p));
        ("materializer_version", JInt (materializer_version p));
        ("materialization_policy_sha256", JStr (materialization_policy_sha256 p))].

Definition producer_from_document (value : json) : result Producer :=
  _ ← _closed value ["producer_identity_version"; "normalizer"; "normalized_schema_version";
                     "materializer_version"; "materialization_policy_sha256"];
  _ ← field value "producer_identity_version" (is_version 1);
  n ← jget value "normalizer"; s ← jget value "normalized_schema_version";
  m ← jget value "materializer_version"; p ← jget value "materialization_policy_sha256";
  make_producer n s m p.

(** ** Bundle receipt *)
Record BundleWindow := mkBundleWindow {
  window_start_ns : Z;
  window_end_ns : Z;
  canonical_receipt_sha256 : string;
  derivative_address : string;
  receipt_sha256 : string;
}.

Definition make_window (start end_ : Z) (canonical address receipt : json) : result BundleWindow :=
  _ ← _ns start "window_start_ns"; _ ← _ns end_ "window_end_ns";
  _ ← ensure (start <? end_) "window must be nonempty";
  c ← _hex64 canonical; a ← _hex64 address; r ← _hex64 receipt;
  Ok (mkBundleWindow start end_ c a r).

Definition replace_window (w : BundleWindow) : result BundleWindow :=
  make_window (window_start_ns w) (window_end_ns w) (JStr (canonical_receipt_sha256 w))
    (JStr (derivative_address w)) (JStr (receipt_sha256 w)).

Definition _bundle_window (value : json) : result BundleWindow :=
  _ ← _closed value ["window_start_ns"; "window_end_ns"; "canonical_receipt_sha256";
                     "derivative_address"; "receipt_sha256"];
  s ← field value "window_start_ns" _uint; e ← field value "window_end_ns" _uint;
  c ← jget value "canonical_receipt_sha256"; a ← jget value "derivative_address";
  r ← jget value "receipt_sha256";
  make_window s e c a r.

Definition window_document (w : BundleWindow) : json :=
  JObj [("window_start_ns", JStr (str_int (window_start_ns w)));
        ("window_end_ns", JStr (str_int (window_end_ns w)));
        ("canonical_receipt_sha256", JStr (canonical_receipt_sha256 w));
        ("derivative_address", JStr (derivative_address w));
        ("receipt_sha256", JStr (receipt_sha256 w))].

Record BundleReceipt := mkBundleReceipt {
  bundle_id : string;
  br_start_ns : Z;
  br_end_ns : Z;
  canonical_window_seconds : Z;
  producer : Producer;
  windows : list BundleWindow;
}.

Definition MAX_BUNDLE_WINDOWS : nat := Z.to_nat 4096.
Definition MAX_BUNDLE_RECEIPT_BYTES : Z := 1024 * 1024.

Definition make_bundle_receipt (id : json) (start end_ : Z) (window_seconds : json) (p : Producer)
    (ws : list BundleWindow) : result BundleReceipt :=
  bid ← as_identifier id;
  _ ← ensure ((0 <? length ws)%nat && (length ws <=? MAX_BUNDLE_WINDOWS)%nat)
        "bundle receipt windows must be a tuple of 1-4096 windows";
  '(secs, (first, last, starts)) ← of_int (λ n, b ← window_bounds start end_ n; Ok (n, b))
    "canonical_window_seconds must be a positive divisor of 86400" window_seconds;
  _ ← ensure ((first =? start) && (last =? end_))
        "bundle receipt interval must be aligned to canonical windows";
  period ← _window_period secs;
  _ ← ensure (bool_decide (map window_start_ns ws = starts)
              && forallb (λ w, window_end_ns w =? window_start_ns w + period) ws)
        "bundle receipt windows must be ordered, adjacent, and exactly cover its interval";
  _ ← ensure (bool_decide (NoDup (map derivative_address ws))) "bundle receipt repeats a derivative address";
  Ok (mkBundleReceipt bid start end_ secs p ws).

Definition _bundle_receipt_document (r : BundleReceipt) : json :=
  JObj [("replay_bundle_receipt_version", JInt 1); ("bundle_id", JStr (bundle_id r));
        ("interval", _interval_document (br_start_ns r, br_end_ns r));
        ("canonical_window_seconds", JInt (canonical_window_seconds r));
        ("producer", producer_document (producer r));
        ("windows", JArr (map window_document (windows r)))].

Section Codec.
Context (loads : list Byte.byte → option json) (dumps : json → list Byte.byte).

Local Abbreviation encoded := (encoded dumps).

Definition _decode (raw : list Byte.byte) (limit : Z) : result json :=
  _ ← ensure (Z.of_nat (length raw) <=? limit) "exceeds bytes";
  protocol_to_contract "is not strict JSON" (decode_json loads raw limit).

Definition _canonical (raw : list Byte.byte) (document : json) : result () :=
  bytes ← encoded document; ensure (bool_decide (bytes = raw)) "is not in canonical serialization".

Definition parse_producer (raw : list Byte.byte) : result Producer :=
  value ← _decode raw MAX_BUNDLE_RECEIPT_BYTES;
  p ← producer_from_document value;
  _ ← _canonical raw (producer_document p);
  Ok p.

(** What [parse_bundle_receipt] does with the decoded value. *)
Definition bundle_receipt_from (value : json) : result BundleReceipt :=
  _ ← _closed value ["replay_bundle_receipt_version"; "bundle_id"; "interval";
                     "canonical_window_seconds"; "producer"; "windows"];
  _ ← field value "replay_bundle_receipt_version" (is_version 1);
  interval ← field value "interval" _interval;
  ws ← field value "windows" (as_list "bundle receipt windows must be a list");
  id ← jget value "bundle_id"; secs ← jget value "canonical_window_seconds";
  p ← field value "producer" producer_from_document;
  windows ← mapR _bundle_window ws;
  make_bundle_receipt id interval.1 interval.2 secs p windows.

Definition parse_bundle_receipt (raw : list Byte.byte) : result BundleReceipt :=
  value ← _decode raw MAX_BUNDLE_RECEIPT_BYTES;
  receipt ← bundle_receipt_from value;
  _ ← _canonical raw (_bundle_receipt_document receipt);
  Ok receipt.

Definition bundle_receipt_bytes (receipt : BundleReceipt) : result (list Byte.byte) :=
  ws ← mapR replace_window (windows receipt);
  rebuilt ← make_bundle_receipt (JStr (bundle_id receipt)) (br_start_ns receipt) (br_end_ns receipt)
              (JInt (canonical_window_seconds receipt)) (producer receipt) ws;
  encoded (_bundle_receipt_document rebuilt).

(** ** Resolved job *)
Record ResolvedJob := mkResolvedJob {
  rj_job_id : string;
  rj_request_sha256 : string;
  rj_bundle_id : string;
  rj_window_seconds : Z;
  bundle_interval : Z * Z;
  job_interval : Z * Z;
  occurrences : list Occurrence;
}.

Definition MAX_OCCURRENCES : nat := Z.to_nat 128.
Definition MAX_RESOLVED_JOB_BYTES : Z := 1024 * 1024.

(** [Occurrence(...)] on decoded fields. *)
Definition make_occurrence_json (id : json) (start end_ : Z) (mkey msha rkey rsha : json) : result Occurrence :=
  r ← as_text 128 id;
  _ ← _check_interval (start, end_);
  k ← as_key mkey; k' ← as_key rkey;
  s ← _hex64 msha; s' ← _hex64 rsha;
  Ok (mkOccurrence r start end_ k s k' s').

(** [all(a.end_ns == b.start_ns for a, b in zip(occurrences, occurrences[1:]))]. *)
Fixpoint adjacent (os : list Occurrence) : bool :=
  match os with
  | a :: ((b :: _) as os') => (end_ns a =? start_ns b) && adjacent os'
  | _ => true
  end.

Definition make_resolved (id sha bundle seconds : json) (bundle_iv job_iv : Z * Z) (os : list Occurrence)
    : result ResolvedJob :=
  id ← as_job_id id; sha ← _hex64 sha; b ← as_identifier bundle; secs ← as_period seconds;
  _ ← _check_interval bundle_iv; _ ← _check_interval job_iv;
  _ ← ensure ((bundle_iv.1 <=? job_iv.1) && (job_iv.2 <=? bundle_iv.2)) "job_interval must lie in bundle_interval";
  _ ← ensure ((0 <? length os)%nat && (length os <=? MAX_OCCURRENCES)%nat) "occurrences must be a tuple of 1-128";
  _ ← ensure (match head os, last os with
              | Some a, Some z => (start_ns a =? job_iv.1) && (end_ns z =? job_iv.2)
              | _, _ => false
              end && adjacent os) "occurrences must partition job_interval in order";
  _ ← ensure (bool_decide (NoDup (map run_id os))) "occurrences repeat a run";
  Ok (mkResolvedJob id sha b secs bundle_iv job_iv os).

Definition window_interval (r : ResolvedJob) : result (Z * Z) :=
  '(first, last, _) ← window_bounds (bundle_interval r).1 (bundle_interval r).2 (rj_window_seconds r);
  Ok (first, last).

Definition occurrence_document (o : Occurrence) : json :=
  JObj [("run_id", JStr (run_id o)); ("start_ns", JStr (str_int (start_ns o)));
        ("end_ns", JStr (str_int (end_ns o)));
        ("source", JObj [("manifest_key", JStr (manifest_key o)); ("manifest_sha256", JStr (manifest_sha256 o));
                         ("report_key", JStr (report_key o)); ("report_sha256", JStr (report_sha256 o))])].

Definition resolved_document (r : ResolvedJob) : result json :=
  w ← window_interval r;
  Ok (JObj [("replay_resolved_job_version", JInt 1); ("job_id", JStr (rj_job_id r));
            ("request_sha256", JStr (rj_request_sha256 r)); ("bundle_id", JStr (rj_bundle_id r));
            ("canonical_window_seconds", JInt (rj_window_seconds r));
            ("bundle_interval", _interval_document (bundle_interval r));
            ("window_interval", _interval_document w);
            ("job_interval", _interval_document (job_interval r));
            ("occurrences", JArr (map occurrence_document (occurrences r)))]).

Definition replace_resolved (r : ResolvedJob) : result ResolvedJob :=
  make_resolved (JStr (rj_job_id r)) (JStr (rj_request_sha256 r)) (JStr (rj_bundle_id r))
    (JInt (rj_window_seconds r)) (bundle_interval r) (job_interval r) (occurrences r).

Definition resolved_job_bytes (r : ResolvedJob) : result (list Byte.byte) :=
  r' ← replace_resolved r; doc ← resolved_document r'; encoded doc.

Definition occurrence_from (item : json) : result Occurrence :=
  _ ← _closed item ["run_id"; "start_ns"; "end_ns"; "source"];
  source ← jget item "source";
  _ ← _closed source ["manifest_key"; "manifest_sha256"; "report_key"; "report_sha256"];
  id ← jget item "run_id";
  s ← field item "start_ns" _uint; e ← field item "end_ns" _uint;
  mk ← jget source "manifest_key"; ms ← jget source "manifest_sha256";
  rk ← jget source "report_key"; rs ← jget source "report_sha256";
  make_occurrence_json id s e mk ms rk rs.

Definition resolved_from (value : json) : result ResolvedJob :=
  _ ← _closed value ["replay_resolved_job_version"; "job_id"; "request_sha256"; "bundle_id";
                     "canonical_window_seconds"; "bundle_interval"; "window_interval";
                     "job_interval"; "occurrences"];
  _ ← field value "replay_resolved_job_version" (is_version 1);
  items ← field value "occurrences" (as_list "occurrences must be a list");
  os ← mapR occurrence_from items;
  id ← jget value "job_id"; sha ← jget value "request_sha256"; b ← jget value "bundle_id";
  secs ← jget value "canonical_window_seconds";
  bi ← field value "bundle_interval" _interval; ji ← field value "job_interval" _interval;
  make_resolved id sha b secs bi ji os.

Definition parse_resolved_job (raw : list Byte.byte) : result ResolvedJob :=
  value ← _decode raw MAX_RESOLVED_JOB_BYTES;
  resolved ← resolved_from value;
  doc ← resolved_document resolved;
  _ ← _canonical raw doc;
  Ok resolved.

(** ** Job result *)
Record JobResult := mkJobResult {
  jr_job_id : string;
  jr_strategy : string;
  jr_strategy_semantic_sha256 : string;
  jr_snapshot_sha256 : string;
  jr_bundle_receipt_sha256 : string;
  jr_supervisor_identity : string;
  attempt_id : string;
  attempts_started : Z;
}.

Definition MAX_JOB_RESULT_BYTES : Z := 64 * 1024.
Definition _RESULT_FIELDS : list string :=
  ["job_id"; "strategy"; "strategy_semantic_sha256"; "snapshot_sha256"; "bundle_receipt_sha256";
   "supervisor_identity"; "attempt_id"; "attempts_started"].

Definition make_result (id strategy semantic snapshot receipt supervisor attempt started : json)
    : result JobResult :=
  id ← as_job_id id; s ← as_identifier strategy;
  a ← _hex64 semantic; b ← _hex64 snapshot; c ← _hex64 receipt; d ← _hex64 supervisor;
  t ← as_hex32 attempt; n ← _positive_int started;
  Ok (mkJobResult id s a b c d t n).

Definition result_document (r : JobResult) : json :=
  JObj [("replay_job_result_version", JInt 1); ("job_id", JStr (jr_job_id r));
        ("strategy", JStr (jr_strategy r));
        ("strategy_semantic_sha256", JStr (jr_strategy_semantic_sha256 r));
        ("snapshot_sha256", JStr (jr_snapshot_sha256 r));
        ("bundle_receipt_sha256", JStr (jr_bundle_receipt_sha256 r));
        ("supervisor_identity", JStr (jr_supervisor_identity r));
        ("attempt_id", JStr (attempt_id r)); ("attempts_started", JInt (attempts_started r))].

Definition replace_result (r : JobResult) : result JobResult :=
  make_result (JStr (jr_job_id r)) (JStr (jr_strategy r)) (JStr (jr_strategy_semantic_sha256 r))
    (JStr (jr_snapshot_sha256 r)) (JStr (jr_bundle_receipt_sha256 r)) (JStr (jr_supervisor_identity r))
    (JStr (attempt_id r)) (JInt (attempts_started r)).

Definition job_result_bytes (r : JobResult) : result (list Byte.byte) :=
  r' ← replace_result r; encoded (result_document r').

Definition result_from (value : json) : result JobResult :=
  _ ← _closed value ("replay_job_result_version" :: _RESULT_FIELDS);
  _ ← field value "replay_job_result_version" (is_version 1);
  id ← jget value "job_id"; s ← jget value "strategy"; a ← jget value "strategy_semantic_sha256";
  b ← jget value "snapshot_sha256"; c ← jget value "bundle_receipt_sha256";
  d ← jget value "supervisor_identity"; t ← jget value "attempt_id"; n ← jget value "attempts_started";
  make_result id s a b c d t n.

Definition parse_job_result (raw : list Byte.byte) : result JobResult :=
  value ← _decode raw MAX_JOB_RESULT_BYTES;
  r ← result_from value;
  _ ← _canonical raw (result_document r);
  Ok r.

(** ** Job receipt *)
Record JobObject := mkJobObject { object_key : string; object_sha256 : string; byte_length : Z }.

Record JobReceipt := mkJobReceipt {
  re_job_id : string;
  re_request_sha256 : string;
  re_submitted_by : string;
  image_revision : string;
  final_outcome : status;
  re_reason_code : option string;
  re_reason_detail : option string;
  resolved_sha256 : option string;
  re_bundle_receipt_sha256 : option string;
  re_snapshot_sha256 : option string;
  re_supervisor_identity : option string;
  re_strategy_semantic_sha256 : option string;
  objects : list JobObject;
  re_created_at_ns : Z;
  re_finished_at_ns : Z;
}.

Definition MAX_JOB_OBJECTS : nat := Z.to_nat 4096.
Definition MAX_JOB_RECEIPT_BYTES : Z := 4 * 1024 * 1024.

Definition status_name (s : status) : string :=
  match s with
  | QUEUED => "queued" | RUNNING => "running" | ARCHIVING => "archiving"
  | ARCHIVE_BLOCKED => "archive_blocked" | SUCCEEDED => "succeeded" | FAILED => "failed"
  | EXHAUSTED => "exhausted" | NOT_READY => "not_ready"
  | STALE_BUNDLE_CACHE => "stale_bundle_cache" | CANCELLED => "cancelled"
  end.

Definition terminal_statuses : list status :=
  [SUCCEEDED; FAILED; EXHAUSTED; NOT_READY; STALE_BUNDLE_CACHE; CANCELLED].

(** Membership in a frozenset, or lookup in a mapping, hashes the value first. *)
Definition hashable (value : json) : result () :=
  match value with JArr _ | JObj _ => Err (TypeError "unhashable type") | _ => Ok () end.

Definition as_outcome (value : json) : result status :=
  _ ← hashable value;
  match value with
  | JStr s => match list_find (λ t, status_name t = s) terminal_statuses with
              | Some (_, t) => Ok t
              | None => contract "final_outcome must be terminal"
              end
  | _ => contract "final_outcome must be terminal"
  end.

Definition as_reason (outcome : status) (value : json) : result (option string) :=
  if is_status outcome SUCCEEDED then
    match value with JNull => Ok None | _ => contract "succeeded has no reason code" end
  else
    _ ← hashable value;
    match value with
    | JStr c => _ ← ensure (bool_decide (outcome_of_code c = Some outcome)) "requires a matching reason code";
                Ok (Some c)
    | _ => contract "requires a matching reason code"
    end.

Section Unicode.
Context (isprintable isspace : Z → bool).

(** [self.reason_detail == reason_detail(self.reason_detail)]; a surrogate is not
    printable, so text with one is never its own sanitization. *)
Definition as_detail (value : json) : result (option string) :=
  match value with
  | JNull => Ok None
  | JStr s =>
      _ ← ensure (match utf8_decode s with
                  | Some t => bool_decide (reason_detail isprintable isspace t = Some t)
                  | None => false
                  end) "reason_detail must be sanitized by reason_detail()";
      Ok (Some s)
  | _ => contract "reason detail must be a string"
  end.

(** [present == sorted(present, reverse=True)]. *)
Fixpoint stage_order (present : list bool) : bool :=
  match present with
  | [] => true
  | true :: present => stage_order present
  | false :: present => forallb negb present
  end.

(** [keys == sorted(set(keys))]. *)
Fixpoint ascending (ks : list string) : bool :=
  match ks with
  | a :: ((b :: _) as ks') =>
      match String.compare a b with Lt => true | _ => false end && ascending ks'
  | _ => true
  end.

Definition make_object (k sha len : json) : result JobObject :=
  k ← as_key k; s ← _hex64 sha; n ← as_nonnegative len; Ok (mkJobObject k s n).

Definition object_document (o : JobObject) : json :=
  JObj [("key", JStr (object_key o)); ("sha256", JStr (object_sha256 o)); ("byte_length", JInt (byte_length o))].
Definition replace_object (o : JobObject) : result JobObject :=
  make_object (JStr (object_key o)) (JStr (object_sha256 o)) (JInt (byte_length o)).
Definition object_from (item : json) : result JobObject :=
  _ ← _closed item ["key"; "sha256"; "byte_length"];
  k ← jget item "key"; s ← jget item "sha256"; n ← jget item "byte_length";
  make_object k s n.

Definition own_keys (id : string) (ks : list string) : result () :=
  receipt ← job_receipt_key id;
  ensure (forallb (λ k, String.prefix ("replay/jobs/" +:+ id +:+ "/") k && negb (String.eqb k receipt)) ks)
    "objects must be this job's non-receipt objects".

Definition make_receipt (id request by_ image outcome reason detail resolved bundle snapshot supervisor
    semantic : json) (os : list JobObject) (created finished : Z) : result JobReceipt :=
  id ← as_job_id id; request ← _hex64 request;
  by_ ← as_address by_;
  image ← as_text 128 image;
  outcome ← as_outcome outcome; reason ← as_reason outcome reason; detail ← as_detail detail;
  a ← _optional_json _hex64 resolved; b ← _optional_json _hex64 bundle;
  c ← _optional_json _hex64 snapshot; d ← _optional_json _hex64 supervisor;
  e ← _optional_json _hex64 semantic;
  let present := map is_some [a; b; c; d; e] in
  _ ← ensure (stage_order present) "identities are recorded in stage order; a later one needs every earlier one";
  _ ← ensure (negb (is_status outcome SUCCEEDED) || forallb (λ b, b) present)
        "succeeded requires every stage identity";
  _ ← ensure (length os <=? MAX_JOB_OBJECTS)%nat "objects must be a tuple of at most 4096";
  _ ← ensure (ascending (map object_key os)) "objects must be sorted by key and unique";
  _ ← own_keys id (map object_key os);
  _ ← _ns created "created_at_ns"; _ ← _ns finished "finished_at_ns";
  _ ← ensure (created <=? finished) "finished before created";
  Ok (mkJobReceipt id request by_ image outcome reason detail a b c d e os created finished).

Definition json_of_option (o : option string) : json := match o with None => JNull | Some s => JStr s end.

Definition receipt_document (r : JobReceipt) : json :=
  JObj [("replay_job_receipt_version", JInt 1); ("job_id", JStr (re_job_id r));
        ("request_sha256", JStr (re_request_sha256 r)); ("submitted_by", JStr (re_submitted_by r));
        ("image_revision", JStr (image_revision r)); ("final_outcome", JStr (status_name (final_outcome r)));
        ("reason_code", json_of_option (re_reason_code r));
        ("reason_detail", json_of_option (re_reason_detail r));
        ("resolved_sha256", json_of_option (resolved_sha256 r));
        ("bundle_receipt_sha256", json_of_option (re_bundle_receipt_sha256 r));
        ("snapshot_sha256", json_of_option (re_snapshot_sha256 r));
        ("supervisor_identity", json_of_option (re_supervisor_identity r));
        ("strategy_semantic_sha256", json_of_option (re_strategy_semantic_sha256 r));
        ("objects", JArr (map object_document (objects r)));
        ("created_at_ns", JStr (str_int (re_created_at_ns r)));
        ("finished_at_ns", JStr (str_int (re_finished_at_ns r)))].

Definition replace_receipt (r : JobReceipt) (os : list JobObject) : result JobReceipt :=
  make_receipt (JStr (re_job_id r)) (JStr (re_request_sha256 r)) (JStr (re_submitted_by r))
    (JStr (image_revision r)) (JStr (status_name (final_outcome r))) (json_of_option (re_reason_code r))
    (json_of_option (re_reason_detail r)) (json_of_option (resolved_sha256 r))
    (json_of_option (re_bundle_receipt_sha256 r)) (json_of_option (re_snapshot_sha256 r))
    (json_of_option (re_supervisor_identity r)) (json_of_option (re_strategy_semantic_sha256 r))
    os (re_created_at_ns r) (re_finished_at_ns r).

Definition job_receipt_bytes (r : JobReceipt) : result (list Byte.byte) :=
  os ← mapR replace_object (objects r);
  rebuilt ← replace_receipt r os;
  data ← encoded (receipt_document rebuilt);
  _ ← ensure (Z.of_nat (length data) <=? MAX_JOB_RECEIPT_BYTES) "job receipt exceeds 4194304 bytes";
  Ok data.

Definition receipt_from (value : json) : result JobReceipt :=
  _ ← _closed value ["replay_job_receipt_version"; "job_id"; "request_sha256"; "submitted_by";
                     "image_revision"; "final_outcome"; "reason_code"; "reason_detail";
                     "resolved_sha256"; "bundle_receipt_sha256"; "snapshot_sha256";
                     "supervisor_identity"; "strategy_semantic_sha256"; "objects"; "created_at_ns";
                     "finished_at_ns"];
  _ ← field value "replay_job_receipt_version" (is_version 1);
  items ← field value "objects" (as_list "objects must be a list");
  os ← mapR object_from items;
  id ← jget value "job_id"; request ← jget value "request_sha256"; by_ ← jget value "submitted_by";
  image ← jget value "image_revision"; outcome ← jget value "final_outcome";
  reason ← jget value "reason_code"; detail ← jget value "reason_detail";
  a ← jget value "resolved_sha256"; b ← jget value "bundle_receipt_sha256";
  c ← jget value "snapshot_sha256"; d ← jget value "supervisor_identity";
  e ← jget value "strategy_semantic_sha256";
  created ← field value "created_at_ns" _uint; finished ← field value "finished_at_ns" _uint;
  make_receipt id request by_ image outcome reason detail a b c d e os created finished.

Definition parse_job_receipt (raw : list Byte.byte) : result JobReceipt :=
  value ← _decode raw MAX_JOB_RECEIPT_BYTES;
  r ← receipt_from value;
  _ ← _canonical raw (receipt_document r);
  Ok r.
End Unicode.
End Codec.
