(* ===== verification/JobDocumentsProps.v ===== *)
(** * Job documents are canonical ([src/replay/jobs/contracts.py])

    A document reads the same whatever the order of its keys, a built record is a fixed
    point of [replace], and printing and parsing are inverse, so a document's bytes,
    and hence its digest, are determined by its content. *)
From stdpp Require Import list strings.
From S2P Require Import Prelude Wire Json JobDetail ObjectKeys JobContracts JobHistory JobDocuments.

#[local] Arguments as_identifier : simpl never.
#[local] Arguments _hex64 : simpl never.
#[local] Arguments as_text : simpl never.
#[local] Arguments as_job_id : simpl never.
#[local] Arguments as_key : simpl never.
#[local] Arguments as_hex32 : simpl never.
#[local] Arguments as_address : simpl never.
#[local] Arguments own_keys : simpl never.
#[local] Arguments _ns : simpl never.
#[local] Arguments _positive_int : simpl never.
#[local] Arguments as_nonnegative : simpl never.
#[local] Arguments as_period : simpl never.
#[local] Arguments as_outcome : simpl never.
#[local] Arguments as_reason : simpl never.
#[local] Arguments as_detail : simpl never.
#[local] Arguments _optional_json : simpl never.
#[local] Arguments of_str : simpl never.
#[local] Arguments of_int : simpl never.
#[local] Arguments ensure : simpl never.

(** ** Readers *)

(** What a reader returns determines the value it read. *)
Class Reads {A} (f : json → result A) (emb : A → json) : Prop :=
  reads_inv : ∀ v x, f v = Ok x → v = emb x.
(** A reader that key order does not matter to. *)
Class SortFree {A} (f : json → result A) : Prop := sort_free : ∀ v, f (sort_json v) = f v.

Lemma of_str_reads f m : (∀ s x, f s = Ok x → x = s) → Reads (of_str f m) JStr.
Proof. intros H [] x Hx; try done. unfold of_str, of_int in Hx. by apply H in Hx as ->. Qed.
Lemma of_int_reads f m : (∀ n x, f n = Ok x → x = n) → Reads (of_int f m) JInt.
Proof. intros H [] x Hx; try done. unfold of_str, of_int in Hx. by apply H in Hx as ->. Qed.

Lemma guard_same {A B} (m : result A) (s x : B) : (_ ← m; Ok s) = Ok x → x = s.
Proof. intros H. apply bind_ok in H as (_ & _ & H). by injection H. Qed.

#[export] Instance identifier_reads : Reads as_identifier JStr.
Proof. apply of_str_reads. intros s x. unfold _identifier. apply guard_same. Qed.
#[export] Instance hex64_reads : Reads _hex64 JStr.
Proof. apply of_str_reads. intros s x. apply guard_same. Qed.
#[export] Instance text_reads n : Reads (as_text n) JStr.
Proof. apply of_str_reads. intros s x. apply guard_same. Qed.
#[export] Instance job_id_reads : Reads as_job_id JStr.
Proof. apply of_str_reads. intros s x. apply guard_same. Qed.
#[export] Instance key_reads : Reads as_key JStr.
Proof. apply of_str_reads. intros s x. apply guard_same. Qed.
#[export] Instance address_reads : Reads as_address JStr.
Proof. apply of_str_reads. intros s x. apply guard_same. Qed.
#[export] Instance hex32_reads : Reads as_hex32 JStr.
Proof. apply of_str_reads. intros s x. apply guard_same. Qed.
#[export] Instance positive_reads : Reads _positive_int JInt.
Proof. apply of_int_reads. intros s x. apply guard_same. Qed.
#[export] Instance nonnegative_reads : Reads as_nonnegative JInt.
Proof. apply of_int_reads. intros s x. apply guard_same. Qed.
#[export] Instance period_reads : Reads as_period JInt.
Proof. apply of_int_reads. intros s x. apply guard_same. Qed.
#[export] Instance detail_reads ip isp : Reads (as_detail ip isp) json_of_option.
Proof. intros [] x Hx; try done; unfold as_detail in Hx; [by injection Hx as <-|]. by apply guard_same in Hx as ->. Qed.
#[export] Instance outcome_reads : Reads as_outcome (λ t, JStr (status_name t)).
Proof.
  intros v t H. unfold as_outcome in H. apply bind_ok in H as (_ & _ & H). destruct v; try done.
  destruct (list_find _ _) as [[i u]|] eqn:E; [|done]. injection H as ->.
  apply list_find_Some in E as (_ & -> & _). done.
Qed.
#[export] Instance reason_reads o : Reads (as_reason o) json_of_option.
Proof.
  intros v c H. unfold as_reason in H. destruct (is_status o SUCCEEDED).
  - destruct v; try done. by injection H as <-.
  - apply bind_ok in H as (_ & _ & H). destruct v; try done. by apply guard_same in H as ->.
Qed.
#[export] Instance optional_reads : Reads (_optional_json _hex64) json_of_option.
Proof.
  intros v x H. unfold _optional_json in H.
  destruct v; try (by apply bind_ok in H as (? & ? & ?)); [by injection H as <-|].
  apply bind_ok in H as (y & Hy & [= <-]). by apply hex64_reads in Hy.
Qed.

Lemma of_str_sort {A} (f : string → result A) m : SortFree (of_str f m).
Proof. by intros []. Qed.
Lemma of_int_sort {A} (f : Z → result A) m : SortFree (of_int f m).
Proof. by intros []. Qed.
#[export] Hint Extern 0 (SortFree as_identifier) => apply of_str_sort : typeclass_instances.
#[export] Hint Extern 0 (SortFree _hex64) => apply of_str_sort : typeclass_instances.
#[export] Hint Extern 0 (SortFree (as_text _)) => apply of_str_sort : typeclass_instances.
#[export] Hint Extern 0 (SortFree as_job_id) => apply of_str_sort : typeclass_instances.
#[export] Hint Extern 0 (SortFree as_key) => apply of_str_sort : typeclass_instances.
#[export] Hint Extern 0 (SortFree as_address) => apply of_str_sort : typeclass_instances.
#[export] Hint Extern 0 (SortFree as_hex32) => apply of_str_sort : typeclass_instances.
#[export] Hint Extern 0 (SortFree (of_str _ _)) => apply of_str_sort : typeclass_instances.
#[export] Hint Extern 0 (SortFree _positive_int) => apply of_int_sort : typeclass_instances.
#[export] Hint Extern 0 (SortFree as_nonnegative) => apply of_int_sort : typeclass_instances.
#[export] Hint Extern 0 (SortFree as_period) => apply of_int_sort : typeclass_instances.
#[export] Hint Extern 0 (SortFree (of_int _ _)) => apply of_int_sort : typeclass_instances.
#[export] Hint Extern 0 (SortFree (is_version _)) => apply of_int_sort : typeclass_instances.
#[export] Instance uint_sort : SortFree _uint.
Proof. by intros []. Qed.
#[export] Instance detail_sort ip isp : SortFree (as_detail ip isp).
Proof. by intros []. Qed.
#[export] Instance outcome_sort : SortFree as_outcome.
Proof. by intros []. Qed.
#[export] Instance reason_sort o : SortFree (as_reason o).
Proof. intros []; unfold as_reason; by destruct (is_status o SUCCEEDED). Qed.
#[export] Instance optional_sort : SortFree (_optional_json _hex64).
Proof. by intros []. Qed.

(** ** Key order *)
Lemma obj_sort v fields : is_ok (obj (sort_json v) fields) ↔ is_ok (obj v fields).
Proof.
  destruct v; try done. unfold obj. cbn [sort_json].
  rewrite (forallb_perm (in_list fields) _ _ (keys_sort d)).
  assert (forallb (in_list (keys (sort_by binding_leb (map (λ kv, (kv.1, sort_json kv.2)) d)))) fields
          = forallb (in_list (keys d)) fields) as ->.
  { clear. induction fields as [|k l IH]; simpl; [done|]. by rewrite IH, (in_list_perm _ _ _ (keys_sort d)). }
  unfold is_ok. destruct (_ && _); simpl; naive_solver.
Qed.

Lemma obj_error v fields e : obj v fields = Err e → e = ProtocolError "closed schema".
Proof. destruct v; simpl; try naive_solver. destruct (_ && _); simpl; naive_solver. Qed.

(** Only whether the schema closes matters. *)
Lemma obj_bind_sort {A} v fields (k : result A) :
  (_ ← obj (sort_json v) fields; k) = (_ ← obj v fields; k).
Proof.
  pose proof (obj_sort v fields) as H. unfold is_ok in H.
  destruct (obj (sort_json v) fields) as [d|e] eqn:E, (obj v fields) as [d'|e'] eqn:E'; simpl; try done.
  - destruct H as [[]]; eauto; done.
  - destruct H as [_ []]; eauto; done.
  - apply obj_error in E as ->, E' as ->. done.
Qed.

Lemma closed_sort v fields : _closed (sort_json v) fields = _closed v fields.
Proof.
  unfold _closed. pose proof (obj_sort v fields) as H. unfold is_ok in H.
  destruct (obj (sort_json v) fields) as [d|e] eqn:E, (obj v fields) as [d'|e'] eqn:E'; simpl; try done.
  - destruct H as [[]]; eauto; done.
  - destruct H as [_ []]; eauto; done.
  - apply obj_error in E as ->, E' as ->. done.
Qed.

Lemma bind_ext {A B} (m : result A) (k k' : A → result B) :
  (∀ x, k x = k' x) → (m ≫= k) = (m ≫= k').
Proof. intros H. destruct m; simpl; [apply H|done]. Qed.

Lemma bind_assoc {A B C} (m : result A) (k : A → result B) (h : B → result C) :
  ((m ≫= k) ≫= h) = (m ≫= λ x, k x ≫= h).
Proof. by destruct m. Qed.

Lemma jget_sort_bind {A} v k (K : json → result A) :
  (x ← jget (sort_json v) k; K x) = (x ← jget v k; K (sort_json x)).
Proof. rewrite jget_sort. by destruct (jget v k). Qed.

Lemma field_sort {A} (f : json → result A) `{!SortFree f} v k : field (sort_json v) k f = field v k f.
Proof. unfold field. rewrite jget_sort_bind. apply bind_ext. intros x. apply sort_free. Qed.

Lemma field_list_sort {A} m v k (K : list json → result A) :
  (l ← field (sort_json v) k (as_list m); K l) = (l ← field v k (as_list m); K (map sort_json l)).
Proof.
  unfold field. rewrite !bind_assoc, jget_sort_bind. apply bind_ext. by intros [].
Qed.

Lemma mapR_sort {A} (f : json → result A) `{!SortFree f} l : mapR f (map sort_json l) = mapR f l.
Proof. induction l as [|x l IH]; simpl; [done|]. by rewrite sort_free, IH. Qed.

(** Walks two equal parsers of a document and of its sorted form. *)
Ltac sort_step :=
  match goal with
  | |- (jget (sort_json _) _ ≫= _) = _ => rewrite jget_sort_bind; apply bind_ext; intros ?
  | |- (_closed (sort_json _) _ ≫= _) = _ => rewrite closed_sort; apply bind_ext; intros ?
  | |- (field (sort_json _) _ (as_list _) ≫= _) = _ => rewrite field_list_sort; apply bind_ext; intros ?
  | |- (field (sort_json ?v) ?k ?f ≫= _) = _ => rewrite (field_sort f v k); apply bind_ext; intros ?
  | |- (mapR ?f (map sort_json ?l) ≫= _) = _ => rewrite (mapR_sort f l); apply bind_ext; intros ?
  | |- (?f (sort_json ?v) ≫= _) = _ => rewrite (sort_free (f := f) v); apply bind_ext; intros ?
  | |- (?m ≫= _) = (?m ≫= _) => apply bind_ext; intros ?
  | |- ?x = ?x => reflexivity
  end.

#[export] Instance interval_sort : SortFree _interval.
Proof. intros v. unfold _interval. repeat sort_step. Qed.
#[export] Instance window_sort : SortFree _bundle_window.
Proof. intros v. unfold _bundle_window, make_window. repeat sort_step. Qed.
#[export] Instance occurrence_sort : SortFree occurrence_from.
Proof. intros v. unfold occurrence_from, make_occurrence_json. repeat sort_step. Qed.
#[export] Instance resolved_sort : SortFree resolved_from.
Proof. intros v. unfold resolved_from, make_resolved. repeat sort_step. Qed.
#[export] Instance result_sort : SortFree result_from.
Proof. intros v. unfold result_from, make_result. repeat sort_step. Qed.
#[export] Instance object_sort : SortFree object_from.
Proof. intros v. unfold object_from, make_object. repeat sort_step. Qed.
#[export] Instance receipt_sort ip isp : SortFree (receipt_from ip isp).
Proof. intros v. unfold receipt_from, make_receipt. repeat sort_step. Qed.

(** ** The producer keeps its normalizer as it was written *)
Lemma jeq_str_sort v s : jeq_str (sort_json v) s = jeq_str v s.
Proof. by destruct v. Qed.

Lemma check_variable_sort vs name : check_variable (sort_json vs) name = check_variable vs name.
Proof.
  unfold check_variable. rewrite jget_sort_bind. apply bind_ext. intros v. rewrite obj_bind_sort.
  apply bind_ext. intros _. rewrite jget_sort_bind. apply bind_ext. intros t.
  rewrite jget_sort_bind. apply bind_ext. intros x. rewrite !jeq_str_sort.
  by destruct (String.eqb name _), x.
Qed.

Lemma mapR_ext {A B} (f g : A → result B) l : (∀ a, f a = g a) → mapR f l = mapR g l.
Proof. intros H. induction l; simpl; [done|]. by rewrite H, IHl. Qed.

Lemma check_venue_sort entry schema vars : check_venue (sort_json entry) schema vars = check_venue entry schema vars.
Proof.
  unfold check_venue. rewrite obj_bind_sort. apply bind_ext. intros _.
  rewrite jget_sort_bind. apply bind_ext. intros b.
  assert (∀ b, match sort_json b with JStr s => negb (String.eqb s "") | _ => false end
    = match b with JStr s => negb (String.eqb s "") | _ => false end) as -> by (by intros []).
  apply bind_ext. intros _. rewrite jget_sort_bind. apply bind_ext. intros p.
  assert (∀ b f, match sort_json b with JInt n => f n | _ => false end
    = match b with JInt n => f n | _ => false end) as Hint by (by intros []).
  rewrite (Hint p (λ n, 0 <? n)). apply bind_ext. intros _.
  rewrite jget_sort_bind. apply bind_ext. intros config. rewrite obj_bind_sort. apply bind_ext. intros _.
  rewrite jget_sort_bind. apply bind_ext. intros sv. rewrite (Hint sv (λ n, n =? schema)). apply bind_ext. intros _.
  rewrite jget_sort_bind. apply bind_ext. intros vs.
  assert (match obj (sort_json vs) vars with Ok _ => true | Err _ => false end
    = match obj vs vars with Ok _ => true | Err _ => false end) as ->.
  { pose proof (obj_sort vs vars) as H. unfold is_ok in H.
    destruct (obj (sort_json vs) vars), (obj vs vars); try done; exfalso; naive_solver. }
  apply bind_ext. intros _. apply mapR_ext. intros name. apply check_variable_sort.
Qed.

Lemma venue_of_sort e : venue_of (sort_json e) = venue_of e.
Proof.
  destruct e; try done. unfold venue_of. cbn [sort_json]. rewrite dget_sort, dget_map.
  destruct (dget d "venue") as [[]|]; done.
Qed.

#[export] Instance descriptor_sort : SortFree normalizer_descriptor.
Proof.
  intros v. unfold normalizer_descriptor. rewrite obj_bind_sort. apply bind_ext. intros _.
  rewrite jget_sort_bind. apply bind_ext. intros i.
  assert (match sort_json i with JInt n => n =? 1 | _ => false end
    = match i with JInt n => n =? 1 | _ => false end) as -> by (by destruct i).
  apply bind_ext. intros _. rewrite jget_sort_bind. apply bind_ext. intros [| | | | | | |l|]; try done.
  cbn [sort_json].
  assert (map venue_of (map sort_json l) = map venue_of l) as ->
    by (rewrite map_map; apply map_ext, venue_of_sort).
  apply bind_ext. intros _. generalize expected_venues. intros ex. revert ex.
  induction l as [|e l IH]; intros [|x ex]; simpl; try done. by rewrite check_venue_sort, IH.
Qed.

Definition sort_producer (p : Producer) : Producer :=
  mkProducer (sort_json (normalizer p)) (normalized_schema_version p) (materializer_version p)
    (materialization_policy_sha256 p).
Definition sort_receipt (r : BundleReceipt) : BundleReceipt :=
  mkBundleReceipt (bundle_id r) (br_start_ns r) (br_end_ns r) (canonical_window_seconds r)
    (sort_producer (producer r)) (windows r).

Lemma producer_sort v :
  producer_from_document (sort_json v) = (p ← producer_from_document v; Ok (sort_producer p)).
Proof.
  unfold producer_from_document, make_producer. rewrite bind_assoc, closed_sort. apply bind_ext. intros _.
  rewrite bind_assoc, (field_sort (is_version 1)). apply bind_ext. intros _.
  rewrite bind_assoc, jget_sort_bind. apply bind_ext. intros n.
  rewrite bind_assoc, jget_sort_bind. apply bind_ext. intros s.
  rewrite bind_assoc, jget_sort_bind. apply bind_ext. intros m.
  rewrite bind_assoc, jget_sort_bind. apply bind_ext. intros p.
  rewrite (sort_free (f := normalizer_descriptor) n), bind_assoc. apply bind_ext. intros _.
  rewrite (sort_free (f := _positive_int) s), bind_assoc. apply bind_ext. intros sv.
  rewrite (sort_free (f := _positive_int) m), bind_assoc. apply bind_ext. intros mv.
  rewrite (sort_free (f := _hex64) p), bind_assoc. apply bind_ext. intros pv. done.
Qed.

Lemma make_bundle_receipt_sort id s e secs p ws :
  make_bundle_receipt (sort_json id) s e (sort_json secs) (sort_producer p) ws
  = (r ← make_bundle_receipt id s e secs p ws; Ok (sort_receipt r)).
Proof.
  unfold make_bundle_receipt. rewrite bind_assoc, (sort_free (f := as_identifier)). apply bind_ext. intros bid.
  rewrite bind_assoc. apply bind_ext. intros _. rewrite bind_assoc, (sort_free (f := of_int _ _)).
  apply bind_ext. intros [n [[a b] c]]. repeat (rewrite bind_assoc; apply bind_ext; intros ?). done.
Qed.

Lemma bundle_receipt_sort v :
  bundle_receipt_from (sort_json v) = (r ← bundle_receipt_from v; Ok (sort_receipt r)).
Proof.
  unfold bundle_receipt_from. rewrite bind_assoc, closed_sort. apply bind_ext. intros _.
  rewrite bind_assoc, (field_sort (is_version 1)). apply bind_ext. intros _.
  rewrite bind_assoc, (field_sort _interval). apply bind_ext. intros i.
  rewrite bind_assoc, field_list_sort. apply bind_ext. intros ws.
  rewrite bind_assoc, jget_sort_bind. apply bind_ext. intros id.
  rewrite bind_assoc, jget_sort_bind. apply bind_ext. intros secs.
  unfold field at 1. rewrite !bind_assoc, jget_sort_bind. unfold field. rewrite bind_assoc. apply bind_ext. intros pv.
  rewrite producer_sort, !bind_assoc. apply bind_ext. intros p. cbn [mbind result_bind].
  rewrite mapR_sort, bind_assoc by exact _. apply bind_ext. intros wl. apply make_bundle_receipt_sort.
Qed.

(** ** A built record is a fixed point of [replace] *)

(** Takes a successful constructor apart and replaces what it read by what it returned. *)
Ltac taken H :=
  repeat (apply bind_ok in H; let x := fresh "x" in let Hx := fresh "Hx" in destruct H as (x & Hx & H));
  apply Ok_inj in H; subst;
  repeat match goal with
  | Hx : ?f ?v = Ok ?x |- _ => is_var v; pose proof (reads_inv (f := f) v x Hx); subst v
  end.
Ltac rebuilt :=
  repeat match goal with Hx : ?m = Ok _ |- context [?m ≫= _] => rewrite Hx; cbn [mbind result_bind] end;
  try reflexivity.

Lemma make_window_fixed s e c a r w : make_window s e c a r = Ok w → replace_window w = Ok w.
Proof. unfold make_window. intros H. taken H. unfold replace_window, make_window. simpl. rebuilt. Qed.

Lemma make_object_fixed k s n o : make_object k s n = Ok o → replace_object o = Ok o.
Proof. unfold make_object. intros H. taken H. unfold replace_object, make_object. simpl. rebuilt. Qed.

Lemma make_result_fixed a b c d e f g h r : make_result a b c d e f g h = Ok r → replace_result r = Ok r.
Proof. unfold make_result. intros H. taken H. unfold replace_result, make_result. simpl. rebuilt. Qed.

Lemma make_resolved_fixed a b c d bi ji os r : make_resolved a b c d bi ji os = Ok r → replace_resolved r = Ok r.
Proof. unfold make_resolved. intros H. taken H. unfold replace_resolved, make_resolved. simpl. rebuilt. Qed.

Lemma make_receipt_fixed ip isp a b c d e f g h i j k l os t u r :
  make_receipt ip isp a b c d e f g h i j k l os t u = Ok r → replace_receipt ip isp r os = Ok r ∧ objects r = os.
Proof.
  unfold make_receipt. cbv zeta. intros H. taken H. unfold replace_receipt, make_receipt. cbv zeta.
  cbn [re_job_id re_request_sha256 re_submitted_by image_revision final_outcome re_reason_code re_reason_detail
    resolved_sha256 re_bundle_receipt_sha256 re_snapshot_sha256 re_supervisor_identity
    re_strategy_semantic_sha256 objects re_created_at_ns re_finished_at_ns]. split; [|done]. rebuilt.
Qed.

Definition replace_bundle_receipt (r : BundleReceipt) (ws : list BundleWindow) : result BundleReceipt :=
  make_bundle_receipt (JStr (bundle_id r)) (br_start_ns r) (br_end_ns r)
    (JInt (canonical_window_seconds r)) (producer r) ws.

Lemma make_bundle_fixed id s e secs p ws r :
  make_bundle_receipt id s e secs p ws = Ok r → replace_bundle_receipt r ws = Ok r ∧ windows r = ws.
Proof.
  unfold make_bundle_receipt. intros H. apply bind_ok in H as (bid & Hid & H).
  apply bind_ok in H as ([] & Hn & H). apply bind_ok in H as ([n [[a b] c]] & Hw & H).
  taken H. destruct secs; try done. simpl in Hw. apply bind_ok in Hw as (z & Hw & [= -> ->]).
  unfold replace_bundle_receipt, make_bundle_receipt. simpl. split; [|done]. rebuilt.
  unfold of_int. rewrite Hw. cbn [mbind result_bind]. rebuilt.
Qed.

Lemma make_producer_fixed n s m p pr : make_producer n s m p = Ok pr →
  make_producer (normalizer pr) (JInt (normalized_schema_version pr)) (JInt (materializer_version pr))
    (JStr (materialization_policy_sha256 pr)) = Ok pr.
Proof.
  unfold make_producer. intros H. apply bind_ok in H as (z & Hz & H). taken H. simpl. rewrite Hz. simpl. rebuilt.
Qed.

(** Occurrences are built from checked values. *)
Definition replace_occurrence (o : Occurrence) : result Occurrence :=
  make_occurrence_json (JStr (run_id o)) (start_ns o) (end_ns o) (JStr (manifest_key o))
    (JStr (manifest_sha256 o)) (JStr (report_key o)) (JStr (report_sha256 o)).

Lemma make_occurrence_fixed a s e b c d f o : make_occurrence_json a s e b c d f = Ok o → replace_occurrence o = Ok o.
Proof. unfold make_occurrence_json. intros H. taken H. unfold replace_occurrence, make_occurrence_json.
  cbn [run_id start_ns end_ns manifest_key manifest_sha256 report_key report_sha256]. rebuilt. Qed.

(** [replace] on decoded fields is the construction of [JobHistory]. *)
Lemma replace_occurrence_make o : replace_occurrence o = make_occurrence o.
Proof.
  unfold replace_occurrence, make_occurrence_json, make_occurrence, as_text, as_key, _hex64, of_str.
  destruct o as [r s e mk ms rk rs]. cbn [run_id start_ns end_ns manifest_key manifest_sha256 report_key report_sha256].
  rewrite !bind_assoc. apply bind_ext. intros _. cbn [mbind result_bind]. apply bind_ext. intros _.
  rewrite bind_assoc. apply bind_ext. intros _. cbn [mbind result_bind]. rewrite bind_assoc. apply bind_ext. intros _.
  cbn [mbind result_bind]. rewrite bind_assoc. apply bind_ext. intros _. cbn [mbind result_bind].
  rewrite bind_assoc. apply bind_ext. intros _. done.
Qed.

(** ** Documents read back *)
Lemma uint_str n : u64 n → _uint (JStr (str_int n)) = Ok n.
Proof.
  intros H. unfold _uint. assert (uint (JStr (str_int n)) max_u64 = Ok n) as ->; [|done].
  apply uint_spec; [done|]. unfold u64, max_u64 in *. split; [lia|done].
Qed.

Lemma closed_keys d fields :
  forallb (in_list fields) (keys d) && forallb (in_list (keys d)) fields = true → _closed (JObj d) fields = Ok ().
Proof. intros H. unfold _closed, obj. by rewrite H. Qed.

Lemma ensure_true b m : b = true → ensure b m = Ok ().
Proof. by intros ->. Qed.

(** Evaluates a parser on a literal document. *)
Ltac reading :=
  first
    [ rewrite closed_keys by reflexivity
    | match goal with
      | |- context [field (JObj ?d) ?k ?f] =>
          change (field (JObj d) k f) with (match dget d k with Some v => f v | None => Err KeyError end);
          cbn [dget String.eqb Ascii.eqb Bool.eqb]
      | |- context [jget (JObj ?d) ?k] =>
          change (jget (JObj d) k) with (match dget d k with Some v => Ok v | None => Err KeyError end);
          cbn [dget String.eqb Ascii.eqb Bool.eqb]
      | |- context [_uint (JStr (str_int ?n))] => rewrite (uint_str n) by done
      | |- context [is_version ?n (JInt ?n)] =>
          change (is_version n (JInt n)) with (ensure (n =? n) "version"); rewrite Z.eqb_refl;
          rewrite (ensure_true true) by done
      end ];
  cbn [mbind result_bind].

Lemma interval_read a b : u64 a → u64 b → a < b → _interval (_interval_document (a, b)) = Ok (a, b).
Proof.
  intros Ha Hb Hab. unfold _interval, _interval_document. simpl fst. simpl snd. repeat reading.
  apply Z.ltb_lt in Hab. by rewrite Hab.
Qed.

Lemma ns_ok n m u : _ns n m = Ok u → u64 n.
Proof.
  unfold _ns, ensure, _require. intros H. destruct u. apply guard_or_ok, andb_true_iff in H as [H1 H2].
  apply Z.leb_le in H1. apply Z.ltb_lt in H2. unfold u64. lia.
Qed.

Lemma window_read w : replace_window w = Ok w → _bundle_window (window_document w) = Ok w.
Proof.
  intros H. unfold replace_window in H. unfold _bundle_window, window_document.
  assert (u64 (window_start_ns w) ∧ u64 (window_end_ns w)) as [Hs He].
  { unfold make_window in H. apply bind_ok in H as (u1 & H1%ns_ok & H). by apply bind_ok in H as (u2 & H2%ns_ok & H). }
  repeat reading. exact H.
Qed.

Lemma object_read o : replace_object o = Ok o → object_from (object_document o) = Ok o.
Proof. intros H. unfold object_from, object_document. repeat reading. exact H. Qed.

Lemma check_interval_ok a b u : _check_interval (a, b) = Ok u → u64 a ∧ u64 b ∧ a < b.
Proof.
  unfold _check_interval, ensure, _require, u64. intros H. destruct u. apply guard_or_ok in H.
  rewrite !andb_true_iff, !Z.leb_le, !Z.ltb_lt in H. lia.
Qed.

Lemma occurrence_read o : replace_occurrence o = Ok o → occurrence_from (occurrence_document o) = Ok o.
Proof.
  intros H. unfold occurrence_from, occurrence_document.
  assert (u64 (start_ns o) ∧ u64 (end_ns o)) as [Hs He].
  { unfold replace_occurrence, make_occurrence_json in H. apply bind_ok in H as (? & _ & H).
    apply bind_ok in H as (u & (H1 & H2 & _)%check_interval_ok & H). done. }
  repeat reading. exact H.
Qed.

Lemma mapR_read {A} (from : json → result A) (doc : A → json) l :
  Forall (λ a, from (doc a) = Ok a) l → mapR from (map doc l) = Ok l.
Proof. induction 1 as [|a l Ha _ IH]; simpl; [done|]. by rewrite Ha; simpl; rewrite IH. Qed.

Lemma result_read r : replace_result r = Ok r → result_from (result_document r) = Ok r.
Proof. intros H. unfold result_from, result_document. repeat reading. exact H. Qed.

Lemma resolved_read r doc : replace_resolved r = Ok r → Forall (λ o, replace_occurrence o = Ok o) (occurrences r) →
  resolved_document r = Ok doc → resolved_from doc = Ok r.
Proof.
  intros H Hos Hd. unfold resolved_document in Hd. apply bind_ok in Hd as (w & _ & Hd). apply Ok_inj in Hd as <-.
  assert (∃ u1 u2, _check_interval (bundle_interval r) = Ok u1 ∧ _check_interval (job_interval r) = Ok u2)
    as (u1 & u2 & H1 & H2).
  { unfold replace_resolved, make_resolved in H. do 4 (apply bind_ok in H as (? & _ & H)).
    apply bind_ok in H as (? & H1 & H). apply bind_ok in H as (? & H2 & _). eauto. }
  unfold replace_resolved in H. destruct r as [a b c d [s e] [s' e'] os]. simpl in H, H1, H2, Hos.
  apply check_interval_ok in H1 as (? & ? & ?), H2 as (? & ? & ?).
  unfold resolved_from. cbn [rj_job_id rj_request_sha256 rj_bundle_id rj_window_seconds bundle_interval job_interval occurrences].
  repeat reading. unfold as_list. cbn [mbind result_bind].
  rewrite mapR_read by (eapply Forall_impl; [exact Hos|]; apply occurrence_read). repeat reading.
  rewrite interval_read by done. cbn [mbind result_bind]. repeat reading. rewrite interval_read by done. exact H.
Qed.

Lemma receipt_read ip isp r : replace_receipt ip isp r (objects r) = Ok r →
  Forall (λ o, replace_object o = Ok o) (objects r) → receipt_from ip isp (receipt_document r) = Ok r.
Proof.
  intros H Hos. assert (u64 (re_created_at_ns r) ∧ u64 (re_finished_at_ns r)) as [Hc Hf].
  { unfold replace_receipt, make_receipt in H. do 17 (apply bind_ok in H as (? & _ & H)).
    apply bind_ok in H as (u1 & H1%ns_ok & H). by apply bind_ok in H as (u2 & H2%ns_ok & H). }
  unfold receipt_from, receipt_document. repeat reading. unfold as_list. cbn [mbind result_bind].
  rewrite mapR_read by (eapply Forall_impl; [exact Hos|]; apply object_read). repeat reading. exact H.
Qed.

Definition replace_producer (p : Producer) : result Producer :=
  make_producer (normalizer p) (JInt (normalized_schema_version p)) (JInt (materializer_version p))
    (JStr (materialization_policy_sha256 p)).

Lemma producer_read p : replace_producer p = Ok p → producer_from_document (producer_document p) = Ok p.
Proof. intros H. unfold producer_from_document, producer_document. repeat reading. exact H. Qed.

(** An aligned interval that its windows cover has their bounds. *)
Lemma aligned_bounds start end_ n first last starts :
  window_bounds start end_ n = Ok (first, last, starts) → first = start → last = end_ →
  0 < seconds n ∧ start < end_ ∧ ∃ k, end_ = start + seconds n * Z.of_nat (S k) ∧
    starts = map (λ i, start + seconds n * Z.of_nat i) (seq 0 (S k)).
Proof.
  unfold window_bounds, _window_period. intros H Hf Hl. apply ensure_bind in H as [Hlt%Z.ltb_lt H].
  apply bind_ok in H as (period & Hp & H). apply ensure_bind in Hp as [[Hn%Z.ltb_lt Hd]%andb_true_iff [= <-]].
  injection H as Ef El Es. assert (0 < seconds n) as Hpos by (unfold seconds; lia).
  split; [done|]. split; [done|]. set (p := seconds n) in *.
  rewrite Hf in Ef. rewrite Hl in El.
  assert (end_ = - (- end_ / p) * p) as E1 by done. assert (start = start / p * p) as E2 by done.
  set (m := - (- end_ / p) - start / p). assert (0 < m) as Hm by (unfold m; nia).
  exists (Z.to_nat (m - 1)). replace (Z.of_nat (S (Z.to_nat (m - 1)))) with m by lia.
  split; [unfold m; nia|]. rewrite <- Es. unfold py_range. rewrite <- E2, <- E1.
  replace (S (Z.to_nat (m - 1))) with (Z.to_nat m) by lia. f_equal. f_equal. f_equal.
  assert (end_ - start = m * p) as -> by (unfold m; nia).
  rewrite <- Z.mul_opp_l, Z.div_mul by lia. lia.
Qed.

Lemma bundle_bounds r u :
  replace_bundle_receipt r (windows r) = Ok u → Forall (λ w, replace_window w = Ok w) (windows r) →
  u64 (br_start_ns r) ∧ u64 (br_end_ns r) ∧ br_start_ns r < br_end_ns r.
Proof.
  unfold replace_bundle_receipt, make_bundle_receipt. intros H Hws.
  apply bind_ok in H as (bid & _ & H). apply bind_ok in H as (_ & _ & H).
  apply bind_ok in H as ([n [[first last] starts]] & Hb & H). unfold of_int in Hb.
  apply bind_ok in Hb as (b & Hb & [= <- ->]).
  apply ensure_bind in H as [[Hf%Z.eqb_eq Hl%Z.eqb_eq]%andb_true_iff H].
  apply bind_ok in H as (period & Hp & H). apply ensure_bind in Hp as [_ [= <-]].
  apply ensure_bind in H as [[Hs%bool_decide_eq_true He]%andb_true_iff _].
  destruct (aligned_bounds _ _ _ _ _ _ Hb Hf Hl) as (Hpos & Hlt & k & Hk & Hst).
  set (p := seconds (canonical_window_seconds r)) in *. split_and!; [| |done].
  - destruct (windows r) as [|w ws]; [by rewrite Hst in Hs|]. rewrite Hst in Hs. injection Hs as Hw _.
    inversion Hws as [|? ? Hrw _]; subst. unfold replace_window, make_window in Hrw.
    apply bind_ok in Hrw as (u1 & H1%ns_ok & _). replace (br_start_ns r) with (window_start_ns w) by lia. done.
  - assert (∃ w, w ∈ windows r ∧ window_start_ns w = br_start_ns r + p * Z.of_nat k) as (w & Hin & Ew).
    { assert (br_start_ns r + p * Z.of_nat k ∈ map window_start_ns (windows r)) as Hin.
      { rewrite Hs, Hst. apply list_elem_of_fmap. exists k. split; [done|]. apply elem_of_seq. lia. }
      apply list_elem_of_fmap in Hin as (w & -> & Hin). eauto. }
    apply forallb_Forall in He. rewrite Forall_forall in He, Hws.
    specialize (He _ Hin). apply Z.eqb_eq in He. specialize (Hws _ Hin).
    unfold replace_window, make_window in Hws. apply bind_ok in Hws as (u1 & _ & Hws).
    apply bind_ok in Hws as (u2 & H2%ns_ok & _).
    replace (br_end_ns r) with (window_end_ns w); [done|]. unfold p in *. lia.
Qed.

Lemma bundle_read r : replace_bundle_receipt r (windows r) = Ok r → replace_producer (producer r) = Ok (producer r) →
  Forall (λ w, replace_window w = Ok w) (windows r) → bundle_receipt_from (_bundle_receipt_document r) = Ok r.
Proof.
  intros H Hp Hws. destruct (bundle_bounds _ _ H Hws) as (Hs & He & Hlt).
  unfold bundle_receipt_from, _bundle_receipt_document. repeat reading. rewrite interval_read by done.
  cbn [mbind result_bind]. repeat reading. unfold as_list. cbn [mbind result_bind]. repeat reading.
  rewrite producer_read by done. cbn [mbind result_bind].
  rewrite mapR_read by (eapply Forall_impl; [exact Hws|]; apply window_read). exact H.
Qed.

(** [replace] returns the record it was given. *)
Lemma reads_same {A} (f : json → result A) emb `{!Reads f emb} (a x : A) :
  (∀ a b, emb a = emb b → a = b) → f (emb a) = Ok x → x = a.
Proof. intros Hinj H. apply reads_inv in H. by apply Hinj. Qed.

Lemma json_of_option_inj a b : json_of_option a = json_of_option b → a = b.
Proof. destruct a, b; simpl; congruence. Qed.
Lemma status_json_inj a b : JStr (status_name a) = JStr (status_name b) → a = b.
Proof. intros [= H]. by destruct a, b. Qed.

(** Takes a [replace] apart, keeping only that each field is read back. *)
Ltac same H :=
  repeat (apply bind_ok in H; let x := fresh "x" in let Hx := fresh "Hx" in destruct H as (x & Hx & H));
  apply Ok_inj in H; subst;
  repeat match goal with
  | Hx : ?f (JStr ?a) = Ok ?x |- _ => pose proof (reads_same f JStr a x ltac:(congruence) Hx); clear Hx; subst
  | Hx : ?f (JInt ?a) = Ok ?x |- _ => pose proof (reads_same f JInt a x ltac:(congruence) Hx); clear Hx; subst
  | Hx : ?f (json_of_option ?a) = Ok ?x |- _ =>
      pose proof (reads_same f json_of_option a x json_of_option_inj Hx); clear Hx; subst
  end.

Lemma replace_window_same w w' : replace_window w = Ok w' → w' = w.
Proof. unfold replace_window, make_window. intros H. same H. by destruct w. Qed.
Lemma replace_object_same o o' : replace_object o = Ok o' → o' = o.
Proof. unfold replace_object, make_object. intros H. same H. by destruct o. Qed.
Lemma replace_result_same r r' : replace_result r = Ok r' → r' = r.
Proof. unfold replace_result, make_result. intros H. same H. by destruct r. Qed.
Lemma replace_resolved_same r r' : replace_resolved r = Ok r' → r' = r.
Proof. unfold replace_resolved, make_resolved. intros H. same H. by destruct r. Qed.

Lemma replace_receipt_same ip isp r os r' : replace_receipt ip isp r os = Ok r' → os = objects r → r' = r.
Proof.
  unfold replace_receipt, make_receipt. intros H ->. apply bind_ok in H as (a & Ha & H).
  apply bind_ok in H as (b & Hb & H). apply bind_ok in H as (c & Hc & H). apply bind_ok in H as (d & Hd & H).
  apply bind_ok in H as (o & Ho & H). apply (reads_same as_outcome _ _ _ status_json_inj) in Ho as ->.
  same H. by destruct r.
Qed.

Lemma replace_bundle_same r ws r' : replace_bundle_receipt r ws = Ok r' → ws = windows r → r' = r.
Proof.
  unfold replace_bundle_receipt, make_bundle_receipt. intros H ->. apply bind_ok in H as (a & Ha & H).
  apply bind_ok in H as (_ & _ & H). apply bind_ok in H as ([n [[b c] d]] & Hb & H). unfold of_int in Hb.
  apply bind_ok in Hb as (z & _ & [= <- ->]). same H. by destruct r.
Qed.

Lemma mapR_same {A} (f : A → result A) l k : (∀ a b, f a = Ok b → b = a) → mapR f l = Ok k →
  k = l ∧ Forall (λ a, f a = Ok a) l.
Proof.
  intros Hf H. apply mapR_ok in H. induction H as [|a b l k Hab _ IH]; [done|].
  pose proof (Hf _ _ Hab) as ->. destruct IH as [-> ?]. split; [done|]. by constructor.
Qed.

(** ** Printing and parsing *)
Section Codec.
Context (loads : list Byte.byte → option json) (dumps : json → list Byte.byte).
Context `{!JsonCodec loads dumps}.

Lemma encodable_sort v : all_encodable (sort_json v) = all_encodable v.
Proof.
  induction v as [| | | | | | |l IH|d IH] using json_nested_ind; cbn [sort_json all_encodable]; try done.
  - induction IH as [|x l Hx _ IH]; simpl; [done|]. by rewrite Hx, IH.
  - rewrite (forallb_perm _ _ _ (sort_by_perm _ _)).
    induction IH as [|[k x] d Hx _ IH]; simpl in *; [done|]. by rewrite Hx, IH.
Qed.

(** Equal up to key order, equal bytes. *)
Lemma encoded_sort v v' : sort_json v = sort_json v' → encoded dumps v = encoded dumps v'.
Proof.
  intros H. unfold encoded. rewrite <- (encodable_sort v), <- (encodable_sort v'), H.
  pose proof (@dumps_sort loads dumps _ v) as E. pose proof (@dumps_sort loads dumps _ v') as E'.
  rewrite <- E, <- E', H. done.
Qed.

Lemma decode_encoded v raw limit :
  encoded dumps v = Ok raw → float_free v = true → Z.of_nat (length raw) ≤ limit →
  _decode loads raw limit = Ok (sort_json v).
Proof.
  unfold encoded, _decode, decode_json. intros H Hf Hl. destruct (all_encodable v) eqn:Ha; [|done].
  injection H as <-. apply Z.leb_le in Hl. rewrite ensure_true by done. cbn [mbind result_bind].
  unfold require. rewrite Hl. cbn [mbind result_bind]. by rewrite loads_dumps.
Qed.

Lemma canonical_ok raw v : encoded dumps v = Ok raw → _canonical dumps raw v = Ok ().
Proof. intros H. unfold _canonical. rewrite H. cbn [mbind result_bind]. by rewrite ensure_true by (by apply bool_decide_true). Qed.

Lemma canonical_inv raw v u : _canonical dumps raw v = Ok u → encoded dumps v = Ok raw.
Proof.
  unfold _canonical. intros H. apply bind_ok in H as (b & -> & H). destruct u.
  apply ensure_ok in H. by apply bool_decide_eq_true in H as ->.
Qed.

Lemma decode_limit raw limit v : _decode loads raw limit = Ok v → Z.of_nat (length raw) ≤ limit.
Proof. unfold _decode. intros H. by apply ensure_bind in H as [H%Z.leb_le _]. Qed.
End Codec.

Lemma interval_float i : float_free (_interval_document i) = true.
Proof. done. Qed.
Lemma option_float o : float_free (json_of_option o) = true.
Proof. by destruct o. Qed.
Lemma map_float {A} (doc : A → json) l : (∀ a, float_free (doc a) = true) → float_free (JArr (map doc l)) = true.
Proof. intros H. cbn [float_free]. induction l; simpl; [done|]. by rewrite H. Qed.

(** What a parser builds is a fixed point of [replace]. *)
Lemma mapR_built {A} (f : json → result A) (P : A → Prop) l k :
  (∀ v a, f v = Ok a → P a) → mapR f l = Ok k → Forall P k.
Proof.
  intros Hf H. apply mapR_ok in H. induction H as [|v a l k Ha _ IH]; constructor; eauto.
Qed.

Lemma window_built v w : _bundle_window v = Ok w → replace_window w = Ok w.
Proof.
  unfold _bundle_window. intros H. do 6 (apply bind_ok in H as (? & _ & H)).
  by apply make_window_fixed in H.
Qed.
Lemma object_built v o : object_from v = Ok o → replace_object o = Ok o.
Proof.
  unfold object_from. intros H. do 4 (apply bind_ok in H as (? & _ & H)). by apply make_object_fixed in H.
Qed.
Lemma occurrence_built v o : occurrence_from v = Ok o → replace_occurrence o = Ok o.
Proof.
  unfold occurrence_from. intros H. do 10 (apply bind_ok in H as (? & _ & H)). by apply make_occurrence_fixed in H.
Qed.
Lemma result_built v r : result_from v = Ok r → replace_result r = Ok r.
Proof.
  unfold result_from. intros H. do 10 (apply bind_ok in H as (? & _ & H)). by apply make_result_fixed in H.
Qed.
Lemma resolved_built v r : resolved_from v = Ok r →
  replace_resolved r = Ok r ∧ Forall (λ o, replace_occurrence o = Ok o) (occurrences r).
Proof.
  unfold resolved_from. intros H. do 3 (apply bind_ok in H as (? & _ & H)).
  apply bind_ok in H as (os & Hos & H). do 6 (apply bind_ok in H as (? & _ & H)).
  pose proof (make_resolved_fixed _ _ _ _ _ _ _ _ H) as Hr. split; [done|].
  assert (occurrences r = os) as ->.
  { unfold make_resolved in H. repeat (apply bind_ok in H as (? & _ & H)). by injection H as <-. }
  eapply mapR_built; [|exact Hos]. apply occurrence_built.
Qed.
Lemma receipt_built ip isp v r : receipt_from ip isp v = Ok r →
  replace_receipt ip isp r (objects r) = Ok r ∧ Forall (λ o, replace_object o = Ok o) (objects r).
Proof.
  unfold receipt_from. intros H. do 3 (apply bind_ok in H as (? & _ & H)).
  apply bind_ok in H as (os & Hos & H). do 14 (apply bind_ok in H as (? & _ & H)).
  apply make_receipt_fixed in H as [Hr ->]. split; [done|]. eapply mapR_built; [|exact Hos]. apply object_built.
Qed.
Lemma bundle_built v r : bundle_receipt_from v = Ok r →
  replace_bundle_receipt r (windows r) = Ok r ∧ Forall (λ w, replace_window w = Ok w) (windows r).
Proof.
  unfold bundle_receipt_from. intros H. do 7 (apply bind_ok in H as (? & _ & H)).
  apply bind_ok in H as (ws & Hws & H).
  apply make_bundle_fixed in H as [Hr ->]. split; [done|]. eapply mapR_built; [|exact Hws]. apply window_built.
Qed.

Lemma bundle_float r : float_free (normalizer (producer r)) = true → float_free (_bundle_receipt_document r) = true.
Proof.
  intros H. assert (float_free (JArr (map window_document (windows r))) = true) as Hw by (by apply map_float).
  unfold _bundle_receipt_document, producer_document. cbn [float_free forallb snd] in Hw |- *. rewrite H, Hw. done.
Qed.
Lemma resolved_float r doc : resolved_document r = Ok doc → float_free doc = true.
Proof.
  unfold resolved_document. intros H. apply bind_ok in H as (w & _ & [= <-]).
  assert (float_free (JArr (map occurrence_document (occurrences r))) = true) as Ho by (by apply map_float).
  cbn [float_free forallb snd] in Ho |- *. by rewrite Ho.
Qed.
Lemma receipt_float r : float_free (receipt_document r) = true.
Proof.
  assert (float_free (JArr (map object_document (objects r))) = true) as Ho by (by apply map_float).
  unfold receipt_document. cbn [float_free forallb snd] in Ho |- *. by rewrite Ho, !option_float.
Qed.

Lemma bundle_document_sort r :
  sort_json (_bundle_receipt_document (sort_receipt r)) = sort_json (_bundle_receipt_document r).
Proof.
  unfold _bundle_receipt_document, producer_document. destruct r as [id s e secs [n a b c] ws].
  cbn [sort_receipt sort_producer bundle_id br_start_ns br_end_ns canonical_window_seconds producer windows
    normalizer normalized_schema_version materializer_version materialization_policy_sha256 sort_json map fst snd].
  by rewrite sort_json_idem.
Qed.

(** The windows of a receipt: consecutive periods from its start to its end. *)
Definition covers (r : BundleReceipt) : Prop :=
  let period := seconds (canonical_window_seconds r) in
  0 < period ∧
  (∃ k, br_end_ns r = br_start_ns r + period * Z.of_nat (S k) ∧
    map window_start_ns (windows r) = map (λ i, br_start_ns r + period * Z.of_nat i) (seq 0 (S k))) ∧
  Forall (λ w, window_end_ns w = window_start_ns w + period) (windows r) ∧
  NoDup (map derivative_address (windows r)).

Lemma bundle_covers r u : replace_bundle_receipt r (windows r) = Ok u → covers r.
Proof.
  unfold replace_bundle_receipt, make_bundle_receipt, covers. intros H.
  apply bind_ok in H as (bid & _ & H). apply bind_ok in H as (_ & _ & H).
  apply bind_ok in H as ([n [[first last] starts]] & Hb & H). unfold of_int in Hb.
  apply bind_ok in Hb as (b & Hb & [= <- ->]).
  apply ensure_bind in H as [[Hf%Z.eqb_eq Hl%Z.eqb_eq]%andb_true_iff H].
  apply bind_ok in H as (period & Hp & H). apply ensure_bind in Hp as [_ [= <-]].
  apply ensure_bind in H as [[Hs%bool_decide_eq_true He]%andb_true_iff H].
  apply ensure_bind in H as [Hn%bool_decide_eq_true _].
  destruct (aligned_bounds _ _ _ _ _ _ Hb Hf Hl) as (Hpos & _ & k & Hk & Hst).
  split; [done|]. split; [exists k; by rewrite Hs|]. split; [|done].
  apply forallb_Forall in He. eapply Forall_impl; [exact He|]. intros w Hw. by apply Z.eqb_eq.
Qed.

(** A bundle receipt has one byte form: what [bundle_receipt_bytes] prints within the
    size limit, [parse_bundle_receipt] reads back as the same receipt (with the keys
    of its normalizer sorted), and bytes that parse are exactly the bytes printed for
    the receipt they parse to; its windows are consecutive periods that cover its
    interval exactly, with distinct derivatives. *)
Theorem bundle_receipt_roundtrip loads dumps (codec : JsonCodec loads dumps) r raw :
  (replace_producer (producer r) = Ok (producer r) → float_free (normalizer (producer r)) = true →
     bundle_receipt_bytes dumps r = Ok raw → Z.of_nat (length raw) ≤ MAX_BUNDLE_RECEIPT_BYTES →
     parse_bundle_receipt loads dumps raw = Ok (sort_receipt r)) ∧
  (parse_bundle_receipt loads dumps raw = Ok r → bundle_receipt_bytes dumps r = Ok raw) ∧
  (bundle_receipt_bytes dumps r = Ok raw → covers r).
Proof.
  assert (bundle_receipt_bytes dumps r = Ok raw → replace_bundle_receipt r (windows r) = Ok r ∧
    Forall (λ w, replace_window w = Ok w) (windows r) ∧ encoded dumps (_bundle_receipt_document r) = Ok raw) as Hb.
  { unfold bundle_receipt_bytes. intros H. apply bind_ok in H as (ws & Hws & H).
    apply mapR_same in Hws as [-> Hws]; [|apply replace_window_same].
    apply bind_ok in H as (r' & Hr & H). change (replace_bundle_receipt r (windows r) = Ok r') in Hr.
    pose proof (replace_bundle_same _ _ _ Hr eq_refl) as ->. done. }
  split_and!.
  - intros Hp Hf H Hl. destruct (Hb H) as (Hr & Hws & He). unfold parse_bundle_receipt.
    rewrite (decode_encoded loads dumps _ _ _ He (bundle_float r Hf) Hl). cbn [mbind result_bind].
    rewrite bundle_receipt_sort, bundle_read by done. cbn [mbind result_bind].
    by rewrite canonical_ok by (rewrite <- He; apply (encoded_sort loads dumps), bundle_document_sort).
  - unfold parse_bundle_receipt. intros H. apply bind_ok in H as (v & _ & H).
    apply bind_ok in H as (r' & Hr & H). apply bind_ok in H as (u & Hc%canonical_inv & H). injection H as ->.
    apply bundle_built in Hr as [Hr Hws]. unfold bundle_receipt_bytes.
    rewrite (proj2 (mapR_ok replace_window (windows r) (windows r))) by (by apply Forall_Forall2_diag).
    cbn [mbind result_bind]. change (make_bundle_receipt _ _ _ _ _ _) with (replace_bundle_receipt r (windows r)).
    by rewrite Hr.
  - intros H. destruct (Hb H) as (Hr & _). by eapply bundle_covers.
Qed.

(** C30. Resolved jobs, results and job receipts have one byte form: a built document is
    printed to some bytes within its size limit if and only if those bytes parse to
    it. *)
Theorem job_documents_roundtrip isprintable isspace loads dumps (codec : JsonCodec loads dumps) raw :
  (∀ r, job_result_bytes dumps r = Ok raw ∧ Z.of_nat (length raw) ≤ MAX_JOB_RESULT_BYTES
        ↔ parse_job_result loads dumps raw = Ok r) ∧
  (∀ r, (resolved_job_bytes dumps r = Ok raw ∧ Z.of_nat (length raw) ≤ MAX_RESOLVED_JOB_BYTES ∧
         Forall (λ o, make_occurrence o = Ok o) (occurrences r))
        ↔ parse_resolved_job loads dumps raw = Ok r) ∧
  (∀ r, job_receipt_bytes dumps isprintable isspace r = Ok raw
        ↔ parse_job_receipt loads dumps isprintable isspace raw = Ok r).
Proof.
  split_and!; intros r; split.
  - intros [H Hl]. unfold job_result_bytes in H. apply bind_ok in H as (r' & Hr & He).
    pose proof (replace_result_same _ _ Hr) as ->. unfold parse_job_result.
    rewrite (decode_encoded loads dumps _ _ _ He eq_refl Hl). cbn [mbind result_bind].
    rewrite (sort_free (f := result_from)), result_read by done. cbn [mbind result_bind]. by rewrite canonical_ok.
  - unfold parse_job_result. intros H. apply bind_ok in H as (v & Hd%decode_limit & H).
    apply bind_ok in H as (r' & Hr & H). apply bind_ok in H as (u & Hc%canonical_inv & H). injection H as ->.
    split; [|done]. unfold job_result_bytes. by rewrite (result_built _ _ Hr).
  - intros (H & Hl & Hos). unfold resolved_job_bytes in H. apply bind_ok in H as (r' & Hr & H).
    apply bind_ok in H as (doc & Hdoc & He). pose proof (replace_resolved_same _ _ Hr) as ->.
    unfold parse_resolved_job. rewrite (decode_encoded loads dumps _ _ _ He (resolved_float _ _ Hdoc) Hl).
    cbn [mbind result_bind]. rewrite (sort_free (f := resolved_from)), (resolved_read r doc) by
      (done || (eapply Forall_impl; [exact Hos|]; intros o Ho; by rewrite replace_occurrence_make)).
    cbn [mbind result_bind]. rewrite Hdoc. cbn [mbind result_bind]. by rewrite canonical_ok.
  - unfold parse_resolved_job. intros H. apply bind_ok in H as (v & Hd%decode_limit & H).
    apply bind_ok in H as (r' & Hr & H). apply bind_ok in H as (doc & Hdoc & H).
    apply bind_ok in H as (u & Hc%canonical_inv & H). injection H as ->.
    apply resolved_built in Hr as [Hr Hos]. split_and!; [|done|].
    + unfold resolved_job_bytes. rewrite Hr. cbn [mbind result_bind]. by rewrite Hdoc.
    + eapply Forall_impl; [exact Hos|]. intros o Ho. by rewrite <- replace_occurrence_make.
  - intros H. unfold job_receipt_bytes in H. apply bind_ok in H as (os & Hos & H).
    apply mapR_same in Hos as [-> Hos]; [|apply replace_object_same].
    apply bind_ok in H as (r' & Hr & H). pose proof (replace_receipt_same _ _ _ _ _ Hr eq_refl) as ->.
    apply bind_ok in H as (data & He & H). apply ensure_bind in H as [Hl%Z.leb_le [= ->]].
    unfold parse_job_receipt. rewrite (decode_encoded loads dumps _ _ _ He (receipt_float r) Hl).
    cbn [mbind result_bind]. rewrite (sort_free (f := receipt_from isprintable isspace)), receipt_read by done.
    cbn [mbind result_bind]. by rewrite canonical_ok.
  - unfold parse_job_receipt. intros H. apply bind_ok in H as (v & Hd%decode_limit & H).
    apply bind_ok in H as (r' & Hr & H). apply bind_ok in H as (u & Hc%canonical_inv & H). injection H as ->.
    apply receipt_built in Hr as [Hr Hos]. unfold job_receipt_bytes.
    rewrite (proj2 (mapR_ok replace_object (objects r) (objects r))) by (by apply Forall_Forall2_diag).
    cbn [mbind result_bind]. rewrite Hr. cbn [mbind result_bind]. rewrite Hc. cbn [mbind result_bind].
    apply Z.leb_le in Hd. by rewrite ensure_true.
Qed.

(** ** A demonstration *)
Definition demo_hex : string := String.concat "" (replicate 64 "a").
Definition demo_variable (n : Z) : json := JObj [("type", JStr "unsigned"); ("value", JInt n)].
Definition demo_venue (name : string) (schema : Z) (variables : dict) : json :=
  JObj [("venue", JStr name); ("bundle_id", JStr "b"); ("parser_version", JInt 1);
        ("config", JObj [("schema_version", JInt schema); ("variables", JObj variables)])].
Definition demo_scales : dict := [("price_scale", demo_variable 4); ("quantity_scale", demo_variable 2)].
Definition demo_normalizer : json :=
  JObj [("venues", JArr [demo_venue "kalshi" 2 demo_scales; demo_venue "limitless" 1 demo_scales;
                         demo_venue "polymarket" 1
                           (("accept_additive_fields", JObj [("type", JStr "boolean"); ("value", JBool true)])
                            :: demo_scales)]);
        ("identity_version", JInt 1)].
Definition demo_producer : Producer := mkProducer demo_normalizer 1 1 demo_hex.
Definition demo_receipt : BundleReceipt :=
  mkBundleReceipt "bundle-1" 0 3600000000000 3600 demo_producer
    [mkBundleWindow 0 3600000000000 demo_hex demo_hex demo_hex].
Definition demo_result : JobResult :=
  mkJobResult "20240101T000000Z-0123456789abcdef" "coverage" demo_hex demo_hex demo_hex demo_hex
    (String.concat "" (replicate 32 "b")) 1.

Lemma bundle_receipt_roundtrip_witness : ∃ raw,
  bundle_receipt_bytes demo_dumps demo_receipt = Ok raw ∧
  parse_bundle_receipt demo_loads demo_dumps raw = Ok (sort_receipt demo_receipt) ∧ covers demo_receipt.
Proof.
  assert ((raw ← bundle_receipt_bytes demo_dumps demo_receipt;
           Ok (Z.of_nat (length raw) <=? MAX_BUNDLE_RECEIPT_BYTES)) = Ok true) as H by (vm_compute; reflexivity).
  apply bind_ok in H as (raw & Hr & Hl). apply Ok_inj, Z.leb_le in Hl. exists raw. split; [exact Hr|].
  destruct (bundle_receipt_roundtrip demo_loads demo_dumps demo_codec demo_receipt raw) as (H1 & _ & H3).
  split; [|exact (H3 Hr)]. apply H1; [vm_compute; reflexivity|vm_compute; reflexivity|exact Hr|exact Hl].
Defined.

Lemma job_documents_roundtrip_witness : ∃ raw,
  job_result_bytes demo_dumps demo_result = Ok raw ∧ parse_job_result demo_loads demo_dumps raw = Ok demo_result.
Proof.
  assert ((raw ← job_result_bytes demo_dumps demo_result;
           Ok (Z.of_nat (length raw) <=? MAX_JOB_RESULT_BYTES)) = Ok true) as H by (vm_compute; reflexivity).
  apply bind_ok in H as (raw & Hr & Hl). apply Ok_inj, Z.leb_le in Hl. exists raw. split; [exact Hr|].
  apply (proj1 (job_documents_roundtrip ascii_printable ascii_space demo_loads demo_dumps demo_codec raw)).
  split; [exact Hr|exact Hl].
Defined.
