(* ===== verification/Order.v ===== *)
(** * Three-way orders

    Python's [sorted], [min] and [max] on strings, integers, tuples and lists of
    them: a class of lawful three-way comparisons, the instances the program uses,
    and [sorted], whose result depends on the elements alone. *)
From stdpp Require Import gmap sorting.
From S2P Require Import Prelude.

Class Compare (A : Type) := cmp : A → A → comparison.
Class CompareLaws (A : Type) `{Compare A} := {
  cmp_eq : ∀ a b : A, cmp a b = Eq ↔ a = b;
  cmp_antisym : ∀ a b : A, cmp b a = CompOpp (cmp a b);
  cmp_lt_trans : ∀ a b c : A, cmp a b = Lt → cmp b c = Lt → cmp a c = Lt;
}.

(** ** Instances *)
#[global] Instance Z_cmp : Compare Z := Z.compare.
#[global] Instance Z_cmp_laws : CompareLaws Z.
Proof.
  split; unfold cmp, Z_cmp.
  - intros a b. apply Z.compare_eq_iff.
  - intros a b. apply Z.compare_antisym.
  - intros a b c. rewrite !Z.compare_lt_iff. lia.
Qed.

#[global] Instance ascii_cmp : Compare Ascii.ascii := Ascii.compare.
#[global] Instance ascii_cmp_laws : CompareLaws Ascii.ascii.
Proof.
  split; unfold cmp, ascii_cmp, Ascii.compare.
  - intros a b. rewrite N.compare_eq_iff. split; [|by intros ->].
    intros E%(f_equal Ascii.ascii_of_N). by rewrite !Ascii.ascii_N_embedding in E.
  - intros a b. apply N.compare_antisym.
  - intros a b c. rewrite !N.compare_lt_iff. lia.
Qed.

Section Lexicographic.
Context {A B : Type} `{CompareLaws A, CompareLaws B}.

(** One more position of a lexicographic order. *)
Definition lex (c d : comparison) : comparison := match c with Eq => d | _ => c end.

Lemma lex_eq c d : lex c d = Eq ↔ c = Eq ∧ d = Eq.
Proof. destruct c; simpl; naive_solver. Qed.
Lemma lex_opp c d : lex (CompOpp c) (CompOpp d) = CompOpp (lex c d).
Proof. by destruct c. Qed.
Lemma lex_lt_trans (a b c : A) d1 d2 d3 :
  (d1 = Lt → d2 = Lt → d3 = Lt) →
  lex (cmp a b) d1 = Lt → lex (cmp b c) d2 = Lt → lex (cmp a c) d3 = Lt.
Proof.
  intros Hd. destruct (cmp a b) eqn:E1, (cmp b c) eqn:E2; simpl; try done; intros D1 D2.
  - apply cmp_eq in E1 as ->, E2 as ->.
    assert (cmp c c = Eq) as -> by by apply cmp_eq. simpl. auto.
  - apply cmp_eq in E1 as ->. by rewrite E2.
  - apply cmp_eq in E2 as <-. by rewrite E1.
  - by rewrite (cmp_lt_trans a b c E1 E2).
Qed.

#[global] Instance pair_cmp : Compare (A * B) := λ x y, lex (cmp x.1 y.1) (cmp x.2 y.2).
#[global] Instance pair_cmp_laws : CompareLaws (A * B).
Proof.
  split; unfold cmp, pair_cmp.
  - intros [a b] [a' b']. simpl. rewrite lex_eq, !cmp_eq. naive_solver.
  - intros a b. by rewrite (cmp_antisym a.1 b.1), (cmp_antisym a.2 b.2), lex_opp.
  - intros a b c. apply lex_lt_trans. apply cmp_lt_trans.
Qed.

Fixpoint list_compare (l k : list A) : comparison :=
  match l, k with
  | [], [] => Eq
  | [], _ :: _ => Lt
  | _ :: _, [] => Gt
  | a :: l, b :: k => lex (cmp a b) (list_compare l k)
  end.
#[global] Instance list_cmp : Compare (list A) := list_compare.
#[global] Instance list_cmp_laws : CompareLaws (list A).
Proof.
  split; unfold cmp, list_cmp.
  - induction a as [|a l IH]; intros [|b k]; simpl; try done.
    rewrite lex_eq, cmp_eq, IH. naive_solver.
  - induction a as [|a l IH]; intros [|b k]; simpl; try done.
    by rewrite (cmp_antisym a b), IH, lex_opp.
  - induction a as [|a l IH]; intros [|b k] [|c m]; simpl; try done.
    apply lex_lt_trans, IH.
Qed.
End Lexicographic.

#[global] Instance string_cmp : Compare string := String.compare.
Lemma string_compare_list s t :
  String.compare s t = cmp (String.list_ascii_of_string s) (String.list_ascii_of_string t).
Proof.
  revert t. induction s as [|x s IH]; intros [|y t]; try done. simpl. rewrite IH.
  unfold cmp at 2, list_cmp. simpl. unfold cmp at 2, ascii_cmp. by destruct (Ascii.compare x y).
Qed.
#[global] Instance string_cmp_laws : CompareLaws string.
Proof.
  split; unfold cmp, string_cmp; intros *; rewrite !string_compare_list.
  - rewrite cmp_eq. split; [|by intros ->].
    intros E%(f_equal String.string_of_list_ascii).
    by rewrite !String.string_of_list_ascii_of_string in E.
  - apply cmp_antisym.
  - apply cmp_lt_trans.
Qed.

(** ** [sorted] *)
Section Sorted.
Context {A : Type} `{CompareLaws A}.

Definition leb (a b : A) : bool := match cmp a b with Gt => false | _ => true end.

Lemma leb_total (a b : A) : leb a b = true ∨ leb b a = true.
Proof. unfold leb. rewrite (cmp_antisym a b). destruct (cmp a b); simpl; auto. Qed.

Lemma leb_antisym (a b : A) : leb a b = true → leb b a = true → a = b.
Proof.
  unfold leb. rewrite (cmp_antisym a b). intros. apply cmp_eq. by destruct (cmp a b).
Qed.

Lemma leb_trans (a b c : A) : leb a b = true → leb b c = true → leb a c = true.
Proof.
  unfold leb. intros H1 H2. destruct (cmp a b) eqn:E1; try done.
  - by apply cmp_eq in E1 as ->.
  - destruct (cmp b c) eqn:E2; try done.
    + apply cmp_eq in E2 as <-. by rewrite E1.
    + by rewrite (cmp_lt_trans a b c).
Qed.

(** Python's [sorted(l)]. *)
Definition sorted (l : list A) : list A := sort_by leb l.
Definition ordered (l : list A) : Prop := StronglySorted (λ a b, leb a b = true) l.

Lemma sorted_perm l : Permutation (sorted l) l.
Proof. apply sort_by_perm. Qed.

Lemma sorted_ordered l : ordered (sorted l).
Proof. apply sort_by_sorted; [apply leb_total | apply leb_trans]. Qed.

Lemma ordered_perm_eq l k : ordered l → ordered k → Permutation l k → l = k.
Proof.
  intros Hl. revert k. induction Hl as [|a l Hl IH Ha]; intros k Hk Hp.
  - by apply Permutation_nil in Hp as ->.
  - destruct Hk as [|b k Hk Hb]; [by apply Permutation_sym, Permutation_nil in Hp|].
    assert (a = b) as ->.
    { rewrite Forall_forall in Ha, Hb.
      assert (a ∈ b :: k) as Ea by (rewrite <- Hp; by left).
      assert (b ∈ a :: l) as Eb by (rewrite Hp; by left).
      apply elem_of_cons in Ea as [->|Ea]; [done|].
      apply elem_of_cons in Eb as [->|Eb]; [done|].
      apply leb_antisym; auto. }
    f_equal. apply IH; [done|]. by apply Permutation_cons_inv in Hp.
Qed.

Lemma sorted_unique l k : Permutation l k → sorted l = sorted k.
Proof.
  intros Hp. apply ordered_perm_eq; [apply sorted_ordered..|]. by rewrite !sorted_perm.
Qed.

Lemma sorted_id l : ordered l → sorted l = l.
Proof. intros. apply ordered_perm_eq; [apply sorted_ordered | done | apply sorted_perm]. Qed.

Lemma sorted_elem a l : a ∈ sorted l ↔ a ∈ l.
Proof. by rewrite sorted_perm. Qed.
End Sorted.
