(* ===== verification/Outcomes.v ===== *)
(** * Outcome views ([src/replay/economic_sdk/outcomes.py])

    What a snapshot says about the outcomes behind each book of a scope, and the set
    algebra strategies use on it: payoffs, partitions, implications and the bounded
    search for complete sets.  The document and the scope are records with the fields
    the module reads; the snapshot's own validation is elsewhere. *)
From stdpp Require Import gmap fin_sets strings.
From S2P Require Import Prelude Order.

Abbreviation book := (string * string)%type.

(** ** The snapshot *)
Record SpaceDoc := mkSpaceDoc {
  sd_shape : string; sd_scope : string; sd_coverage : string; sd_best_of : option Z;
  sd_keys : list string;
}.
Record ClaimDoc := mkClaimDoc { cd_claim : string; cd_shape : string; cd_keys : list string }.

(** [recorded]: the outcomes object of a snapshot. *)
Record Recorded := mkRecorded {
  provider : option string; doc_spaces : list SpaceDoc; doc_claims : list ClaimDoc;
}.

(** One row of [scope["outcome_books"]]; the last three are [None] unless masked. *)
Record BookRow := mkBookRow {
  row_book : book; row_market : string; row_status : string; row_reason : option string;
  row_shape : option string; row_claim : option string; row_negated : option bool;
}.
Record ScopeDoc := mkScopeDoc { outcome_books : list BookRow; member_books : list book }.
Record Snapshot := mkSnapshot {
  snap_version : Z; snap_outcomes : option Recorded; snap_scopes : list ScopeDoc;
}.

(** ** The view *)
Record Space := mkSpace {
  sp_shape : string; sp_scope : string; sp_coverage : string; sp_best_of : option Z;
  sp_keys : list string;
}.
Record Leg := mkLeg {
  leg_book : book; leg_market : string; leg_shape : option string; leg_claim : option string;
  leg_negated : option bool; leg_keys : gset string;
}.
Record OutcomeScope := mkOutcomeScope {
  available : bool; unavailable : option string;
  spaces : gmap string Space; legs : gmap book Leg;
  statuses : gmap book (string * option string);
}.

#[global] Instance Leg_eq_dec : EqDecision Leg.
Proof. solve_decision. Defined.

(** [d[k]] where [k] may be [None]. *)
Definition dict_get {A} (d : gmap string A) (k : option string) : result A :=
  match k ≫= (d !!.) with Some a => Ok a | None => Err KeyError end.

(** [{key(r): val(r) for r in rows}]: later rows win. *)
Definition dict_of {R K A} `{Countable K} (key : R → K) (val : R → A) (rows : list R)
    : gmap K A :=
  foldl (λ d r, <[key r := val r]> d) ∅ rows.

Definition space_of (s : SpaceDoc) : Space :=
  mkSpace (sd_shape s) (sd_scope s) (sd_coverage s) (sd_best_of s) (sd_keys s).

(** The keys of a masked row: the claim's, or the rest of the space. *)
Definition masked_keys (spaces : gmap string Space) (claims : gmap string ClaimDoc)
    (row : BookRow) : result (gset string) :=
  c ← dict_get claims (row_claim row);
  let keys := list_to_set (cd_keys c) : gset string in
  if default false (row_negated row) then
    sp ← dict_get spaces (row_shape row);
    Ok (list_to_set (sp_keys sp) ∖ keys)
  else Ok keys.

(** One row of the loop of [__init__]. *)
Definition read_row (spaces : gmap string Space) (claims : gmap string ClaimDoc)
    (acc : gmap book Leg * gmap book (string * option string)) (row : BookRow)
    : result (gmap book Leg * gmap book (string * option string)) :=
  let statuses := <[row_book row := (row_status row, row_reason row)]> acc.2 in
  if String.eqb (row_status row) "MASKED" then
    keys ← masked_keys spaces claims row;
    Ok (<[row_book row := mkLeg (row_book row) (row_market row) (row_shape row)
            (row_claim row) (row_negated row) keys]> acc.1, statuses)
  else Ok (acc.1, statuses).

(** [snapshot.get("outcomes") if snapshot["version"] == 2 else None], when it comes
    from Universe. *)
Definition recorded_outcomes (s : Snapshot) : option Recorded :=
  if snap_version s =? 2 then
    match snap_outcomes s with
    | Some r => if bool_decide (provider r = Some "universe") then Some r else None
    | None => None
    end
  else None.

(** [OutcomeScope.__init__]. *)
Definition make_scope (s : Snapshot) (scope : ScopeDoc) : result OutcomeScope :=
  match recorded_outcomes s with
  | Some doc =>
      let spaces := dict_of sd_shape space_of (doc_spaces doc) in
      let claims := dict_of cd_claim id (doc_claims doc) in
      acc ← foldR (read_row spaces claims) (∅, ∅) (outcome_books scope);
      Ok (mkOutcomeScope true None spaces acc.1 acc.2)
  | None =>
      Ok (mkOutcomeScope false (Some "outcomes_unavailable") ∅ ∅
            (dict_of id (λ _, ("OUTCOMES_UNAVAILABLE", None)) (member_books scope)))
  end.

(** [outcome_scope], whose cache is below. *)
Definition fresh_scope (s : Snapshot) (i : Z) : result OutcomeScope :=
  match (if i <? 0 then None else snap_scopes s !! Z.to_nat i) with
  | Some scope => make_scope s scope
  | None => Err IndexError
  end.

Definition leg (v : OutcomeScope) (k : book) : option Leg := legs v !! k.
Definition status (v : OutcomeScope) (k : book) : string * option string :=
  default ("NOT_IN_MODEL", None) (statuses v !! k).

(** [sum(key in leg.keys for leg in legs)]. *)
Definition hits (key : string) (ls : list Leg) : nat :=
  length (filter (λ l, key ∈ leg_keys l) ls).

(** [payoff]: a dict with at most one shape. *)
Definition payoff (v : OutcomeScope) (books : list book) : result (list (string * list Z)) :=
  match map (leg v) books with
  | [] => Ok []
  | ls =>
      ls ← mapR (λ l, match l with Some l => Ok l
                     | None => Err (ValueError "payoff requires MASKED legs") end) ls;
      match remove_dups (map leg_shape ls) with
      | [shape] =>
          sp ← dict_get (spaces v) shape;
          Ok [(default "" shape, map (λ key, Z.of_nat (hits key ls)) (sp_keys sp))]
      | _ => Err (ValueError "payoff requires one outcome space")
      end
  end.

(** The loop of [is_partition]: the union so far, or [None] on an overlap. *)
Fixpoint disjoint_union (union : gset string) (ls : list Leg) : option (gset string) :=
  match ls with
  | [] => Some union
  | l :: ls => if bool_decide (union ∩ leg_keys l = ∅)
               then disjoint_union (union ∪ leg_keys l) ls else None
  end.

Definition is_partition (v : OutcomeScope) (books : list book) : result bool :=
  match mapM (leg v) books with
  | None | Some [] => Ok false
  | Some ((l :: _) as ls) =>
      if negb (forallb (λ m, bool_decide (leg_shape m = leg_shape l)) ls) then Ok false else
      sp ← dict_get (spaces v) (leg_shape l);
      if negb (String.eqb (sp_coverage sp) "EXHAUSTIVE") then Ok false else
      match disjoint_union ∅ ls with
      | None => Ok false
      | Some u => Ok (bool_decide (u = list_to_set (sp_keys sp)))
      end
  end.

(** [sorted(set(book_keys))]. *)
Definition sorted_set (books : list book) : list book := sorted (remove_dups books).

Definition implications (v : OutcomeScope) (books : list book) : list (book * book) :=
  let ls := omap (leg v) (sorted_set books) in
  a ← ls; b ← ls;
  if bool_decide (leg_shape a = leg_shape b) && strict_subset (leg_keys a) (leg_keys b)
  then [(leg_book a, leg_book b)] else [].

(** ** [complete_sets] *)
Definition LIMIT_EXCEEDED : exn := ValueError "complete-set limit exceeded".

Section Search.
Context (shape_legs : list Leg) (max_legs limit : Z).

(** [candidates[key]]. *)
Definition candidates (key : string) : list Leg :=
  filter (λ l, key ∈ leg_keys l) shape_legs.

(** [eligible[key]]. *)
Definition eligible (remaining : gset string) (key : string) : list Leg :=
  filter (λ l, leg_keys l ⊆ remaining) (candidates key).

(** [min(remaining, key=lambda k: (len(eligible[k]), k))]. *)
Definition pivot (remaining : gset string) : option string :=
  head (sort_by (λ a b, leb (Z.of_nat (length (eligible remaining a)), a)
                            (Z.of_nat (length (eligible remaining b)), b))
                (elements remaining)).

Fixpoint search (fuel : nat) (remaining : gset string) (chosen : list book)
    (found : list (list book)) : result (list (list book)) :=
  match fuel with
  | O => Err OutOfFuel
  | S fuel =>
      if decide (remaining = ∅) then
        let found := found ++ [sorted chosen] in
        if limit <? Z.of_nat (length found) then Err LIMIT_EXCEEDED else Ok found
      else if Z.of_nat (length chosen) =? max_legs then Ok found
      else match pivot remaining with
           | None => Err (ValueError "min() iterable argument is empty")
           | Some p =>
               foldR (λ found l, search fuel (remaining ∖ leg_keys l) (chosen ++ [leg_book l]) found)
                 found (eligible remaining p)
           end
  end.
End Search.

(** [by_shape.setdefault(leg.shape_id, []).append(leg)] for one book. *)
Definition add_by_shape (v : OutcomeScope) (acc : gmap string (list Leg)) (b : book)
    : result (gmap string (list Leg)) :=
  match leg v b with
  | None => Ok acc
  | Some l =>
      sp ← dict_get (spaces v) (leg_shape l);
      let shape := default "" (leg_shape l) in
      if String.eqb (sp_coverage sp) "EXHAUSTIVE"
      then Ok (<[shape := default [] (acc !! shape) ++ [l]]> acc) else Ok acc
  end.

(** One shape of the outer loop. *)
Definition search_shape (v : OutcomeScope) (max_legs limit : Z) (found : list (list book))
    (sl : string * list Leg) : result (list (list book)) :=
  sp ← dict_get (spaces v) (Some sl.1);
  let all_keys := list_to_set (sp_keys sp) : gset string in
  search sl.2 max_legs limit (S (size all_keys)) all_keys [] found.

Definition complete_sets (v : OutcomeScope) (books : list book) (max_legs limit : Z)
    : result (list (list book)) :=
  if (max_legs <? 1) || (limit <? 0) then Err (ValueError "invalid complete-set bounds") else
  by_shape ← foldR (add_by_shape v) ∅ (sorted_set books);
  found ← foldR (search_shape v max_legs limit) []
            (sort_by (λ a b, leb a.1 b.1) (map_to_list by_shape));
  Ok (sorted found).

(** ** The cache of [outcome_scope]

    [_CACHE] maps (identity of the snapshot, scope index) to (the snapshot, its view),
    least recently used first.  It keeps its snapshots alive, so an identity it holds
    still names the same object. *)
Definition CACHE_SIZE : nat := 8.
Definition Cache : Type := list ((Z * Z) * (Snapshot * OutcomeScope)).

Definition outcome_scope (id : Z) (s : Snapshot) (i : Z) (c : Cache)
    : result (Cache * OutcomeScope) :=
  if (i <? 0) || (Z.of_nat (length (snap_scopes s)) <=? i) then Err IndexError else
  hit ← match find (λ e, bool_decide (e.1 = (id, i))) c with
        | Some e => Ok e.2
        | None => v ← fresh_scope s i; Ok (s, v)
        end;
  let c := filter (λ e, e.1 ≠ (id, i)) c ++ [((id, i), hit)] in
  Ok (drop (length c - CACHE_SIZE) c, hit.2).
