(* ===== verification/OutcomesProps.v ===== *)
(** * Properties of outcome views ([src/replay/economic_sdk/outcomes.py])

    [complete_sets] finds exactly the exact covers of an exhaustive space by at most
    [max_legs] books, or reports that there are more than [limit]; a partition is what
    pays one in every outcome; the cache of [outcome_scope] is invisible. *)
From stdpp Require Import gmap fin_sets strings.
From S2P Require Import Prelude Order Outcomes.

(** ** Exact covers *)

(** The legs [ls] cover each outcome of [R] once and nothing else. *)
Definition exact (R : gset string) (ls : list Leg) : Prop :=
  ∀ k, hits k ls = if decide (k ∈ R) then 1%nat else 0%nat.

Definition inhabited (l : Leg) : Prop := leg_keys l ≠ ∅.

Lemma hits_cons k l ls :
  hits k (l :: ls) = ((if decide (k ∈ leg_keys l) then 1 else 0) + hits k ls)%nat.
Proof. unfold hits. rewrite filter_cons. by case_decide. Qed.

Lemma hits_perm k ls ls' : Permutation ls ls' → hits k ls = hits k ls'.
Proof. unfold hits. by intros ->. Qed.

Lemma exact_perm R ls ls' : Permutation ls ls' → exact R ls → exact R ls'.
Proof. intros Hp He k. by rewrite <- (hits_perm k _ _ Hp). Qed.

Lemma exact_nil : exact ∅ [].
Proof. intros k. unfold hits. rewrite decide_False by set_solver. done. Qed.

Lemma exact_empty ls : exact ∅ ls → Forall inhabited ls → ls = [].
Proof.
  destruct ls as [|l ls]; [done|]. intros He [Hl _]%Forall_cons_1.
  apply set_choose_L in Hl as [k Hk]. specialize (He k).
  rewrite hits_cons, decide_True, decide_False in He by set_solver. done.
Qed.

Lemma exact_cons R l ls :
  exact R (l :: ls) ↔ leg_keys l ⊆ R ∧ exact (R ∖ leg_keys l) ls.
Proof.
  unfold exact. setoid_rewrite hits_cons. split.
  - intros He. split.
    + intros k Hk. specialize (He k). rewrite decide_True in He by done.
      by case_decide.
    + intros k. specialize (He k). repeat case_decide; first [lia | exfalso; set_solver].
  - intros [Hs He] k. specialize (He k). repeat case_decide; first [lia | exfalso; set_solver].
Qed.

Lemma exact_hit R ls k : exact R ls → k ∈ R → ∃ l, l ∈ ls ∧ k ∈ leg_keys l.
Proof.
  intros He Hk. specialize (He k). rewrite decide_True in He by done.
  unfold hits in He. destruct (filter _ ls) as [|l f] eqn:E; [done|].
  exists l. assert (l ∈ filter (λ l, k ∈ leg_keys l) ls) as Hl by (rewrite E; left).
  by apply list_elem_of_filter in Hl as [??].
Qed.

(** Two legs on one outcome are the same leg. *)
Lemma exact_nodup R ls : exact R ls → Forall inhabited ls → NoDup ls.
Proof.
  revert R. induction ls as [|l ls IH]; intros R He Hi; [constructor|].
  apply exact_cons in He as [Hs He]. apply Forall_cons in Hi as [Hl Hi].
  constructor; [|by eapply IH]. intros Hin.
  apply set_choose_L in Hl as [k Hk]. specialize (He k).
  rewrite decide_False in He by set_solver. unfold hits in He.
  apply nil_length_inv in He.
  assert (l ∈ filter (λ l, k ∈ leg_keys l) ls) as Hf by (by apply list_elem_of_filter).
  rewrite He in Hf. by apply not_elem_of_nil in Hf.
Qed.

(** A finer function keeps distinct images distinct. *)
Lemma NoDup_fmap_finer {A B C} (g : A → B) (f : A → C) l :
  (∀ x y, x ∈ l → y ∈ l → f x = f y → g x = g y) → NoDup (g <$> l) → NoDup (f <$> l).
Proof.
  induction l as [|a l IH]; intros Hfg; [constructor|]. rewrite !fmap_cons.
  intros [Ha Hn]%NoDup_cons. constructor.
  - intros (b & E & Hb)%list_elem_of_fmap. apply Ha. apply list_elem_of_fmap.
    exists b. split; [|done]. apply Hfg; [by left | by right | done].
  - apply IH; [|done]. intros x y Hx Hy. apply Hfg; by right.
Qed.

(** ** The search without a limit *)
Section Covers.
Context (shape_legs : list Leg).

Fixpoint covers (fuel : nat) (R : gset string) (n : nat) : list (list Leg) :=
  match fuel with
  | O => []
  | S fuel =>
      if decide (R = ∅) then [[]] else
      match n, pivot shape_legs R with
      | S n, Some p => l ← eligible shape_legs R p; cons l <$> covers fuel (R ∖ leg_keys l) n
      | _, _ => []
      end
  end.

Lemma elem_of_eligible R p l :
  l ∈ eligible shape_legs R p ↔ l ∈ shape_legs ∧ p ∈ leg_keys l ∧ leg_keys l ⊆ R.
Proof. unfold eligible, candidates. rewrite !list_elem_of_filter. naive_solver. Qed.

Lemma pivot_in R p : pivot shape_legs R = Some p → p ∈ R.
Proof.
  unfold pivot. intros Hp%head_Some_elem_of. by rewrite sort_by_elem, elem_of_elements in Hp.
Qed.

Lemma pivot_some R : R ≠ ∅ → ∃ p, pivot shape_legs R = Some p.
Proof.
  intros HR. unfold pivot. destruct (sort_by _ _) as [|p ps] eqn:E; [|by eexists].
  apply set_choose_L in HR as [k Hk]. exfalso. apply elem_of_elements in Hk.
  eapply sort_by_elem in Hk. rewrite E in Hk. by apply not_elem_of_nil in Hk.
Qed.

Lemma eligible_shrinks R p l :
  l ∈ eligible shape_legs R p → p ∈ R → (size (R ∖ leg_keys l) < size R)%nat.
Proof. intros (_ & Hp & Hs)%elem_of_eligible HR. apply subset_size. set_solver. Qed.

Lemma covers_sound fuel R n C :
  C ∈ covers fuel R n →
  exact R C ∧ Forall inhabited C ∧ Forall (.∈ shape_legs) C ∧ (length C ≤ n)%nat.
Proof.
  revert R n C. induction fuel as [|fuel IH]; intros R n C; simpl; [by intros ?%not_elem_of_nil|].
  case_decide as HR.
  - intros ->%list_elem_of_singleton. subst R. split_and!; [apply exact_nil|constructor|constructor|simpl; lia].
  - destruct n as [|n]; [by intros ?%not_elem_of_nil|].
    destruct (pivot shape_legs R) as [p|]; [|by intros ?%not_elem_of_nil].
    rewrite list_elem_of_bind. intros (l & HC & Hl).
    apply list_elem_of_fmap in HC as (C' & -> & HC). apply elem_of_eligible in Hl as (Hl & Hp & Hs).
    apply IH in HC as (He & Hi & Ha & Hn).
    split_and!; [by apply exact_cons| constructor; [|done]; unfold inhabited; set_solver | by constructor | simpl; lia].
Qed.

Lemma covers_complete fuel R n ls :
  (size R < fuel)%nat → exact R ls → Forall inhabited ls → Forall (.∈ shape_legs) ls →
  (length ls ≤ n)%nat → ∃ C, C ∈ covers fuel R n ∧ Permutation C ls.
Proof.
  revert R n ls. induction fuel as [|fuel IH]; intros R n ls Hf He Hi Ha Hn; [lia|]. simpl.
  case_decide as HR.
  - subst R. apply exact_empty in He as ->; [|done]. exists []. split; [by left|done].
  - destruct (pivot_some R HR) as [p Ep]. pose proof (pivot_in _ _ Ep) as Hp. rewrite Ep.
    destruct (exact_hit _ _ _ He Hp) as (l & Hl & Hpl).
    apply elem_of_Permutation in Hl as [ls' Hperm].
    rewrite Hperm in Hi, Ha, Hn. apply (exact_perm _ _ _ Hperm) in He.
    apply exact_cons in He as [Hs He]. apply Forall_cons in Hi as [Hil Hi], Ha as [Hal Ha].
    destruct n as [|n]; simpl in Hn; [lia|].
    assert (l ∈ eligible shape_legs R p) as El by by apply elem_of_eligible.
    destruct (IH (R ∖ leg_keys l) n ls') as (C & HC & Hpc); try done.
    { pose proof (eligible_shrinks _ _ _ El Hp). lia. } { lia. }
    exists (l :: C). split; [|by rewrite Hpc].
    apply list_elem_of_bind. exists l. split; [|done]. by apply list_elem_of_fmap_2.
Qed.

(** Different covers use different sets of legs. *)
Definition leg_set (C : list Leg) : gset book := list_to_set (leg_book <$> C).

Context (Hbook : ∀ l l', l ∈ shape_legs → l' ∈ shape_legs → leg_book l = leg_book l' → l = l').
Context (Hnodup : NoDup shape_legs).

Lemma leg_set_perm C C' :
  Forall (.∈ shape_legs) C → Forall (.∈ shape_legs) C' → NoDup C → NoDup C' →
  leg_set C = leg_set C' → Permutation C C'.
Proof.
  intros HC HC' Hn Hn' E. apply NoDup_Permutation; [done..|].
  assert (∀ D D', Forall (.∈ shape_legs) D → Forall (.∈ shape_legs) D' → leg_set D = leg_set D' →
            ∀ l, l ∈ D → l ∈ D') as Hsub.
  { clear C C' HC HC' Hn Hn' E. intros D D' HD HD' E l Hl.
    assert (leg_book l ∈ leg_set D) as Hb by (apply elem_of_list_to_set, list_elem_of_fmap_2, Hl).
    rewrite E in Hb. apply elem_of_list_to_set, list_elem_of_fmap in Hb as (l' & Hb & Hl').
    rewrite Forall_forall in HD, HD'. by rewrite (Hbook l l') by auto. }
  intros l. split; eapply Hsub; done.
Qed.

Lemma covers_cons_perm fuel R n l C l' C' fuel' n' :
  l ∈ shape_legs → l' ∈ shape_legs → leg_keys l ⊆ R → leg_keys l' ⊆ R →
  inhabited l → inhabited l' →
  C ∈ covers fuel (R ∖ leg_keys l) n → C' ∈ covers fuel' (R ∖ leg_keys l') n' →
  leg_set (l :: C) = leg_set (l' :: C') → Permutation (l :: C) (l' :: C').
Proof.
  intros Hl Hl' Hs Hs' Hi Hi' (He & Hf & Ha & _)%covers_sound (He' & Hf' & Ha' & _)%covers_sound.
  apply leg_set_perm; try (by constructor).
  - apply (exact_nodup R); [by apply exact_cons | by constructor].
  - apply (exact_nodup R); [by apply exact_cons | by constructor].
Qed.

Lemma covers_distinct fuel R n : NoDup (leg_set <$> covers fuel R n).
Proof.
  revert R n. induction fuel as [|fuel IH]; intros R n; simpl; [constructor|].
  case_decide as HR; [apply NoDup_singleton|].
  destruct n as [|n]; [constructor|].
  destruct (pivot shape_legs R) as [p|] eqn:Ep; [|constructor].
  assert (NoDup (eligible shape_legs R p)) as He
    by by do 2 apply NoDup_filter.
  assert (∀ l, l ∈ eligible shape_legs R p → l ∈ shape_legs ∧ p ∈ leg_keys l ∧ leg_keys l ⊆ R) as Hel
    by (intros l; apply elem_of_eligible).
  assert (∀ l, p ∈ leg_keys l → inhabited l) as Hinh by (unfold inhabited; set_solver).
  induction (eligible shape_legs R p) as [|l ls IHl]; [constructor|].
  apply NoDup_cons in He as [Hl He]. cbn [mbind list_bind]. rewrite fmap_app, NoDup_app.
  destruct (Hel l ltac:(left)) as (Hl1 & Hl2 & Hl3).
  split_and!.
  - rewrite <- list_fmap_compose. apply (NoDup_fmap_finer leg_set); [|apply IH].
    intros C C' HC HC' E. pose proof (covers_cons_perm _ _ _ l C l C' _ _ Hl1 Hl1 Hl3 Hl3
      (Hinh _ Hl2) (Hinh _ Hl2) HC HC' E) as Hp.
    apply Permutation_cons_inv in Hp. unfold leg_set. by rewrite Hp.
  - intros X HX HX'. apply list_elem_of_fmap in HX as (D & -> & HD).
    apply list_elem_of_fmap in HD as (C & -> & HC).
    apply list_elem_of_fmap in HX' as (D' & E & HD').
    apply list_elem_of_bind in HD' as (l' & HD' & Hl'). apply list_elem_of_fmap in HD' as (C' & -> & HC').
    destruct (Hel l' ltac:(by right)) as (Hl1' & Hl2' & Hl3').
    pose proof (covers_cons_perm _ _ _ l C l' C' _ _ Hl1 Hl1' Hl3 Hl3'
      (Hinh _ Hl2) (Hinh _ Hl2') HC HC' E) as Hp.
    assert (l ∈ l' :: C') as Hin by (rewrite <- Hp; left).
    apply elem_of_cons in Hin as [->|Hin]; [done|].
    apply covers_sound in HC' as (He' & _ & _ & _). specialize (He' p).
    rewrite decide_False in He' by set_solver. unfold hits in He'. apply nil_length_inv in He'.
    assert (l ∈ filter (λ m, p ∈ leg_keys m) C') as Hf by by apply list_elem_of_filter.
    rewrite He' in Hf. by apply not_elem_of_nil in Hf.
  - apply IHl; [done|]. intros. apply Hel. by right.
Qed.
End Covers.

(** ** The limited search *)
Lemma fmap_bind {A B C} (f : B → C) (g : A → list B) (l : list A) :
  f <$> (l ≫= g) = l ≫= (λ a, f <$> g a).
Proof. induction l as [|a l IH]; [done|]. by rewrite !bind_cons, fmap_app, IH. Qed.

Section Limited.
Context (limit : Z).

(** A result list, or the exception once it is longer than the limit. *)
Definition capped {A} (r : list A) : result (list A) :=
  if limit <? Z.of_nat (length r) then Err LIMIT_EXCEEDED else Ok r.

Lemma capped_short {A} (r : list A) : Z.of_nat (length r) ≤ limit → capped r = Ok r.
Proof. intros. unfold capped. by rewrite (proj2 (Z.ltb_ge _ _)). Qed.

Lemma capped_long {A} (r k : list A) : capped r = Err LIMIT_EXCEEDED → capped (r ++ k) = Err LIMIT_EXCEEDED.
Proof.
  unfold capped. destruct (Z.ltb_spec limit (Z.of_nat (length r))); [|done]. intros _.
  rewrite length_app, (proj2 (Z.ltb_lt _ _)) by lia. done.
Qed.

(** A loop whose steps append to a capped list. *)
Lemma foldR_capped {A B} (f : list B → A → result (list B)) (g : A → list B) xs found :
  Forall (λ a, ∀ found, Z.of_nat (length found) ≤ limit → f found a = capped (found ++ g a)) xs →
  Z.of_nat (length found) ≤ limit →
  foldR f found xs = capped (found ++ (xs ≫= g)).
Proof.
  intros Hf. revert found. induction Hf as [|a xs Ha _ IH]; intros found Hl; simpl.
  - rewrite app_nil_r. by rewrite capped_short.
  - rewrite Ha by done. rewrite app_assoc.
    unfold capped at 1. destruct (Z.ltb_spec limit (Z.of_nat (length (found ++ g a)))) as [H|H].
    + simpl. symmetry. apply capped_long. unfold capped. by rewrite (proj2 (Z.ltb_lt _ _)).
    + simpl. apply IH. done.
Qed.

Context (shape_legs : list Leg) (max_legs : Z).

Definition booked (chosen : list book) (C : list Leg) : list book := sorted (chosen ++ (leg_book <$> C)).

Lemma search_covers fuel R chosen found :
  (size R < fuel)%nat → Z.of_nat (length chosen) ≤ max_legs → Z.of_nat (length found) ≤ limit →
  search shape_legs max_legs limit fuel R chosen found =
    capped (found ++ (booked chosen <$>
      covers shape_legs fuel R (Z.to_nat (max_legs - Z.of_nat (length chosen))))).
Proof.
  revert R chosen found. induction fuel as [|fuel IH]; intros R chosen found Hf Hc Hl; [lia|].
  cbn [search covers]. case_decide as HR.
  - unfold booked. simpl. by rewrite app_nil_r.
  - destruct (pivot_some shape_legs R HR) as [p Ep]. rewrite Ep.
    destruct (Z.eqb_spec (Z.of_nat (length chosen)) max_legs) as [Em|Em].
    + replace (Z.to_nat _) with 0%nat by lia. simpl. by rewrite app_nil_r, capped_short.
    + destruct (Z.to_nat (max_legs - Z.of_nat (length chosen))) as [|n] eqn:En; [lia|].
      rewrite fmap_bind. apply foldR_capped; [|done].
      apply Forall_forall. intros l Hel found' Hl'.
      pose proof (eligible_shrinks _ _ _ _ Hel (pivot_in _ _ _ Ep)) as Hs.
      rewrite IH; [|lia| rewrite length_app; simpl; lia | done].
      rewrite length_app. simpl length. replace (Z.to_nat _) with n by lia.
      f_equal. f_equal. rewrite <- list_fmap_compose. apply list_fmap_ext. intros ? C _.
      unfold booked. simpl. by rewrite <- app_assoc.
Qed.
End Limited.

(** ** Aligned snapshots *)

(** What validation guarantees of the outcomes of a snapshot: keyed rows, nonempty
    spaces, claims that are proper nonempty parts of their space, and masked rows that
    name a claim and its space. *)
Definition claim_within (spaces : list SpaceDoc) (c : ClaimDoc) : Prop :=
  ∃ sd, sd ∈ spaces ∧ sd_shape sd = cd_shape c ∧ cd_keys c ≠ [] ∧
    (list_to_set (cd_keys c) : gset string) ⊂ list_to_set (sd_keys sd).
Definition row_named (claims : list ClaimDoc) (r : BookRow) : Prop :=
  row_status r = "MASKED" →
  ∃ c, c ∈ claims ∧ row_claim r = Some (cd_claim c) ∧ row_shape r = Some (cd_shape c).
Definition aligned (s : Snapshot) (sc : ScopeDoc) : Prop :=
  ∀ doc, recorded_outcomes s = Some doc →
    NoDup (sd_shape <$> doc_spaces doc) ∧ NoDup (cd_claim <$> doc_claims doc) ∧
    Forall (λ sd, sd_keys sd ≠ []) (doc_spaces doc) ∧
    Forall (claim_within (doc_spaces doc)) (doc_claims doc) ∧
    Forall (row_named (doc_claims doc)) (outcome_books sc).

(** The views the module's operations work on. *)
Definition leg_ok (v : OutcomeScope) (b : book) (l : Leg) : Prop :=
  leg_book l = b ∧ inhabited l ∧
  ∃ shape sp, leg_shape l = Some shape ∧ spaces v !! shape = Some sp ∧
    leg_keys l ⊆ list_to_set (sp_keys sp).
Definition view_ok (v : OutcomeScope) : Prop :=
  map_Forall (λ _ sp, sp_keys sp ≠ []) (spaces v) ∧ map_Forall (leg_ok v) (legs v).

Section DictOf.
Context {R K A : Type} `{Countable K} (key : R → K) (val : R → A).

Lemma dict_of_snoc rows r :
  dict_of key val (rows ++ [r]) = <[key r := val r]> (dict_of key val rows).
Proof. unfold dict_of. by rewrite foldl_app. Qed.

Lemma dict_of_some rows k a :
  dict_of key val rows !! k = Some a → ∃ r, r ∈ rows ∧ key r = k ∧ val r = a.
Proof.
  induction rows as [|r rows IH] using rev_ind; [by unfold dict_of; simpl; rewrite lookup_empty|].
  rewrite dict_of_snoc. destruct (decide (key r = k)) as [<-|Hk].
  - rewrite lookup_insert_eq. intros [= <-]. exists r. split; [|done]. apply elem_of_app. right. by left.
  - rewrite lookup_insert_ne by done. intros (r' & Hr & ?)%IH. exists r'.
    split; [apply elem_of_app; by left | done].
Qed.

Lemma dict_of_lookup rows r :
  NoDup (key <$> rows) → r ∈ rows → dict_of key val rows !! key r = Some (val r).
Proof.
  induction rows as [|r' rows IH] using rev_ind; [by intros _ ?%not_elem_of_nil|].
  rewrite dict_of_snoc, fmap_app, NoDup_app. intros (Hn & Hd & _) Hr.
  apply elem_of_app in Hr as [Hr| ->%list_elem_of_singleton].
  - rewrite lookup_insert_ne; [by apply IH|]. intros E.
    apply (Hd (key r)); [by apply list_elem_of_fmap_2|]. rewrite <- E. by left.
  - by rewrite lookup_insert_eq.
Qed.
End DictOf.

Lemma dict_get_some {A} (d : gmap string A) k a : d !! k = Some a → dict_get d (Some k) = Ok a.
Proof. intros E. unfold dict_get. simpl. by rewrite E. Qed.

(** ** The view of an aligned snapshot *)
Lemma masked_keys_ok sps claims row c sp :
  row_claim row = Some (cd_claim c) → claims !! cd_claim c = Some c →
  row_shape row = Some (cd_shape c) → sps !! cd_shape c = Some sp →
  cd_keys c ≠ [] → (list_to_set (cd_keys c) : gset string) ⊂ list_to_set (sp_keys sp) →
  ∃ ks, masked_keys sps claims row = Ok ks ∧ ks ≠ ∅ ∧ ks ⊆ list_to_set (sp_keys sp).
Proof.
  intros Hrc Hc Hrs Hs Hne Hin. unfold masked_keys.
  rewrite Hrc, (dict_get_some _ _ _ Hc). simpl. destruct (default false (row_negated row)).
  - rewrite Hrs, (dict_get_some _ _ _ Hs). simpl. eexists. split; [done|]. split; [|set_solver].
    intros E. apply Hin. set_solver.
  - eexists. split; [done|]. split; [|set_solver]. destruct (cd_keys c); [done|]. set_solver.
Qed.

Lemma read_rows_ok sps claims rows acc :
  Forall (λ row, row_status row = "MASKED" → ∃ c sp,
    row_claim row = Some (cd_claim c) ∧ claims !! cd_claim c = Some c ∧
    row_shape row = Some (cd_shape c) ∧ sps !! cd_shape c = Some sp ∧
    cd_keys c ≠ [] ∧ (list_to_set (cd_keys c) : gset string) ⊂ list_to_set (sp_keys sp)) rows →
  (∀ st, map_Forall (leg_ok (mkOutcomeScope true None sps acc.1 st)) acc.1) →
  ∃ acc', foldR (read_row sps claims) acc rows = Ok acc' ∧
    ∀ st, map_Forall (leg_ok (mkOutcomeScope true None sps acc'.1 st)) acc'.1.
Proof.
  intros Hr. revert acc. induction Hr as [|row rows Hrow _ IH]; intros acc Hacc; [by eexists|].
  cbn [foldR].
  enough (∃ acc1, read_row sps claims acc row = Ok acc1 ∧
    ∀ st, map_Forall (leg_ok (mkOutcomeScope true None sps acc1.1 st)) acc1.1)
    as (acc1 & -> & H1) by by apply IH.
  unfold read_row. destruct (String.eqb_spec (row_status row) "MASKED") as [E|E].
  - destruct (Hrow E) as (c & sp & Hrc & Hc & Hrs & Hs & Hne & Hin).
    destruct (masked_keys_ok sps claims row c sp) as (ks & -> & Hks & Hksin); try done.
    eexists. split; [done|]. intros st b l. simpl.
    destruct (decide (row_book row = b)) as [->|Hb].
    + rewrite lookup_insert_eq. intros [= <-]. split; [done|]. split; [done|].
      exists (cd_shape c), sp. done.
    + rewrite lookup_insert_ne by done. intros Hl. by apply (Hacc ∅).
  - eexists. split; [done|]. intros st b l Hl. by apply (Hacc ∅).
Qed.

Lemma make_scope_ok s sc : aligned s sc → ∃ v, make_scope s sc = Ok v ∧ view_ok v.
Proof.
  intros Ha. unfold make_scope. destruct (recorded_outcomes s) as [doc|] eqn:Er.
  2:{ eexists. split; [done|]. split; apply map_Forall_empty. }
  destruct (Ha doc Er) as (Hns & Hnc & Hsp & Hcl & Hrows).
  edestruct (read_rows_ok (dict_of sd_shape space_of (doc_spaces doc))
    (dict_of cd_claim id (doc_claims doc)) (outcome_books sc) (∅, ∅)) as (acc & -> & Hacc).
  - eapply Forall_impl; [exact Hrows|]. intros row Hn E. destruct (Hn E) as (c & Hc & Hrc & Hrs).
    rewrite Forall_forall in Hcl. destruct (Hcl c Hc) as (sd & Hsd & Hsh & Hne & Hin).
    exists c, (space_of sd). split_and!; try done.
    + by apply (dict_of_lookup cd_claim id).
    + rewrite <- Hsh. by apply dict_of_lookup.
  - intros st. apply map_Forall_empty.
  - eexists. split; [done|]. split; [|apply Hacc]. intros k sp Hk. simpl in Hk.
    apply dict_of_some in Hk as (sd & Hsd & _ & <-). rewrite Forall_forall in Hsp. by apply Hsp.
Qed.

(** ** Grouping by shape *)
Section View.
Context (v : OutcomeScope) (Hv : view_ok v).

Lemma leg_view b l : leg v b = Some l → leg_ok v b l.
Proof. intros H. by apply Hv. Qed.

(** The legs of one shape among [bs]. *)
Definition shape_legs (shape : string) (bs : list book) : list Leg :=
  filter (λ l, leg_shape l = Some shape) (omap (leg v) bs).

Definition exhaustive (shape : string) : Prop :=
  ∃ sp, spaces v !! shape = Some sp ∧ sp_coverage sp = "EXHAUSTIVE".

Definition grouped (bs : list book) (m : gmap string (list Leg)) : Prop :=
  ∀ shape ls, m !! shape = Some ls ↔ exhaustive shape ∧ ls = shape_legs shape bs ∧ ls ≠ [].

Lemma shape_legs_snoc shape bs b :
  shape_legs shape (bs ++ [b]) =
    shape_legs shape bs ++
      match leg v b with
      | Some l => if decide (leg_shape l = Some shape) then [l] else []
      | None => []
      end.
Proof.
  unfold shape_legs. rewrite omap_app, filter_app. f_equal. simpl.
  destruct (leg v b); [|done]. rewrite filter_cons. by case_decide.
Qed.

Lemma by_shape_grouped bs :
  ∃ m, foldR (add_by_shape v) ∅ bs = Ok m ∧ grouped bs m.
Proof.
  induction bs as [|b bs (m & Em & Hm)] using rev_ind.
  { exists ∅. split; [done|]. intros shape ls. rewrite lookup_empty. split; [done|].
    intros (_ & -> & Hne). done. }
  rewrite foldR_app, Em. simpl. unfold add_by_shape.
  destruct (leg v b) as [l|] eqn:El.
  2:{ exists m. split; [done|]. intros shape ls. rewrite shape_legs_snoc, El, app_nil_r. apply Hm. }
  destruct (leg_view b l El) as (_ & _ & sh & sp & Hsh & Hsp & _).
  rewrite Hsh, (dict_get_some _ _ _ Hsp). simpl.
  assert (∀ shape ls, shape ≠ sh → m !! shape = Some ls ↔
    exhaustive shape ∧ ls = shape_legs shape (bs ++ [b]) ∧ ls ≠ []) as Hother.
  { intros shape ls Hne. rewrite shape_legs_snoc, El, decide_False, app_nil_r by congruence. apply Hm. }
  destruct (String.eqb_spec (sp_coverage sp) "EXHAUSTIVE") as [Hex|Hex]; simpl.
  - eexists. split; [done|]. intros shape ls.
    destruct (decide (sh = shape)) as [->|Hne].
    + rewrite lookup_insert_eq, shape_legs_snoc, El, decide_True by done.
      assert (default [] (m !! shape) = shape_legs shape bs) as ->.
      { destruct (m !! shape) as [ls'|] eqn:E; [by apply Hm in E as (_ & -> & _)|]. simpl.
        destruct (shape_legs shape bs) as [|x xs] eqn:E'; [done|].
        assert (m !! shape = Some (x :: xs)) as E''; [|congruence].
        apply Hm. split; [by exists sp|]. done. }
      split; [intros [= <-] | intros (_ & -> & _); done].
      split; [by exists sp|]. split; [done|]. intros []%app_eq_nil; done.
    + rewrite lookup_insert_ne by done. by apply Hother.
  - exists m. split; [done|]. intros shape ls.
    destruct (decide (shape = sh)) as [->|Hne]; [|by apply Hother].
    assert (¬ exhaustive sh) as Hno by (intros (sp' & E & ?); congruence).
    rewrite (Hm sh ls). naive_solver.
Qed.

Lemma elem_of_shape_legs shape bs l :
  l ∈ shape_legs shape bs ↔ ∃ b, b ∈ bs ∧ leg v b = Some l ∧ leg_shape l = Some shape.
Proof. unfold shape_legs. rewrite list_elem_of_filter, list_elem_of_omap. naive_solver. Qed.

Lemma shape_legs_books shape bs l l' :
  l ∈ shape_legs shape bs → l' ∈ shape_legs shape bs → leg_book l = leg_book l' → l = l'.
Proof.
  intros (b & _ & Hl & _)%elem_of_shape_legs (b' & _ & Hl' & _)%elem_of_shape_legs.
  rewrite (proj1 (leg_view _ _ Hl)), (proj1 (leg_view _ _ Hl')). congruence.
Qed.

Lemma shape_legs_nodup shape bs : NoDup bs → NoDup (shape_legs shape bs).
Proof.
  intros Hn. apply NoDup_filter. induction Hn as [|b bs Hb Hn IH]; simpl; [constructor|].
  destruct (leg v b) as [l|] eqn:El; [|done]. constructor; [|done].
  intros (b' & Hb' & El')%list_elem_of_omap. apply Hb.
  by rewrite <- (proj1 (leg_view _ _ El)), (proj1 (leg_view _ _ El')).
Qed.

(** ** The sets found for one shape *)
Definition set_key (sl : string * list Leg) : gset string :=
  match spaces v !! sl.1 with Some sp => list_to_set (sp_keys sp) | None => ∅ end.

Definition sets_of (max_legs : Z) (sl : string * list Leg) : list (list book) :=
  booked [] <$> covers sl.2 (S (size (set_key sl))) (set_key sl) (Z.to_nat max_legs).

Lemma search_shape_sets max_legs limit found sl :
  is_Some (spaces v !! sl.1) → 0 ≤ max_legs → Z.of_nat (length found) ≤ limit →
  search_shape v max_legs limit found sl = capped limit (found ++ sets_of max_legs sl).
Proof.
  intros [sp Hsp] Hm Hl. unfold search_shape, sets_of, set_key.
  rewrite (dict_get_some _ _ _ Hsp), Hsp. cbn [mbind result_bind].
  rewrite search_covers; [|lia|done|done]. by rewrite Z.sub_0_r.
Qed.

(** The books of one complete set, in order. *)
Definition complete_set (books : list book) (max_legs : Z) (bs : list book) : Prop :=
  ∃ shape sp ls,
    spaces v !! shape = Some sp ∧ sp_coverage sp = "EXHAUSTIVE" ∧
    mapM (leg v) bs = Some ls ∧ Forall (λ l, leg_shape l = Some shape) ls ∧
    exact (list_to_set (sp_keys sp)) ls ∧
    bs ⊆ books ∧ ordered bs ∧ Z.of_nat (length bs) ≤ max_legs.

Lemma mapM_books C : Forall (λ l, leg v (leg_book l) = Some l) C → mapM (leg v) (leg_book <$> C) = Some C.
Proof. apply mapM_fmap_Forall_Some. Qed.

Lemma mapM_leg bs ls :
  mapM (leg v) bs = Some ls → bs = leg_book <$> ls ∧ Forall2 (λ b l, leg v b = Some l) bs ls.
Proof.
  intros H%mapM_Some. split; [|done].
  induction H as [|b l bs ls Hl _ IH]; [done|]. by rewrite fmap_cons, <- IH, (proj1 (leg_view _ _ Hl)).
Qed.

Lemma sets_of_spec shape books max_legs bs :
  exhaustive shape → 0 ≤ max_legs →
  bs ∈ sets_of max_legs (shape, shape_legs shape (sorted_set books)) ↔
    ∃ sp ls, spaces v !! shape = Some sp ∧ mapM (leg v) bs = Some ls ∧
      Forall (λ l, leg_shape l = Some shape) ls ∧ exact (list_to_set (sp_keys sp)) ls ∧
      bs ⊆ books ∧ ordered bs ∧ Z.of_nat (length bs) ≤ max_legs.
Proof.
  intros (sp & Hsp & _) Hm. unfold sets_of, set_key. cbn [fst snd]. rewrite Hsp, list_elem_of_fmap. split.
  - intros (C & -> & (He & Hi & Ha & Hn)%covers_sound). exists sp.
    destruct (Permutation_map_inv leg_book C (sorted_perm (leg_book <$> C))) as (ls & E & Hp).
    change (booked [] C = leg_book <$> ls) in E.
    pose proof Ha as Hls. rewrite Hp in Hls. rewrite Forall_forall in Hls.
    assert (∀ l, l ∈ ls → ∃ b, b ∈ books ∧ leg_book l = b ∧ leg v b = Some l ∧ leg_shape l = Some shape) as Hls'.
    { intros l (b & Hb & Hl & Hsh)%Hls%elem_of_shape_legs. exists b.
      unfold sorted_set in Hb. rewrite sorted_elem, elem_of_remove_dups in Hb.
      split_and!; try done. by apply leg_view in Hl as [? _]. }
    exists ls. rewrite E. split_and!; try done.
    + apply mapM_books, Forall_forall. intros l (b & _ & -> & ? & _)%Hls'. done.
    + apply Forall_forall. by intros l (b & _ & _ & _ & ?)%Hls'.
    + by apply (exact_perm _ _ _ Hp).
    + intros b' (l & -> & (b & Hb & -> & _)%Hls')%list_elem_of_fmap. done.
    + rewrite <- E. apply (sorted_ordered (leg_book <$> C)).
    + rewrite length_fmap, <- Hp. lia.
  - intros (sp' & ls & Hsp' & Hls & Hsh & He & Hin & Ho & Hn).
    assert (sp' = sp) as -> by congruence.
    destruct (mapM_leg bs ls Hls) as [-> Hf].
    assert (∀ l, l ∈ ls → leg v (leg_book l) = Some l) as Hl.
    { intros l Hl. apply list_elem_of_lookup in Hl as [i Hi].
      destruct (Forall2_lookup_r _ _ _ _ _ Hf Hi) as (b & Hb & E).
      by rewrite (proj1 (leg_view _ _ E)). }
    edestruct (covers_complete (shape_legs shape (sorted_set books)) (S (size (list_to_set (sp_keys sp) : gset string)))
      (list_to_set (sp_keys sp)) (Z.to_nat max_legs) ls) as (C & HC & Hp); try done; try lia.
    + apply Forall_forall. intros l Hin'%Hl. by apply leg_view in Hin' as (_ & ? & _).
    + apply Forall_forall. intros l Hin'. apply elem_of_shape_legs. exists (leg_book l).
      rewrite Forall_forall in Hsh. split_and!; [|by apply Hl|by apply Hsh].
      unfold sorted_set. rewrite sorted_elem, elem_of_remove_dups. apply Hin. by apply list_elem_of_fmap_2.
    + rewrite length_fmap in Hn. lia.
    + exists C. split; [|done]. change (booked [] C) with (sorted (leg_book <$> C)). symmetry.
      rewrite <- (sorted_id (leg_book <$> ls)) by done. apply sorted_unique. by rewrite Hp.
Qed.

Lemma sets_of_nodup shape books max_legs :
  NoDup (sets_of max_legs (shape, shape_legs shape (sorted_set books))).
Proof.
  unfold sets_of. apply (NoDup_fmap_finer leg_set).
  - intros C C' _ _ E. change (sorted (leg_book <$> C) = sorted (leg_book <$> C')) in E. apply set_eq. intros b. unfold leg_set.
    rewrite !elem_of_list_to_set, <- (sorted_elem b (leg_book <$> C)), E. by rewrite sorted_elem.
  - apply covers_distinct.
    + intros l l'. apply shape_legs_books.
    + apply shape_legs_nodup. unfold sorted_set. rewrite sorted_perm. apply NoDup_remove_dups.
Qed.
End View.

(** ** Complete sets over every shape *)
Section Complete.
Context (v : OutcomeScope) (Hv : view_ok v) (books : list book).

Definition shape_entries (m : gmap string (list Leg)) : list (string * list Leg) :=
  sort_by (λ a b, leb a.1 b.1) (map_to_list m).

Lemma elem_of_shape_entries m sl : sl ∈ shape_entries m ↔ m !! sl.1 = Some sl.2.
Proof. unfold shape_entries. rewrite sort_by_elem. destruct sl. apply elem_of_map_to_list. Qed.

Context (m : gmap string (list Leg)) (Hm : grouped v (sorted_set books) m).

Lemma entry_grouped sl :
  sl ∈ shape_entries m → exhaustive v sl.1 ∧ sl = (sl.1, shape_legs v sl.1 (sorted_set books)).
Proof. intros (? & E & _)%elem_of_shape_entries%Hm. destruct sl. simpl in *. by rewrite <- E. Qed.

Lemma space_inhabited shape sp :
  spaces v !! shape = Some sp → ∃ k, k ∈ (list_to_set (sp_keys sp) : gset string).
Proof.
  intros Hsp. apply Hv in Hsp. destruct (sp_keys sp) as [|k ks]; [done|]. exists k. set_solver.
Qed.

Lemma entries_spec max_legs S :
  0 ≤ max_legs →
  S ∈ (shape_entries m ≫= sets_of v max_legs) ↔ complete_set v books max_legs S.
Proof.
  intros Hmax. rewrite list_elem_of_bind. split.
  - intros (sl & HS & Hsl). apply entry_grouped in Hsl as [Hex Hsl]. rewrite Hsl in HS.
    apply sets_of_spec in HS as (sp & ls & Hsp & H); try done. exists sl.1, sp, ls.
    destruct Hex as (sp' & Hsp' & ?). split_and!; try apply H; congruence.
  - intros (shape & sp & ls & Hsp & Hex & H). exists (shape, shape_legs v shape (sorted_set books)).
    assert (exhaustive v shape) as Hsh by by exists sp.
    split; [apply sets_of_spec; [done..|]; exists sp, ls; done|].
    apply elem_of_shape_entries. simpl. apply Hm. split; [done|]. split; [done|].
    destruct (space_inhabited _ _ Hsp) as [k Hk]. destruct H as (Hls & Hf & He & Hin & _).
    destruct (exact_hit _ _ _ He Hk) as (l & Hl & _).
    intros Hnil. apply (not_elem_of_nil l). rewrite <- Hnil.
    apply elem_of_shape_legs. destruct (mapM_leg v Hv _ _ Hls) as [Eb Hf2].
    apply list_elem_of_lookup in Hl as Hi. destruct Hi as [i Hi].
    destruct (Forall2_lookup_r _ _ _ _ _ Hf2 Hi) as (b & Hb & E). exists b.
    rewrite Forall_forall in Hf. split_and!; [|done|by apply Hf].
    unfold sorted_set. rewrite sorted_elem, elem_of_remove_dups. apply Hin.
    by apply list_elem_of_lookup_2 in Hb.
Qed.

Lemma entries_nodup max_legs : 0 ≤ max_legs → NoDup (shape_entries m ≫= sets_of v max_legs).
Proof.
  intros Hmax. apply NoDup_bind.
  - intros sl sl' S Hsl Hsl' HS HS'.
    apply entry_grouped in Hsl as [Hex Hsl], Hsl' as [Hex' Hsl']. rewrite Hsl in HS. rewrite Hsl' in HS'.
    apply sets_of_spec in HS as (sp & ls & Hsp & Hls & Hf & He & _); try done.
    apply sets_of_spec in HS' as (sp' & ls' & Hsp' & Hls' & Hf' & _); try done.
    assert (ls' = ls) as -> by congruence.
    destruct (space_inhabited _ _ Hsp) as [k Hk].
    destruct (exact_hit _ _ _ He Hk) as (l & Hl & _).
    rewrite Forall_forall in Hf, Hf'. rewrite Hsl, Hsl'.
    assert (sl.1 = sl'.1) as E; [|by rewrite E].
    specialize (Hf l Hl). specialize (Hf' l Hl). congruence.
  - intros sl Hsl. apply entry_grouped in Hsl as [_ ->]. by apply sets_of_nodup.
  - unfold shape_entries. rewrite sort_by_perm. apply NoDup_map_to_list.
Qed.
End Complete.

(** C15. On the view of an aligned snapshot, [complete_sets] terminates with an answer:
    the list of all sets of at most [max_legs] of the given books whose legs cover one
    exhaustive outcome space exactly once, each set once and in order, unless there are
    more than [limit] of them, which it reports as the exception. *)
Theorem complete_sets_exact s sc v books max_legs limit :
  aligned s sc → make_scope s sc = Ok v → 1 ≤ max_legs → 0 ≤ limit →
  ∃ L, ordered L ∧ NoDup L ∧ (∀ S, S ∈ L ↔ complete_set v books max_legs S) ∧
    complete_sets v books max_legs limit =
      (if limit <? Z.of_nat (length L) then Err LIMIT_EXCEEDED else Ok L).
Proof.
  intros Ha Hs Hm Hl. destruct (make_scope_ok s sc Ha) as (v' & E & Hv).
  assert (v' = v) as -> by congruence.
  destruct (by_shape_grouped v Hv (sorted_set books)) as (m & Em & Hg).
  set (r := shape_entries m ≫= sets_of v max_legs).
  exists (sorted r). split_and!.
  - apply sorted_ordered.
  - rewrite sorted_perm. apply (entries_nodup v Hv books m Hg). lia.
  - intros S. rewrite sorted_elem. apply (entries_spec v Hv books m Hg). lia.
  - unfold complete_sets.
    rewrite (proj2 (Z.ltb_ge _ _) Hm), (proj2 (Z.ltb_ge _ _) Hl). cbn [orb].
    rewrite Em. cbn [mbind result_bind]. fold (shape_entries m).
    rewrite (foldR_capped limit (search_shape v max_legs limit) (sets_of v max_legs)); [|apply Forall_forall|simpl; lia].
    + rewrite (Permutation_length (sorted_perm r)). simpl app. fold r. unfold capped.
      by destruct (limit <? Z.of_nat (length r)).
    + intros sl Hsl found Hf. apply search_shape_sets; [|lia|done].
      apply (entry_grouped v books m Hg) in Hsl as [(sp & Hsp & _) _]. by eexists.
Qed.

(** ** Partitions and payoffs *)
Lemma disjoint_union_exact ls U W :
  disjoint_union U ls = Some W ↔ U ⊆ W ∧ exact (W ∖ U) ls.
Proof.
  revert U. induction ls as [|l ls IH]; intros U; simpl.
  - split.
    + intros [= ->]. split; [done|]. replace (W ∖ W) with (∅ : gset string) by set_solver. apply exact_nil.
    + intros [Hs He]. f_equal. apply set_eq. intros k. specialize (He k).
      assert (k ∉ W ∖ U) as Hk by (intros Hk; by rewrite decide_True in He).
      clear He. destruct (decide (k ∈ U)); set_solver.
  - rewrite exact_cons. case_bool_decide as Hd.
    + rewrite IH. replace (W ∖ (U ∪ leg_keys l)) with (W ∖ U ∖ leg_keys l) by set_solver. set_solver.
    + split; [done|]. set_solver.
Qed.

Lemma mapR_legs e (ls : list (option Leg)) :
  mapR (λ l, match l with Some l => Ok l | None => Err e end) ls =
    match mapM id ls with Some ls => Ok ls | None => Err e end.
Proof.
  induction ls as [|[l|] ls IH]; [done| |done]. cbn [mapR]. rewrite IH. simpl.
  by destruct (mapM id ls).
Qed.

Lemma mapM_map {A B} (f : A → option B) l : mapM id (map f l) = mapM f l.
Proof. induction l as [|a l IH]; [done|]. simpl. destruct (f a); simpl; [|done]. by rewrite IH. Qed.

(** The shapes of [ls] are one shape. *)
Lemma one_shape ls x :
  remove_dups (map leg_shape ls) = [x] ↔ ls ≠ [] ∧ Forall (λ l, leg_shape l = x) ls.
Proof.
  split.
  - intros E. split; [by intros ->|]. apply Forall_forall. intros l Hl.
    assert (leg_shape l ∈ remove_dups (map leg_shape ls)) as Hin
      by (apply elem_of_remove_dups, list_elem_of_fmap_2, Hl).
    rewrite E in Hin. by apply list_elem_of_singleton in Hin.
  - intros [Hne Hf]. destruct ls as [|l ls]; [done|]. clear Hne.
    revert l Hf. induction ls as [|m ls IH]; intros l [Hl Hf]%Forall_cons_1; simpl; [by rewrite Hl|].
    case_decide as Hd; [by apply (IH m)|]. destruct Hd.
    apply Forall_cons_1 in Hf as [Hm _]. rewrite Hl, Hm. left.
Qed.

Section Partition.
Context (v : OutcomeScope) (Hv : view_ok v).

Lemma hits_outside shape sp ls k :
  spaces v !! shape = Some sp → Forall (λ l, leg_ok v (leg_book l) l ∧ leg_shape l = Some shape) ls →
  k ∉ (list_to_set (sp_keys sp) : gset string) → hits k ls = 0%nat.
Proof.
  intros Hsp Hf Hk. unfold hits. apply length_zero_iff_nil.
  destruct (filter _ ls) as [|l f] eqn:E; [done|]. exfalso.
  assert (l ∈ filter (λ l, k ∈ leg_keys l) ls) as Hl by (rewrite E; left).
  apply list_elem_of_filter in Hl as [Hkl Hl]. rewrite Forall_forall in Hf.
  destruct (Hf l Hl) as ((_ & _ & sh & sp' & Hsh & Hsp' & Hin) & Hs).
  assert (sp' = sp) as -> by congruence. set_solver.
Qed.

Lemma ones_exact shape sp ls :
  spaces v !! shape = Some sp → Forall (λ l, leg_ok v (leg_book l) l ∧ leg_shape l = Some shape) ls →
  map (λ key, Z.of_nat (hits key ls)) (sp_keys sp) = replicate (length (sp_keys sp)) 1 ↔
  exact (list_to_set (sp_keys sp)) ls.
Proof.
  intros Hsp Hf. split.
  - intros E k. case_decide as Hk; [|by eapply hits_outside].
    apply elem_of_list_to_set in Hk.
    assert (Z.of_nat (hits k ls) ∈ replicate (length (sp_keys sp)) 1) as Hin.
    { rewrite <- E. apply list_elem_of_In, in_map_iff. exists k. split; [done|]. by apply list_elem_of_In. }
    apply elem_of_replicate in Hin as [Hin _]. lia.
  - intros He.
    assert (Forall (λ k, hits k ls = 1%nat) (sp_keys sp)) as Hone.
    { apply Forall_forall. intros k Hk. rewrite (He k), decide_True by (by apply elem_of_list_to_set). done. }
    clear He Hf Hsp. induction Hone as [|k ks Hk _ IH]; [done|].
    cbn [map replicate length]. by rewrite Hk, IH.
Qed.

(** What [is_partition] and [payoff] test, on the legs of the books. *)
Definition one_exhaustive (ls : list Leg) (shape : string) (sp : Space) : Prop :=
  ls ≠ [] ∧ Forall (λ l, leg_shape l = Some shape) ls ∧ spaces v !! shape = Some sp ∧
  sp_coverage sp = "EXHAUSTIVE".

Lemma is_partition_true books :
  is_partition v books = Ok true ↔ ∃ ls shape sp,
    mapM (leg v) books = Some ls ∧ one_exhaustive ls shape sp ∧ exact (list_to_set (sp_keys sp)) ls.
Proof.
  unfold is_partition. split.
  - destruct (mapM (leg v) books) as [[|l ls]|] eqn:Els; [done| |done].
    destruct (forallb _ (l :: ls)) eqn:Ef; [|done]. cbn [negb].
    destruct (dict_get (spaces v) (leg_shape l)) as [sp|] eqn:Esp; [|done]. cbn [mbind result_bind].
    destruct (String.eqb_spec (sp_coverage sp) "EXHAUSTIVE") as [Hex|]; [|done]. cbn [negb].
    destruct (disjoint_union ∅ (l :: ls)) as [u|] eqn:Eu; [|done].
    intros [= ->%bool_decide_eq_true]. apply disjoint_union_exact in Eu as [_ He].
    unfold dict_get in Esp. destruct (leg_shape l) as [shape|]; [|done]. simpl in Esp.
    destruct (spaces v !! shape) as [sp'|] eqn:Esp'; [|done]. injection Esp as ->.
    exists (l :: ls), shape, sp. split; [done|]. split.
    + split_and!; try done. apply forallb_Forall in Ef. eapply Forall_impl; [exact Ef|].
      intros m. apply bool_decide_eq_true.
    + by rewrite difference_empty_L in He.
  - intros (ls & shape & sp & -> & (Hne & Hf & Hsp & Hex) & He).
    destruct ls as [|l ls]; [done|]. pose proof (Forall_inv Hf) as Hl. simpl in Hl. rewrite Hl.
    replace (forallb _ (l :: ls)) with true.
    2:{ symmetry. apply forallb_Forall. eapply Forall_impl; [exact Hf|]. simpl. intros m Em.
        by apply bool_decide_eq_true. }
    cbn [negb]. rewrite (dict_get_some _ _ _ Hsp). cbn [mbind result_bind].
    rewrite Hex. cbn [String.eqb Ascii.eqb Bool.eqb negb].
    assert (disjoint_union ∅ (l :: ls) = Some (list_to_set (sp_keys sp))) as ->.
    { apply disjoint_union_exact. rewrite difference_empty_L. split; [set_solver|done]. }
    by rewrite bool_decide_true.
Qed.

Lemma payoff_one books shape w :
  payoff v books = Ok [(shape, w)] ↔ ∃ ls sp,
    mapM (leg v) books = Some ls ∧ ls ≠ [] ∧ Forall (λ l, leg_shape l = Some shape) ls ∧
    spaces v !! shape = Some sp ∧ w = map (λ key, Z.of_nat (hits key ls)) (sp_keys sp).
Proof.
  unfold payoff. destruct books as [|b bs].
  { split; [done|]. intros (ls & sp & [= <-] & Hne & _). done. }
  cbn [map]. change (leg v b :: map (leg v) bs) with (map (leg v) (b :: bs)).
  rewrite mapR_legs, mapM_map. destruct (mapM (leg v) (b :: bs)) as [ls|]; cbn [mbind result_bind].
  2:{ split; [done|]. by intros (? & ? & ? & _). }
  split.
  - destruct (remove_dups (map leg_shape ls)) as [|x [|? ?]] eqn:Ed; [done| |done].
    apply one_shape in Ed as [Hne Hf]. destruct (dict_get (spaces v) x) as [sp|] eqn:Esp; [|done].
    cbn [mbind result_bind]. unfold dict_get in Esp. destruct x as [sh|]; [|done]. simpl in Esp.
    destruct (spaces v !! sh) as [sp'|] eqn:E; [|done]. injection Esp as ->. simpl.
    intros [= -> <-]. by exists ls, sp.
  - intros (ls' & sp & [= ->] & Hne & Hf & Hsp & ->).
    assert (remove_dups (map leg_shape ls') = [Some shape]) as -> by by apply one_shape.
    by rewrite (dict_get_some _ _ _ Hsp).
Qed.

Lemma mapM_leg_ok books ls shape :
  mapM (leg v) books = Some ls → Forall (λ l, leg_shape l = Some shape) ls →
  Forall (λ l, leg_ok v (leg_book l) l ∧ leg_shape l = Some shape) ls.
Proof.
  intros [_ Hf]%(mapM_leg v Hv) Hs. apply Forall_forall. intros l Hl.
  rewrite Forall_forall in Hs. split; [|by apply Hs].
  apply list_elem_of_lookup in Hl as [i Hi].
  destruct (Forall2_lookup_r _ _ _ _ _ Hf Hi) as (b & _ & E). apply (leg_view v Hv) in E as Hok.
  by rewrite (proj1 Hok).
Qed.
End Partition.

(** C29. Books form a partition exactly when they hold one exhaustive space and the sum
    of their payoffs is one in every outcome of it. *)
Theorem partition_pays_one s sc v books :
  aligned s sc → make_scope s sc = Ok v →
  is_partition v books = Ok true ↔
    ∃ shape sp, spaces v !! shape = Some sp ∧ sp_coverage sp = "EXHAUSTIVE" ∧
      payoff v books = Ok [(shape, replicate (length (sp_keys sp)) 1)].
Proof.
  intros Ha Hs. destruct (make_scope_ok s sc Ha) as (v' & E & Hv).
  assert (v' = v) as -> by congruence. rewrite (is_partition_true v Hv). setoid_rewrite (payoff_one v). split.
  - intros (ls & shape & sp & Hls & (Hne & Hf & Hsp & Hex) & He). exists shape, sp.
    split_and!; [done..|]. exists ls, sp. split_and!; try done.
    symmetry. apply (ones_exact v Hv shape); [done | by eapply mapM_leg_ok | done].
  - intros (shape & sp & Hsp & Hex & ls & sp' & Hls & Hne & Hf & Hsp' & Ew).
    assert (sp' = sp) as -> by congruence. exists ls, shape, sp. split_and!; try done.
    apply (ones_exact v Hv shape sp); [done | by eapply mapM_leg_ok | done].
Qed.

(** ** Witnesses: a best-of-one series quoted on two venues *)
Definition demo_space : SpaceDoc :=
  mkSpaceDoc "s1" "series" "EXHAUSTIVE" (Some 1) ["seq:A"; "seq:H"].
Definition demo_doc : Recorded :=
  mkRecorded (Some "universe") [demo_space]
    [mkClaimDoc "cA" "s1" ["seq:A"]; mkClaimDoc "cH" "s1" ["seq:H"]].
Definition demo_row (b : book) (claim : string) (negated : bool) : BookRow :=
  mkBookRow b "m" "MASKED" None (Some "s1") (Some claim) (Some negated).
Definition demo_rows : ScopeDoc :=
  mkScopeDoc
    [demo_row ("kalshi:T", "outcome") "cA" false; demo_row ("kalshi:T", "complement") "cA" true;
     demo_row ("polymarket:1", "outcome") "cH" false;
     mkBookRow ("limitless:x", "outcome") "n" "UNSUPPORTED" None None None None] [].
Definition demo_snapshot : Snapshot := mkSnapshot 2 (Some demo_doc) [demo_rows].
Definition demo_books : list book :=
  [("polymarket:1", "outcome"); ("kalshi:T", "outcome"); ("kalshi:T", "complement");
   ("limitless:x", "outcome")].

Lemma demo_aligned : aligned demo_snapshot demo_rows.
Proof.
  intros doc E. vm_compute in E. injection E as <-. fold demo_doc. split_and!.
  - by apply (bool_decide_unpack _); vm_compute.
  - by apply (bool_decide_unpack _); vm_compute.
  - by repeat apply Forall_cons_2.
  - do 2 (apply Forall_cons_2; [exists demo_space; (split_and!; [left|done|done|]);
      by apply (bool_decide_unpack _); vm_compute|]). constructor.
  - do 4 (apply Forall_cons_2; [intros E; try discriminate E; 
      first [ by exists (mkClaimDoc "cA" "s1" ["seq:A"]); (split; [left|])
            | by exists (mkClaimDoc "cH" "s1" ["seq:H"]); (split; [right; left|]) ]|]).
    constructor.
Qed.

(** A computation on the view of the demo snapshot. *)
Lemma demo_computes {A} (f : OutcomeScope → result A) v r :
  make_scope demo_snapshot demo_rows = Ok v →
  (v ← make_scope demo_snapshot demo_rows; f v) = r → f v = r.
Proof. by intros ->. Qed.

Definition demo_sets : list (list book) :=
  [[("kalshi:T", "complement"); ("kalshi:T", "outcome")];
   [("kalshi:T", "outcome"); ("polymarket:1", "outcome")]].

Lemma complete_sets_exact_witness :
  ∃ v, make_scope demo_snapshot demo_rows = Ok v ∧
    ∀ S, S ∈ demo_sets ↔ complete_set v demo_books 2 S.
Proof.
  destruct (make_scope_ok _ _ demo_aligned) as (v & Ev & _). exists v. split; [done|].
  destruct (complete_sets_exact demo_snapshot demo_rows v demo_books 2 10 demo_aligned Ev
    ltac:(lia) ltac:(lia)) as (L & _ & _ & HL & Eq).
  rewrite (demo_computes (λ v, complete_sets v demo_books 2 10) v (Ok demo_sets) Ev) in Eq
    by (vm_compute; reflexivity).
  destruct (10 <? Z.of_nat (length L)); [discriminate|]. by injection Eq as ->.
Defined.

Lemma partition_pays_one_witness :
  ∃ v, make_scope demo_snapshot demo_rows = Ok v ∧
    ∃ shape sp, spaces v !! shape = Some sp ∧ sp_coverage sp = "EXHAUSTIVE" ∧
      payoff v [("kalshi:T", "outcome"); ("polymarket:1", "outcome")] =
        Ok [(shape, replicate (length (sp_keys sp)) 1)].
Proof.
  destruct (make_scope_ok _ _ demo_aligned) as (v & Ev & _). exists v. split; [done|].
  apply (partition_pays_one demo_snapshot demo_rows v _ demo_aligned Ev).
  apply (demo_computes (λ v, is_partition v _) v _ Ev). vm_compute. reflexivity.
Defined.
