(* ===== verification/LineWriter.v ===== *)
(** * Bounded output lines ([src/replay/strategy_sdk.py], class [LineWriter])

    What a component that writes rows needs of its writer, and the bounded NDJSON
    writer that provides it.  The file is the sequence of encoded lines; flushing,
    syncing and renaming it are not modelled. *)
From S2P Require Import Prelude Wire Json.

(** An object with [append(row)]: an accepted row is the last of the written rows. *)
Class RowWriter (W : Type) := {
  append : json → ST W ();
  rows : W → list json;
  append_rows : ∀ row w w' u, append row w = (w', Ok u) → rows w' = rows w ++ [row];
}.

(** The unbounded writer: a list of rows. *)
#[refine, export] Instance list_writer : RowWriter (list json) := {|
  append := λ row w, (w ++ [row], Ok ());
  rows := id;
|}.
Proof. by intros row w w' [] [= <-]. Defined.

Section LineWriter.
Context (dumps : json → list Byte.byte).

(** [payload] of one row. *)
Definition line (v : json) : result (list Byte.byte) :=
  p ← encoded dumps v; Ok (p ++ [Byte.x0a]).

Record LineWriter := mkLineWriter {
  max_bytes : Z; max_records : Z; max_line_bytes : Z;
  size : Z; count : Z;
  stream : list Byte.byte;
  values : list json;  (* the rows behind the lines of [stream] *)
}.

Definition new_line_writer (max_bytes max_records max_line_bytes : Z) : LineWriter :=
  mkLineWriter max_bytes max_records max_line_bytes 0 0 [] [].

Definition append_line (row : json) : ST LineWriter () :=
  w ← getS;
  payload ← liftR (line row);
  let n := Z.of_nat (length payload) in
  _ ← requireS (n <=? max_line_bytes w) "output line budget";
  _ ← requireS ((size w + n <=? max_bytes w) && (count w <? max_records w)) "output budget";
  putS (mkLineWriter (max_bytes w) (max_records w) (max_line_bytes w)
          (size w + n) (count w + 1) (stream w ++ payload) (values w ++ [row])).

(** What [finish] reports, with SHA-256 as a parameter. *)
Definition finish_line (sha256 : list Byte.byte → string) (w : LineWriter)
    : string * Z * Z :=
  (sha256 (stream w), size w, count w).

Lemma append_line_ok row w w' u :
  append_line row w = (w', Ok u) →
  ∃ payload, line row = Ok payload ∧
    Z.of_nat (length payload) ≤ max_line_bytes w ∧
    size w + Z.of_nat (length payload) ≤ max_bytes w ∧ count w < max_records w ∧
    w' = mkLineWriter (max_bytes w) (max_records w) (max_line_bytes w)
           (size w + Z.of_nat (length payload)) (count w + 1) (stream w ++ payload)
           (values w ++ [row]).
Proof.
  unfold append_line. intros H. res_inv. eexists. split; [eassumption|].
  rewrite <- Z.leb_le, <- Z.leb_le, <- Z.ltb_lt. done.
Qed.

#[refine, export] Instance line_writer : RowWriter LineWriter := {|
  append := append_line;
  rows := values;
|}.
Proof. by intros row w w' u (payload & _ & _ & _ & _ & ->)%append_line_ok. Defined.

(** The stream is the lines of the rows, within both budgets, and the counters are
    its size. *)
Definition writer_ok (w : LineWriter) : Prop :=
  ∃ lines, mapR line (values w) = Ok lines ∧ stream w = concat lines ∧
    size w = Z.of_nat (length (stream w)) ∧ count w = Z.of_nat (length (values w)) ∧
    size w ≤ Z.max 0 (max_bytes w) ∧ count w ≤ Z.max 0 (max_records w) ∧
    Forall (λ l, Z.of_nat (length l) ≤ max_line_bytes w) lines.

Lemma new_line_writer_ok mb mr ml : writer_ok (new_line_writer mb mr ml).
Proof. exists []. split_and!; simpl; try done; lia. Qed.

Lemma append_line_writer_ok row w w' u :
  writer_ok w → append_line row w = (w', Ok u) → writer_ok w'.
Proof.
  intros (lines & Hl & Hs & Hz & Hc & Hmz & Hmc & Hf) (p & Hp & H1 & H2 & H3 & ->)%append_line_ok.
  exists (lines ++ [p]). simpl. split_and!.
  - apply mapR_ok. apply mapR_ok in Hl. apply Forall2_app; [done|]. by repeat constructor.
  - by rewrite Hs, concat_app; simpl; rewrite app_nil_r.
  - rewrite length_app. lia.
  - rewrite length_app. simpl. lia.
  - lia.
  - lia.
  - apply Forall_app_2; [done|]. by repeat constructor.
Qed.
End LineWriter.
