(* ===== verification/Availability.v ===== *)
(** * Availability intervals ([src/replay/economic_sdk/availability.py])

    The engine turns a stream of cuts into half-open rows of book, member and bundle
    availability, and [Coverage] ([replay/strategies/bundle_coverage/strategy.py]) drives
    it with validated times.  Cuts are records of the fields the engine reads; JSON
    values of reasons and origins are kept as they are ([plain] only copies them). *)
From stdpp Require Import gmap fin_sets strings.
From S2P Require Import Prelude Order Wire Json BookProtocol Decoder LineWriter.

(** ** The snapshot and the cuts *)
Record Member := mkMember { market_id : string; capture_selected : bool; m_books : list book_key }.
Record Scope := mkScope { scope_end : Z; members : list Member; required_books : list book_key }.

(** One of [body["book_transitions"]]: its key, the kind of its decision and the kind
    of the decision's reason. *)
Record Transition := mkTransition { t_key : book_key; t_decision : string; t_reason : string }.
(** One trade among [body["market_events"]]. *)
Record Trade := mkTrade { tr_key : book_key; tr_disposition : string }.
Record CutBody := mkCutBody {
  c_origin : json;
  c_transitions : list Transition; c_trades : list Trade;
  c_books : gmap book_key Book;
}.

Definition c_window (c : CutBody) : bool :=
  match jget (c_origin c) "kind" with Ok kind => jeq_str kind "window" | Err _ => false end.

Definition DISPOSITIONS : list string :=
  ["observed"; "applied"; "duplicate"; "not_authority"; "invalidated"].
Definition WINDOW_REASONS : list string :=
  ["lane_missing"; "lane_invalid"; "lane_not_expected"; "visible_clock_regression"].

(** [status]: what is kept of a live book. *)
Record Status := mkStatus { st_validity : string; st_reason : json; st_source : json }.
Definition status (b : Book) : Status := mkStatus (validity b) (BookProtocol.reason b) (as_of b).

Definition availability (usable required uncaptured : Z) : string :=
  if required =? 0 then "NOT_CAPTURED"
  else if (usable =? required) && (uncaptured =? 0) then "AVAILABLE_UNDER_POLICY"
  else if usable =? 0 then "UNAVAILABLE" else "PARTIAL".

(** ** Coverage fields and rows *)
Inductive fields :=
| BookFields (state evidence : string) (reason source evidence_source : json)
| MemberFields (state : string) (usable required uncaptured : Z)
| BundleFields (state : string) (usable required uncaptured : Z).

Definition counts_json (kind state : string) (usable required uncaptured : Z) : list (string * json) :=
  [("kind", JStr kind); ("state", JStr state); ("usable_books", JInt usable);
   ("required_books", JInt required); ("uncaptured_members", JInt uncaptured)].

Definition fields_json (f : fields) : list (string * json) :=
  match f with
  | BookFields state evidence reason source evidence_source =>
      [("kind", JStr "book"); ("state", JStr state); ("evidence", JStr evidence);
       ("reason", reason); ("source", source); ("evidence_source", evidence_source)]
  | MemberFields s u r c => counts_json "member" s u r c
  | BundleFields s u r c => counts_json "bundle" s u r c
  end.

(** [comparable(f) == comparable(g)]: everything but the source. *)
Definition comparable_eqb (f g : fields) : bool :=
  match f, g with
  | BookFields s e r _ o, BookFields s' e' r' _ o' =>
      String.eqb s s' && String.eqb e e' && json_same r r' && json_same o o'
  | MemberFields s u r c, MemberFields s' u' r' c'
  | BundleFields s u r c, BundleFields s' u' r' c' =>
      String.eqb s s' && (u =? u') && (r =? r') && (c =? c')
  | _, _ => false
  end.

(** A row before it is written. *)
Record Row := mkRow {
  r_scope : nat; r_entity : string; r_start : Z; r_end : Z; r_fields : fields;
}.
Definition str_Z (n : Z) : string := if n <? 0 then "-" +:+ str_int (- n) else str_int n.
Definition row_json (r : Row) : json :=
  JObj ([("version", JInt 1); ("scope", JInt (Z.of_nat (r_scope r))); ("entity", JStr (r_entity r));
         ("start_ns", JStr (str_Z (r_start r))); ("end_ns", JStr (str_Z (r_end r)));
         ("vendor_completeness", JStr "NOT_PROVEN")] ++ fields_json (r_fields r)).

Section Engine.
Context (dumps : json → list Byte.byte) (sha256 : list Byte.byte → string).
Context {W : Type} `{RowWriter W}.
Context (scopes : list Scope) (start : Z).

(** [digest] of [replay/preparation.py] and [book_id] of the reader. *)
Definition digest (v : json) : result string := p ← encoded dumps v; Ok (sha256 p).
Definition book_id (k : book_key) : result string :=
  h ← digest (JObj [("instrument", JStr k.1); ("orientation", JStr k.2)]);
  Ok ("book:" +:+ h).

(** ** Per-scope constants *)
Record shape := mkShape { sh_id : string; sh_books : list (book_key * string); sh_outside : Z }.
Record layout := mkLayout { l_members : list shape; l_required : gset book_key }.

Definition shape_of (m : Member) : result shape :=
  books ← mapR (λ k, i ← book_id k; Ok (k, i)) (m_books m);
  Ok (mkShape ("member:" +:+ market_id m) books (if capture_selected m then 0 else 1)).

(** [_layout]; the cache of computed layouts is invisible. *)
Definition layout_of (scope : nat) : result layout :=
  match scopes !! scope with
  | None => Err IndexError
  | Some sc =>
      ms ← mapR shape_of (members sc);
      Ok (mkLayout ms (list_to_set (required_books sc)))
  end.

(** ** The engine *)
Record Engine := mkEngine {
  scope : nat; time : Z;
  books : gmap book_key Status;
  evidence : gmap book_key (string * json);
  opened : gmap string (Z * fields);
  counts : list (option (Z * Z * Z));
  trades : gmap string Z; observed_trades : Z;
  writer : W;
}.

Definition set_scope n e := mkEngine n (time e) (books e) (evidence e) (opened e) (counts e) (trades e) (observed_trades e) (writer e).
Definition set_time t e := mkEngine (scope e) t (books e) (evidence e) (opened e) (counts e) (trades e) (observed_trades e) (writer e).
Definition set_books b e := mkEngine (scope e) (time e) b (evidence e) (opened e) (counts e) (trades e) (observed_trades e) (writer e).
Definition set_evidence v e := mkEngine (scope e) (time e) (books e) v (opened e) (counts e) (trades e) (observed_trades e) (writer e).
Definition set_opened o e := mkEngine (scope e) (time e) (books e) (evidence e) o (counts e) (trades e) (observed_trades e) (writer e).
Definition set_counts c e := mkEngine (scope e) (time e) (books e) (evidence e) (opened e) c (trades e) (observed_trades e) (writer e).
Definition set_trades t n e := mkEngine (scope e) (time e) (books e) (evidence e) (opened e) (counts e) t n (writer e).
Definition set_writer w e := mkEngine (scope e) (time e) (books e) (evidence e) (opened e) (counts e) (trades e) (observed_trades e) w.

(** [__init__]; [books] is filled by [initial]. *)
Definition new_engine (w : W) : Engine :=
  mkEngine 0 start ∅ ∅ ∅ [] (list_to_map (map (λ d, (d, 0)) DISPOSITIONS)) 0 w.

Definition write_row (r : Row) : ST Engine () := zoomS writer set_writer (append (row_json r)).

(** [_emit]. *)
Definition emit (entity : string) (prior : Z * fields) (end_ : Z) : ST Engine () :=
  e ← getS;
  if prior.1 <? end_ then write_row (mkRow (scope e) entity prior.1 end_ prior.2) else mret ().

(** [_set]. *)
Definition set_fields (t : Z) (ef : string * fields) : ST Engine () :=
  e ← getS;
  let put := modifyS (λ e, set_opened (<[ef.1 := (t, ef.2)]> (opened e)) e) in
  match opened e !! ef.1 with
  | Some prior =>
      if comparable_eqb prior.2 ef.2 then mret ()
      else _ ← emit ef.1 prior t; put
  | None => put
  end.

(** [_close]. *)
Definition emit_opened (t : Z) (entity : string) : ST Engine () :=
  e ← getS;
  match opened e !! entity with
  | Some prior => emit entity prior t
  | None => liftR (Err KeyError)
  end.
Definition close (t : Z) : ST Engine () :=
  e ← getS;
  _ ← forS (emit_opened t) (sorted (elements (dom (opened e))));
  modifyS (set_opened ∅).

(** ** [_evaluate] *)

(** The fields of one book. *)
Definition book_fields (e : Engine) (k : book_key) (s : Status) : fields :=
  let ev := default ("unknown", JNull) (evidence e !! k) in
  BookFields (st_validity s) ev.1 (st_reason s) (st_source s) ev.2.

Definition usable (s : Status) : Z := if String.eqb (st_validity s) "usable" then 1 else 0.

(** [k in changed], where [None] stands for a full evaluation. *)
Definition is_changed (changed : option (gset book_key)) (k : book_key) : bool :=
  match changed with None => true | Some c => bool_decide (k ∈ c) end.

(** The loop over a member's books; the result is the count of usable ones. *)
Fixpoint eval_books (t : Z) (changed : option (gset book_key)) (bs : list (book_key * string))
    (count : Z) : ST Engine Z :=
  match bs with
  | [] => mret count
  | (k, entity) :: bs =>
      e ← getS;
      s ← liftR (match books e !! k with Some s => Ok s | None => Err KeyError end);
      _ ← (if is_changed changed k then set_fields t (entity, book_fields e k s) else mret ());
      eval_books t changed bs (count + usable s)
  end.

(** [self.counts[index] = ...]. *)
Definition put_count (index : nat) (c : Z * Z * Z) : ST Engine () :=
  e ← getS;
  if (index <? length (counts e))%nat then putS (set_counts (<[index := Some c]> (counts e)) e)
  else liftR (Err IndexError).

Definition member_fields (count required outside : Z) : fields :=
  MemberFields (availability count required outside) count required outside.

(** [any(k in changed for k, _ in books)], which a full evaluation does not ask. *)
Definition visited (changed : option (gset book_key)) (sh : shape) : bool :=
  match changed with
  | None => true
  | Some _ => existsb (λ ki, is_changed changed ki.1) (sh_books sh)
  end.

Fixpoint eval_members (t : Z) (changed : option (gset book_key)) (index : nat) (ms : list shape)
    (touched : bool) : ST Engine bool :=
  match ms with
  | [] => mret touched
  | sh :: ms =>
      if visited changed sh then
        count ← eval_books t changed (sh_books sh) 0;
        let required := Z.of_nat (length (sh_books sh)) in
        _ ← put_count index (count, required, sh_outside sh);
        _ ← set_fields t (sh_id sh, member_fields count required (sh_outside sh));
        eval_members t changed (S index) ms true
      else eval_members t changed (S index) ms touched
  end.

(** [for count, required, outside in self.counts]. *)
Definition total_counts (cs : list (option (Z * Z * Z))) : result (Z * Z * Z) :=
  foldR (λ acc c, match c with
         | Some (count, required, outside) =>
             Ok (acc.1.1 + count, acc.1.2 + required, acc.2 + outside)
         | None => Err (TypeError "cannot unpack non-iterable NoneType object")
         end) (0, 0, 0) cs.

Definition bundle_fields (c : Z * Z * Z) : fields :=
  let '(usable, total, uncaptured) := c in
  BundleFields (availability usable total uncaptured) usable total uncaptured.

Definition evaluate (t : Z) (changed : option (gset book_key)) : ST Engine () :=
  e ← getS;
  l ← liftR (layout_of (scope e));
  _ ← match changed with
      | None => modifyS (set_counts (replicate (length (l_members l)) None))
      | Some _ => mret ()
      end;
  touched ← eval_members t changed 0 (l_members l) false;
  if (touched : bool) then
    e ← getS;
    c ← liftR (total_counts (counts e));
    set_fields t ("bundle", bundle_fields c)
  else mret ().

(** ** The hooks *)

(** [_advance]: the loop over crossed scope ends. *)
Fixpoint advance_scopes (fuel : nat) (t : Z) : ST Engine () :=
  match fuel with
  | O => liftR (Err OutOfFuel)
  | S fuel =>
      e ← getS;
      match scopes !! scope e, scopes !! S (scope e) with
      | Some sc, Some _ =>
          if scope_end sc <=? t then
            _ ← close (scope_end sc);
            _ ← modifyS (λ e, set_scope (S (scope e)) e);
            _ ← evaluate (scope_end sc) None;
            advance_scopes fuel t
          else mret ()
      | _, _ => mret ()
      end
  end.
Definition advance (t : Z) : ST Engine () :=
  _ ← advance_scopes (S (length scopes)) t;
  modifyS (set_time t).

Definition initial_hook (bs : gmap book_key Book) : ST Engine () :=
  _ ← modifyS (set_books (status <$> bs));
  e ← getS;
  evaluate (time e) None.

(** The loop body of lines 78-85. *)
Definition add_evidence (c : CutBody) (tr : Transition) : ST Engine () :=
  _ ← requireS (String.eqb (t_decision tr) "invalidation") "window decision";
  _ ← requireS (in_list WINDOW_REASONS (t_reason tr)) "window reason";
  modifyS (λ e, set_evidence (<[t_key tr := (t_reason tr, c_origin c)]> (evidence e)) e).

(** Window evidence: lines 74-85; the result is [changed]. *)
Definition window_evidence (c : CutBody) : ST Engine (gset book_key) :=
  e ← getS;
  let changed := dom (evidence e) in
  _ ← modifyS (set_evidence ∅);
  _ ← forS (add_evidence c) (c_transitions c);
  mret (changed ∪ list_to_set (map t_key (c_transitions c))).

(** [self.books[k] = status(cut.books[k])]. *)
Definition read_status (c : CutBody) (tr : Transition) : ST Engine () :=
  match c_books c !! t_key tr with
  | Some b => modifyS (λ e, set_books (<[t_key tr := status b]> (books e)) e)
  | None => liftR (Err KeyError)
  end.

Definition cut_hook (c : CutBody) (t : Z) : ST Engine () :=
  _ ← advance t;
  changed ← (if c_window c then window_evidence c else mret ∅);
  _ ← forS (read_status c) (c_transitions c);
  let changed := (changed ∪ list_to_set (map t_key (c_transitions c))) : gset book_key in
  if decide (changed = ∅) then mret () else evaluate t (Some changed).

Definition count_trade (required : gset book_key) (tr : Trade) : ST Engine () :=
  if decide (tr_key tr ∈ required) then
    e ← getS;
    n ← liftR (match trades e !! tr_disposition tr with Some n => Ok n | None => Err KeyError end);
    putS (set_trades (<[tr_disposition tr := n + 1]> (trades e))
            (if String.eqb (tr_disposition tr) "duplicate" then observed_trades e
             else observed_trades e + 1) e)
  else mret ().

Definition count_trades (c : CutBody) (raw : Z) : ST Engine () :=
  if start <=? raw then
    e ← getS;
    l ← liftR (layout_of (scope e));
    forS (count_trade (l_required l)) (c_trades c)
  else mret ().

Definition terminal_hook (end_ : Z) : ST Engine () := _ ← advance end_; close end_.

(** ** [Coverage]

    [config] and [plans] are the snapshot's; [start] and [end_] are the configuration's
    instants.  Publication of the output ([finish] past its guard) is not modelled. *)
Context (config plans : json) (end_ : Z).

(** One cut as the strategy receives it: [d_body] is what [bind] reads of an initial. *)
Record Delivery := mkDelivery {
  d_sequence : Z; d_kind : string; d_body : json; d_cut : CutBody;
}.

Record Coverage := mkCoverage {
  engine : Engine; bound : bool; cov_sequence : Z; window : option json;
  cov_terminal : bool; finished : bool; cov_poisoned : bool;
}.
Definition set_engine n c := mkCoverage n (bound c) (cov_sequence c) (window c) (cov_terminal c) (finished c) (cov_poisoned c).
Definition set_bound c := mkCoverage (engine c) true (cov_sequence c) (window c) (cov_terminal c) (finished c) (cov_poisoned c).
Definition set_cov_sequence n c := mkCoverage (engine c) (bound c) n (window c) (cov_terminal c) (finished c) (cov_poisoned c).
Definition set_window o c := mkCoverage (engine c) (bound c) (cov_sequence c) (Some o) (cov_terminal c) (finished c) (cov_poisoned c).
Definition set_cov_terminal c := mkCoverage (engine c) (bound c) (cov_sequence c) (window c) true (finished c) (cov_poisoned c).
Definition set_cov_poisoned c := mkCoverage (engine c) (bound c) (cov_sequence c) (window c) (cov_terminal c) (finished c) true.

Definition new_coverage (w : W) : Coverage :=
  mkCoverage (new_engine w) false (-1) None false false false.

Definition on_engine {A} (m : ST Engine A) : ST Coverage A := zoomS engine set_engine m.

(** [int(value[field])]. *)
Definition int_field (value : json) (field : string) : result Z := v ← jget value field; py_int v.

(** [PreparedInput.bind]. *)
Definition bind_input (body : json) : ST Coverage () :=
  c ← getS;
  _ ← requireS (negb (bound c)) "initial already bound";
  _ ← forS (λ f,
         v ← liftR (jget body f); x ← liftR (jget config f);
         requireS (json_eqb v x) ("snapshot/transport " +:+ f))
       ["pins"; "start_ns"; "end_ns"; "lower_bound"];
  v ← liftR (jget body "plans");
  _ ← requireS (json_eqb v plans) "snapshot/transport plans";
  modifyS set_bound.

(** The order of windows and groups: lines 88-109 of the strategy. *)
Definition check_window (c : Coverage) (origin : json) (raw : Z) : result () :=
  match window c with
  | Some w =>
      s ← jget origin "start_ns"; e ← jget w "end_ns";
      require (json_eqb s e) "window partition"
  | None =>
      e ← (if raw <=? time (engine c) then int_field origin "end_ns" else Ok raw);
      require ((raw <=? time (engine c)) && (time (engine c) <? e)) "first window range"
  end.

Definition check_group (c : Coverage) (origin : json) (raw : Z) : result () :=
  match window c with
  | None => require false "group window"
  | Some w =>
      p ← jget origin "pin"; q ← jget w "pin";
      _ ← require (json_eqb p q) "group window";
      ws ← int_field w "start_ns";
      we ← (if ws <=? raw then int_field w "end_ns" else Ok raw);
      _ ← require ((ws <=? raw) && (raw <? we)) "group range";
      lb ← (if start <=? raw then Ok JNull else jget config "lower_bound");
      require ((start <=? raw) || jeq_str lb "expand_to_window_start") "group before requested start"
  end.

Definition coverage_cut (body : CutBody) : ST Coverage () :=
  let origin := c_origin body in
  kind ← liftR (jget origin "kind");
  let is_window := jeq_str kind "window" in
  raw ← liftR (int_field origin (if is_window then "start_ns" else "visible_ns"));
  c ← getS;
  _ ← liftR (if is_window then check_window c origin raw else check_group c origin raw);
  let t := Z.max raw start in
  _ ← requireS ((time (engine c) <=? t) && (t <? end_)) "coverage time order";
  _ ← (if is_window then modifyS (set_window origin) else mret ());
  _ ← on_engine (cut_hook body t);
  on_engine (count_trades body raw).

Definition coverage_terminal : ST Coverage () :=
  c ← getS;
  we ← liftR (match window c with Some w => int_field w "end_ns" | None => Ok (end_ - 1) end);
  _ ← requireS (end_ <=? we) "incomplete window coverage";
  _ ← on_engine (terminal_hook end_);
  modifyS set_cov_terminal.

(** [_apply]. *)
Definition coverage_apply (d : Delivery) : ST Coverage () :=
  c ← getS;
  _ ← requireS (d_sequence d =? cov_sequence c + 1) "coverage sequence";
  _ ← modifyS (set_cov_sequence (d_sequence d));
  if String.eqb (d_kind d) "initial" then
    _ ← requireS (d_sequence d =? 0) "invalid wire value";
    _ ← bind_input (d_body d);
    on_engine (initial_hook (c_books (d_cut d)))
  else
    _ ← requireS (bound c) "missing initial";
    if String.eqb (d_kind d) "terminal" then coverage_terminal
    else
      _ ← requireS (String.eqb (d_kind d) "cut") "invalid wire value";
      coverage_cut (d_cut d).

(** [__call__]. *)
Definition coverage_call (d : Delivery) : ST Coverage () := λ c,
  if cov_poisoned c || cov_terminal c then (set_cov_poisoned c, Err (ProtocolError "closed coverage"))
  else match coverage_apply d c with
       | (c', Ok _) => (c', Ok ())
       | (c', Err e) => (set_cov_poisoned c', Err e)
       end.

Definition finish_guard (c : Coverage) : result () :=
  require (cov_terminal c && negb (cov_poisoned c) && negb (finished c))
    "missing terminal / failed coverage".
End Engine.
Arguments Engine W : clear implicits.
Arguments Coverage W : clear implicits.
