(* ===== verification/AvailabilityProps.v ===== *)
(** * Properties of availability intervals ([src/replay/economic_sdk/availability.py])

    Evaluating only what changed is evaluating everything; and the rows of an accepted
    stream tile every scope for every entity and state what held at each instant. *)
From stdpp Require Import gmap fin_sets strings.
From S2P Require Import Prelude Order Wire Json BookProtocol Decoder LineWriter Availability.

(** ** Loops of [_set] *)
Lemma forS_app {S A} (f : A → ST S ()) l k s s' u :
  forS f (l ++ k) s = (s', Ok u) ↔ ∃ s1, forS f l s = (s1, Ok ()) ∧ forS f k s1 = (s', Ok u).
Proof.
  revert s. induction l as [|a l IH]; intros s; simpl.
  - unfold mret, ST_ret. naive_solver.
  - rewrite stbind_ok. setoid_rewrite stbind_ok. setoid_rewrite IH. naive_solver.
Qed.

Section Evaluate.
Context {W : Type} `{RowWriter W}.
Abbreviation Engine := (Engine W).

(** A change of [counts] goes past [_set]. *)
Lemma set_fields_counts t ef c e :
  set_fields t ef (set_counts c e) =
    ((set_counts c (set_fields t ef e).1), (set_fields t ef e).2).
Proof.
  unfold set_fields, emit, write_row, zoomS, mbind, ST_bind, getS, modifyS. simpl.
  destruct (opened e !! ef.1) as [[s f]|]; [|done]. simpl.
  destruct (comparable_eqb f ef.2); [done|]. simpl.
  destruct (s <? t); [|done]. simpl. by destruct (append _ (writer e)) as [w [u|x]].
Qed.

Lemma set_all_counts t l c e :
  forS (set_fields t) l (set_counts c e) =
    (set_counts c (forS (set_fields t) l e).1, (forS (set_fields t) l e).2).
Proof.
  revert e. induction l as [|ef l IH]; intros e; simpl; [done|].
  unfold mbind, ST_bind. rewrite set_fields_counts.
  destruct (set_fields t ef e) as [e1 [u|x]]; simpl; [apply IH|done].
Qed.

Lemma set_all_counts_ok t l c e e' :
  forS (set_fields t) l (set_counts c e) = (e', Ok ()) ↔
    ∃ e1, forS (set_fields t) l e = (e1, Ok ()) ∧ e' = set_counts c e1.
Proof.
  rewrite set_all_counts. destruct (forS (set_fields t) l e) as [e1 [[]|x]]; simpl; naive_solver.
Qed.

Lemma set_fields_ok_counts t ef c e e' :
  set_fields t ef (set_counts c e) = (e', Ok ()) ↔
    ∃ e1, set_fields t ef e = (e1, Ok ()) ∧ e' = set_counts c e1.
Proof.
  rewrite set_fields_counts. destruct (set_fields t ef e) as [e1 [[]|x]]; simpl; naive_solver.
Qed.

(** [_set] changes only the open interval of its entity and the rows. *)
Definition fixed_part (e : Engine) := (scope e, time e, books e, evidence e, counts e).

Lemma set_fields_frame t ef : frame fixed_part (set_fields (W:=W) t ef).
Proof. unfold set_fields, emit, write_row. repeat frame_step. Qed.

Lemma set_all_frame t l : frame fixed_part (forS (set_fields (W:=W) t) l).
Proof. apply frame_forS, set_fields_frame. Qed.

Lemma set_all_fixed t l (e e' : Engine) :
  forS (set_fields t) l e = (e', Ok ()) → fixed_part e' = fixed_part e.
Proof. intros E. pose proof (set_all_frame t l e) as Hf. by rewrite E in Hf. Qed.

(** ** What a full evaluation sets *)
Abbreviation observed := (gmap book_key Status * gmap book_key (string * json))%type.
Definition observed_of (e : Engine) : observed := (books e, evidence e).

Definition status_in (o : observed) (k : book_key) : Status :=
  default (mkStatus "" JNull JNull) (o.1 !! k).

Definition derive_book (o : observed) (ki : book_key * string) : string * fields :=
  let s := status_in o ki.1 in
  let ev := default ("unknown", JNull) (o.2 !! ki.1) in
  (ki.2, BookFields (st_validity s) ev.1 (st_reason s) (st_source s) ev.2).

Definition usable_count (o : observed) (bs : list (book_key * string)) : Z :=
  sumZ (map (λ ki, usable (status_in o ki.1)) bs).

Definition member_count (o : observed) (sh : shape) : Z * Z * Z :=
  (usable_count o (sh_books sh), Z.of_nat (length (sh_books sh)), sh_outside sh).

Definition derive_member (o : observed) (sh : shape) : string * fields :=
  (sh_id sh, member_fields (usable_count o (sh_books sh)) (Z.of_nat (length (sh_books sh))) (sh_outside sh)).

(** The visits of a member: its changed books, then the member. *)
Definition member_visits (changed : option (gset book_key)) (o : observed) (sh : shape)
    : list (string * fields) :=
  if visited changed sh then
    (derive_book o <$> filter (λ ki, is_changed changed ki.1 = true) (sh_books sh)) ++ [derive_member o sh]
  else [].

Definition sum_counts (cs : list (Z * Z * Z)) : Z * Z * Z :=
  foldl (λ acc c, (acc.1.1 + c.1.1, acc.1.2 + c.1.2, acc.2 + c.2)) (0, 0, 0) cs.

Definition derive_bundle (o : observed) (ms : list shape) : string * fields :=
  ("bundle", bundle_fields (sum_counts (member_count o <$> ms))).

Definition visits (changed : option (gset book_key)) (o : observed) (ms : list shape)
    : list (string * fields) :=
  (ms ≫= member_visits changed o) ++
  (if existsb (visited changed) ms then [derive_bundle o ms] else []).

Definition present (o : observed) (sh : shape) : Prop :=
  Forall (λ ki, is_Some (o.1 !! ki.1)) (sh_books sh).

(** ** [_evaluate] is its visits *)
Lemma set_fields_observed t ef (e : Engine) : observed_of (set_fields t ef e).1 = observed_of e.
Proof. pose proof (set_fields_frame t ef e) as [= _ _ Hb He _]. unfold observed_of. by rewrite Hb, He. Qed.

Lemma set_all_observed t l (e : Engine) : observed_of (forS (set_fields t) l e).1 = observed_of e.
Proof. pose proof (set_all_frame t l e) as [= _ _ Hb He _]. unfold observed_of. by rewrite Hb, He. Qed.

Lemma eval_books_visits t changed o bs n (e : Engine) :
  observed_of e = o → Forall (λ ki, is_Some (o.1 !! ki.1)) bs →
  eval_books t changed bs n e =
    (_ ← forS (set_fields t) (derive_book o <$> filter (λ ki, is_changed changed ki.1 = true) bs);
     mret (n + usable_count o bs)) e.
Proof.
  intros Ho Hp. revert n e Ho. induction Hp as [|[k x] bs [s Hs] Hp IH]; intros n e Ho.
  - unfold usable_count. simpl. by rewrite Z.add_0_r.
  - cbn [eval_books]. rewrite filter_cons. cbn [fst] in Hs |- *.
    assert (books e = o.1) as Hb by by rewrite <- Ho.
    assert (evidence e = o.2) as He by by rewrite <- Ho.
    unfold mbind at 1 2, ST_bind at 1 2, getS, liftR. rewrite Hb, Hs.
    assert (usable_count o ((k, x) :: bs) = usable s + usable_count o bs) as ->.
    { unfold usable_count, status_in. simpl. by rewrite Hs. }
    rewrite Z.add_assoc.
    assert (derive_book o (k, x) = (x, book_fields e k s)) as Hd.
    { unfold derive_book, book_fields, status_in. simpl. by rewrite Hs, He. }
    destruct (is_changed changed k) eqn:Ec.
    + rewrite decide_True by done. rewrite fmap_cons, Hd. cbn [forS].
      unfold mbind, ST_bind. pose proof (set_fields_observed t (x, book_fields e k s) e) as Ho'.
      destruct (set_fields t (x, book_fields e k s) e) as [e1 [u|err]]; [|done].
      by rewrite IH by (simpl in Ho'; congruence).
    + rewrite decide_False by done. unfold mbind at 1, ST_bind at 1, mret at 1, ST_ret at 1.
      by rewrite IH.
Qed.

Lemma eval_books_present t changed bs n (e e' : Engine) c :
  eval_books t changed bs n e = (e', Ok c) → Forall (λ ki, is_Some (books e !! ki.1)) bs.
Proof.
  revert n e. induction bs as [|[k x] bs IH]; intros n e; cbn [eval_books]; [constructor|].
  intros (e1 & e2 & (-> & ->)%getS_ok & E)%stbind_ok.
  apply stbind_ok in E as (e1 & s & [-> Es]%liftR_ok & E).
  apply stbind_ok in E as (e1 & [] & E1 & E).
  constructor; [simpl; by destruct (books e !! k)|].
  apply IH in E. assert (books e1 = books e) as <-; [|done].
  destruct (is_changed changed k).
  - pose proof (set_fields_frame t (x, book_fields e k s) e) as Hf. rewrite E1 in Hf. by injection Hf.
  - by injection E1 as ->.
Qed.

Fixpoint new_counts (changed : option (gset book_key)) (o : observed) (index : nat) (ms : list shape)
    (cs : list (option (Z * Z * Z))) : list (option (Z * Z * Z)) :=
  match ms with
  | [] => cs
  | sh :: ms => new_counts changed o (S index) ms
      (if visited changed sh then <[index := Some (member_count o sh)]> cs else cs)
  end.

Definition visited_present (changed : option (gset book_key)) (o : observed) (ms : list shape) : Prop :=
  Forall (λ sh, visited changed sh = true → present o sh) ms.

Lemma set_counts_id (e : Engine) : set_counts (counts e) e = e.
Proof. by destruct e. Qed.

(** One visited member. *)
Definition eval_member (t : Z) (changed : option (gset book_key)) (index : nat) (sh : shape)
    : ST Engine () :=
  count ← eval_books t changed (sh_books sh) 0;
  _ ← put_count index (count, Z.of_nat (length (sh_books sh)), sh_outside sh);
  set_fields t (sh_id sh, member_fields count (Z.of_nat (length (sh_books sh))) (sh_outside sh)).

Lemma eval_member_visits t changed o index sh (e e' : Engine) :
  observed_of e = o → (index < length (counts e))%nat → visited changed sh = true →
  eval_member t changed index sh e = (e', Ok ()) ↔
    present o sh ∧ ∃ e1, forS (set_fields t) (member_visits changed o sh) e = (e1, Ok ()) ∧
      e' = set_counts (<[index := Some (member_count o sh)]> (counts e)) e1.
Proof.
  intros Ho Hi Hv. unfold eval_member, member_visits. rewrite Hv.
  assert (∀ e1, forS (set_fields t) (derive_book o <$> filter (λ ki, is_changed changed ki.1 = true) (sh_books sh)) e
    = (e1, Ok ()) → counts e1 = counts e) as Hc.
  { intros e1 E. apply set_all_fixed in E as [= _ _ _ _ Hc]. done. }
  assert (∀ e1 : Engine, put_count index (member_count o sh) e1 =
    if (index <? length (counts e1))%nat
    then (set_counts (<[index := Some (member_count o sh)]> (counts e1)) e1, Ok ())
    else (e1, Err IndexError)) as Hput.
  { intros e1. unfold put_count, mbind, ST_bind, getS. by destruct (index <? _)%nat. }
  split.
  - intros (e1 & n & E1 & E)%stbind_ok. apply stbind_ok in E as (e2 & [] & E2 & E3).
    pose proof (eval_books_present _ _ _ _ _ _ _ E1) as Hp.
    assert (books e = o.1) as Hb by by rewrite <- Ho. rewrite Hb in Hp. split; [done|].
    rewrite (eval_books_visits _ _ o) in E1 by done.
    apply stbind_ok in E1 as (e1' & [] & E1 & [-> ->]%mretS_ok). specialize (Hc _ E1).
    change (0 + usable_count o (sh_books sh)) with (usable_count o (sh_books sh)) in E2, E3.
    fold (member_count o sh) in E2. rewrite Hput, Hc, (proj2 (Nat.ltb_lt _ _)) in E2 by done.
    injection E2 as <-. apply set_fields_ok_counts in E3 as (e3 & E3 & ->).
    exists e3. split; [|done]. apply forS_app. exists e1'. split; [done|].
    simpl. apply stbind_ok. by exists e3, ().
  - intros (Hp & e3 & E & ->). apply forS_app in E as (e1 & E1 & E3). specialize (Hc _ E1).
    simpl in E3. apply stbind_ok in E3 as (e3' & [] & E3 & [-> _]%mretS_ok).
    apply stbind_ok. exists e1, (usable_count o (sh_books sh)). split.
    { rewrite (eval_books_visits _ _ o) by done. apply stbind_ok. exists e1, (). done. }
    apply stbind_ok. fold (member_count o sh). eexists _, (). split.
    { rewrite Hput, Hc, (proj2 (Nat.ltb_lt _ _)) by done. reflexivity. }
    apply set_fields_ok_counts. by exists e3'.
Qed.

Lemma eval_members_visits t changed o ms index touched (e e' : Engine) b :
  observed_of e = o → (index + length ms ≤ length (counts e))%nat →
  eval_members t changed index ms touched e = (e', Ok b) ↔
    visited_present changed o ms ∧
    b = touched || existsb (visited changed) ms ∧
    ∃ e1, forS (set_fields t) (ms ≫= member_visits changed o) e = (e1, Ok ()) ∧
      e' = set_counts (new_counts changed o index ms (counts e)) e1.
Proof.
  revert index touched e. induction ms as [|sh ms IH]; intros index touched e Ho Hlen; cbn [eval_members].
  - simpl. unfold mret, ST_ret. rewrite orb_false_r. split.
    + intros [= -> ->]. split_and!; [by apply Forall_nil|done|]. exists e'. by rewrite set_counts_id.
    + intros (_ & -> & e1 & [= ->] & ->). by rewrite set_counts_id.
  - simpl in Hlen. cbn [new_counts existsb]. rewrite bind_cons.
    unfold visited_present. rewrite Forall_cons. fold (visited_present changed o ms).
    destruct (visited changed sh) eqn:Ev.
    2:{ assert (member_visits changed o sh = []) as -> by (unfold member_visits; by rewrite Ev).
        rewrite IH by (done || lia). simpl. naive_solver. }
    transitivity (∃ e1, eval_member t changed index sh e = (e1, Ok ()) ∧
      eval_members t changed (S index) ms true e1 = (e', Ok b)).
    { unfold eval_member. split.
      - intros (e1 & n & E1 & E)%stbind_ok. apply stbind_ok in E as (e2 & [] & E2 & E).
        apply stbind_ok in E as (e3 & [] & E3 & E). exists e3. split; [|done].
        apply stbind_ok. exists e1, n. split; [done|]. apply stbind_ok. by exists e2, ().
      - intros (e3 & E & E4). apply stbind_ok in E as (e1 & n & E1 & E).
        apply stbind_ok in E as (e2 & [] & E2 & E3). apply stbind_ok. exists e1, n. split; [done|].
        apply stbind_ok. exists e2, (). split; [done|]. apply stbind_ok. by exists e3, (). }
    setoid_rewrite eval_member_visits; [|done|lia|done].
    assert (∀ e1, forS (set_fields t) (member_visits changed o sh) e = (e1, Ok ()) → fixed_part e1 = fixed_part e) as Hfix
      by (intros e1; apply set_all_fixed).
    setoid_rewrite forS_app. rewrite orb_true_l, orb_true_r. split.
    + intros (e1 & (Hp & e2 & E2 & ->) & E). specialize (Hfix _ E2). injection Hfix as _ _ Hb He Hc.
      apply IH in E as (Hps & -> & e3 & E3 & ->).
      2:{ rewrite <- Ho. unfold observed_of. simpl. congruence. }
      2:{ simpl. rewrite length_insert. lia. }
      apply set_all_counts_ok in E3 as (e4 & E4 & ->). split_and!; [done|done|done|].
      exists e4. split; [by exists e2|]. done.
    + intros ((Hp & Hps) & -> & e4 & (e2 & E2 & E4) & ->). specialize (Hfix _ E2). injection Hfix as _ _ Hb He Hc.
      eexists. split; [split; [by apply Hp|]; exists e2; split; [done|reflexivity]|].
      apply IH.
      { rewrite <- Ho. unfold observed_of. simpl. congruence. }
      { simpl. rewrite length_insert. lia. }
      split_and!; [done|done|]. eexists. split; [apply set_all_counts_ok; exists e4; done|]. done.
Qed.

(** The counts of the unvisited members are those of [o]. *)
Definition counts_kept (changed : option (gset book_key)) (o : observed) (ms : list shape)
    (cs : list (option (Z * Z * Z))) : Prop :=
  Forall2 (λ sh c, visited changed sh = false → c = Some (member_count o sh)) ms cs.

Definition all_counts (o : observed) (ms : list shape) : list (option (Z * Z * Z)) :=
  (λ sh, Some (member_count o sh)) <$> ms.

Lemma new_counts_all changed o ms pre cs :
  counts_kept changed o ms cs →
  new_counts changed o (length pre) ms (pre ++ cs) = pre ++ all_counts o ms.
Proof.
  intros Hc. revert pre. induction Hc as [|sh c ms cs Hk _ IH]; intros pre; cbn [new_counts]; [done|].
  unfold all_counts. rewrite fmap_cons. fold (all_counts o ms).
  assert ((if visited changed sh then <[length pre := Some (member_count o sh)]> (pre ++ c :: cs)
           else pre ++ c :: cs) = (pre ++ [Some (member_count o sh)]) ++ cs) as ->.
  { destruct (visited changed sh).
    - rewrite insert_app_r_alt, Nat.sub_diag by lia. simpl. by rewrite <- app_assoc.
    - rewrite Hk by done. by rewrite <- app_assoc. }
  specialize (IH (pre ++ [Some (member_count o sh)])).
  rewrite length_app in IH. simpl in IH. rewrite Nat.add_1_r in IH. rewrite IH.
  by rewrite <- app_assoc.
Qed.

Lemma total_all_counts o ms :
  total_counts (all_counts o ms) = Ok (sum_counts (member_count o <$> ms)).
Proof.
  unfold total_counts, sum_counts. generalize (0, 0, 0).
  induction ms as [|sh ms IH]; intros acc; [done|]. simpl. apply IH.
Qed.

Context (dumps : json → list Byte.byte) (sha256 : list Byte.byte → string) (scopes : list Scope).
Abbreviation layout_of := (layout_of dumps sha256 scopes).
Abbreviation evaluate := (evaluate dumps sha256 scopes).

Lemma evaluate_visits t changed l o (e e' : Engine) :
  observed_of e = o → layout_of (scope e) = Ok l →
  (changed = None ∨ counts_kept changed o (l_members l) (counts e)) →
  evaluate t changed e = (e', Ok ()) ↔
    visited_present changed o (l_members l) ∧
    ∃ e1, forS (set_fields t) (visits changed o (l_members l)) e = (e1, Ok ()) ∧
      e' = set_counts (all_counts o (l_members l)) e1.
Proof.
  intros Ho Hl Hc. unfold Availability.evaluate.
  set (cs := match changed with None => replicate (length (l_members l)) None | Some _ => counts e end).
  assert (counts_kept changed o (l_members l) cs) as Hk.
  { destruct changed as [ch|]; [by destruct Hc|]. apply Forall2_same_length_lookup_2.
    - unfold cs. by rewrite length_replicate.
    - intros i sh c _ _. done. }
  assert (∀ k : ST Engine (), (_ ← match changed with None => modifyS (set_counts (replicate (length (l_members l)) None))
    | Some _ => mret () end; k) e = k (set_counts cs e)) as Hstart.
  { intros k. destruct changed; [|done]. unfold cs. by rewrite set_counts_id. }
  unfold mbind at 1 2, ST_bind at 1 2, getS at 1, liftR at 1. rewrite Hl, Hstart.
  assert (new_counts changed o 0 (l_members l) cs = all_counts o (l_members l)) as Hn
    by apply (new_counts_all changed o _ [] _ Hk).
  rewrite stbind_ok. setoid_rewrite eval_members_visits; [|done|].
  2:{ simpl. rewrite (Forall2_length _ _ _ Hk). lia. }
  cbn [counts set_counts]. rewrite Hn. unfold visits. cbn [orb].
  split.
  - intros (e1 & b & (Hp & -> & e2 & E2 & ->) & E). split; [done|].
    apply set_all_counts_ok in E2 as (e3 & E2 & ->).
    destruct (existsb (visited changed) (l_members l)).
    + apply stbind_ok in E as (e4 & e5 & (-> & ->)%getS_ok & E).
      apply stbind_ok in E as (e6 & c & [-> Ec]%liftR_ok & E). cbn [counts set_counts] in Ec.
      rewrite total_all_counts in Ec. injection Ec as <-.
      apply set_fields_ok_counts in E as (e7 & E & ->).
      apply set_fields_ok_counts in E as (e8 & E & ->).
      exists e8. split; [|done]. apply forS_app. exists e3. split; [done|]. simpl. apply stbind_ok. by exists e8, ().
    + apply mretS_ok in E as [-> _]. exists e3. by rewrite app_nil_r.
  - intros (Hp & e3 & E & ->). apply forS_app in E as (e1 & E1 & E3).
    eexists _, _. split; [split; [done|]; split; [reflexivity|]; eexists; split; [|reflexivity];
      apply set_all_counts_ok; by exists e1|].
    destruct (existsb (visited changed) (l_members l)).
    + simpl in E3. apply stbind_ok in E3 as (e3' & [] & E3 & [-> _]%mretS_ok).
      apply stbind_ok. eexists _, _. split; [reflexivity|]. apply stbind_ok. eexists _, _. split.
      { unfold liftR. cbn [counts set_counts]. rewrite total_all_counts. reflexivity. }
      apply set_fields_ok_counts. eexists. split; [apply set_fields_ok_counts; by exists e3'|]. done.
    + simpl in E3. by apply mretS_ok in E3 as [-> _].
Qed.

(** ** The interval of one entity *)

(** Rows that meet end to end from [a] to [b]. *)
Fixpoint chain (a : Z) (rs : list Row) (b : Z) : Prop :=
  match rs with
  | [] => a = b
  | r :: rs => r_start r = a ∧ a < r_end r ∧ chain (r_end r) rs b
  end.

Lemma chain_snoc a rs b r : chain a rs b → r_start r = b → b < r_end r → chain a (rs ++ [r]) (r_end r).
Proof.
  revert a. induction rs as [|q rs IH]; intros a; simpl; [intros -> -> ?; done|].
  intros (-> & Hlt & Hc) Hs Hb. split_and!; [done..|]. by apply IH.
Qed.

(** The rows of one entity of one scope. *)
Definition proj (i : nat) (x : string) (rs : list Row) : list Row :=
  filter (λ r, r_scope r = i ∧ r_entity r = x) rs.

Lemma proj_app i x rs qs : proj i x (rs ++ qs) = proj i x rs ++ proj i x qs.
Proof. apply filter_app. Qed.

Lemma proj_none i x qs : Forall (λ r, ¬ (r_scope r = i ∧ r_entity r = x)) qs → proj i x qs = [].
Proof. intros Hf. unfold proj. induction Hf as [|r qs Hr _ IH]; [done|]. by rewrite filter_cons, decide_False. Qed.

(** What was observed, newest first, and what was in force at an instant. *)
Definition history : Type := list (Z * observed).
Fixpoint in_force (h : history) (y : Z) : option observed :=
  match h with
  | [] => None
  | (t, o) :: h => if t <=? y then Some o else in_force h y
  end.

Definition all_fields (o : observed) (l : layout) : list (string * fields) := visits None o (l_members l).

(** At [y], entity [x] of scope [i] has fields that differ from [g] in their source at most. *)
Definition holds (h : history) (i : nat) (x : string) (g : fields) (y : Z) : Prop :=
  ∃ o l f, in_force h y = Some o ∧ layout_of i = Ok l ∧ (x, f) ∈ all_fields o l ∧
    comparable_eqb g f = true.

Definition truthful (h : history) (r : Row) : Prop :=
  ∀ y, r_start r ≤ y < r_end r → holds h (r_scope r) (r_entity r) (r_fields r) y.

Lemma holds_later h t o i x g y : y < t → holds h i x g y → holds ((t, o) :: h) i x g y.
Proof.
  intros Hy (o' & l & f & Hf & H'). exists o', l, f. split; [|done]. simpl.
  by rewrite (proj2 (Z.leb_gt _ _) Hy).
Qed.

Lemma truthful_later h t o r : r_end r ≤ t → truthful h r → truthful ((t, o) :: h) r.
Proof. intros Ht Hr y Hy. apply holds_later; [lia|]. by apply Hr. Qed.

(** [x] is open since [s], where its rows end, and was [g] ever since. *)
Definition open_since (h : history) (e : Engine) (rs : list Row) (a T : Z) (x : string) (s : Z) (g : fields) : Prop :=
  opened e !! x = Some (s, g) ∧ chain a (proj (scope e) x rs) s ∧ s ≤ T ∧
  ∀ y, s ≤ y < T → holds h (scope e) x g y.

(** Before and after an evaluation at [T]. *)
Definition before (h : history) (e : Engine) (rs : list Row) (a T : Z) (x : string) : Prop :=
  (opened e !! x = None ∧ proj (scope e) x rs = [] ∧ a = T) ∨ ∃ s g, open_since h e rs a T x s g.
Definition after (h : history) (e : Engine) (rs : list Row) (a T : Z) (xf : string * fields) : Prop :=
  ∃ s g, open_since h e rs a T xf.1 s g ∧ comparable_eqb g xf.2 = true.

Lemma after_before h e rs a T xf : after h e rs a T xf → before h e rs a T xf.1.
Proof. intros (s & g & Ho & _). right. by exists s, g. Qed.

(** The rows an interval [[s, t)] of [g] adds. *)
Definition interval (i : nat) (x : string) (s t : Z) (g : fields) : list Row :=
  if s <? t then [mkRow i x s t g] else [].

Lemma interval_chain i x s t g a rs :
  chain a (proj i x rs) s → s ≤ t → chain a (proj i x (rs ++ interval i x s t g)) t.
Proof.
  intros Hc Hs. rewrite proj_app. unfold interval. destruct (Z.ltb_spec s t) as [Hlt|Hge].
  - unfold proj at 2. rewrite filter_cons, decide_True by done. rewrite filter_nil.
    apply (chain_snoc _ _ _ (mkRow i x s t g) Hc); done.
  - rewrite app_nil_r. by replace t with s by lia.
Qed.

Lemma interval_other i x s t g j y : ¬ (j = i ∧ y = x) → proj j y (interval i x s t g) = [].
Proof. intros Hn. apply proj_none. unfold interval. destruct (s <? t); repeat constructor. simpl. naive_solver. Qed.

(** Rows added at [T] by operations on the entities [xs] of the current scope. *)
Definition added (h : history) (e : Engine) (T : Z) (xs : list string) (r : Row) : Prop :=
  r_scope r = scope e ∧ r_entity r ∈ xs ∧ r_end r ≤ T ∧ truthful h r.

Lemma emit_rows x s g t (e e' : Engine) :
  emit x (s, g) t e = (e', Ok ()) →
  fixed_part e' = fixed_part e ∧ opened e' = opened e ∧
  rows (writer e') = rows (writer e) ++ map row_json (interval (scope e) x s t g).
Proof.
  unfold emit, interval. intros (e1 & e2 & (-> & ->)%getS_ok & E)%stbind_ok. cbn [fst snd] in E.
  destruct (s <? t).
  - unfold write_row, zoomS in E. destruct (append _ (writer e)) as [w [u|err]] eqn:Ea; [|done].
    injection E as <-. apply append_rows in Ea. done.
  - apply mretS_ok in E as [-> _]. simpl. by rewrite app_nil_r.
Qed.

Definition proper_fields (f : fields) : Prop := comparable_eqb f f = true.

(** One [_set] at [T]. *)
Lemma set_fields_step h (e e' : Engine) rs a T xf :
  proper_fields xf.2 →
  rows (writer e) = map row_json rs → set_fields T xf e = (e', Ok ()) →
  fixed_part e' = fixed_part e ∧ ∃ qs,
    rows (writer e') = map row_json (rs ++ qs) ∧
    (∀ y, y ≠ xf.1 → opened e' !! y = opened e !! y ∧ ∀ i, proj i y qs = []) ∧
    (before h e rs a T xf.1 → Forall (added h e T [xf.1]) qs ∧ after h e' (rs ++ qs) a T xf).
Proof.
  destruct xf as [x f]. cbn [fst snd]. intros Hp Hr E.
  pose proof (set_fields_frame T (x, f) e) as Hfix. rewrite E in Hfix. split; [done|].
  injection Hfix as Hsc _ _ _ _.
  unfold set_fields in E. apply stbind_ok in E as (e1 & e2 & (-> & ->)%getS_ok & E). cbn [fst snd] in E.
  destruct (opened e !! x) as [[s g]|] eqn:Ex.
  - destruct (comparable_eqb g f) eqn:Ec; cbn [snd] in E.
    + rewrite Ec in E. apply mretS_ok in E as [-> _]. exists []. rewrite app_nil_r. split_and!; [done|done|].
      intros Hb. split; [constructor|]. destruct Hb as [(? & _)|(s' & g' & Ho)]; [congruence|].
      destruct Ho as (Eo & Ho). rewrite Ex in Eo. injection Eo as <- <-. exists s, g. done.
    + rewrite Ec in E. apply stbind_ok in E as (e1 & [] & E1 & ->%modifyS_ok).
      apply emit_rows in E1 as (Hf1 & Ho1 & Hr1). exists (interval (scope e) x s T g). split_and!.
      * cbn [writer set_opened]. by rewrite Hr1, Hr, map_app.
      * intros y Hy. cbn [opened set_opened]. rewrite lookup_insert_ne, Ho1 by done. split; [done|].
        intros i. apply interval_other. naive_solver.
      * intros [(? & _)|(s' & g' & Eo & Hc & Hs & Hh)]; [congruence|]. rewrite Ex in Eo. injection Eo as <- <-. split.
        -- unfold interval. destruct (s <? T); [|constructor]. repeat constructor; simpl; [lia|done].
        -- exists T, f. split; [|done]. split_and!; [cbn [opened set_opened]; by rewrite lookup_insert_eq| |lia|lia].
           rewrite Hsc. by apply interval_chain.
  - apply modifyS_ok in E as ->. exists []. rewrite app_nil_r. split_and!; [done| |].
    + intros y Hy. cbn [opened set_opened]. by rewrite lookup_insert_ne.
    + intros [(_ & Hn & ->)|(s' & g' & Eo & _)]; [|congruence]. split; [constructor|].
      exists T, f. split; [|done]. split_and!; [cbn [opened set_opened]; by rewrite lookup_insert_eq| |lia|lia].
      cbn [scope set_opened fst]. by rewrite Hn.
Qed.

(** An entity whose interval an operation leaves alone. *)
Lemma before_frame h (e e' : Engine) rs qs a T x :
  scope e' = scope e → opened e' !! x = opened e !! x → proj (scope e) x qs = [] →
  before h e rs a T x → before h e' (rs ++ qs) a T x.
Proof.
  intros Hs Ho Hq. unfold before, open_since. rewrite Ho, Hs, proj_app, Hq, app_nil_r. done.
Qed.

Lemma after_frame h (e e' : Engine) rs qs a T xf :
  scope e' = scope e → opened e' !! xf.1 = opened e !! xf.1 → proj (scope e) xf.1 qs = [] →
  after h e rs a T xf → after h e' (rs ++ qs) a T xf.
Proof.
  intros Hs Ho Hq. unfold after, open_since. rewrite Ho, Hs, proj_app, Hq, app_nil_r. done.
Qed.

(** All the [_set]s of an evaluation at [T]. *)
Lemma set_all_step h a T l (e e' : Engine) rs :
  NoDup l.*1 → Forall (λ xf, proper_fields xf.2) l → rows (writer e) = map row_json rs →
  forS (set_fields T) l e = (e', Ok ()) → Forall (λ xf, before h e rs a T xf.1) l →
  ∃ qs, rows (writer e') = map row_json (rs ++ qs) ∧
    (∀ y, y ∉ l.*1 → opened e' !! y = opened e !! y) ∧
    Forall (added h e T l.*1) qs ∧ Forall (after h e' (rs ++ qs) a T) l.
Proof.
  revert e rs. induction l as [|xf l IH]; intros e rs Hn Hp Hr E Hb.
  { injection E as ->. exists []. rewrite app_nil_r. split_and!; [done|done|constructor|constructor]. }
  rewrite fmap_cons in Hn. apply NoDup_cons in Hn as [Hx Hn].
  apply Forall_cons in Hp as [Hpx Hp], Hb as [Hbx Hb].
  cbn [forS] in E. apply stbind_ok in E as (e1 & [] & E1 & E).
  destruct (set_fields_step h e e1 rs a T xf Hpx Hr E1) as (Hf & qs & Hr1 & Hoth & Hstep).
  destruct (Hstep Hbx) as (Hadd & Haft). pose proof (f_equal (λ p, p.1.1.1.1) Hf) as Hsc. simpl in Hsc.
  destruct (IH e1 (rs ++ qs) Hn Hp Hr1 E) as (qs' & Hr2 & Ho2 & Hadd2 & Haft2).
  { apply Forall_forall. intros yf Hyf. rewrite Forall_forall in Hb.
    destruct (Hoth yf.1) as [Hy1 Hy2].
    { intros Ey. apply Hx. rewrite <- Ey. by apply list_elem_of_fmap_2. }
    apply (before_frame _ e); [done|done|apply Hy2|by apply Hb]. }
  pose proof (set_all_fixed _ _ _ _ E) as Hf2. pose proof (f_equal (λ p, p.1.1.1.1) Hf2) as Hsc2. simpl in Hsc2.
  exists (qs ++ qs'). rewrite app_assoc. split_and!.
  - done.
  - intros y Hy. rewrite fmap_cons, not_elem_of_cons in Hy. destruct Hy as [Hy1 Hy2].
    rewrite Ho2 by done. by apply Hoth.
  - apply Forall_app. split; (eapply Forall_impl; [eassumption|]); intros r (H1 & H2 & H3 & H4).
    + split_and!; [done| |done|done]. rewrite fmap_cons. apply elem_of_cons. left.
      by apply list_elem_of_singleton in H2.
    + split_and!; [congruence| |done|done]. rewrite fmap_cons. apply elem_of_cons. by right.
  - constructor; [|done]. apply (after_frame _ e1); [done|by apply Ho2| |done].
    apply proj_none. eapply Forall_impl; [exact Hadd2|]. intros r (_ & Hin & _) [_ Heq].
    apply Hx. by rewrite <- Heq.
Qed.

(** [_close] at [T]: every open interval ends there. *)
Lemma emit_opened_rows T x (e e' : Engine) :
  emit_opened T x e = (e', Ok ()) → ∃ s g, opened e !! x = Some (s, g) ∧ emit x (s, g) T e = (e', Ok ()).
Proof.
  unfold emit_opened. intros (e1 & e2 & (-> & ->)%getS_ok & E)%stbind_ok.
  destruct (opened e !! x) as [[s g]|]; [by exists s, g|done].
Qed.

Lemma emit_all_step h a T xs (e e' : Engine) rs :
  NoDup xs → rows (writer e) = map row_json rs →
  forS (emit_opened T) xs e = (e', Ok ()) → Forall (before h e rs a T) xs →
  fixed_part e' = fixed_part e ∧ ∃ qs,
    rows (writer e') = map row_json (rs ++ qs) ∧ opened e' = opened e ∧
    Forall (added h e T xs) qs ∧ Forall (λ x, chain a (proj (scope e) x (rs ++ qs)) T) xs.
Proof.
  revert e rs. induction xs as [|x xs IH]; intros e rs Hn Hr E Hb.
  { injection E as ->. split; [done|]. exists []. rewrite app_nil_r. split_and!; [done|done|constructor|constructor]. }
  apply NoDup_cons in Hn as [Hx Hn]. apply Forall_cons in Hb as [Hbx Hb].
  cbn [forS] in E. apply stbind_ok in E as (e1 & [] & E1 & E).
  apply emit_opened_rows in E1 as (s & g & Ex & E1).
  destruct Hbx as [(? & _)|(s' & g' & Eo & Hc & Hs & Hh)]; [congruence|].
  rewrite Ex in Eo. injection Eo as <- <-.
  apply emit_rows in E1 as (Hf & Ho & Hr1). pose proof (f_equal (λ p, p.1.1.1.1) Hf) as Hsc. simpl in Hsc.
  set (qs := interval (scope e) x s T g) in *.
  destruct (IH e1 (rs ++ qs) Hn) as (Hf2 & qs' & Hr2 & Ho2 & Hadd2 & Hch2); [|done| |].
  { by rewrite Hr1, Hr, map_app. }
  { apply Forall_forall. intros y Hy. rewrite Forall_forall in Hb.
    apply (before_frame _ e); [done|by rewrite Ho| |by apply Hb]. apply interval_other.
    intros [_ ->]. done. }
  split; [congruence|]. exists (qs ++ qs'). rewrite app_assoc. split_and!.
  - done.
  - congruence.
  - apply Forall_app. split.
    + unfold qs, interval. destruct (s <? T); [|constructor]. repeat constructor; simpl; [lia|done].
    + eapply Forall_impl; [exact Hadd2|]. intros r (H1 & H2 & H3 & H4).
      split_and!; [congruence|by right|done|done].
  - constructor; [|by rewrite <- Hsc]. rewrite proj_app, (proj_none _ _ qs'), app_nil_r.
    + by apply interval_chain.
    + eapply Forall_impl; [exact Hadd2|]. intros r (_ & Hin & _) [_ Heq]. apply Hx. by rewrite <- Heq.
Qed.

(** ** The invariant of the engine *)
Context (start : Z).

Definition entities (l : layout) : list string := (all_fields (∅, ∅) l).*1.

Lemma all_fields_entities o l : (all_fields o l).*1 = entities l.
Proof.
  unfold entities, all_fields, visits. rewrite !fmap_app. f_equal.
  - induction (l_members l) as [|sh ms IH]; [done|]. rewrite !bind_cons, !fmap_app, IH. f_equal.
    unfold member_visits. cbn [visited]. rewrite !fmap_app. f_equal.
    by rewrite <- !list_fmap_compose.
  - by destruct (existsb _ _).
Qed.

(** JSON values that are the same as themselves, as every decoded value is. *)
Definition proper (v : json) : Prop := json_same v v = true.
Definition proper_observed (o : observed) : Prop :=
  map_Forall (λ _ s, proper (st_reason s)) o.1 ∧ map_Forall (λ _ ev, proper ev.2) o.2.

Lemma proper_all_fields o l : proper_observed o → Forall (λ xf, proper_fields xf.2) (all_fields o l).
Proof.
  intros [Hs He].
  assert (∀ m, proper_fields (derive_member o m).2) as Hm.
  { intros m. unfold proper_fields, derive_member, member_fields. simpl. by rewrite String.eqb_refl, !Z.eqb_refl. }
  apply Forall_app. split.
  - apply Forall_forall. intros xf (sh & Hxf & _)%list_elem_of_bind.
    unfold member_visits in Hxf. cbn [visited] in Hxf.
    apply elem_of_app in Hxf as [(ki & -> & _)%list_elem_of_fmap| ->%list_elem_of_singleton]; [|apply Hm].
    unfold proper_fields, derive_book, status_in. simpl. rewrite !String.eqb_refl. simpl.
    apply andb_true_iff. split.
    + destruct (o.1 !! ki.1) as [s|] eqn:E; [|done]. simpl. by apply (Hs _ _ E).
    + destruct (o.2 !! ki.1) as [ev|] eqn:E; [|done]. simpl. by apply (He _ _ E).
  - destruct (existsb _ _); repeat constructor. unfold proper_fields, derive_bundle, bundle_fields. simpl.
    destruct (sum_counts _) as [[??]?]. simpl. by rewrite String.eqb_refl, !Z.eqb_refl.
Qed.

(** Where the rows of scope [i] begin; they end where those of the next begin. *)
Definition scope_start (i : nat) : Z :=
  match i with
  | O => start
  | S j => match scopes !! j with Some sc => scope_end sc | None => start end
  end.

Definition rows_past (i : nat) (rs : list Row) : Prop :=
  Forall (λ r, (r_scope r ≤ i)%nat ∧ ∃ l, layout_of (r_scope r) = Ok l ∧ r_entity r ∈ entities l) rs ∧
  ∀ j l x, (j < i)%nat → layout_of j = Ok l → x ∈ entities l →
    chain (scope_start j) (proj j x rs) (scope_start (S j)).

(** A state about to be evaluated at [T], and one that was evaluated at or before [T]. *)
Record ready (h : history) (e : Engine) (rs : list Row) (l : layout) (T : Z) : Prop := {
  rd_rows : rows (writer e) = map row_json rs;
  rd_layout : layout_of (scope e) = Ok l;
  rd_history : ∃ t0 h', h = (t0, observed_of e) :: h' ∧ t0 ≤ T;
  rd_proper : proper_observed (observed_of e);
  rd_entities : Forall (before h e rs (scope_start (scope e)) T) (entities l);
  rd_opened : ∀ x, is_Some (opened e !! x) → x ∈ entities l;
  rd_truth : Forall (λ r, r_end r ≤ T ∧ truthful h r) rs;
  rd_past : rows_past (scope e) rs;
}.
Record inv (h : history) (e : Engine) (rs : list Row) (l : layout) (T : Z) : Prop := {
  inv_ready : ready h e rs l T;
  inv_present : visited_present None (observed_of e) (l_members l);
  inv_counts : counts e = all_counts (observed_of e) (l_members l);
  inv_after : Forall (after h e rs (scope_start (scope e)) T) (all_fields (observed_of e) l);
}.

Lemma added_past h e T l rs qs :
  layout_of (scope e) = Ok l → Forall (added h e T (entities l)) qs →
  rows_past (scope e) rs → rows_past (scope e) (rs ++ qs).
Proof.
  intros Hl Ha [Hs Hc]. split.
  - apply Forall_app. split; [done|]. eapply Forall_impl; [exact Ha|].
    intros r (-> & Hin & _). split; [lia|]. by exists l.
  - intros j l' x Hj Hl' Hx. rewrite proj_app, (proj_none _ _ qs), app_nil_r; [by eapply Hc|].
    eapply Forall_impl; [exact Ha|]. intros r (Hr & _) [Hr' _]. lia.
Qed.

Lemma added_truth h e T xs rs qs :
  Forall (added h e T xs) qs → Forall (λ r, r_end r ≤ T ∧ truthful h r) rs →
  Forall (λ r, r_end r ≤ T ∧ truthful h r) (rs ++ qs).
Proof.
  intros Ha Ht. apply Forall_app. split; [done|]. eapply Forall_impl; [exact Ha|]. by intros r (_ & _ & ? & ?).
Qed.

(** A full evaluation establishes the invariant. *)
Lemma ready_evaluate h (e e' : Engine) rs l T :
  NoDup (entities l) → ready h e rs l T → evaluate T None e = (e', Ok ()) →
  ∃ qs, inv h e' (rs ++ qs) l T ∧ scope e' = scope e ∧ time e' = time e ∧ observed_of e' = observed_of e.
Proof.
  intros Hn [Hr Hl Hh Hp He Ho Ht Hpast] E. set (o := observed_of e) in *.
  apply (evaluate_visits T None l o) in E as (Hpres & e1 & E & ->); [|done|done|by left].
  fold (all_fields o l) in E.
  destruct (set_all_step h (scope_start (scope e)) T (all_fields o l) e e1 rs) as (qs & Hr' & Hoth & Hadd & Haft).
  - by rewrite all_fields_entities.
  - by apply proper_all_fields.
  - done.
  - done.
  - apply Forall_forall. intros xf Hxf. rewrite Forall_forall in He. apply He.
    rewrite <- (all_fields_entities o). by apply list_elem_of_fmap_2.
  - rewrite all_fields_entities in Hadd, Hoth.
    pose proof (set_all_fixed _ _ _ _ E) as [= Hs Htm Hb Hev _].
    assert (observed_of (set_counts (all_counts o (l_members l)) e1) = o) as Hobs.
    { unfold o, observed_of. cbn [books evidence set_counts]. by rewrite Hb, Hev. }
    assert (Forall (after h (set_counts (all_counts o (l_members l)) e1) (rs ++ qs) (scope_start (scope e)) T)
      (all_fields o l)) as Haft' by done.
    exists qs. split; [|cbn [scope time set_counts]; done].
    split; rewrite ?Hobs; cbn [scope set_counts counts]; rewrite ?Hs; [|done|done|done].
    split; rewrite ?Hobs; cbn [scope set_counts writer opened]; rewrite ?Hs; try done.
    + rewrite <- (all_fields_entities o). apply Forall_fmap. eapply Forall_impl; [exact Haft'|].
      intros xf Hxf. by apply after_before.
    + intros x Hx. destruct (decide (x ∈ entities l)) as [|Hx']; [done|].
      rewrite Hoth in Hx by done. by apply Ho.
    + by eapply added_truth.
    + by eapply added_past.
Qed.

(** Time passes. *)
Lemma inv_tick h e rs l T T' : T ≤ T' → inv h e rs l T → inv h e rs l T'.
Proof.
  intros HT [[Hr Hl (t0 & h' & Hh & H0) Hp He Ho Ht Hpast] Hpres Hcts Haft].
  assert (Forall (after h e rs (scope_start (scope e)) T') (all_fields (observed_of e) l)) as Haft'.
  { apply Forall_forall. intros xf Hxf. rewrite Forall_forall in Haft.
    destruct (Haft _ Hxf) as (s & g & (Eo & Hc & Hs & Hy) & Hg). exists s, g. split; [|done].
    split_and!; [done|done|lia|]. intros y Hy'. destruct (decide (y < T)); [apply Hy; lia|].
    exists (observed_of e), l, xf.2. split_and!; [|done| |done].
    - rewrite Hh. simpl. by rewrite (proj2 (Z.leb_le _ _)) by lia.
    - by destruct xf. }
  split; [|done..]. split; [done|done| |done| |done| |done].
  - exists t0, h'. split; [done|lia].
  - rewrite <- (all_fields_entities (observed_of e)). apply Forall_fmap. eapply Forall_impl; [exact Haft'|].
    intros xf Hxf. by apply after_before.
  - eapply Forall_impl; [exact Ht|]. intros r [? ?]. split; [lia|done].
Qed.

(** Closing at [T] completes the rows of the scope. *)
Lemma inv_close h (e e' : Engine) rs l T :
  inv h e rs l T → close T e = (e', Ok ()) →
  fixed_part e' = fixed_part e ∧ opened e' = ∅ ∧ ∃ qs,
    rows (writer e') = map row_json (rs ++ qs) ∧
    Forall (λ r, r_end r ≤ T ∧ truthful h r) (rs ++ qs) ∧ rows_past (scope e) (rs ++ qs) ∧
    Forall (λ x, chain (scope_start (scope e)) (proj (scope e) x (rs ++ qs)) T) (entities l).
Proof.
  intros [[Hr Hl Hh Hp He Ho Ht Hpast] Hpres Hcts Haft] E. unfold close in E.
  apply stbind_ok in E as (e1 & e2 & (-> & ->)%getS_ok & E).
  apply stbind_ok in E as (e1 & [] & E & ->%modifyS_ok).
  set (xs := sorted (elements (dom (opened e)))) in *.
  assert (∀ x, x ∈ xs ↔ is_Some (opened e !! x)) as Hxs.
  { intros x. unfold xs. by rewrite sorted_elem, elem_of_elements, elem_of_dom. }
  destruct (emit_all_step h (scope_start (scope e)) T xs e e1 rs) as (Hf & qs & Hr' & _ & Hadd & Hch).
  - unfold xs. rewrite sorted_perm. apply NoDup_elements.
  - done.
  - done.
  - apply Forall_forall. intros x Hx%Hxs%Ho. rewrite Forall_forall in He. by apply He.
  - assert (Forall (added h e T (entities l)) qs) as Hadd'.
    { eapply Forall_impl; [exact Hadd|]. intros r (H1 & H2 & H3 & H4). split_and!; [done| |done|done].
      by apply Ho, Hxs. }
    split; [done|]. split; [done|]. exists qs. split_and!.
    + done.
    + by eapply added_truth.
    + by eapply added_past.
    + apply Forall_forall. intros x Hx. rewrite Forall_forall in Hch. apply Hch, Hxs.
      rewrite <- (all_fields_entities (observed_of e)) in Hx. apply list_elem_of_fmap in Hx as (xf & -> & Hxf).
      rewrite Forall_forall in Haft. destruct (Haft _ Hxf) as (s & g & (Eo & _) & _). by rewrite Eo.
Qed.

(** ** Evaluating what changed is evaluating everything *)
Definition settled (e : Engine) (xf : string * fields) : Prop :=
  ∃ s g, opened e !! xf.1 = Some (s, g) ∧ comparable_eqb g xf.2 = true.

Lemma settled_noop t xf (e : Engine) : settled e xf → set_fields t xf e = (e, Ok ()).
Proof.
  intros (s & g & E & Hg). unfold set_fields, mbind, ST_bind, getS. rewrite E. cbn [snd]. by rewrite Hg.
Qed.

Lemma set_fields_opened t xf (e : Engine) y :
  y ≠ xf.1 → opened (set_fields t xf e).1 !! y = opened e !! y.
Proof.
  intros Hy. unfold set_fields, mbind, ST_bind, getS, modifyS, emit, write_row, zoomS.
  destruct (opened e !! xf.1) as [[s g]|]; cbn [fst snd]; [|simpl; by rewrite lookup_insert_ne].
  destruct (comparable_eqb g xf.2); [done|]. unfold mbind, ST_bind, getS. cbn [fst snd].
  destruct (s <? t); cbn [fst snd opened set_opened]; [|simpl; by rewrite lookup_insert_ne].
  destruct (append _ (writer e)) as [w [u|x]]; simpl; [by rewrite lookup_insert_ne|done].
Qed.

Lemma skip_settled t l k (e : Engine) :
  k `sublist_of` l → NoDup l.*1 → (∀ xf, xf ∈ l → xf ∉ k → settled e xf) →
  forS (set_fields t) l e = forS (set_fields t) k e.
Proof.
  intros Hsub. revert e. induction Hsub as [|xf k l Hsub IH|xf k l Hsub IH]; intros e Hn Hs; [done| |];
    rewrite fmap_cons in Hn; apply NoDup_cons in Hn as [Hx Hn].
  - cbn [forS]. unfold mbind, ST_bind. pose proof (set_fields_opened t xf e) as Ho.
    destruct (set_fields t xf e) as [e1 [u|err]]; [|done]. cbn [fst] in Ho. apply IH; [done|].
    intros yf Hyf Hk. destruct (Hs yf) as (s & g & E & Hg); [by right| |].
    + rewrite not_elem_of_cons. split; [|done]. intros ->. apply Hx. by apply list_elem_of_fmap_2.
    + exists s, g. split; [|done]. rewrite Ho; [done|]. intros Ey. apply Hx. rewrite <- Ey.
      by apply list_elem_of_fmap_2.
  - cbn [forS]. unfold mbind, ST_bind. rewrite (settled_noop t xf).
    + apply IH; [done|]. intros yf Hyf Hk. apply Hs; [by right|done].
    + apply Hs; [by left|]. intros Hk. apply Hx. apply list_elem_of_fmap_2.
      by eapply elem_of_sublist.
Qed.

Lemma visits_sublist ch o ms : visits (Some ch) o ms `sublist_of` visits None o ms.
Proof.
  unfold visits. apply sublist_app.
  - induction ms as [|sh ms IH]; [done|]. rewrite !bind_cons. apply sublist_app; [|done].
    unfold member_visits. cbn [visited]. destruct (existsb _ _); [|apply sublist_nil_l].
    apply sublist_app; [|done]. apply fmap_sublist.
    assert (filter (λ ki : book_key * string, is_changed None ki.1 = true) (sh_books sh) = sh_books sh) as ->.
    { induction (sh_books sh) as [|ki bs IHb]; [done|]. by rewrite filter_cons, decide_True, IHb. }
    apply sublist_filter.
  - destruct ms as [|sh ms]; [done|]. simpl. destruct (_ || _); [done|apply sublist_nil_l].
Qed.

(** The observations agree on the books that did not change. *)
Definition agree_off (ch : gset book_key) (o o' : observed) : Prop :=
  ∀ k, k ∉ ch → o.1 !! k = o'.1 !! k ∧ o.2 !! k = o'.2 !! k.

Lemma agree_usable ch o o' sh :
  agree_off ch o o' → visited (Some ch) sh = false →
  usable_count o' (sh_books sh) = usable_count o (sh_books sh).
Proof.
  intros Ha Hv. unfold visited in Hv. unfold usable_count.
  induction (sh_books sh) as [|ki bs IH]; [done|]. simpl in Hv. apply orb_false_iff in Hv as [Hk Hv].
  apply bool_decide_eq_false in Hk. simpl. rewrite (IH Hv). unfold status_in.
  by destruct (Ha _ Hk) as [-> _].
Qed.

Lemma visited_full ch o o' ms xf :
  agree_off ch o o' → xf ∈ visits None o' ms → xf ∉ visits (Some ch) o' ms → xf ∈ visits None o ms.
Proof.
  intros Ha Hin Hout. unfold visits in *. rewrite elem_of_app in *.
  destruct Hin as [Hin|Hin].
  - left. apply list_elem_of_bind in Hin as (sh & Hxf & Hsh). apply list_elem_of_bind. exists sh. split; [|done].
    assert (xf ∉ member_visits (Some ch) o' sh) as Hno.
    { intros Hm. apply Hout. left. apply list_elem_of_bind. by exists sh. }
    unfold member_visits in *. cbn [visited] in Hxf |- *.
    apply elem_of_app in Hxf as [(ki & -> & Hki)%list_elem_of_fmap| ->%list_elem_of_singleton].
    + apply elem_of_app. left. apply list_elem_of_fmap. exists ki. split; [|done].
      assert (ki.1 ∉ ch) as Hk.
      { intros Hk. apply Hno. apply list_elem_of_filter in Hki as [_ Hki].
        assert (visited (Some ch) sh = true) as ->.
        { apply existsb_exists. exists ki. split; [by apply list_elem_of_In|]. by apply bool_decide_eq_true. }
        apply elem_of_app. left. apply list_elem_of_fmap_2, list_elem_of_filter. split; [|done].
        by apply bool_decide_eq_true. }
      destruct (Ha _ Hk) as [H1 H2]. unfold derive_book, status_in. by rewrite H1, H2.
    + apply elem_of_app. right. apply list_elem_of_singleton.
      destruct (visited (Some ch) sh) eqn:Ev; [exfalso; apply Hno, elem_of_app; right; by left|].
      unfold derive_member. by rewrite (agree_usable _ _ _ _ Ha Ev).
  - right. destruct (existsb (visited None) ms); [|done]. apply list_elem_of_singleton in Hin as ->.
    destruct (existsb (visited (Some ch)) ms) eqn:Ev; [exfalso; apply Hout; right; by left|].
    apply list_elem_of_singleton. unfold derive_bundle. do 2 f_equal.
    assert (member_count o' <$> ms = member_count o <$> ms) as ->; [|done].
    apply list_fmap_ext. intros i sh Hi. unfold member_count. erewrite agree_usable; [done|exact Ha|].
    destruct (visited (Some ch) sh) eqn:E; [|done]. apply not_true_iff_false in Ev.
    destruct Ev. apply existsb_exists. exists sh. split; [|done].
    apply list_elem_of_In. by eapply list_elem_of_lookup_2.
Qed.

Lemma evaluate_incremental t ch l o (e e' : Engine) :
  layout_of (scope e) = Ok l → NoDup (entities l) → agree_off ch o (observed_of e) →
  visited_present None o (l_members l) → counts e = all_counts o (l_members l) →
  Forall (settled e) (all_fields o l) →
  evaluate t (Some ch) e = (e', Ok ()) ↔ evaluate t None e = (e', Ok ()).
Proof.
  intros Hl Hn Ha Hpres Hc Hset. set (o' := observed_of e) in *.
  rewrite (evaluate_visits t (Some ch) l o'), (evaluate_visits t None l o'); [|done|done|by left|done|done|right].
  2:{ rewrite Hc. apply Forall2_fmap_r, Forall_Forall2_diag, Forall_forall. intros sh _ Hv.
      unfold member_count. by rewrite (agree_usable _ _ _ _ Ha Hv). }
  assert (forS (set_fields t) (visits None o' (l_members l)) e = forS (set_fields t) (visits (Some ch) o' (l_members l)) e) as ->.
  { apply skip_settled; [apply visits_sublist| |].
    - change (NoDup (all_fields o' l).*1). by rewrite all_fields_entities.
    - intros xf Hin Hout. rewrite Forall_forall in Hset. apply Hset. by eapply visited_full. }
  assert (visited_present (Some ch) o' (l_members l) ↔ visited_present None o' (l_members l)) as ->; [|done].
  unfold visited_present in *. rewrite Forall_forall in Hpres.
  rewrite !Forall_forall. split; intros Hv sh Hsh Hvis; [|by apply Hv].
  destruct (visited (Some ch) sh) eqn:E; [by apply Hv|].
  specialize (Hpres sh Hsh eq_refl). unfold present in *.
  rewrite Forall_forall in Hpres. rewrite Forall_forall. intros ki Hki.
  destruct (Ha ki.1) as [<- _]; [|by apply Hpres]. intros Hk.
  apply not_true_iff_false in E. destruct E. apply existsb_exists. exists ki.
  split; [by apply list_elem_of_In|]. by apply bool_decide_eq_true.
Qed.
End Evaluate.
