(* ===== verification/CoverageProps.v ===== *)
(** * Bundle coverage ([src/replay/strategies/bundle_coverage/strategy.py])

    The hooks of the availability engine keep its invariant, and a stream that
    [Coverage] accepts up to its terminal leaves rows that tile every scope. *)
From stdpp Require Import gmap fin_sets strings.
From S2P Require Import Prelude Order Wire Json BookProtocol Decoder LineWriter Availability AvailabilityProps.

Section Hooks.
Context {W : Type} `{RowWriter W}.
Context (dumps : json → list Byte.byte) (sha256 : list Byte.byte → string) (scopes : list Scope).
Context (start end_ : Z).
Abbreviation Engine := (Engine W).
Abbreviation observed := (gmap book_key Status * gmap book_key (string * json))%type.
Abbreviation layout_of := (layout_of dumps sha256 scopes).
Abbreviation evaluate := (evaluate dumps sha256 scopes).
Abbreviation advance_scopes := (advance_scopes dumps sha256 scopes).
Abbreviation advance := (advance dumps sha256 scopes).
Abbreviation cut_hook := (cut_hook dumps sha256 scopes).
Abbreviation inv := (inv dumps sha256 scopes start).
Abbreviation ready := (ready dumps sha256 scopes start).
Abbreviation scope_start := (scope_start scopes start).
Abbreviation truthful := (truthful dumps sha256 scopes).
Abbreviation before := (before dumps sha256 scopes).
Abbreviation after := (after dumps sha256 scopes).

(** A snapshot whose scopes follow each other from [start] to [end_] and whose entities
    are distinct: each native book belongs to one market of a scope and the digests do
    not collide. *)
Record scopes_ok : Prop := {
  ok_entities : ∀ i l, layout_of i = Ok l → NoDup (entities l);
  ok_span : start ≤ end_;
  ok_first : ∀ sc, scopes !! 0%nat = Some sc → start ≤ scope_end sc;
  ok_next : ∀ i sc sc', scopes !! i = Some sc → scopes !! S i = Some sc' → scope_end sc < scope_end sc';
  ok_last : ∀ i sc, scopes !! i = Some sc → scopes !! S i = None → scope_end sc = end_;
}.
Context (Hok : scopes_ok).

Lemma evaluate_layout t ch (e e' : Engine) u : evaluate t ch e = (e', Ok u) → ∃ l, layout_of (scope e) = Ok l.
Proof.
  unfold Availability.evaluate. intros (e1 & e2 & (-> & ->)%getS_ok & E)%stbind_ok.
  apply stbind_ok in E as (e1 & l & [-> El]%liftR_ok & _). by exists l.
Qed.

Lemma layout_scope i l : layout_of i = Ok l → ∃ sc, scopes !! i = Some sc.
Proof. unfold Availability.layout_of. destruct (scopes !! i); [by eexists|done]. Qed.

(** No scope ends after the requested end. *)
Lemma ends_le i sc : scopes !! i = Some sc → scope_end sc ≤ end_.
Proof.
  remember (length scopes - i)%nat as n eqn:En. revert i sc En.
  induction n as [|n IH]; intros i sc En Hsc; pose proof (lookup_lt_Some _ _ _ Hsc); [lia|].
  destruct (scopes !! S i) as [sc'|] eqn:En'; [|by rewrite (ok_last Hok _ _ Hsc En')].
  pose proof (ok_next Hok _ _ _ Hsc En'). pose proof (IH (S i) sc' ltac:(lia) En'). lia.
Qed.

(** ** [_advance] *)

(** The current scope has not ended before [T]; after advancing to [T] it ends later. *)
Definition fits (e : Engine) (T : Z) : Prop :=
  ∀ sc sc', scopes !! scope e = Some sc → scopes !! S (scope e) = Some sc' → T ≤ scope_end sc.
Definition fits_strictly (e : Engine) (T : Z) : Prop :=
  ∀ sc sc', scopes !! scope e = Some sc → scopes !! S (scope e) = Some sc' → T < scope_end sc.

Lemma enter_scope h (e e1 e' : Engine) rs l T sc :
  inv h e rs l T → scopes !! scope e = Some sc → scope_end sc = T →
  close T e = (e1, Ok ()) → evaluate T None (set_scope (S (scope e)) e1) = (e', Ok ()) →
  ∃ qs l', inv h e' (rs ++ qs) l' T ∧ scope e' = S (scope e) ∧ time e' = time e ∧
    observed_of e' = observed_of e.
Proof.
  intros Hi Hsc Hend Ec Ee.
  destruct (inv_close _ _ _ _ _ _ _ _ _ _ Hi Ec) as (Hf & Ho & qs & Hr & Ht & [Hp1 Hp2] & Hch).
  injection Hf as Hs Htm Hb He _.
  destruct (evaluate_layout _ _ _ _ _ Ee) as [l' Hl']. cbn [scope set_scope] in Hl'.
  destruct Hi as [[_ Hl (t0 & h' & Hh & H0) Hpr _ _ _ _] _ _ _].
  assert (observed_of (set_scope (S (scope e)) e1) = observed_of e) as Hobs.
  { unfold observed_of. cbn [books evidence set_scope]. by rewrite Hb, He. }
  destruct (ready_evaluate dumps sha256 scopes start h (set_scope (S (scope e)) e1) e' (rs ++ qs) l' T)
    as (qs' & Hi' & Hs' & Htm' & Hobs').
  - by eapply ok_entities.
  - split; rewrite ?Hobs; cbn [scope writer opened set_scope]; try done.
    + by exists t0, h'.
    + apply Forall_forall. intros x _. left. cbn [opened set_scope]. rewrite Ho. split; [apply lookup_empty|]. split.
      * apply proj_none. eapply Forall_impl; [exact Hp1|]. intros r [Hle _] [Heq _].
        cbn [scope set_scope] in Heq. lia.
      * cbn [scope set_scope AvailabilityProps.scope_start]. by rewrite Hsc.
    + intros x. rewrite Ho, lookup_empty. by intros [? ?].
    + split.
      * eapply Forall_impl; [exact Hp1|]. intros r [Hle Hr']. split; [lia|done].
      * intros j lj x Hj Hlj Hx. destruct (decide (j = scope e)) as [->|Hne]; [|eapply Hp2; [lia|done|done]].
        assert (lj = l) as -> by congruence. rewrite Forall_forall in Hch.
        cbn [AvailabilityProps.scope_start]. rewrite Hsc, Hend. by apply Hch.
  - done.
  - exists (qs ++ qs'), l'. rewrite app_assoc. split_and!; [done|done| |].
    + rewrite Htm'. cbn [time set_scope]. done.
    + by rewrite Hobs', Hobs.
Qed.

Lemma advance_inv fuel h (e e' : Engine) rs l T t :
  T ≤ t → fits e T → inv h e rs l T → advance_scopes fuel t e = (e', Ok ()) →
  ∃ qs l', inv h e' (rs ++ qs) l' t ∧ observed_of e' = observed_of e ∧ time e' = time e ∧
    fits_strictly e' t.
Proof.
  revert e rs l T. induction fuel as [|fuel IH]; intros e rs l T HT Hf Hi; cbn [Availability.advance_scopes]; [done|].
  intros (e1 & e2 & (-> & ->)%getS_ok & E)%stbind_ok.
  assert ((mret () : ST Engine ()) e = (e', Ok ()) → fits_strictly e t → ∃ qs l', inv h e' (rs ++ qs) l' t ∧
    observed_of e' = observed_of e ∧ time e' = time e ∧ fits_strictly e' t) as Hdone.
  { intros [-> _]%mretS_ok Hs. exists [], l. rewrite app_nil_r. split_and!; [by eapply inv_tick|done..]. }
  destruct (scopes !! scope e) as [sc|] eqn:Esc; [|apply Hdone; [done|]; intros ??; congruence].
  destruct (scopes !! S (scope e)) as [sc'|] eqn:Esc'; [|apply Hdone; [done|]; intros ??; congruence].
  destruct (Z.leb_spec (scope_end sc) t) as [Hle|Hgt].
  2:{ apply Hdone; [done|]. intros ?? E1 E2. congruence. }
  apply stbind_ok in E as (e1 & [] & Ec & E). apply stbind_ok in E as (e2 & [] & ->%modifyS_ok & E).
  apply stbind_ok in E as (e2 & [] & Ee & E).
  pose proof (Hf _ _ Esc Esc') as Hb.
  assert (scope e1 = scope e) as Hs1.
  { destruct (inv_close _ _ _ _ _ _ _ _ _ _ (inv_tick _ _ _ _ _ _ _ _ _ _ Hb Hi) Ec) as (Hfx & _). by injection Hfx. }
  rewrite Hs1 in Ee.
  destruct (enter_scope h e e1 e2 rs l (scope_end sc) sc) as (qs & l' & Hi' & Hs' & Htm & Hobs); try done.
  { by eapply inv_tick. }
  destruct (IH e2 (rs ++ qs) l' (scope_end sc)) as (qs' & l'' & Hi'' & Hobs' & Htm' & Hf'); try done.
  { intros s1 s2. rewrite Hs'. intros E1 E2. assert (s1 = sc') as -> by congruence.
    pose proof (ok_next Hok _ _ _ Esc Esc'). lia. }
  exists (qs ++ qs'), l''. rewrite app_assoc. split_and!; [done|congruence|congruence|done].
Qed.

Lemma close_scope t : frame (@scope W) (close t).
Proof. unfold close, emit_opened, emit, write_row. repeat frame_step. Qed.

Lemma set_fields_scope t xf : frame (@scope W) (set_fields t xf).
Proof. unfold set_fields, emit, write_row. repeat frame_step. Qed.

Lemma eval_books_scope t ch bs n : frame (@scope W) (eval_books t ch bs n).
Proof.
  revert n. induction bs as [|[k x] bs IH]; intros n; cbn [eval_books];
    repeat first [apply set_fields_scope | apply IH | frame_step].
Qed.

Lemma put_count_scope i c : frame (@scope W) (put_count i c).
Proof. intros e. unfold put_count, mbind, ST_bind, getS. by destruct (i <? _)%nat. Qed.

Lemma eval_members_scope t ch i ms b : frame (@scope W) (eval_members t ch i ms b).
Proof.
  revert i b. induction ms as [|sh ms IH]; intros i b; cbn [eval_members];
    repeat first [apply set_fields_scope | apply eval_books_scope | apply put_count_scope | apply IH | frame_step].
Qed.

Lemma evaluate_scope t ch : frame (@scope W) (evaluate t ch).
Proof.
  unfold Availability.evaluate.
  repeat first [apply set_fields_scope | apply eval_members_scope | frame_step].
Qed.

(** More fuel changes nothing once there is enough for the remaining scopes. *)
Lemma advance_fuel n m t (e : Engine) :
  (0 < n)%nat → (length scopes < n + scope e)%nat → (0 < m)%nat → (length scopes < m + scope e)%nat →
  advance_scopes n t e = advance_scopes m t e.
Proof.
  revert m e. induction n as [|n IH]; intros [|m] e Hn0 Hn Hm0 Hm; [lia|lia|lia|].
  cbn [Availability.advance_scopes]. unfold mbind, ST_bind, getS, modifyS.
  destruct (scopes !! scope e) as [sc|]; [|done]. destruct (scopes !! S (scope e)) as [sc'|] eqn:Es; [|done].
  apply lookup_lt_Some in Es. destruct (scope_end sc <=? t); [|done].
  pose proof (close_scope (scope_end sc) e) as Hc. destruct (close (scope_end sc) e) as [e1 [u|x]]; [|done].
  cbn [fst] in Hc.
  pose proof (evaluate_scope (scope_end sc) None (set_scope (S (scope e1)) e1)) as He.
  destruct (evaluate (scope_end sc) None _) as [e2 [u'|x]]; [|done]. cbn [fst] in He.
  cbn [scope set_scope] in He. apply IH; lia.
Qed.

(** ** [cut] *)

(** What a cut makes of the observation. *)
Definition observe (c : CutBody) (o : observed) : observed :=
  (foldl (λ bs tr, match c_books c !! t_key tr with
                   | Some b => <[t_key tr := status b]> bs | None => bs end) o.1 (c_transitions c),
   if c_window c
   then foldl (λ ev tr, <[t_key tr := (t_reason tr, c_origin c)]> ev) ∅ (c_transitions c)
   else o.2).

Definition proper_cut (c : CutBody) : Prop :=
  proper (c_origin c) ∧ map_Forall (λ _ b, proper (BookProtocol.reason b)) (c_books c).

Lemma proper_status (bs : gmap book_key Book) :
  map_Forall (λ _ b, proper (BookProtocol.reason b)) bs →
  map_Forall (λ _ s, proper (st_reason s)) (status <$> bs).
Proof. intros Hb. apply map_Forall_fmap. exact Hb. Qed.

Lemma foldl_keeps {A B} (P : A → Prop) (f : A → B → A) l a :
  P a → (∀ a b, b ∈ l → P a → P (f a b)) → P (foldl f a l).
Proof.
  revert a. induction l as [|b l IH]; intros a Ha Hf; [done|]. simpl. apply IH.
  - apply Hf; [left|done].
  - intros a' b' Hb. apply Hf. by right.
Qed.

Lemma proper_observe c o : proper_cut c → proper_observed o → proper_observed (observe c o).
Proof.
  intros [Ho Hb] [Hs He]. split; cbn [observe fst snd].
  - apply (foldl_keeps (map_Forall (λ _ s, proper (st_reason s)))); [done|]. intros bs tr _ Hbs.
    destruct (c_books c !! t_key tr) as [b|] eqn:E; [|done].
    apply map_Forall_insert_2; [|done]. by apply (Hb _ _ E).
  - destruct (c_window c); [|done].
    apply (foldl_keeps (map_Forall (λ _ ev, proper ev.2))); [apply map_Forall_empty|].
    intros ev tr _ Hev. by apply map_Forall_insert_2.
Qed.

Definition cut_keys (c : CutBody) : gset book_key := list_to_set (map t_key (c_transitions c)).

Lemma observe_agree c o :
  agree_off ((if c_window c then dom o.2 else ∅) ∪ cut_keys c) o (observe c o).
Proof.
  intros k Hk. apply not_elem_of_union in Hk as [Hd Hk].
  assert (∀ tr, tr ∈ c_transitions c → t_key tr ≠ k) as Hne.
  { intros tr Htr <-. apply Hk. unfold cut_keys. apply elem_of_list_to_set. by apply list_elem_of_fmap_2. }
  split; cbn [observe fst snd]; symmetry.
  - apply (foldl_keeps (λ m, m !! k = o.1 !! k)); [done|]. intros bs tr Htr E.
    destruct (c_books c !! t_key tr); [|done]. rewrite lookup_insert_ne by auto. done.
  - destruct (c_window c); [|done].
    apply (foldl_keeps (λ m, m !! k = o.2 !! k)).
    + rewrite lookup_empty. symmetry. by apply not_elem_of_dom.
    + intros ev tr Htr E. rewrite lookup_insert_ne by auto. done.
Qed.

(** The state an evaluation works on, without the observation. *)
Definition rest_part (e : Engine) := (scope e, time e, opened e, counts e, writer e).

Lemma window_evidence_ok c (e e' : Engine) ch :
  window_evidence c e = (e', Ok ch) →
  ch = dom (evidence e) ∪ cut_keys c ∧ rest_part e' = rest_part e ∧ books e' = books e ∧
  evidence e' = foldl (λ ev tr, <[t_key tr := (t_reason tr, c_origin c)]> ev) ∅ (c_transitions c).
Proof.
  unfold window_evidence. intros (e1 & e2 & (-> & ->)%getS_ok & E)%stbind_ok.
  apply stbind_ok in E as (e2 & [] & ->%modifyS_ok & E). apply stbind_ok in E as (e2 & [] & E & [-> ->]%mretS_ok).
  split; [done|].
  set (ev := ∅ : gmap book_key (string * json)) in *.
  assert (∀ e1, evidence e1 = ev → rest_part e1 = rest_part e → books e1 = books e →
    forS (add_evidence c) (c_transitions c) e1 = (e2, Ok ()) →
    rest_part e2 = rest_part e ∧ books e2 = books e ∧
    evidence e2 = foldl (λ ev tr, <[t_key tr := (t_reason tr, c_origin c)]> ev) ev (c_transitions c)) as Hloop.
  { clearbody ev. clear E. revert ev. induction (c_transitions c) as [|tr trs IH]; intros ev e1 He Hr Hb E.
    - by apply mretS_ok in E as [-> _].
    - cbn [forS] in E. apply stbind_ok in E as (e3 & [] & E3 & E).
      apply stbind_ok in E3 as (e4 & [] & [_ ->]%requireS_ok & E3).
      apply stbind_ok in E3 as (e4 & [] & [_ ->]%requireS_ok & ->%modifyS_ok).
      simpl. eapply IH; cycle 3; [exact E| |exact Hr|exact Hb]. simpl. by rewrite He. }
  by apply Hloop in E.
Qed.

Lemma read_status_ok c trs (e e' : Engine) :
  forS (read_status c) trs e = (e', Ok ()) →
  rest_part e' = rest_part e ∧ evidence e' = evidence e ∧
  books e' = foldl (λ bs tr, match c_books c !! t_key tr with
                   | Some b => <[t_key tr := status b]> bs | None => bs end) (books e) trs.
Proof.
  revert e. induction trs as [|tr trs IH]; intros e E; [by apply mretS_ok in E as [-> _]|].
  cbn [forS] in E. apply stbind_ok in E as (e1 & [] & E1 & E). unfold read_status in E1.
  destruct (c_books c !! t_key tr) as [b|] eqn:Eb; [|done]. apply modifyS_ok in E1 as ->.
  apply IH in E as (Hr & He & Hb). simpl. by rewrite Eb.
Qed.

(** The part of [cut] between advancing and evaluating. *)
Definition absorb (c : CutBody) : ST Engine (gset book_key) :=
  changed ← (if c_window c then window_evidence c else mret ∅);
  _ ← forS (read_status c) (c_transitions c);
  mret (changed ∪ cut_keys c).

Lemma absorb_ok c (e e' : Engine) ch :
  absorb c e = (e', Ok ch) →
  rest_part e' = rest_part e ∧ observed_of e' = observe c (observed_of e) ∧
  ch = (if c_window c then dom (evidence e) else ∅) ∪ cut_keys c.
Proof.
  unfold absorb. intros (e1 & ch1 & E1 & E)%stbind_ok.
  apply stbind_ok in E as (e2 & [] & E2 & [-> ->]%mretS_ok).
  apply read_status_ok in E2 as (Hr & He & Hb). unfold observe, observed_of. cbn [fst snd].
  destruct (c_window c).
  - apply window_evidence_ok in E1 as (-> & Hr1 & Hb1 & He1). rewrite Hr, Hr1, He, He1, Hb, Hb1.
    split_and!; [done|done|]. by rewrite <- (assoc_L (∪)), union_idemp_L.
  - apply mretS_ok in E1 as [-> ->]. rewrite Hr, He, Hb. done.
Qed.

(** The reference: every cut evaluates everything. *)
Definition cut_reference (c : CutBody) (t : Z) : ST Engine () :=
  _ ← advance t; _ ← absorb c; evaluate t None.

Lemma cut_hook_absorb c t (e e' : Engine) :
  cut_hook c t e = (e', Ok ()) ↔ ∃ e1 e2 ch, advance t e = (e1, Ok ()) ∧ absorb c e1 = (e2, Ok ch) ∧
    (if decide (ch = ∅) then e' = e2 else evaluate t (Some ch) e2 = (e', Ok ())).
Proof.
  unfold Availability.cut_hook, absorb. fold (cut_keys c). split.
  - intros (e1 & [] & E1 & E)%stbind_ok. apply stbind_ok in E as (e2 & ch & E2 & E).
    apply stbind_ok in E as (e3 & [] & E3 & E). exists e1, e3, (ch ∪ cut_keys c). split_and!; [done| |].
    + apply stbind_ok. exists e2, ch. split; [done|]. apply stbind_ok. by exists e3, ().
    + case_decide; [by apply mretS_ok in E as [-> _]|done].
  - intros (e1 & e3 & ch & E1 & E & E'). apply stbind_ok in E as (e2 & ch1 & E2 & E).
    apply stbind_ok in E as (e3' & [] & E3 & [-> ->]%mretS_ok).
    apply stbind_ok. exists e1, (). split; [done|]. apply stbind_ok. exists e2, ch1. split; [done|].
    apply stbind_ok. exists e3', (). split; [done|]. case_decide; [by subst|done].
Qed.

Lemma absorb_ready h c (e e' : Engine) rs l t ch :
  proper_cut c → inv h e rs l t → absorb c e = (e', Ok ch) →
  ready ((t, observe c (observed_of e)) :: h) e' rs l t.
Proof.
  intros Hp [[Hr Hl (t0 & h' & Hh & H0) Hpr He Ho Ht Hpast] _ _ _] E.
  apply absorb_ok in E as (Hrest & Hobs & _). injection Hrest as Hs _ Hop _ Hw.
  split; rewrite ?Hs, ?Hw, ?Hobs; try done.
  - by exists t, h.
  - by apply proper_observe.
  - eapply Forall_impl; [exact He|]. intros x [(Hn & Hq & Ha)|(s & g & Eo & Hc & Hst & Hy)].
    + left. by rewrite Hop, Hs.
    + right. exists s, g. unfold open_since. rewrite Hop, Hs. split_and!; [done|done|done|].
      intros y Hy'. apply holds_later; [lia|]. by apply Hy.
  - intros x. rewrite Hop. apply Ho.
  - eapply Forall_impl; [exact Ht|]. intros r [Hr1 Hr2]. split; [done|]. by apply truthful_later.
Qed.

(** After what a cut absorbs, evaluating the changed books is evaluating everything. *)
Lemma absorb_evaluate h c (e e1 e' : Engine) rs l t ch :
  inv h e rs l t → absorb c e = (e1, Ok ch) →
  (if decide (ch = ∅) then e' = e1 else evaluate t (Some ch) e1 = (e', Ok ())) ↔
  evaluate t None e1 = (e', Ok ()).
Proof.
  intros [[Hr Hl _ Hpr He Ho Ht Hpast] Hpres Hcts Haft] E.
  apply absorb_ok in E as (Hrest & Hobs & ->). injection Hrest as Hs _ Hop Hc Hw.
  set (ch := (if c_window c then dom (evidence e) else ∅) ∪ cut_keys c) in *.
  assert (agree_off ch (observed_of e) (observed_of e1)) as Hag by (rewrite Hobs; exact (observe_agree c (observed_of e))).
  assert (layout_of (scope e1) = Ok l) as Hl1 by by rewrite Hs.
  assert (Forall (settled e1) (all_fields (observed_of e) l)) as Hset.
  { eapply Forall_impl; [exact Haft|]. intros xf (s & g & (Eo & _) & Hg). exists s, g. by rewrite Hop. }
  assert (counts e1 = all_counts (observed_of e) (l_members l)) as Hc1 by by rewrite Hc.
  rewrite <- (evaluate_incremental dumps sha256 scopes t ch l (observed_of e)); try done.
  2:{ by eapply ok_entities. }
  case_decide as Hch; [|done]. rewrite Hch in *.
  assert (observed_of e1 = observed_of e) as Hsame.
  { unfold observed_of. f_equal; apply map_eq; intros k; symmetry; by destruct (Hag k) as [? ?]; [set_solver|]. }
  assert (∀ sh, visited (Some ∅) sh = false) as Hv.
  { intros sh. unfold visited. apply not_true_iff_false. intros ((k & i) & _ & Hk)%existsb_exists.
    apply bool_decide_eq_true in Hk. set_solver. }
  assert (visits (Some ∅) (observed_of e1) (l_members l) = []) as Hnil.
  { assert (∀ o ms, ms ≫= member_visits (Some ∅) o = [] ∧ existsb (visited (Some ∅)) ms = false) as Hno.
    { intros o ms. induction ms as [|sh ms [IH1 IH2]]; [done|]. rewrite bind_cons, IH1. cbn [existsb].
      rewrite Hv, IH2. split; [|done]. unfold member_visits. by rewrite Hv. }
    unfold visits. by destruct (Hno (observed_of e1) (l_members l)) as [-> ->]. }
  rewrite (evaluate_visits dumps sha256 scopes t (Some ∅) l (observed_of e1)); [|done|done|].
  - rewrite Hnil, Hsame, <- Hc1. split.
    + intros ->. split.
      * apply Forall_forall. intros sh _. by rewrite Hv.
      * exists e1. by rewrite set_counts_id.
    + intros (_ & e2 & [= <-] & ->). by rewrite set_counts_id.
  - right. rewrite Hsame, Hc1. apply Forall2_fmap_r, Forall_Forall2_diag, Forall_forall. done.
Qed.

(** Steps of the engine that leave what the invariant reads. *)
Definition core (e : Engine) := (scope e, books e, evidence e, opened e, counts e, writer e).
Lemma inv_core h (e e' : Engine) rs l T : core e' = core e → inv h e rs l T → inv h e' rs l T.
Proof.
  intros [= Hs Hb He Ho Hc Hw] [[H1 H2 H3 H4 H5 H6 H7 H8] I1 I2 I3].
  assert (observed_of e' = observed_of e) as Hobs by (unfold observed_of; by rewrite Hb, He).
  assert (∀ x, before h e rs (scope_start (scope e)) T x → before h e' rs (scope_start (scope e)) T x) as Hbe
    by (unfold before, open_since; by rewrite Ho, Hs).
  assert (∀ x, after h e rs (scope_start (scope e)) T x → after h e' rs (scope_start (scope e)) T x) as Haf
    by (unfold after, open_since; by rewrite Ho, Hs).
  split; rewrite ?Hobs, ?Hs; try (by rewrite ?Hc); [|by eapply Forall_impl].
  split; rewrite ?Hobs, ?Hs, ?Hw, ?Ho; try done. by eapply Forall_impl.
Qed.

Lemma advance_step h (e e' : Engine) rs l T t :
  T ≤ t → fits e T → inv h e rs l T → advance t e = (e', Ok ()) →
  ∃ qs l', inv h e' (rs ++ qs) l' t ∧ observed_of e' = observed_of e ∧ time e' = t ∧ fits_strictly e' t.
Proof.
  intros HT Hf Hi E. unfold Availability.advance in E.
  apply stbind_ok in E as (e1 & [] & E & ->%modifyS_ok).
  destruct (advance_inv _ _ _ _ _ _ _ _ HT Hf Hi E) as (qs & l' & Hi' & Ho & _ & Hf').
  exists qs, l'. split_and!; [|done|done|done]. by eapply inv_core; [|exact Hi'].
Qed.

Lemma cut_reference_hook h c (e e' : Engine) rs l T t :
  T ≤ t → fits e T → inv h e rs l T →
  cut_hook c t e = (e', Ok ()) ↔ cut_reference c t e = (e', Ok ()).
Proof.
  intros HT Hf Hi. rewrite cut_hook_absorb. unfold cut_reference. split.
  - intros (e1 & e2 & ch & E1 & E2 & E). destruct (advance_step _ _ _ _ _ _ _ HT Hf Hi E1) as (qs & l' & Hi' & _).
    apply stbind_ok. exists e1, (). split; [done|]. apply stbind_ok. exists e2, ch. split; [done|].
    by apply (absorb_evaluate h c e1 e2 e' _ _ _ _ Hi' E2).
  - intros (e1 & [] & E1 & E)%stbind_ok. apply stbind_ok in E as (e2 & ch & E2 & E).
    destruct (advance_step _ _ _ _ _ _ _ HT Hf Hi E1) as (qs & l' & Hi' & _).
    exists e1, e2, ch. split_and!; [done|done|]. by apply (absorb_evaluate h c e1 e2 e' _ _ _ _ Hi' E2).
Qed.

Lemma cut_step h c (e e' : Engine) rs l T t :
  T ≤ t → fits e T → inv h e rs l T → proper_cut c → cut_hook c t e = (e', Ok ()) →
  ∃ qs l', inv ((t, observe c (observed_of e)) :: h) e' (rs ++ qs) l' t ∧
    observed_of e' = observe c (observed_of e) ∧ time e' = t ∧ fits e' t.
Proof.
  intros HT Hf Hi Hp E. apply (cut_reference_hook h c e e' rs l T t HT Hf Hi) in E.
  unfold cut_reference in E. apply stbind_ok in E as (e1 & [] & E1 & E).
  apply stbind_ok in E as (e2 & ch & E2 & E).
  destruct (advance_step _ _ _ _ _ _ _ HT Hf Hi E1) as (qs & l' & Hi' & Ho & Htm & Hf').
  pose proof (absorb_ready _ _ _ _ _ _ _ _ Hp Hi' E2) as Hrd.
  destruct (ready_evaluate _ _ _ _ _ _ _ _ _ _ (ok_entities Hok _ _ (rd_layout _ _ _ _ _ _ _ _ _ Hrd)) Hrd E)
    as (qs' & Hi'' & Hs & Htm' & Ho').
  pose proof (absorb_ok _ _ _ _ E2) as (Hrest & Hobs & _). injection Hrest as Hs2 Htm2 _ _ _.
  exists (qs ++ qs'), l'. rewrite app_assoc. rewrite Ho in Hi'', Hobs. split_and!; [done|congruence|congruence|].
  intros s1 s2. rewrite Hs, Hs2. intros F1 F2. pose proof (Hf' _ _ F1 F2). lia.
Qed.

(** ** The start of a stream *)
Definition first_observed (bs : gmap book_key Book) : observed := (status <$> bs, ∅).

Lemma initial_step bs w (e : Engine) :
  rows w = [] → map_Forall (λ _ b, proper (BookProtocol.reason b)) bs →
  initial_hook dumps sha256 scopes bs (new_engine start w) = (e, Ok ()) →
  ∃ rs l, inv [(start, first_observed bs)] e rs l start ∧ observed_of e = first_observed bs ∧
    time e = start ∧ fits e start.
Proof.
  intros Hw Hp E. unfold initial_hook in E.
  apply stbind_ok in E as (e1 & [] & ->%modifyS_ok & E).
  apply stbind_ok in E as (e1 & e2 & (-> & ->)%getS_ok & E). cbn [time set_books new_engine] in E.
  destruct (evaluate_layout _ _ _ _ _ E) as [l Hl].
  edestruct (ready_evaluate dumps sha256 scopes start [(start, first_observed bs)]
    (set_books (status <$> bs) (new_engine start w)) e [] l start) as (qs & Hi & Hs & Ht & Ho); [| |exact E|].
  - by eapply ok_entities.
  - split; try done.
    + by exists start, [].
    + split; [by apply proper_status | apply map_Forall_empty].
    + apply Forall_forall. intros x _. left. done.
    + by intros x [? ?].
    + split; [constructor|]. intros j lj x Hj. cbn [scope set_books new_engine] in Hj. lia.
  - exists qs, l. split_and!; [done|done|done|].
    intros sc sc'. rewrite Hs. intros E1 _. by apply (ok_first Hok).
Qed.

(** ** Streams of cuts *)
Fixpoint ascending (T : Z) (cs : list (CutBody * Z)) : Prop :=
  match cs with [] => True | ct :: cs => T ≤ ct.2 ∧ ascending ct.2 cs end.

Definition run_hooks (cut : CutBody → Z → ST Engine ()) (bs : gmap book_key Book)
    (cs : list (CutBody * Z)) : ST Engine () :=
  _ ← initial_hook dumps sha256 scopes bs; forS (λ ct, cut ct.1 ct.2) cs.

Lemma cuts_reference h cs (e e' : Engine) rs l T :
  ascending T cs → fits e T → inv h e rs l T → Forall (λ ct, proper_cut ct.1) cs →
  forS (λ ct, cut_hook ct.1 ct.2) cs e = (e', Ok ()) ↔ forS (λ ct, cut_reference ct.1 ct.2) cs e = (e', Ok ()).
Proof.
  revert h e rs l T. induction cs as [|[c t] cs IH]; intros h e rs l T Ha Hf Hi Hp; [done|].
  destruct Ha as [HT Ha].
  apply Forall_cons in Hp as [Hpc Hp]. cbn [forS fst snd] in *.
  assert (∀ e1, cut_hook c t e = (e1, Ok ()) →
    forS (λ ct, cut_hook ct.1 ct.2) cs e1 = (e', Ok ()) ↔ forS (λ ct, cut_reference ct.1 ct.2) cs e1 = (e', Ok ())) as Hrest.
  { intros e1 E1. destruct (cut_step _ _ _ _ _ _ _ _ HT Hf Hi Hpc E1) as (qs & l' & Hi' & _ & _ & Hf').
    by eapply IH. }
  split; intros (e1 & [] & E1 & E)%stbind_ok; apply stbind_ok; exists e1, ().
  - split; [by apply (cut_reference_hook h c e e1 rs l T t)|]. by apply Hrest.
  - apply (cut_reference_hook h c e e1 rs l T t) in E1; [|done..]. split; [done|]. by apply Hrest.
Qed.

(** ** [Coverage] *)
Context (config plans : json).
Abbreviation coverage_apply := (coverage_apply dumps sha256 scopes start config plans end_).
Abbreviation coverage_call := (coverage_call dumps sha256 scopes start config plans end_).
Abbreviation coverage_cut := (coverage_cut dumps sha256 scopes start config end_).

(** The effective instant of a cut, and the history a stream of deliveries makes. *)
Definition instant (c : CutBody) : Z :=
  match (kind ← jget (c_origin c) "kind";
         int_field (c_origin c) (if jeq_str kind "window" then "start_ns" else "visible_ns")) with
  | Ok raw => Z.max raw start
  | Err _ => start
  end.

Definition record_delivery (h : history) (d : Delivery) : history :=
  if String.eqb (d_kind d) "initial" then (start, first_observed (c_books (d_cut d))) :: h
  else if String.eqb (d_kind d) "cut" then
    match h with
    | (_, o) :: _ => (instant (d_cut d), observe (d_cut d) o) :: h
    | [] => []
    end
  else h.
Definition timeline (ds : list Delivery) : history := foldl record_delivery [] ds.

(** Every scope's rows are complete and true. *)
Definition tiled (h : history) (rs : list Row) : Prop :=
  Forall (λ r, ∃ l, layout_of (r_scope r) = Ok l ∧ r_entity r ∈ entities l) rs ∧
  (∀ i l x, layout_of i = Ok l → x ∈ entities l →
     chain (scope_start i) (proj i x rs) (scope_start (S i))) ∧
  Forall (truthful h) rs.

Definition running (h : history) (e : Engine) : Prop :=
  ∃ rs l, inv h e rs l (time e) ∧ fits e (time e) ∧ time e ≤ end_.

Definition coverage_inv (h : history) (c : Coverage W) : Prop :=
  if cov_terminal c then ∃ rs, rows (writer (engine c)) = map row_json rs ∧ tiled h rs
  else if bound c then running h (engine c)
  else h = [] ∧ ∃ w, rows w = [] ∧ engine c = new_engine start w.

Lemma on_engine_ok {A} (m : ST Engine A) (c c' : Coverage W) a :
  on_engine m c = (c', Ok a) → ∃ e', m (engine c) = (e', Ok a) ∧ c' = set_engine e' c.
Proof.
  unfold on_engine, zoomS. destruct (m (engine c)) as [e' [x|err]]; [|done].
  intros [= <- ->]. by exists e'.
Qed.

Lemma count_trades_core body raw (e e' : Engine) :
  count_trades dumps sha256 scopes start body raw e = (e', Ok ()) → core e' = core e ∧ time e' = time e.
Proof.
  intros E.
  assert (frame (λ e : Engine, (core e, time e)) (count_trades dumps sha256 scopes start body raw)) as Hf.
  { unfold count_trades. repeat frame_step. intros e1. unfold count_trade.
    case_decide; [|done]. unfold mbind, ST_bind, getS, liftR. by destruct (trades e1 !! _). }
  specialize (Hf e). rewrite E in Hf.
  split; [exact (f_equal fst Hf) | exact (f_equal snd Hf)].
Qed.

Lemma running_core h (e e' : Engine) : core e' = core e → time e' = time e → running h e → running h e'.
Proof.
  intros Hc Ht (rs & l & Hi & Hf & Hle). exists rs, l. rewrite Ht. split_and!; [by eapply inv_core| |done].
  injection Hc as Hs _ _ _ _ _. intros sc sc'. rewrite Hs. apply Hf.
Qed.

Lemma running_cut h body (e e' : Engine) t :
  running h e → time e ≤ t → t < end_ → proper_cut body → cut_hook body t e = (e', Ok ()) →
  running ((t, observe body (observed_of e)) :: h) e'.
Proof.
  intros (rs & l & Hi & Hf & _) Ht Hlt Hp E.
  destruct (cut_step _ _ _ _ _ _ _ _ Ht Hf Hi Hp E) as (qs & l' & Hi' & _ & Htm & Hf').
  exists (rs ++ qs), l'. rewrite Htm. split_and!; [done|done|lia].
Qed.

Lemma running_head h e : running h e → ∃ t h', h = (t, observed_of e) :: h'.
Proof. intros (rs & l & [[_ _ (t & h' & -> & _) _ _ _ _ _] _ _ _] & _). by exists t, h'. Qed.

Lemma coverage_cut_step h (c c' : Coverage W) body :
  bound c = true → cov_terminal c = false → proper_cut body →
  running h (engine c) → coverage_cut body c = (c', Ok ()) →
  bound c' = true ∧ cov_terminal c' = false ∧
  running ((instant body, observe body (observed_of (engine c))) :: h) (engine c').
Proof.
  intros Hb Ht Hp Hr E. unfold Availability.coverage_cut in E.
  apply stbind_ok in E as (c1 & kind & [-> Ek]%liftR_ok & E).
  apply stbind_ok in E as (c1 & raw & [-> Er]%liftR_ok & E).
  apply stbind_ok in E as (c1 & c2 & (-> & ->)%getS_ok & E).
  apply stbind_ok in E as (c1 & [] & [-> _]%liftR_ok & E).
  apply stbind_ok in E as (c1 & [] & [Hg ->]%requireS_ok & E).
  apply andb_true_iff in Hg as [H1%Z.leb_le H2%Z.ltb_lt].
  assert (instant body = Z.max raw start) as ->.
  { unfold instant. rewrite Ek. cbn [mbind result_bind]. by rewrite Er. }
  apply stbind_ok in E as (c1 & [] & Ew & E).
  assert (engine c1 = engine c ∧ bound c1 = true ∧ cov_terminal c1 = false) as (He1 & Hb1 & Ht1).
  { destruct (jeq_str kind "window"); [by apply modifyS_ok in Ew as ->|by apply mretS_ok in Ew as [-> _]]. }
  apply stbind_ok in E as (c2 & [] & (e2 & E2 & ->)%on_engine_ok & E).
  apply on_engine_ok in E as (e3 & E3 & ->). cbn [engine set_engine bound cov_terminal] in *.
  rewrite He1 in E2. apply count_trades_core in E3 as [Hc3 Ht3].
  split_and!; [done|done|]. eapply running_core; [exact Hc3|exact Ht3|]. by eapply running_cut.
Qed.

Lemma terminal_tiled h (e e' : Engine) :
  running h e → terminal_hook dumps sha256 scopes end_ e = (e', Ok ()) →
  ∃ rs, rows (writer e') = map row_json rs ∧ tiled h rs.
Proof.
  intros (rs & l & Hi & Hf & Ht) E. unfold terminal_hook in E.
  apply stbind_ok in E as (e1 & [] & E1 & E).
  destruct (advance_step _ _ _ _ _ _ _ Ht Hf Hi E1) as (qs & l' & Hi' & _ & _ & Hf').
  destruct (inv_close _ _ _ _ _ _ _ _ _ _ Hi' E) as (_ & _ & qs' & Hr & Htr & [Hp1 Hp2] & Hch).
  exists ((rs ++ qs) ++ qs'). split; [done|].
  assert (layout_of (scope e1) = Ok l') as Hl' by apply Hi'.
  destruct (layout_scope _ _ Hl') as [sc Hsc].
  assert (scopes !! S (scope e1) = None) as Hlast.
  { destruct (scopes !! S (scope e1)) as [sc'|] eqn:Hn; [|done]. exfalso.
    pose proof (Hf' _ _ Hsc Hn). pose proof (ends_le (scope e1) sc Hsc). lia. }
  split_and!.
  - eapply Forall_impl; [exact Hp1|]. by intros r [_ ?].
  - intros i li x Hli Hx. destruct (decide (i < scope e1)%nat) as [Hlt|Hge]; [by eapply Hp2|].
    destruct (layout_scope _ _ Hli) as [sci Hsci].
    assert (i = scope e1) as ->.
    { destruct (decide (i = scope e1)); [done|]. apply lookup_lt_Some in Hsci.
      apply lookup_ge_None_1 in Hlast. lia. }
    assert (li = l') as -> by congruence. cbn [AvailabilityProps.scope_start].
    rewrite Hsc, (ok_last Hok _ _ Hsc Hlast). rewrite Forall_forall in Hch. by apply Hch.
  - eapply Forall_impl; [exact Htr|]. by intros r [_ ?].
Qed.

Definition proper_delivery (d : Delivery) : Prop := proper_cut (d_cut d).

Lemma bind_input_ok body (c c' : Coverage W) :
  bind_input config plans body c = (c', Ok ()) → bound c = false ∧ c' = set_bound c.
Proof.
  unfold bind_input. intros (c1 & c2 & (-> & ->)%getS_ok & E)%stbind_ok.
  apply stbind_ok in E as (c1 & [] & [Hb ->]%requireS_ok & E).
  apply stbind_ok in E as (c1 & [] & E1 & E).
  assert (c1 = c) as ->.
  { clear E Hb. revert c E1. generalize (["pins"; "start_ns"; "end_ns"; "lower_bound"]).
    intros l. induction l as [|f l IH]; intros c E1; [by apply mretS_ok in E1 as [-> _]|].
    cbn [forS] in E1. apply stbind_ok in E1 as (c2 & [] & E2 & E1).
    apply stbind_ok in E2 as (c3 & v & [-> _]%liftR_ok & E2).
    apply stbind_ok in E2 as (c3 & x & [-> _]%liftR_ok & [_ ->]%requireS_ok). by apply IH. }
  apply stbind_ok in E as (c1 & v & [-> _]%liftR_ok & E).
  apply stbind_ok in E as (c1 & [] & [_ ->]%requireS_ok & ->%modifyS_ok).
  by apply negb_true_iff in Hb.
Qed.

Lemma coverage_apply_step h (c c' : Coverage W) d :
  cov_terminal c = false → proper_delivery d → coverage_inv h c →
  coverage_apply d c = (c', Ok ()) → coverage_inv (record_delivery h d) c'.
Proof.
  intros Ht Hp Hi E. unfold coverage_inv in Hi. rewrite Ht in Hi. unfold Availability.coverage_apply in E.
  apply stbind_ok in E as (c1 & c2 & (-> & ->)%getS_ok & E).
  apply stbind_ok in E as (c1 & [] & [_ ->]%requireS_ok & E).
  apply stbind_ok in E as (c1 & [] & ->%modifyS_ok & E). unfold record_delivery.
  destruct (String.eqb (d_kind d) "initial").
  - apply stbind_ok in E as (c1 & [] & [_ ->]%requireS_ok & E).
    apply stbind_ok in E as (c1 & [] & [Hb ->]%bind_input_ok & E).
    apply on_engine_ok in E as (e' & E & ->). cbn [bound set_cov_sequence] in Hb. rewrite Hb in Hi.
    destruct Hi as (-> & w & Hw & He). cbn [engine set_bound set_cov_sequence] in E. rewrite He in E.
    destruct (initial_step _ _ _ Hw (proj2 Hp) E) as (rs & l & Hi & _ & Htm & Hf).
    unfold coverage_inv. cbn [cov_terminal bound engine set_engine set_bound set_cov_sequence]. rewrite Ht.
    exists rs, l. rewrite Htm. split_and!; [done|done|apply (ok_span Hok)].
  - apply stbind_ok in E as (c1 & [] & [Hb ->]%requireS_ok & E). cbn [bound set_cov_sequence] in Hb.
    rewrite Hb in Hi. destruct (String.eqb_spec (d_kind d) "terminal") as [Ek|Ek].
    + rewrite Ek. cbn [String.eqb Ascii.eqb Bool.eqb]. unfold coverage_terminal in E.
      apply stbind_ok in E as (c1 & c2 & (-> & ->)%getS_ok & E).
      apply stbind_ok in E as (c1 & we & [-> _]%liftR_ok & E).
      apply stbind_ok in E as (c1 & [] & [_ ->]%requireS_ok & E).
      apply stbind_ok in E as (c1 & [] & (e' & E & ->)%on_engine_ok & ->%modifyS_ok).
      unfold coverage_inv. cbn [cov_terminal set_cov_terminal engine set_engine set_cov_sequence] in *.
      by eapply terminal_tiled.
    + apply stbind_ok in E as (c1 & [] & [Hk ->]%requireS_ok & E). rewrite Hk.
      apply (coverage_cut_step h) in E as (Hb' & Ht' & Hr); [|done|done|done|done].
      unfold coverage_inv. rewrite Ht', Hb'. cbn [engine set_cov_sequence] in Hr.
      destruct (running_head _ _ Hi) as (t & h' & ->). done.
Qed.

Lemma coverage_call_step h (c c' : Coverage W) d :
  proper_delivery d → coverage_inv h c → coverage_call d c = (c', Ok ()) →
  coverage_inv (record_delivery h d) c'.
Proof.
  intros Hp Hi E. unfold Availability.coverage_call in E.
  destruct (cov_poisoned c || cov_terminal c) eqn:Eg; [done|].
  apply orb_false_iff in Eg as [_ Ht].
  destruct (coverage_apply d c) as [c1 [[]|err]] eqn:Ea; [|done]. injection E as <-.
  by eapply coverage_apply_step.
Qed.

Lemma coverage_stream h (c c' : Coverage W) ds :
  Forall proper_delivery ds → coverage_inv h c → forS coverage_call ds c = (c', Ok ()) →
  coverage_inv (foldl record_delivery h ds) c'.
Proof.
  intros Hp. revert h c. induction Hp as [|d ds Hd _ IH]; intros h c Hi E; [by apply mretS_ok in E as [-> _]|].
  cbn [forS] in E. apply stbind_ok in E as (c1 & [] & E1 & E). simpl.
  eapply IH; [|exact E]. by eapply coverage_call_step.
Qed.
End Hooks.

(** ** Totality *)
Section Total.
Context {W : Type} `{RowWriter W}.
Context (dumps : json → list Byte.byte) (sha256 : list Byte.byte → string) (scopes : list Scope).
Context (start end_ : Z).
Abbreviation Engine := (Engine W).
Abbreviation observed := (gmap book_key Status * gmap book_key (string * json))%type.
Abbreviation layout_of := (layout_of dumps sha256 scopes).
Abbreviation evaluate := (evaluate dumps sha256 scopes).
Abbreviation advance_scopes := (advance_scopes dumps sha256 scopes).
Abbreviation cut_hook := (cut_hook dumps sha256 scopes).
Abbreviation inv := (inv dumps sha256 scopes start).

(** A writer within its budget. *)
Definition accepts_all : Prop := ∀ row (w : W), ∃ w', append row w = (w', Ok ()).
Context (Hok : scopes_ok dumps sha256 scopes start end_) (Hw : accepts_all).

(** Every scope has a layout, whose books the stream has. *)
Definition all_present (o : observed) : Prop :=
  ∀ i, (i < length scopes)%nat → ∃ l, layout_of i = Ok l ∧ visited_present None o (l_members l).

(** A cut whose transitions name books it has; at a window they are known invalidations. *)
Definition legal_cut (c : CutBody) : Prop :=
  Forall (λ tr, is_Some (c_books c !! t_key tr) ∧
    (c_window c = true → t_decision tr = "invalidation" ∧ in_list WINDOW_REASONS (t_reason tr) = true))
    (c_transitions c).

Lemma emit_total x p t (e : Engine) : ∃ e', emit x p t e = (e', Ok ()) ∧ opened e' = opened e.
Proof.
  unfold emit, mbind, ST_bind, getS. destruct (p.1 <? t); [|by exists e].
  unfold write_row, zoomS. destruct (Hw (row_json (mkRow (scope e) x p.1 t p.2)) (writer e)) as [w ->].
  by eexists.
Qed.

Lemma set_fields_total t xf (e : Engine) : ∃ e', set_fields t xf e = (e', Ok ()).
Proof.
  unfold set_fields, mbind, ST_bind, getS. destruct (opened e !! xf.1) as [p|]; [|by eexists].
  destruct (comparable_eqb p.2 xf.2); [by eexists|].
  destruct (emit_total xf.1 p t e) as (e1 & E1 & _). rewrite E1. by eexists.
Qed.

Lemma forS_total {A} (f : A → ST Engine ()) l e :
  (∀ a e, ∃ e', f a e = (e', Ok ())) → ∃ e', forS f l e = (e', Ok ()).
Proof.
  intros Hf. revert e. induction l as [|a l IH]; intros e; [by eexists|]. cbn [forS].
  unfold mbind, ST_bind. destruct (Hf a e) as [e1 ->]. apply IH.
Qed.

Lemma evaluate_total t (e : Engine) :
  (scope e < length scopes)%nat → all_present (observed_of e) → ∃ e', evaluate t None e = (e', Ok ()).
Proof.
  intros Hs Hp. destruct (Hp _ Hs) as (l & Hl & Hpl).
  destruct (forS_total (set_fields t) (visits None (observed_of e) (l_members l)) e (set_fields_total t)) as [e1 E1].
  eexists. apply (evaluate_visits dumps sha256 scopes t None l (observed_of e)); [done|done|by left|].
  split; [done|]. by exists e1.
Qed.

Lemma close_total t (e : Engine) : ∃ e', close t e = (e', Ok ()).
Proof.
  unfold close. unfold mbind at 1, ST_bind at 1, getS.
  assert (∀ xs e1, opened e1 = opened e → Forall (λ x, is_Some (opened e !! x)) xs →
    ∃ e2, forS (emit_opened t) xs e1 = (e2, Ok ())) as Hloop.
  { intros xs. induction xs as [|x xs IH]; intros e1 Ho Hx; [by eexists|].
    apply Forall_cons in Hx as [[p Hp] Hx]. cbn [forS]. unfold mbind, ST_bind, emit_opened.
    unfold mbind, ST_bind, getS. rewrite Ho, Hp. destruct (emit_total x p t e1) as (e2 & -> & Ho2).
    apply IH; [congruence|done]. }
  destruct (Hloop (sorted (elements (dom (opened e)))) e eq_refl) as [e2 E2].
  { apply Forall_forall. intros x. rewrite sorted_elem, elem_of_elements. apply elem_of_dom. }
  unfold mbind, ST_bind. rewrite E2. by eexists.
Qed.

Lemma close_frame t : frame (@fixed_part W) (close t).
Proof. unfold close, emit_opened, emit, write_row. repeat frame_step. Qed.

Lemma advance_total fuel t (e : Engine) :
  (0 < fuel)%nat → (length scopes < fuel + scope e)%nat → all_present (observed_of e) →
  ∃ e', advance_scopes fuel t e = (e', Ok ()).
Proof.
  revert e. induction fuel as [|fuel IH]; intros e H0 Hf Hp; [lia|].
  cbn [Availability.advance_scopes]. unfold mbind, ST_bind, getS, modifyS.
  destruct (scopes !! scope e) as [sc|]; [|by eexists].
  destruct (scopes !! S (scope e)) as [sc'|] eqn:Es; [|by eexists]. apply lookup_lt_Some in Es.
  destruct (scope_end sc <=? t); [|by eexists].
  destruct (close_total (scope_end sc) e) as [e1 E1]. rewrite E1.
  assert (fixed_part e1 = fixed_part e) as Hfix.
  { pose proof (close_frame (scope_end sc) e) as Hc. by rewrite E1 in Hc. }
  injection Hfix as Hs _ Hb He _.
  assert (observed_of (set_scope (S (scope e1)) e1) = observed_of e) as Ho
    by (unfold observed_of; cbn [books evidence set_scope]; by rewrite Hb, He).
  destruct (evaluate_total (scope_end sc) (set_scope (S (scope e1)) e1)) as [e2 E2].
  { cbn [scope set_scope]. lia. } { by rewrite Ho. }
  rewrite E2.
  destruct (evaluate_layout dumps sha256 scopes _ _ _ _ _ E2) as [l Hl].
  eapply evaluate_visits in E2 as (_ & e3 & E3 & ->); [|done|exact Hl|by left].
  apply set_all_fixed in E3 as [= Hs3 _ Hb3 He3 _]. cbn [scope set_scope books evidence] in *.
  apply IH; [lia| |].
  - cbn [scope set_counts]. rewrite Hs3. lia.
  - unfold observed_of. cbn [books evidence set_counts]. rewrite Hb3, He3, Hb, He. exact Hp.
Qed.

Lemma absorb_total c (e : Engine) : legal_cut c → ∃ e' ch, absorb c e = (e', Ok ch).
Proof.
  intros Hl. unfold absorb.
  assert (∀ e : Engine, ∃ e', forS (read_status c) (c_transitions c) e = (e', Ok ())) as Hread.
  { induction Hl as [|tr trs [[b Hb] _] _ IH]; intros e1; [by eexists|]. cbn [forS].
    unfold mbind, ST_bind.
    assert (read_status c tr e1 = (set_books (<[t_key tr := status b]> (books e1)) e1, Ok ())) as ->
      by (unfold read_status; by rewrite Hb).
    apply IH. }
  destruct (c_window c) eqn:Ew.
  - unfold window_evidence.
    assert (∀ e : Engine, ∃ e', forS (add_evidence c) (c_transitions c) e = (e', Ok ())) as Hev.
    { clear Hread. unfold legal_cut in Hl. rewrite Ew in Hl. induction Hl as [|tr trs [_ Htr] _ IH]; intros e1; [by eexists|].
      destruct (Htr eq_refl) as [Hd Hr]. cbn [forS]. unfold mbind, ST_bind.
      assert (add_evidence c tr e1 = (set_evidence (<[t_key tr := (t_reason tr, c_origin c)]> (evidence e1)) e1, Ok ())) as ->
        by (unfold add_evidence; by rewrite Hd, Hr).
      apply IH. }
    destruct (Hev (set_evidence ∅ e)) as [e1 E1]. destruct (Hread e1) as [e2 E2].
    exists e2. eexists. unfold mbind, ST_bind, getS, modifyS. unfold mbind, ST_bind, modifyS in E1.
    rewrite E1. cbn. rewrite E2. reflexivity.
  - destruct (Hread e) as [e2 E2]. exists e2. eexists. unfold mbind, ST_bind, mret, ST_ret. rewrite E2. reflexivity.
Qed.

(** Cuts keep the books that are there. *)
Lemma observe_present c o : all_present o → all_present (observe c o).
Proof.
  intros Hp i Hi. destruct (Hp i Hi) as (l & Hl & Hpl). exists l. split; [done|].
  eapply Forall_impl; [exact Hpl|]. intros sh Hsh Hv. eapply Forall_impl; [by apply Hsh|].
  intros ki Hk. cbn [observe fst].
  apply (foldl_keeps (λ m, is_Some (m !! ki.1))); [done|]. intros bs tr _ Hbs.
  destruct (c_books c !! t_key tr); [|done].
  destruct (decide (t_key tr = ki.1)) as [->|]; [rewrite lookup_insert_eq; by eexists|by rewrite lookup_insert_ne].
Qed.

Lemma inv_scope h (e : Engine) rs l T : inv h e rs l T → (scope e < length scopes)%nat.
Proof.
  intros [[_ Hl _ _ _ _ _ _] _ _ _]. apply layout_scope in Hl as [sc Hsc]. by eapply lookup_lt_Some.
Qed.

Lemma advance_full t (e : Engine) : all_present (observed_of e) → ∃ e', advance dumps sha256 scopes t e = (e', Ok ()).
Proof.
  intros Hp. unfold advance. destruct (advance_total (S (length scopes)) t e) as [e1 E1]; [lia|lia|done|].
  unfold mbind, ST_bind. rewrite E1. by eexists.
Qed.

Lemma cut_total h c (e : Engine) rs l T t :
  T ≤ t → fits scopes e T → inv h e rs l T → all_present (observed_of e) → legal_cut c →
  ∃ e', cut_hook c t e = (e', Ok ()).
Proof.
  intros HT Hf Hi Hp Hl. destruct (advance_full t e Hp) as [e1 E1].
  destruct (advance_step dumps sha256 scopes start end_ Hok _ _ _ _ _ _ _ HT Hf Hi E1) as (qs & l' & Hi' & Ho & _ & _).
  destruct (absorb_total c e1 Hl) as (e2 & ch & E2).
  pose proof (absorb_ok _ _ _ _ E2) as (Hrest & Hobs & _). injection Hrest as Hs _ _ _ _.
  destruct (evaluate_total t e2) as [e3 E3].
  { rewrite Hs. by eapply inv_scope. }
  { rewrite Hobs, Ho. by apply observe_present. }
  exists e3. apply (cut_reference_hook dumps sha256 scopes start end_ Hok h c e e3 rs l T t HT Hf Hi).
  unfold cut_reference. apply stbind_ok. exists e1, (). split; [done|]. apply stbind_ok. by exists e2, ch.
Qed.

Lemma cuts_total h cs (e : Engine) rs l T :
  ascending T cs → fits scopes e T → inv h e rs l T → all_present (observed_of e) →
  Forall (λ ct, proper_cut ct.1 ∧ legal_cut ct.1) cs →
  ∃ e', forS (λ ct, cut_hook ct.1 ct.2) cs e = (e', Ok ()) ∧ all_present (observed_of e').
Proof.
  revert h e rs l T. induction cs as [|[c t] cs IH]; intros h e rs l T Ha Hf Hi Hp Hc; [by exists e|].
  destruct Ha as [HT Ha]. apply Forall_cons in Hc as [[Hpc Hlc] Hc]. cbn [fst snd] in *.
  destruct (cut_total h c e rs l T t HT Hf Hi Hp Hlc) as [e1 E1].
  destruct (cut_step dumps sha256 scopes start end_ Hok _ _ _ _ _ _ _ _ HT Hf Hi Hpc E1) as (qs & l' & Hi' & Ho & _ & Hf').
  destruct (IH _ e1 _ _ _ Ha Hf' Hi') as (e2 & E2 & Hp2); [rewrite Ho; by apply observe_present|done|].
  exists e2. split; [|done]. cbn [forS fst snd]. apply stbind_ok. by exists e1, ().
Qed.
End Total.

(** ** Results *)
Section Results.
Context {W : Type} `{RowWriter W}.
Context (dumps : json → list Byte.byte) (sha256 : list Byte.byte → string) (scopes : list Scope).
Context (start end_ : Z) (config plans : json).

(** C5. Whatever stream [Coverage] accepts up to its terminal, its rows state the truth
    and nothing is missing: every row is about an entity of its scope; the rows of each
    entity of each scope meet end to end from the scope's start to its end; and at every
    instant a row covers, the fields derived from the observations in force then equal
    the row's, up to their source. *)
Theorem coverage_rows_tile (w : W) ds (c : Coverage W) :
  scopes_ok dumps sha256 scopes start end_ → rows w = [] → Forall proper_delivery ds →
  forS (coverage_call dumps sha256 scopes start config plans end_) ds (new_coverage start w) = (c, Ok ()) →
  cov_terminal c = true →
  ∃ rs, rows (writer (engine c)) = map row_json rs ∧
    tiled dumps sha256 scopes start (timeline start ds) rs.
Proof.
  intros Hok Hw Hp E Ht.
  apply (coverage_stream dumps sha256 scopes start end_ Hok config plans []) in E; [|done|].
  - unfold coverage_inv in E. by rewrite Ht in E.
  - unfold coverage_inv. simpl. split; [done|]. by exists w.
Qed.

(** C39. Within the writer's budget every legal stream is carried through: with the books
    of every scope among the initial books and cuts in time order that name books they
    have, the hooks return from the initial cut, every later cut and the terminal without
    an exception, so the loop of [_advance] never lacks fuel. *)
Theorem legal_streams_complete (w : W) bs cs :
  scopes_ok dumps sha256 scopes start end_ → accepts_all (W:=W) → rows w = [] → scopes ≠ [] →
  map_Forall (λ _ b, proper (BookProtocol.reason b)) bs →
  all_present dumps sha256 scopes (first_observed bs) →
  ascending start cs → Forall (λ ct, proper_cut ct.1 ∧ legal_cut ct.1) cs →
  ∃ e, (_ ← run_hooks dumps sha256 scopes (cut_hook dumps sha256 scopes) bs cs;
        terminal_hook dumps sha256 scopes end_) (new_engine start w) = (e, Ok ()).
Proof.
  intros Hok Hw Hr Hne Hb Hp Ha Hc.
  destruct (evaluate_total dumps sha256 scopes Hw start (set_books (status <$> bs) (new_engine start w))) as [e0 E0].
  { simpl. destruct scopes; [done|simpl; lia]. } { done. }
  assert (initial_hook dumps sha256 scopes bs (new_engine start w) = (e0, Ok ())) as Ei by exact E0.
  destruct (initial_step dumps sha256 scopes start end_ Hok _ _ _ Hr Hb Ei) as (rs & l & Hi & Ho & Ht & Hf).
  destruct (cuts_total dumps sha256 scopes start end_ Hok Hw _ cs e0 rs l start Ha Hf Hi) as (e1 & E1 & Hp1);
    [by rewrite Ho|done|].
  destruct (advance_full dumps sha256 scopes Hw end_ e1 Hp1) as [e2 E2].
  destruct (close_total Hw end_ e2) as [e3 E3].
  exists e3. apply stbind_ok. exists e1, (). split; [apply stbind_ok; by exists e0, ()|].
  unfold terminal_hook. apply stbind_ok. by exists e2, ().
Qed.

(** C26. Re-deriving only the coverage of the books a cut names is re-deriving all of it:
    on every stream the hooks end in the same state, rows included, as a reference that
    evaluates every entity at every cut. *)
Theorem incremental_is_full (w : W) bs cs (e : Engine W) :
  scopes_ok dumps sha256 scopes start end_ → rows w = [] →
  map_Forall (λ _ b, proper (BookProtocol.reason b)) bs →
  ascending start cs → Forall (λ ct, proper_cut ct.1) cs →
  run_hooks dumps sha256 scopes (cut_hook dumps sha256 scopes) bs cs (new_engine start w) = (e, Ok ()) ↔
  run_hooks dumps sha256 scopes (cut_reference dumps sha256 scopes) bs cs (new_engine start w) = (e, Ok ()).
Proof.
  intros Hok Hw Hb Ha Hp. unfold run_hooks. rewrite !stbind_ok.
  split; intros (e1 & [] & E1 & E); exists e1, (); (split; [done|]);
    destruct (initial_step dumps sha256 scopes start end_ Hok _ _ _ Hw Hb E1) as (rs & l & Hi & _ & Ht & Hf);
    by eapply (cuts_reference dumps sha256 scopes start end_ Hok).
Qed.
End Results.

(** ** Witnesses: two scopes, a gap in a lane and a recovery *)
Definition demo_dumps (v : json) : list Byte.byte :=
  match v with
  | JObj [(_, JStr a); (_, JStr b)] => String.list_byte_of_string (a +:+ "/" +:+ b)
  | _ => []
  end.
Definition demo_scopes : list Scope :=
  let yes := ("kalshi:T", "outcome") in let no := ("kalshi:T", "complement") in
  [mkScope 100 [mkMember "kalshi:T" true [yes; no]] [yes; no];
   mkScope 200 [mkMember "kalshi:T" true [yes; no]; mkMember "limitless:x" false []] [yes; no]].
Definition demo_usable : Book :=
  set_header 1 "usable" JNull (JObj [("kind", JStr "group"); ("visible_ns", JStr "50")]) JNull (new_book 2).
Definition demo_first : gmap book_key Book :=
  list_to_map [(("kalshi:T", "outcome"), new_book 2); (("kalshi:T", "complement"), new_book 2)].
Definition demo_window : CutBody :=
  mkCutBody (JObj [("kind", JStr "window"); ("start_ns", JStr "0"); ("end_ns", JStr "250"); ("pin", JStr "p")])
    [mkTransition ("kalshi:T", "complement") "invalidation" "lane_missing"] [] demo_first.
Definition demo_group : CutBody :=
  mkCutBody (JObj [("kind", JStr "group"); ("visible_ns", JStr "50"); ("pin", JStr "p")])
    [mkTransition ("kalshi:T", "outcome") "snapshot" ""] [mkTrade ("kalshi:T", "outcome") "observed"]
    (<[("kalshi:T", "outcome") := demo_usable]> demo_first).
Definition demo_config : json :=
  JObj [("pins", JNull); ("start_ns", JStr "10"); ("end_ns", JStr "200"); ("lower_bound", JStr "clip")].
Definition demo_body : json :=
  JObj [("pins", JNull); ("start_ns", JStr "10"); ("end_ns", JStr "200"); ("lower_bound", JStr "clip"); ("plans", JNull)].
Definition demo_deliveries : list Delivery :=
  [mkDelivery 0 "initial" demo_body (mkCutBody JNull [] [] demo_first);
   mkDelivery 1 "cut" JNull demo_window; mkDelivery 2 "cut" JNull demo_group;
   mkDelivery 3 "terminal" JNull (mkCutBody JNull [] [] ∅)].

Lemma demo_ok : scopes_ok demo_dumps String.string_of_list_byte demo_scopes 10 200.
Proof.
  split.
  - intros [|[|i]] l E; [..|done]; vm_compute in E; injection E as <-;
      by apply (bool_decide_unpack _); vm_compute.
  - lia.
  - intros sc [= <-]. simpl. lia.
  - intros [|[|i]] sc sc' E E'; try done. injection E as <-. injection E' as <-. simpl. lia.
  - intros [|[|i]] sc E E'; try done. by injection E as <-.
Qed.

Lemma demo_proper c : c = demo_window ∨ c = demo_group ∨ (∃ b, c = mkCutBody JNull [] [] b ∧ (b = ∅ ∨ b = demo_first)) → proper_cut c.
Proof.
  assert (map_Forall (λ _ b, proper (BookProtocol.reason b)) demo_first) as Hf
    by (unfold demo_first; simpl; repeat apply map_Forall_insert_2; try done; apply map_Forall_empty).
  intros [->|[->|(b & -> & Hb)]]; (split; [done|]); simpl; [done| |].
  - by apply map_Forall_insert_2.
  - destruct Hb as [-> | ->]; [apply map_Forall_empty|done].
Qed.

Definition demo_run : Coverage (list json) * result () :=
  forS (coverage_call demo_dumps String.string_of_list_byte demo_scopes 10 demo_config JNull 200)
    demo_deliveries (new_coverage 10 []).

Lemma coverage_rows_tile_witness :
  length (rows (writer (engine demo_run.1))) = 12%nat ∧
  ∃ rs, rows (writer (engine demo_run.1)) = map row_json rs ∧
    tiled demo_dumps String.string_of_list_byte demo_scopes 10 (timeline 10 demo_deliveries) rs.
Proof.
  split; [vm_compute; reflexivity|].
  apply (coverage_rows_tile demo_dumps String.string_of_list_byte demo_scopes 10 200 demo_config JNull
           [] demo_deliveries demo_run.1 demo_ok).
  - reflexivity.
  - repeat (apply Forall_cons_2; [apply demo_proper; eauto 6|]). constructor.
  - fold demo_run. rewrite (surjective_pairing demo_run) at 1. f_equal; vm_compute; reflexivity.
  - vm_compute. reflexivity.
Defined.

Definition demo_cuts : list (CutBody * Z) := [(demo_window, 10); (demo_group, 50)].

Lemma demo_cuts_proper : Forall (λ ct, proper_cut ct.1) demo_cuts.
Proof. repeat (apply Forall_cons_2; [apply demo_proper; eauto|]). constructor. Qed.

Lemma demo_first_proper : map_Forall (λ _ b, proper (BookProtocol.reason b)) demo_first.
Proof. apply (demo_proper (mkCutBody JNull [] [] demo_first)). eauto 6. Qed.

Lemma incremental_is_full_witness :
  ∃ e, run_hooks demo_dumps String.string_of_list_byte demo_scopes
    (cut_reference demo_dumps String.string_of_list_byte demo_scopes) demo_first demo_cuts
    (new_engine 10 ([] : list json)) = (e, Ok ()).
Proof.
  set (run := run_hooks demo_dumps String.string_of_list_byte demo_scopes
    (cut_hook demo_dumps String.string_of_list_byte demo_scopes) demo_first demo_cuts
    (new_engine 10 ([] : list json))).
  exists run.1.
  refine (proj1 (incremental_is_full (W:=list json) demo_dumps String.string_of_list_byte demo_scopes 10 200 []
    demo_first demo_cuts run.1 demo_ok eq_refl demo_first_proper _ demo_cuts_proper) _).
  - simpl. lia.
  - fold run. rewrite (surjective_pairing run) at 1. f_equal; vm_compute; reflexivity.
Defined.

Lemma legal_streams_complete_witness :
  ∃ e, (_ ← run_hooks demo_dumps String.string_of_list_byte demo_scopes
          (cut_hook demo_dumps String.string_of_list_byte demo_scopes) demo_first demo_cuts;
        terminal_hook demo_dumps String.string_of_list_byte demo_scopes 200)
       (new_engine 10 ([] : list json)) = (e, Ok ()).
Proof.
  apply (legal_streams_complete demo_dumps String.string_of_list_byte demo_scopes 10 200 [] demo_first demo_cuts demo_ok).
  - intros row w. by eexists.
  - reflexivity.
  - done.
  - apply demo_first_proper.
  - intros [|[|i]] Hi; [| |simpl in Hi; lia]; eexists; (split; [vm_compute; reflexivity|]);
      by apply (bool_decide_unpack _); vm_compute.
  - simpl. lia.
  - repeat (apply Forall_cons_2; [split; [apply demo_proper; eauto|];
      by apply (bool_decide_unpack _); vm_compute|]). constructor.
Defined.
