(* ===== verification/OutcomeSpace.v ===== *)
(** * Outcome spaces ([src/analysis/outcome_space.py])

    Terminal outcomes of an event: the space record with its queries, the enumeration
    of a best-of series and the state a series reaches.  Reading score ladders and
    formats from ticker and title text by regular expressions is not modelled. *)
From stdpp Require Import gmap fin_sets strings.
From S2P Require Import Prelude Order Wire.

Definition SCOPE_REGULATION_FULLTIME : string := "regulation_fulltime".
Definition SCOPE_FIRST_HALF : string := "first_half".
Definition SCOPE_SERIES : string := "series".
Definition COVERAGE_EXHAUSTIVE : string := "EXHAUSTIVE".
Definition COVERAGE_INCOMPLETE : string := "INCOMPLETE_COVERAGE".

(** [Outcome.payload], by scope. *)
Record score_payload := mkScore {
  sc_home : string; sc_away : string; home_goals : Z; away_goals : Z;
  total_goals : Z; goal_difference : Z;
}.
Record series_payload := mkSeries {
  sequence : string; se_home : string; se_away : string; home_wins : Z; away_wins : Z;
  maps_played : Z; winner : string; winner_side : string; margin : Z;
}.
Inductive payload := Score (p : score_payload) | Series (p : series_payload).

Record Outcome := mkOutcome { key : string; outcome_payload : payload }.

(** [metadata] of a series; other spaces carry other entries, which nothing here reads. *)
Record OutcomeSpace := mkOutcomeSpace {
  event_key : string; scope : string; outcomes : list Outcome;
  coverage : string; coverage_note : string;
  best_of : option Z; home_name : option string; away_name : option string;
}.

Definition keys (s : OutcomeSpace) : gset string := list_to_set (map key (outcomes s)).

Definition outcome (s : OutcomeSpace) (k : string) : option Outcome :=
  find (λ o, String.eqb (key o) k) (outcomes s).

(** [select], for a predicate that may raise on a payload of another scope. *)
Definition select (s : OutcomeSpace) (predicate : payload → result bool) : result (gset string) :=
  hits ← mapR (λ o, b ← predicate (outcome_payload o); Ok (if (b : bool) then [key o] else [])) (outcomes s);
  Ok (list_to_set (concat hits)).

(** ** Series *)

(** The nested [walk]; [results] is the list it appends to. *)
Fixpoint walk (fuel : nat) (target : Z) (prefix : string) (home_wins away_wins : Z)
    (results : list string) : result (list string) :=
  match fuel with
  | O => Err OutOfFuel
  | S fuel =>
      if (home_wins =? target) || (away_wins =? target) then Ok (results ++ [prefix])
      else
        results ← walk fuel target (prefix +:+ "H") (home_wins + 1) away_wins results;
        walk fuel target (prefix +:+ "A") home_wins (away_wins + 1) results
  end.

Definition target_wins (best_of : Z) : Z := best_of / 2 + 1.

Definition series_sequences (best_of : Z) : result (list string) :=
  if (best_of <? 1) || (best_of mod 2 =? 0)
  then Err (ValueError "best_of must be a positive odd number, got ")
  else
    let target := target_wins best_of in
    results ← walk (Z.to_nat (2 * target)) target "" 0 0 [];
    Ok (sorted results).

(** [s.count(c)] for one character. *)
Definition count_char (c : Ascii.ascii) (s : string) : Z :=
  Z.of_nat (length (filter (λ x, x = c) (chars s))).
Definition H : Ascii.ascii := Ascii.ascii_of_nat 72.
Definition A : Ascii.ascii := Ascii.ascii_of_nat 65.

Definition series_outcome (home away : string) (s : string) : Outcome :=
  let h := count_char H s in
  let a := count_char A s in
  mkOutcome ("seq:" +:+ s)
    (Series (mkSeries s home away h a (Z.of_nat (String.length s))
       (if a <? h then home else away) (if a <? h then "home" else "away") (Z.abs (h - a)))).

Definition build_series_space (event_key : string) (best_of : Z) (home away : string)
    : result OutcomeSpace :=
  sequences ← series_sequences best_of;
  Ok (mkOutcomeSpace event_key SCOPE_SERIES (map (series_outcome home away) sequences)
        COVERAGE_EXHAUSTIVE
        "Enumerated from the series format, so it covers every reachable sequence regardless of which map markets the venues listed."
        (Some best_of) (Some home) (Some away)).

(** ** The state of a series *)

(** One settled map market; its index and instant are what [int] reads. *)
Record MapResult := mkMapResult { map_index : Z; map_winner : string; settled_at_ms : Z }.
Record StateTransition := mkStateTransition {
  st_map_index : Z; st_winner_side : string; at_ms : Z; st_prefix : string;
}.

Fixpoint timeline_from (home prefix : string) (rs : list MapResult) : list StateTransition :=
  match rs with
  | [] => []
  | r :: rs =>
      let won := String.eqb (map_winner r) home in
      let prefix := prefix +:+ (if won then "H" else "A") in
      mkStateTransition (map_index r) (if won then "home" else "away") (settled_at_ms r) prefix
        :: timeline_from home prefix rs
  end.
Definition build_state_timeline (map_results : list MapResult) (home : string)
    : list StateTransition :=
  timeline_from home "" (sort_by (λ a b, map_index a <=? map_index b) map_results).

(** [outcome.payload["sequence"]]. *)
Definition payload_sequence (p : payload) : result string :=
  match p with Series p => Ok (sequence p) | Score _ => Err KeyError end.

Definition reachable_keys (s : OutcomeSpace) (prefix : string) : result (gset string) :=
  if negb (String.eqb (scope s) SCOPE_SERIES) || String.eqb prefix "" then Ok (keys s)
  else select s (λ p, q ← payload_sequence p; Ok (String.prefix prefix q)).

(** [settled_outcome_key]; the goals are printed in decimal. *)
Definition settled_outcome_key (s : OutcomeSpace) (home_goals away_goals : option Z)
    (sequence : option string) : option string :=
  let known k := if decide (k ∈ keys s) then Some k else None in
  let text n := if n <? 0 then "-" +:+ str_int (- n) else str_int n in
  if String.eqb (scope s) SCOPE_SERIES then
    match sequence with None => None | Some q => known ("seq:" +:+ q) end
  else match home_goals, away_goals with
       | Some h, Some a => known ("score:" +:+ text h +:+ "-" +:+ text a)
       | _, _ => None
       end.
