(* ===== verification/Masks.v ===== *)
(** * Masks ([src/analysis/masks.py])

    A market as the set of outcomes it resolves YES on, and what two markets are to
    each other by their sets alone.  Compiling a market's texts to a mask (regular
    expressions and binary floats over titles) is not modelled: a mask is data here. *)
From stdpp Require Import gmap fin_sets strings.
From S2P Require Import Prelude Order OutcomeSpace.

Definition STATUS_DERIVABLE : string := "DERIVABLE".

Record Mask := mkMask {
  market_key : string; venue : string; market_type : string; mask_scope : string;
  mask_status : string; outcome_keys : gset string; resolver : string; note : option string;
}.
#[global] Instance Mask_eq_dec : EqDecision Mask.
Proof. solve_decision. Defined.

Definition derivable (m : Mask) : bool := String.eqb (mask_status m) STATUS_DERIVABLE.

(** The relationship kinds; their names are the strings of the module. *)
Inductive kind := IDENTITY | IMPLICATION | REVERSE_IMPLICATION | MUTUAL_EXCLUSION | OVERLAP.
#[global] Instance kind_eq_dec : EqDecision kind.
Proof. solve_decision. Defined.
#[global] Instance kind_countable : Countable kind.
Proof.
  refine (inj_countable' (λ k, match k with IDENTITY => 0 | IMPLICATION => 1 | REVERSE_IMPLICATION => 2
                               | MUTUAL_EXCLUSION => 3 | OVERLAP => 4 end)%nat
    (λ n, match n with 0 => IDENTITY | 1 => IMPLICATION | 2 => REVERSE_IMPLICATION
          | 3 => MUTUAL_EXCLUSION | _ => OVERLAP end)%nat _).
  by intros [].
Defined.

(** [mask.outcome_keys & universe]. *)
Definition restrict (universe : option (gset string)) (s : gset string) : gset string :=
  match universe with Some u => s ∩ u | None => s end.

(** The classification of two sets. *)
Definition classify (a b : gset string) : option kind :=
  if bool_decide (a = ∅) || bool_decide (b = ∅) then None
  else if bool_decide (a = b) then Some IDENTITY
  else if strict_subset a b then Some IMPLICATION
  else if strict_subset b a then Some REVERSE_IMPLICATION
  else if bool_decide (a ∩ b = ∅) then Some MUTUAL_EXCLUSION
  else Some OVERLAP.

Definition relationship (left right : Mask) (universe : option (gset string)) : option kind :=
  if negb (derivable left && derivable right) || negb (String.eqb (mask_scope left) (mask_scope right))
  then None
  else classify (restrict universe (outcome_keys left)) (restrict universe (outcome_keys right)).

(** One row of [derive_relationships]. *)
Record Relation := mkRelation {
  rel_left : string; rel_right : string; rel_left_type : string; rel_right_type : string;
  rel_scope : string; rel_kind : kind;
}.

(** All pairs [(l[i], l[j])] with [i < j], as the nested loops visit them. *)
Fixpoint pairs {A} (l : list A) : list (A * A) :=
  match l with
  | [] => []
  | a :: l => map (pair a) l ++ pairs l
  end.

Definition derive_relationships (masks : list Mask) (universe : option (gset string)) : list Relation :=
  omap (λ lr : Mask * Mask,
      k ← relationship lr.1 lr.2 universe;
      Some (mkRelation (market_key lr.1) (market_key lr.2) (market_type lr.1) (market_type lr.2)
              (mask_scope lr.1) k))
    (pairs (filter (λ m, derivable m = true) masks)).

(** [is_partition]: the result document as a record. *)
Record PartitionReport := mkPartitionReport {
  leg_count : Z; partition : bool; overlapping_outcomes : list string;
  uncovered_outcomes : list string; report_coverage : string;
}.
Definition cover_step (universe : gset string) (acc : gset string * gset string) (m : Mask)
    : gset string * gset string :=
  let ks := outcome_keys m ∩ universe in
  (acc.1 ∪ ks, acc.2 ∪ (acc.1 ∩ ks)).
Definition is_partition (masks : list Mask) (space : OutcomeSpace) (universe : option (gset string))
    : PartitionReport :=
  let scope_universe := default (keys space) universe in
  let usable := filter (λ m, derivable m = true) masks in
  let '(covered, overlaps) := foldl (cover_step scope_universe) (∅, ∅) usable in
  let missing := scope_universe ∖ covered in
  mkPartitionReport (Z.of_nat (length usable)) (bool_decide (overlaps = ∅) && bool_decide (missing = ∅))
    (sorted (elements overlaps)) (sorted (elements missing)) (coverage space).

Definition state_conditioned_relationships (masks : list Mask) (space : OutcomeSpace)
    (prefixes : list string) : result (list (Relation * string)) :=
  rows ← mapR (λ prefix,
      universe ← reachable_keys space prefix;
      Ok (map (λ r, (r, if String.eqb prefix "" then "(pre-match)" else prefix))
            (derive_relationships masks (Some universe)))) prefixes;
  Ok (concat rows).
