(* ===== verification/Claims.v ===== *)
(** * Claims ([src/analysis/claims.py])

    Markets that name the same outcomes are one claim; the relations between claims are
    computed once, and the relations between markets are rebuilt from them.  SHA-256 is a
    parameter; [json.dumps] is the codec of [Json]. *)
From stdpp Require Import gmap fin_sets strings.
From S2P Require Import Prelude Order Wire Json OutcomeSpace Masks.

Definition CLAIM_IDENTITY_VERSION : Z := 2.

(** [UNINFORMATIVE_RELATIONS]. *)
Definition uninformative (k : kind) : bool := bool_decide (k = OVERLAP).

(** A relation between two markets. *)
Abbreviation edge := (string * string * kind)%type.

(** ** Identities *)
Section Identity.
Context (dumps : json → list Byte.byte) (sha256 : list Byte.byte → string).

Definition _digest (v : json) : result string := p ← encoded dumps v; Ok (sha256 p).

Definition claim_document (ks : list string) (space_shape : string) : json :=
  JObj [("version", JInt CLAIM_IDENTITY_VERSION); ("space_shape_id", JStr space_shape);
        ("outcome_keys", JArr (map JStr ks))].

(** [claim_id]; the keys of a mask are a set. *)
Definition claim_id (outcome_keys : gset string) (space_shape : string) : result string :=
  let ks := sorted (elements outcome_keys) in
  _ ← guard_or (negb (bool_decide (ks = []))) (ValueError "a claim must name at least one outcome");
  _ ← guard_or (negb (String.eqb space_shape ""))
        (ValueError "a claim must name the space shape it is drawn from");
  _digest (claim_document ks space_shape).

Definition space_shape_id (space : OutcomeSpace) : result string :=
  _digest (JObj [("version", JInt CLAIM_IDENTITY_VERSION); ("scope", JStr (scope space));
                 ("outcome_keys", JArr (map JStr (sorted (elements (keys space)))))]).

(** ** Claims of a space *)
Record Claim := mkClaim {
  cl_id : string; cl_shape : string; cl_scope : string; cl_keys : gset string; members : list Mask;
}.
Definition venues (c : Claim) : gset string := list_to_set (map venue (members c)).
Definition cross_venue (c : Claim) : bool := (1 <? size (venues c))%nat.

Record ClaimRelation := mkClaimRelation {
  cr_shape : string; cr_left : string; cr_right : string; cr_kind : kind;
}.
Definition informative (r : ClaimRelation) : bool := negb (uninformative (cr_kind r)).

Definition usable_mask (space : OutcomeSpace) (m : Mask) : bool :=
  derivable m && (0 <? size (outcome_keys m))%nat
  && (size (outcome_keys m) <? length (outcomes space))%nat.
Definition usable_masks (masks : list Mask) (space : OutcomeSpace) : list Mask :=
  filter (λ m, usable_mask space m = true) masks.

(** [grouped] and [keys] of [derive_claims], as one map. *)
Definition group_mask (shape : string) (acc : gmap string (gset string * list Mask)) (m : Mask)
    : result (gmap string (gset string * list Mask)) :=
  identifier ← claim_id (outcome_keys m) shape;
  let so_far := match acc !! identifier with Some g => g.2 | None => [] end in
  Ok (<[identifier := (outcome_keys m, so_far ++ [m])]> acc).

(** The order of [members]. *)
Definition member_leb (a b : Mask) : bool := leb (venue a, market_key a) (venue b, market_key b).

Definition derive_claims (masks : list Mask) (space : OutcomeSpace) : result (list Claim) :=
  shape ← space_shape_id space;
  grouped ← foldR (group_mask shape) ∅ (usable_masks masks space);
  Ok (map (λ ig : string * (gset string * list Mask),
             mkClaim ig.1 shape (scope space) ig.2.1 (sort_by member_leb ig.2.2))
        (sort_by (λ a b, leb a.1 b.1) (map_to_list grouped))).

(** ** The algebra *)
Definition _probe (c : Claim) : Mask :=
  mkMask (cl_id c) "" "" (cl_scope c) "DERIVABLE" (cl_keys c) "claim" None.

(** The body of the loop over [combinations]. *)
Definition relate (informative_only : bool) (lr : Claim * Claim) : option ClaimRelation :=
  k ← relationship (_probe lr.1) (_probe lr.2) None;
  if informative_only && uninformative k then None
  else
    let '(antecedent, consequent, k) := match k with
      | REVERSE_IMPLICATION => (lr.2, lr.1, IMPLICATION)
      | _ => (lr.1, lr.2, k)
      end in
    Some (mkClaimRelation (cl_shape antecedent) (cl_id antecedent) (cl_id consequent) k).

Definition derive_claim_algebra (claims : list Claim) (informative_only : bool)
    : result (list ClaimRelation) :=
  if (1 <? length (remove_dups (map cl_shape claims)))%nat
  then Err (ValueError "claims from different space shapes are not comparable")
  else Ok (omap (relate informative_only)
             (pairs (sort_by (λ a b, leb (cl_id a) (cl_id b)) claims))).

(** ** Rebuilding the relations of markets *)
(** [sorted((left.market_key, right.market_key))]. *)
Definition in_order (a b : string) : string * string := if leb a b then (a, b) else (b, a).

Definition flip (k : kind) : kind :=
  match k with IMPLICATION => REVERSE_IMPLICATION | REVERSE_IMPLICATION => IMPLICATION | k => k end.

(** The edges between two members of one claim, and of two related claims. *)
Definition identity_edge (lr : Mask * Mask) : option edge :=
  if String.eqb (venue lr.1) (venue lr.2) then None
  else Some (in_order (market_key lr.1) (market_key lr.2), IDENTITY).
Definition relation_edge (k : kind) (lr : Mask * Mask) : option edge :=
  if String.eqb (venue lr.1) (venue lr.2) then None
  else
    let ordered := in_order (market_key lr.1) (market_key lr.2) in
    Some (ordered, if String.eqb ordered.1 (market_key lr.1) then k else flip k).

(** [by_id[k]]: later claims win. *)
Definition by_id (claims : list Claim) (k : string) : result Claim :=
  match find (λ c, String.eqb (cl_id c) k) (reverse claims) with
  | Some c => Ok c
  | None => Err KeyError
  end.

Definition relation_edges (claims : list Claim) (r : ClaimRelation) : result (list edge) :=
  left ← by_id claims (cr_left r);
  right ← by_id claims (cr_right r);
  Ok (omap (relation_edge (cr_kind r)) (l ← members left; r ← members right; [(l, r)])).

(** One [BundleClaims]-shaped group. *)
Definition group_edges (g : list Claim * list ClaimRelation) : result (list edge) :=
  related ← mapR (relation_edges g.1) g.2;
  Ok (omap identity_edge (c ← g.1; pairs (members c)) ++ concat related).

Definition implied_market_relations (groups : list (list Claim * list ClaimRelation))
    : result (gset edge) :=
  es ← mapR group_edges groups;
  Ok (list_to_set (concat es)).
End Identity.
