(* ===== verification/ClaimsProps.v ===== *)
(** * Properties of claims ([src/analysis/claims.py])

    The algebra over claims loses nothing: the relations it implies between markets are
    the pairwise relationships of the masks. *)
From stdpp Require Import gmap fin_sets strings.
From S2P Require Import Prelude Order Wire Json OutcomeSpace Masks Claims.

(** ** [classify] *)
Lemma flip_flip k : flip (flip k) = k.
Proof. by destruct k. Qed.

Lemma strict_subset_asym a b : strict_subset a b = true → strict_subset b a = false.
Proof. rewrite <- not_true_iff_false, !strict_subset_spec. set_solver. Qed.

Lemma strict_subset_neq a b : strict_subset a b = true → a ≠ b.
Proof. rewrite strict_subset_spec. intros [_ Hn] ->. by apply Hn. Qed.

Lemma classify_flip a b : classify b a = option_map flip (classify a b).
Proof.
  unfold classify. rewrite orb_comm. destruct (bool_decide (a = ∅) || bool_decide (b = ∅)); [done|].
  rewrite (bool_decide_ext (b = a) (a = b)) by done. destruct (bool_decide (a = b)) eqn:E; [done|].
  rewrite (bool_decide_ext (b ∩ a = ∅) (a ∩ b = ∅)) by (by rewrite (comm_L (∩))).
  destruct (strict_subset a b) eqn:Eab; [by rewrite (strict_subset_asym _ _ Eab)|].
  destruct (strict_subset b a); [done|]. by destruct (bool_decide (a ∩ b = ∅)).
Qed.

Lemma classify_same a k : classify a a = Some k → k = IDENTITY.
Proof. unfold classify. destruct (_ || _); [done|]. rewrite bool_decide_true by done. congruence. Qed.

Lemma classify_some a b : a ≠ ∅ → b ≠ ∅ → ∃ k, classify a b = Some k.
Proof.
  intros Ha Hb. unfold classify. rewrite !bool_decide_false by done. simpl.
  repeat match goal with |- context [if ?x then _ else _] => destruct x; [by eexists|] end. by eexists.
Qed.

(** ** [pairs] *)
Lemma elem_of_pairs {A} (l : list A) a b : (a, b) ∈ pairs l → a ∈ l ∧ b ∈ l.
Proof.
  induction l as [|x l IH]; simpl; [by intros ?%not_elem_of_nil|].
  rewrite elem_of_app, list_elem_of_fmap. intros [(y & [= -> ->] & Hy)|[? ?]%IH]; split;
    apply elem_of_cons; auto.
Qed.

Lemma pairs_cover {A} (l : list A) a b : a ∈ l → b ∈ l → a ≠ b → (a, b) ∈ pairs l ∨ (b, a) ∈ pairs l.
Proof.
  induction l as [|x l IH]; simpl; [by intros ?%not_elem_of_nil|].
  rewrite !elem_of_cons, !elem_of_app, !list_elem_of_fmap. intros [->|Ha] [->|Hb] Hab; [done| | |].
  - left. left. by exists b.
  - right. left. by exists a.
  - destruct (IH Ha Hb Hab); auto.
Qed.

Lemma pairs_neq {A} (l : list A) a b : NoDup l → (a, b) ∈ pairs l → a ≠ b.
Proof.
  induction 1 as [|x l Hx _ IH]; simpl; [by intros ?%not_elem_of_nil|].
  rewrite elem_of_app, list_elem_of_fmap. intros [(y & [= -> ->] & Hy)|?]; [|auto]. by intros ->.
Qed.

(** ** The claims of a list of masks *)
Section Grouping.
Context (loads : list Byte.byte → option json) (dumps : json → list Byte.byte) `{!JsonCodec loads dumps}.
Context (sha256 : list Byte.byte → string).
Abbreviation claim_id := (claim_id dumps sha256).

(** SHA-256 tells the claim documents of [ms] apart. *)
Definition collision_free (shape : string) (ms : list Mask) : Prop :=
  ∀ m n, m ∈ ms → n ∈ ms →
    let doc m := claim_document (sorted (elements (outcome_keys m))) shape in
    sha256 (dumps (doc m)) = sha256 (dumps (doc n)) → dumps (doc m) = dumps (doc n).

Lemma claim_document_inj ks ks' shape :
  all_encodable (claim_document ks shape) = true → all_encodable (claim_document ks' shape) = true →
  dumps (claim_document ks shape) = dumps (claim_document ks' shape) → ks = ks'.
Proof.
  intros He He' E.
  assert (∀ k, float_free (claim_document k shape) = true) as Hf.
  { intros k. simpl. rewrite andb_true_r. induction k as [|x k IH]; [done|]. exact IH. }
  pose proof (loads_dumps _ (Hf ks) He) as H1. pose proof (loads_dumps _ (Hf ks') He') as H2.
  rewrite E, H2 in H1. injection H1 as H1.
  assert (∀ k, map (λ v, match v with JStr s => s | _ => "" end) (map sort_json (map JStr k)) = k) as Hm.
  { intros k. rewrite !map_map. simpl. apply map_id. }
  rewrite <- (Hm ks), <- (Hm ks'). by rewrite H1.
Qed.

Lemma claim_id_inj shape ms m n i :
  collision_free shape ms → m ∈ ms → n ∈ ms →
  claim_id (outcome_keys m) shape = Ok i → claim_id (outcome_keys n) shape = Ok i →
  outcome_keys m = outcome_keys n.
Proof.
  intros Hc Hm Hn Em En.
  assert (∀ x, claim_id (outcome_keys x) shape = Ok i →
    all_encodable (claim_document (sorted (elements (outcome_keys x))) shape) = true ∧
    sha256 (dumps (claim_document (sorted (elements (outcome_keys x))) shape)) = i) as Hid.
  { intros x E. unfold Claims.claim_id in E. apply bind_ok in E as ([] & _ & E).
    apply bind_ok in E as ([] & _ & E). unfold _digest in E. apply bind_ok in E as (p & Ep & [= <-]).
    unfold encoded in Ep. destruct (all_encodable _); [|done]. by injection Ep as <-. }
  destruct (Hid m Em) as [Am Sm], (Hid n En) as [An Sn].
  pose proof (Hc m n Hm Hn ltac:(congruence)) as Ed.
  apply claim_document_inj in Ed; [|done|done].
  apply set_eq. intros k. rewrite <- !elem_of_elements, <- (sorted_elem k (elements (outcome_keys m))), Ed.
  by rewrite sorted_elem.
Qed.

(** [grouped] after the masks [ms]. *)
Definition id_of (shape : string) (m : Mask) : string :=
  match claim_id (outcome_keys m) shape with Ok i => i | Err _ => "" end.
Definition with_id (shape i : string) (ms : list Mask) : list Mask :=
  filter (λ m, id_of shape m = i) ms.

Lemma group_masks shape ms g :
  foldR (group_mask dumps sha256 shape) ∅ ms = Ok g →
  Forall (λ m, claim_id (outcome_keys m) shape = Ok (id_of shape m)) ms ∧
  ∀ i, g !! i = match last (with_id shape i ms) with
                | Some m => Some (outcome_keys m, with_id shape i ms)
                | None => None
                end.
Proof.
  revert g. induction ms as [|m ms IH] using rev_ind; intros g.
  { intros [= <-]. split; [constructor|]. intros i. by rewrite lookup_empty. }
  rewrite foldR_app. intros (g0 & E0 & E)%bind_ok. destruct (IH g0 E0) as [Hf Hg].
  cbn [foldR] in E. apply bind_ok in E as (g1 & E & [= <-]). unfold group_mask in E.
  apply bind_ok in E as (i & Ei & [= <-]).
  assert (id_of shape m = i) as Hi by (unfold id_of; by rewrite Ei). split.
  - apply Forall_app. split; [done|]. repeat constructor. by rewrite Hi.
  - intros j. unfold with_id. rewrite filter_app, filter_cons, filter_nil, Hi.
    destruct (decide (i = j)) as [->|Hne].
    + rewrite lookup_insert_eq, last_snoc. f_equal. f_equal. f_equal. rewrite Hg.
      fold (with_id shape j ms). destruct (last (with_id shape j ms)) eqn:El; [done|].
      by apply last_None in El as ->.
    + rewrite lookup_insert_ne by done. rewrite app_nil_r. apply Hg.
Qed.

Context (masks : list Mask) (space : OutcomeSpace) (claims : list Claim) (shape : string).
Abbreviation usable := (usable_masks masks space).
Context (Hclaims : derive_claims dumps sha256 masks space = Ok claims).
Context (Hshape : space_shape_id dumps sha256 space = Ok shape).
Context (Hfree : collision_free shape usable).

(** What [derive_claims] returns. *)
Lemma claims_ids :
  Forall (λ m, claim_id (outcome_keys m) shape = Ok (id_of shape m)) usable.
Proof.
  unfold derive_claims in Hclaims. rewrite Hshape in Hclaims. cbn [mbind result_bind] in Hclaims.
  apply bind_ok in Hclaims as (g & Eg & _). by apply group_masks in Eg as [? _].
Qed.

Lemma elem_of_claims c :
  c ∈ claims → cl_shape c = shape ∧ cl_scope c = scope space ∧
    (∀ m, m ∈ members c ↔ m ∈ usable ∧ id_of shape m = cl_id c) ∧
    (∀ m, m ∈ members c → outcome_keys m = cl_keys c) ∧ (∃ m, m ∈ members c) ∧
    (NoDup usable → NoDup (members c)).
Proof.
  intros Hc. pose proof claims_ids as Hids. rewrite Forall_forall in Hids.
  unfold derive_claims in Hclaims. rewrite Hshape in Hclaims. cbn [mbind result_bind] in Hclaims.
  apply bind_ok in Hclaims as (g & Eg & [= <-]). apply group_masks in Eg as [_ Hg].
  apply list_elem_of_fmap in Hc as ([i [ks ms]] & -> & Hin). rewrite sort_by_elem in Hin.
  apply elem_of_map_to_list in Hin. rewrite Hg in Hin. cbn [fst snd cl_shape cl_scope cl_id cl_keys members].
  destruct (last (with_id shape i usable)) as [m0|] eqn:El; [|done]. injection Hin as <- <-.
  assert (∀ m, m ∈ sort_by member_leb (with_id shape i usable) ↔ m ∈ usable ∧ id_of shape m = i) as Hmem.
  { intros m. rewrite sort_by_elem. unfold with_id. rewrite list_elem_of_filter. naive_solver. }
  assert (m0 ∈ usable ∧ id_of shape m0 = i) as [Hm0 Hi0].
  { apply Hmem, sort_by_elem. rewrite last_lookup in El. by eapply list_elem_of_lookup_2. }
  split_and!; [done|done|exact Hmem| | |].
  - intros m [Hm Hi]%Hmem. apply (claim_id_inj shape usable m m0 i); [done|done|done| |].
    + rewrite <- Hi. by apply Hids.
    + rewrite <- Hi0. by apply Hids.
  - exists m0. by apply Hmem.
  - intros Hn. rewrite sort_by_perm. by apply NoDup_filter.
Qed.

Lemma claims_distinct : NoDup (map cl_id claims).
Proof.
  unfold derive_claims in Hclaims. rewrite Hshape in Hclaims. cbn [mbind result_bind] in Hclaims.
  apply bind_ok in Hclaims as (g & Eg & [= <-]). rewrite map_map. simpl.
  change (NoDup ((fst <$> sort_by (λ a b : string * (gset string * list Mask), leb a.1 b.1) (map_to_list g)))).
  rewrite sort_by_perm. apply NoDup_fst_map_to_list.
Qed.

Lemma claim_of m : m ∈ usable → ∃ c, c ∈ claims ∧ cl_id c = id_of shape m.
Proof.
  intros Hm. unfold derive_claims in Hclaims. rewrite Hshape in Hclaims. cbn [mbind result_bind] in Hclaims.
  apply bind_ok in Hclaims as (g & Eg & [= <-]). apply group_masks in Eg as [_ Hg].
  assert (m ∈ with_id shape (id_of shape m) usable) as Hin by (by apply list_elem_of_filter).
  destruct (last (with_id shape (id_of shape m) usable)) as [m0|] eqn:El.
  2:{ apply last_None in El. rewrite El in Hin. by apply not_elem_of_nil in Hin. }
  eexists. split.
  - apply list_elem_of_fmap_2. rewrite sort_by_elem. apply elem_of_map_to_list. rewrite Hg, El. reflexivity.
  - done.
Qed.

Lemma by_id_claim c : c ∈ claims → by_id claims (cl_id c) = Ok c.
Proof.
  intros Hc. unfold by_id. pose proof claims_distinct as Hn.
  destruct (find _ (reverse claims)) as [d|] eqn:Ef.
  - apply find_some in Ef as [Hd Ed%String.eqb_eq]. rewrite <- list_elem_of_In, elem_of_reverse in Hd.
    f_equal. clear -Hc Hd Ed Hn. induction claims as [|x l IH]; [by apply not_elem_of_nil in Hc|].
    simpl in Hn. apply NoDup_cons in Hn as [Hx Hn].
    apply elem_of_cons in Hc as [->|Hc], Hd as [->|Hd]; [done| | |by apply IH].
    + destruct Hx. rewrite <- Ed. by apply list_elem_of_fmap_2.
    + destruct Hx. rewrite Ed. by apply list_elem_of_fmap_2.
  - eapply find_none in Ef; [|apply list_elem_of_In, elem_of_reverse, Hc]. by rewrite String.eqb_refl in Ef.
Qed.

(** ** Edges *)

(** The edge of two masks of different venues: their keys in order and their
    relationship that way round. *)
Definition edge_of (informative_only : bool) (m n : Mask) (e : edge) : Prop :=
  m ∈ usable ∧ n ∈ usable ∧ venue m ≠ venue n ∧
  leb (market_key m) (market_key n) = true ∧
  ∃ k, e = (market_key m, market_key n, k) ∧ relationship m n None = Some k ∧
    (informative_only = true → k ≠ OVERLAP).

Context (Hscope : Forall (λ m, mask_scope m = scope space) usable).
Context (Hkeys : NoDup (map market_key usable)).

Lemma usable_relationship m n :
  m ∈ usable → n ∈ usable → relationship m n None = classify (outcome_keys m) (outcome_keys n).
Proof.
  intros Hm Hn. rewrite Forall_forall in Hscope. unfold relationship. rewrite !Hscope by done.
  apply list_elem_of_filter in Hm as [Hm _], Hn as [Hn _]. unfold usable_mask in Hm, Hn.
  apply andb_true_iff in Hm as [[Hm _]%andb_true_iff _], Hn as [[Hn _]%andb_true_iff _].
  rewrite Hm, Hn, String.eqb_refl. done.
Qed.

Lemma key_inj m n : m ∈ usable → n ∈ usable → market_key m = market_key n → m = n.
Proof.
  intros Hm Hn E. clear -Hm Hn E Hkeys. induction usable as [|x l IH]; [by apply not_elem_of_nil in Hm|].
  simpl in Hkeys. apply NoDup_cons in Hkeys as [Hx Hl].
  apply elem_of_cons in Hm as [->|Hm], Hn as [->|Hn]; [done| | |by apply IH].
  - destruct Hx. rewrite E. by apply list_elem_of_fmap_2.
  - destruct Hx. rewrite <- E. by apply list_elem_of_fmap_2.
Qed.

(** An edge drawn from either end is the edge of the pair in order. *)
Lemma relation_edge_of inf k m n e :
  m ∈ usable → n ∈ usable → relationship m n None = Some k → (inf = true → k ≠ OVERLAP) →
  relation_edge k (m, n) = Some e →
  edge_of inf m n e ∨ edge_of inf n m e.
Proof.
  intros Hm Hn Hr Hi. unfold relation_edge. cbn [fst snd].
  destruct (String.eqb_spec (venue m) (venue n)) as [|Hv]; [done|]. intros [= <-]. unfold in_order.
  destruct (leb (market_key m) (market_key n)) eqn:El; cbn [fst snd].
  - rewrite String.eqb_refl. left. split_and!; [done..|]. by exists k.
  - right. assert (leb (market_key n) (market_key m) = true) as El'
      by (destruct (leb_total (market_key m) (market_key n)); congruence).
    destruct (String.eqb_spec (market_key n) (market_key m)) as [E|_].
    { rewrite E in El, El'. congruence. }
    split_and!; [done|done|congruence|done|]. exists (flip k). split; [done|]. split.
    + rewrite usable_relationship in Hr |- * by done. by rewrite classify_flip, Hr.
    + intros Hinf. specialize (Hi Hinf). by destruct k.
Qed.

Lemma edge_of_relation inf k m n e :
  edge_of inf m n e → relationship m n None = Some k →
  relation_edge k (m, n) = Some e ∧ relation_edge (flip k) (n, m) = Some e.
Proof.
  intros (Hm & Hn & Hv & Hl & k' & -> & Hr & _) Hk. assert (k' = k) as -> by congruence.
  unfold relation_edge, in_order. cbn [fst snd].
  assert (market_key n ≠ market_key m) as Hne by (intros E; apply Hv; by rewrite (key_inj m n)).
  assert (leb (market_key n) (market_key m) = false) as Hl'.
  { destruct (leb (market_key n) (market_key m)) eqn:E; [|done]. destruct Hne. by apply leb_antisym. }
  rewrite (proj2 (String.eqb_neq _ _) Hv), (proj2 (String.eqb_neq _ _) (not_eq_sym Hv)), Hl, Hl'.
  cbn [fst snd]. rewrite String.eqb_refl.
  rewrite (proj2 (String.eqb_neq (market_key m) (market_key n)) (not_eq_sym Hne)), flip_flip. done.
Qed.

(** ** Relations between claims *)
Lemma relate_some inf c d r :
  c ∈ claims → d ∈ claims → relate inf (c, d) = Some r →
  ∃ a b, ((a = c ∧ b = d) ∨ (a = d ∧ b = c)) ∧ cr_left r = cl_id a ∧ cr_right r = cl_id b ∧
    classify (cl_keys a) (cl_keys b) = Some (cr_kind r) ∧ (inf = true → cr_kind r ≠ OVERLAP).
Proof.
  intros Hc Hd. destruct (elem_of_claims _ Hc) as (_ & Sc & _), (elem_of_claims _ Hd) as (_ & Sd & _).
  unfold relate, relationship, _probe. cbn [fst snd mask_scope outcome_keys derivable].
  rewrite Sc, Sd, String.eqb_refl. cbn [negb andb orb restrict].
  change (derivable _) with true. cbn [negb andb orb].
  destruct (classify (cl_keys c) (cl_keys d)) as [k|] eqn:Ek; [|done]. cbn [mbind option_bind].
  destruct (inf && uninformative k) eqn:Ei; [done|].
  assert (inf = true → k ≠ OVERLAP) as Hk.
  { intros -> ->. unfold uninformative in Ei. by rewrite bool_decide_true in Ei. }
  destruct k; intros [= <-]; cbn [cr_left cr_right cr_kind].
  - exists c, d. auto.
  - exists c, d. auto.
  - exists d, c. split_and!; [by right|done|done| |done]. by rewrite classify_flip, Ek.
  - exists c, d. auto.
  - exists c, d. auto.
Qed.

Lemma relate_total inf c d k :
  c ∈ claims → d ∈ claims → classify (cl_keys c) (cl_keys d) = Some k → (inf = true → k ≠ OVERLAP) →
  ∃ r, relate inf (c, d) = Some r.
Proof.
  intros Hc Hd Ek Hk. destruct (elem_of_claims _ Hc) as (_ & Sc & _), (elem_of_claims _ Hd) as (_ & Sd & _).
  unfold relate, relationship, _probe. cbn [fst snd mask_scope outcome_keys].
  rewrite Sc, Sd, String.eqb_refl. change (derivable _) with true. cbn [negb andb orb restrict].
  rewrite Ek. cbn [mbind option_bind].
  assert (inf && uninformative k = false) as ->.
  { destruct inf; [|done]. unfold uninformative. by rewrite bool_decide_false by auto. }
  destruct k; by eexists.
Qed.

Lemma identity_relation_edge lr : identity_edge lr = relation_edge IDENTITY lr.
Proof.
  unfold identity_edge, relation_edge. destruct (String.eqb _ _); [done|].
  by destruct (String.eqb (in_order _ _).1 _).
Qed.

Lemma usable_inhabited m : m ∈ usable → outcome_keys m ≠ ∅.
Proof.
  intros [Hm _]%list_elem_of_filter E. unfold usable_mask in Hm. rewrite E, size_empty in Hm.
  by destruct (derivable m).
Qed.

Lemma usable_nodup : NoDup usable.
Proof. apply (NoDup_fmap_1 market_key). exact Hkeys. Qed.

Abbreviation ranked := (sort_by (λ a b : Claim, leb (cl_id a) (cl_id b)) claims).

Lemma claims_one_shape : (length (remove_dups (map cl_shape claims)) ≤ 1)%nat.
Proof.
  pose proof (NoDup_remove_dups (map cl_shape claims)) as Hn.
  assert (∀ x, x ∈ remove_dups (map cl_shape claims) → x = shape) as Hx.
  { intros x (c & -> & Hc)%elem_of_remove_dups%list_elem_of_fmap. by apply elem_of_claims in Hc as [? _]. }
  destruct (remove_dups _) as [|x [|y l]]; simpl; [lia|lia|].
  apply NoDup_cons in Hn as [Hn _]. destruct Hn. rewrite (Hx x), (Hx y) by set_solver. left.
Qed.

Lemma claim_pairs c d : c ∈ claims → d ∈ claims → c ≠ d → (c, d) ∈ pairs ranked ∨ (d, c) ∈ pairs ranked.
Proof. intros. apply pairs_cover; by rewrite ?sort_by_elem. Qed.

Lemma elem_of_concat {A} (x : A) ls : x ∈ concat ls ↔ ∃ l, l ∈ ls ∧ x ∈ l.
Proof. rewrite list_elem_of_In, in_concat. by setoid_rewrite list_elem_of_In. Qed.

Lemma relations_edges inf :
  ∃ es, group_edges (claims, omap (relate inf) (pairs ranked)) = Ok es ∧
    ∀ e, e ∈ es ↔
      (∃ c m n, c ∈ claims ∧ (m, n) ∈ pairs (members c) ∧ identity_edge (m, n) = Some e) ∨
      (∃ c d r a b m n, (c, d) ∈ pairs ranked ∧ relate inf (c, d) = Some r ∧
         a ∈ claims ∧ b ∈ claims ∧ cr_left r = cl_id a ∧ cr_right r = cl_id b ∧
         m ∈ members a ∧ n ∈ members b ∧ relation_edge (cr_kind r) (m, n) = Some e).
Proof.
  unfold group_edges. cbn [fst snd].
  assert (Forall (λ r, ∃ es, relation_edges claims r = Ok es ∧ ∀ e, e ∈ es ↔
    ∃ a b m n, a ∈ claims ∧ b ∈ claims ∧ cr_left r = cl_id a ∧ cr_right r = cl_id b ∧
      m ∈ members a ∧ n ∈ members b ∧ relation_edge (cr_kind r) (m, n) = Some e)
    (omap (relate inf) (pairs ranked))) as Hf.
  { apply Forall_forall. intros r ([c d] & Hcd & Er)%list_elem_of_omap.
    apply elem_of_pairs in Hcd as [Hc Hd]. rewrite sort_by_elem in Hc, Hd.
    destruct (relate_some inf c d r Hc Hd Er) as (a & b & Hab & El & Err & _).
    assert (a ∈ claims ∧ b ∈ claims) as [Ha Hb] by (destruct Hab as [[-> ->]|[-> ->]]; done).
    unfold relation_edges. rewrite El, Err, !by_id_claim by done. cbn [mbind result_bind].
    eexists. split; [done|]. intros e. rewrite list_elem_of_omap. split.
    - intros ([m n] & (l & (rr & Hmn & Hrr)%list_elem_of_bind & Hl)%list_elem_of_bind & E).
      apply list_elem_of_singleton in Hmn as [= -> ->]. by exists a, b, l, rr.
    - intros (a' & b' & m & n & Ha' & Hb' & El' & Er' & Hm & Hn & E).
      assert (a' = a) as ->.
      { pose proof (by_id_claim _ Ha) as H1. pose proof (by_id_claim _ Ha') as H2. congruence. }
      assert (b' = b) as ->.
      { pose proof (by_id_claim _ Hb) as H1. pose proof (by_id_claim _ Hb') as H2. congruence. }
      exists (m, n). split; [|done]. apply list_elem_of_bind. exists m. split; [|done].
      apply list_elem_of_bind. exists n. split; [by left|done]. }
  apply mapR_exists in Hf as (ess & -> & Hf). cbn [mbind result_bind]. eexists. split; [done|].
  intros e. rewrite elem_of_app, list_elem_of_omap. apply Morphisms_Prop.or_iff_morphism.
  - split.
    + intros ([m n] & (c & Hp & Hc)%list_elem_of_bind & E). by exists c, m, n.
    + intros (c & m & n & Hc & Hp & E). exists (m, n). split; [|done]. apply list_elem_of_bind. by exists c.
  - rewrite elem_of_concat. split.
    + intros (es & Hes & He). apply list_elem_of_lookup in Hes as [i Hi].
      destruct (Forall2_lookup_r _ _ _ _ _ Hf Hi) as (r & Hr & Hspec). apply list_elem_of_lookup_2 in Hr.
      apply list_elem_of_omap in Hr as ([c d] & Hcd & Er).
      destruct (proj1 (Hspec e) He) as (a & b & m & n & He'). by exists c, d, r, a, b, m, n.
    + intros (c & d & r & a & b & m & n & Hcd & Er & He).
      assert (r ∈ omap (relate inf) (pairs ranked)) as Hr by (apply list_elem_of_omap; by exists (c, d)).
      apply list_elem_of_lookup in Hr as [i Hi]. destruct (Forall2_lookup_l _ _ _ _ _ Hf Hi) as (es & Hes & Hspec).
      exists es. split; [by eapply list_elem_of_lookup_2|]. apply Hspec. by exists a, b, m, n.
Qed.

Lemma edges_spec inf (es : list edge) e :
  (∀ e, e ∈ es ↔
      (∃ c m n, c ∈ claims ∧ (m, n) ∈ pairs (members c) ∧ identity_edge (m, n) = Some e) ∨
      (∃ c d r a b m n, (c, d) ∈ pairs ranked ∧ relate inf (c, d) = Some r ∧
         a ∈ claims ∧ b ∈ claims ∧ cr_left r = cl_id a ∧ cr_right r = cl_id b ∧
         m ∈ members a ∧ n ∈ members b ∧ relation_edge (cr_kind r) (m, n) = Some e)) →
  e ∈ es ↔ ∃ m n, edge_of inf m n e.
Proof.
  intros Hes. rewrite Hes. split.
  - intros [(c & m & n & Hc & Hp & E)|(c & d & r & a & b & m & n & Hcd & Er & Ha & Hb & El & Err & Hm & Hn & E)].
    + destruct (elem_of_claims _ Hc) as (_ & _ & Hmem & Hks & _).
      apply elem_of_pairs in Hp as [Hm Hn]. pose proof (Hks _ Hm) as Km. pose proof (Hks _ Hn) as Kn.
      apply Hmem in Hm as [Hm _], Hn as [Hn _]. rewrite identity_relation_edge in E.
      destruct (relation_edge_of inf IDENTITY m n e) as [He|He]; [done|done| |done|done|by exists m, n|by exists n, m].
      rewrite usable_relationship by done. pose proof (usable_inhabited m Hm) as Hne. rewrite Km in Hne |- *. rewrite Kn.
      destruct (classify_some _ _ Hne Hne) as [k Ek]. rewrite Ek. f_equal. by eapply classify_same.
    + apply elem_of_pairs in Hcd as [Hc Hd]. rewrite sort_by_elem in Hc, Hd.
      destruct (relate_some inf c d r Hc Hd Er) as (a' & b' & Hab & El' & Err' & Ek & Hi).
      assert (a' ∈ claims ∧ b' ∈ claims) as [Ha' Hb'] by (destruct Hab as [[-> ->]|[-> ->]]; done).
      assert (a' = a) as ->.
      { pose proof (by_id_claim _ Ha) as H1. pose proof (by_id_claim _ Ha') as H2. congruence. }
      assert (b' = b) as ->.
      { pose proof (by_id_claim _ Hb) as H1. pose proof (by_id_claim _ Hb') as H2. congruence. }
      destruct (elem_of_claims _ Ha) as (_ & _ & Hma & Hka & _), (elem_of_claims _ Hb) as (_ & _ & Hmb & Hkb & _).
      rewrite <- (Hka m Hm), <- (Hkb n Hn) in Ek. apply Hma in Hm as [Hm _]. apply Hmb in Hn as [Hn _].
      destruct (relation_edge_of inf (cr_kind r) m n e) as [He|He]; [done|done| |done|done|by exists m, n|by exists n, m].
      by rewrite usable_relationship.
  - intros (m & n & He). pose proof He as (Hm & Hn & Hv & _ & k & _ & Hr & Hi).
    destruct (edge_of_relation inf k m n e He Hr) as [E1 E2].
    destruct (claim_of m Hm) as (c & Hc & Ic), (claim_of n Hn) as (d & Hd & Id).
    destruct (elem_of_claims _ Hc) as (_ & _ & Hmc & Hkc & _ & Hnc), (elem_of_claims _ Hd) as (_ & _ & Hmd & Hkd & _).
    assert (m ∈ members c) as Hm' by by apply Hmc. assert (n ∈ members d) as Hn' by by apply Hmd.
    rewrite usable_relationship, (Hkc m Hm'), (Hkd n Hn') in Hr by done.
    destruct (decide (cl_id c = cl_id d)) as [Ecd|Ecd].
    + left. assert (c = d) as <-.
      { pose proof (by_id_claim _ Hc) as H1. pose proof (by_id_claim _ Hd) as H2. congruence. }
      apply classify_same in Hr as ->. exists c.
      destruct (pairs_cover (members c) m n Hm' Hn') as [Hp|Hp]; [by intros ->| |].
      * exists m, n. by rewrite identity_relation_edge.
      * exists n, m. by rewrite identity_relation_edge.
    + right. assert (c ≠ d) as Hcd by congruence.
      assert (∀ x y, (x, y) ∈ pairs ranked → ((x = c ∧ y = d) ∨ (x = d ∧ y = c)) →
        ∃ r a b m n, relate inf (x, y) = Some r ∧ a ∈ claims ∧ b ∈ claims ∧ cr_left r = cl_id a ∧
          cr_right r = cl_id b ∧ m ∈ members a ∧ n ∈ members b ∧ relation_edge (cr_kind r) (m, n) = Some e) as Hgo.
      { intros x y _ Hxy.
        assert (∃ r, relate inf (x, y) = Some r) as [r Er].
        { destruct Hxy as [[-> ->]|[-> ->]]; [by apply (relate_total inf c d k)|].
          apply (relate_total inf d c (flip k)); [done|done|by rewrite classify_flip, Hr|].
          intros Hinf. specialize (Hi Hinf). by destruct k. }
        exists r. assert (x ∈ claims ∧ y ∈ claims) as [Hx Hy] by (destruct Hxy as [[-> ->]|[-> ->]]; done).
        destruct (relate_some inf x y r Hx Hy Er) as (a & b & Hab & El & Err & Ek & _).
        assert ((a = c ∧ b = d) ∨ (a = d ∧ b = c)) as [[-> ->]|[-> ->]].
        { destruct Hxy as [[-> ->]|[-> ->]], Hab as [[-> ->]|[-> ->]]; auto. }
        - exists c, d, m, n. rewrite Hr in Ek. injection Ek as <-. by split_and!.
        - exists d, c, n, m. rewrite classify_flip, Hr in Ek. injection Ek as <-. by split_and!. }
      destruct (claim_pairs c d Hc Hd Hcd) as [Hp|Hp].
      * destruct (Hgo _ _ Hp) as (r & a & b & m' & n' & H); [by left|]. by exists c, d, r, a, b, m', n'.
      * destruct (Hgo _ _ Hp) as (r & a & b & m' & n' & H); [by right|]. by exists d, c, r, a, b, m', n'.
Qed.
End Grouping.

Section Results.
Context (loads : list Byte.byte → option json) (dumps : json → list Byte.byte) `{!JsonCodec loads dumps}.
Context (sha256 : list Byte.byte → string).

(** C25. The algebra over claims loses nothing and adds nothing: when SHA-256 tells the
    claims of a space apart and market keys are unique, the relations rebuilt from the
    derived claims and their algebra are exactly, for every two usable masks of different
    venues, their keys in order and their relationship that way round (without overlaps
    when only informative relations are asked for). *)
Theorem claim_relations_complete masks space claims inf :
  derive_claims dumps sha256 masks space = Ok claims →
  (∀ shape, space_shape_id dumps sha256 space = Ok shape →
     collision_free dumps sha256 shape (usable_masks masks space)) →
  Forall (λ m, mask_scope m = scope space) (usable_masks masks space) →
  NoDup (map market_key (usable_masks masks space)) →
  ∃ relations edges, derive_claim_algebra claims inf = Ok relations ∧
    implied_market_relations [(claims, relations)] = Ok edges ∧
    ∀ e, e ∈ edges ↔ ∃ m n, edge_of masks space inf m n e.
Proof.
  intros Hc Hfree Hsc Hk.
  destruct (space_shape_id dumps sha256 space) as [shape|err] eqn:Hshape.
  2:{ unfold derive_claims in Hc. by rewrite Hshape in Hc. }
  specialize (Hfree shape eq_refl).
  destruct (relations_edges loads dumps sha256 masks space claims shape Hc Hshape Hfree inf) as (es & Ees & Hes).
  eexists _, (list_to_set es). split; [|split].
  - unfold derive_claim_algebra.
    pose proof (claims_one_shape loads dumps sha256 masks space claims shape Hc Hshape Hfree Hsc Hk) as H1.
    rewrite (proj2 (Nat.ltb_ge _ _) H1). reflexivity.
  - unfold implied_market_relations. cbn [mapR]. rewrite Ees. cbn [mbind result_bind]. simpl. by rewrite app_nil_r.
  - intros e. rewrite elem_of_list_to_set.
    by apply (edges_spec loads dumps sha256 masks space claims shape Hc Hshape Hfree Hsc Hk).
Qed.
End Results.

(** ** A match on two venues *)
Definition demo_score (h a : Z) (k : string) : Outcome :=
  mkOutcome k (Score (mkScore "Ayr" "Bute" h a (h + a) (h - a))).
Definition demo_space : OutcomeSpace :=
  mkOutcomeSpace "event" SCOPE_REGULATION_FULLTIME
    [demo_score 0 0 "score:0-0"; demo_score 1 0 "score:1-0"; demo_score 0 1 "score:0-1"]
    COVERAGE_INCOMPLETE "" None None None.
Definition demo_mask (k v : string) (ks : list string) : Mask :=
  mkMask k v "" SCOPE_REGULATION_FULLTIME STATUS_DERIVABLE (list_to_set ks) "" None.
(** The home win on both venues, its negation on one. *)
Definition demo_masks : list Mask :=
  [demo_mask "k-home" "kalshi" ["score:1-0"]; demo_mask "p-home" "polymarket" ["score:1-0"];
   demo_mask "p-not-home" "polymarket" ["score:0-0"; "score:0-1"]].
Definition demo_claims : list Claim :=
  match derive_claims demo_dumps demo_digest demo_masks demo_space with Ok cs => cs | Err _ => [] end.

Example demo_relations :
  (rs ← derive_claim_algebra demo_claims true;
   es ← implied_market_relations [(demo_claims, rs)];
   Ok (length demo_claims, elements es))
  = Ok (2%nat, [(("k-home", "p-home"), IDENTITY); (("k-home", "p-not-home"), MUTUAL_EXCLUSION)]).
Proof. vm_compute. reflexivity. Qed.

Lemma claim_relations_complete_witness :
  ∃ relations edges, derive_claim_algebra demo_claims true = Ok relations ∧
    implied_market_relations [(demo_claims, relations)] = Ok edges ∧
    ∀ e, e ∈ edges ↔ ∃ m n, edge_of demo_masks demo_space true m n e.
Proof.
  refine (claim_relations_complete demo_loads demo_dumps demo_digest demo_masks demo_space demo_claims true _ _ _ _).
  - vm_compute. reflexivity.
  - intros shape E. vm_compute in E. injection E as <-.
    assert (usable_masks demo_masks demo_space = demo_masks) as -> by (vm_compute; reflexivity).
    intros m n Hm Hn. cbv zeta. unfold demo_masks in Hm, Hn. rewrite !elem_of_cons in Hm, Hn.
    destruct Hm as [->|[->|[->|[]%not_elem_of_nil]]], Hn as [->|[->|[->|[]%not_elem_of_nil]]];
      intros E; first [reflexivity | vm_compute in E; discriminate E].
  - repeat constructor.
  - assert (map market_key (usable_masks demo_masks demo_space) = ["k-home"; "p-home"; "p-not-home"]) as ->
      by (vm_compute; reflexivity).
    repeat constructor; set_solver.
Defined.
