(* ===== verification/OutcomeSpaceProps.v ===== *)
(** * Properties of outcome spaces ([src/analysis/outcome_space.py])

    The enumeration of a series is exact: its outcomes are the ways the series can be
    played, and the outcomes reachable from a state are those that continue it. *)
From stdpp Require Import gmap fin_sets strings.
From S2P Require Import Prelude Order Wire ObjectKeys OutcomeSpace.

(** ** Strings *)
Lemma append_nil_r s : s +:+ "" = s.
Proof. induction s as [|c s IH]; [done|]. exact (f_equal (String c) IH). Qed.

Lemma append_assoc r s t : (r +:+ s) +:+ t = r +:+ (s +:+ t).
Proof. induction r as [|c r IH]; [done|]. exact (f_equal (String c) IH). Qed.

Lemma append_inj r s t : r +:+ s = r +:+ t → s = t.
Proof. apply (inj (String.append r)). Qed.

Lemma prefix_spec p q : String.prefix p q = true ↔ ∃ r, q = p +:+ r.
Proof.
  revert q. induction p as [|c p IH]; intros q; simpl.
  { split; [intros _; by exists q|by destruct q]. }
  destruct q as [|c' q]; [split; [done|]; by intros [r ?]|].
  assert (∀ r, String c' q = String c p +:+ r ↔ c' = c ∧ q = p +:+ r) as Hr.
  { intros r. change (String c p +:+ r) with (String c (p +:+ r)). naive_solver. }
  setoid_rewrite Hr. cbn [String.prefix]. case_match.
  - rewrite IH. naive_solver.
  - naive_solver.
Qed.

Lemma count_char_nil c : count_char c "" = 0.
Proof. done. Qed.

Lemma count_char_cons c d s : count_char c (String d s) = (if decide (d = c) then 1 else 0) + count_char c s.
Proof.
  unfold count_char, chars. cbn [chars String.list_ascii_of_string].
  destruct (decide (d = c)); [rewrite filter_cons_True by done|rewrite filter_cons_False by done]; cbn [length]; lia.
Qed.

Lemma count_char_nonneg c s : 0 ≤ count_char c s.
Proof. unfold count_char. lia. Qed.

(** ** Playing a series *)
Definition map_sides (s : string) : Prop := Forall (λ c, c = H ∨ c = A) (chars s).

(** Some side has its wins, having started from [h] and [a]. *)
Definition decided (t h a : Z) (s : string) : Prop := h + count_char H s = t ∨ a + count_char A s = t.
#[global] Instance decided_dec t h a s : Decision (decided t h a s).
Proof. unfold decided. apply _. Defined.

(** A play runs until some side has its wins, and no further. *)
Definition play (t h a : Z) (s : string) : Prop :=
  map_sides s ∧ decided t h a s ∧ ∀ p r, s = p +:+ r → r ≠ "" → ¬ decided t h a p.

Lemma decided_cons t h a c s : c = H ∨ c = A →
  decided t h a (String c s) ↔ decided t (if decide (c = H) then h + 1 else h) (if decide (c = A) then a + 1 else a) s.
Proof. intros Hc. unfold decided. rewrite !count_char_cons. destruct Hc as [-> | ->]; simpl; lia. Qed.

Lemma play_decided t h a s : decided t h a "" → play t h a s ↔ s = "".
Proof.
  intros Hd. split.
  - intros (_ & _ & Hp). destruct (decide (s = "")) as [|Hs]; [done|]. by destruct (Hp "" s).
  - intros ->. split_and!; [constructor|done|]. intros [|c p] [|d r]; done.
Qed.

Lemma play_undecided t h a s : ¬ decided t h a "" →
  play t h a s ↔ (∃ r, s = String H r ∧ play t (h + 1) a r) ∨ (∃ r, s = String A r ∧ play t h (a + 1) r).
Proof.
  intros Hd.
  assert (∀ c r, c = H ∨ c = A →
    play t h a (String c r) ↔ play t (if decide (c = H) then h + 1 else h) (if decide (c = A) then a + 1 else a) r) as Hc.
  { intros c r Hc. unfold play, map_sides. cbn [chars String.list_ascii_of_string]. rewrite Forall_cons, decided_cons by done.
    split; intros (Hs & Ho & Hp); split_and!; try done; try (by destruct Hs).
    - intros p q -> Hq. rewrite <- decided_cons by done. by eapply Hp.
    - intros [|d p] q E Hq; [done|]. injection E as <- ->. rewrite decided_cons by done. by eapply Hp. }
  split.
  - intros Hplay. destruct s as [|c r]; [by destruct Hplay as (_ & ? & _)|].
    assert (c = H ∨ c = A) as Hs by (destruct Hplay as (Hs & _); by inversion Hs).
    apply Hc in Hplay; [|done]. destruct Hs as [-> | ->]; [left|right]; by exists r.
  - intros [(r & -> & Hp)|(r & -> & Hp)]; apply Hc; auto.
Qed.

(** ** The enumeration *)
Lemma walk_plays fuel t h a prefix results :
  h ≤ t → a ≤ t → 0 < 2 * t - h - a ≤ Z.of_nat fuel →
  ∃ l, walk fuel t prefix h a results = Ok (results ++ map (String.append prefix) l) ∧
    NoDup l ∧ ∀ s, s ∈ l ↔ play t h a s.
Proof.
  revert h a prefix results. induction fuel as [|fuel IH]; intros h a prefix results Hh Ha Hf; [lia|].
  cbn [walk]. destruct ((h =? t) || (a =? t)) eqn:Ed.
  - assert (decided t h a "") as Hd by (unfold decided; rewrite !count_char_nil; lia).
    exists [""]. split_and!; [cbn [map]; by rewrite append_nil_r|apply NoDup_singleton|].
    intros s. rewrite list_elem_of_singleton. symmetry. by apply play_decided.
  - assert (¬ decided t h a "") as Hd by (unfold decided; rewrite !count_char_nil; lia).
    apply orb_false_iff in Ed as [Eh Ea].
    destruct (IH (h + 1) a (prefix +:+ "H") results) as (l1 & -> & Hn1 & Hl1); [lia..|].
    cbn [mbind result_bind].
    destruct (IH h (a + 1) (prefix +:+ "A") (results ++ map (String.append (prefix +:+ "H")) l1))
      as (l2 & -> & Hn2 & Hl2); [lia..|].
    assert (∀ c l, map (String.append (prefix +:+ String c "")) l
      = map (String.append prefix) (map (String c) l)) as Hm.
    { intros c l. rewrite map_map. apply map_ext. intros s. by rewrite append_assoc. }
    exists (map (String H) l1 ++ map (String A) l2). split_and!.
    + rewrite map_app, <- app_assoc. by rewrite <- (Hm H), <- (Hm A).
    + apply NoDup_app. split_and!; [| |]; try (apply NoDup_fmap_2; [intros ?? [=]; done|done]).
      intros s (r & -> & _)%list_elem_of_fmap. by intros (r' & ? & _)%list_elem_of_fmap.
    + intros s. rewrite elem_of_app, play_undecided, !list_elem_of_fmap by done.
      by setoid_rewrite Hl1; setoid_rewrite Hl2.
Qed.

Lemma series_sequences_plays n : 0 < n → n mod 2 = 1 →
  ∃ l, series_sequences n = Ok l ∧ NoDup l ∧ ordered l ∧ ∀ s, s ∈ l ↔ play (target_wins n) 0 0 s.
Proof.
  intros Hn Ho. unfold series_sequences, target_wins.
  replace ((n <? 1) || (n mod 2 =? 0)) with false by lia.
  pose proof (Z.div_mod n 2) as Hdiv.
  destruct (walk_plays (Z.to_nat (2 * (n / 2 + 1))) (n / 2 + 1) 0 0 "" []) as (l & -> & Hnd & Hl); [lia..|].
  cbn [mbind result_bind]. exists (sorted (map (String.append "") l)).
  assert (map (String.append "") l = l) as -> by (rewrite <- (map_id l) at 2; by apply map_ext).
  split_and!; [done|by rewrite sorted_perm|apply sorted_ordered|]. intros s. by rewrite sorted_elem.
Qed.

(** ** What a play ends with *)
Lemma map_sides_length s : map_sides s → count_char H s + count_char A s = Z.of_nat (String.length s).
Proof.
  induction s as [|c s IH]; [done|]. intros Hs. unfold map_sides in Hs.
  cbn [chars String.list_ascii_of_string] in Hs. apply Forall_cons in Hs as [Hc Hs]. specialize (IH Hs).
  rewrite !count_char_cons. cbn [String.length]. destruct Hc as [-> | ->]; simpl; lia.
Qed.

Lemma count_char_app c s t : count_char c (s +:+ t) = count_char c s + count_char c t.
Proof. unfold count_char. rewrite chars_app, filter_app, length_app. lia. Qed.

(** The last map of a play takes exactly one side to its wins. *)
Lemma play_result t h a s : h ≤ t → a ≤ t → h + a < 2 * t → play t h a s →
  (h + count_char H s = t ∧ a + count_char A s < t) ∨ (h + count_char H s < t ∧ a + count_char A s = t).
Proof.
  intros Hh Ha Ht Hp. revert h a Hh Ha Ht Hp. induction s as [|c s IH]; intros h a Hh Ha Ht Hp.
  - destruct Hp as (_ & Hd & _). unfold decided in Hd. rewrite !count_char_nil in *. lia.
  - destruct (decide (decided t h a "")) as [Hd|Hd].
    { by apply play_decided in Hp. }
    apply play_undecided in Hp; [|done]. unfold decided in Hd. rewrite !count_char_nil in Hd.
    rewrite !count_char_cons.
    destruct Hp as [(r & [= -> <-] & Hp)|(r & [= -> <-] & Hp)]; simpl; apply IH in Hp; lia.
Qed.

(** ** Reachability *)
Lemma select_ok s f g :
  Forall (λ o, f (outcome_payload o) = Ok (g o)) (outcomes s) →
  select s f = Ok (list_to_set (map key (filter (λ o, g o = true) (outcomes s)))).
Proof.
  intros Hf. unfold select.
  assert (mapR (λ o, b ← f (outcome_payload o); Ok (if (b : bool) then [key o] else [])) (outcomes s)
    = Ok (map (λ o, if g o then [key o] else []) (outcomes s))) as ->.
  { induction Hf as [|o l Ho _ IH]; [done|]. cbn [mapR map]. rewrite Ho. cbn [mbind result_bind].
    rewrite IH. done. }
  cbn [mbind result_bind]. do 2 f_equal. clear Hf. induction (outcomes s) as [|o l IH]; [done|].
  cbn [map concat]. rewrite IH. destruct (g o) eqn:E.
  - by rewrite filter_cons_True.
  - by rewrite filter_cons_False by congruence.
Qed.

(** C40. A best-of-[n] space is exact.  Its outcomes are, once each, the sequences that
    stop when a side first has its [n/2+1] wins; in each of them the winner has just
    those wins and the loser fewer, over at most [n] maps.  After a prefix of maps the
    reachable outcomes are the plays that continue it, and a sequence settles the space
    exactly when it is a play. *)
Theorem series_space_exact ek n home away : 0 < n → n mod 2 = 1 →
  ∃ space, build_series_space ek n home away = Ok space ∧
    NoDup (map key (outcomes space)) ∧
    (∀ o, o ∈ outcomes space ↔ ∃ q, play (target_wins n) 0 0 q ∧ o = series_outcome home away q) ∧
    (∀ q, play (target_wins n) 0 0 q →
       Z.max (count_char H q) (count_char A q) = target_wins n ∧ count_char H q ≠ count_char A q ∧
       target_wins n ≤ Z.of_nat (String.length q) ≤ n) ∧
    (∀ p, p ≠ "" → ∃ ks, reachable_keys space p = Ok ks ∧
       ∀ k, k ∈ ks ↔ ∃ r, play (target_wins n) 0 0 (p +:+ r) ∧ k = "seq:" +:+ (p +:+ r)) ∧
    (∀ h a q k, settled_outcome_key space h a (Some q) = Some k ↔
       play (target_wins n) 0 0 q ∧ k = "seq:" +:+ q).
Proof.
  intros Hn Ho. destruct (series_sequences_plays n Hn Ho) as (l & El & Hnd & _ & Hl).
  unfold build_series_space. rewrite El. cbn [mbind result_bind]. eexists. split; [done|].
  cbn [outcomes].
  assert (map key (map (series_outcome home away) l) = map (String.append "seq:") l) as Hk by (by rewrite map_map).
  rewrite Hk. split_and!.
  - apply NoDup_fmap_2; [apply _|done].
  - intros o. rewrite list_elem_of_fmap. setoid_rewrite Hl. naive_solver.
  - intros q Hq. pose proof (proj1 Hq) as Hs. apply map_sides_length in Hs.
    pose proof (count_char_nonneg H q). pose proof (count_char_nonneg A q).
    apply play_result in Hq; unfold target_wins in *; pose proof (Z.div_mod n 2); lia.
  - intros p Hp. unfold reachable_keys. cbn [scope]. rewrite (proj2 (String.eqb_neq _ _) Hp). cbn [negb orb String.eqb].
    change (negb (SCOPE_SERIES =? SCOPE_SERIES)%string || false) with false. cbv iota.
    erewrite (select_ok _ _ (λ o, match outcome_payload o with Series q => String.prefix p (sequence q) | Score _ => false end)).
    2:{ apply Forall_forall. intros o (q & -> & _)%list_elem_of_fmap. done. }
    eexists. split; [done|]. intros k. rewrite elem_of_list_to_set, list_elem_of_fmap. cbn [outcomes].
    setoid_rewrite list_elem_of_filter. setoid_rewrite list_elem_of_fmap. split.
    + intros (o & -> & Hpre & q & -> & Hq). cbn [outcome_payload sequence series_outcome] in Hpre.
      apply prefix_spec in Hpre as [r ->]. exists r. by rewrite <- Hl.
    + intros (r & Hr & ->). exists (series_outcome home away (p +:+ r)). split_and!; [done| |].
      * cbn [outcome_payload sequence series_outcome]. apply prefix_spec. by exists r.
      * exists (p +:+ r). by rewrite Hl.
  - intros h a q k. unfold settled_outcome_key. cbn [scope]. rewrite String.eqb_refl.
    unfold keys. cbn [outcomes]. rewrite Hk.
    assert (("seq:" +:+ q) ∈@{gset string} list_to_set (map (String.append "seq:") l) ↔ play (target_wins n) 0 0 q) as Hq.
    { rewrite elem_of_list_to_set, <- Hl, list_elem_of_fmap. split; [|by exists q].
      intros (q' & E%append_inj & Hq). by subst. }
    destruct (decide _) as [Hd|Hd]; rewrite Hq in Hd; naive_solver.
Qed.

Lemma series_space_exact_witness :
  ∃ space, build_series_space "final" 3 "Ayr" "Bute" = Ok space ∧
    series_sequences 3 = Ok ["AA"; "AHA"; "AHH"; "HAA"; "HAH"; "HH"] ∧
    ∀ p, p ≠ "" → ∃ ks, reachable_keys space p = Ok ks ∧
      ∀ k, k ∈ ks ↔ ∃ r, play 2 0 0 (p +:+ r) ∧ k = "seq:" +:+ (p +:+ r).
Proof.
  destruct (series_space_exact "final" 3 "Ayr" "Bute") as (space & Hs & _ & _ & _ & Hr & _); [done|done|].
  exists space. split_and!; [done|vm_compute; reflexivity|exact Hr].
Defined.
