(* ===== verification/Fraction.v ===== *)
(** * Exact fractions (Python's [fractions.Fraction])

    Python keeps a fraction in lowest terms with a positive denominator, as the canonical
    rationals [Qc] do, so equality of fractions is Leibniz equality and the numerator and
    denominator are those of the representative. *)
From stdpp Require Import numbers.
From Stdlib Require Import QArith Qround Qcanon.
From S2P Require Import Prelude.

#[global] Open Scope Z_scope.

(** [Fraction(n)] and [Fraction(n, d)], for [d] positive. *)
Abbreviation of_Z := Qc_of_Z.
Definition ratio (n d : Z) : Qc := (of_Z n / of_Z d)%Qc.
Definition pow10 (n : Z) : Z := 10 ^ n.

Definition numerator (q : Qc) : Z := Qnum (this q).
Definition denominator (q : Qc) : Z := Z.pos (Qden (this q)).

(** [q.denominator == 1]. *)
Definition integral (q : Qc) : bool := denominator q =? 1.

(** [math.floor(q)], [-(-q.numerator // q.denominator)], [p // q] and [int(q)]. *)
Definition floor (q : Qc) : Z := numerator q / denominator q.
Definition ceiling (q : Qc) : Z := - (- numerator q / denominator q).
Definition floordiv (p q : Qc) : Z := floor (p / q)%Qc.
Definition truncate (q : Qc) : Z := Z.quot (numerator q) (denominator q).

(** Comparisons as Python's booleans. *)
Definition qleb (p q : Qc) : bool := bool_decide (p ≤ q)%Qc.
Definition qltb (p q : Qc) : bool := bool_decide (p < q)%Qc.
Definition qeqb (p q : Qc) : bool := bool_decide (p = q).

(** ** Integers among the fractions *)
Lemma numerator_of_Z n : numerator (of_Z n) = n.
Proof. done. Qed.
Lemma denominator_of_Z n : denominator (of_Z n) = 1.
Proof. done. Qed.

Lemma integral_of_Z n : integral (of_Z n) = true.
Proof. done. Qed.

Lemma integral_iff q : integral q = true ↔ q = of_Z (numerator q).
Proof.
  unfold integral, denominator, numerator. split; [|by intros ->].
  intros H%Z.eqb_eq. apply Qc_is_canon. destruct q as [[n d] Hq]. simpl in *. injection H as ->. done.
Qed.

Lemma integral_exists q : integral q = true ↔ ∃ n, q = of_Z n.
Proof. rewrite integral_iff. split; [eauto|]. by intros [n ->]. Qed.

Lemma integral_numerator q : integral q = true → of_Z (numerator q) = q.
Proof. intros H%integral_iff. by rewrite <- H. Qed.

Lemma of_Z_inj n m : of_Z n = of_Z m ↔ n = m.
Proof. apply Z2Qc_inj_iff. Qed.

Lemma of_Z_nonzero n : n ≠ 0 → of_Z n ≠ 0%Qc.
Proof. intros Hn H. apply Hn. apply of_Z_inj. by rewrite Z2Qc_inj_0. Qed.

Lemma of_Z_pos n : 0 < n ↔ (0 < of_Z n)%Qc.
Proof. by rewrite Z2Qc_inj_lt, Z2Qc_inj_0. Qed.

Lemma of_Z_nonneg n : 0 ≤ n ↔ (0 ≤ of_Z n)%Qc.
Proof. by rewrite Z2Qc_inj_le, Z2Qc_inj_0. Qed.

(** ** Floor and ceiling *)
Lemma floor_Qfloor q : floor q = Qfloor (this q).
Proof. unfold floor, numerator, denominator. by destruct q as [[n d] Hq]. Qed.

Lemma floor_spec q n : floor q = n ↔ (of_Z n ≤ q < of_Z n + 1)%Qc.
Proof.
  rewrite floor_Qfloor. unfold Qcle, Qclt. split.
  - intros <-. split; [apply Qfloor_le|]. simpl. rewrite Qred_correct.
    pose proof (Qlt_floor (this q)) as H. by rewrite inject_Z_plus in H.
  - intros [H1 H2]. simpl in H2. rewrite Qred_correct in H2. change (inject_Z n <= this q)%Q in H1.
    apply Qfloor_resp_le in H1. rewrite Qfloor_Z in H1.
    assert (this q < inject_Z (n + 1))%Q as H3 by (rewrite inject_Z_plus; exact H2).
    pose proof (Qle_lt_trans _ _ _ (Qfloor_le (this q)) H3) as H4. rewrite <- Zlt_Qlt in H4. lia.
Qed.

Lemma floor_le q : (of_Z (floor q) ≤ q)%Qc.
Proof. by apply (proj1 (floor_spec q _)). Qed.

Lemma floor_lt q : (q < of_Z (floor q) + 1)%Qc.
Proof. by apply (proj1 (floor_spec q _)). Qed.

Lemma floor_of_Z n : floor (of_Z n) = n.
Proof. unfold floor. by rewrite numerator_of_Z, denominator_of_Z, Z.div_1_r. Qed.

Lemma floor_mono p q : (p ≤ q)%Qc → floor p ≤ floor q.
Proof. rewrite !floor_Qfloor. apply Qfloor_resp_le. Qed.

Lemma floor_nonneg q : (0 ≤ q)%Qc → 0 ≤ floor q.
Proof. intros H%floor_mono. by rewrite <- Z2Qc_inj_0, floor_of_Z in H. Qed.

Lemma ceiling_Qceiling q : ceiling q = Qceiling (this q).
Proof. unfold ceiling, numerator, denominator. by destruct q as [[n d] Hq]. Qed.

Lemma ceiling_ge q : (q ≤ of_Z (ceiling q))%Qc.
Proof. rewrite ceiling_Qceiling. apply Qle_ceiling. Qed.

Lemma ceiling_lt q : (of_Z (ceiling q) < q + 1)%Qc.
Proof.
  rewrite ceiling_Qceiling. unfold Qclt. simpl. rewrite Qred_correct.
  pose proof (Qceiling_lt (this q)) as H. unfold Z.sub in H. rewrite inject_Z_plus in H.
  apply Qlt_minus_iff in H. apply Qlt_minus_iff. eapply Qlt_le_trans; [exact H|]. apply Qle_lteq. right.
  change (Qred 1) with 1%Q. change (inject_Z (- (1))) with (- (1))%Q. ring.
Qed.

Lemma ceiling_nonneg q : (0 ≤ q)%Qc → 0 ≤ ceiling q.
Proof. intros H. apply (proj2 (of_Z_nonneg _)). etrans; [exact H|apply ceiling_ge]. Qed.

Lemma ceiling_of_Z n : ceiling (of_Z n) = n.
Proof. unfold ceiling. rewrite numerator_of_Z, denominator_of_Z, Z.div_1_r. lia. Qed.

Lemma truncate_of_Z n : truncate (of_Z n) = n.
Proof. unfold truncate. by rewrite numerator_of_Z, denominator_of_Z, Z.quot_1_r. Qed.

(** ** Powers of ten *)
Lemma pow10_pos n : 0 ≤ n → 0 < pow10 n.
Proof. intros. unfold pow10. lia. Qed.

Lemma of_pow10_pos n : 0 ≤ n → (0 < of_Z (pow10 n))%Qc.
Proof. intros. by apply (proj1 (of_Z_pos _)), pow10_pos. Qed.

Lemma of_pow10_nonzero n : 0 ≤ n → of_Z (pow10 n) ≠ 0%Qc.
Proof. intros. apply of_Z_nonzero. pose proof (pow10_pos n). lia. Qed.

Lemma pow10_add n m : 0 ≤ n → 0 ≤ m → pow10 (n + m) = pow10 n * pow10 m.
Proof. intros. unfold pow10. by rewrite Z.pow_add_r. Qed.

Lemma ratio_mul n d : d ≠ 0 → (ratio n d * of_Z d)%Qc = of_Z n.
Proof. intros Hd. unfold ratio. rewrite Qcmult_comm. apply Qcmult_div_r, of_Z_nonzero, Hd. Qed.

Lemma ratio_nonneg n d : 0 ≤ n → 0 < d → (0 ≤ ratio n d)%Qc.
Proof.
  intros Hn Hd. unfold ratio, Qcdiv. apply Qcmult_nonneg_nonneg; [by apply (proj1 (of_Z_nonneg _))|].
  apply Qclt_le_weak, Qcinv_pos. by apply (proj1 (of_Z_pos _)).
Qed.

(** A fraction of scale [a] has every larger scale. *)
Lemma integral_scale q a b : 0 ≤ a ≤ b → integral (q * of_Z (pow10 a))%Qc = true → integral (q * of_Z (pow10 b))%Qc = true.
Proof.
  intros Hab (n & Hn)%integral_exists. apply integral_exists. exists (n * pow10 (b - a)).
  replace b with (a + (b - a)) by lia. rewrite pow10_add, !Z2Qc_inj_mul, <- Hn by lia.
  replace (a + (b - a) - a) with (b - a) by lia. ring.
Qed.

Lemma integral_add p q : integral p = true → integral q = true → integral (p + q)%Qc = true.
Proof.
  rewrite !integral_exists. intros [n ->] [m ->]. exists (n + m). by rewrite Z2Qc_inj_add.
Qed.
Lemma integral_opp q : integral q = true → integral (- q)%Qc = true.
Proof. rewrite !integral_exists. intros [n ->]. exists (- n). by rewrite Z2Qc_inj_opp. Qed.
Lemma integral_mul p q : integral p = true → integral q = true → integral (p * q)%Qc = true.
Proof.
  rewrite !integral_exists. intros [n ->] [m ->]. exists (n * m). by rewrite Z2Qc_inj_mul.
Qed.

(** ** Grids: [q - q // g * g] is what [q] lies above the grid of [g] *)
Definition multiple (g q : Qc) : Prop := ∃ n, q = (g * of_Z n)%Qc.

Lemma floordiv_bounds p g : (0 < g)%Qc → (of_Z (floordiv p g) * g ≤ p < of_Z (floordiv p g) * g + g)%Qc.
Proof.
  intros Hg. unfold floordiv. assert (p = p / g * g)%Qc as Hp.
  { rewrite Qcmult_comm, Qcmult_div_r; [done|]. intros ->. by apply Qclt_not_eq in Hg. }
  split.
  - rewrite Hp at 2. apply Qcmult_le_compat_r; [apply floor_le|by apply Qclt_le_weak].
  - rewrite Hp at 1. replace (of_Z (floor (p / g)) * g + g)%Qc with ((of_Z (floor (p / g)) + 1) * g)%Qc by ring.
    apply Qcmult_lt_compat_r; [done|apply floor_lt].
Qed.

Lemma above_grid p g : (0 < g)%Qc → (0 ≤ p - of_Z (floordiv p g) * g < g)%Qc.
Proof.
  intros Hg. destruct (floordiv_bounds p g Hg) as [H1 H2]. set (x := (of_Z (floordiv p g) * g)%Qc) in *. split.
  - apply (Qcplus_le_mono_r _ _ x). replace (p - x + x)%Qc with p by ring. by replace (0 + x)%Qc with x by ring.
  - apply (Qcplus_lt_mono_r _ _ x). replace (p - x + x)%Qc with p by ring. by replace (g + x)%Qc with (x + g)%Qc by ring.
Qed.

Lemma floordiv_nonneg p g : (0 ≤ p)%Qc → (0 < g)%Qc → 0 ≤ floordiv p g.
Proof.
  intros Hp Hg. apply floor_nonneg. unfold Qcdiv. apply Qcmult_nonneg_nonneg; [done|].
  by apply Qclt_le_weak, Qcinv_pos.
Qed.

Lemma multiple_add g p q : multiple g p → multiple g q → multiple g (p + q)%Qc.
Proof. intros [n ->] [m ->]. exists (n + m). rewrite Z2Qc_inj_add. ring. Qed.
