(* ===== verification/FeeDomain.v ===== *)
(** * Fee inputs ([src/replay/fees/domain.py])

    Closed fixed-point values, assets, contexts, fills and charges, their checks, and the
    canonical form their identities hash.  A value that fails the checks of its class is
    never built: each [make_] function is the constructor of the class.  SHA-256 and
    [json.dumps] with ASCII output are parameters. *)
From stdpp Require Import list strings numbers.
From Stdlib Require Import Qcanon.
From S2P Require Import Prelude Wire Fraction.

(** ** [Closed]: the bounds of every string and integer field *)

(** [len(s)] of a string held as UTF-8: continuation bytes do not count. *)
Definition text_length (s : string) : Z :=
  Z.of_nat (length (filter (λ c, negb ((128 <=? code c) && (code c <? 192)) = true) (chars s))).

Definition closed_str (s : string) : result () :=
  guard_or (text_length s <=? 4096) (ValueError "string exceeds 4096 characters").
Definition closed_opt (s : option string) : result () :=
  match s with Some s => closed_str s | None => Ok () end.
Definition closed_int (n : Z) : result () :=
  guard_or (Z.abs n <=? 10 ^ 36) (ValueError "integer exceeds domain bound").

(** ** Canonical values *)

(** The values [tree] accepts: enumeration members, closed dataclasses with their
    persisted fields, tuples and scalars. *)
Inductive fval :=
| FEnum (cls value : string)
| FData (cls : string) (fields : list (string * fval))
| FTuple (l : list fval)
| FNone | FStr (s : string) | FInt (n : Z) | FBool (b : bool).

Fixpoint tree (v : fval) : json :=
  match v with
  | FEnum cls value => JObj [("enum", JStr cls); ("value", JStr value)]
  | FData cls fields => JObj (("type", JStr cls) :: map (λ kv, (kv.1, tree kv.2)) fields)
  | FTuple l => JArr (map tree l)
  | FNone => JNull | FStr s => JStr s | FInt n => JInt n | FBool b => JBool b
  end.

Section Identity.
Context (dumps : json → list Byte.byte) (sha256 : list Byte.byte → string).

Definition canonical (v : fval) : list Byte.byte := dumps (tree v) ++ [Byte.x0a].
Definition identity_of (v : fval) : string :=
  sha256 (String.list_byte_of_string "fee-sdk-v1" ++ [Byte.x00] ++ canonical v).
End Identity.

Class FeeValue (A : Type) := to_value : A → fval.
#[global] Instance value_str : FeeValue string := FStr.
#[global] Instance value_int : FeeValue Z := FInt.
#[global] Instance value_bool : FeeValue bool := FBool.
#[global] Instance value_option {A} `{FeeValue A} : FeeValue (option A) :=
  λ o, match o with Some a => to_value a | None => FNone end.
#[global] Instance value_tuple {A} `{FeeValue A} : FeeValue (list A) := λ l, FTuple (map to_value l).

(** ** Fixed point *)
Record Fixed := mkFixed { atoms : Z; scale : Z }.
#[global] Instance Fixed_eq_dec : EqDecision Fixed.
Proof. solve_decision. Defined.

Definition make_fixed (atoms scale : Z) : result Fixed :=
  _ ← closed_int atoms;
  _ ← closed_int scale;
  _ ← guard_or (negb (negb ((0 <=? scale) && (scale <=? 18)) || (atoms <? 0)))
        (ValueError "nonnegative fixed point with scale 0..18 required");
  Ok (mkFixed atoms scale).

(** The subclasses of [Fixed]; they differ in their class name only, and a
    probability is at most one. *)
Abbreviation Quantity := Fixed (only parsing).
Abbreviation QuotePrice := Fixed (only parsing).
Abbreviation Probability := Fixed (only parsing).
Abbreviation Rate := Fixed (only parsing).
Abbreviation Multiplier := Fixed (only parsing).

Definition fixed_as (cls : string) (f : Fixed) : fval :=
  FData cls [("atoms", FInt (atoms f)); ("scale", FInt (scale f))].

(** [Fixed.value]. *)
Definition value (f : Fixed) : Qc := ratio (atoms f) (pow10 (scale f)).

Definition make_probability (atoms scale : Z) : result Probability :=
  f ← make_fixed atoms scale;
  _ ← guard_or (qleb (value f) 1%Qc) (ValueError "probability exceeds one");
  Ok f.

(** [str.partition(".")]: the text before the first dot, and what follows it. *)
Fixpoint partition_dot (l : list Ascii.ascii) : list Ascii.ascii * option (list Ascii.ascii) :=
  match l with
  | [] => ([], None)
  | c :: l => if code c =? 46 then ([], Some l)
              else let '(whole, rest) := partition_dot l in (c :: whole, rest)
  end.

Definition digit_run (l : list Ascii.ascii) (most : nat) : bool :=
  (1 <=? length l)%nat && (length l <=? most)%nat && forallb is_digit l.

Definition parse (value : string) : result Fixed :=
  let '(whole, fraction) := partition_dot (chars value) in
  _ ← guard_or (digit_run whole 36 && match fraction with Some f => digit_run f 18 | None => true end)
        (ValueError "bounded unsigned decimal string required");
  let fraction := default [] fraction in
  make_fixed (digits_value (whole ++ fraction)) (Z.of_nat (length fraction)).

(** [fixed] and [ceil_grid]. *)
Definition scale_ok (scale : Z) : result () :=
  guard_or ((0 <=? scale) && (scale <=? 18)) (ValueError "exact rational and bounded integer scale required").

Definition fixed (v : Qc) (scale : Z) : result Fixed :=
  _ ← scale_ok scale;
  let scaled := (v * of_Z (pow10 scale))%Qc in
  _ ← guard_or (integral scaled) (ValueError "inexact fixed-point conversion");
  make_fixed (numerator scaled) scale.

Definition ceil_grid (v : Qc) (scale : Z) : result Fixed :=
  _ ← scale_ok scale;
  make_fixed (ceiling (v * of_Z (pow10 scale))%Qc) scale.

(** ** Assets *)
Inductive AssetKind := USD | USDC | PUSD | OUTCOME.
#[global] Instance AssetKind_eq_dec : EqDecision AssetKind.
Proof. solve_decision. Defined.
#[global] Instance value_AssetKind : FeeValue AssetKind := λ k,
  FEnum "AssetKind" match k with USD => "USD" | USDC => "USDC" | PUSD => "pUSD" | OUTCOME => "outcome" end.

Record Asset := mkAsset { asset_kind : AssetKind; chain : string; token : string }.
#[global] Instance Asset_eq_dec : EqDecision Asset.
Proof. solve_decision. Defined.
#[global] Instance value_Asset : FeeValue Asset := λ a,
  FData "Asset" [("kind", to_value (asset_kind a)); ("chain", FStr (chain a)); ("token", FStr (token a))].
Definition make_asset (k : AssetKind) (chain token : string) : result Asset :=
  _ ← closed_str chain;
  _ ← closed_str token;
  _ ← guard_or (negb (String.eqb chain "" || String.eqb token ""))
        (ValueError "asset requires chain/ledger and token identity");
  Ok (mkAsset k chain token).

Record AssetAmount := mkAmount { amount_asset : Asset; amount : Fixed }.
#[global] Instance AssetAmount_eq_dec : EqDecision AssetAmount.
Proof. solve_decision. Defined.
Definition amount_fields (a : AssetAmount) : list (string * fval) :=
  [("asset", to_value (amount_asset a)); ("amount", fixed_as "Fixed" (amount a))].
#[global] Instance value_AssetAmount : FeeValue AssetAmount := λ a, FData "AssetAmount" (amount_fields a).

(** [Notional] has the fields of [AssetAmount]. *)
Abbreviation Notional := AssetAmount (only parsing).

Record AssetDelta := mkDelta { delta_asset : Asset; delta_atoms : Z; delta_scale : Z }.
#[global] Instance AssetDelta_eq_dec : EqDecision AssetDelta.
Proof. solve_decision. Defined.
Definition make_delta (a : Asset) (atoms scale : Z) : result AssetDelta :=
  _ ← closed_int atoms;
  _ ← closed_int scale;
  _ ← guard_or ((0 <=? scale) && (scale <=? 18)) (ValueError "delta scale outside 0..18");
  Ok (mkDelta a atoms scale).
Definition delta_value (d : AssetDelta) : Qc := ratio (delta_atoms d) (pow10 (delta_scale d)).

(** ** Contexts *)
Inductive Venue := POLYMARKET | KALSHI | LIMITLESS.
#[global] Instance Venue_eq_dec : EqDecision Venue.
Proof. solve_decision. Defined.
#[global] Instance value_Venue : FeeValue Venue := λ v,
  FEnum "Venue" match v with POLYMARKET => "polymarket" | KALSHI => "kalshi" | LIMITLESS => "limitless" end.

Inductive Product := CLOB | AMM.
#[global] Instance Product_eq_dec : EqDecision Product.
Proof. solve_decision. Defined.
#[global] Instance value_Product : FeeValue Product := λ p,
  FEnum "Product" match p with CLOB => "prediction_clob" | AMM => "prediction_amm" end.

Inductive Side := BUY | SELL.
#[global] Instance Side_eq_dec : EqDecision Side.
Proof. solve_decision. Defined.
#[global] Instance value_Side : FeeValue Side := λ s,
  FEnum "Side" match s with BUY => "buy" | SELL => "sell" end.

Inductive Role := MAKER | TAKER | UNKNOWN_ROLE.
#[global] Instance Role_eq_dec : EqDecision Role.
Proof. solve_decision. Defined.
#[global] Instance value_Role : FeeValue Role := λ r,
  FEnum "Role" match r with MAKER => "maker" | TAKER => "taker" | UNKNOWN_ROLE => "unknown" end.

Inductive AccountClass := DIRECT | NON_DIRECT | UNKNOWN_CLASS.
#[global] Instance AccountClass_eq_dec : EqDecision AccountClass.
Proof. solve_decision. Defined.
#[global] Instance value_AccountClass : FeeValue AccountClass := λ c,
  FEnum "AccountClass" match c with DIRECT => "direct" | NON_DIRECT => "non_direct" | UNKNOWN_CLASS => "unknown" end.

Inductive BuilderStatus := ABSENT | KNOWN | UNKNOWN_BUILDER.
#[global] Instance BuilderStatus_eq_dec : EqDecision BuilderStatus.
Proof. solve_decision. Defined.
#[global] Instance value_BuilderStatus : FeeValue BuilderStatus := λ s,
  FEnum "BuilderStatus" match s with ABSENT => "known_absent" | KNOWN => "known" | UNKNOWN_BUILDER => "unknown" end.

Record Builder := mkBuilder { builder_status : BuilderStatus; builder_id : option string }.
#[global] Instance Builder_eq_dec : EqDecision Builder.
Proof. solve_decision. Defined.
#[global] Instance value_Builder : FeeValue Builder := λ b,
  FData "Builder" [("status", to_value (builder_status b)); ("builder_id", to_value (builder_id b))].

(** [bool] of an optional string. *)
Definition truthy (s : option string) : bool :=
  match s with Some s => negb (String.eqb s "") | None => false end.

Definition make_builder (status : BuilderStatus) (id : option string) : result Builder :=
  _ ← closed_opt id;
  _ ← guard_or (Bool.eqb (bool_decide (status = KNOWN)) (truthy id)) (ValueError "only a known builder has an ID");
  Ok (mkBuilder status id).

Record FeeContext := mkContext {
  venue : Venue; product : Product; market : string; event : option string;
  series : option string; category : option string; instrument : string;
  orientation : string; account : string; subaccount : string;
  account_class : AccountClass; builder : Builder;
}.
#[global] Instance FeeContext_eq_dec : EqDecision FeeContext.
Proof. solve_decision. Defined.
#[global] Instance value_Context : FeeValue FeeContext := λ c,
  FData "Context" [("venue", to_value (venue c)); ("product", to_value (product c)); ("market", FStr (market c));
    ("event", to_value (event c)); ("series", to_value (series c)); ("category", to_value (category c));
    ("instrument", FStr (instrument c)); ("orientation", FStr (orientation c)); ("account", FStr (account c));
    ("subaccount", FStr (subaccount c)); ("account_class", to_value (account_class c)); ("builder", to_value (builder c))].

(** All of the checks pass, in order. *)
Definition all_ok (checks : list (result ())) : result () := foldr (λ m rest, _ ← m; rest) (Ok ()) checks.

Definition make_context (c : FeeContext) : result FeeContext :=
  _ ← all_ok [closed_str (market c); closed_opt (event c); closed_opt (series c); closed_opt (category c);
              closed_str (instrument c); closed_str (orientation c); closed_str (account c); closed_str (subaccount c)];
  _ ← guard_or (forallb (λ s, negb (String.eqb s "")) [market c; instrument c; orientation c; account c; subaccount c])
        (ValueError "explicit instrument, orientation and account context required");
  Ok c.

Record InstrumentEconomics := mkEconomics {
  quote : Asset; outcome : Asset; payout : AssetAmount;
  quote_scale : Z; quantity_scale : Z; price_scale : Z;
}.
#[global] Instance InstrumentEconomics_eq_dec : EqDecision InstrumentEconomics.
Proof. solve_decision. Defined.
#[global] Instance value_Economics : FeeValue InstrumentEconomics := λ e,
  FData "InstrumentEconomics" [("quote", to_value (quote e)); ("outcome", to_value (outcome e)); ("payout", to_value (payout e));
    ("quote_scale", FInt (quote_scale e)); ("quantity_scale", FInt (quantity_scale e)); ("price_scale", FInt (price_scale e))].

Definition make_economics (e : InstrumentEconomics) : result InstrumentEconomics :=
  _ ← all_ok [closed_int (quote_scale e); closed_int (quantity_scale e); closed_int (price_scale e)];
  _ ← guard_or (bool_decide (asset_kind (outcome e) = OUTCOME) && negb (bool_decide (asset_kind (quote e) = OUTCOME)))
        (ValueError "quote/outcome asset mismatch");
  _ ← guard_or (qltb 0%Qc (value (amount (payout e))) &&
                forallb (λ s, (0 <=? s) && (s <=? 18)) [quote_scale e; quantity_scale e; price_scale e])
        (ValueError "invalid economics dimensions");
  Ok e.

(** ** Fills *)
Record HypotheticalFill := mkFill {
  fill_id : string; context : FeeContext; economics : InstrumentEconomics; side : Side;
  price : QuotePrice; probability : Probability; quantity : Quantity; gross_notional : Notional;
  event_time : Z; role : Role; order_key : string; fill_index : Z; new_order : bool;
  decision_reference : option string; counterfactual_revision : option string;
}.
#[global] Instance value_Fill : FeeValue HypotheticalFill := λ f,
  FData "HypotheticalFill" [("fill_id", FStr (fill_id f)); ("context", to_value (context f)); ("economics", to_value (economics f));
    ("side", to_value (side f)); ("price", fixed_as "QuotePrice" (price f)); ("probability", fixed_as "Probability" (probability f));
    ("quantity", fixed_as "Quantity" (quantity f)); ("gross_notional", FData "Notional" (amount_fields (gross_notional f)));
    ("event_time", FInt (event_time f)); ("role", to_value (role f)); ("order_key", FStr (order_key f));
    ("fill_index", FInt (fill_index f)); ("new_order", FBool (new_order f));
    ("decision_reference", to_value (decision_reference f)); ("counterfactual_revision", to_value (counterfactual_revision f))].

Definition make_fill (f : HypotheticalFill) : result HypotheticalFill :=
  let e := economics f in
  _ ← all_ok [closed_str (fill_id f); closed_int (event_time f); closed_str (order_key f); closed_int (fill_index f);
              closed_opt (decision_reference f); closed_opt (counterfactual_revision f)];
  _ ← guard_or (negb (String.eqb (fill_id f) "") && negb (String.eqb (order_key f) "") &&
                qltb 0%Qc (value (quantity f)) && (0 <=? event_time f) && (0 <=? fill_index f))
        (ValueError "invalid fill identity, time, index or quantity");
  _ ← guard_or (negb (bool_decide (counterfactual_revision f = Some ""%string)))
        (ValueError "counterfactual revision must be nonempty when supplied");
  _ ← guard_or (negb (new_order f) || (fill_index f =? 0)) (ValueError "new order must start at fill index zero");
  _ ← guard_or (bool_decide (amount_asset (gross_notional f) = quote e) &&
                qeqb (value (amount (gross_notional f))) (value (price f) * value (quantity f))%Qc)
        (ValueError "gross notional mismatch");
  _ ← guard_or (forallb (λ vs : Qc * Z, integral (vs.1 * of_Z (pow10 vs.2))%Qc)
                  [(value (price f), price_scale e); (value (quantity f), quantity_scale e);
                   (value (amount (gross_notional f)), quote_scale e)])
        (ValueError "input not representable at instrument scale");
  Ok f.

(** ** Charges *)
Inductive Component := PLATFORM | BUILDER | ROUNDING | ACCOUNT.
#[global] Instance Component_eq_dec : EqDecision Component.
Proof. solve_decision. Defined.
#[global] Instance value_Component : FeeValue Component := λ c,
  FEnum "Component" match c with PLATFORM => "platform" | BUILDER => "builder" | ROUNDING => "rounding" | ACCOUNT => "account" end.

Inductive Basis := GROSS | BASE_TAKER | MAKER_BASIS | ACCOUNT_ADJUSTED.
#[global] Instance Basis_eq_dec : EqDecision Basis.
Proof. solve_decision. Defined.

Inductive Evidence := ACTUAL_OBSERVED | EXACT_MODEL | ESTIMATE | CONDITIONAL_BOUND | UNKNOWN_EVIDENCE.
#[global] Instance Evidence_eq_dec : EqDecision Evidence.
Proof. solve_decision. Defined.

(** [FeeCharge] and [Rebate] have the same fields. *)
Record FeeCharge := mkCharge { component : Component; charged : AssetAmount; charge_evidence : Evidence }.
Abbreviation Rebate := FeeCharge (only parsing).
