(* ===== verification/FeeSchedules.v ===== *)
(** * Fee schedules ([src/replay/fees/schedules.py])

    Pinned schedules with their checks, catalogs, and the resolver that picks, for a
    context at an instant, the schedule of each fee component, with its memo.  The lock
    and the lazily built index of the resolver do not show in its results. *)
From stdpp Require Import list strings numbers.
From Stdlib Require Import Qcanon.
From S2P Require Import Prelude Wire JobContracts Order Fraction FeeDomain.

(** ** Fee models *)
Inductive Rounding := ROUND_UNKNOWN | CEIL | EXACT | PM_CEIL5_SCENARIO.
#[global] Instance Rounding_eq_dec : EqDecision Rounding.
Proof. solve_decision. Defined.
#[global] Instance value_Rounding : FeeValue Rounding := λ r,
  FEnum "Rounding" match r with ROUND_UNKNOWN => "unknown" | CEIL => "ceil" | EXACT => "exact"
                              | PM_CEIL5_SCENARIO => "pm_declared_fill_ceil5_scenario" end.

Inductive KalshiKind := QUADRATIC | MAKER_FEES | FLAT | COMBO.
#[global] Instance KalshiKind_eq_dec : EqDecision KalshiKind.
Proof. solve_decision. Defined.
#[global] Instance value_KalshiKind : FeeValue KalshiKind := λ k,
  FEnum "KalshiKind" match k with QUADRATIC => "quadratic" | MAKER_FEES => "quadratic_with_maker_fees"
                                | FLAT => "flat" | COMBO => "quadratic_with_combo_maker_fees" end.

Inductive TradeBasis := NOTIONAL | QUANTITY.
#[global] Instance TradeBasis_eq_dec : EqDecision TradeBasis.
Proof. solve_decision. Defined.
#[global] Instance value_TradeBasis : FeeValue TradeBasis := λ b,
  FEnum "TradeBasis" match b with NOTIONAL => "gross_quote_notional" | QUANTITY => "gross_contract_quantity" end.

Inductive Model :=
| Polymarket (rate : Rate) (exponent : Z) (taker_only : bool) (rounding : Rounding)
| Kalshi (kind : option KalshiKind) (multiplier : option Multiplier)
| LimitlessClob (maker_free : bool)
| LimitlessAmm (rate : Rate) (basis : TradeBasis) (rounding : Rounding)
| BuilderFee (taker_bps maker_bps : Z) (rounding : Rounding)
| AccountRebate (rate : Rate) (rounding : Rounding)
| ZeroFee (reason : string)
| Unsupported (reason : string).
#[global] Instance Model_eq_dec : EqDecision Model.
Proof. solve_decision. Defined.
#[global] Instance value_Model : FeeValue Model := λ m,
  match m with
  | Polymarket rate exponent taker_only rounding =>
      FData "Polymarket" [("rate", fixed_as "Rate" rate); ("exponent", FInt exponent); ("taker_only", FBool taker_only);
                          ("rounding", to_value rounding)]
  | Kalshi kind multiplier =>
      FData "Kalshi" [("kind", to_value kind);
        ("multiplier", match multiplier with Some f => fixed_as "Multiplier" f | None => FNone end)]
  | LimitlessClob maker_free => FData "LimitlessClob" [("maker_free", FBool maker_free)]
  | LimitlessAmm rate basis rounding =>
      FData "LimitlessAmm" [("rate", fixed_as "Rate" rate); ("basis", to_value basis); ("rounding", to_value rounding)]
  | BuilderFee taker maker rounding =>
      FData "BuilderFee" [("taker_bps", FInt taker); ("maker_bps", FInt maker); ("rounding", to_value rounding)]
  | AccountRebate rate rounding => FData "AccountRebate" [("rate", fixed_as "Rate" rate); ("rounding", to_value rounding)]
  | ZeroFee reason => FData "ZeroFee" [("reason", FStr reason)]
  | Unsupported reason => FData "Unsupported" [("reason", FStr reason)]
  end.

(** The constructors' checks. *)
Definition make_model (m : Model) : result Model :=
  _ ← match m with
      | Polymarket _ exponent _ _ =>
          _ ← closed_int exponent;
          guard_or ((0 <=? exponent) && (exponent <=? 16)) (ValueError "supported integer exponent range is 0..16")
      | BuilderFee taker maker _ =>
          _ ← closed_int taker;
          _ ← closed_int maker;
          guard_or ((0 <=? taker) && (taker <=? 100) && ((0 <=? maker) && (maker <=? 50)))
            (ValueError "builder rate exceeds documented caps")
      | AccountRebate rate _ => guard_or (qleb (value rate) 1%Qc) (ValueError "rebate fraction exceeds one")
      | ZeroFee reason | Unsupported reason => closed_str reason
      | Kalshi _ _ | LimitlessClob _ | LimitlessAmm _ _ _ => Ok ()
      end;
  Ok m.

(** ** Sources and scopes *)
Record Source := mkSource { url : string; source_sha256 : string; byte_length : Z; retrieved_at : Z }.
#[global] Instance Source_eq_dec : EqDecision Source.
Proof. solve_decision. Defined.
#[global] Instance value_Source : FeeValue Source := λ s,
  FData "Source" [("url", FStr (url s)); ("sha256", FStr (source_sha256 s)); ("byte_length", FInt (byte_length s));
                  ("retrieved_at", FInt (retrieved_at s))].
Definition make_source (s : Source) : result Source :=
  _ ← all_ok [closed_str (url s); closed_str (source_sha256 s); closed_int (byte_length s); closed_int (retrieved_at s)];
  _ ← guard_or (String.prefix "https://" (url s) && is_hex64 (source_sha256 s))
        (ValueError "HTTPS source URL and lowercase SHA256 required");
  _ ← guard_or ((0 <=? byte_length s) && (byte_length s <=? 16 * 1024 * 1024) && (0 <=? retrieved_at s))
        (ValueError "source size/time outside bounds");
  Ok s.

Record Scope := mkScope {
  sc_venue : Venue; sc_product : Product; sc_market : option string; sc_event : option string;
  sc_series : option string; sc_category : option string; sc_account : option string;
  sc_subaccount : option string; sc_builder : option string; sc_instrument : option string;
  sc_orientation : option string;
}.
#[global] Instance Scope_eq_dec : EqDecision Scope.
Proof. solve_decision. Defined.
#[global] Instance value_Scope : FeeValue Scope := λ s,
  FData "Scope" [("venue", to_value (sc_venue s)); ("product", to_value (sc_product s)); ("market", to_value (sc_market s));
    ("event", to_value (sc_event s)); ("series", to_value (sc_series s)); ("category", to_value (sc_category s));
    ("account", to_value (sc_account s)); ("subaccount", to_value (sc_subaccount s)); ("builder", to_value (sc_builder s));
    ("instrument", to_value (sc_instrument s)); ("orientation", to_value (sc_orientation s))].

Definition rank (s : Scope) : Z :=
  if is_some (sc_market s) then 4 else if is_some (sc_event s) then 3
  else if is_some (sc_series s) then 2 else if is_some (sc_category s) then 1 else 0.

(** A scope field that is set must be the context's. *)
Definition covers (scoped actual : option string) : bool :=
  match scoped with None => true | Some _ => bool_decide (scoped = actual) end.

Definition matches (s : Scope) (c : FeeContext) : bool :=
  bool_decide (sc_venue s = venue c) && bool_decide (sc_product s = product c) &&
  covers (sc_market s) (Some (market c)) && covers (sc_event s) (event c) && covers (sc_series s) (series c) &&
  covers (sc_category s) (category c) && covers (sc_account s) (Some (account c)) &&
  covers (sc_subaccount s) (Some (subaccount c)) && covers (sc_instrument s) (Some (instrument c)) &&
  covers (sc_orientation s) (Some (orientation c)) && covers (sc_builder s) (builder_id (builder c)).

(** ** Schedules *)
Record Schedule := mkSchedule {
  sch_component : Component; scope : Scope; sch_economics : InstrumentEconomics; fee_asset : Asset;
  fee_scale : Z; model : Model; sources : list Source; effective_from : option Z; effective_to : option Z;
  effective_evidence : option string; extractor_version : string; model_version : string;
  supersedes : list string;
}.
#[global] Instance Schedule_eq_dec : EqDecision Schedule.
Proof. solve_decision. Defined.
#[global] Instance value_Schedule : FeeValue Schedule := λ s,
  FData "Schedule" [("component", to_value (sch_component s)); ("scope", to_value (scope s)); ("economics", to_value (sch_economics s));
    ("fee_asset", to_value (fee_asset s)); ("fee_scale", FInt (fee_scale s)); ("model", to_value (model s));
    ("sources", to_value (sources s)); ("effective_from", to_value (effective_from s)); ("effective_to", to_value (effective_to s));
    ("effective_evidence", to_value (effective_evidence s)); ("extractor_version", FStr (extractor_version s));
    ("model_version", FStr (model_version s)); ("supersedes", to_value (supersedes s))].

Definition closed_opt_int (n : option Z) : result () := match n with Some n => closed_int n | None => Ok () end.

(** The half-open interval. *)
Definition check_interval (s : Schedule) : result () :=
  match effective_from s with
  | None => guard_or (negb (is_some (effective_to s) || is_some (effective_evidence s)))
              (ValueError "unknown effective interval must be explicit")
  | Some from =>
      guard_or (negb ((from <? 0) || negb (truthy (effective_evidence s)) ||
                      match effective_to s with Some to => to <=? from | None => false end))
        (ValueError "invalid half-open effective interval")
  end.

(** The venue and product of a model bound to one. *)
Definition venue_model (m : Model) : option (Venue * Product) :=
  match m with
  | Polymarket _ _ _ _ => Some (POLYMARKET, CLOB)
  | Kalshi _ _ => Some (KALSHI, CLOB)
  | LimitlessClob _ => Some (LIMITLESS, CLOB)
  | LimitlessAmm _ _ _ => Some (LIMITLESS, AMM)
  | _ => None
  end.

Definition check_binding (s : Schedule) : result () :=
  let c := sch_component s in
  _ ← guard_or (negb (bool_decide (c = ROUNDING))) (ValueError "rounding belongs to the platform model");
  _ ← guard_or match model s with
               | BuilderFee _ _ _ => bool_decide (c = BUILDER) && is_some (sc_builder (scope s)) && bool_decide (sc_venue (scope s) = POLYMARKET)
               | _ => true end (ValueError "builder model requires scoped Polymarket builder component");
  _ ← guard_or match model s with
               | AccountRebate _ _ => bool_decide (c = ACCOUNT) && is_some (sc_account (scope s)) && is_some (sc_subaccount (scope s)) &&
                                      bool_decide (sc_venue (scope s) = POLYMARKET)
               | _ => true end (ValueError "account rebate requires scoped Polymarket account");
  _ ← guard_or match venue_model (model s) with
               | Some (v, p) => bool_decide (c = PLATFORM) && bool_decide (sc_venue (scope s) = v) && bool_decide (sc_product (scope s) = p)
               | None => true end (ValueError "venue/product/component model mismatch");
  guard_or match model s with
           | Kalshi kind multiplier => (is_some kind && is_some multiplier) || (rank (scope s) =? 3)
           | _ => true end (ValueError "only event overrides may clear Kalshi fields").

Definition make_schedule (s : Schedule) : result Schedule :=
  _ ← all_ok [closed_int (fee_scale s); closed_opt_int (effective_from s); closed_opt_int (effective_to s);
              closed_opt (effective_evidence s); closed_str (extractor_version s); closed_str (model_version s)];
  _ ← guard_or (negb (bool_decide (sources s = []) || (32 <? length (sources s))%nat ||
                      String.eqb (extractor_version s) "" || String.eqb (model_version s) ""))
        (ValueError "source and version identities required");
  _ ← guard_or ((0 <=? fee_scale s) && (fee_scale s <=? 18)) (ValueError "fee scale outside range");
  _ ← check_interval s;
  _ ← check_binding s;
  _ ← guard_or (bool_decide (NoDup (supersedes s)) && forallb is_hex64 (supersedes s))
        (ValueError "invalid supersedes identities");
  Ok s.

(** [known_at]; a schedule has a source. *)
Definition known_at (s : Schedule) : Z :=
  match map retrieved_at (sources s) with t :: ts => foldl Z.max t ts | [] => 0 end.

(** ** Unknown and selected schedules *)
Inductive UnknownReason :=
| MISSING | HISTORY | CONFLICT | UNSUPPORTED | BUILDER_REASON | ACCOUNT_REASON | STATE | ROUNDING_REASON | DIMENSIONS.
#[global] Instance UnknownReason_eq_dec : EqDecision UnknownReason.
Proof. solve_decision. Defined.

Record UnknownSchedule := mkUnknown { unknown_component : Component; reason : UnknownReason; candidates : list string }.
#[global] Instance UnknownSchedule_eq_dec : EqDecision UnknownSchedule.
Proof. solve_decision. Defined.

Record Selection := mkSelection { schedule : Schedule; selected_model : Model; dependencies : list Schedule }.
#[global] Instance Selection_eq_dec : EqDecision Selection.
Proof. solve_decision. Defined.

Inductive Choice := Selected (s : Selection) | Unknown (u : UnknownSchedule).
#[global] Instance Choice_eq_dec : EqDecision Choice.
Proof. solve_decision. Defined.

Record ResolvedScheduleSet := mkResolved {
  res_context : FeeContext; res_event_time : Z; knowledge_cutoff : option Z; catalog_identity : string;
  platform : Choice; res_builder : Choice; res_account : Choice; next_boundary : option Z;
  res_reference_time : option Z; snapshot_identity : option string;
}.
(** [Closed.__post_init__], field by field; it runs again when [replace] rebuilds the set. *)
Definition make_resolved (s : ResolvedScheduleSet) : result ResolvedScheduleSet :=
  _ ← all_ok [closed_int (res_event_time s); closed_opt_int (knowledge_cutoff s); closed_str (catalog_identity s);
              closed_opt_int (next_boundary s); closed_opt_int (res_reference_time s); closed_opt (snapshot_identity s)];
  Ok s.

(** ** Catalogs and the resolver *)
Section Resolution.
Context (dumps : json → list Byte.byte) (sha256 : list Byte.byte → string).
Definition identity {A} `{FeeValue A} (a : A) : string := identity_of dumps sha256 (to_value a).

Record Catalog := mkCatalog { schedules : list Schedule; precedence_version : string }.
#[global] Instance value_Catalog : FeeValue Catalog := λ c,
  FData "Catalog" [("schedules", to_value (schedules c)); ("precedence_version", FStr (precedence_version c))].

Definition make_catalog (c : Catalog) : result Catalog :=
  _ ← closed_str (precedence_version c);
  _ ← guard_or (String.eqb (precedence_version c) "component-scope-v1" && (length (schedules c) <=? 10000)%nat)
        (ValueError "unsupported precedence or oversized catalog");
  let ids := map identity (schedules c) in
  _ ← guard_or (bool_decide (ids = sorted (remove_dups ids)))
        (ValueError "catalog schedules must be unique and identity-sorted");
  Ok c.

(** [Catalog.build]. *)
Definition build_catalog (l : list Schedule) : result Catalog :=
  make_catalog (mkCatalog (sort_by (λ a b, leb (identity a) (identity b)) l) "component-scope-v1").

Record Resolver := mkResolver { catalog : Catalog; reference_time : option Z }.
#[global] Instance value_Resolver : FeeValue Resolver := λ r,
  FData "Resolver" [("catalog", to_value (catalog r)); ("reference_time", to_value (reference_time r))].

Definition make_resolver (c : Catalog) (reference_time : option Z) : result Resolver :=
  _ ← closed_opt_int reference_time;
  _ ← guard_or (match reference_time with Some t => 0 <=? t | None => true end)
        (ValueError "nonnegative reference time required");
  Ok (mkResolver c reference_time).

(** The schedules of the context's venue and product that apply to it and were known. *)
Definition candidate (c : FeeContext) (cutoff : option Z) (s : Schedule) : bool :=
  matches (scope s) c && match cutoff with Some k => known_at s <=? k | None => true end.

Definition candidates_of (r : Resolver) (c : FeeContext) (cutoff : option Z) : list Schedule :=
  filter (λ s, candidate c cutoff s = true)
    (filter (λ s, sc_venue (scope s) = venue c ∧ sc_product (scope s) = product c) (schedules (catalog r))).

Definition option_list {A} (o : option A) : list A := match o with Some a => [a] | None => [] end.

(** The ends of the candidates' intervals after the instant. *)
Definition boundaries (l : list Schedule) (event_time : Z) : list Z :=
  filter (λ t, event_time < t) (s ← l; option_list (effective_from s) ++ option_list (effective_to s)).

(** [min(l, default=None)] and [max(l, default=d)]. *)
Definition min_default (l : list Z) : option Z := match l with [] => None | x :: l => Some (foldl Z.min x l) end.
Definition max_default (l : list Z) (d : Z) : Z := match l with [] => d | x :: l => foldl Z.max x l end.

Definition active_at (snapshot : bool) (event_time : Z) (s : Schedule) : bool :=
  match effective_from s with
  | None => snapshot
  | Some from => (from <=? event_time) && match effective_to s with Some to => event_time <? to | None => true end
  end.

(** The nested [choose]. *)
Definition choose (snapshot : bool) (event_time : Z) (c : Component) (pool : list Schedule) : Choice :=
  let pool := filter (λ s, sch_component s = c) pool in
  let active := filter (λ s, active_at snapshot event_time s = true) pool in
  let uncertain := filter (λ s, effective_from s = None ∧ snapshot = false) pool in
  let top := max_default (map (λ s, rank (scope s)) active) (-1) in
  if existsb (λ s, top <=? rank (scope s)) uncertain
  then Unknown (mkUnknown c HISTORY (sorted (map identity uncertain)))
  else
    let active := filter (λ s, rank (scope s) = top) active in
    let superseded : list string := s ← active; supersedes s in
    let active := filter (λ s, identity s ∉ superseded) active in
    match active with
    | [s] => Selected (mkSelection s (model s) [s])
    | [] => Unknown (mkUnknown c MISSING (sorted (map identity pool)))
    | _ => Unknown (mkUnknown c CONFLICT (sorted (map identity active)))
    end.

(** An event override of Kalshi inherits the fields it clears from its series. *)
Definition inherit (snapshot : bool) (event_time : Z) (pool : list Schedule) (choice : Choice) : Choice :=
  match choice with
  | Selected p =>
      match selected_model p with
      | Kalshi kind multiplier =>
          if is_some kind && is_some multiplier then choice
          else
            match choose snapshot event_time PLATFORM (filter (λ s, rank (scope s) = 2) pool) with
            | Selected series =>
                match selected_model series with
                | Kalshi kind' multiplier' =>
                    if negb (bool_decide (sch_economics (schedule series) = sch_economics (schedule p))) ||
                       negb (bool_decide (fee_asset (schedule series) = fee_asset (schedule p))) ||
                       negb (fee_scale (schedule series) =? fee_scale (schedule p))
                    then Unknown (mkUnknown PLATFORM DIMENSIONS [])
                    else Selected (mkSelection (schedule p)
                           (Kalshi (match kind with Some _ => kind | None => kind' end)
                                   (match multiplier with Some _ => multiplier | None => multiplier' end))
                           [schedule p; schedule series])
                | _ => Unknown (mkUnknown PLATFORM MISSING [])
                end
            | Unknown _ => Unknown (mkUnknown PLATFORM MISSING [])
            end
      | _ => choice
      end
  | Unknown _ => choice
  end.

Definition _compute (r : Resolver) (c : FeeContext) (event_time : Z) (cutoff : option Z) : result ResolvedScheduleSet :=
  let pool := candidates_of r c cutoff in
  let snapshot := is_some (reference_time r) in
  make_resolved (mkResolved c event_time cutoff (identity (catalog r))
    (inherit snapshot event_time pool (choose snapshot event_time PLATFORM pool))
    (choose snapshot event_time BUILDER pool) (choose snapshot event_time ACCOUNT pool)
    (min_default (boundaries pool event_time)) (reference_time r)
    (if snapshot then Some (identity r) else None)).

(** [_ResolverMemo.selections], least recently used first. *)
Definition Memo : Type := list ((FeeContext * Z * option Z) * ResolvedScheduleSet).
Definition MEMO_SIZE : nat := 1024.

Definition _select (r : Resolver) (c : FeeContext) (event_time : Z) (cutoff : option Z) (memo : Memo)
    : result (Memo * ResolvedScheduleSet) :=
  let key := (c, event_time, cutoff) in
  match find (λ e, bool_decide (e.1 = key)) memo with
  | Some e => Ok (filter (λ e, e.1 ≠ key) memo ++ [e], e.2)
  | None =>
      selected ← _compute r c event_time cutoff;
      let memo := memo ++ [(key, selected)] in
      Ok (if (MEMO_SIZE <? length memo)%nat then drop 1 memo else memo, selected)
  end.

(** [replace(selected, event_time=t)]. *)
Definition at_event_time (t : Z) (r : ResolvedScheduleSet) : result ResolvedScheduleSet :=
  make_resolved (mkResolved (res_context r) t (knowledge_cutoff r) (catalog_identity r) (platform r) (res_builder r)
    (res_account r) (next_boundary r) (res_reference_time r) (snapshot_identity r)).

(** A call that raises may still have stored a selection; no later result depends on it. *)
Definition resolve (r : Resolver) (c : FeeContext) (event_time : Z) (cutoff : option Z) (memo : Memo)
    : result (Memo * ResolvedScheduleSet) :=
  _ ← guard_or (0 <=? event_time) (ValueError "invalid resolution context/time");
  _ ← guard_or (match cutoff with Some k => (0 <=? k) && (k <=? event_time) | None => true end)
        (ValueError "as-known cutoff must not exceed event time; None means retrospective");
  match reference_time r with
  | Some t =>
      _ ← guard_or (negb (is_some cutoff)) (ValueError "current snapshot does not accept a knowledge cutoff");
      '(memo, selected) ← _select r c t None memo;
      selected ← at_event_time event_time selected;
      Ok (memo, selected)
  | None => _select r c event_time cutoff memo
  end.
End Resolution.
