(* ===== verification/FeeSchedulesProps.v ===== *)
(** * Properties of fee schedules ([src/replay/fees/schedules.py])

    What the resolver returns does not depend on its memo, is the schedule in force, and
    stays the same until the boundary it reports. *)
From stdpp Require Import list strings numbers.
From Stdlib Require Import Qcanon.
From S2P Require Import Prelude Wire Json JobContracts Order Fraction FeeDomain FeeSchedules.

(** ** Minima and maxima *)
Lemma foldl_min_le l x y : x ∈ y :: l → foldl Z.min y l ≤ x.
Proof.
  revert x y. induction l as [|z l IH]; intros x y; simpl.
  - intros ->%list_elem_of_singleton. lia.
  - intros [->|[->|Hx]%elem_of_cons]%elem_of_cons.
    + etrans; [apply IH; by left|lia].
    + etrans; [apply IH; by left|lia].
    + apply IH. by right.
Qed.

Lemma foldl_max_ge l x y : x ∈ y :: l → x ≤ foldl Z.max y l.
Proof.
  revert x y. induction l as [|z l IH]; intros x y; simpl.
  - intros ->%list_elem_of_singleton. lia.
  - intros [->|[->|Hx]%elem_of_cons]%elem_of_cons.
    + etrans; [|apply IH; by left]. lia.
    + etrans; [|apply IH; by left]. lia.
    + apply IH. by right.
Qed.

Lemma max_default_ge l d x : x ∈ l → x ≤ max_default l d.
Proof. destruct l as [|y l]; [by intros ?%not_elem_of_nil|]. apply foldl_max_ge. Qed.

Lemma min_default_spec l t : (match min_default l with Some b => t < b | None => True end) → ∀ x, x ∈ l → t < x.
Proof.
  destruct l as [|y l]; simpl; [by intros _ x ?%not_elem_of_nil|].
  intros Ht x Hx. pose proof (foldl_min_le l x y Hx). lia.
Qed.

Section Resolution.
Context (dumps : json → list Byte.byte) (sha256 : list Byte.byte → string).
Local Abbreviation identity := (identity dumps sha256).
Local Abbreviation choose := (choose dumps sha256).
Local Abbreviation inherit := (inherit dumps sha256).
Local Abbreviation _compute := (_compute dumps sha256).

(** ** What [choose] depends on *)
Lemma choose_ext snapshot t t' c pool :
  (∀ s, s ∈ pool → active_at snapshot t' s = active_at snapshot t s) →
  choose snapshot t' c pool = choose snapshot t c pool.
Proof.
  intros Ha. unfold FeeSchedules.choose.
  assert (filter (λ s, active_at snapshot t' s = true) (filter (λ s, sch_component s = c) pool)
    = filter (λ s, active_at snapshot t s = true) (filter (λ s, sch_component s = c) pool)) as ->; [|done].
  induction pool as [|s pool IH]; [done|].
  assert (∀ s, s ∈ pool → active_at snapshot t' s = active_at snapshot t s) as Hp by (intros; apply Ha; by right).
  specialize (IH Hp). pose proof (Ha s (list_elem_of_here _ _)) as Hs.
  destruct (decide (sch_component s = c)).
  - rewrite !(filter_cons_True (λ s, sch_component s = c)) by done. rewrite !filter_cons, IH, Hs. done.
  - by rewrite !(filter_cons_False (λ s, sch_component s = c)) by done.
Qed.

Lemma inherit_ext snapshot t t' pool choice :
  (∀ s, s ∈ pool → active_at snapshot t' s = active_at snapshot t s) →
  inherit snapshot t' pool choice = inherit snapshot t pool choice.
Proof.
  intros Ha. unfold FeeSchedules.inherit. destruct choice as [p|]; [|done].
  destruct (selected_model p); try done. destruct (is_some kind && is_some multiplier); [done|].
  rewrite (choose_ext snapshot t t'); [done|]. intros s [_ Hs]%list_elem_of_filter. auto.
Qed.

(** Between an instant and the boundary after it no candidate starts or ends. *)
Lemma active_until_boundary snapshot pool t t' :
  t ≤ t' → (match min_default (boundaries pool t) with Some b => t' < b | None => True end) →
  ∀ s, s ∈ pool → active_at snapshot t' s = active_at snapshot t s.
Proof.
  intros Ht Hb s Hs.
  assert (∀ x, x ∈ option_list (effective_from s) ++ option_list (effective_to s) → t < x → t' < x) as Hx.
  { intros x Hx Htx. eapply min_default_spec; [exact Hb|]. unfold boundaries.
    apply list_elem_of_filter. split; [done|]. apply list_elem_of_bind. by exists s. }
  unfold active_at. destruct (effective_from s) as [from|]; [|done].
  assert ((from <=? t') = (from <=? t)) as ->.
  { destruct (decide (t < from)) as [H|H]; [|lia]. assert (t' < from) by (apply Hx; [by left|done]). lia. }
  destruct (effective_to s) as [to|]; [|done]. f_equal.
  destruct (decide (t < to)) as [H|H]; [|lia]. assert (t' < to) by (apply Hx; [right; by left|done]). lia.
Qed.

(** ** What a choice means *)

(** The schedule in force for a component: it is a candidate, in force, and of the
    highest rank in force; its peers of that rank are superseded; and no candidate of
    that rank or more has an unknown start. *)
Definition in_force (snapshot : bool) (t : Z) (c : Component) (pool : list Schedule) (s : Schedule) : Prop :=
  s ∈ pool ∧ sch_component s = c ∧ active_at snapshot t s = true ∧
  ∀ s', s' ∈ pool → sch_component s' = c →
    (active_at snapshot t s' = true →
       rank (scope s') < rank (scope s) ∨ s' = s ∨
       rank (scope s') = rank (scope s) ∧
       ∃ s'', s'' ∈ pool ∧ sch_component s'' = c ∧ active_at snapshot t s'' = true ∧
         rank (scope s'') = rank (scope s) ∧ identity s' ∈ supersedes s'') ∧
    (effective_from s' = None → snapshot = false → rank (scope s') < rank (scope s)).

Lemma choose_in_force snapshot t c pool sel :
  choose snapshot t c pool = Selected sel →
  in_force snapshot t c pool (schedule sel) ∧ selected_model sel = model (schedule sel).
Proof.
  unfold FeeSchedules.choose.
  set (mine := filter (λ s, sch_component s = c) pool).
  set (active := filter (λ s, active_at snapshot t s = true) mine).
  set (top := max_default (map (λ s, rank (scope s)) active) (-1)).
  set (peers := filter (λ s, rank (scope s) = top) active).
  assert (∀ s, s ∈ active ↔ active_at snapshot t s = true ∧ sch_component s = c ∧ s ∈ pool) as Hact.
  { intros s. unfold active, mine. by rewrite !list_elem_of_filter. }
  destruct (existsb _ _) eqn:Eu; [done|]. cbv zeta.
  destruct (filter (λ s, identity s ∉ peers ≫= supersedes) peers) as [|s [|]] eqn:Ep; try done.
  intros [= <-]. cbn [schedule selected_model]. split; [|done].
  assert (∀ s', s' ∈ peers → s' = s ∨ identity s' ∈ peers ≫= supersedes) as Hpeers.
  { intros s' Hs'. destruct (decide (identity s' ∈ peers ≫= supersedes)) as [|Hn]; [by right|left].
    assert (s' ∈ [s]) as H by (rewrite <- Ep; by apply list_elem_of_filter). by apply list_elem_of_singleton in H. }
  assert (s ∈ peers) as Hs.
  { assert (s ∈ [s]) as H by left. rewrite <- Ep in H. by apply list_elem_of_filter in H as [_ H]. }
  apply list_elem_of_filter in Hs as [Hr Hs]. apply Hact in Hs as (Ha & Hc & Hp).
  split; [done|]. split; [done|]. split; [done|]. intros s' Hp' Hc'. split.
  - intros Ha'. assert (s' ∈ active) as Hs' by by apply Hact.
    assert (rank (scope s') ≤ top) as Hle by (apply max_default_ge, list_elem_of_fmap; by exists s').
    destruct (decide (rank (scope s') = top)) as [E|E]; [|left; lia].
    destruct (Hpeers s') as [->|(s'' & Hsup & Hs'')%list_elem_of_bind]; [by apply list_elem_of_filter|auto|].
    right. right. split; [lia|]. apply list_elem_of_filter in Hs'' as [Er Hs'']. apply Hact in Hs'' as (? & ? & ?).
    exists s''. split_and!; [done..|lia|done].
  - intros Hf Hsn. destruct (Z_lt_dec (rank (scope s')) (rank (scope s))) as [|Hge]; [done|exfalso].
    apply not_true_iff_false in Eu. apply Eu, existsb_exists. exists s'. split; [|apply Z.leb_le; lia].
    apply list_elem_of_In, list_elem_of_filter. split; [done|]. by apply list_elem_of_filter.
Qed.

Lemma inherit_schedule snapshot t pool choice sel :
  inherit snapshot t pool choice = Selected sel → ∃ p, choice = Selected p ∧ schedule sel = schedule p.
Proof.
  unfold FeeSchedules.inherit. destruct choice as [p|]; [|done]. intros H. exists p. split; [done|].
  repeat case_match; try done; by injection H as <-.
Qed.

(** ** The memo *)
Definition memo_ok (r : Resolver) (memo : Memo) : Prop :=
  Forall (λ e, _compute r e.1.1.1 e.1.1.2 e.1.2 = Ok e.2) memo.

(** Whatever the memo holds, the selection is the computed one, or its error. *)
Lemma select_computes r c t k memo :
  memo_ok r memo →
  match _select dumps sha256 r c t k memo, _compute r c t k with
  | Ok (memo', res), Ok res' => memo_ok r memo' ∧ res = res'
  | Err e, Err e' => e = e'
  | _, _ => False
  end.
Proof.
  intros Hm. unfold _select. destruct (find _ memo) as [e|] eqn:Ef.
  - apply find_some in Ef as [He Hk]. apply bool_decide_eq_true in Hk. apply list_elem_of_In in He.
    unfold memo_ok in *. pose proof (proj1 (Forall_forall _ _) Hm e He) as Ee.
    cbv beta in Ee. rewrite Hk in Ee. cbn [fst snd] in Ee. rewrite Ee. split; [|done]. apply Forall_app. split.
    + apply Forall_forall. intros e' [_ He']%list_elem_of_filter. exact (proj1 (Forall_forall _ _) Hm e' He').
    + constructor; [by rewrite Hk|constructor].
  - destruct (_compute r c t k) as [res|e] eqn:Ec; [|done]. cbn [mbind result_bind]. split; [|done].
    assert (memo_ok r (memo ++ [((c, t, k), res)])) as H
      by (apply Forall_app; split; [done|by repeat constructor]).
    destruct (_ <? _)%nat; [by apply Forall_drop|done].
Qed.

Definition chosen (res : ResolvedScheduleSet) (c : Component) : option Choice :=
  match c with
  | PLATFORM => Some (platform res) | BUILDER => Some (res_builder res) | ACCOUNT => Some (res_account res)
  | ROUNDING => None
  end.

(** What [_compute] returns, when its checks pass. *)
Definition computed r c t k : ResolvedScheduleSet :=
  let pool := candidates_of r c k in
  let snapshot := is_some (reference_time r) in
  mkResolved c t k (identity (catalog r)) (inherit snapshot t pool (choose snapshot t PLATFORM pool))
    (choose snapshot t BUILDER pool) (choose snapshot t ACCOUNT pool) (min_default (boundaries pool t)) (reference_time r)
    (if snapshot then Some (identity r) else None).
Definition set_event_time t s : ResolvedScheduleSet :=
  mkResolved (res_context s) t (knowledge_cutoff s) (catalog_identity s) (platform s) (res_builder s)
    (res_account s) (next_boundary s) (res_reference_time s) (snapshot_identity s).

Lemma computed_in_force r c t k comp sel :
  chosen (computed r c t k) comp = Some (Selected sel) →
  in_force (is_some (reference_time r)) t comp (candidates_of r c k) (schedule sel).
Proof.
  destruct comp; cbn [chosen platform res_builder res_account computed]; intros [= H].
  - apply inherit_schedule in H as (p & H & ->). by apply choose_in_force in H as [? _].
  - by apply choose_in_force in H as [? _].
  - by apply choose_in_force in H as [? _].
Qed.

Lemma computed_until_boundary r c t t' k :
  t ≤ t' → (match next_boundary (computed r c t k) with Some b => t' < b | None => True end) →
  ∀ comp, chosen (computed r c t' k) comp = chosen (computed r c t k) comp.
Proof.
  intros Ht Hb comp. cbn [next_boundary computed] in Hb.
  pose proof (active_until_boundary (is_some (reference_time r)) _ t t' Ht Hb) as Ha.
  destruct comp; cbn [chosen platform res_builder res_account computed]; try done; f_equal.
  - rewrite (inherit_ext _ t t') by done. by rewrite (choose_ext _ t t').
  - by rewrite (choose_ext _ t t').
  - by rewrite (choose_ext _ t t').
Qed.

(** ** The domain bounds *)
Lemma closed_int_eq n : closed_int n = if Z.abs n <=? 10 ^ 36 then Ok () else Err (ValueError "integer exceeds domain bound").
Proof. done. Qed.
Lemma closed_int_ok n : closed_int n = Ok () ↔ Z.abs n ≤ 10 ^ 36.
Proof. rewrite closed_int_eq. destruct (Z.leb_spec (Z.abs n) (10 ^ 36)); split; done || lia. Qed.
Lemma closed_opt_int_ok o : closed_opt_int o = Ok () ↔ ∀ n, o = Some n → Z.abs n ≤ 10 ^ 36.
Proof. destruct o as [n|]; simpl; [rewrite closed_int_ok|]; naive_solver. Qed.
Lemma closed_digest l : text_length (sha256 l) = 64 → closed_str (sha256 l) = Ok ().
Proof. intros E. unfold closed_str. by rewrite E. Qed.

Lemma min_default_elem l b : min_default l = Some b → b ∈ l.
Proof.
  destruct l as [|x l]; simpl; [done|]. intros [= <-]. revert x. induction l as [|y l IH]; intros x; simpl; [by left|].
  destruct (Z.min_spec x y) as [[_ ->]|[_ ->]]; [|right; apply IH]. specialize (IH x). set_solver.
Qed.

(** A resolver as its constructors build it, and a catalog of schedules as theirs do. *)
Definition built (r : Resolver) : Prop :=
  make_resolver (catalog r) (reference_time r) = Ok r ∧ Forall (λ s, make_schedule s = Ok s) (schedules (catalog r)).

Lemma built_reference r n : built r → reference_time r = Some n → Z.abs n ≤ 10 ^ 36.
Proof. intros [E _] Er. unfold make_resolver in E. apply bind_ok in E as ([] & E & _). by eapply closed_opt_int_ok. Qed.
Lemma built_boundary r c k t b : built r → b ∈ boundaries (candidates_of r c k) t → Z.abs b ≤ 10 ^ 36.
Proof.
  intros [_ Hs] [_ (s & Hb & Hin)%list_elem_of_bind]%list_elem_of_filter. unfold candidates_of in Hin. rewrite !list_elem_of_filter in Hin. destruct Hin as (_ & _ & Hin).
  pose proof (proj1 (Forall_forall _ _) Hs s Hin) as Em. unfold make_schedule in Em. apply bind_ok in Em as (u & Em & _).
  unfold all_ok in Em. simpl in Em. apply bind_ok in Em as ([] & _ & Em). apply bind_ok in Em as ([] & Efrom & Em). apply bind_ok in Em as ([] & Eto & _).
  apply elem_of_app in Hb as [Hb|Hb]; [destruct (effective_from s)|destruct (effective_to s)]; simpl in Hb;
    try by apply elem_of_nil in Hb. all: apply list_elem_of_singleton in Hb as ->.
  - exact (proj1 (closed_opt_int_ok _) Efrom _ eq_refl).
  - exact (proj1 (closed_opt_int_ok _) Eto _ eq_refl).
Qed.

Lemma make_resolved_closed s :
  closed_opt_int (knowledge_cutoff s) = Ok () → closed_str (catalog_identity s) = Ok () → closed_opt_int (next_boundary s) = Ok () →
  closed_opt_int (res_reference_time s) = Ok () → closed_opt (snapshot_identity s) = Ok () →
  make_resolved s = (_ ← closed_int (res_event_time s); Ok s).
Proof. intros E1 E2 E3 E4 E5. unfold make_resolved, all_ok. simpl. rewrite E1, E2, E3, E4, E5. by destruct (closed_int _). Qed.

(** What a built resolver computes fails only on the event time. *)
Lemma compute_bounded r c t t' k : (∀ l, text_length (sha256 l) = 64) → built r → (∀ known, k = Some known → Z.abs known ≤ 10 ^ 36) →
  make_resolved (set_event_time t' (computed r c t k)) = (_ ← closed_int t'; Ok (set_event_time t' (computed r c t k))).
Proof.
  intros Hsha Hr Hk. apply make_resolved_closed; simpl.
  - by apply closed_opt_int_ok.
  - by apply closed_digest.
  - apply closed_opt_int_ok. intros b Hb. eapply built_boundary; [done|]. by apply min_default_elem.
  - apply closed_opt_int_ok. intros n. by apply built_reference.
  - destruct (is_some _); [by apply closed_digest|done].
Qed.

Lemma beyond r c t k : 10 ^ 36 < t → _compute r c t k = Err (ValueError "integer exceeds domain bound").
Proof.
  intros Ht. unfold FeeSchedules._compute, make_resolved, all_ok. cbn [foldr res_event_time]. rewrite closed_int_eq.
  by destruct (Z.leb_spec (Z.abs t) (10 ^ 36)); [lia|].
Qed.

(** [resolve] stamps the computed set with the event time, or raises beyond the domain. *)
Lemma resolve_bounded r c k t memo : (∀ l, text_length (sha256 l) = 64) → built r →
  0 ≤ t → (∀ known, k = Some known → 0 ≤ known ≤ t) → (k = None ∨ reference_time r = None) → memo_ok r memo →
  (t ≤ 10 ^ 36 → ∃ memo', resolve dumps sha256 r c t k memo = Ok (memo', set_event_time t (computed r c (default t (reference_time r)) k)) ∧ memo_ok r memo') ∧
  (10 ^ 36 < t → resolve dumps sha256 r c t k memo = Err (ValueError "integer exceeds domain bound")).
Proof.
  intros Hsha Hr Ht Hk Hs Hm. unfold resolve. rewrite (proj2 (Z.leb_le 0 t)) by lia. cbn [guard_or mbind result_bind].
  assert (match k with Some k => (0 <=? k) && (k <=? t) | None => true end = true) as ->.
  { destruct k as [k|]; [|done]. specialize (Hk k eq_refl). lia. }
  assert (∀ t0, (∀ known, k = Some known → Z.abs known ≤ 10 ^ 36) → _compute r c t0 k = (_ ← closed_int t0; Ok (computed r c t0 k))) as Hc
    by (intros t0 Hk'; exact (compute_bounded r c t0 t0 k Hsha Hr Hk')).
  cbn [guard_or mbind result_bind]. destruct (reference_time r) as [t0|] eqn:Er; cbn [default].
  - destruct Hs as [->|?]; [|done]. cbn [is_some negb guard_or mbind result_bind]. assert (0 ≤ t0 ≤ 10 ^ 36) as Ht0.
    { split; [|pose proof (built_reference r t0 Hr Er); lia]. destruct Hr as [E _]. unfold make_resolver in E. rewrite Er in E. apply bind_ok in E as (? & _ & E).
      apply bind_ok in E as (? & E%guard_or_ok & _). by apply Z.leb_le. }
    pose proof (select_computes r c t0 None memo Hm) as Hsel. rewrite Hc, (proj2 (closed_int_ok t0)) in Hsel by (lia || done). cbn [mbind result_bind] in Hsel.
    destruct (_select dumps sha256 r c t0 None memo) as [[memo' res]|]; [|done]. destruct Hsel as [Hm' ->]. cbn [mbind result_bind].
    unfold at_event_time. fold (set_event_time t (computed r c t0 None)). rewrite compute_bounded by done. split; intros Hmax.
    + rewrite (proj2 (closed_int_ok t)) by lia. eexists. split; [done|done].
    + rewrite closed_int_eq. by destruct (Z.leb_spec (Z.abs t) (10 ^ 36)); [lia|].
  - pose proof (select_computes r c t k memo Hm) as Hsel. split; intros Hmax.
    + rewrite Hc, (proj2 (closed_int_ok t)) in Hsel by (lia || (intros known E; specialize (Hk known E); lia)). cbn [mbind result_bind] in Hsel.
      destruct (_select dumps sha256 r c t k memo) as [[memo' res]|]; [|done]. destruct Hsel as [Hm' ->]. by exists memo'.
    + rewrite beyond in Hsel by lia.
      destruct (_select dumps sha256 r c t k memo) as [[memo' res]|]; [done|]. by subst.
Qed.
End Resolution.

(** C23. The resolver returns the schedule in force, and for as long as it says.  For a
    resolver and schedules their constructors accept, and whatever its memo holds from
    earlier calls, [resolve] at an event time of the domain (at most 10^36) succeeds,
    and each schedule it selects is in force for its component at the event time (at
    the reference time, for a snapshot) among the candidates of the context that were
    known by the cutoff.  At every later event time of the domain before the boundary
    it reports (at every later event time of the domain, for a snapshot) it makes the
    same choice of each component.  Beyond the domain it raises [ValueError]. *)
Theorem resolution_in_force_until_boundary dumps sha256 r c t k memo :
  (∀ l, text_length (sha256 l) = 64) → built r →
  0 ≤ t → (∀ known, k = Some known → 0 ≤ known ≤ t) → (k = None ∨ reference_time r = None) →
  memo_ok dumps sha256 r memo →
  (t ≤ 10 ^ 36 →
   ∃ memo' res, resolve dumps sha256 r c t k memo = Ok (memo', res) ∧ memo_ok dumps sha256 r memo' ∧
    res_context res = c ∧ res_event_time res = t ∧
    (∀ comp sel, chosen res comp = Some (Selected sel) →
       in_force dumps sha256 (is_some (reference_time r)) (default t (reference_time r)) comp
         (candidates_of r c k) (schedule sel)) ∧
    (∀ t' memo2, t ≤ t' ≤ 10 ^ 36 → memo_ok dumps sha256 r memo2 →
       (reference_time r = None → ∀ b, next_boundary res = Some b → t' < b) →
       ∃ memo3 res', resolve dumps sha256 r c t' k memo2 = Ok (memo3, res') ∧
         ∀ comp, chosen res' comp = chosen res comp)) ∧
  (10 ^ 36 < t → resolve dumps sha256 r c t k memo = Err (ValueError "integer exceeds domain bound")).
Proof.
  intros Hsha Hr Ht Hk Hs Hm.
  pose proof (λ t memo, resolve_bounded dumps sha256 r c k t memo Hsha Hr) as Hgo. split; [intros Hmax|].
  - destruct (Hgo t memo Ht Hk Hs Hm) as [(m' & E & Hm') _]; [done|].
    eexists m', _. split_and!; [exact E|done|done|done| |].
    + intros comp sel H. eapply computed_in_force. destruct comp; exact H.
    + intros t' memo2 Ht' Hm2 Hb. destruct (Hgo t' memo2 ltac:(lia) ltac:(intros known E0; specialize (Hk known E0); lia) Hs Hm2) as [(m3 & E' & _) _]; [lia|].
      eexists m3, _. split; [exact E'|]. intros comp.
      assert (chosen (computed dumps sha256 r c (default t' (reference_time r)) k) comp
        = chosen (computed dumps sha256 r c (default t (reference_time r)) k) comp) as H; [|destruct comp; exact H].
      destruct (reference_time r) as [t0|] eqn:Er; [done|]. cbn [default]. apply computed_until_boundary; [lia|].
      cbn [set_event_time next_boundary default] in Hb. destruct (next_boundary _) as [b|]; [by apply Hb|done].
  - intros Hmax. destruct (Hgo t memo Ht Hk Hs Hm) as [_ E]. by apply E.
Qed.

(** ** A rate change *)
Definition demo_usdc : Asset := mkAsset USDC "polygon" "usdc".
Definition demo_yes : Asset := mkAsset OUTCOME "polygon" "yes".
Definition demo_economics : InstrumentEconomics :=
  mkEconomics demo_usdc demo_yes (mkAmount demo_usdc (mkFixed 1 0)) 6 6 3.
Definition demo_context : FeeContext :=
  mkContext POLYMARKET CLOB "market" None None (Some "sports"%string) "yes" "outcome" "account" "main" UNKNOWN_CLASS
    (mkBuilder ABSENT None).
Definition demo_source : Source := mkSource "https://example.org" (String.concat "" (replicate 64 "a"%string)) 10 5.
Definition demo_schedule (category : option string) (rate : Z) (from : Z) (to : option Z) : Schedule :=
  mkSchedule PLATFORM (mkScope POLYMARKET CLOB None None None category None None None None None)
    demo_economics demo_usdc 5 (Polymarket (mkFixed rate 3) 1 true PM_CEIL5_SCENARIO) [demo_source] (Some from) to
    (Some "docs"%string) "1" "1" [].
(** A default, and a rate for sports that changes at 100. *)
Definition demo_before : Schedule := demo_schedule (Some "sports"%string) 20 0 (Some 100).
Definition demo_resolver : Resolver :=
  mkResolver (mkCatalog [demo_schedule None 30 0 None; demo_before; demo_schedule (Some "sports"%string) 10 100 None]
    "component-scope-v1") None.

(** A digest of 64 characters: the bits of a short one. *)
Definition demo_sha256 (l : list Byte.byte) : string :=
  let h := foldl (λ h b, (h * 257 + Z.of_N (Byte.to_N b) + 1) mod 2147483648) 7 l in
  String.string_of_list_ascii (map (λ i : nat, Ascii.ascii_of_byte (if Z.testbit h (Z.of_nat i) then Byte.x31 else Byte.x30)) (seq 0 64)).
Lemma demo_sha256_length l : text_length (demo_sha256 l) = 64.
Proof.
  unfold demo_sha256. generalize (foldl (λ h b, (h * 257 + Z.of_N (Byte.to_N b) + 1) mod 2147483648) 7 l) as h. intros h. unfold text_length, chars.
  rewrite String.list_ascii_of_string_of_list_ascii. replace (filter _ _) with (map (λ i : nat, Ascii.ascii_of_byte (if Z.testbit h (Z.of_nat i) then Byte.x31 else Byte.x30)) (seq 0 64)); [by rewrite length_map, length_seq|].
  induction (seq 0 64) as [|i is_ IH]; [done|]. cbn [map]. rewrite filter_cons, decide_True, <- IH; [done|]. by destruct (Z.testbit h (Z.of_nat i)).
Qed.

Lemma resolution_in_force_until_boundary_witness :
  ∃ memo res, resolve Json.demo_dumps demo_sha256 demo_resolver demo_context 50 None [] = Ok (memo, res) ∧
    chosen res PLATFORM = Some (Selected (mkSelection demo_before (model demo_before) [demo_before])) ∧
    next_boundary res = Some 100 ∧
    (∃ memo' res', resolve Json.demo_dumps demo_sha256 demo_resolver demo_context 99 None memo = Ok (memo', res') ∧
      chosen res' PLATFORM = chosen res PLATFORM) ∧
    resolve Json.demo_dumps demo_sha256 demo_resolver demo_context (10 ^ 36 + 1) None memo = Err (ValueError "integer exceeds domain bound").
Proof.
  assert (built demo_resolver) as Hbuilt by (split; [reflexivity|repeat constructor]).
  destruct (resolution_in_force_until_boundary Json.demo_dumps demo_sha256 demo_resolver demo_context 50 None [] demo_sha256_length Hbuilt)
    as [H _]; [lia|discriminate|by left|constructor|].
  destruct H as (memo & res & E & Hm & _ & _ & _ & Hb); [lia|].
  assert (∀ A (f : ResolvedScheduleSet → A) x,
    ('(_, res) ← resolve Json.demo_dumps demo_sha256 demo_resolver demo_context 50 None []; Ok (f res)) = Ok x → f res = x) as Hf.
  { intros A f x. rewrite E. cbn [mbind result_bind]. by intros [= ->]. }
  assert (next_boundary res = Some 100) as Hn by (apply (Hf _ next_boundary); vm_compute; reflexivity).
  exists memo, res. split_and!; [exact E|apply (Hf _ (λ res, chosen res PLATFORM)); vm_compute; reflexivity|exact Hn| |].
  - destruct (Hb 99 memo) as (memo' & res' & E' & Hc); [lia|exact Hm|intros _ b Eb; rewrite Hn in Eb; injection Eb as <-; lia|].
    exists memo', res'. split; [exact E'|apply Hc].
  - destruct (resolution_in_force_until_boundary Json.demo_dumps demo_sha256 demo_resolver demo_context (10 ^ 36 + 1) None memo demo_sha256_length Hbuilt)
      as [_ H]; [lia|discriminate|by left|exact Hm|]. apply H. lia.
Defined.
