(* ===== verification/FeeEngine.v ===== *)
(** * The fee engine ([src/replay/fees/engine.py])

    The assessment of a hypothetical fill under a resolved schedule set: the platform
    fee of each venue model, Kalshi's balance rounding with its per-order accumulator,
    account rebates, and the exact native deltas; then runs of fills, and the check of
    observed totals. *)
From stdpp Require Import list strings numbers.
From Stdlib Require Import Qcanon.
From S2P Require Import Prelude Wire JobContracts Order Fraction FeeDomain FeeSchedules.

(** ** Configuration and state *)
Record Policy := mkPolicy {
  name : string; include_account_rebates : bool; include_rounding_refunds : bool;
  assume_unknown_role_taker : bool; kalshi_member_class : AccountClass; pm_ceil5_scenario : bool;
  limitless_buy_bps : Z; limitless_sell_bps : Z;
}.
#[global] Instance value_Policy : FeeValue Policy := λ p,
  FData "Policy" [("name", FStr (name p)); ("include_account_rebates", FBool (include_account_rebates p));
    ("include_rounding_refunds", FBool (include_rounding_refunds p));
    ("assume_unknown_role_taker", FBool (assume_unknown_role_taker p));
    ("kalshi_member_class", to_value (kalshi_member_class p)); ("pm_ceil5_scenario", FBool (pm_ceil5_scenario p));
    ("limitless_buy_bps", FInt (limitless_buy_bps p)); ("limitless_sell_bps", FInt (limitless_sell_bps p))].

Definition default_policy : Policy := mkPolicy "conservative-v1" false false true NON_DIRECT true 300 150.

Definition make_policy (p : Policy) : result Policy :=
  _ ← all_ok [closed_str (name p); closed_int (limitless_buy_bps p); closed_int (limitless_sell_bps p)];
  _ ← guard_or (negb (bool_decide (kalshi_member_class p = UNKNOWN_CLASS)))
        (ValueError "configured Kalshi member class must be known");
  _ ← guard_or (forallb (λ bps, (0 <=? bps) && (bps <=? 10000)) [limitless_buy_bps p; limitless_sell_bps p])
        (ValueError "Limitless rates must be in 0..10000 bps");
  Ok p.

Record OrderState := mkOrderState {
  os_account : string; os_subaccount : string; os_order_key : string; os_asset : Asset;
  grid_scale : Z; last_fill_index : Z; last_event_time : Z; carry : Fixed; policy_identity : string;
  os_venue : Venue; os_product : Product; os_market : string; os_instrument : string;
  os_orientation : string; os_outcome : Asset; os_side : Side; os_revision : option string;
}.
#[global] Instance OrderState_eq_dec : EqDecision OrderState.
Proof. solve_decision. Defined.

Definition make_order_state (s : OrderState) : result OrderState :=
  _ ← all_ok [closed_str (os_account s); closed_str (os_subaccount s); closed_str (os_order_key s);
              closed_int (grid_scale s); closed_int (last_fill_index s); closed_int (last_event_time s);
              closed_str (policy_identity s); closed_str (os_market s); closed_str (os_instrument s);
              closed_str (os_orientation s); closed_opt (os_revision s)];
  _ ← guard_or (((grid_scale s =? 2) || (grid_scale s =? 4)) && (0 <=? last_fill_index s) &&
                (0 <=? last_event_time s) && integral (value (carry s) * of_Z (pow10 6))%Qc)
        (ValueError "invalid Kalshi accumulator state");
  Ok s.

Record FeeAssessment := mkAssessment {
  as_fill : HypotheticalFill; as_resolved : ResolvedScheduleSet; as_policy : Policy; as_basis : Basis;
  as_evidence : Evidence; as_charges : list FeeCharge; as_rebates : list Rebate;
  as_unknowns : list UnknownSchedule; net_deltas : option (list AssetDelta);
  contract_fee_payout_impact : option AssetAmount; as_assumptions : list string;
  as_exclusions : list string; prior_order_state : option OrderState;
}.

(** The local variables of [assess] that its parts extend. *)
Record acc := mkAcc {
  charges : list FeeCharge; rebates : list Rebate; unknowns : list UnknownSchedule;
  assumptions : list string; next_state : option OrderState; basis : Basis;
}.
Definition charge (c : Component) (a : Asset) (f : Fixed) (e : Evidence) (s : acc) : acc :=
  mkAcc (charges s ++ [mkCharge c (mkAmount a f) e]) (rebates s) (unknowns s) (assumptions s) (next_state s) (basis s).
Definition rebate (c : Component) (a : Asset) (f : Fixed) (e : Evidence) (s : acc) : acc :=
  mkAcc (charges s) (rebates s ++ [mkCharge c (mkAmount a f) e]) (unknowns s) (assumptions s) (next_state s) (basis s).
Definition add_unknown (u : UnknownSchedule) (s : acc) : acc :=
  mkAcc (charges s) (rebates s) (unknowns s ++ [u]) (assumptions s) (next_state s) (basis s).
Definition unknown (c : Component) (r : UnknownReason) : acc → acc := add_unknown (mkUnknown c r []).
Definition assume (text : string) (s : acc) : acc :=
  mkAcc (charges s) (rebates s) (unknowns s) (assumptions s ++ [text]) (next_state s) (basis s).
Definition set_next (o : option OrderState) (s : acc) : acc :=
  mkAcc (charges s) (rebates s) (unknowns s) (assumptions s) o (basis s).
Definition set_basis (b : Basis) (s : acc) : acc :=
  mkAcc (charges s) (rebates s) (unknowns s) (assumptions s) (next_state s) b.

(** [rounded]: [None] notes an unknown rounding. *)
Definition rounded (raw : Qc) (sel : Selection) (rounding : Rounding) (s : acc) : result (acc * option Fixed) :=
  let k := fee_scale (schedule sel) in
  match rounding with
  | CEIL => f ← ceil_grid raw k; Ok (s, Some f)
  | EXACT =>
      if integral (raw * of_Z (pow10 k))%Qc then f ← fixed raw k; Ok (s, Some f)
      else Ok (unknown (sch_component (schedule sel)) ROUNDING_REASON s, None)
  | _ => Ok (unknown (sch_component (schedule sel)) ROUNDING_REASON s, None)
  end.

Definition zero_fixed (scale : Z) : result Fixed := make_fixed 0 scale.

Section Assess.
Context (dumps : json → list Byte.byte) (sha256 : list Byte.byte → string).
Local Abbreviation identity := (identity dumps sha256).

Section Fill.
Context (policy : Policy) (fill : HypotheticalFill) (order_state : option OrderState) (role : Role).
Let e := economics fill.
Let qty := value (quantity fill).
Let p := value (probability fill).
Let notional := value (amount (gross_notional fill)).

Definition validate_selection (c : Choice) (s : acc) : result (acc * option Selection) :=
  match c with
  | Unknown u => Ok (add_unknown u s, None)
  | Selected sel =>
      _ ← guard_or (bool_decide (sch_economics (schedule sel) = e)) (ValueError "schedule economics identity mismatch");
      Ok (s, Some sel)
  end.

Definition configured_limitless (s : acc) : result acc :=
  let buy := bool_decide (side fill = BUY) in
  let asset := if buy then outcome e else quote e in
  let raw := if buy then (qty * ratio (limitless_buy_bps policy) 10000)%Qc
             else (notional * ratio (limitless_sell_bps policy) 10000)%Qc in
  let s := assume "limitless_configured_rate_and_ceil6_declared_fill" s in
  amount ← ceil_grid raw 6;
  let received := if buy then qty else notional in
  _ ← guard_or (qleb (value amount) received) (ValueError "Limitless fee exceeds received amount");
  Ok (charge PLATFORM asset amount ESTIMATE s).

(** *** Kalshi: the trade fee, the balance rounding and the order's accumulator *)
Definition kalshi_grid_scale : Z := if bool_decide (kalshi_member_class policy = DIRECT) then 4 else 2.
Definition kalshi_grid : Qc := ratio 1 (pow10 kalshi_grid_scale).
Definition kalshi_rate (kind : KalshiKind) : Qc :=
  match role with
  | TAKER => ratio 7 100
  | _ => if bool_decide (kind = MAKER_FEES) then ratio 7 400 else of_Z 0
  end.

(** The state of the order that this fill continues. *)
Definition continues (o : OrderState) : bool :=
  negb (new_order fill) &&
  bool_decide ((os_account o, os_subaccount o, os_order_key o, os_asset o, grid_scale o, last_fill_index o + 1,
                policy_identity o, os_venue o) =
               (account (context fill), subaccount (context fill), order_key fill, quote e, kalshi_grid_scale,
                fill_index fill, identity policy, venue (context fill))) &&
  bool_decide ((os_product o, os_market o, os_instrument o, os_orientation o, os_outcome o, os_side o, os_revision o) =
               (product (context fill), market (context fill), instrument (context fill), orientation (context fill),
                outcome e, side fill, counterfactual_revision fill)) &&
  (last_event_time o <=? event_time fill).

Definition state_ok : bool :=
  match order_state with None => new_order fill | Some o => continues o end &&
  negb (bool_decide (FeeDomain.role fill = UNKNOWN_ROLE)).

Definition previous : Qc := match order_state with Some o => value (carry o) | None => of_Z 0 end.

Definition state_after (left : Fixed) : result OrderState :=
  let c := context fill in
  make_order_state (mkOrderState (account c) (subaccount c) (order_key fill) (quote e) kalshi_grid_scale
    (fill_index fill) (event_time fill) left (identity policy) (venue c) (product c) (market c) (instrument c)
    (orientation c) (outcome e) (side fill) (counterfactual_revision fill)).

Definition kalshi_accumulate (trade_fee rounding : Qc) (s : acc) : result acc :=
  let grid := kalshi_grid in
  s ← (if state_ok then
         let accumulated := (previous + rounding)%Qc in
         let back := (grid * of_Z (Z.min (floordiv accumulated grid) (floordiv (trade_fee + rounding) grid)))%Qc in
         left ← fixed (accumulated - back)%Qc 6;
         next ← state_after left;
         let s := set_next (Some next) s in
         if include_rounding_refunds policy then
           f ← fixed back 6;
           Ok (rebate ROUNDING (quote e) f EXACT_MODEL s)
         else Ok s
       else if include_rounding_refunds policy then Ok (unknown ROUNDING STATE s) else Ok s);
  Ok (if include_rounding_refunds policy then s else assume "kalshi_per_fill_rebates_omitted" s).

(** What the balance change of a fill lies above the grid. *)
Definition kalshi_rounding (trade_fee : Qc) : Qc :=
  let revenue := if bool_decide (side fill = BUY) then (- notional)%Qc else notional in
  let change := (revenue - trade_fee)%Qc in
  (change - of_Z (floordiv change kalshi_grid) * kalshi_grid)%Qc.

Definition kalshi_fee (kind : option KalshiKind) (multiplier : option Multiplier) (scale : Z) (s : acc) : result acc :=
  match kind, multiplier with
  | Some ((QUADRATIC | MAKER_FEES) as kind), Some multiplier =>
      if negb (scale =? 6) then Ok (unknown PLATFORM UNSUPPORTED s)
      else
        _ ← guard_or (integral (notional * of_Z (pow10 6))%Qc)
              (ValueError "Kalshi revenue must be exactly representable at six decimals");
        trade_fee ← ceil_grid (kalshi_rate kind * value multiplier * qty * p * (1 - p))%Qc 6;
        let s := charge PLATFORM (quote e) trade_fee EXACT_MODEL s in
        let rounding := kalshi_rounding (value trade_fee) in
        f ← fixed rounding 6;
        kalshi_accumulate (value trade_fee) rounding (charge ROUNDING (quote e) f EXACT_MODEL s)
  | _, _ => Ok (unknown PLATFORM UNSUPPORTED s)
  end.

(** *** The other venues *)
Definition polymarket_raw (rate : Rate) (exponent : Z) (taker_only : bool) : Qc :=
  if bool_decide (role = MAKER) && taker_only then of_Z 0
  else (qty * value rate * (p * (1 - p)) ^ Z.to_nat exponent)%Qc.

Definition polymarket_fee (sel : Selection) (rate : Rate) (exponent : Z) (taker_only : bool) (rounding : Rounding)
    (s : acc) : result acc :=
  let sch := schedule sel in
  let raw := polymarket_raw rate exponent taker_only in
  if qeqb raw (of_Z 0) then
    z ← zero_fixed (fee_scale sch); Ok (charge PLATFORM (fee_asset sch) z EXACT_MODEL s)
  else match rounding with
       | PM_CEIL5_SCENARIO =>
           if pm_ceil5_scenario policy && (fee_scale sch =? 5) then
             let s := assume "ceil5_per_declared_fill_not_whole_execution_bound" s in
             f ← ceil_grid raw 5;
             Ok (charge PLATFORM (fee_asset sch) f ESTIMATE s)
           else Ok (unknown PLATFORM ROUNDING_REASON s)
       | _ =>
           '(s, amount) ← rounded raw sel rounding s;
           Ok (match amount with Some f => charge PLATFORM (fee_asset sch) f EXACT_MODEL s | None => s end)
       end.

Definition limitless_clob_fee (sel : Selection) (maker_free : bool) (s : acc) : result acc :=
  let sch := schedule sel in
  if negb (bool_decide (fee_asset sch = quote e)) || negb (fee_scale sch =? 6) then Ok (unknown PLATFORM DIMENSIONS s)
  else match role with
       | MAKER =>
           if maker_free then z ← zero_fixed (fee_scale sch); Ok (charge PLATFORM (fee_asset sch) z EXACT_MODEL s)
           else Ok (unknown PLATFORM UNSUPPORTED s)
       | TAKER => configured_limitless s
       | UNKNOWN_ROLE => Ok (unknown PLATFORM UNSUPPORTED s)
       end.

Definition limitless_amm_fee (sel : Selection) (rate : Rate) (b : TradeBasis) (rounding : Rounding) (s : acc) : result acc :=
  let sch := schedule sel in
  let on_notional := bool_decide (b = NOTIONAL) in
  let asset := if on_notional then quote e else outcome e in
  if negb (bool_decide (fee_asset sch = asset)) || negb (qeqb (value rate) (ratio 4 1000))
  then Ok (unknown PLATFORM DIMENSIONS s)
  else
    '(s, amount) ← rounded ((if on_notional then notional else qty) * value rate)%Qc sel rounding s;
    Ok (match amount with Some f => charge PLATFORM asset f EXACT_MODEL s | None => s end).

(** A probability is the price of a claim on one unit of the quote asset. *)
Definition dimensional (sel : Selection) : bool :=
  let unit := bool_decide (amount_asset (payout e) = quote e) && qeqb (value (amount (payout e))) 1%Qc &&
              qeqb (value (price fill)) p && bool_decide (fee_asset (schedule sel) = quote e) in
  match selected_model sel with
  | Kalshi _ _ => unit && bool_decide (asset_kind (quote e) = USD)
  | Polymarket _ _ _ _ => unit && (bool_decide (asset_kind (quote e) = USDC) || bool_decide (asset_kind (quote e) = PUSD))
  | _ => true
  end.

Definition model_fee (sel : Selection) (s : acc) : result acc :=
  let sch := schedule sel in
  if negb (dimensional sel) then Ok (unknown PLATFORM DIMENSIONS s)
  else match selected_model sel with
       | ZeroFee _ =>
           if bool_decide (venue (context fill) = KALSHI) then Ok (unknown PLATFORM UNSUPPORTED s)
           else z ← zero_fixed (fee_scale sch); Ok (charge PLATFORM (fee_asset sch) z EXACT_MODEL s)
       | m =>
           if bool_decide (role = UNKNOWN_ROLE) then Ok (unknown PLATFORM UNSUPPORTED s)
           else match m with
                | Polymarket rate exponent taker_only rounding => polymarket_fee sel rate exponent taker_only rounding s
                | Kalshi kind multiplier => kalshi_fee kind multiplier (fee_scale sch) s
                | LimitlessClob maker_free => limitless_clob_fee sel maker_free s
                | LimitlessAmm rate b rounding => limitless_amm_fee sel rate b rounding s
                | _ => Ok (unknown PLATFORM UNSUPPORTED s)
                end
       end.

(** A Limitless taker without a schedule is charged the configured rate. *)
Definition unscheduled_limitless (c : Choice) : bool :=
  bool_decide (venue (context fill) = LIMITLESS) && bool_decide (product (context fill) = CLOB) &&
  bool_decide (role = TAKER) &&
  match c with Unknown u => bool_decide (reason u = MISSING) && bool_decide (candidates u = []) | Selected _ => false end.

Definition platform_fee (c : Choice) (s : acc) : result acc :=
  if unscheduled_limitless c then configured_limitless s
  else
    '(s, sel) ← validate_selection c s;
    match sel with Some sel => model_fee sel s | None => Ok s end.

Definition account_rebate (c : Choice) (s : acc) : result acc :=
  if include_account_rebates policy && bool_decide (venue (context fill) = POLYMARKET) && bool_decide (role = TAKER) then
    '(s, sel) ← validate_selection c s;
    match sel with
    | None => Ok s
    | Some sel =>
        match selected_model sel with
        | AccountRebate rate rounding =>
            match find (λ c, bool_decide (component c = PLATFORM)) (charges s) with
            | Some base =>
                if bool_decide (amount_asset (charged base) = fee_asset (schedule sel)) then
                  '(s, amount) ← rounded (value (amount (charged base)) * value rate)%Qc sel rounding s;
                  Ok (match amount with
                      | Some f => set_basis ACCOUNT_ADJUSTED (rebate ACCOUNT (fee_asset (schedule sel)) f (charge_evidence base) s)
                      | None => s
                      end)
                else Ok (unknown ACCOUNT DIMENSIONS s)
            | None => Ok (unknown ACCOUNT DIMENSIONS s)
            end
        | _ => Ok (unknown ACCOUNT UNSUPPORTED s)
        end
    end
  else Ok s.
End Fill.

(** *** Exact native deltas *)

(** [amounts[asset] = amounts.get(asset, 0) + v], in insertion order. *)
Fixpoint add_amount (a : Asset) (v : Qc) (amounts : list (Asset * Qc)) : list (Asset * Qc) :=
  match amounts with
  | [] => [(a, (of_Z 0 + v)%Qc)]
  | (b, w) :: amounts => if decide (b = a) then (b, (w + v)%Qc) :: amounts else (b, w) :: add_amount a v amounts
  end.

Definition entry_value (direction : Z) (c : FeeCharge) : Qc := (of_Z direction * value (amount (charged c)))%Qc.

Definition add_entry (outcome_asset : Asset) (direction : Z) (st : list (Asset * Qc) * Qc) (c : FeeCharge)
    : list (Asset * Qc) * Qc :=
  let a := amount_asset (charged c) in
  let v := entry_value direction c in
  (add_amount a v st.1, if decide (a = outcome_asset) then (st.2 - v)%Qc else st.2).

Definition signed (fill : HypotheticalFill) (v : Qc) : Qc := if bool_decide (side fill = BUY) then v else (- v)%Qc.

(** The trade itself; quote and outcome are different assets. *)
Definition trade_amounts (fill : HypotheticalFill) : list (Asset * Qc) :=
  [(quote (economics fill), (- signed fill (value (amount (gross_notional fill))))%Qc);
   (outcome (economics fill), signed fill (value (quantity fill)))].

Definition net_amounts (fill : HypotheticalFill) (charges : list FeeCharge) (rebates : list Rebate) : list (Asset * Qc) * Qc :=
  let o := outcome (economics fill) in
  foldl (add_entry o 1) (foldl (add_entry o (-1)) (trade_amounts fill, of_Z 0) charges) rebates.

Definition to_delta (av : Asset * Qc) : result AssetDelta :=
  make_delta av.1 (truncate (av.2 * of_Z (pow10 18))%Qc) 18.

Definition net_of (fill : HypotheticalFill) (charges : list FeeCharge) (rebates : list Rebate)
    : result (list AssetDelta * AssetAmount) :=
  let '(amounts, contract_fee) := net_amounts fill charges rebates in
  net ← mapR to_delta (sort_by (λ a b, leb (identity a.1) (identity b.1)) amounts);
  let pay := payout (economics fill) in
  f ← fixed (contract_fee * value (amount pay))%Qc 18;
  Ok (net, mkAmount (amount_asset pay) f).

(** ** [assess] *)
Definition exclusions_of (policy : Policy) : list string :=
  ["gas_bridge_deposit_withdrawal_fcm_costs"; "maker_rewards_and_bonuses"; "builder_fees_no_builder_route"] ++
  (if include_account_rebates policy then [] else ["hypothetical_account_rebates"]).

Definition assumed_role (policy : Policy) (fill : HypotheticalFill) : Role :=
  match role fill with
  | UNKNOWN_ROLE => if assume_unknown_role_taker policy then TAKER else UNKNOWN_ROLE
  | r => r
  end.

Definition initial_acc (policy : Policy) (fill : HypotheticalFill) (resolved : ResolvedScheduleSet) : acc :=
  mkAcc [] [] []
    ((if is_some (res_reference_time resolved) then ["current_snapshot_not_historical_fee_claim"] else []) ++
     (if bool_decide (role fill = UNKNOWN_ROLE) && assume_unknown_role_taker policy then ["unknown_role_assumed_taker"] else []))
    None (if bool_decide (assumed_role policy fill = MAKER) then MAKER_BASIS else BASE_TAKER).

Definition exact_charge (c : FeeCharge) : bool := bool_decide (charge_evidence c = EXACT_MODEL).

Definition evidence_of (s : acc) : Evidence :=
  match unknowns s with
  | _ :: _ => UNKNOWN_EVIDENCE
  | [] =>
      if negb (bool_decide (assumptions s = [])) || existsb (λ c, bool_decide (charge_evidence c = ESTIMATE)) (charges s) then
        if bool_decide (assumptions s = ["kalshi_per_fill_rebates_omitted"]) && forallb exact_charge (charges s)
        then CONDITIONAL_BOUND else ESTIMATE
      else EXACT_MODEL
  end.

(** [assess] once the schedules are resolved. *)
Definition assess_resolved (policy : Policy) (fill : HypotheticalFill) (resolved : ResolvedScheduleSet)
    (order_state : option OrderState) : result (FeeAssessment * option OrderState) :=
  _ ← guard_or (bool_decide (res_context resolved = context fill) && (res_event_time resolved =? event_time fill))
        (ValueError "resolution belongs to a different fill context/time");
  let r := assumed_role policy fill in
  s ← platform_fee policy fill order_state r (platform resolved) (initial_acc policy fill resolved);
  s ← account_rebate policy fill r (res_account resolved) s;
  net ← (if bool_decide (unknowns s = []) then n ← net_of fill (charges s) (rebates s); Ok (Some n) else Ok None);
  Ok (mkAssessment fill resolved policy (basis s) (evidence_of s) (charges s) (rebates s) (unknowns s)
        (option_map fst net) (option_map snd net) (assumptions s) (exclusions_of policy) order_state,
      next_state s).

Record FeeEngine := mkFeeEngine { policy : Policy; resolver : option Resolver }.

Definition make_engine (p : Policy) (r : option Resolver) : result FeeEngine :=
  _ ← guard_or (match r with Some r => is_some (reference_time r) | None => true end)
        (ValueError "constructor-bound resolver requires a reference time");
  Ok (mkFeeEngine p r).

(** [FeeEngine.assess]; the memo is that of the bound resolver. *)
Definition assess (eng : FeeEngine) (fill : HypotheticalFill) (resolved : option ResolvedScheduleSet)
    (order_state : option OrderState) (memo : Memo) : result (Memo * (FeeAssessment * option OrderState)) :=
  '(memo, resolved) ← match resolver eng with
    | Some r =>
        _ ← guard_or (negb (is_some resolved)) (ValueError "cannot override constructor-bound snapshot");
        resolve dumps sha256 r (context fill) (event_time fill) None memo
    | None => match resolved with
              | Some resolved => Ok (memo, resolved)
              | None => Err (TypeError "closed hypothetical inputs required")
              end
    end;
  a ← assess_resolved (policy eng) fill resolved order_state;
  Ok (memo, a).

(** ** [assess_many] *)
Definition order_id : Type := Venue * string * string * string * option string.
Definition order_of (fill : HypotheticalFill) : order_id :=
  (venue (context fill), account (context fill), subaccount (context fill), order_key fill, counterfactual_revision fill).

(** The dictionary of states and the other variables of the loop. *)
Record many := mkMany {
  states : list (order_id * option OrderState); seen : list string; last_time : Z;
  results : list FeeAssessment; memo_of : Memo;
}.

Fixpoint set_state (k : order_id) (o : option OrderState) (l : list (order_id * option OrderState))
    : list (order_id * option OrderState) :=
  match l with
  | [] => [(k, o)]
  | (k', o') :: l => if decide (k' = k) then (k, o) :: l else (k', o') :: set_state k o l
  end.
Definition get_state (k : order_id) (l : list (order_id * option OrderState)) : option (option OrderState) :=
  option_map snd (find (λ e, bool_decide (e.1 = k)) l).

Definition assess_step (eng : FeeEngine) (given : option Resolver) (cutoff : option Z) (m : many) (fill : HypotheticalFill)
    : result many :=
  let key := order_of fill in
  _ ← guard_or (negb ((event_time fill <? last_time m) || bool_decide (identity fill ∈ seen m)))
        (ValueError "duplicate or out-of-order fills");
  _ ← guard_or (negb (new_order fill && is_some (get_state key (states m)))) (ValueError "duplicate new-order declaration");
  '(memo, resolved) ← match given with
    | Some r => '(memo, resolved) ← resolve dumps sha256 r (context fill) (event_time fill) cutoff (memo_of m);
                Ok (memo, Some resolved)
    | None => Ok (memo_of m, None)
    end;
  '(memo, a) ← assess eng fill resolved (default None (get_state key (states m))) memo;
  Ok (mkMany (set_state key a.2 (states m)) (identity fill :: seen m) (event_time fill) (results m ++ [a.1]) memo).

Definition assess_many (eng : FeeEngine) (fills : list HypotheticalFill) (given : option Resolver) (cutoff : option Z)
    (memo : Memo) : result many :=
  _ ← match resolver eng with
      | Some _ => guard_or (negb (is_some given || is_some cutoff)) (ValueError "cannot override constructor-bound snapshot")
      | None => guard_or (is_some given) (TypeError "resolver required for unbound engine")
      end;
  foldR (assess_step eng given cutoff) (mkMany [] [] (-1) [] memo) fills.
End Assess.

(** ** Observed totals *)
Record ObservedTotal := mkTotal { gross : AssetAmount; fee : AssetAmount; net : AssetAmount }.
Record ObservedExecution := mkExecution { execution_id : string; source_identity : string; totals : list ObservedTotal }.

Definition check_total (seen : list Asset) (t : ObservedTotal) : result (list Asset) :=
  let a := amount_asset (gross t) in
  _ ← guard_or (bool_decide (a = amount_asset (fee t)) && bool_decide (amount_asset (fee t) = amount_asset (net t)) &&
                negb (bool_decide (a ∈ seen))) (ValueError "observed asset mismatch or duplicate");
  _ ← guard_or (qeqb (value (amount (gross t)) - value (amount (fee t)))%Qc (value (amount (net t))))
        (ValueError "observed gross/fee/net mismatch");
  Ok (a :: seen).

Definition validate_actual (o : ObservedExecution) : result ObservedExecution :=
  _ ← guard_or (negb (String.eqb (execution_id o) "") && negb (String.eqb (source_identity o) "") &&
                negb (bool_decide (totals o = []))) (ValueError "observed execution with source identity required");
  _ ← foldR check_total [] (totals o);
  Ok o.
