(* ===== verification/FeeEngineProps.v ===== *)
(** * Properties of the fee engine ([src/replay/fees/engine.py])

    Net deltas are exact balances, and a Kalshi order settles on its balance grid with
    nothing of its rounding lost. *)
From stdpp Require Import list strings numbers.
From Stdlib Require Import Qcanon.
From S2P Require Import Prelude Wire Json JobContracts Order Fraction FeeDomain FeeSchedules FeeSchedulesProps FeeEngine.

(** ** Fixed point *)
Definition wf (f : Fixed) : Prop := 0 ≤ scale f ≤ 18 ∧ 0 ≤ atoms f.

(** The value fits 18 decimals. *)
Definition exact18 (q : Qc) : Prop := integral (q * of_Z (pow10 18))%Qc = true.

Lemma value_scaled f k : 0 ≤ scale f ≤ k → (value f * of_Z (pow10 k))%Qc = of_Z (atoms f * pow10 (k - scale f)).
Proof.
  intros H. replace k with (scale f + (k - scale f)) at 1 by lia. rewrite pow10_add, Z2Qc_inj_mul by lia.
  rewrite Qcmult_assoc. unfold value. rewrite ratio_mul by (pose proof (pow10_pos (scale f)); lia).
  by rewrite Z2Qc_inj_mul.
Qed.

Lemma wf_exact f : wf f → exact18 (value f).
Proof. intros [H _]. unfold exact18. rewrite value_scaled by lia. apply integral_of_Z. Qed.

Lemma wf_nonneg f : wf f → (0 ≤ value f)%Qc.
Proof. intros [[H _] Ha]. apply ratio_nonneg; [done|]. by apply pow10_pos. Qed.

Lemma make_fixed_ok a k f : make_fixed a k = Ok f → f = mkFixed a k ∧ wf f.
Proof.
  unfold make_fixed, closed_int. intros H. apply bind_ok in H as (? & _ & H). apply bind_ok in H as (? & _ & H).
  apply bind_ok in H as (? & Hg%guard_or_ok & H). injection H as <-. unfold wf. simpl. split; [done|lia].
Qed.

Lemma exact_ratio v k n : 0 ≤ k → (v * of_Z (pow10 k))%Qc = of_Z n → ratio n (pow10 k) = v.
Proof.
  intros Hk E. unfold ratio. rewrite <- E. apply Qcdiv_mult_l. by apply of_pow10_nonzero.
Qed.

Lemma fixed_ok v k f : fixed v k = Ok f → wf f ∧ value f = v.
Proof.
  unfold fixed, scale_ok. intros H. apply bind_ok in H as (? & Hk%guard_or_ok & H).
  apply bind_ok in H as (? & Hi%guard_or_ok & H). apply make_fixed_ok in H as [-> Hw]. split; [done|].
  unfold value. simpl. apply exact_ratio; [lia|]. by apply integral_iff.
Qed.

Lemma fixed_scale v k f : fixed v k = Ok f → scale f = k.
Proof.
  unfold fixed, scale_ok. intros H. apply bind_ok in H as (? & _ & H). apply bind_ok in H as (? & _ & H).
  by apply make_fixed_ok in H as [-> _].
Qed.

Lemma ceil_grid_ok v k f : ceil_grid v k = Ok f → wf f ∧ scale f = k.
Proof.
  unfold ceil_grid, scale_ok. intros H. apply bind_ok in H as (? & _ & H). by apply make_fixed_ok in H as [-> Hw].
Qed.

(** ** Amounts of the charges *)
Create HintDb fees.
Definition entry_ok (c : FeeCharge) : Prop := wf (amount (charged c)).
Definition acc_ok (s : acc) : Prop := Forall entry_ok (charges s) ∧ Forall entry_ok (rebates s).
Definition keeps {A} (get : A → acc) (m : result A) : Prop := ∀ a, m = Ok a → acc_ok (get a).

Lemma charge_ok c a f e s : acc_ok s → wf f → acc_ok (charge c a f e s).
Proof. intros [Hc Hr] Hf. split; [|done]. apply Forall_app. split; [done|]. by constructor. Qed.
Lemma rebate_ok c a f e s : acc_ok s → wf f → acc_ok (rebate c a f e s).
Proof. intros [Hc Hr] Hf. split; [done|]. apply Forall_app. split; [done|]. by constructor. Qed.

Lemma keeps_acc_bind {A B} (get : B → acc) (m : result A) (k : A → result B) :
  (∀ a, m = Ok a → keeps get (k a)) → keeps get (a ← m; k a).
Proof. intros H b (a & Hm & Hk)%bind_ok. by eapply H. Qed.

Lemma keeps_acc_ok {A} (get : A → acc) a : acc_ok (get a) → keeps get (Ok a).
Proof. by intros H b [= <-]. Qed.
Lemma keeps_acc_err {A} (get : A → acc) e : keeps get (Err e).
Proof. by intros b. Qed.

#[export] Hint Resolve charge_ok rebate_ok keeps_acc_ok keeps_acc_err : fees.

Lemma rounded_ok raw sel r s : acc_ok s → keeps fst (rounded raw sel r s).
Proof.
  intros Hs. unfold rounded. destruct r; repeat case_match; try apply keeps_acc_bind; intros; apply keeps_acc_ok; exact Hs.
Qed.
Lemma rounded_wf raw sel r s s' f : rounded raw sel r s = Ok (s', Some f) → wf f.
Proof.
  unfold rounded. intros H. destruct r; repeat case_match; try done;
    apply bind_ok in H as (g & Hg & H); injection H as <- <-.
  - by apply ceil_grid_ok in Hg as [? _].
  - by apply fixed_ok in Hg as [? _].
Qed.

Lemma rounded_then raw sel r s (g : Fixed → acc → acc) :
  acc_ok s → (∀ f s, acc_ok s → wf f → acc_ok (g f s)) →
  keeps id ('(s, amount) ← rounded raw sel r s; Ok (match amount with Some f => g f s | None => s end)).
Proof.
  intros Hs Hg. apply keeps_acc_bind. intros [s' o] H. apply keeps_acc_ok.
  pose proof (rounded_ok _ _ _ _ Hs _ H) as Hs'. destruct o as [f|]; [|exact Hs'].
  apply Hg; [exact Hs'|by eapply rounded_wf].
Qed.

Lemma validate_ok fill c s : acc_ok s → keeps fst (validate_selection fill c s).
Proof. intros Hs. destruct c; simpl; [apply keeps_acc_bind; intros|]; apply keeps_acc_ok; exact Hs. Qed.

Section Fees.
Context (dumps : json → list Byte.byte) (sha256 : list Byte.byte → string).
Context (policy : Policy) (fill : HypotheticalFill) (order_state : option OrderState) (role : Role).

(** One step of a walk through the branches of a fee. *)
Ltac fee_step :=
  match goal with
  | |- keeps _ (_ ≫= _) => apply keeps_acc_bind; intros ? ?
  | |- keeps _ (Ok _) => apply keeps_acc_ok
  | |- keeps _ (Err _) => apply keeps_acc_err
  | |- keeps _ (if ?b then _ else _) => destruct b eqn:?
  | |- keeps _ (match ?x with _ => _ end) => destruct x eqn:?
  | H : make_fixed _ _ = Ok _ |- _ => apply make_fixed_ok in H as [? ?]
  | H : ceil_grid _ _ = Ok _ |- _ => apply ceil_grid_ok in H as [? ?]
  | H : fixed _ _ = Ok _ |- _ => apply fixed_ok in H as [? ?]
  end.

Lemma configured_limitless_ok s : acc_ok s → keeps id (configured_limitless policy fill s).
Proof. intros Hs. unfold configured_limitless. repeat fee_step; simpl; eauto with fees. Qed.

Lemma kalshi_accumulate_ok t r s : acc_ok s → keeps id (kalshi_accumulate dumps sha256 policy fill order_state t r s).
Proof.
  intros Hs. unfold kalshi_accumulate. apply keeps_acc_bind. intros s' Hs'.
  assert (acc_ok s') as H; [|fee_step; by destruct (include_rounding_refunds policy)].
  match type of Hs' with ?m = _ => assert (keeps id m) as Hk; [|exact (Hk s' Hs')] end.
  repeat fee_step; simpl; eauto with fees.
Qed.

Lemma kalshi_fee_ok kind mult k s : acc_ok s → keeps id (kalshi_fee dumps sha256 policy fill order_state role kind mult k s).
Proof.
  intros Hs. unfold kalshi_fee. repeat fee_step; simpl; eauto with fees;
    apply kalshi_accumulate_ok; eauto with fees.
Qed.

Lemma polymarket_fee_ok sel rate n taker r s : acc_ok s → keeps id (polymarket_fee policy fill role sel rate n taker r s).
Proof.
  intros Hs. unfold polymarket_fee, zero_fixed.
  repeat first [apply (rounded_then _ _ _ _ (λ f, charge PLATFORM _ f EXACT_MODEL)) | fee_step]; simpl; eauto with fees.
Qed.

Lemma limitless_clob_fee_ok sel free s : acc_ok s → keeps id (limitless_clob_fee policy fill role sel free s).
Proof.
  intros Hs. unfold limitless_clob_fee, zero_fixed.
  repeat first [apply configured_limitless_ok | fee_step]; simpl; eauto with fees.
Qed.

Lemma limitless_amm_fee_ok sel rate b r s : acc_ok s → keeps id (limitless_amm_fee fill sel rate b r s).
Proof.
  intros Hs. unfold limitless_amm_fee.
  repeat first [apply (rounded_then _ _ _ _ (λ f, charge PLATFORM _ f EXACT_MODEL)) | fee_step]; simpl; eauto with fees.
Qed.

Lemma model_fee_ok sel s : acc_ok s → keeps id (model_fee dumps sha256 policy fill order_state role sel s).
Proof.
  intros Hs. unfold model_fee, zero_fixed.
  repeat first [apply polymarket_fee_ok | apply kalshi_fee_ok | apply limitless_clob_fee_ok | apply limitless_amm_fee_ok | fee_step];
    simpl; eauto with fees.
Qed.

Lemma platform_fee_ok c s : acc_ok s → keeps id (platform_fee dumps sha256 policy fill order_state role c s).
Proof.
  intros Hs. unfold platform_fee. destruct (unscheduled_limitless _ _ _); [by apply configured_limitless_ok|].
  apply keeps_acc_bind. intros [s' sel] H. apply (validate_ok _ _ _ Hs) in H.
  destruct sel; [by apply model_fee_ok|by apply keeps_acc_ok].
Qed.

Lemma account_rebate_ok c s : acc_ok s → keeps id (account_rebate policy fill role c s).
Proof.
  intros Hs. unfold account_rebate. destruct (_ && _); [|by apply keeps_acc_ok].
  apply keeps_acc_bind. intros [s' sel] H. apply (validate_ok _ _ _ Hs) in H. cbn [fst] in H.
  destruct sel as [sel|]; [|by apply keeps_acc_ok]. destruct (selected_model sel); try (by apply keeps_acc_ok).
  destruct (find _ _) as [base|]; [|by apply keeps_acc_ok]. destruct (bool_decide _); [|by apply keeps_acc_ok].
  apply (rounded_then _ _ _ _ (λ f s, set_basis ACCOUNT_ADJUSTED (rebate ACCOUNT _ f _ s))); [done|].
  intros f t Ht Hf. exact (rebate_ok ACCOUNT _ f _ t Ht Hf).
Qed.
End Fees.

(** ** Balances *)
Definition sumQ (l : list Qc) : Qc := foldr Qcplus 0%Qc l.

Lemma sumQ_cons x l : sumQ (x :: l) = (x + sumQ l)%Qc.
Proof. done. Qed.

Lemma sumQ_app l k : sumQ (l ++ k) = (sumQ l + sumQ k)%Qc.
Proof. induction l as [|x l IH]; simpl; [ring|]. rewrite IH. ring. Qed.

Lemma of_Z_m1 : of_Z (-1) = (- (1))%Qc.
Proof. by apply Qc_is_canon. Qed.

(** The charges of an asset, and what a fill with its charges and rebates does to the
    balance of an asset. *)
Definition in_asset (a : Asset) (l : list FeeCharge) : Qc :=
  sumQ (map (λ c, if decide (amount_asset (charged c) = a) then value (amount (charged c)) else 0%Qc) l).

Definition traded (fill : HypotheticalFill) (a : Asset) : Qc :=
  ((if decide (a = quote (economics fill)) then - signed fill (value (amount (gross_notional fill))) else 0) +
   (if decide (a = outcome (economics fill)) then signed fill (value (quantity fill)) else 0))%Qc.

Definition balance (fill : HypotheticalFill) (charges : list FeeCharge) (rebates : list Rebate) (a : Asset) : Qc :=
  (traded fill a - in_asset a charges + in_asset a rebates)%Qc.

Definition held (a : Asset) (l : list (Asset * Qc)) : Qc := sumQ (map (λ e, if decide (e.1 = a) then e.2 else 0%Qc) l).

Lemma held_cons a e l : held a (e :: l) = ((if decide (e.1 = a) then e.2 else 0) + held a l)%Qc.
Proof. done. Qed.
Lemma held_nil a : held a [] = 0%Qc.
Proof. done. Qed.
Lemma in_asset_cons a c l :
  in_asset a (c :: l) = ((if decide (amount_asset (charged c) = a) then value (amount (charged c)) else 0) + in_asset a l)%Qc.
Proof. done. Qed.
Lemma in_asset_nil a : in_asset a [] = 0%Qc.
Proof. done. Qed.

Lemma add_amount_held a v l b : held b (add_amount a v l) = (held b l + (if decide (a = b) then v else 0))%Qc.
Proof.
  induction l as [|[c w] l IH]; cbn [add_amount].
  - rewrite held_cons, Z2Qc_inj_0. cbn [fst snd]. destruct (decide (a = b)); ring.
  - destruct (decide (c = a)) as [->|Hc]; rewrite !held_cons; cbn [fst snd].
    + destruct (decide (a = b)); ring.
    + rewrite IH. ring.
Qed.

Lemma add_amount_keys a v l x : x ∈ map fst (add_amount a v l) ↔ x = a ∨ x ∈ map fst l.
Proof.
  induction l as [|[c w] l IH]; cbn [add_amount map fst]; [set_solver|].
  destruct (decide (c = a)) as [->|Hc]; cbn [map fst]; set_solver.
Qed.

Lemma add_amount_nodup a v l : NoDup (map fst l) → NoDup (map fst (add_amount a v l)).
Proof.
  induction l as [|[c w] l IH]; cbn [add_amount map fst]; intros Hn; [apply NoDup_singleton|].
  apply NoDup_cons in Hn as [Hc Hn]. destruct (decide (c = a)) as [->|Hca]; cbn [map fst]; apply NoDup_cons; [done|].
  split; [|auto]. rewrite add_amount_keys. intros [->|?]; done.
Qed.

Lemma exact18_add p q : exact18 p → exact18 q → exact18 (p + q)%Qc.
Proof. unfold exact18. intros. rewrite Qcmult_plus_distr_l. by apply integral_add. Qed.
Lemma exact18_opp q : exact18 q → exact18 (- q)%Qc.
Proof.
  unfold exact18. intros. replace (- q * of_Z (pow10 18))%Qc with (- (q * of_Z (pow10 18)))%Qc by ring. by apply integral_opp.
Qed.

Lemma add_amount_exact a v l : exact18 v → Forall (λ e, exact18 e.2) l → Forall (λ e, exact18 e.2) (add_amount a v l).
Proof.
  intros Hv. induction 1 as [|[c w] l Hw Hl IH]; cbn [add_amount].
  - constructor; [|constructor]. apply exact18_add; [by vm_compute|done].
  - destruct (decide (c = a)); constructor; try done. by apply exact18_add.
Qed.

(** What a list of charges adds in one direction. *)
Lemma add_entries o d l st :
  d = 1 ∨ d = -1 → Forall entry_ok l → NoDup (map fst st.1) → Forall (λ e, exact18 e.2) st.1 →
  let st' := foldl (add_entry o d) st l in
  NoDup (map fst st'.1) ∧ Forall (λ e, exact18 e.2) st'.1 ∧
  (∀ a, held a st'.1 = held a st.1 + of_Z d * in_asset a l)%Qc ∧ st'.2 = (st.2 - of_Z d * in_asset o l)%Qc.
Proof.
  intros Hd Hl. revert st. induction Hl as [|c l Hc Hl IH]; intros st Hn He; cbn [foldl].
  { rewrite !in_asset_nil. split_and!; try done; intros; rewrite ?in_asset_nil; ring. }
  assert (exact18 (entry_value d c)) as Hv.
  { apply wf_exact in Hc. unfold entry_value. destruct Hd as [-> | ->].
    - rewrite Z2Qc_inj_1. by rewrite Qcmult_1_l.
    - replace (of_Z (-1) * value (amount (charged c)))%Qc with (- value (amount (charged c)))%Qc; [by apply exact18_opp|].
      rewrite of_Z_m1. ring. }
  destruct (IH (add_entry o d st c)) as (H1 & H2 & H3 & H4); unfold add_entry; cbn [fst snd].
  { by apply add_amount_nodup. }
  { by apply add_amount_exact. }
  split_and!; [done|done| |].
  - intros a. rewrite H3. unfold add_entry. cbn [fst]. rewrite add_amount_held, in_asset_cons.
    unfold entry_value. destruct (decide (amount_asset (charged c) = a)); ring.
  - etrans; [exact H4|]. unfold add_entry. cbn [snd]. rewrite in_asset_cons. unfold entry_value.
    destruct (decide (amount_asset (charged c) = o)); ring.
Qed.

(** A fill as its constructors let it be. *)
Definition fill_ok (f : HypotheticalFill) : Prop :=
  make_fill f = Ok f ∧ make_economics (economics f) = Ok (economics f) ∧
  wf (quantity f) ∧ wf (amount (gross_notional f)) ∧ wf (price f) ∧ wf (probability f).

Lemma quote_not_outcome e : make_economics e = Ok e → quote e ≠ outcome e.
Proof.
  unfold make_economics. intros H. apply bind_ok in H as (? & _ & H). apply bind_ok in H as (? & Hg%guard_or_ok & _).
  intros E. rewrite E in Hg. by destruct (bool_decide _).
Qed.

Lemma net_amounts_spec fill cs rs :
  fill_ok fill → Forall entry_ok cs → Forall entry_ok rs →
  let n := net_amounts fill cs rs in
  NoDup (map fst n.1) ∧ Forall (λ e, exact18 e.2) n.1 ∧ (∀ a, held a n.1 = balance fill cs rs a) ∧
  n.2 = (in_asset (outcome (economics fill)) cs - in_asset (outcome (economics fill)) rs)%Qc.
Proof.
  intros (_ & He & Hq & Hg & _) Hcs Hrs. pose proof (quote_not_outcome _ He) as Hne. unfold net_amounts.
  assert (∀ v, exact18 v → exact18 (signed fill v)) as Hs
    by (intros v Hv; unfold signed; destruct (bool_decide _); [done|by apply exact18_opp]).
  destruct (add_entries (outcome (economics fill)) (-1) cs (trade_amounts fill, of_Z 0)) as (N1 & E1 & H1 & F1);
    [by right|done| | |].
  { unfold trade_amounts. cbn [map fst]. apply NoDup_cons. split; [by intros ?%list_elem_of_singleton|apply NoDup_singleton]. }
  { unfold trade_amounts. repeat constructor; cbn [snd]; [apply exact18_opp|]; by apply Hs, wf_exact. }
  destruct (add_entries (outcome (economics fill)) 1 rs _ (or_introl eq_refl) Hrs N1 E1) as (N2 & E2 & H2 & F2).
  split_and!; [done|done| |].
  - intros a. rewrite H2, H1. unfold balance, traded, trade_amounts. cbn [fst]. rewrite !held_cons, held_nil. cbn [fst snd].
    rewrite Z2Qc_inj_1, of_Z_m1.
    rewrite (decide_ext (a = quote (economics fill)) (quote (economics fill) = a)) by done.
    rewrite (decide_ext (a = outcome (economics fill)) (outcome (economics fill) = a)) by done. ring.
  - rewrite F2, F1. cbn [snd]. rewrite Z2Qc_inj_1, of_Z_m1, Z2Qc_inj_0. ring.
Qed.

(** ** Deltas *)
Definition delta_of (ds : list AssetDelta) (a : Asset) : Qc :=
  sumQ (map (λ d, if decide (delta_asset d = a) then delta_value d else 0%Qc) ds).

Lemma to_delta_exact av d : exact18 av.2 → to_delta av = Ok d → delta_asset d = av.1 ∧ delta_value d = av.2.
Proof.
  unfold exact18, to_delta, make_delta. intros (n & Hn)%integral_exists H. rewrite Hn, truncate_of_Z in H.
  apply bind_ok in H as (? & _ & H). apply bind_ok in H as (? & _ & H). apply bind_ok in H as (? & _ & H).
  injection H as <-. split; [done|]. unfold delta_value. simpl. by apply exact_ratio.
Qed.

Lemma sumQ_perm l k : Permutation l k → sumQ l = sumQ k.
Proof. induction 1; simpl; try congruence; [ring]. Qed.

Lemma held_perm a l k : Permutation l k → held a l = held a k.
Proof. intros H. by apply sumQ_perm, Permutation_map. Qed.

Lemma to_deltas_exact l ds :
  Forall (λ e, exact18 e.2) l → mapR to_delta l = Ok ds →
  map delta_asset ds = map fst l ∧ ∀ a, delta_of ds a = held a l.
Proof.
  intros Hl. revert ds. induction Hl as [|e l He Hl IH]; intros ds H; cbn [mapR] in H.
  { by injection H as <-. }
  apply bind_ok in H as (d & Hd & H). apply bind_ok in H as (ds' & Hds & H). injection H as <-.
  destruct (to_delta_exact _ _ He Hd) as [Ea Ev]. destruct (IH _ Hds) as [Em Eh]. cbn [map]. split; [by rewrite Ea, Em|].
  intros a. rewrite held_cons, <- Eh, <- Ea, <- Ev. done.
Qed.

Section Net.
Context (dumps : json → list Byte.byte) (sha256 : list Byte.byte → string).

Lemma net_of_exact fill cs rs ds pay :
  fill_ok fill → Forall entry_ok cs → Forall entry_ok rs → net_of dumps sha256 fill cs rs = Ok (ds, pay) →
  NoDup (map delta_asset ds) ∧ (∀ a, delta_of ds a = balance fill cs rs a) ∧
  amount_asset pay = amount_asset (payout (economics fill)) ∧
  value (amount pay) = ((in_asset (outcome (economics fill)) cs - in_asset (outcome (economics fill)) rs) *
                        value (amount (payout (economics fill))))%Qc.
Proof.
  intros Hf Hcs Hrs H. destruct (net_amounts_spec fill cs rs Hf Hcs Hrs) as (Hn & He & Hb & Hc).
  unfold net_of in H. destruct (net_amounts fill cs rs) as [amounts contract_fee]. cbn [fst snd] in *.
  apply bind_ok in H as (ds' & Hds & H). apply bind_ok in H as (f & Hpay & H). injection H as <- <-.
  pose proof (sort_by_perm (λ a b : Asset * Qc, leb (identity dumps sha256 a.1) (identity dumps sha256 b.1)) amounts) as Hp.
  apply to_deltas_exact in Hds as [Em Eh]; [|by rewrite Hp].
  split_and!; [by rewrite Em, Hp| |done|].
  - intros a. rewrite Eh, <- Hb. by apply held_perm.
  - cbn [amount]. apply fixed_ok in Hpay as [_ ->]. by rewrite Hc.
Qed.

Lemma assess_parts policy fill resolved order_state a next :
  assess_resolved dumps sha256 policy fill resolved order_state = Ok (a, next) →
  ∃ s1 s2, platform_fee dumps sha256 policy fill order_state (assumed_role policy fill) (platform resolved)
             (initial_acc policy fill resolved) = Ok s1 ∧
    account_rebate policy fill (assumed_role policy fill) (res_account resolved) s1 = Ok s2 ∧
    as_fill a = fill ∧ as_charges a = charges s2 ∧ as_rebates a = rebates s2 ∧ as_unknowns a = unknowns s2 ∧
    next = next_state s2 ∧
    (unknowns s2 ≠ [] ∧ net_deltas a = None ∧ contract_fee_payout_impact a = None ∨
     unknowns s2 = [] ∧ ∃ ds pay, net_of dumps sha256 fill (charges s2) (rebates s2) = Ok (ds, pay) ∧
       net_deltas a = Some ds ∧ contract_fee_payout_impact a = Some pay).
Proof.
  unfold assess_resolved. intros H. apply bind_ok in H as (? & _ & H). apply bind_ok in H as (s1 & H1 & H).
  apply bind_ok in H as (s2 & H2 & H). apply bind_ok in H as (net & Hn & H). injection H as <- <-.
  exists s1, s2. split_and!; [done..|]. destruct (bool_decide (unknowns s2 = [])) eqn:E.
  - apply bool_decide_eq_true in E. right. split; [done|]. apply bind_ok in Hn as ([ds pay] & Hn & [= <-]).
    by exists ds, pay.
  - apply bool_decide_eq_false in E. left. injection Hn as <-. done.
Qed.

Lemma assess_entries policy fill resolved order_state a next :
  assess_resolved dumps sha256 policy fill resolved order_state = Ok (a, next) →
  Forall entry_ok (as_charges a) ∧ Forall entry_ok (as_rebates a).
Proof.
  intros (s1 & s2 & H1 & H2 & _ & -> & -> & _)%assess_parts.
  assert (acc_ok (initial_acc policy fill resolved)) as H0 by (split; constructor).
  pose proof (platform_fee_ok dumps sha256 policy fill order_state _ _ _ H0 s1 H1) as Hs1.
  exact (account_rebate_ok policy fill _ _ _ Hs1 s2 H2).
Qed.

(** C22. The net deltas of an assessment are exact.  An assessment has them exactly when
    nothing of it is unknown.  Then they name each asset once, and the delta of every
    asset, scaled to 18 decimals without truncation, is what the trade moves of it, less
    the charges and plus the rebates in it; the payout impact is the net charge in
    contracts at their payout. *)
Theorem net_deltas_exact policy fill resolved order_state a next :
  fill_ok fill → assess_resolved dumps sha256 policy fill resolved order_state = Ok (a, next) →
  (net_deltas a = None ↔ as_unknowns a ≠ []) ∧
  ∀ ds, net_deltas a = Some ds →
    NoDup (map delta_asset ds) ∧
    (∀ asset, delta_of ds asset = balance fill (as_charges a) (as_rebates a) asset) ∧
    ∃ pay, contract_fee_payout_impact a = Some pay ∧
      value (amount pay) = ((in_asset (outcome (economics fill)) (as_charges a) - in_asset (outcome (economics fill)) (as_rebates a)) *
                            value (amount (payout (economics fill))))%Qc.
Proof.
  intros Hf H. pose proof (assess_entries _ _ _ _ _ _ H) as [Hcs Hrs].
  apply assess_parts in H as (s1 & s2 & _ & _ & _ & Ec & Er & Eu & _ & Hn). rewrite Ec in *. rewrite Er in *. rewrite Eu.
  destruct Hn as [(Hu & -> & _)|(Hu & ds & pay & Hn & -> & ->)]; [by split|].
  split; [split; [done|by rewrite Hu]|]. intros ? [= <-].
  destruct (net_of_exact _ _ _ _ _ Hf Hcs Hrs Hn) as (? & ? & _ & ?). split_and!; [done..|]. by exists pay.
Qed.
End Net.

(** ** Kalshi *)
Section Kalshi.
Context (dumps : json → list Byte.byte) (sha256 : list Byte.byte → string).
Context (policy : Policy) (fill : HypotheticalFill) (order_state : option OrderState) (role : Role).

Definition same_next {A} (get : A → acc) (s : acc) (m : result A) : Prop :=
  ∀ a, m = Ok a → next_state (get a) = next_state s.

Lemma same_next_ok {A} (get : A → acc) s a : next_state (get a) = next_state s → same_next get s (Ok a).
Proof. by intros H b [= <-]. Qed.
Lemma same_next_bind {A B} (get : B → acc) s (m : result A) (k : A → result B) :
  (∀ a, m = Ok a → same_next get s (k a)) → same_next get s (a ← m; k a).
Proof. intros H b (a & Hm & Hk)%bind_ok. by eapply H. Qed.

Lemma rounded_next raw sel r s s' o : rounded raw sel r s = Ok (s', o) → next_state s' = next_state s.
Proof.
  unfold rounded. intros H. repeat case_match; try (by injection H as <- <-);
    apply bind_ok in H as (g & _ & H); by injection H as <- <-.
Qed.

Lemma validate_next c s s' o : validate_selection fill c s = Ok (s', o) →
  next_state s' = next_state s ∧ (∀ sel, o = Some sel → c = Selected sel ∧ s' = s).
Proof.
  unfold validate_selection. intros H. destruct c as [sel|u].
  - apply bind_ok in H as (? & _ & H). injection H as <- <-. split; [done|]. by intros ? [= ->].
  - by injection H as <- <-.
Qed.

(** One step through branches that leave the order state alone. *)
Ltac next_step :=
  match goal with
  | |- same_next _ _ (_ ≫= _) => apply same_next_bind; intros ? ?
  | |- same_next _ _ (Ok _) => apply same_next_ok
  | |- same_next _ _ (Err _) => by intros ?
  | |- same_next _ _ (if ?b then _ else _) => destruct b eqn:?
  | |- same_next _ _ (match ?x with _ => _ end) => destruct x eqn:?
  | H : rounded _ _ _ _ = Ok _ |- _ => apply rounded_next in H
  end.

Lemma rounded_then_next raw sel r s (g : Fixed → acc → acc) :
  (∀ f s, next_state (g f s) = next_state s) →
  same_next id s ('(s, amount) ← rounded raw sel r s; Ok (match amount with Some f => g f s | None => s end)).
Proof.
  intros Hg. apply same_next_bind. intros [s' o] H%rounded_next. apply same_next_ok. simpl.
  destruct o; [by rewrite Hg|done].
Qed.

Lemma configured_limitless_next s : same_next id s (configured_limitless policy fill s).
Proof. unfold configured_limitless. by repeat next_step. Qed.

Lemma account_rebate_next c s : same_next id s (account_rebate policy fill role c s).
Proof.
  unfold account_rebate. destruct (_ && _); [|by repeat next_step]. apply same_next_bind. intros [s' sel] H.
  apply validate_next in H as [Hs _]. intros s2 H2. rewrite <- Hs. revert s2 H2.
  match goal with |- ∀ a, ?m = Ok a → _ => change (same_next id s' m) end.
  repeat first [apply (rounded_then_next _ _ _ _ (λ f s, set_basis ACCOUNT_ADJUSTED (rebate ACCOUNT _ f _ s))); done | next_step]; done.
Qed.

(** Only Kalshi's model writes the order state. *)
Lemma model_fee_next sel s s' next :
  next_state s = None → model_fee dumps sha256 policy fill order_state role sel s = Ok s' → next_state s' = Some next →
  ∃ kind multiplier, kalshi_fee dumps sha256 policy fill order_state role kind multiplier (fee_scale (schedule sel)) s = Ok s'.
Proof.
  intros Hn H Hs'. unfold model_fee in H. destruct (dimensional fill sel); [|by injection H as <-; simpl in Hs'; congruence].
  cbn [negb] in H. destruct (selected_model sel) as [rate n taker r|kind mult|free|rate b r| | | |];
    try (destruct (bool_decide (role = UNKNOWN_ROLE)); [by injection H as <-; simpl in Hs'; congruence|]).
  - assert (same_next id s (polymarket_fee policy fill role sel rate n taker r s)) as Hk.
    { unfold polymarket_fee, zero_fixed. repeat first [apply (rounded_then_next _ _ _ _ (λ f, charge PLATFORM _ f EXACT_MODEL)); done | next_step]; done. }
    apply Hk in H. simpl in H. congruence.
  - eauto.
  - assert (same_next id s (limitless_clob_fee policy fill role sel free s)) as Hk.
    { unfold limitless_clob_fee, zero_fixed. repeat next_step; first [done | apply configured_limitless_next]. }
    apply Hk in H. simpl in H. congruence.
  - assert (same_next id s (limitless_amm_fee fill sel rate b r s)) as Hk.
    { unfold limitless_amm_fee. repeat first [apply (rounded_then_next _ _ _ _ (λ f, charge PLATFORM _ f EXACT_MODEL)); done | next_step]; done. }
    apply Hk in H. simpl in H. congruence.
  - injection H as <-. simpl in Hs'. congruence.
  - injection H as <-. simpl in Hs'. congruence.
  - destruct (bool_decide _); [injection H as <-; simpl in Hs'; congruence|].
    apply bind_ok in H as (z & _ & H). injection H as <-. simpl in Hs'. congruence.
  - injection H as <-. simpl in Hs'. congruence.
Qed.

Lemma platform_fee_next c s s' next :
  next_state s = None → platform_fee dumps sha256 policy fill order_state role c s = Ok s' → next_state s' = Some next →
  ∃ sel kind multiplier, kalshi_fee dumps sha256 policy fill order_state role kind multiplier (fee_scale (schedule sel)) s = Ok s'.
Proof.
  intros Hn H Hs'. unfold platform_fee in H. destruct (unscheduled_limitless _ _ _).
  { apply configured_limitless_next in H. simpl in H. congruence. }
  apply bind_ok in H as ([s1 sel] & Hv & H). apply validate_next in Hv as [Hs1 Hv].
  destruct sel as [sel|]; [|injection H as <-; congruence]. destruct (Hv sel eq_refl) as [_ ->].
  destruct (model_fee_next _ _ _ _ Hn H Hs') as (kind & mult & Hk). by exists sel, kind, mult.
Qed.

(** What the fill leaves, the trade fee being [t] and the rounding [r]. *)
Definition given_back (t r : Qc) : Qc :=
  (kalshi_grid policy * of_Z (Z.min (floordiv (previous order_state + r) (kalshi_grid policy))
                                    (floordiv (t + r) (kalshi_grid policy))))%Qc.

Lemma kalshi_fee_spec kind multiplier k s s' next :
  next_state s = None →
  kalshi_fee dumps sha256 policy fill order_state role kind multiplier k s = Ok s' → next_state s' = Some next →
  ∃ trade f, wf trade ∧ value f = kalshi_rounding policy fill (value trade) ∧
    charges s' = charges s ++ [mkCharge PLATFORM (mkAmount (quote (economics fill)) trade) EXACT_MODEL;
                               mkCharge ROUNDING (mkAmount (quote (economics fill)) f) EXACT_MODEL] ∧
    wf (carry next) ∧ value (carry next) = (previous order_state + value f - given_back (value trade) (value f))%Qc ∧
    (include_rounding_refunds policy = true →
       ∃ g, value g = given_back (value trade) (value f) ∧
         rebates s' = rebates s ++ [mkCharge ROUNDING (mkAmount (quote (economics fill)) g) EXACT_MODEL]).
Proof.
  intros Hn H Hs'. unfold kalshi_fee in H.
  destruct kind as [kind|], multiplier as [m|]; try (destruct kind); try (injection H as <-; simpl in Hs'; congruence);
    (destruct (k =? 6); [|injection H as <-; simpl in Hs'; congruence]); cbn [negb] in H;
    apply bind_ok in H as (? & _ & H); apply bind_ok in H as (trade & Ht & H); apply bind_ok in H as (f & Hf & H);
    apply ceil_grid_ok in Ht as [Ht _]; apply fixed_ok in Hf as [_ Hf]; exists trade, f;
    (split; [done|]; split; [done|]); rewrite <- Hf in H;
    unfold kalshi_accumulate in H; apply bind_ok in H as (s2 & H2 & H);
    (destruct (state_ok dumps sha256 policy fill order_state);
      [|destruct (include_rounding_refunds policy); injection H2 as <-; injection H as <-; simpl in Hs'; congruence]);
    apply bind_ok in H2 as (left & Hl & H2); apply bind_ok in H2 as (nx & Hnx & H2);
    apply fixed_ok in Hl as [Hlw Hl];
    unfold state_after, make_order_state in Hnx; apply bind_ok in Hnx as (? & _ & Hnx);
    apply bind_ok in Hnx as (? & _ & Hnx); injection Hnx as <-;
    (destruct (include_rounding_refunds policy);
      [|injection H2 as <-; injection H as <-; simpl in Hs'; injection Hs' as <-;
        cbn [charges rebates assume set_next charge carry]; rewrite <- app_assoc; split_and!; done]).
  all: apply bind_ok in H2 as (g & Hg & H2); apply fixed_ok in Hg as [_ Hg]; injection H2 as <-; injection H as <-;
    simpl in Hs'; injection Hs' as <-.
  all: cbn [charges rebates rebate set_next charge carry]; rewrite <- app_assoc; split_and!; try done.
  all: intros _; by exists g.
Qed.
End Kalshi.

(** ** Orders *)
Lemma kalshi_grid_pos policy : (0 < kalshi_grid policy)%Qc.
Proof. unfold kalshi_grid, kalshi_grid_scale. by destruct (bool_decide _). Qed.

Lemma given_back_bounds policy order_state t r :
  (0 ≤ previous order_state + r)%Qc → (0 ≤ t + r)%Qc →
  (0 ≤ given_back policy order_state t r ≤ t + r)%Qc ∧ multiple (kalshi_grid policy) (given_back policy order_state t r).
Proof.
  intros Ha Ht. pose proof (kalshi_grid_pos policy) as Hg. unfold given_back. split; [|by eexists].
  pose proof (floordiv_nonneg _ _ Ha Hg). pose proof (floordiv_nonneg _ _ Ht Hg). split.
  - apply Qcmult_nonneg_nonneg; [by apply Qclt_le_weak|]. apply (proj1 (of_Z_nonneg _)). lia.
  - destruct (floordiv_bounds (t + r)%Qc _ Hg) as [Hb _]. etrans; [|exact Hb]. rewrite Qcmult_comm.
    apply Qcmult_le_compat_r; [|by apply Qclt_le_weak]. apply (proj1 (Z2Qc_inj_le _ _)). lia.
Qed.

(** The entries of one component. *)
Definition in_component (c : Component) (l : list FeeCharge) : Qc :=
  sumQ (map (λ e, if decide (component e = c) then value (amount (charged e)) else 0%Qc) l).
Definition total (l : list FeeCharge) : Qc := sumQ (map (λ e, value (amount (charged e))) l).

(** Consecutive assessments of one order on Kalshi, each from the state the one before left. *)
Inductive order_run dumps sha256 (policy : Policy) : option OrderState → list FeeAssessment → option OrderState → Prop :=
| run_done st : order_run dumps sha256 policy st [] st
| run_step st fill resolved a next l last :
    fill_ok fill → venue (context fill) = KALSHI →
    assess_resolved dumps sha256 policy fill resolved st = Ok (a, Some next) →
    order_run dumps sha256 policy (Some next) l last →
    order_run dumps sha256 policy st (a :: l) last.

(** The assessment settles on the balance grid, and gives no more than it takes. *)
Definition settles (policy : Policy) (a : FeeAssessment) : Prop :=
  multiple (kalshi_grid policy) (balance (as_fill a) (as_charges a) (as_rebates a) (quote (economics (as_fill a)))) ∧
  (0 ≤ in_component ROUNDING (as_charges a) < kalshi_grid policy)%Qc ∧
  (0 ≤ total (as_rebates a) ≤ total (as_charges a))%Qc.

Lemma account_rebate_elsewhere policy fill role c s :
  venue (context fill) = KALSHI → account_rebate policy fill role c s = Ok s.
Proof. intros E. unfold account_rebate. rewrite E, (bool_decide_false (KALSHI = POLYMARKET)) by done. by rewrite andb_false_r. Qed.

Lemma kalshi_step dumps sha256 policy fill resolved st a next :
  include_rounding_refunds policy = true → fill_ok fill → venue (context fill) = KALSHI →
  (0 ≤ previous st)%Qc → assess_resolved dumps sha256 policy fill resolved st = Ok (a, Some next) →
  wf (carry next) ∧ settles policy a ∧
  (previous st + in_component ROUNDING (as_charges a) = in_component ROUNDING (as_rebates a) + value (carry next))%Qc.
Proof.
  intros Hp Hf Hv Hst H. apply assess_parts in H as (s1 & s2 & H1 & H2 & Ef & Ec & Er & _ & En & _).
  rewrite account_rebate_elsewhere in H2 by done. injection H2 as <-.
  apply platform_fee_next with (next := next) in H1 as (sel & kind & mult & H1); [|done|done].
  apply kalshi_fee_spec with (next := next) in H1 as (trade & f & Ht & Ef' & Hc & Hcw & Hcv & Hr); [|done|done].
  destruct (Hr Hp) as (g & Hg & Hrs). cbn [initial_acc charges rebates app] in Hc, Hrs.
  unfold settles. rewrite Ef, Ec, Er, Hc, Hrs.
  pose proof (kalshi_grid_pos policy) as Hgrid. pose proof (wf_nonneg _ Ht) as Ht0.
  assert (0 ≤ value f < kalshi_grid policy)%Qc as Hf0 by (rewrite Ef'; apply above_grid, Hgrid).
  destruct (given_back_bounds policy st (value trade) (value f)) as [Hb Hm];
    [apply Qcplus_nonneg_nonneg; [done|apply Hf0]..|].
  rewrite <- Hg in Hb, Hm, Hcv. split; [done|].
  unfold in_component, total, balance, traded, in_asset. cbn [map foldr sumQ component charged amount amount_asset].
  rewrite !(decide_True (P := quote (economics fill) = quote (economics fill))) by done.
  rewrite (decide_False (P := quote (economics fill) = outcome (economics fill))) by apply quote_not_outcome, (proj1 (proj2 Hf)).
  rewrite !(decide_True (P := ROUNDING = ROUNDING)), (decide_False (P := PLATFORM = ROUNDING)) by done.
  split_and!.
  - rewrite Ef'. unfold kalshi_rounding.
    set (change := ((if bool_decide (side fill = BUY) then - value (amount (gross_notional fill))
                     else value (amount (gross_notional fill))) - value trade)%Qc).
    assert ((- signed fill (value (amount (gross_notional fill))) - value trade = change)%Qc) as E.
    { unfold change, signed. destruct (bool_decide _); ring. }
    replace (- signed fill (value (amount (gross_notional fill))) + 0 -
      (value trade + (change - of_Z (floordiv change (kalshi_grid policy)) * kalshi_grid policy + 0)) + (value g + 0))%Qc
      with (kalshi_grid policy * of_Z (floordiv change (kalshi_grid policy)) + value g)%Qc by (rewrite <- E; ring).
    apply multiple_add; [by eexists|done].
  - replace (0 + (value f + 0))%Qc with (value f) by ring. apply Hf0.
  - replace (0 + (value f + 0))%Qc with (value f) by ring. apply Hf0.
  - replace (value g + 0)%Qc with (value g) by ring. apply Hb.
  - replace (value g + 0)%Qc with (value g) by ring. replace (value trade + (value f + 0))%Qc with (value trade + value f)%Qc by ring. apply Hb.
  - rewrite Hcv. ring.
Qed.

(** C11. A Kalshi order settles on its balance grid and none of its rounding is lost.  Over
    consecutive assessments of one order under a policy that includes rounding refunds,
    every fill moves the quote balance by a multiple of the member's grid, its rounding
    charge is less than one grid step, and its refund does not exceed its charges; and
    the rounding charged over the whole order is what was refunded plus what the last
    state still carries. *)
Theorem kalshi_order_settles dumps sha256 policy l last :
  include_rounding_refunds policy = true → order_run dumps sha256 policy None l last →
  Forall (settles policy) l ∧
  sumQ (map (λ a, in_component ROUNDING (as_charges a)) l) =
    (sumQ (map (λ a, in_component ROUNDING (as_rebates a)) l) + previous last)%Qc.
Proof.
  intros Hp Hrun.
  assert (∀ st l last, order_run dumps sha256 policy st l last → (0 ≤ previous st)%Qc →
    Forall (settles policy) l ∧
    (previous st + sumQ (map (λ a, in_component ROUNDING (as_charges a)) l) =
     sumQ (map (λ a, in_component ROUNDING (as_rebates a)) l) + previous last)%Qc) as Hgen.
  { clear - Hp. induction 1 as [st|st fill resolved a next l last Hf Hv Ha Hl IH]; intros Hst; cbn [map].
    - split; [constructor|]. cbn [sumQ foldr]. ring.
    - destruct (kalshi_step _ _ _ _ _ _ _ _ Hp Hf Hv Hst Ha) as (Hw & Hs & E).
      destruct IH as [IHs IHe]; [by apply wf_nonneg|]. split; [by constructor|].
      cbn [previous] in IHe. rewrite !sumQ_cons, Qcplus_assoc, E, <- Qcplus_assoc, IHe. ring. }
  destruct (Hgen _ _ _ Hrun) as [Hs E]; [cbn [previous]; by rewrite Z2Qc_inj_0|]. split; [done|].
  cbn [previous] in E. rewrite Z2Qc_inj_0, Qcplus_0_l in E. exact E.
Qed.

(** ** Two demonstrations *)
(** Ten contracts bought at 0.4 under a rate of 0.02: the fee is 0.048. *)
Definition demo_buy : HypotheticalFill :=
  mkFill "fill" demo_context demo_economics BUY (mkFixed 4 1) (mkFixed 4 1) (mkFixed 10 0) (mkAmount demo_usdc (mkFixed 4 0))
    50 TAKER "order" 0 true None None.

Ltac by_computation := vm_compute; reflexivity.

Lemma demo_buy_ok : fill_ok demo_buy.
Proof. unfold fill_ok, wf. split_and!; try by_computation; by vm_compute. Qed.

Lemma net_deltas_exact_witness :
  ∃ res a next ds, _compute demo_dumps demo_digest demo_resolver demo_context 50 None = Ok res ∧
    assess_resolved demo_dumps demo_digest default_policy demo_buy res None = Ok (a, next) ∧
    net_deltas a = Some ds ∧ delta_of ds demo_usdc = ratio (-4048) 1000 ∧
    delta_of ds demo_usdc = balance demo_buy (as_charges a) (as_rebates a) demo_usdc.
Proof.
  assert ((res ← _compute demo_dumps demo_digest demo_resolver demo_context 50 None;
    r ← assess_resolved demo_dumps demo_digest default_policy demo_buy res None;
    match net_deltas r.1 with
    | Some ds => Ok (bool_decide (delta_of ds demo_usdc = ratio (-4048) 1000))
    | None => Err KeyError
    end) = Ok true) as H by by_computation.
  apply bind_ok in H as (res & Hres & H). apply bind_ok in H as ([a next] & Ha & H). cbn [fst] in H. destruct (net_deltas a) as [ds|] eqn:Ed; [|done].
  apply Ok_inj, bool_decide_eq_true in H. exists res, a, next, ds. split_and!; [exact Hres|exact Ha|done|exact H|].
  destruct (net_deltas_exact demo_dumps demo_digest _ _ _ _ _ _ demo_buy_ok Ha) as [_ Hd].
  apply (Hd ds Ed).
Defined.

(** Two fills of one order on Kalshi, with refunds. *)
Definition demo_usd : Asset := mkAsset USD "kalshi" "usd".
Definition demo_contract : Asset := mkAsset OUTCOME "kalshi" "yes".
Definition demo_usd_economics : InstrumentEconomics :=
  mkEconomics demo_usd demo_contract (mkAmount demo_usd (mkFixed 1 0)) 6 2 2.
Definition demo_kalshi_context : FeeContext :=
  mkContext KALSHI CLOB "market" None None None "yes" "outcome" "account" "main" UNKNOWN_CLASS (mkBuilder ABSENT None).
Definition demo_kalshi_fill (id : string) (quantity notional t i : Z) : HypotheticalFill :=
  mkFill id demo_kalshi_context demo_usd_economics BUY (mkFixed 37 2) (mkFixed 37 2) (mkFixed quantity 2)
    (mkAmount demo_usd (mkFixed notional 4)) t TAKER "order" i (i =? 0) None None.
Definition demo_kalshi_schedule : Schedule :=
  mkSchedule PLATFORM (mkScope KALSHI CLOB None None None None None None None None None) demo_usd_economics demo_usd 6
    (Kalshi (Some QUADRATIC) (Some (mkFixed 1 0))) [demo_source] (Some 0) None (Some "docs"%string) "1" "1" [].
Definition demo_kalshi_resolved (t : Z) : result ResolvedScheduleSet :=
  _compute demo_dumps demo_digest (mkResolver (mkCatalog [demo_kalshi_schedule] "component-scope-v1") None)
    demo_kalshi_context t None.
Definition demo_refunds : Policy := mkPolicy "refunds" false true true NON_DIRECT true 300 150.
Definition demo_first : HypotheticalFill := demo_kalshi_fill "first" 1050 38850 10 0.
Definition demo_second : HypotheticalFill := demo_kalshi_fill "second" 333 12321 20 1.

Lemma demo_kalshi_fills_ok : fill_ok demo_first ∧ fill_ok demo_second.
Proof. unfold fill_ok, wf. split_and!; try by_computation; by vm_compute. Qed.

Lemma kalshi_order_settles_witness :
  ∃ a1 a2 last, order_run demo_dumps demo_digest demo_refunds None [a1; a2] (Some last) ∧
    Forall (settles demo_refunds) [a1; a2] ∧
    sumQ (map (λ a, in_component ROUNDING (as_charges a)) [a1; a2]) =
      (sumQ (map (λ a, in_component ROUNDING (as_rebates a)) [a1; a2]) + value (carry last))%Qc.
Proof.
  assert ((s1 ← demo_kalshi_resolved 10; r1 ← assess_resolved demo_dumps demo_digest demo_refunds demo_first s1 None;
    s2 ← demo_kalshi_resolved 20; r2 ← assess_resolved demo_dumps demo_digest demo_refunds demo_second s2 r1.2;
    match r1.2, r2.2 with Some _, Some _ => Ok () | _, _ => Err KeyError end) = Ok ()) as H by by_computation.
  apply bind_ok in H as (s1 & _ & H). apply bind_ok in H as ([a1 o1] & H1 & H).
  apply bind_ok in H as (s2 & _ & H). apply bind_ok in H as ([a2 o2] & H2 & H). cbn [snd] in H, H2.
  destruct o1 as [n1|]; [|done]. destruct o2 as [n2|]; [|done].
  destruct demo_kalshi_fills_ok as [F1 F2].
  assert (order_run demo_dumps demo_digest demo_refunds None [a1; a2] (Some n2)) as Hrun.
  { eapply run_step; [exact F1|reflexivity|exact H1|]. eapply run_step; [exact F2|reflexivity|exact H2|constructor]. }
  exists a1, a2, n2. split; [exact Hrun|].
  exact (kalshi_order_settles demo_dumps demo_digest demo_refunds [a1; a2] (Some n2) eq_refl Hrun).
Defined.
