(* ===== verification/FeeBridge.v ===== *)
(** * The fee bridge ([src/replay/strategies/_shared/fee_bridge.py])

    Ladder fills of a basket become hypothetical fills of one order per leg, are
    assessed by the fee engine, and their native deltas become the net gap of the
    basket.  Reading the bridge's configuration and catalog files is not modelled: a
    bridge is its engine, its venue assets and its instrument bindings. *)
From stdpp Require Import list strings numbers.
From Stdlib Require Import Qcanon.
From S2P Require Import Prelude Wire EconomicFills JobContracts Order Fraction FeeDomain FeeSchedules FeeEngine.

(** ** Canonical forms of results *)
#[global] Instance value_Basis : FeeValue Basis := λ b,
  FEnum "Basis" match b with GROSS => "gross" | BASE_TAKER => "base_taker" | MAKER_BASIS => "maker"
                           | ACCOUNT_ADJUSTED => "account_adjusted" end.
Definition evidence_name (e : Evidence) : string :=
  match e with ACTUAL_OBSERVED => "actual_observed" | EXACT_MODEL => "exact_model" | ESTIMATE => "estimate"
             | CONDITIONAL_BOUND => "conditional_conservative_bound" | UNKNOWN_EVIDENCE => "unknown" end.
#[global] Instance value_Evidence : FeeValue Evidence := λ e, FEnum "Evidence" (evidence_name e).
Definition charge_as (cls : string) (c : FeeCharge) : fval :=
  FData cls [("component", to_value (component c)); ("amount", to_value (charged c)); ("evidence", to_value (charge_evidence c))].

Definition reason_name (r : UnknownReason) : string :=
  match r with
  | MISSING => "missing_schedule" | HISTORY => "unknown_effective_history" | CONFLICT => "equal_priority_conflict"
  | UNSUPPORTED => "unsupported_model" | BUILDER_REASON => "unknown_builder" | ACCOUNT_REASON => "unknown_account_class"
  | STATE => "incomplete_order_state" | ROUNDING_REASON => "unknown_rounding" | DIMENSIONS => "unsupported_dimensions"
  end.
Definition component_name (c : Component) : string :=
  match c with PLATFORM => "platform" | BUILDER => "builder" | ROUNDING => "rounding" | ACCOUNT => "account" end.
#[global] Instance value_UnknownSchedule : FeeValue UnknownSchedule := λ u,
  FData "UnknownSchedule" [("component", to_value (unknown_component u)); ("reason", FEnum "UnknownReason" (reason_name (reason u)));
                           ("candidates", to_value (candidates u))].
#[global] Instance value_Selection : FeeValue Selection := λ s,
  FData "Selection" [("schedule", to_value (schedule s)); ("model", to_value (selected_model s)); ("dependencies", to_value (dependencies s))].
#[global] Instance value_Choice : FeeValue Choice := λ c, match c with Selected s => to_value s | Unknown u => to_value u end.
#[global] Instance value_Resolved : FeeValue ResolvedScheduleSet := λ r,
  FData "ResolvedScheduleSet" [("context", to_value (res_context r)); ("event_time", FInt (res_event_time r));
    ("knowledge_cutoff", to_value (knowledge_cutoff r)); ("catalog_identity", FStr (catalog_identity r));
    ("platform", to_value (platform r)); ("builder", to_value (res_builder r)); ("account", to_value (res_account r));
    ("next_boundary", to_value (next_boundary r)); ("reference_time", to_value (res_reference_time r));
    ("snapshot_identity", to_value (snapshot_identity r))].
#[global] Instance value_AssetDelta : FeeValue AssetDelta := λ d,
  FData "AssetDelta" [("asset", to_value (delta_asset d)); ("atoms", FInt (delta_atoms d)); ("scale", FInt (delta_scale d))].
#[global] Instance value_OrderState : FeeValue OrderState := λ o,
  FData "OrderState" [("account", FStr (os_account o)); ("subaccount", FStr (os_subaccount o)); ("order_key", FStr (os_order_key o));
    ("asset", to_value (os_asset o)); ("grid_scale", FInt (grid_scale o)); ("last_fill_index", FInt (last_fill_index o));
    ("last_event_time", FInt (last_event_time o)); ("carry", fixed_as "Fixed" (carry o)); ("policy_identity", FStr (policy_identity o));
    ("venue", to_value (os_venue o)); ("product", to_value (os_product o)); ("market", FStr (os_market o));
    ("instrument", FStr (os_instrument o)); ("orientation", FStr (os_orientation o)); ("outcome", to_value (os_outcome o));
    ("side", to_value (os_side o)); ("counterfactual_revision", to_value (os_revision o))].
#[global] Instance value_FeeAssessment : FeeValue FeeAssessment := λ a,
  FData "FeeAssessment" [("fill", to_value (as_fill a)); ("resolved", to_value (as_resolved a)); ("policy", to_value (as_policy a));
    ("basis", to_value (as_basis a)); ("evidence", to_value (as_evidence a)); ("charges", FTuple (map (charge_as "FeeCharge") (as_charges a)));
    ("rebates", FTuple (map (charge_as "Rebate") (as_rebates a))); ("unknowns", to_value (as_unknowns a));
    ("net_deltas", to_value (net_deltas a)); ("contract_fee_payout_impact", to_value (contract_fee_payout_impact a));
    ("assumptions", to_value (as_assumptions a)); ("exclusions", to_value (as_exclusions a));
    ("prior_order_state", to_value (prior_order_state a)); ("engine_version", FStr "fee-engine-v1")].

(** ** The bridge *)
Definition leg_key : Type := string * string.

Record FeeBridge := mkFeeBridge {
  _engine : FeeEngine; _assets : list (string * Asset); _bindings : list (leg_key * InstrumentEconomics);
}.

Record Leg := mkLeg {
  market_id : string; key : leg_key; leg_fill : Fill; leg_price_scale : Z; leg_quantity_scale : Z; leg_side : string;
}.

(** The scenario of a basket: the arguments that [assess] passes on. *)
Record Scenario := mkScenario {
  experiment : string; sc_scope : Z; basket : json; direction : string; size : Z; time : Z; sequence : Z; legs : list Leg;
}.

Definition before_colon (s : string) : string :=
  match split_colon (chars s) with Some (a, _) => String.string_of_list_ascii a | None => s end.
(** [s.removeprefix(prefix)]. *)
Definition removeprefix (prefix s : string) : string :=
  if String.prefix prefix s then String.substring (String.length prefix) (String.length s - String.length prefix) s else s.

Definition lookup {K V} `{EqDecision K} (k : K) (l : list (K * V)) : option V :=
  option_map snd (find (λ e, bool_decide (e.1 = k)) l).

Definition venue_of (name : string) : result Venue :=
  if String.eqb name "polymarket" then Ok POLYMARKET else if String.eqb name "kalshi" then Ok KALSHI
  else if String.eqb name "limitless" then Ok LIMITLESS else Err (ValueError "unsupported leg venue").

Definition side_of_direction (d : string) : result Side :=
  if String.eqb d "BUY" then Ok BUY else if String.eqb d "SELL" then Ok SELL else Err (ValueError "invalid fee scenario").

(** [f"..."] of a key. *)
Definition missing_reason (k : leg_key) : string := "missing_fee_binding_or_asset:" +:+ k.1 +:+ ":" +:+ k.2.

Definition bound_economics (b : FeeBridge) (k : leg_key) : option InstrumentEconomics :=
  if is_some (lookup (before_colon k.1) (_assets b)) then lookup k (_bindings b) else None.

Section Bridge.
Context (dumps : json → list Byte.byte) (sha256 : list Byte.byte → string).

Definition order_material (sc : Scenario) (k : leg_key) : json :=
  JObj [("experiment", JStr (experiment sc)); ("scope", JInt (sc_scope sc)); ("basket", basket sc);
        ("direction", JStr (direction sc)); ("size", JInt (size sc)); ("key", JArr [JStr k.1; JStr k.2]);
        ("time", JInt (time sc)); ("sequence", JInt (sequence sc))].

(** One level of a ladder fill, as a fill of the order. *)
Definition hypothetical (sc : Scenario) (account order_key : string) (leg : Leg) (v : Venue) (side : Side)
    (e : InstrumentEconomics) (index : Z) (level : Z * Z) : result HypotheticalFill :=
  price ← make_fixed level.1 (price_scale e);
  quantity ← make_fixed level.2 (quantity_scale e);
  notional ← match fixed (value price * value quantity)%Qc (quote_scale e) with
             | Ok f => Ok f
             | Err _ => Err (Raised "FeeEconomicsUnavailable" "fill notional is not exactly representable")
             end;
  let name := before_colon (key leg).1 +:+ ":" in
  c ← make_context (mkContext v CLOB (removeprefix name (market_id leg)) None None None (removeprefix name (key leg).1)
         (key leg).2 account "hypothetical" UNKNOWN_CLASS (mkBuilder ABSENT None));
  p ← make_probability level.1 (price_scale e);
  make_fill (mkFill (order_key +:+ ":" +:+ str_int index) c e side price p quantity (mkAmount (quote e) notional)
    (time sc) TAKER order_key index (index =? 0) None (Some order_key)).

Fixpoint enumerate {A} (i : Z) (l : list A) : list (Z * A) :=
  match l with [] => [] | a :: l => (i, a) :: enumerate (i + 1) l end.

(** The loop state: what is prepared, the reasons, and the resolver's memo. *)
Definition Prepared : Type := list (option (InstrumentEconomics * list FeeAssessment)) * list string * Memo.

Definition assess_leg (b : FeeBridge) (sc : Scenario) (account : string) (side : Side) (st : Prepared) (leg : Leg) : result Prepared :=
  let '(prepared, reasons, memo) := st in
  _ ← guard_or (String.eqb (leg_side leg) (direction sc)) (ValueError "closed leg with scenario side required");
  match bound_economics b (key leg) with
  | None => Ok (prepared ++ [None], reasons ++ [missing_reason (key leg)], memo)
  | Some e =>
      _ ← guard_or ((leg_price_scale leg =? price_scale e) && (leg_quantity_scale leg =? quantity_scale e))
            (ValueError "leg scales conflict with binding");
      v ← venue_of (before_colon (key leg).1);
      let order_key := sha256 (dumps (order_material sc (key leg))) in
      fills ← mapR (λ il, hypothetical sc account order_key leg v side e il.1 il.2) (enumerate 0 (taken (leg_fill leg)));
      m ← assess_many dumps sha256 (_engine b) fills None None memo;
      Ok (prepared ++ [Some (e, results m)], reasons, memo_of m)
  end.

Definition assess_orders (b : FeeBridge) (sc : Scenario) (account : string) (memo : Memo) : result Prepared :=
  side ← side_of_direction (direction sc);
  _ ← guard_or (negb (bool_decide (length (legs sc) = 0%nat))) (ValueError "invalid fee scenario");
  foldR (assess_leg b sc account side) ([], [], memo) (legs sc).

(** ** The gap *)
Record BridgeResult := mkBridgeResult {
  gap_net : option Z; fee_status : string; br_assessments : list (list string); br_reasons : list string;
  br_assumptions : list string; br_evidence : list string;
}.

Definition sorted_set (l : list string) : list string := sorted (remove_dups l).

Definition _result (gap : option Z) (status : string) (assessments : list (list string)) (reasons : list string)
    (rs : list FeeAssessment) : BridgeResult :=
  mkBridgeResult gap status assessments reasons
    (sorted_set ("PER_LEVEL_DECLARED_PARTITION_ESTIMATE" :: (rs ≫= as_assumptions)))
    (sorted_set (map (λ r, evidence_name (as_evidence r)) rs)).
Definition _unknown (reasons : list string) (assessments : list (list string)) (rs : list FeeAssessment) : BridgeResult :=
  _result None "UNKNOWN" assessments (sorted_set reasons) rs.

Definition _scale_18 (atoms scale : Z) : Z := atoms * 10 ^ (18 - scale).

(** One delta: to the basket's quote balance, to the leg's outcome balance, or [None]. *)
Definition add_delta (q o : Asset) (acc : option (Z * Z)) (d : AssetDelta) : option (Z * Z) :=
  '(quote_delta, outcome_delta) ← acc;
  if decide (delta_asset d = q) then Some (quote_delta + _scale_18 (delta_atoms d) (delta_scale d), outcome_delta)
  else if decide (delta_asset d = o) then Some (quote_delta, outcome_delta + _scale_18 (delta_atoms d) (delta_scale d))
  else None.

Definition add_leg (q : Asset) (acc : option (Z * list Z)) (p : InstrumentEconomics * list FeeAssessment) : option (Z * list Z) :=
  '(quote_delta, received) ← acc;
  '(quote_delta, outcome_delta) ← foldl (add_delta q (outcome p.1)) (Some (quote_delta, 0))
                                    (p.2 ≫= λ r, default [] (net_deltas r));
  Some (quote_delta, received ++ [outcome_delta]).

Definition min_of (l : list Z) : Z := match l with [] => 0 | x :: l => foldl Z.min x l end.

Definition fee_reason (u : UnknownSchedule) : string :=
  "fee_sdk:" +:+ component_name (unknown_component u) +:+ ":" +:+ reason_name (reason u).

(** [assess] once every leg is prepared. *)
Definition gap_of (sc : Scenario) (prepared : list (InstrumentEconomics * list FeeAssessment)) : BridgeResult :=
  let assessments := map (λ p : InstrumentEconomics * list FeeAssessment, map (identity dumps sha256) p.2) prepared in
  let all_results := prepared ≫= snd in
  let unknowns := all_results ≫= as_unknowns in
  if negb (bool_decide (unknowns = [])) || existsb (λ r, negb (is_some (net_deltas r))) all_results then
    _unknown (if bool_decide (unknowns = []) then ["fee_sdk:missing_net_deltas"] else map fee_reason unknowns) assessments all_results
  else
    match prepared with
    | [] => _unknown [] assessments all_results
    | (e, _) :: _ =>
        match foldl (add_leg (quote e)) (Some (0, [])) prepared with
        | None => _unknown ["unexpected_asset_delta"] assessments all_results
        | Some (quote_delta, received) =>
            if String.eqb (direction sc) "BUY" then
              _result (Some (quote_delta + min_of received)) "KNOWN" assessments [] all_results
            else if existsb (λ v, v <? - (size sc * 10 ^ 18)) received then
              _unknown ["outcome_debit_exceeds_supplied_set"] assessments all_results
            else _result (Some (quote_delta - size sc * 10 ^ 18)) "KNOWN" assessments [] all_results
        end
    end.

Definition bridge_assess (b : FeeBridge) (sc : Scenario) (memo : Memo) : result (Memo * BridgeResult) :=
  '(prepared, reasons, memo) ← assess_orders b sc "same_venue_complement_v1" memo;
  Ok (memo, match reasons with
            | _ :: _ => _unknown reasons (map (λ _, []) (legs sc)) []
            | [] => gap_of sc (omap id prepared)
            end).
End Bridge.
