(* ===== verification/FeeBridgeProps.v ===== *)
(** * Properties of the fee bridge ([src/replay/strategies/_shared/fee_bridge.py])

    The net gap of a basket is the exact worst-case balance of its legs. *)
From stdpp Require Import list strings numbers.
From Stdlib Require Import Qcanon.
From S2P Require Import Prelude Wire Json EconomicFills JobContracts Order Fraction FeeDomain FeeSchedules FeeSchedulesProps FeeEngine FeeEngineProps FeeBridge.

(** ** Sums of deltas *)
Definition scaled (d : AssetDelta) : Prop := 0 ≤ delta_scale d ≤ 18.

Lemma scale_18_value d : scaled d → of_Z (_scale_18 (delta_atoms d) (delta_scale d)) = (delta_value d * of_Z (pow10 18))%Qc.
Proof.
  intros Hs. unfold delta_value, _scale_18. pose proof (value_scaled (mkFixed (delta_atoms d) (delta_scale d)) 18 Hs) as H.
  unfold value in H. cbn [atoms scale] in H. by rewrite H.
Qed.

Lemma delta_of_cons d ds a : delta_of (d :: ds) a = ((if decide (delta_asset d = a) then delta_value d else 0) + delta_of ds a)%Qc.
Proof. done. Qed.
Lemma delta_of_app ds ds' a : delta_of (ds ++ ds') a = (delta_of ds a + delta_of ds' a)%Qc.
Proof. unfold delta_of. by rewrite map_app, sumQ_app. Qed.

Lemma add_delta_none q o ds : foldl (add_delta q o) None ds = None.
Proof. by induction ds. Qed.

Lemma add_deltas q o ds x y x' y' :
  q ≠ o → Forall scaled ds → foldl (add_delta q o) (Some (x, y)) ds = Some (x', y') →
  of_Z x' = (of_Z x + delta_of ds q * of_Z (pow10 18))%Qc ∧ of_Z y' = (of_Z y + delta_of ds o * of_Z (pow10 18))%Qc ∧
  ∀ a, a ≠ q → a ≠ o → delta_of ds a = 0%Qc.
Proof.
  intros Hqo Hs. revert x y. induction Hs as [|d ds Hd Hs IH]; intros x y H; cbn [foldl] in H.
  - injection H as <- <-. unfold delta_of. simpl. split_and!; [ring..|done].
  - unfold add_delta at 2 in H. cbn [mbind option_bind] in H.
    destruct (decide (delta_asset d = q)) as [Eq|Eq]; [|destruct (decide (delta_asset d = o)) as [Eo|Eo]; [|by rewrite add_delta_none in H]];
      destruct (IH _ _ H) as (-> & -> & Ha).
    + split_and!; rewrite ?delta_of_cons, ?Z2Qc_inj_add, ?(scale_18_value d Hd).
      * rewrite decide_True by done. ring.
      * rewrite decide_False by congruence. ring.
      * intros a Hq Ho. rewrite delta_of_cons, Ha, decide_False by congruence. ring.
    + split_and!; rewrite ?delta_of_cons, ?Z2Qc_inj_add, ?(scale_18_value d Hd).
      * rewrite decide_False by congruence. ring.
      * rewrite decide_True by done. ring.
      * intros a Hq Ho. rewrite delta_of_cons, Ha, decide_False by congruence. ring.
Qed.

(** ** Assessed legs *)
(** An assessment whose deltas are its exact balances. *)
Definition exact_result (r : FeeAssessment) : Prop :=
  ∀ ds, net_deltas r = Some ds →
    Forall scaled ds ∧ ∀ a, delta_of ds a = balance (as_fill r) (as_charges r) (as_rebates r) a.

Definition moves (a : Asset) (rs : list FeeAssessment) : Qc :=
  sumQ (map (λ r, balance (as_fill r) (as_charges r) (as_rebates r) a) rs).

Lemma moves_app a rs rs' : moves a (rs ++ rs') = (moves a rs + moves a rs')%Qc.
Proof. unfold moves. by rewrite map_app, sumQ_app. Qed.

Lemma deltas_moves rs :
  Forall exact_result rs → Forall (λ r, is_some (net_deltas r) = true) rs →
  Forall scaled (rs ≫= λ r, default [] (net_deltas r)) ∧
  ∀ a, delta_of (rs ≫= λ r, default [] (net_deltas r)) a = moves a rs.
Proof.
  intros Hr Hn. induction rs as [|r rs IH]; [by split|].
  apply Forall_cons in Hr as [Hr Hrs], Hn as [Hn Hns]. destruct (IH Hrs Hns) as [Hs Ha].
  rewrite bind_cons. destruct (net_deltas r) as [ds|] eqn:E; [|done]. destruct (Hr ds E) as [Hds Hb]. cbn [default].
  split; [by apply Forall_app|]. intros a. rewrite delta_of_app, Hb, Ha. done.
Qed.

(** A prepared leg: valid economics and exact results. *)
Definition leg_ok (p : InstrumentEconomics * list FeeAssessment) : Prop :=
  make_economics p.1 = Ok p.1 ∧ Forall exact_result p.2 ∧ Forall (λ r, is_some (net_deltas r) = true) p.2.

Lemma economics_kinds e : make_economics e = Ok e → asset_kind (outcome e) = OUTCOME ∧ asset_kind (quote e) ≠ OUTCOME.
Proof.
  unfold make_economics. intros H. apply bind_ok in H as (? & _ & H). apply bind_ok in H as (? & Hg%guard_or_ok & _).
  apply andb_true_iff in Hg as [H1%bool_decide_eq_true H2%negb_true_iff]. split; [done|]. by apply bool_decide_eq_false in H2.
Qed.

Lemma add_leg_none q ps : foldl (add_leg q) None ps = None.
Proof. by induction ps. Qed.

Definition unit18 : Qc := of_Z (pow10 18).

Lemma add_legs q ps x rec x' rec' :
  asset_kind q ≠ OUTCOME → Forall leg_ok ps → foldl (add_leg q) (Some (x, rec)) ps = Some (x', rec') →
  of_Z x' = (of_Z x + moves q (ps ≫= snd) * unit18)%Qc ∧
  (∃ new, rec' = rec ++ new ∧ Forall2 (λ p y, of_Z y = (moves (outcome p.1) p.2 * unit18)%Qc) ps new) ∧
  ∀ p, p ∈ ps → ∀ a, a ≠ q → a ≠ outcome p.1 → moves a p.2 = 0%Qc.
Proof.
  intros Hq Hps. revert x rec. induction Hps as [|p ps Hp Hps IH]; intros x rec H; cbn [foldl] in H.
  - injection H as <- <-. split_and!; [unfold moves; simpl; ring|exists []; by rewrite app_nil_r|by intros p ?%not_elem_of_nil].
  - unfold add_leg at 2 in H. cbn [mbind option_bind] in H.
    destruct (foldl (add_delta q (outcome p.1)) _ _) as [[x1 y1]|] eqn:E; [|by rewrite add_leg_none in H].
    destruct Hp as (He & Hr & Hn). destruct (deltas_moves _ Hr Hn) as [Hs Hm].
    destruct (economics_kinds _ He) as [Ko _].
    apply add_deltas in E as (E1 & E2 & E3); [|congruence|done]. cbn [mbind option_bind] in H.
    destruct (IH _ _ H) as (Hx & (new & -> & Hnew) & Hrest). split_and!.
    + rewrite Hx, E1, Hm, bind_cons, moves_app. unfold unit18. ring.
    + exists (y1 :: new). rewrite <- app_assoc. split; [done|]. constructor; [|done].
      rewrite E2, Hm, Z2Qc_inj_0. unfold unit18. ring.
    + intros p' [->|Hp']%elem_of_cons a Hqa Hoa; [|by eapply Hrest]. rewrite <- Hm. by apply E3.
Qed.

(** ** The engine's results are exact *)
Section Exact.
Context (dumps : json → list Byte.byte) (sha256 : list Byte.byte → string).

Lemma to_delta_scaled av d : to_delta av = Ok d → scaled d.
Proof.
  unfold to_delta, make_delta. intros H. apply bind_ok in H as (? & _ & H). apply bind_ok in H as (? & _ & H).
  apply bind_ok in H as (? & _ & H). injection H as <-. unfold scaled. simpl. lia.
Qed.

Lemma net_of_scaled fill cs rs ds pay : net_of dumps sha256 fill cs rs = Ok (ds, pay) → Forall scaled ds.
Proof.
  unfold net_of. destruct (net_amounts fill cs rs) as [amounts c]. intros H. apply bind_ok in H as (ds' & Hds & H).
  apply bind_ok in H as (? & _ & H). injection H as <- <-. apply mapR_ok in Hds.
  induction Hds; constructor; [by eapply to_delta_scaled|done].
Qed.

Lemma assess_exact policy fill resolved st a next :
  fill_ok fill → assess_resolved dumps sha256 policy fill resolved st = Ok (a, next) → exact_result a.
Proof.
  intros Hf H ds Hds. pose proof (assess_entries _ _ _ _ _ _ _ _ H) as [Hcs Hrs].
  apply assess_parts in H as (s1 & s2 & _ & _ & Ef & Ec & Er & _ & _ & Hn). rewrite Ef, Ec, Er in *.
  destruct Hn as [(_ & Hn & _)|(_ & ds' & pay & Hn & Hd & _)]; [congruence|].
  assert (ds' = ds) as -> by congruence. split; [by eapply net_of_scaled|].
  by destruct (net_of_exact _ _ _ _ _ _ _ Hf Hcs Hrs Hn) as (_ & Hb & _).
Qed.

Lemma hypothetical_ok sc acct order_key leg v side e i level f :
  make_economics e = Ok e → hypothetical sc acct order_key leg v side e i level = Ok f → fill_ok f.
Proof.
  intros He. unfold hypothetical. intros H. apply bind_ok in H as (price & Hp & H). apply bind_ok in H as (qty & Hq & H).
  apply bind_ok in H as (n & Hn & H). apply bind_ok in H as (c & _ & H). apply bind_ok in H as (p & Hpr & H).
  assert (wf n) as Wn.
  { destruct (fixed _ _) as [n'|] eqn:E; [|done]. injection Hn as <-. by apply fixed_ok in E as [? _]. }
  assert (wf p) as Wp.
  { unfold make_probability in Hpr. apply bind_ok in Hpr as (p' & Hp' & Hpr). apply bind_ok in Hpr as (? & _ & [= <-]).
    by apply make_fixed_ok in Hp' as [_ ?]. }
  apply make_fixed_ok in Hp as [_ Wprice], Hq as [_ Wq].
  assert (∀ g f, make_fill g = Ok f → f = g) as Hmk.
  { clear. intros g f H. unfold make_fill in H. repeat (apply bind_ok in H as (? & _ & H)). by injection H. }
  pose proof (Hmk _ _ H) as E. subst f. by split_and!.
Qed.

Lemma assess_many_exact eng fills given cutoff memo m :
  Forall fill_ok fills → assess_many dumps sha256 eng fills given cutoff memo = Ok m → Forall exact_result (results m).
Proof.
  intros Hf H. unfold assess_many in H. apply bind_ok in H as (? & _ & H).
  assert (∀ m0, foldR (assess_step dumps sha256 eng given cutoff) m0 fills = Ok m → Forall exact_result (results m0) →
    Forall exact_result (results m)) as Hgo; [|by apply (Hgo _ H); constructor].
  clear H. induction Hf as [|fill fills Hfill _ IH]; intros m0 H Hm0; cbn [foldR] in H; [by injection H as <-|].
  apply bind_ok in H as (m1 & Hm1 & H). apply (IH _ H). unfold assess_step in Hm1.
  apply bind_ok in Hm1 as (? & _ & Hm1). apply bind_ok in Hm1 as (? & _ & Hm1).
  apply bind_ok in Hm1 as ([memo1 res] & _ & Hm1). apply bind_ok in Hm1 as ([memo2 [a next]] & Ha & Hm1).
  injection Hm1 as <-. cbn [results fst]. apply Forall_app. split; [done|]. constructor; [|constructor].
  unfold assess in Ha. apply bind_ok in Ha as ([memo3 res'] & _ & Ha). apply bind_ok in Ha as ([a' next'] & Ha & E).
  injection E as <- <- <-. by eapply assess_exact.
Qed.

(** ** The legs of a basket *)
Definition bindings_ok (b : FeeBridge) : Prop := Forall (λ kb : leg_key * InstrumentEconomics, make_economics kb.2 = Ok kb.2) (_bindings b).

Lemma bound_economics_ok b k e : bindings_ok b → bound_economics b k = Some e → make_economics e = Ok e.
Proof.
  intros Hb. unfold bound_economics, lookup. destruct (is_some _); [|done].
  destruct (find (λ e, bool_decide (e.1 = k)) (_bindings b)) as [[k' e']|] eqn:E; [|done]. intros [= <-].
  apply find_some in E as [E _]. apply list_elem_of_In in E. exact (proj1 (Forall_forall _ _) Hb _ E).
Qed.

(** Every prepared leg is exact; a leg without economics leaves a reason. *)
Definition prepared_ok (st : Prepared) : Prop :=
  Forall (λ p, match p with
               | Some (e, rs) => make_economics e = Ok e ∧ Forall exact_result rs
               | None => st.1.2 ≠ []
               end) st.1.1.

Lemma assess_leg_ok b sc acct side st leg st' :
  bindings_ok b → prepared_ok st → assess_leg dumps sha256 b sc acct side st leg = Ok st' → prepared_ok st'.
Proof.
  intros Hb Hst H. destruct st as [[ps rs] memo]. unfold assess_leg in H. apply bind_ok in H as (? & _ & H).
  unfold prepared_ok in *. cbn [fst snd] in Hst. destruct (bound_economics b (FeeBridge.key leg)) as [e|] eqn:Ee.
  - apply bind_ok in H as (? & _ & H). apply bind_ok in H as (v & _ & H). apply bind_ok in H as (fills & Hfills & H).
    apply bind_ok in H as (m & Hm & H). injection H as <-. cbn [fst snd]. apply Forall_app. split; [done|].
    pose proof (bound_economics_ok _ _ _ Hb Ee) as He. constructor; [|constructor]. split; [done|].
    eapply assess_many_exact; [|exact Hm]. apply mapR_ok in Hfills. clear -Hfills He.
    induction Hfills; constructor; [by eapply hypothetical_ok|done].
  - injection H as <-. cbn [fst snd]. apply Forall_app. split.
    + eapply Forall_impl; [exact Hst|]. intros [[? ?]|]; [done|]. intros _ E. by apply app_eq_nil in E as [_ ?].
    + constructor; [|constructor]. intros E. by apply app_eq_nil in E as [_ ?].
Qed.

Lemma assess_orders_ok b sc acct memo st :
  bindings_ok b → assess_orders dumps sha256 b sc acct memo = Ok st → prepared_ok st.
Proof.
  intros Hb H. unfold assess_orders in H. apply bind_ok in H as (side & _ & H). apply bind_ok in H as (? & _ & H).
  assert (∀ st0, foldR (assess_leg dumps sha256 b sc acct side) st0 (legs sc) = Ok st → prepared_ok st0 → prepared_ok st)
    as Hgo; [|apply (Hgo _ H); constructor].
  clear H. induction (legs sc) as [|leg ls IH]; intros st0 H Hst0; cbn [foldR] in H; [by injection H as <-|].
  apply bind_ok in H as (st1 & H1 & H). apply (IH _ H). by eapply assess_leg_ok.
Qed.
End Exact.

(** ** The gap *)
Lemma min_of_spec l : l ≠ [] → min_of l ∈ l ∧ ∀ x, x ∈ l → min_of l ≤ x.
Proof.
  destruct l as [|y l]; [done|]. intros _. cbn [min_of]. split; [|intros x; apply foldl_min_le].
  assert (∀ l y, foldl Z.min y l ∈ y :: l) as H; [|apply H]. clear. induction l as [|z l IH]; intros y; simpl; [by left|].
  specialize (IH (y `min` z)). apply elem_of_cons in IH as [->|IH].
  - destruct (Z.min_spec y z) as [[_ ->]|[_ ->]]; set_solver.
  - by do 2 right.
Qed.

(** The guaranteed result of a basket of legs whose native moves are [moves]: cash plus the
    least that any one leg receives (each leg pays out alone, one unit per contract), or
    for a sale cash less the set of contracts supplied. *)
Definition worst_case (sc : Scenario) (q : Asset) (ps : list (InstrumentEconomics * list FeeAssessment)) (g : Qc) : Prop :=
  let cash := moves q (ps ≫= snd) in
  let received (p : InstrumentEconomics * list FeeAssessment) := moves (outcome p.1) p.2 in
  if String.eqb (direction sc) "BUY"
  then (∀ p, p ∈ ps → (g ≤ cash + received p)%Qc) ∧ (∃ p, p ∈ ps ∧ g = (cash + received p)%Qc)
  else g = (cash - of_Z (size sc))%Qc ∧ ∀ p, p ∈ ps → (- of_Z (size sc) ≤ received p)%Qc.

Lemma unit18_pos : (0 < unit18)%Qc.
Proof. by apply of_pow10_pos. Qed.

Lemma unit18_le x y : (x * unit18 ≤ y * unit18)%Qc → (x ≤ y)%Qc.
Proof. apply Qcmult_le_mono_pos_r, unit18_pos. Qed.

(** C12. The net gap of a basket is its exact guaranteed result.  When the bridge reports a
    gap, every leg was assessed, nothing moved but the quote asset and each leg's own
    outcome, and the gap in units of 10^-18 is exactly the worst case over the legs
    of the exact balances, fees included. *)
Theorem bridge_gap_exact dumps sha256 b sc memo memo' res g :
  bindings_ok b → bridge_assess dumps sha256 b sc memo = Ok (memo', res) → gap_net res = Some g →
  ∃ ps q, assess_orders dumps sha256 b sc "same_venue_complement_v1" memo = Ok (map Some ps, [], memo') ∧
    (∃ p rest, ps = p :: rest ∧ q = quote p.1) ∧
    (∀ p a, p ∈ ps → a ≠ q → a ≠ outcome p.1 → moves a p.2 = 0%Qc) ∧
    ∃ v, of_Z g = (v * unit18)%Qc ∧ worst_case sc q ps v.
Proof.
  intros Hb H Hg. unfold bridge_assess in H. apply bind_ok in H as ([[prepared reasons] m'] & Ho & H). injection H as <- <-.
  pose proof (assess_orders_ok _ _ _ _ _ _ _ Hb Ho) as Hok. unfold prepared_ok in Hok. cbn [fst snd] in Hok.
  destruct reasons as [|r reasons]; [|done].
  assert (prepared = map Some (omap id prepared) ∧ Forall (λ p, make_economics p.1 = Ok p.1 ∧ Forall exact_result p.2) (omap id prepared))
    as [Ep Hps].
  { clear -Hok. induction Hok as [|[[e rs]|] l Hp _ [IH1 IH2]]; cbn; [done| |done]. split; [by rewrite <- IH1|by constructor]. }
  set (ps := omap id prepared) in *. clearbody ps. subst prepared.
  unfold gap_of in Hg. destruct (_ || _) eqn:Eu; [done|].
  assert (Forall leg_ok ps) as Hlegs.
  { apply orb_false_iff in Eu as [_ Eu]. apply Forall_forall. intros p Hp.
    destruct (proj1 (Forall_forall _ _) Hps p Hp) as [He Hr]. split_and!; [done..|]. apply Forall_forall. intros r Hr'.
    apply not_false_iff_true. intros En. apply not_true_iff_false in Eu. apply Eu, existsb_exists. exists r.
    split; [|by rewrite En]. apply list_elem_of_In, list_elem_of_bind. by exists p. }
  destruct ps as [|[e rs0] rest] eqn:Eps; [done|]. rewrite <- Eps in *.
  destruct (foldl (add_leg (quote e)) _ ps) as [[cash rec]|] eqn:E; [|done].
  assert (asset_kind (quote e) ≠ OUTCOME) as Hq.
  { rewrite Eps in Hlegs. apply Forall_cons in Hlegs as [(He & _) _]. by apply economics_kinds in He as [_ ?]. }
  destruct (add_legs _ _ _ _ _ _ Hq Hlegs E) as (Hc & (new & En & Hnew) & Hrest). cbn [app] in En. subst new.
  rewrite Z2Qc_inj_0, Qcplus_0_l in Hc.
  exists ps, (quote e). split; [exact Ho|]. split; [by exists (e, rs0), rest|]. split; [intros; by apply (Hrest p)|].
  unfold worst_case. destruct (String.eqb (direction sc) "BUY").
  - injection Hg as <-.
    assert (rec ≠ []) as Hne by (intros ->; rewrite Eps in Hnew; by inversion Hnew).
    destruct (min_of_spec rec Hne) as [Hin Hmin]. apply list_elem_of_lookup in Hin as [i Hi].
    destruct (Forall2_lookup_r _ _ _ _ _ Hnew Hi) as (p & Hp & Ey).
    exists (moves (quote e) (ps ≫= snd) + moves (outcome p.1) p.2)%Qc. split; [|split].
    + rewrite Z2Qc_inj_add, Hc, Ey. ring.
    + intros p' Hp'. apply Qcplus_le_mono_l, unit18_le. rewrite <- Ey.
      apply list_elem_of_lookup in Hp' as [j Hj]. destruct (Forall2_lookup_l _ _ _ _ _ Hnew Hj) as (y & Hy & <-).
      apply (proj1 (Z2Qc_inj_le _ _)). apply Hmin. by eapply list_elem_of_lookup_2.
    + exists p. split; [by eapply list_elem_of_lookup_2|done].
  - destruct (existsb _ rec) eqn:Ex; [done|]. injection Hg as <-.
    exists (moves (quote e) (ps ≫= snd) - of_Z (size sc))%Qc. split; [|split; [done|]].
    + rewrite Z2Qc_inj_sub, Hc, Z2Qc_inj_mul. unfold unit18, pow10. ring.
    + intros p Hp. apply unit18_le. apply list_elem_of_lookup in Hp as [j Hj].
      destruct (Forall2_lookup_l _ _ _ _ _ Hnew Hj) as (y & Hy & <-). apply list_elem_of_lookup_2 in Hy.
      unfold unit18, pow10. replace (- of_Z (size sc) * of_Z (10 ^ 18))%Qc with (of_Z (- (size sc * 10 ^ 18)))
        by (rewrite Z2Qc_inj_opp, Z2Qc_inj_mul; ring).
      apply (proj1 (Z2Qc_inj_le _ _)). apply Z.nlt_ge. intros Hlt. apply not_true_iff_false in Ex.
      apply Ex, existsb_exists. exists y. split; [by apply list_elem_of_In|by apply Z.ltb_lt].
Qed.

(** ** A complementary pair *)
Definition demo_token (name : string) : InstrumentEconomics :=
  mkEconomics demo_usdc (mkAsset OUTCOME "polygon" name) (mkAmount demo_usdc (mkFixed 1 0)) 6 2 2.
Definition demo_token_schedule (name : string) : Schedule :=
  mkSchedule PLATFORM (mkScope POLYMARKET CLOB None None None None None None None (Some name) None)
    (demo_token name) demo_usdc 5 (Polymarket (mkFixed 20 3) 1 true PM_CEIL5_SCENARIO) [demo_source] None None None "1" "1" [].
Definition demo_bridge : FeeBridge :=
  mkFeeBridge
    (mkFeeEngine default_policy
       (Some (mkResolver (mkCatalog [demo_token_schedule "yes"; demo_token_schedule "no"] "component-scope-v1") (Some 5))))
    [("polymarket"%string, demo_usdc)]
    [(("polymarket:no"%string, "outcome"%string), demo_token "no"); (("polymarket:yes"%string, "outcome"%string), demo_token "yes")].
Definition demo_leg (name : string) (price : Z) : Leg :=
  mkLeg "polymarket:market" ("polymarket:" +:+ name, "outcome"%string)
    (EconomicFills.mkFill 1000 (price * 1000) false [(price, 1000)] [(price, 1000)]) 2 2 "BUY".
(** Ten pairs bought at 0.40 and 0.55, with fees of 0.048 and 0.0495. *)
Definition demo_scenario : Scenario :=
  mkScenario "demo" 0 (JObj []) "BUY" 10 100 1 [demo_leg "yes" 40; demo_leg "no" 55].

Lemma bridge_gap_exact_witness :
  ∃ memo res ps q, bridge_assess demo_dumps demo_digest demo_bridge demo_scenario [] = Ok (memo, res) ∧
    gap_net res = Some 402500000000000000 ∧
    ∃ v, of_Z 402500000000000000 = (v * unit18)%Qc ∧ worst_case demo_scenario q ps v.
Proof.
  assert (('(_, res) ← bridge_assess demo_dumps demo_digest demo_bridge demo_scenario [];
    Ok (bool_decide (gap_net res = Some 402500000000000000))) = Ok true) as H by by_computation.
  apply bind_ok in H as ([memo res] & Hr & H). apply Ok_inj, bool_decide_eq_true in H.
  assert (bindings_ok demo_bridge) as Hb by (repeat constructor).
  destruct (bridge_gap_exact demo_dumps demo_digest demo_bridge demo_scenario [] memo res _ Hb Hr H)
    as (ps & q & _ & _ & _ & v & Hv & Hw).
  exists memo, res, ps, q. split_and!; [exact Hr|exact H|]. exists v. split; [exact Hv|exact Hw].
Defined.
