(* ===== verification/EconomicTypes.v ===== *)
(** * Shared types and bounds of the economic SDK

    Observations, entities and the declared experiment
    ([src/replay/economic_sdk/types.py], [entities.py]), and the closed-form costs of
    retained state with the budget that adds them up ([bounds.py]). *)
From stdpp Require Import gmap strings.
From S2P Require Import Prelude Order Wire Json FillChecks.

(** ** Statuses and classes *)
Definition EVALUATED : string := "DEPTH_SUFFICIENT".
Definition REAL : string := "real".
Definition CONTROL : string := "control".

(** Per leg, the consumed [(price, displayed)] pairs. *)
Definition quotes := list (list (Z * Z)).

Record Observation := mkObservation {
  o_status : string;
  o_reasons : list string;
  o_class : option string;
  o_fields : list json;
  o_predicates : gset string;
  o_payload : json;          (* [JNull] for [None] *)
  o_quotes : option quotes;
  o_skew_legs : list nat;    (* empty for [None] *)
  o_context_free : bool;
}.

(** [(leg_skew_ns, bucket)]. *)
Definition skew := (Z * Z)%type.

(** [Entity] without a time shift, with the [inputs] of its basket, and [group_of] of
    [output.py]: a control's output group is [controls/<name>/], a real entity's is empty.
    [O] is the type of close-order keys. *)
Record Entity {O : Type} := mkEntity {
  en_id : string;
  en_legs : list (string * string);
  en_order : O;
  en_cls : string;
  en_group : string;
  en_descriptor : json;
  en_admission : option string;
  en_admission_reasons : list string;
  en_inputs : option (list (list (string * option Z)));  (* per leg, [(source, size)] *)
}.
Arguments Entity O : clear implicits.

(** What the runtime reads of the experiment: [tiers] pairs each declared tier with
    its integer, [zip(self.tiers, self.tier_ints)]. *)
Record Experiment := mkExperiment {
  tiers : list (string * Z);
  skew_edges : list Z;
  kinds : list string;
  episode_classes : gmap string (list string);
  value_classes : list string;
  diagnostic_statuses : list string;
  measurement_fields : list string;
  unevaluated_fields : list json;
  maxima_names : list string;
  audit_intervals : bool;
  controls_episodes : bool;
  fills : option FillPolicy;
}.

(** [kind_classes]: the kinds whose episodes each value class belongs to. *)
Definition kind_classes (x : Experiment) (c : option string) : option (gset string) :=
  match c with
  | None => Some ∅
  | Some c =>
      if in_list (value_classes x) c
      then Some (list_to_set (filter (λ k, in_list (default [] (episode_classes x !! k)) c = true) (kinds x)))
      else None
  end.

Definition statuses (x : Experiment) : list string :=
  ["UNUSABLE"; "ONE_SIDED"; "DEPTH_LIMITED"; EVALUATED] ++ diagnostic_statuses x.

(** ** Equality of tuples *)
Fixpoint list_same {A} (same : A → A → bool) (l k : list A) : bool :=
  match l, k with
  | [], [] => true
  | a :: l, b :: k => same a b && list_same same l k
  | _, _ => false
  end.

Lemma list_same_refl {A} (same : A → A → bool) l : Forall (λ a, same a a = true) l → list_same same l l = true.
Proof. induction 1 as [|a l Ha _ IH]; simpl; [done|]. by rewrite Ha. Qed.

(** ** Costs *)
Definition MAX_ROWS : Z := 2000000.
Definition MAX_LINE : Z := 64 * 1024.
Definition MAX_STATE : Z := 512 * 1024 * 1024.
Definition MAX_SKEW_POINTS : Z := 100000.
Definition INT : Z := 48.
Definition SMALL : Z := 80.
Definition PAIR : Z := 64 + 2 * INT.
Definition STR : Z := 80.
Definition CONTAINER : Z := 120.
Definition SLOT : Z := 48.
Definition FILL : Z := 120 + 3 * INT + 2 * CONTAINER.
Definition VIEW : Z := 400.
Definition ENTITY : Z := 600.
Definition MAX_CONSUMED_LEVELS : Z := 1024.
Definition OBSERVATION : Z := 400.
Definition MEASUREMENT : Z := 400.
Definition EPISODE : Z := 1600.
Definition LIVE_FILL : Z := 160.
Definition FILL_STATE : Z := 240.

Definition str_cost (s : string) : Z := STR + 4 * Z.of_nat (str_len s).
Definition bit_length (n : Z) : Z := if n =? 0 then 0 else Z.log2 (Z.abs n) + 1.

Fixpoint json_cost (v : json) : Z :=
  match v with
  | JStr s => str_cost s
  | JInt n => INT + bit_length n / 8
  | JObj d => CONTAINER + sumZ (map (λ kv, SLOT + str_cost kv.1 + json_cost kv.2) d)
  | JArr l => CONTAINER + sumZ (map (λ v, SLOT + json_cost v) l)
  | _ => SMALL
  end.

Definition quotes_cost (q : option quotes) : Z :=
  match q with
  | None => 0
  | Some q => CONTAINER + sumZ (map (λ leg, CONTAINER + SLOT + Z.of_nat (length leg) * (PAIR + SLOT)) q)
  end.

Definition observation_cost (o : Observation) : Z :=
  OBSERVATION + sumZ (map (λ r, str_cost r + SLOT) (o_reasons o))
  + sumZ (map (λ v, json_cost v + SLOT) (o_fields o))
  + (match o_payload o with JNull => 0 | p => json_cost p end) + quotes_cost (o_quotes o).

Definition episode_cost (o : Observation) (tiers : nat) : Z :=
  EPISODE + Z.of_nat tiers * (SLOT + INT) + 2 * (json_cost (o_payload o) + quotes_cost (o_quotes o)).

Definition fill_state_cost (legs : nat) : Z := FILL_STATE + CONTAINER + Z.of_nat legs * (SLOT + INT).

(** The JSON object and the kill prices of a live fill. *)
Definition live_fill_cost (fill : json) (kill : list (option Z)) : Z :=
  LIVE_FILL + json_cost fill + CONTAINER + Z.of_nat (length kill) * (SLOT + INT).

(** ** [StateBudget]: the state is [used]. *)
Definition replace_budget (old new : Z) : ST Z () :=
  used ← getS;
  _ ← requireS (used - old + new <=? MAX_STATE) "detached state budget";
  modifyS (λ used, used + (new - old)).
Definition charge_budget (amount : Z) : ST Z () := replace_budget 0 amount.
Definition release_budget (amount : Z) : ST Z () := modifyS (λ used, used - amount).
