(* ===== verification/Intervals.v ===== *)
(** * Cut clock and interval arithmetic ([src/replay/economic_intervals.py])

    [CutClock] accepts the cuts of a run in time order: the windows follow each other,
    group cuts fall in the window in force, and effective times do not decrease.
    [EpisodeMath.close] measures one closed slice. *)
From stdpp Require Import list strings.
From S2P Require Import Prelude Wire.

(** ** [CutClock] *)
Record CutClock := mkCutClock {
  start : Z; end_ : Z; lower_bound : string; scope_ends : list Z;
  time : Z; scope : nat;
  window : option (json * json * json);  (* [start_ns], [end_ns] and [pin] *)
}.

Definition new_clock (start end_ : Z) (lower_bound : string) (scope_ends : list Z) : CutClock :=
  mkCutClock start end_ lower_bound scope_ends start 0 None.

Definition set_time t c := mkCutClock (start c) (end_ c) (lower_bound c) (scope_ends c) t (scope c) (window c).
Definition set_scope n c := mkCutClock (start c) (end_ c) (lower_bound c) (scope_ends c) (time c) n (window c).
Definition set_window w c := mkCutClock (start c) (end_ c) (lower_bound c) (scope_ends c) (time c) (scope c) w.

(** [int(value[k])]. *)
Definition int_of (value : json) (k : string) : result Z := v ← jget value k; py_int v.

Definition observe_window (origin : json) (raw : Z) : ST CutClock () :=
  c ← getS;
  _ ← match window c with
      | None =>
          e ← liftR (if raw <=? start c then int_of origin "end_ns" else Ok raw);
          requireS ((raw <=? start c) && (start c <? e)) "first window range"
      | Some (_, e, _) =>
          s ← liftR (jget origin "start_ns");
          requireS (json_eqb s e) "window partition"
      end;
  s ← liftR (jget origin "start_ns"); e ← liftR (jget origin "end_ns"); p ← liftR (jget origin "pin");
  modifyS (set_window (Some (s, e, p))).

Definition observe_group (origin : json) (raw : Z) : ST CutClock () :=
  c ← getS;
  match window c with
  | None => requireS false "group window"
  | Some (s, e, p) =>
      pin ← liftR (jget origin "pin");
      _ ← requireS (json_eqb pin p) "group window";
      ws ← liftR (py_int s);
      we ← liftR (if ws <=? raw then py_int e else Ok raw);
      _ ← requireS ((ws <=? raw) && (raw <? we)) "group range";
      requireS ((start c <=? raw) || String.eqb (lower_bound c) "expand_to_window_start")
        "group before requested start"
  end.

Definition observe (origin : json) : ST CutClock (Z * Z) :=
  kind ← liftR (jget origin "kind");
  raw ← liftR (int_of origin (if jeq_str kind "window" then "start_ns" else "visible_ns"));
  _ ← (if jeq_str kind "window" then observe_window origin raw else observe_group origin raw);
  c ← getS;
  let effective := Z.max raw (start c) in
  _ ← requireS ((time c <=? effective) && (effective <? end_ c)) "economic time order";
  _ ← modifyS (set_time effective);
  mret (raw, effective).

(** [advance]: the crossed scope ends, each with the scope it leaves and the one it
    enters.  Every step enters a later scope, so the scopes left bound the loop. *)
Fixpoint advance_loop (fuel : nat) (t : Z) (c : CutClock) (crossed : list (nat * Z * nat))
    : CutClock * list (nat * Z * nat) :=
  match fuel with
  | O => (c, crossed)
  | S fuel =>
      match scope_ends c !! scope c with
      | Some boundary =>
          if (S (scope c) <? length (scope_ends c))%nat && (boundary <=? t)
          then advance_loop fuel t (set_scope (S (scope c)) c)
                 (crossed ++ [(scope c, boundary, S (scope c))])
          else (c, crossed)
      | None => (c, crossed)
      end
  end.

Definition advance (t : Z) (c : CutClock) : CutClock * list (nat * Z * nat) :=
  let '(c', crossed) := advance_loop (length (scope_ends c) - scope c) t c [] in
  (set_time t c', crossed).

Definition terminal : ST CutClock Z :=
  c ← getS;
  match window c with
  | None => liftR (Err (ProtocolError "incomplete window coverage"))
  | Some (_, e, _) =>
      e ← liftR (py_int e);
      _ ← requireS (end_ c <=? e) "incomplete window coverage";
      mret (end_ c)
  end.

(** ** [EpisodeMath] *)

(** [max(0, survival - int(tier))] per tier. *)
Definition qualified_of (survival : Z) (ts : list (string * Z)) : gmap string Z :=
  list_to_map (map (λ t, (t.1, Z.max 0 (survival - t.2))) (rev ts)).

(** [close]: the survival, the viable tiers and the qualified time of each tier. *)
Definition close (s e : Z) (ts : list (string * Z)) : result (Z * list string * gmap string Z) :=
  _ ← require (s <=? e) "invalid wire value";
  let survival := e - s in
  Ok (survival, map fst (filter (λ t, t.2 ≤ survival) ts), qualified_of survival ts).

(** ** Integers of equal values *)
Definition truncated (m e : Z) : Z := if 0 <=? e then m * 2 ^ e else Z.quot m (2 ^ (- e)).

Lemma truncated_shift m e d : 0 ≤ d → truncated (m * 2 ^ d) (e - d) = truncated m e.
Proof.
  intros Hd. unfold truncated. destruct (Z.leb_spec 0 (e - d)), (Z.leb_spec 0 e); try lia.
  - rewrite <- Z.mul_assoc, <- Z.pow_add_r by lia. do 2 f_equal. lia.
  - replace (2 ^ d) with (2 ^ e * 2 ^ (- (e - d))) by (rewrite <- Z.pow_add_r by lia; f_equal; lia).
    rewrite Z.mul_assoc, Z.quot_mul; [done|]. apply Z.pow_nonzero; lia.
  - replace (2 ^ (- (e - d))) with (2 ^ (- e) * 2 ^ d) by (rewrite <- Z.pow_add_r by lia; f_equal; lia).
    apply Z.quot_mul_cancel_r; apply Z.pow_nonzero; lia.
Qed.

Lemma number_int v m e : as_number v = Some (m, e) → py_int v = Ok (truncated m e).
Proof. destruct v as [|[]| | | | | | |]; simpl; intros [= <- <-]; unfold truncated; simpl; try done; f_equal; lia. Qed.

(** Values that compare equal have the same [int]. *)
Lemma equal_int a b n : json_eqb a b = true → py_int a = Ok n → py_int b = Ok n.
Proof.
  intros E Ha. assert (∀ p q, as_number a = Some p → as_number b = Some q →
    (let low := Z.min p.2 q.2 in p.1 * 2 ^ (p.2 - low) =? q.1 * 2 ^ (q.2 - low)) = true → py_int b = Ok n) as Hnum.
  { intros [m i] [m' j] Ha' Hb Eq%Z.eqb_eq. rewrite (number_int _ _ _ Hb). rewrite (number_int _ _ _ Ha') in Ha. rewrite <- Ha. f_equal.
    simpl in Eq. rewrite <- (truncated_shift m i (i - Z.min i j)), <- (truncated_shift m' j (j - Z.min i j)) by lia.
    rewrite <- Eq. f_equal. lia. }
  destruct a, b; try done; try (simpl in E; by apply String.eqb_eq in E as ->); eapply Hnum; try done.
Qed.

(** ** What a run of cuts covers *)
Definition is_window (o : json) : bool := match jget o "kind" with Ok k => jeq_str k "window" | Err _ => false end.

(** The window cut [o] is [[s, e)]. *)
Definition spans (o : json) (s e : Z) : Prop := is_window o = true ∧ int_of o "start_ns" = Ok s ∧ int_of o "end_ns" = Ok e.
Definition covered (os : list json) (t : Z) : Prop := ∃ o s e, o ∈ os ∧ spans o s e ∧ s ≤ t < e.

Fixpoint observe_all (os : list json) : ST CutClock (list (Z * Z)) :=
  match os with
  | [] => mret []
  | o :: os => r ← observe o; rs ← observe_all os; mret (r :: rs)
  end.

(** The clock after the cuts [os]: the windows so far leave no gap, and the one in force is
    one of them. *)
Record clock_ok (lo hi : Z) (lb : string) (os : list json) (c : CutClock) : Prop := ClockOk {
  ck_start : start c = lo; ck_end : end_ c = hi; ck_bound : lower_bound c = lb;
  ck_none : window c = None → os = [];
  ck_window : ∀ s e p, window c = Some (s, e, p) →
    (∀ n t, py_int e = Ok n → lo ≤ t < n → covered os t) ∧
    ∃ o, o ∈ os ∧ is_window o = true ∧ jget o "start_ns" = Ok s ∧ jget o "end_ns" = Ok e ∧ jget o "pin" = Ok p;
}.

(** A group cut at [raw] falls in a window before it with its pin. *)
Definition grouped (lo : Z) (lb : string) (os : list json) (o : json) (raw : Z) : Prop :=
  is_window o = false → ∃ w s e p q, w ∈ os ∧ spans w s e ∧ s ≤ raw < e ∧ jget w "pin" = Ok p ∧ jget o "pin" = Ok q ∧
    json_eqb q p = true ∧ (lo ≤ raw ∨ lb = "expand_to_window_start"%string).

Lemma covered_app os o t : covered os t → covered (os ++ [o]) t.
Proof. intros (w & s & e & Hw & Hs). exists w, s, e. split; [apply elem_of_app; by left|done]. Qed.
Lemma covered_last os o s e t : spans o s e → s ≤ t < e → covered (os ++ [o]) t.
Proof. intros Hs Ht. exists o, s, e. split; [apply elem_of_app; right; by left|done]. Qed.

Lemma observe_window_ok lo hi lb os o raw c c' u :
  clock_ok lo hi lb os c → is_window o = true → int_of o "start_ns" = Ok raw →
  observe_window o raw c = (c', Ok u) → clock_ok lo hi lb (os ++ [o]) c' ∧ time c' = time c.
Proof.
  intros [Hs He Hb Hn Hw] Hk Hraw Hm. unfold observe_window in Hm. apply stbind_ok in Hm as (? & ? & [-> ->]%getS_ok & Hm).
  apply stbind_ok in Hm as (c1 & [] & Hc & Hm).
  apply stbind_ok in Hm as (? & s & [-> Es]%liftR_ok & Hm). apply stbind_ok in Hm as (? & e & [-> Ee]%liftR_ok & Hm).
  apply stbind_ok in Hm as (? & p & [-> Ep]%liftR_ok & ->%modifyS_ok).
  assert (py_int s = Ok raw) as Eraw by (unfold int_of in Hraw; rewrite Es in Hraw; exact Hraw).
  assert (c1 = c ∧ ∀ n t, py_int e = Ok n → lo ≤ t < n → covered (os ++ [o]) t) as [-> Hcov].
  { assert (∀ n, py_int e = Ok n → spans o raw n) as Hspan by (intros n En; split_and!; [done|done|unfold int_of; by rewrite Ee]).
    destruct (window c) as [[[s0 e0] p0]|] eqn:Ew.
    - apply stbind_ok in Hc as (? & s' & [-> Es']%liftR_ok & [Heq ->]%requireS_ok). rewrite Es in Es'. injection Es' as <-.
      split; [done|]. intros n t En Ht. destruct (Z.lt_ge_cases t raw).
      + apply covered_app. apply (proj1 (Hw _ _ _ eq_refl) raw t); [|lia]. 
        by eapply equal_int.
      + eapply covered_last; [by apply Hspan|lia].
    - apply stbind_ok in Hc as (? & e1 & [-> E1]%liftR_ok & [Heq ->]%requireS_ok). split; [done|].
      intros n t En Ht. rewrite Hs in *. eapply covered_last; [by apply Hspan|lia]. }
  split; [|done]. split; simpl; try done. intros s0 e0 p0 [= <- <- <-]. split; [exact Hcov|].
  exists o. split_and!; try done. apply elem_of_app. right. by left.
Qed.

Lemma observe_group_ok lo hi lb os o raw c c' u :
  clock_ok lo hi lb os c → is_window o = false → observe_group o raw c = (c', Ok u) →
  clock_ok lo hi lb (os ++ [o]) c' ∧ c' = c ∧ grouped lo lb os o raw.
Proof.
  intros Hok Hk Hm. unfold observe_group in Hm. apply stbind_ok in Hm as (? & ? & [-> ->]%getS_ok & Hm).
  destruct (window c) as [[[s e] p]|] eqn:Ew; [|by apply requireS_ok in Hm as [? _]].
  apply stbind_ok in Hm as (? & q & [-> Eq]%liftR_ok & Hm). apply stbind_ok in Hm as (? & [] & [Epin ->]%requireS_ok & Hm).
  apply stbind_ok in Hm as (? & ws & [-> Es]%liftR_ok & Hm). apply stbind_ok in Hm as (? & we & [-> Ee]%liftR_ok & Hm).
  apply stbind_ok in Hm as (? & [] & [Hr ->]%requireS_ok & [Hlo ->]%requireS_ok).
  apply andb_true_iff in Hr as [H1%Z.leb_le H2%Z.ltb_lt]. rewrite (proj2 (Z.leb_le _ _) H1) in Ee.
  destruct Hok as [Hs He Hb Hn Hw]. destruct (Hw _ _ _ Ew) as (Hcov & w & Hin & Hkw & Hws & Hwe & Hwp). split_and!; [|done|].
  - split; [done..| |].
    + by rewrite Ew.
    + intros s0 e0 p0 E. rewrite Ew in E. injection E as <- <- <-. split.
      * intros n t En Ht. apply covered_app. by eapply Hcov.
      * exists w. split; [apply elem_of_app; by left|done].
  - intros _. assert (spans w ws we) as Hsp by (unfold spans, int_of; by rewrite Hws, Hwe).
    exists w, ws, we, p, q. split_and!; try done.
    rewrite Hs, Hb in Hlo. apply orb_true_iff in Hlo as [?%Z.leb_le|?%String.eqb_eq]; auto.
Qed.

Lemma observe_ok lo hi lb os o c c' r :
  clock_ok lo hi lb os c → observe o c = (c', Ok r) →
  clock_ok lo hi lb (os ++ [o]) c' ∧ grouped lo lb os o r.1 ∧
  r.2 = Z.max r.1 lo ∧ time c ≤ r.2 < hi ∧ time c' = r.2.
Proof.
  intros Hok Hm. unfold observe in Hm. apply stbind_ok in Hm as (? & kind & [-> Ekind]%liftR_ok & Hm).
  apply stbind_ok in Hm as (? & raw & [-> Eraw]%liftR_ok & Hm). apply stbind_ok in Hm as (c1 & [] & Hobs & Hm).
  apply stbind_ok in Hm as (? & ? & [-> ->]%getS_ok & Hm). apply stbind_ok in Hm as (? & [] & [Ht ->]%requireS_ok & Hm).
  apply stbind_ok in Hm as (? & [] & ->%modifyS_ok & [-> ->]%mretS_ok).
  assert (is_window o = jeq_str kind "window") as Ek by (unfold is_window; by rewrite Ekind). rewrite <- Ek in *.
  assert (clock_ok lo hi lb (os ++ [o]) c1 ∧ time c1 = time c ∧ grouped lo lb os o raw) as (Hok1 & Et & Hg).
  { destruct (is_window o) eqn:Ew.
    - eapply observe_window_ok in Hobs as [? ?]; [|done|done|exact Eraw]. split_and!; [done|done|]. intros ?. congruence.
    - eapply observe_group_ok in Hobs as (? & -> & ?); [|done|done]. done. }
  pose proof Hok1 as [Hs He Hb Hn Hw]. rewrite Hs, He, Et in Ht. apply andb_true_iff in Ht as [H1%Z.leb_le H2%Z.ltb_lt].
  split_and!; simpl; rewrite ?Hs; try done; by split.
Qed.

(** Accepted cuts, in time order. *)
Inductive ordered (lo hi : Z) : Z → list (Z * Z) → Prop :=
  | ordered_nil t : ordered lo hi t []
  | ordered_cons t r rs : t ≤ r.2 < hi → r.2 = Z.max r.1 lo → ordered lo hi r.2 rs → ordered lo hi t (r :: rs).

Lemma observe_all_ok lo hi lb os ks c c' rs :
  clock_ok lo hi lb os c → observe_all ks c = (c', Ok rs) →
  clock_ok lo hi lb (os ++ ks) c' ∧ ordered lo hi (time c) rs ∧ length rs = length ks ∧
  ∀ i o r, ks !! i = Some o → rs !! i = Some r → grouped lo lb (os ++ take i ks) o r.1.
Proof.
  revert os c rs. induction ks as [|k ks IH]; intros os c rs Hok Hm; simpl in Hm.
  - apply mretS_ok in Hm as [-> ->]. rewrite app_nil_r. split_and!; [done|constructor|done|]. intros i o r Ho. done.
  - apply stbind_ok in Hm as (c1 & r & Hr & Hm). apply stbind_ok in Hm as (c2 & rs' & Hrs & Hm). apply mretS_ok in Hm as [-> ->].
    eapply observe_ok in Hr as (Hok1 & Hg & Emax & Ht & Et); [|exact Hok].
    eapply IH in Hrs as (Hok2 & Hord & Hlen & Hgs); [|exact Hok1]. rewrite Et in Hord. rewrite <- app_assoc in Hok2.
    split_and!; [done|by constructor|simpl; congruence|]. intros [|i] o r' Ho Hr'; simpl in *.
    + injection Ho as <-. injection Hr' as <-. by rewrite app_nil_r.
    + specialize (Hgs i o r' Ho Hr'). by rewrite <- app_assoc in Hgs.
Qed.

(** ** Scope ends *)

(** [advance] leaves the scopes that ended by [t], each once and in order, and stops at the
    first that did not or at the last. *)
Lemma advance_loop_ok fuel t c crossed c' crossed' :
  (length (scope_ends c) - scope c ≤ fuel)%nat → advance_loop fuel t c crossed = (c', crossed') →
  scope_ends c' = scope_ends c ∧ window c' = window c ∧ (scope c ≤ scope c')%nat ∧
  (∃ new, crossed' = crossed ++ new ∧ length new = (scope c' - scope c)%nat ∧
    ∀ i x, new !! i = Some x → ∃ b, scope_ends c !! (scope c + i)%nat = Some b ∧ x = ((scope c + i)%nat, b, S (scope c + i)) ∧ b ≤ t) ∧
  (∀ b, scope_ends c !! scope c' = Some b → (S (scope c') < length (scope_ends c))%nat → t < b).
Proof.
  revert c crossed. induction fuel as [|fuel IH]; intros c crossed Hf Hm; simpl in Hm.
  - injection Hm as <- <-. split_and!; [done|done|lia|exists []; rewrite app_nil_r; split_and!; [done|simpl; lia|done]|].
    intros b Hb%lookup_lt_Some. lia.
  - destruct (scope_ends c !! scope c) as [b|] eqn:Eb.
    2:{ injection Hm as <- <-. split_and!; [done|done|lia|exists []; rewrite app_nil_r; split_and!; [done|simpl; lia|done]|].
        intros b Hb. congruence. }
    destruct (_ && _) eqn:Ec.
    + apply andb_true_iff in Ec as [H1%Nat.ltb_lt H2%Z.leb_le]. apply IH in Hm as (E1 & E2 & E3 & (new & -> & Hl & Hnew) & E5); [|simpl; lia].
      simpl in *. split_and!; [done|done|lia| |done]. eexists. rewrite <- app_assoc. split; [reflexivity|]. split; [simpl; lia|].
      intros [|i] x Hx; simpl in Hx.
      * injection Hx as <-. exists b. by rewrite Nat.add_0_r.
      * rewrite Nat.add_succ_r. by apply Hnew.
    + injection Hm as <- <-. split_and!; [done|done|lia|exists []; rewrite app_nil_r; split_and!; [done|simpl; lia|done]|].
      intros b' Hb' Hlt. rewrite Eb in Hb'. injection Hb' as <-. apply andb_false_iff in Ec as [?%Nat.ltb_ge|?%Z.leb_gt]; lia.
Qed.

(** C9. The cut clock accepts only a partition of the requested range.  When it accepts
    every cut of a run and the run's end, the window cuts cover each instant of [start, end);
    the effective times do not decrease, stay inside the range, and are the raw times no
    earlier than its start; and each group cut falls in an earlier window with its pin. *)
Theorem cut_clock_covers lo hi lb ends os c rs c' t :
  observe_all os (new_clock lo hi lb ends) = (c, Ok rs) → terminal c = (c', Ok t) →
  t = hi ∧ (∀ i, lo ≤ i < hi → covered os i) ∧ length rs = length os ∧ ordered lo hi lo rs ∧
  ∀ i o r, os !! i = Some o → rs !! i = Some r → grouped lo lb (take i os) o r.1.
Proof.
  intros Hm Ht. assert (clock_ok lo hi lb [] (new_clock lo hi lb ends)) as Hok by by split.
  eapply observe_all_ok in Hm as ([Hs He Hb Hn Hw] & Hord & Hlen & Hg); [|exact Hok]. simpl in *.
  unfold terminal in Ht. apply stbind_ok in Ht as (? & ? & [-> ->]%getS_ok & Ht).
  destruct (window c) as [[[s e] p]|]; [|by apply liftR_ok in Ht as [_ ?]].
  apply stbind_ok in Ht as (? & n & [-> En]%liftR_ok & Ht). apply stbind_ok in Ht as (? & [] & [Hn'%Z.leb_le ->]%requireS_ok & Ht).
  apply mretS_ok in Ht as [-> ->]. split_and!; [done| |done..].
  intros i Hi. apply (proj1 (Hw _ _ _ eq_refl) n); [done|lia].
Qed.

Definition demo_cut (kind : string) (s e : string) : json :=
  JObj [("kind", JStr kind); ("start_ns", JStr s); ("visible_ns", JStr s); ("end_ns", JStr e); ("pin", JStr "p")].
Definition demo_origins : list json :=
  [demo_cut "window" "0" "10"; demo_cut "group" "7" ""; demo_cut "window" "10" "30"; demo_cut "group" "12" ""].

Lemma cut_clock_covers_witness :
  let c := (observe_all demo_origins (new_clock 5 25 "clip" [15; 25])).1 in
  (∀ i, 5 ≤ i < 25 → covered demo_origins i) ∧ (advance 20 c).2 = [(0%nat, 15, 1%nat)].
Proof.
  intros c. split; [|vm_compute; reflexivity].
  exact (proj1 (proj2 (cut_clock_covers 5 25 "clip" [15; 25] demo_origins c [(0, 5); (7, 7); (10, 10); (12, 12)] c 25
    ltac:(vm_compute; reflexivity) ltac:(vm_compute; reflexivity)))).
Defined.
