(* ===== verification/Episodes.v ===== *)
(** * Intervals, episodes and slices ([src/replay/economic_sdk/runtime.py], lines 720-1130)

    What the runtime does with the observations it commits, in output layout 2: time per
    status and value class, episodes with their slices and latency facts, priced fills
    with their kill prices, and the rows of each scope.  Observations come from the
    strategy; the views of the committed instant are part of the state. *)
From stdpp Require Import gmap strings sorting.
From S2P Require Import Prelude Order Wire Json EconomicFills FillChecks LineWriter EconomicTypes Intervals.

Definition KILL_PRICE : string := "KILL_PRICE".
Definition END_BOOK_LINE : Z := 192 + 4 * Z.of_nat MAX_END_REASON.

(** ** Episodes

    The fields of [_Episode], grouped: what is fixed at open, the slice in progress, the
    facts of the closed slices, and the running maxima. *)
Record Opening := mkOpening {
  op_entity : string; op_kind : string; op_start : Z;
  op_values : json; op_quotes : quotes; op_skew : skew;
  op_class : option string; op_reasons : list string; op_game : json;
}.

Record Slice := mkSlice {
  slice_start : Z; slice_skew : skew; slice_values : json; slice_quotes : quotes;
  class_now : option string; class_since : Z; slice_classes : gmap (option string) Z;
  skew_points : list (Z * skew);
}.

Record Facts := mkFacts {
  qualified : gmap string Z; viable : gset string; opening_survival : option Z;
  class_ns : gmap (option string) Z; qualifying : gmap string (gmap (option string) Z);
  by_skew : gmap string (gmap Z Z);
}.

Record Peaks := mkPeaks { maxima : list (string * json); at_max : json * option quotes; max_game : json }.

Record Episode := mkEpisode {
  opening : Opening; slice : Slice; facts : Facts; peaks : Peaks;
  ep_cost : Z;
  ep_fill : option (list (option Z) * json);  (* kill prices and the row's object *)
}.

Definition set_slice s e := mkEpisode (opening e) s (facts e) (peaks e) (ep_cost e) (ep_fill e).
Definition set_facts f e := mkEpisode (opening e) (slice e) f (peaks e) (ep_cost e) (ep_fill e).
Definition set_peaks p e := mkEpisode (opening e) (slice e) (facts e) p (ep_cost e) (ep_fill e).
Definition set_cost c e := mkEpisode (opening e) (slice e) (facts e) (peaks e) c (ep_fill e).
Definition set_fill f e := mkEpisode (opening e) (slice e) (facts e) (peaks e) (ep_cost e) f.

(** [table[k] = table.get(k, 0) + amount]. *)
Definition add_to `{Countable K} (k : K) (amount : Z) (m : gmap K Z) : gmap K Z :=
  <[k := default 0 (m !! k) + amount]> m.

(** [_charge_class]. *)
Definition charge_class (until : Z) (s : Slice) : Slice :=
  let elapsed := until - class_since s in
  mkSlice (slice_start s) (slice_skew s) (slice_values s) (slice_quotes s) (class_now s) until
    (if elapsed =? 0 then slice_classes s else add_to (class_now s) elapsed (slice_classes s))
    (skew_points s).

(** Add every entry of [amounts] to [m]. *)
Definition add_all `{Countable K} (amounts m : gmap K Z) : gmap K Z :=
  foldr (λ kv, add_to kv.1 kv.2) m (map_to_list amounts).

(** Entry instants [start, end - tier) take the skew in force at each. *)
Fixpoint skew_overlaps (window end_ : Z) (points : list (Z * skew)) (buckets : gmap Z Z) : gmap Z Z :=
  match points with
  | [] => buckets
  | (at_, sk) :: points =>
      let until := match points with (next, _) :: _ => next | [] => end_ end in
      let overlap := Z.min until window - at_ in
      skew_overlaps window end_ points (if 0 <? overlap then add_to sk.2 overlap buckets else buckets)
  end.

(** The facts of one tier. *)
Definition close_tier (end_ survival : Z) (classes : gmap (option string) Z) (points : list (Z * skew))
    (f : Facts) (t : string * Z) : Facts :=
  mkFacts (qualified f) (viable f) (opening_survival f) (class_ns f)
    (if t.2 <=? survival
     then <[t.1 := add_all classes (default ∅ (qualifying f !! t.1))]> (qualifying f)
     else qualifying f)
    (<[t.1 := skew_overlaps (end_ - t.2) end_ points (default ∅ (by_skew f !! t.1))]> (by_skew f)).

(** [_close_slice_facts] after [_charge_class]; [classes] are those of the slice. *)
Definition close_slice_facts (ts : list (string * Z)) (end_ survival : Z)
    (classes : gmap (option string) Z) (points : list (Z * skew)) (f : Facts) : Facts :=
  foldl (close_tier end_ survival classes points)
    (mkFacts (qualified f) (viable f) (opening_survival f) (add_all classes (class_ns f))
       (qualifying f) (by_skew f)) ts.

(** The facts [_emit_slice] folds a slice into before it closes them. *)
Definition close_survival (survival : Z) (viables : list string) (amounts : gmap string Z) (f : Facts) : Facts :=
  mkFacts (add_all amounts (qualified f)) (viable f ∪ list_to_set viables)
    (Some (default survival (opening_survival f))) (class_ns f) (qualifying f) (by_skew f).

(** ** Rows *)
Definition level_json (l : Z * Z) : json := JArr [JStr (str_int l.1); JStr (str_int l.2)].
Definition quotes_json (q : quotes) : json := JArr (map (λ leg, JArr (map level_json leg)) q).
Definition quotes_json_opt (q : option quotes) : result json :=
  match q with Some q => Ok (quotes_json q) | None => Err (TypeError "NoneType") end.

(** [sorted(m.items())]. *)
Definition sorted_items {K} `{Countable K, Compare K} (m : gmap K Z) : list (K * Z) :=
  sort_by (λ a b : K * Z, match cmp a.1 b.1 with Gt => false | _ => true end) (map_to_list m).

Definition ns_map (m : gmap string Z) : json :=
  JObj (map (λ kv, (kv.1, JStr (str_int kv.2))) (sorted_items m)).
(** A [None] class would be the key [null]. *)
Definition class_key (c : option string) : string := default "null" c.
Definition class_map (m : gmap (option string) Z) : json :=
  JObj (map (λ kv, (kv.1, JStr (str_int kv.2)))
    (sort_by (λ a b : string * Z, match cmp a.1 b.1 with Gt => false | _ => true end)
       (map (λ kv, (class_key kv.1, kv.2)) (map_to_list m)))).
Definition bucket_map (m : gmap Z Z) : json :=
  JObj (map (λ kv, (str_int kv.1, JStr (str_int kv.2))) (sorted_items m)).
(** [{t: f(m) for t, m in table.items()}], in the order of the tiers. *)
Definition per_tier {A} (ts : list (string * Z)) (table : gmap string A) (f : A → json) : json :=
  JObj (omap (λ t, m ← table !! t.1; Some (t.1, f m)) ts).

Definition is_dict (v : json) : bool := match v with JObj _ => true | _ => false end.
Definition text_bytes (s : string) : list Byte.byte := String.list_byte_of_string s.

(** ** The engine *)

(** What defines one measured interval: status, reasons, value class and fields. *)
Definition measured := (string * list string * option string * list json)%type.
Definition measured_of (o : Observation) : measured := (o_status o, o_reasons o, o_class o, o_fields o).
Definition measured_same (a b : measured) : bool :=
  let '(s, r, c, f) := a in let '(s', r', c', f') := b in
  String.eqb s s' && bool_decide (r = r') && bool_decide (c = c') && list_same json_same f f'.

(** An open measurement: its start, what it measures and its cost. *)
Definition measurement := (Z * measured * Z)%type.

Record Denominator := mkDenominator {
  status_ns : gmap string Z; d_class_ns : gmap string Z; reason_ns : gmap (string * list Z) Z;
}.

(** Trigger-positive time of one entity: since when, live or a no-fill reason, and the
    ladder epochs of its legs when it was priced. *)
Record FillState := mkFillState { fs_since : Z; fs_state : string; fs_epochs : list Z; fs_cost : Z }.

Section Engine.
Context (dumps : json → list Byte.byte) (sha256 : list Byte.byte → string)
        (json_loads : string → result json).
Context {W : Type} `{RowWriter W} {O : Type} `{CompareLaws O}.
Context (x : Experiment).
(** [strategy.fill_value(entity, steps, legs, time)], its time before the others. *)
Context (fill_value : Entity O → Z → valuation).

Record Engine := mkEngine {
  scope : Z;
  entities : gmap string (Entity O);
  index : gmap string Z;
  fill_specs : gmap string (FillSpec * list Z);
  views : gmap (string * string) fill_view;
  epochs : gmap (string * string) Z;
  game : option json;
  budget : Z;
  writers : gmap string W;
  open_measurements : list (string * measurement);  (* in insertion order *)
  denominators : gmap string Denominator; denominator_cost : Z;
  reasons : gmap string Z; reason_list : list json;
  episodes : gmap (string * string) Episode; episode_rows : Z;
  fill_state : gmap string FillState; fill_ns : gmap string (gmap string Z);
}.

Definition set_budget v e := mkEngine (scope e) (entities e) (index e) (fill_specs e) (views e) (epochs e) (game e) v (writers e) (open_measurements e) (denominators e) (denominator_cost e) (reasons e) (reason_list e) (episodes e) (episode_rows e) (fill_state e) (fill_ns e).
Definition set_writers v e := mkEngine (scope e) (entities e) (index e) (fill_specs e) (views e) (epochs e) (game e) (budget e) v (open_measurements e) (denominators e) (denominator_cost e) (reasons e) (reason_list e) (episodes e) (episode_rows e) (fill_state e) (fill_ns e).
Definition set_open_measurements v e := mkEngine (scope e) (entities e) (index e) (fill_specs e) (views e) (epochs e) (game e) (budget e) (writers e) v (denominators e) (denominator_cost e) (reasons e) (reason_list e) (episodes e) (episode_rows e) (fill_state e) (fill_ns e).
Definition set_denominators v c e := mkEngine (scope e) (entities e) (index e) (fill_specs e) (views e) (epochs e) (game e) (budget e) (writers e) (open_measurements e) v c (reasons e) (reason_list e) (episodes e) (episode_rows e) (fill_state e) (fill_ns e).
Definition set_reasons v l e := mkEngine (scope e) (entities e) (index e) (fill_specs e) (views e) (epochs e) (game e) (budget e) (writers e) (open_measurements e) (denominators e) (denominator_cost e) v l (episodes e) (episode_rows e) (fill_state e) (fill_ns e).
Definition set_episodes v n e := mkEngine (scope e) (entities e) (index e) (fill_specs e) (views e) (epochs e) (game e) (budget e) (writers e) (open_measurements e) (denominators e) (denominator_cost e) (reasons e) (reason_list e) v n (fill_state e) (fill_ns e).
Definition set_fill_state v e := mkEngine (scope e) (entities e) (index e) (fill_specs e) (views e) (epochs e) (game e) (budget e) (writers e) (open_measurements e) (denominators e) (denominator_cost e) (reasons e) (reason_list e) (episodes e) (episode_rows e) v (fill_ns e).
Definition set_fill_ns v e := mkEngine (scope e) (entities e) (index e) (fill_specs e) (views e) (epochs e) (game e) (budget e) (writers e) (open_measurements e) (denominators e) (denominator_cost e) (reasons e) (reason_list e) (episodes e) (episode_rows e) (fill_state e) v.

Abbreviation E := (ST Engine).

Definition on_budget (m : ST Z ()) : E () := zoomS budget set_budget m.
Definition charge (amount : Z) : E () := on_budget (charge_budget amount).
Definition replace (old new : Z) : E () := on_budget (replace_budget old new).
Definition release (amount : Z) : E () := on_budget (release_budget amount).

(** [d[k]] of a dictionary of the engine. *)
Definition getk `{Countable K} {A} (m : Engine → gmap K A) (k : K) : E A :=
  e ← getS;
  match m e !! k with Some v => mret v | None => liftR (Err KeyError) end.

(** [self.writers[name].append(row)]. *)
Definition write (name : string) (row : json) : E () :=
  w ← getk writers name;
  let '(w', r) := append row w in
  _ ← modifyS (λ e, set_writers (<[name := w']> (writers e)) e);
  liftR r.

Definition digest (v : json) : result string := p ← encoded dumps v; Ok (sha256 p).
Definition episode_id (scope : Z) (entity kind : string) (start : Z) : result string :=
  digest (JArr [JInt scope; JStr entity; JStr kind; JStr (str_int start)]).

(** [require(len(encoded(value)) + slack <= MAX_LINE)]. *)
Definition fits_line (value : json) (slack : Z) (message : string) : E () :=
  b ← liftR (encoded dumps value);
  requireS (Z.of_nat (length b) + slack <=? MAX_LINE) message.

(** *** Measurements and denominators *)
Definition charge_denominator (amount : Z) : E () :=
  _ ← charge amount;
  modifyS (λ e, set_denominators (denominators e) (denominator_cost e + amount) e).

(** [_reason]: the index of a canonical reason in the table. *)
Definition reason (text : string) : E Z :=
  e ← getS;
  match reasons e !! text with
  | Some i => mret i
  | None =>
      value ← liftR (json_loads text);
      b ← liftR (if is_dict value then encoded dumps value else Ok []);
      _ ← requireS (is_dict value && bool_decide (b = text_bytes text))
            "reasons must be canonical JSON objects";
      _ ← charge (SLOT + str_cost text);
      e ← getS;
      let i := Z.of_nat (length (reason_list e)) in
      _ ← modifyS (set_reasons (<[text := i]> (reasons e)) (reason_list e ++ [value]));
      mret i
  end.

Definition totals (entity : string) : E Denominator := getk denominators entity.
Definition set_totals (entity : string) (d : Denominator) : E () :=
  modifyS (λ e, set_denominators (<[entity := d]> (denominators e)) (denominator_cost e) e).

(** A new key of a table is charged before it is added. *)
Definition charge_new `{Countable K} (m : gmap K Z) (k : K) (cost : Z) : E () :=
  match m !! k with Some _ => mret () | None => charge_denominator cost end.

(** The totals of one closed interval: [totals] is created, then each table is
    charged for a new key before the duration is added. *)
Definition init_totals (entity : string) : E () :=
  e ← getS;
  match denominators e !! entity with
  | Some _ => mret ()
  | None => _ ← set_totals entity (mkDenominator ∅ ∅ ∅); charge_denominator MEASUREMENT
  end.
Definition add_status (entity status : string) (duration : Z) : E () :=
  d ← totals entity;
  _ ← charge_new (status_ns d) status (SLOT + STR + INT);
  set_totals entity (mkDenominator (add_to status duration (status_ns d)) (d_class_ns d) (reason_ns d)).
Definition add_class (entity value_class : string) (duration : Z) : E () :=
  d ← totals entity;
  _ ← charge_new (d_class_ns d) value_class (SLOT + STR + INT);
  set_totals entity (mkDenominator (status_ns d) (add_to value_class duration (d_class_ns d)) (reason_ns d)).
Definition add_reasons (entity status : string) (indexes : list Z) (duration : Z) : E () :=
  d ← totals entity;
  _ ← charge_new (reason_ns d) (status, indexes) (SLOT + CONTAINER + INT * (2 + Z.of_nat (length indexes)));
  set_totals entity (mkDenominator (status_ns d) (d_class_ns d) (add_to (status, indexes) duration (reason_ns d))).

Definition add_totals (entity : string) (m : measured) (duration : Z) : E (list Z) :=
  let '(status, texts, value_class, _) := m in
  _ ← init_totals entity;
  _ ← add_status entity status duration;
  _ ← match value_class with Some c => add_class entity c duration | None => mret () end;
  indexes ← mapS reason texts;
  _ ← match indexes with [] => mret () | _ => add_reasons entity status indexes duration end;
  mret indexes.

(** One closure of [_emit_measurements]. *)
Definition emit_measurement (c : string * measurement * Z) : E () :=
  let '(entity, (start, m, _), end_) := c in
  if end_ <=? start then mret () else
  indexes ← add_totals entity m (end_ - start);
  en ← getk entities entity;
  if audit_intervals x && String.eqb (en_cls en) REAL then
    e ← getS;
    i ← getk index entity;
    let '(status, _, value_class, fields) := m in
    write "audit/measurements.ndjson" (JObj
      ([("scope", JInt (scope e)); ("entity", JInt i); ("start_ns", JStr (str_int start));
        ("end_ns", JStr (str_int end_)); ("status", JStr status); ("reasons", JArr (map JInt indexes))]
       ++ (match value_class with Some c => [("value_class", JStr c)] | None => [] end)
       ++ zip2 (measurement_fields x) fields))
  else mret ().

(** Closures in the order of their end, their entity's order and their start. *)
Definition closure_leb (a b : (Z * O * Z) * (string * measurement * Z)) : bool :=
  match cmp a.1 b.1 with Gt => false | _ => true end.

Definition emit_measurements (closures : list (string * measurement * Z)) : E () :=
  keyed ← mapS (λ c : string * measurement * Z,
                  en ← getk entities c.1.1; mret ((c.2, en_order en, c.1.2.1.1), c)) closures;
  forS emit_measurement (map snd (sort_by closure_leb keyed)).

(** [_write_denominators]. *)
Definition denominator_row (scope : Z) (fill : option (gmap string Z)) (i : Z) (d : Denominator) : json :=
  JObj ([("scope", JInt scope); ("entity", JInt i); ("status_ns", ns_map (status_ns d))]
        ++ (if decide (d_class_ns d = ∅) then [] else [("class_ns", ns_map (d_class_ns d))])
        ++ (if decide (reason_ns d = ∅) then []
            else [("reason_ns", JArr (map (λ kv, JArr [JStr kv.1.1; JArr (map JInt kv.1.2); JStr (str_int kv.2)])
                                        (sorted_items (reason_ns d))))])
        ++ (match fill with
            | Some f => if decide (f = ∅) then [] else [("fill_ns", ns_map f)]
            | None => []
            end)).

Definition row_leb (a b : (string * Z) * json) : bool :=
  match cmp a.1 b.1 with Gt => false | _ => true end.

Definition write_denominators : E () :=
  e ← getS;
  rs ← mapS (λ kd : string * Denominator,
               en ← getk entities kd.1; i ← getk index kd.1;
               mret ((en_group en, i), denominator_row (scope e) (fill_ns e !! kd.1) i kd.2)) (map_to_list (denominators e));
  _ ← forS (λ r : (string * Z) * json, write (r.1.1 +:+ "denominators.ndjson") r.2) (sort_by row_leb rs);
  e ← getS;
  _ ← modifyS (λ e, set_fill_ns ∅ (set_denominators ∅ (denominator_cost e) e));
  _ ← release (denominator_cost e);
  modifyS (set_denominators ∅ 0).

(** *** Fill time *)

(** [_charge_fill]. *)
Definition charge_fill (entity state : string) (duration : Z) : E () :=
  if duration <=? 0 then mret () else
  e ← getS;
  _ ← match fill_ns e !! entity with
      | Some _ => mret ()
      | None =>
          _ ← modifyS (λ e, set_fill_ns (<[entity := ∅]> (fill_ns e)) e);
          charge_denominator (CONTAINER + SLOT)
      end;
  table ← getk fill_ns entity;
  _ ← charge_new table state (SLOT + STR + INT);
  modifyS (λ e, set_fill_ns (<[entity := add_to state duration table]> (fill_ns e)) e).

(** [_fill_state]; [None] is trigger-off. *)
Definition move_fill_state (entity : string) (time : Z) (to : option (string * list Z)) : E () :=
  e ← getS;
  match fill_state e !! entity with
  | None =>
      match to with
      | None => mret ()
      | Some (st, eps) =>
          let cost := fill_state_cost (length eps) in
          _ ← charge cost;
          modifyS (λ e, set_fill_state (<[entity := mkFillState time st eps cost]> (fill_state e)) e)
      end
  | Some current =>
      if match to with Some (st, _) => String.eqb (fs_state current) st | None => false end then
        modifyS (λ e, set_fill_state
          (<[entity := mkFillState (fs_since current) (fs_state current)
               (match to with Some (_, eps) => eps | None => fs_epochs current end) (fs_cost current)]> (fill_state e)) e)
      else
        _ ← charge_fill entity (fs_state current) (time - fs_since current);
        match to with
        | None =>
            _ ← modifyS (λ e, set_fill_state (delete entity (fill_state e)) e);
            release (fs_cost current)
        | Some (st, eps) =>
            modifyS (λ e, set_fill_state (<[entity := mkFillState time st eps (fs_cost current)]> (fill_state e)) e)
        end
  end.

(** *** Slices and episodes *)

(** [_maxima]. *)
Definition maxima_of (payload : json) (current : option (list (string * json))) : result (list (string * json)) :=
  mapR (λ name,
    value ← jget payload name;
    prior ← match current with
            | None => Ok JNull
            | Some c => match dget c name with Some p => Ok p | None => Err KeyError end
            end;
    if is_none value then Ok (name, prior)
    else if is_none prior then Ok (name, value)
    else v ← py_int value; p ← py_int prior; Ok (name, if p <? v then value else prior))
  (maxima_names x).

(** [_check_retained_slice]. *)
Definition check_retained_slice (q : option quotes) (payload : json) : E quotes :=
  j ← liftR (quotes_json_opt q);
  _ ← fits_line (JObj [("consumed", j); ("open_values", payload)]) 1024 "slice retained line budget";
  mret (default [] q).

(** [_views] of an entity without a time shift. *)
Definition views_of (en : Entity O) : E (list fill_view) := mapS (getk views) (en_legs en).

(** [_emit_slice]: the episode with the slice folded into its facts. *)
Definition emit_slice (ep : Episode) (end_ : Z) (why : string) (censored : bool) : E Episode :=
  let s := slice ep in
  let start := slice_start s in
  if end_ <=? start then mret ep else
  '(survival, viables, amounts) ← liftR (Intervals.close start end_ (tiers x));
  let ep := set_facts (close_survival survival viables amounts (facts ep)) ep in
  en ← getk entities (op_entity (opening ep));
  let s := charge_class end_ (slice ep) in
  let f := close_slice_facts (tiers x) end_ survival (slice_classes s) (skew_points s) (facts ep) in
  let s' := mkSlice (slice_start s) (slice_skew s) (slice_values s) (slice_quotes s)
              (class_now s) (class_since s) ∅ (skew_points s) in
  let ep := set_facts f (set_slice s' ep) in
  e ← getS;
  id ← liftR (episode_id (scope e) (op_entity (opening ep)) (op_kind (opening ep)) (op_start (opening ep)));
  let row := [("episode_id", JStr id); ("start_ns", JStr (str_int start)); ("end_ns", JStr (str_int end_));
              ("end_reason", JStr why); ("censored", JBool censored);
              ("leg_skew_ns", JStr (str_int (slice_skew s).1)); ("skew_bucket", JInt (slice_skew s).2)] in
  _ ← match writers e !! (en_group en +:+ "slices.ndjson") with
      | Some _ => write (en_group en +:+ "slices.ndjson") (JObj row)
      | None => mret ()
      end;
  _ ← (if String.eqb (en_cls en) REAL && audit_intervals x then
         let row := JObj (row ++ [("quotes", quotes_json (slice_quotes s)); ("values", slice_values s)]) in
         _ ← fits_line row 1 "slice retained line budget";
         write "audit/slices.ndjson" row
       else mret ());
  mret ep.

(** The [fill] object with its entries for the end. *)
Definition assign (k : string) (v : json) (j : json) : json :=
  match j with
  | JObj d => JObj (map (λ kv, if String.eqb kv.1 k then (k, v) else kv) d)
  | _ => j
  end.

(** The row of a closed episode. *)
Definition episode_row (scope : Z) (with_game : bool) (i : Z) (id : string) (ep : Episode) (end_ : Z) (why : string)
    (censored : bool) (open_reasons : list Z) (at_max_quotes : json) (fill : option json) : json :=
  let o := opening ep in let f := facts ep in
  JObj ([("scope", JInt scope); ("entity", JInt i); ("episode_id", JStr id);
         ("kind", JStr (op_kind o)); ("start_ns", JStr (str_int (op_start o))); ("end_ns", JStr (str_int end_));
         ("end_reason", JStr why); ("censored", JBool censored);
         ("opening_slice_survival_ns", JStr (match opening_survival f with Some n => str_int n | None => "None" end));
         ("viable_tiers", JArr (omap (λ t, if decide (t.1 ∈ viable f) then Some (JStr t.1) else None) (tiers x)));
         ("qualified_ns", per_tier (tiers x) (qualified f) (λ v, JStr (str_int v)));
         ("qualified_by_skew_ns", per_tier (tiers x) (by_skew f) bucket_map);
         ("class_ns", class_map (class_ns f));
         ("qualifying_class_ns", per_tier (tiers x) (qualifying f) class_map);
         ("open", JObj ([("value_class", match op_class o with Some c => JStr c | None => JNull end);
                         ("reasons", JArr (map JInt open_reasons));
                         ("leg_skew_ns", JStr (str_int (op_skew o).1)); ("skew_bucket", JInt (op_skew o).2);
                         ("values", op_values o); ("quotes", quotes_json (op_quotes o))]
                        ++ (if with_game then [("game", op_game o)] else [])));
         ("maxima", JObj (maxima (peaks ep)));
         ("at_max", JObj ([("values", (at_max (peaks ep)).1); ("quotes", at_max_quotes)]
                          ++ (if with_game then [("game", max_game (peaks ep))] else [])))]
        ++ (match fill with Some j => [("fill", j)] | None => [] end)).

Definition episode_charge (ep : Episode) : Z :=
  ep_cost ep + (Z.of_nat (length (skew_points (slice ep))) - 1) * (PAIR + SLOT).

(** One closure of [_close_episodes]. *)
Definition closure := ((string * string) * Z * string * bool)%type.
Definition close_episode (c : closure) : E () :=
  let '(key, end_, why, censored) := c in
  ep ← getk episodes key;
  _ ← modifyS (λ e, set_episodes (delete key (episodes e)) (episode_rows e) e);
  _ ← release (episode_charge ep);
  ep ← emit_slice ep end_ why censored;
  if end_ <=? op_start (opening ep) then mret () else
  en ← getk entities key.1;
  e ← getS;
  _ ← requireS (episode_rows e <? MAX_ROWS) "combined episode row budget";
  _ ← modifyS (λ e, set_episodes (episodes e) (episode_rows e + 1) e);
  i ← getk index key.1;
  id ← liftR (episode_id (scope e) key.1 (op_kind (opening ep)) (op_start (opening ep)));
  open_reasons ← mapS reason (op_reasons (opening ep));
  amq ← liftR (quotes_json_opt (at_max (peaks ep)).2);
  fill ← match ep_fill ep with
         | None => mret None
         | Some (_, j) =>
             spec ← getk fill_specs key.1;
             vs ← views_of en;
             b ← liftR (end_books (sources spec.1) vs);
             mret (Some (assign "end_books" b j))
         end;
  e ← getS;
  write (en_group en +:+ "episodes.ndjson") (episode_row (scope e) (bool_decide (is_Some (game e))) i id ep end_ why censored open_reasons amq fill).

Definition episode_leb (a b : (O * string * Z) * closure) : bool :=
  match cmp a.1 b.1 with Gt => false | _ => true end.

Definition close_episodes (cs : list closure) : E () :=
  keyed ← mapS (λ c : closure, let key := c.1.1.1 in
                  en ← getk entities key.1; ep ← getk episodes key;
                  mret ((en_order en, key.2, op_start (opening ep)), c)) cs;
  forS close_episode (map snd (sort_by episode_leb keyed)).

(** [_open_episode]. *)
Definition open_episode (key : string * string) (time : Z) (o : Observation) (sk : skew)
    (priced : option (list (option Z) * json)) : E () :=
  q ← check_retained_slice (o_quotes o) (o_payload o);
  _ ← match priced with
      | None => mret ()
      | Some (kill, j) =>
          fits_line j (1024 + Z.of_nat (length kill) * END_BOOK_LINE) "fill retained line budget"
      end;
  m ← liftR (maxima_of (o_payload o) None);
  e ← getS;
  let g := default JNull (game e) in
  let cost := (episode_cost o (length (tiers x)) + (if game e then 2 * json_cost g else 0)) * 2
              + (match priced with Some (kill, j) => live_fill_cost j kill | None => 0 end) in
  let zeros {A} (a : A) : gmap string A := list_to_map (map (λ t, (t.1, a)) (tiers x)) in
  let ep := mkEpisode
    (mkOpening key.1 key.2 time (o_payload o) q sk (o_class o) (o_reasons o) g)
    (mkSlice time sk (o_payload o) q (o_class o) time ∅ [(time, sk)])
    (mkFacts (zeros 0) ∅ None ∅ (zeros ∅) (zeros ∅))
    (mkPeaks m (o_payload o, o_quotes o) g) cost priced in
  _ ← requireS (Z.of_nat (base.size (episodes e)) <? Z.of_nat (base.size (entities e)) * Z.of_nat (length (kinds x)))
        "open episode bound";
  _ ← charge cost;
  modifyS (λ e, set_episodes (<[key := ep]> (episodes e)) (episode_rows e) e).

Definition put_episode (key : string * string) (ep : Episode) : E () :=
  modifyS (λ e, set_episodes (<[key := ep]> (episodes e)) (episode_rows e) e).

(** A slice replaced by one that starts now. *)
Definition split_slice (key : string * string) (ep : Episode) (time : Z) (o : Observation) (sk : skew) : E Episode :=
  q ← check_retained_slice (o_quotes o) (o_payload o);
  e ← getS;
  let cost := episode_cost o (length (tiers x)) * 2
              + (match game e with Some _ => json_cost (op_game (opening ep)) + json_cost (max_game (peaks ep)) | None => 0 end) in
  _ ← replace (ep_cost ep) cost;
  ep ← emit_slice (set_cost cost ep) time "CONSUMED_CHANGED" false;
  let s := slice ep in
  _ ← release ((Z.of_nat (length (skew_points s)) - 1) * (PAIR + SLOT));
  mret (set_slice (mkSlice time sk (o_payload o) q (class_now s) (class_since s) (slice_classes s) [(time, sk)]) ep).

(** [skew != episode.skew_points[-1][1]]. *)
Definition skew_moved (sk : skew) (s : Slice) : bool :=
  match last (skew_points s) with Some (_, sk') => negb (bool_decide (sk = sk')) | None => true end.

Definition quotes_differ (o : Observation) (s : Slice) : bool :=
  negb (bool_decide (o_quotes o = Some (slice_quotes s))).

(** [_update_episode]. *)
Definition update_episode (key : string * string) (time : Z) (o : Observation) (sk : skew) : E () :=
  ep ← getk episodes key;
  let s := slice ep in
  let s := if bool_decide (o_class o = class_now s) then s else
    let s := charge_class time s in
    mkSlice (slice_start s) (slice_skew s) (slice_values s) (slice_quotes s) (o_class o)
      (class_since s) (slice_classes s) (skew_points s) in
  let ep := set_slice s ep in
  _ ← put_episode key ep;
  ep ← (if match ep_fill ep with None => quotes_differ o s | Some _ => false end
        then split_slice key ep time o sk
        else if skew_moved sk s then
          _ ← requireS (Z.of_nat (length (skew_points s)) <? MAX_SKEW_POINTS) "skew changes per slice";
          _ ← charge (PAIR + SLOT);
          mret (set_slice (mkSlice (slice_start s) (slice_skew s) (slice_values s) (slice_quotes s)
            (class_now s) (class_since s) (slice_classes s) (skew_points s ++ [(time, sk)])) ep)
        else mret ep);
  m ← liftR (maxima_of (o_payload o) (Some (maxima (peaks ep))));
  first ← liftR (match maxima_names x with [] => Err IndexError | n :: _ => Ok n end);
  e ← getS;
  let new := default JNull (dget m first) in
  let old := default JNull (dget (maxima (peaks ep)) first) in
  let p := if negb (is_none new) && negb (json_eqb new old)
           then mkPeaks m (o_payload o, o_quotes o) (default (max_game (peaks ep)) (game e))
           else mkPeaks m (at_max (peaks ep)) (max_game (peaks ep)) in
  put_episode key (set_peaks p ep).

(** Why an episode whose predicate no longer holds ends. *)
Definition end_reason (o : Observation) : string :=
  if String.eqb (o_status o) EVALUATED then "PREDICATE_FALSE" else o_status o.

(** [_commit_fill] when the trigger holds and no episode is open: price, open, record. *)
Definition reprice (p : FillPolicy) (en : Entity O) (key : string * string) (time : Z)
    (o : Observation) (sk : skew) : E () :=
  e ← getS;
  let eps := map (λ leg, default 0 (epochs e !! leg)) (en_legs en) in
  if match fill_state e !! en_id en with
     | Some s => negb (String.eqb (fs_state s) FILL_LIVE) && bool_decide (fs_epochs s = eps)
     | None => false
     end then mret () else
  '(spec, maximums) ← getk fill_specs (en_id en);
  vs ← views_of en;
  ladders ← liftR (mapR (λ vs : fill_view * string,
      match ladders_of vs.1 !! vs.2 with Some l => Ok l | None => Err KeyError end) (zip2 vs (sources spec)));
  priced ← liftR (price p spec ladders maximums (fill_value en time));
  _ ← match kill priced, priced_json priced with
      | Some ks, Some j =>
          if String.eqb (state priced) FILL_LIVE then open_episode key time o sk (Some (ks, j)) else mret ()
      | _, _ => mret ()
      end;
  move_fill_state (en_id en) time (Some (state priced, eps)).

(** [_commit_fill]. *)
Definition commit_fill (p : FillPolicy) (en : Entity O) (key : string * string) (time : Z)
    (o : Observation) (sk : skew) : E () :=
  let trigger := bool_decide (key.2 ∈ o_predicates o) in
  e ← getS;
  match episodes e !! key with
  | Some ep =>
      if negb trigger then
        _ ← close_episodes [(key, time, end_reason o, false)];
        move_fill_state (en_id en) time None
      else
        '(spec, _) ← getk fill_specs (en_id en);
        vs ← views_of en;
        kill ← liftR (match ep_fill ep with Some (k, _) => Ok k | None => Err AttributeError end);
        hit ← liftR (crossed kill (sources spec) vs);
        match hit with
        | None => update_episode key time o sk
        | Some (leg, best) =>
            let mark j := assign "kill_best" (level_json best) (assign "kill_leg" (JInt (Z.of_nat leg)) j) in
            _ ← put_episode key (set_fill (option_map (λ kj, (kj.1, mark kj.2)) (ep_fill ep)) ep);
            _ ← close_episodes [(key, time, KILL_PRICE, false)];
            reprice p en key time o sk
        end
  | None => if negb trigger then move_fill_state (en_id en) time None else reprice p en key time o sk
  end.

(** Whether the episodes of a kind are priced fills. *)
Definition fill_policy_of (kind : string) : option FillPolicy :=
  p ← fills x; if String.eqb kind (FillChecks.kind p) then Some p else None.

(** One kind of [_commit].  A skew is computed whenever a predicate holds, and read only
    then. *)
Definition commit_kind (en : Entity O) (time : Z) (o : Observation) (sk : skew) (kind : string) : E () :=
  let key := (en_id en, kind) in
  match fill_policy_of kind with
  | Some p => commit_fill p en key time o sk
  | None =>
      e ← getS;
      match episodes e !! key with
      | Some _ =>
          if decide (kind ∈ o_predicates o) then update_episode key time o sk
          else close_episodes [(key, time, end_reason o, false)]
      | None => if decide (kind ∈ o_predicates o) then open_episode key time o sk None else mret ()
      end
  end.

(** A dictionary with its insertion order. *)
Fixpoint alookup {A} (k : string) (l : list (string * A)) : option A :=
  match l with
  | [] => None
  | (k', a) :: l => if String.eqb k k' then Some a else alookup k l
  end.
Fixpoint aset {A} (k : string) (a : A) (l : list (string * A)) : list (string * A) :=
  match l with
  | [] => [(k, a)]
  | (k', a') :: l => if String.eqb k k' then (k', a) :: l else (k', a') :: aset k a l
  end.

Definition commit_measurement (id : string) (time : Z) (o : Observation) : E () :=
  e ← getS;
  let prior := alookup id (open_measurements e) in
  let m := measured_of o in
  if match prior with Some (_, m', _) => measured_same m' m | None => false end then mret () else
  _ ← match prior with Some p => emit_measurements [(id, p, time)] | None => mret () end;
  let cost := MEASUREMENT + observation_cost o - OBSERVATION in
  _ ← replace (match prior with Some (_, _, c) => c | None => 0 end) cost;
  modifyS (λ e, set_open_measurements (aset id (time, m, cost) (open_measurements e)) e).

(** [_commit]. *)
Definition commit (en : Entity O) (time : Z) (o : Observation) (sk : skew) : E () :=
  _ ← commit_measurement (en_id en) time o;
  if String.eqb (en_cls en) CONTROL && negb (controls_episodes x) then mret ()
  else forS (commit_kind en time o sk) (kinds x).

(** [sorted] keys of a dictionary. *)
Definition sorted_keys {K A} `{Countable K, Compare K} (m : gmap K A) : list K :=
  sorted (map fst (map_to_list m)).

(** [_close_scope]. *)
Definition close_scope (time : Z) (why : string) (censored : bool) : E () :=
  e ← getS;
  _ ← emit_measurements (map (λ p, (p, time)) (open_measurements e));
  e ← getS;
  _ ← release (sumZ (map (λ p : string * measurement, p.2.2) (open_measurements e)));
  _ ← modifyS (set_open_measurements []);
  e ← getS;
  _ ← close_episodes (map (λ key, (key, time, why, censored)) (sorted_keys (episodes e)));
  e ← getS;
  _ ← forS (λ id, move_fill_state id time None) (sorted_keys (fill_state e));
  write_denominators.
End Engine.
