(* ===== verification/EpisodeFacts.v ===== *)
(** * What an episode measures

    Reference definitions for the facts of [Episodes]: time spent while a property of
    the committed observation holds, the slices of a run of observations, and each fact as
    a sum over them.  The accumulators of a slice and of an episode compute these sums,
    however the observations are merged on the way. *)
From stdpp Require Import gmap strings.
From S2P Require Import Prelude Order Wire Json EconomicFills FillChecks LineWriter EconomicTypes Intervals Episodes.

(** ** Committed observations *)
Record Commit := mkCommit { c_time : Z; c_obs : Observation; c_skew : skew }.

(** Time spent until [T] while the observation in force satisfies [P]. *)
Fixpoint spent (P : Commit → bool) (h : list Commit) (T : Z) : Z :=
  match h with
  | [] => 0
  | c :: h => (if P c then match h with c' :: _ => c_time c' | [] => T end - c_time c else 0) + spent P h T
  end.

(** The same, restricted to instants before [window]. *)
Fixpoint spent_before (window : Z) (P : Commit → bool) (h : list Commit) (T : Z) : Z :=
  match h with
  | [] => 0
  | c :: h =>
      (if P c then Z.max 0 (Z.min (match h with c' :: _ => c_time c' | [] => T end) window - c_time c) else 0)
      + spent_before window P h T
  end.

(** Times that do not decrease, up to [T]. *)
Fixpoint timed (h : list Commit) (T : Z) : Prop :=
  match h with
  | [] => True
  | c :: h => c_time c ≤ match h with c' :: _ => c_time c' | [] => T end ∧ timed h T
  end.

(** ** Slices: maximal stretches of equal consumed quotes *)
Definition same_quotes (c c' : Commit) : bool := bool_decide (o_quotes (c_obs c) = o_quotes (c_obs c')).

Definition slice_step (st : list (list Commit * Z) * list Commit) (c : Commit) : list (list Commit * Z) * list Commit :=
  match st.2 with
  | [] => (st.1, [c])
  | c0 :: _ => if same_quotes c0 c then (st.1, st.2 ++ [c]) else (st.1 ++ [(st.2, c_time c)], [c])
  end.
Definition slices_open (run : list Commit) : list (list Commit * Z) * list Commit := foldl slice_step ([], []) run.

(** The slices of a run that ends at [T], each with its end. *)
Definition slices_of (run : list Commit) (T : Z) : list (list Commit * Z) :=
  (slices_open run).1 ++ [((slices_open run).2, T)].

Definition start_of (g : list Commit) : Z := match g with c :: _ => c_time c | [] => 0 end.
Definition length_of (g : list Commit * Z) : Z := g.2 - start_of g.1.
Definition sum_slices (f : list Commit * Z → Z) (L : list (list Commit * Z)) : Z := sumZ (map f L).

Definition in_class (c : option string) (m : Commit) : bool := bool_decide (o_class (c_obs m) = c).
Definition in_bucket (b : Z) (m : Commit) : bool := (c_skew m).2 =? b.

(** An entry of a table of totals. *)
Definition total `{Countable K} (m : gmap K Z) (k : K) : Z := default 0 (m !! k).

(** The facts of the slices [L]. *)
Record facts_of (ts : list (string * Z)) (L : list (list Commit * Z)) (f : Facts) : Prop := FactsOf {
  fo_qualified : ∀ t, t ∈ ts → total (qualified f) t.1 = sum_slices (λ g, Z.max 0 (length_of g - t.2)) L;
  fo_viable : ∀ t, t ∈ ts → t.1 ∈ viable f ↔ ∃ g, g ∈ L ∧ 0 < length_of g ∧ t.2 ≤ length_of g;
  fo_opening : opening_survival f = head (filter (λ n, 0 < n) (map length_of L));
  fo_class : ∀ c, total (class_ns f) c = sum_slices (λ g, spent (in_class c) g.1 g.2) L;
  fo_qualifying : ∀ t c, t ∈ ts → total (default ∅ (qualifying f !! t.1)) c
    = sum_slices (λ g, if t.2 <=? length_of g then spent (in_class c) g.1 g.2 else 0) L;
  fo_skew : ∀ t b, t ∈ ts → total (default ∅ (by_skew f !! t.1)) b
    = sum_slices (λ g, spent_before (g.2 - t.2) (in_bucket b) g.1 g.2) L;
}.

(** ** Spent time *)
Lemma spent_snoc P h c T : spent P (h ++ [c]) T = spent P h (c_time c) + (if P c then T - c_time c else 0).
Proof. induction h as [|a [|b h] IH]; simpl in *; [lia..|]. lia. Qed.

Lemma spent_before_snoc W P h c T :
  spent_before W P (h ++ [c]) T
  = spent_before W P h (c_time c) + (if P c then Z.max 0 (Z.min T W - c_time c) else 0).
Proof. induction h as [|a [|b h] IH]; simpl in *; [lia..|]. lia. Qed.

Lemma timed_snoc h c T : timed (h ++ [c]) T ↔ timed h (c_time c) ∧ c_time c ≤ T.
Proof. induction h as [|a [|b h] IH]; simpl in *; [tauto..|]. tauto. Qed.

Lemma timed_mono h T T' : T ≤ T' → timed h T → timed h T'.
Proof. intros HT. induction h as [|a [|b h] IH]; simpl in *; [done|lia|]. intros [? ?]. auto. Qed.

Lemma timed_start h c T : timed (c :: h) T → c_time c ≤ T.
Proof. revert c. induction h as [|b h IH]; simpl; [tauto|]. intros c [? H]. apply IH in H. lia. Qed.

Lemma spent_all h T : h ≠ [] → spent (λ _, true) h T = T - start_of h.
Proof. induction h as [|a [|b h] IH]; intros Hn; simpl in *; [done|lia|]. specialize (IH ltac:(done)). lia. Qed.

Lemma spent_ext P Q h T : (∀ c, c ∈ h → P c = Q c) → spent P h T = spent Q h T.
Proof.
  induction h as [|a h IH]; intros He; simpl; [done|].
  rewrite (He a ltac:(by left)), IH; [done|]. intros c Hc. apply He. by right.
Qed.

Lemma spent_nonneg P h T : timed h T → 0 ≤ spent P h T.
Proof. induction h as [|a h IH]; simpl; [lia|]. intros [? H]. apply IH in H. destruct (P a); lia. Qed.

Lemma spent_le P h T : timed h T → spent P h T ≤ spent (λ _, true) h T.
Proof. induction h as [|a h IH]; simpl; [lia|]. intros [? H]. apply IH in H. destruct (P a); lia. Qed.

Lemma spent_before_bounds W P h T : timed h T → 0 ≤ spent_before W P h T ≤ spent P h T.
Proof. induction h as [|a h IH]; simpl; [lia|]. intros [? H]. apply IH in H. destruct (P a); lia. Qed.

Lemma spent_app P h c k T :
  spent P (h ++ c :: k) T = spent P h (c_time c) + spent P (c :: k) T.
Proof. induction h as [|a [|b h] IH]; simpl in *; [lia..|]. lia. Qed.

(** Every instant before [window] has a bucket: the buckets add up to the qualified time. *)
Lemma spent_before_all W h T : timed h T → W ≤ T → h ≠ [] →
  spent_before W (λ _, true) h T = Z.max 0 (W - start_of h).
Proof.
  intros Ht HW. induction h as [|a [|b h] IH]; intros Hn; simpl in *; [done|lia|].
  destruct Ht as [Hab Ht]. specialize (IH Ht ltac:(done)). lia.
Qed.

(** ** Tables of totals *)
Section Totals.
Context `{Countable K}.
Implicit Types (m : gmap K Z) (k : K).

Lemma total_add k n m k' : total (add_to k n m) k' = total m k' + (if decide (k = k') then n else 0).
Proof.
  unfold total, add_to. destruct (decide (k = k')) as [->|]; [by rewrite lookup_insert_eq|].
  rewrite lookup_insert_ne by done. lia.
Qed.

Lemma total_empty k : total ∅ k = 0.
Proof. unfold total. by rewrite lookup_empty. Qed.

Lemma total_insert k v m k' : total (<[k := v]> m) k' = if decide (k = k') then v else total m k'.
Proof.
  unfold total. destruct (decide (k = k')) as [->|]; [by rewrite lookup_insert_eq|by rewrite lookup_insert_ne].
Qed.

Lemma total_add_all a m k : total (add_all a m) k = total m k + total a k.
Proof.
  unfold add_all. rewrite <- (list_to_map_to_list a) at 2. pose proof (NoDup_fst_map_to_list a) as Hnd.
  induction (map_to_list a) as [|[k' v] l IH]; cbn [foldr list_to_map]; [rewrite total_empty; lia|].
  apply NoDup_cons in Hnd as [Hk Hnd]. rewrite total_add, IH by done. cbn [fst snd].
  rewrite total_insert. destruct (decide (k' = k)) as [->|]; [|lia].
  unfold total at 2. rewrite not_elem_of_list_to_map_1 by done. simpl. lia.
Qed.

(** The sum of a table. *)
Definition table_sum (m : gmap K Z) : Z := sumZ (map snd (map_to_list m)).
Lemma sumZ_perm l l' : Permutation l l' → sumZ l = sumZ l'.
Proof. induction 1; simpl in *; lia. Qed.
Lemma table_sum_insert k v m : m !! k = None → table_sum (<[k := v]> m) = v + table_sum m.
Proof.
  intros Hk. unfold table_sum.
  rewrite (sumZ_perm _ _ (Permutation_map snd (map_to_list_insert m k v Hk))). done.
Qed.
Lemma table_sum_add k n m : table_sum (add_to k n m) = table_sum m + n.
Proof.
  unfold add_to. rewrite <- insert_delete_eq, table_sum_insert by apply lookup_delete_eq.
  destruct (m !! k) as [v|] eqn:E; simpl.
  - rewrite <- (insert_delete_id m k v E) at 2. rewrite table_sum_insert by apply lookup_delete_eq. lia.
  - rewrite delete_id by done. lia.
Qed.
Lemma table_sum_empty : table_sum ∅ = 0.
Proof. done. Qed.

(** No entry is zero or negative. *)
Definition entries_positive (m : gmap K Z) : Prop := map_Forall (λ _ v, 0 < v) m.
Lemma positive_add k n m : entries_positive m → 0 < n → entries_positive (add_to k n m).
Proof.
  intros Hm Hn. apply map_Forall_insert_2; [|done]. destruct (m !! k) as [v|] eqn:E; simpl; [|lia].
  apply Hm in E. lia.
Qed.
Lemma positive_empty : entries_positive ∅.
Proof. apply map_Forall_empty. Qed.
Lemma positive_zero m : entries_positive m → (∀ k, total m k = 0) → m = ∅.
Proof.
  intros Hp Hz. apply map_eq. intros k. rewrite lookup_empty. destruct (m !! k) as [v|] eqn:E; [|done].
  specialize (Hz k). unfold total in Hz. rewrite E in Hz. apply Hp in E. simpl in *. lia.
Qed.
End Totals.

(** ** The skew points of a slice *)

(** The time before [window] that the points give to bucket [b]. *)
Fixpoint overlaps (window : Z) (points : list (Z * skew)) (b T : Z) : Z :=
  match points with
  | [] => 0
  | (a, sk) :: points =>
      (if sk.2 =? b then Z.max 0 (Z.min (match points with (next, _) :: _ => next | [] => T end) window - a) else 0)
      + overlaps window points b T
  end.

Lemma total_skew_overlaps W T points m b :
  total (skew_overlaps W T points m) b = total m b + overlaps W points b T.
Proof.
  revert m. induction points as [|[a sk] points IH]; intros m; simpl; [lia|]. rewrite IH.
  set (n := Z.min _ W - a). destruct (Z.ltb_spec 0 n).
  - rewrite total_add. destruct (Z.eqb_spec sk.2 b), (decide (sk.2 = b)); try done; lia.
  - destruct (sk.2 =? b); lia.
Qed.

Lemma overlaps_snoc W points a sk b T :
  overlaps W (points ++ [(a, sk)]) b T
  = overlaps W points b a + (if sk.2 =? b then Z.max 0 (Z.min T W - a) else 0).
Proof. induction points as [|[a1 s1] [|[a2 s2] points] IH]; simpl in *; [lia..|]. lia. Qed.

(** ** The slice in progress *)

(** At [T], the slice accounts for the commits [cur]. *)
Record slice_at (cur : list Commit) (s : Slice) (T : Z) : Prop := SliceAt {
  sa_start : slice_start s = start_of cur;
  sa_class : ∀ c, total (slice_classes s) c + (if decide (class_now s = c) then T - class_since s else 0)
             = spent (in_class c) cur T;
  sa_since : slice_start s ≤ class_since s ≤ T;
  sa_positive : entries_positive (slice_classes s);
  sa_skew : ∀ W b, overlaps W (skew_points s) b T = spent_before W (in_bucket b) cur T;
  sa_last : ∃ points a sk, skew_points s = points ++ [(a, sk)] ∧ a ≤ T;
}.

Definition slice_holds (cur : list Commit) (s : Slice) : Prop :=
  cur ≠ [] ∧ ∀ T, timed cur T → slice_at cur s T.

(** The change of class that an update makes before it looks at the quotes. *)
Definition reclass (c : Commit) (s : Slice) : Slice :=
  if bool_decide (o_class (c_obs c) = class_now s) then s
  else let s := charge_class (c_time c) s in
       mkSlice (slice_start s) (slice_skew s) (slice_values s) (slice_quotes s) (o_class (c_obs c))
         (class_since s) (slice_classes s) (skew_points s).
Definition reskew (c : Commit) (s : Slice) : Slice :=
  if skew_moved (c_skew c) s
  then mkSlice (slice_start s) (slice_skew s) (slice_values s) (slice_quotes s)
         (class_now s) (class_since s) (slice_classes s) (skew_points s ++ [(c_time c, c_skew c)])
  else s.

Lemma total_charge s t c : class_since s ≤ t →
  total (slice_classes (charge_class t s)) c
  = total (slice_classes s) c + (if decide (class_now s = c) then t - class_since s else 0).
Proof.
  intros Ht. unfold charge_class. simpl. destruct (Z.eqb_spec (t - class_since s) 0) as [E|E].
  - destruct (decide _); lia.
  - by rewrite total_add.
Qed.

Lemma positive_charge s t : class_since s ≤ t → entries_positive (slice_classes s) →
  entries_positive (slice_classes (charge_class t s)).
Proof.
  intros Ht Hp. unfold charge_class. simpl. destruct (Z.eqb_spec (t - class_since s) 0); [done|].
  apply positive_add; [done|lia].
Qed.

Lemma reclass_at c cur s : slice_at cur s (c_time c) →
  slice_at cur (reclass c s) (c_time c) ∧
  class_now (reclass c s) = o_class (c_obs c) ∧ skew_points (reclass c s) = skew_points s ∧
  slice_start (reclass c s) = slice_start s ∧ slice_quotes (reclass c s) = slice_quotes s.
Proof.
  intros [Hst Hc [Hl Hu] Hp Hs Hk]. unfold reclass. case_bool_decide as E; [done|].
  split; [|done]. split; cbn [slice_start slice_classes class_now class_since skew_points]; try done.
  - intros k. rewrite total_charge, Hc by lia. change (class_since (charge_class (c_time c) s)) with (c_time c).
    destruct (decide _); lia.
  - change (class_since (charge_class (c_time c) s)) with (c_time c).
    change (slice_start (charge_class (c_time c) s)) with (slice_start s). lia.
  - by apply positive_charge.
Qed.

Lemma spent_later P h T T' c : spent P (h ++ [c]) T' = spent P (h ++ [c]) T + (if P c then T' - T else 0).
Proof. rewrite !spent_snoc. destruct (P c); lia. Qed.

(** A commit with the quotes of the slice extends it. *)
Lemma slice_extend cur s c : slice_holds cur s → timed (cur ++ [c]) (c_time c) →
  slice_holds (cur ++ [c]) (reskew c (reclass c s)).
Proof.
  intros [Hne Hs] [Ht _]%timed_snoc. split; [by destruct cur|]. intros T [_ HT]%timed_snoc.
  specialize (Hs _ Ht). apply reclass_at in Hs as ([Hst Hc [Hl Hu] Hp Hk Hlast] & Hn & _).
  set (s1 := reclass c s) in *. destruct Hlast as (points & a & sk & Epts & Ha).
  assert (start_of (cur ++ [c]) = start_of cur) as Estart by by destruct cur.
  assert (∀ k, total (slice_classes s1) k + (if decide (class_now s1 = k) then T - class_since s1 else 0)
    = spent (in_class k) (cur ++ [c]) T) as Hclass.
  { intros k. rewrite spent_snoc, <- Hc. unfold in_class at 1. rewrite Hn.
    destruct (decide (o_class (c_obs c) = k)); [rewrite bool_decide_eq_true_2 by done|rewrite bool_decide_eq_false_2 by done]; lia. }
  unfold reskew. destruct (skew_moved (c_skew c) s1) eqn:Em.
  - split; cbn [slice_start slice_classes class_now class_since skew_points]; try done; [by rewrite Estart|lia| |].
    + intros W b. rewrite overlaps_snoc, spent_before_snoc, Hk. done.
    + eauto.
  - split; try done; [by rewrite Estart|lia| |].
    + intros W b. rewrite spent_before_snoc, <- Hk. unfold skew_moved in Em. rewrite Epts in *.
      rewrite last_snoc in Em. apply negb_false_iff, bool_decide_eq_true in Em as Esk.
      rewrite !overlaps_snoc. unfold in_bucket. rewrite Esk. destruct (sk.2 =? b); lia.
    + exists points, a, sk. split; [done|lia].
Qed.

(** A slice that one commit starts. *)
Lemma slice_new c s :
  slice_start s = c_time c → class_now s = o_class (c_obs c) → class_since s = c_time c →
  slice_classes s = ∅ → skew_points s = [(c_time c, c_skew c)] → slice_holds [c] s.
Proof.
  intros H1 H2 H3 H4 H5. split; [done|]. intros T [HT _]. split; simpl; try done.
  - intros k. rewrite H4, total_empty, H2, H3. unfold in_class.
    destruct (decide _); [rewrite bool_decide_eq_true_2 by done|rewrite bool_decide_eq_false_2 by done]; lia.
  - lia.
  - rewrite H4. apply positive_empty.
  - intros W b. rewrite H5. simpl. unfold in_bucket. destruct (_ =? b); lia.
  - exists [], (c_time c), (c_skew c). by rewrite H5.
Qed.

(** ** Closing a slice *)

(** What [emit_slice] does to the slice and the facts. *)
Definition fold_slice (ts : list (string * Z)) (end_ : Z) (s : Slice) (f : Facts) : Slice * Facts :=
  if end_ <=? slice_start s then (s, f) else
  let survival := end_ - slice_start s in
  let f := close_survival survival (map fst (filter (λ t, t.2 ≤ survival) ts)) (qualified_of survival ts) f in
  let s := charge_class end_ s in
  (mkSlice (slice_start s) (slice_skew s) (slice_values s) (slice_quotes s) (class_now s) (class_since s) ∅
     (skew_points s),
   close_slice_facts ts end_ survival (slice_classes s) (skew_points s) f).

Lemma sum_slices_snoc f L g : sum_slices f (L ++ [g]) = sum_slices f L + f g.
Proof. unfold sum_slices. rewrite map_app, sumZ_app. simpl. lia. Qed.

Section Fold.
Context (ts : list (string * Z)) (Hts : NoDup ts.*1).

Lemma tier_eq t t' : t ∈ ts → t' ∈ ts → t.1 = t'.1 → t = t'.
Proof.
  intros Ht Ht' E. destruct t as [n a], t' as [n' b]. simpl in E. subst n'.
  f_equal. clear -Hts Ht Ht'. induction ts as [|[m d] l IH]; [by apply not_elem_of_nil in Ht|].
  simpl in Hts. apply NoDup_cons in Hts as [Hm Hl].
  assert (∀ v, (m, v) ∈ l → False) as Hno by (intros v Hv; apply Hm; by apply (list_elem_of_fmap_2 fst) in Hv).
  apply elem_of_cons in Ht as [[= -> ->]|Ht], Ht' as [[= ->]|Ht']; try (by subst); try (exfalso; by eauto). by apply IH.
Qed.

Lemma total_qualified survival t : t ∈ ts → total (qualified_of survival ts) t.1 = Z.max 0 (survival - t.2).
Proof.
  intros Ht. unfold total, qualified_of.
  rewrite (elem_of_list_to_map_1 _ t.1 (Z.max 0 (survival - t.2))); [done| |].
  - rewrite <- list_fmap_compose. change (NoDup (fst <$> rev ts)). by rewrite <- Permutation_rev.
  - apply list_elem_of_In, in_map_iff. exists t. split; [done|]. by rewrite <- in_rev, <- list_elem_of_In.
Qed.

Context (end_ survival : Z) (classes : gmap (option string) Z) (points : list (Z * skew)).
Local Abbreviation tiers_fold := (foldl (close_tier end_ survival classes points)).

Lemma fold_kept l f :
  qualified (tiers_fold f l) = qualified f ∧ viable (tiers_fold f l) = viable f ∧
  opening_survival (tiers_fold f l) = opening_survival f ∧ class_ns (tiers_fold f l) = class_ns f.
Proof. revert f. induction l as [|u l IH]; intros f; [done|]. cbn [foldl]. by destruct (IH (close_tier end_ survival classes points f u)) as (-> & -> & -> & ->). Qed.

Lemma fold_other l f n : n ∉ l.*1 →
  qualifying (tiers_fold f l) !! n = qualifying f !! n ∧ by_skew (tiers_fold f l) !! n = by_skew f !! n.
Proof.
  revert f. induction l as [|u l IH]; intros f Hn; [done|].
  rewrite fmap_cons in Hn. apply not_elem_of_cons in Hn as [Hu Hn]. cbn [foldl].
  destruct (IH (close_tier end_ survival classes points f u) Hn) as [-> ->]. cbn [close_tier qualifying by_skew].
  rewrite lookup_insert_ne by done. split; [|done]. destruct (_ <=? _); [by rewrite lookup_insert_ne|done].
Qed.

(** The loop over the tiers treats each tier once. *)
Lemma fold_tier l f t : NoDup l.*1 → t ∈ l →
  default ∅ (qualifying (tiers_fold f l) !! t.1)
  = (if t.2 <=? survival then add_all classes (default ∅ (qualifying f !! t.1)) else default ∅ (qualifying f !! t.1)) ∧
  default ∅ (by_skew (tiers_fold f l) !! t.1)
  = skew_overlaps (end_ - t.2) end_ points (default ∅ (by_skew f !! t.1)).
Proof.
  revert f. induction l as [|u l IH]; intros f Hnd Ht; [by apply not_elem_of_nil in Ht|].
  rewrite fmap_cons in Hnd. apply NoDup_cons in Hnd as [Hu Hnd]. cbn [foldl].
  apply elem_of_cons in Ht as [->|Ht].
  - destruct (fold_other l (close_tier end_ survival classes points f u) u.1 Hu) as [-> ->].
    cbn [close_tier qualifying by_skew]. rewrite lookup_insert_eq. split; [|done].
    destruct (_ <=? _); [by rewrite lookup_insert_eq|done].
  - destruct (IH (close_tier end_ survival classes points f u) Hnd Ht) as [-> ->].
    cbn [close_tier qualifying by_skew].
    assert (u.1 ≠ t.1) by (intros E; apply Hu; rewrite E; by apply (list_elem_of_fmap_2 fst)).
    rewrite lookup_insert_ne by done. split; [|done]. destruct (u.2 <=? _); [by rewrite lookup_insert_ne|done].
Qed.
End Fold.

Lemma total_if (b : bool) `{Countable K} (m m' : gmap K Z) k : total (if b then m else m') k = if b then total m k else total m' k.
Proof. by destruct b. Qed.

Lemma head_app_filter {A} (P : A → Prop) `{!∀ a, Decision (P a)} (l : list A) a :
  head (filter P (l ++ [a])) = match head (filter P l) with Some b => Some b | None => if decide (P a) then Some a else None end.
Proof.
  rewrite filter_app. destruct (filter P l); [|done]. simpl. rewrite filter_cons, filter_nil. by destruct (decide (P a)).
Qed.

(** Closing the slice in progress at [T] adds it to the facts. *)
Lemma facts_fold ts L f cur s T :
  NoDup ts.*1 → Forall (λ t, 0 ≤ t.2) ts → timed cur T → cur ≠ [] →
  facts_of ts L f → slice_at cur s T → facts_of ts (L ++ [(cur, T)]) (fold_slice ts T s f).2.
Proof.
  intros Hnd Hpos Ht Hne [Fq Fv Fo Fc Fqc Fs] [Hst Hc [Hl Hu] Hp Hs _].
  assert (∀ t, t ∈ ts → 0 ≤ t.2) as Hpos' by (intros t ?; rewrite Forall_forall in Hpos; auto).
  assert (length_of (cur, T) = T - slice_start s) as Elen by (unfold length_of; simpl; lia).
  unfold fold_slice. destruct (Z.leb_spec T (slice_start s)) as [Hz|Hz].
  - assert (∀ P, spent P cur T = 0) as Hz0.
    { intros P. pose proof (spent_nonneg P cur T Ht). pose proof (spent_le P cur T Ht).
      rewrite spent_all in * by done. lia. }
    assert (∀ W P, spent_before W P cur T = 0) as Hz1.
    { intros W P. pose proof (spent_before_bounds W P cur T Ht). rewrite Hz0 in *. lia. }
    split; cbn [snd].
    + intros t Hin. specialize (Hpos' t Hin). rewrite Fq, sum_slices_snoc, Elen by done. lia.
    + intros t Hin. rewrite Fv by done. setoid_rewrite elem_of_app. setoid_rewrite list_elem_of_singleton.
      split; [naive_solver|]. intros (g & [Hg| ->] & H1 & H2); [eauto|lia].
    + rewrite map_app. simpl. rewrite head_app_filter, <- Fo. rewrite decide_False by lia. by destruct (opening_survival f).
    + intros c. rewrite Fc, sum_slices_snoc, Hz0. lia.
    + intros t c Hin. rewrite Fqc, sum_slices_snoc, Hz0 by done. destruct (_ <=? _); lia.
    + intros t b Hin. rewrite Fs, sum_slices_snoc, Hz1 by done. lia.
  - set (n := T - slice_start s) in *. cbn [snd]. unfold close_slice_facts.
    match goal with |- facts_of _ _ (foldl _ ?g _) => set (f1 := g) end.
    destruct (fold_kept T n (slice_classes (charge_class T s)) (skew_points (charge_class T s)) ts f1) as (E1 & E2 & E3 & E4).
    split; rewrite ?E1, ?E2, ?E3, ?E4; cbn [f1 close_survival qualified viable opening_survival class_ns].
    + intros t Hin. rewrite total_add_all, total_qualified, Fq, sum_slices_snoc, Elen by done. lia.
    + intros t Hin. rewrite elem_of_union, Fv, elem_of_list_to_set by done.
      setoid_rewrite elem_of_app. setoid_rewrite list_elem_of_singleton. split.
      * intros [(g & ? & ? & ?)|(t' & E & [Hn Ht']%list_elem_of_filter)%list_elem_of_fmap]; [eauto|].
        exists (cur, T). rewrite Elen. apply (tier_eq ts Hnd) in E as ->; [|done..]. split_and!; [by right|lia|done].
      * intros (g & [Hg| ->] & H1 & H2); [by left; eauto|]. right. apply list_elem_of_fmap. exists t.
        split; [done|]. apply list_elem_of_filter. split; [lia|done].
    + rewrite map_app. simpl. rewrite head_app_filter, <- Fo, Elen. rewrite decide_True by lia.
      by destruct (opening_survival f).
    + intros c. rewrite total_add_all, total_charge, Hc, Fc, sum_slices_snoc by lia. simpl. lia.
    + intros t c Hin. destruct (fold_tier T n (slice_classes (charge_class T s)) (skew_points (charge_class T s)) ts f1 t Hnd Hin) as [-> _].
      rewrite total_if, total_add_all, total_charge, Hc, sum_slices_snoc, Elen by lia. cbn [f1 qualifying close_survival].
      rewrite Fqc by done. destruct (_ <=? _); simpl; lia.
    + intros t b Hin. destruct (fold_tier T n (slice_classes (charge_class T s)) (skew_points (charge_class T s)) ts f1 t Hnd Hin) as [_ ->].
      rewrite total_skew_overlaps, sum_slices_snoc. cbn [f1 by_skew close_survival]. rewrite Fs by done.
      cbn [fst snd]. rewrite <- Hs. done.
Qed.

(** ** Runs *)

(** The last slice keeps the accounts that a new slice starts from. *)
Lemma fold_slice_fresh ts cur s f T :
  timed cur T → cur ≠ [] → slice_at cur s T →
  let s' := (fold_slice ts T s f).1 in
  class_now s' = class_now s ∧ class_since s' = T ∧ slice_classes s' = ∅.
Proof.
  intros Ht Hne [Hst Hc [Hl Hu] Hp _ _]. unfold fold_slice. destruct (Z.leb_spec T (slice_start s)); [|done].
  cbn [fst]. split_and!; [done|lia|]. apply positive_zero; [done|]. intros c. specialize (Hc c).
  pose proof (spent_nonneg (in_class c) cur T Ht). pose proof (spent_le (in_class c) cur T Ht).
  rewrite spent_all in * by done. destruct (decide _); lia.
Qed.

Lemma slices_open_snoc run c : slices_open (run ++ [c]) = slice_step (slices_open run) c.
Proof. unfold slices_open. by rewrite foldl_app. Qed.

Lemma slices_open_nonempty run : run ≠ [] → (slices_open run).2 ≠ [].
Proof.
  destruct run as [|c run _] using rev_ind; [done|]. intros _. rewrite slices_open_snoc. unfold slice_step.
  destruct (slices_open run).2; [done|]. by destruct (same_quotes _ _).
Qed.

Lemma slices_open_timed run T : timed run T → timed (slices_open run).2 T.
Proof.
  revert T. induction run as [|c run IH] using rev_ind; intros T; [done|].
  intros [Ht HT]%timed_snoc. rewrite slices_open_snoc. unfold slice_step. specialize (IH _ Ht).
  destruct (slices_open run).2 as [|c0 l] eqn:E; [done|].
  destruct (same_quotes _ _); cbn [snd]; [|done]. by apply timed_snoc.
Qed.

(** The slices of a run follow each other without a gap. *)
Lemma slices_spent P run T :
  sum_slices (λ g, spent P g.1 g.2) (slices_of run T) = spent P run T.
Proof.
  unfold slices_of. rewrite sum_slices_snoc. cbn [fst snd].
  revert T. induction run as [|c run IH] using rev_ind; intros T; [done|].
  rewrite slices_open_snoc, spent_snoc, <- IH. unfold slice_step.
  destruct (slices_open run).2 as [|c0 l] eqn:E; [simpl; lia|].
  destruct (same_quotes _ _); cbn [fst snd]; [rewrite spent_snoc; lia|].
  rewrite sum_slices_snoc. simpl. lia.
Qed.

(** The episode accounts for the commits [run], in slices of equal quotes. *)
Record run_holds (ts : list (string * Z)) (run : list Commit) (f : Facts) (s : Slice) : Prop := RunHolds {
  rh_facts : facts_of ts (slices_open run).1 f;
  rh_slice : slice_holds (slices_open run).2 s;
  rh_quotes : ∃ c l, (slices_open run).2 = c :: l ∧ o_quotes (c_obs c) = Some (slice_quotes s);
}.

Lemma facts_none ts run f :
  (∀ t, t ∈ ts → total (qualified f) t.1 = 0) → viable f = ∅ → opening_survival f = None → class_ns f = ∅ →
  (∀ t, t ∈ ts → default ∅ (qualifying f !! t.1) = ∅ ∧ default ∅ (by_skew f !! t.1) = ∅) →
  run = [] → facts_of ts run f.
Proof.
  intros H1 H2 H3 H4 H5 ->. split.
  - intros t Ht. by rewrite H1.
  - intros t Ht. rewrite H2. split; [set_solver|]. intros (g & []%not_elem_of_nil & _).
  - done.
  - intros c. by rewrite H4.
  - intros t c Ht. by rewrite (proj1 (H5 t Ht)).
  - intros t b Ht. by rewrite (proj2 (H5 t Ht)).
Qed.

(** An update with unchanged quotes. *)
Lemma run_extend ts run f s c :
  run ≠ [] → timed (run ++ [c]) (c_time c) → run_holds ts run f s → o_quotes (c_obs c) = Some (slice_quotes s) →
  run_holds ts (run ++ [c]) f (reskew c (reclass c s)).
Proof.
  intros Hne Ht [Hf Hs (c0 & l & E & Hq)] Hc. apply slices_open_timed in Ht as Htc.
  assert (slices_open (run ++ [c]) = ((slices_open run).1, (slices_open run).2 ++ [c])) as Eo.
  { rewrite slices_open_snoc. unfold slice_step. rewrite E. unfold same_quotes.
    by rewrite bool_decide_eq_true_2 by (rewrite Hq, Hc; done). }
  rewrite Eo in Htc. split; rewrite Eo; cbn [fst snd]; [done|by apply slice_extend|].
  exists c0, (l ++ [c]). rewrite E. split; [done|]. unfold reskew.
  assert (slice_quotes (reclass c s) = slice_quotes s) as Eq by (unfold reclass; by case_bool_decide).
  rewrite Hq, <- Eq. by destruct (skew_moved _ _).
Qed.

(** An update whose quotes changed: the slice is closed and a new one starts. *)
Lemma run_split ts run f s c q :
  NoDup ts.*1 → Forall (λ t, 0 ≤ t.2) ts →
  run ≠ [] → timed (run ++ [c]) (c_time c) → run_holds ts run f s →
  o_quotes (c_obs c) = Some q → q ≠ slice_quotes s →
  let '(s', f') := fold_slice ts (c_time c) (reclass c s) f in
  run_holds ts (run ++ [c]) f'
    (mkSlice (c_time c) (c_skew c) (o_payload (c_obs c)) q (class_now s') (class_since s') (slice_classes s') [(c_time c, c_skew c)]).
Proof.
  intros Hnd Hpos Hne Ht [Hf [Hcur Hs] (c0 & l & E & Hq)] Hc Hdiff.
  apply timed_snoc in Ht as [Ht _]. apply slices_open_timed in Ht as Htc.
  assert (slices_open (run ++ [c]) = ((slices_open run).1 ++ [((slices_open run).2, c_time c)], [c])) as Eo.
  { rewrite slices_open_snoc. unfold slice_step. rewrite E. unfold same_quotes.
    rewrite bool_decide_eq_false_2; [done|]. rewrite Hq, Hc. intros [= Eq]. by apply Hdiff. }
  specialize (Hs _ Htc). apply reclass_at in Hs as (Hs & Hn & _).
  pose proof (facts_fold ts _ f _ _ _ Hnd Hpos Htc Hcur Hf Hs) as Hfold.
  destruct (fold_slice_fresh ts _ _ f _ Htc Hcur Hs) as (F1 & F2 & F3).
  destruct (fold_slice ts (c_time c) (reclass c s) f) as [s' f']. cbn [fst snd] in *.
  split; rewrite Eo; cbn [fst snd]; [done| |by exists c, []].
  apply slice_new; cbn [slice_start class_now class_since slice_classes skew_points]; try done. by rewrite F1.
Qed.

(** The end of a run: its facts are those of all its slices. *)
Lemma run_end ts run f s T :
  NoDup ts.*1 → Forall (λ t, 0 ≤ t.2) ts → timed run T → run_holds ts run f s →
  facts_of ts (slices_of run T) (fold_slice ts T s f).2.
Proof.
  intros Hnd Hpos Ht [Hf [Hcur Hs] _]. apply slices_open_timed in Ht as Htc.
  by apply facts_fold; auto.
Qed.
