(* ===== verification/EpisodesProps.v ===== *)
(** * The interval engine is exact ([src/replay/economic_sdk/runtime.py])

    What the rows of a scope say of the observations committed in it: the denominators
    are the times spent in each status and class, the episodes of a kind are the maximal
    stretches in which its predicate held, with the facts of [EpisodeFacts], and fill time
    partitions trigger-positive time. *)
From stdpp Require Import gmap strings sorting.
From S2P Require Import Prelude Order Wire Json EconomicFills FillChecks ObjectKeys LineWriter EconomicTypes Intervals Episodes EpisodeFacts.

Section Engine.
Context (dumps : json → list Byte.byte) (sha256 : list Byte.byte → string)
        (json_loads : string → result json).
Context {W : Type} `{RowWriter W} {O : Type} `{CompareLaws O}.
Context (x : Experiment) (fill_value : Entity O → Z → valuation).

Local Abbreviation Engine := (@Episodes.Engine W O).
Local Abbreviation reason := (Episodes.reason dumps json_loads).
Local Abbreviation add_totals := (Episodes.add_totals dumps json_loads).
Local Abbreviation emit_measurement := (Episodes.emit_measurement dumps json_loads x).
Local Abbreviation emit_measurements := (Episodes.emit_measurements dumps json_loads x).
Local Abbreviation emit_slice := (Episodes.emit_slice dumps sha256 x).
Local Abbreviation close_episode := (Episodes.close_episode dumps sha256 json_loads x).
Local Abbreviation close_episodes := (Episodes.close_episodes dumps sha256 json_loads x).
Local Abbreviation open_episode := (Episodes.open_episode dumps x).
Local Abbreviation update_episode := (Episodes.update_episode dumps sha256 x).
Local Abbreviation reprice := (Episodes.reprice dumps x fill_value).
Local Abbreviation commit_fill := (Episodes.commit_fill dumps sha256 json_loads x fill_value).
Local Abbreviation commit_kind := (Episodes.commit_kind dumps sha256 json_loads x fill_value).
Local Abbreviation commit_measurement := (Episodes.commit_measurement dumps json_loads x).
Local Abbreviation commit := (Episodes.commit dumps sha256 json_loads x fill_value).
Local Abbreviation close_scope := (Episodes.close_scope dumps sha256 json_loads x).

Create HintDb frames.

(** ** Frames

    [f] is a part of the engine; each operation leaves it alone when the setters it uses
    do. *)
Section Frames.
Context {T : Type} (f : Engine → T).
Context (Hbudget : ∀ v e, f (set_budget v e) = f e).

Lemma frame_charge n : frame f (charge n).
Proof. apply frame_zoomS. intros. apply Hbudget. Qed.
Lemma frame_replace a b : frame f (Episodes.replace a b).
Proof. apply frame_zoomS. intros. apply Hbudget. Qed.
Lemma frame_release n : frame f (release n).
Proof. apply frame_zoomS. intros. apply Hbudget. Qed.
Lemma frame_getk `{Countable K} {A} (m : Engine → gmap K A) k : frame f (getk m k).
Proof. unfold getk. repeat frame_step. Qed.
Lemma frame_mapS {A B} (g : A → ST Engine B) l : (∀ a, frame f (g a)) → frame f (mapS g l).
Proof. intros Hg. induction l as [|a l IH]; simpl; repeat frame_step; auto. Qed.
Lemma frame_setter (g : Engine → Engine) : (∀ e, f (g e) = f e) → frame f (modifyS g).
Proof. apply frame_modifyS. Qed.

#[local] Hint Resolve frame_charge frame_replace frame_release frame_getk : frames.
Ltac fr := repeat first
  [ solve [auto with frames] | frame_step | apply frame_mapS; intros ? | apply frame_setter; intros ?; solve [auto] ].

Context (Hreasons : ∀ v l e, f (set_reasons v l e) = f e).
Lemma frame_reason text : frame f (reason text).
Proof. unfold Episodes.reason. fr. Qed.
#[local] Hint Resolve frame_reason : frames.

Lemma frame_write name row : (∀ v e, f (set_writers v e) = f e) → frame f (write name row).
Proof. intros Hwriters. unfold write. fr. Qed.

(** The files that rows go to, other than those of the denominators. *)
Context (Hslices : ∀ g row, frame f (write (g +:+ "slices.ndjson") row))
        (Hepisode_rows : ∀ g row, frame f (write (g +:+ "episodes.ndjson") row))
        (Hmeasurements : ∀ row, frame f (write "audit/measurements.ndjson" row)).
Lemma frame_audit_slices row : frame f (write "audit/slices.ndjson" row).
Proof. exact (Hslices "audit/" row). Qed.
#[local] Hint Resolve Hslices Hepisode_rows Hmeasurements frame_audit_slices : frames.
Lemma frame_fits v n m : frame f (fits_line dumps v n m : ST Engine ()).
Proof. unfold fits_line. fr. Qed.
#[local] Hint Resolve frame_fits : frames.
Lemma frame_check_slice q p : frame f (check_retained_slice dumps q p : ST Engine quotes).
Proof. unfold check_retained_slice. fr. Qed.
#[local] Hint Resolve frame_check_slice : frames.
Lemma frame_emit_slice ep t why c : frame f (emit_slice ep t why c).
Proof. unfold Episodes.emit_slice. fr. Qed.
#[local] Hint Resolve frame_emit_slice : frames.

Lemma frame_split_slice key ep t o sk : frame f (Episodes.split_slice dumps sha256 x key ep t o sk).
Proof. unfold Episodes.split_slice. fr. Qed.
#[local] Hint Resolve frame_split_slice : frames.

Context (Hepisodes : ∀ v n e, f (set_episodes v n e) = f e).
Lemma frame_close_episode c : frame f (close_episode c).
Proof. unfold Episodes.close_episode, views_of. fr. Qed.
#[local] Hint Resolve frame_close_episode : frames.
Lemma frame_close_episodes cs : frame f (close_episodes cs).
Proof. unfold Episodes.close_episodes. fr. Qed.
#[local] Hint Resolve frame_close_episodes : frames.
Lemma frame_open_episode key t o sk priced : frame f (open_episode key t o sk priced).
Proof. unfold Episodes.open_episode. fr. Qed.
#[local] Hint Resolve frame_open_episode : frames.
Lemma frame_update_episode key t o sk : frame f (update_episode key t o sk).
Proof. unfold Episodes.update_episode, put_episode. fr. Qed.
#[local] Hint Resolve frame_update_episode : frames.

Context (Hcost : ∀ c e, f (set_denominators (denominators e) c e) = f e).
Lemma frame_charge_denominator n : frame f (charge_denominator n).
Proof. unfold charge_denominator. fr. Qed.
#[local] Hint Resolve frame_charge_denominator : frames.
Lemma frame_charge_new `{Countable K} (m : gmap K Z) k n : frame f (charge_new m k n).
Proof. unfold charge_new. fr. Qed.
#[local] Hint Resolve frame_charge_new : frames.

Section FillFrames.
Context (Hfill_ns : ∀ v e, f (set_fill_ns v e) = f e) (Hfill_state : ∀ v e, f (set_fill_state v e) = f e).
Lemma frame_charge_fill id st d : frame f (charge_fill id st d).
Proof. unfold charge_fill. fr. Qed.
#[local] Hint Resolve frame_charge_fill : frames.
Lemma frame_move_fill id t to : frame f (move_fill_state id t to).
Proof. unfold move_fill_state. fr. Qed.
#[local] Hint Resolve frame_move_fill : frames.
Lemma frame_reprice p en key t o sk : frame f (reprice p en key t o sk).
Proof. unfold Episodes.reprice, views_of. fr. Qed.
#[local] Hint Resolve frame_reprice : frames.
Lemma frame_commit_fill p en key t o sk : frame f (commit_fill p en key t o sk).
Proof.
  unfold Episodes.commit_fill, views_of, put_episode.
  fr.
Qed.
#[local] Hint Resolve frame_commit_fill : frames.
Lemma frame_commit_kind en t o sk kind : frame f (commit_kind en t o sk kind).
Proof.
  unfold Episodes.commit_kind.
  fr.
Qed.
#[local] Hint Resolve frame_commit_kind : frames.
End FillFrames.

Section MeasureFrames.
Context (Hdenominators : ∀ v c e, f (set_denominators v c e) = f e).
Lemma frame_add_totals id m d : frame f (add_totals id m d).
Proof. unfold Episodes.add_totals, init_totals, add_status, add_class, add_reasons, totals, set_totals. fr. Qed.
#[local] Hint Resolve frame_add_totals : frames.
Lemma frame_emit_measurement c : frame f (emit_measurement c).
Proof. unfold Episodes.emit_measurement. fr. Qed.
#[local] Hint Resolve frame_emit_measurement : frames.
Lemma frame_emit_measurements cs : frame f (emit_measurements cs).
Proof. unfold Episodes.emit_measurements. fr. Qed.
#[local] Hint Resolve frame_emit_measurements : frames.
Context (Hopen : ∀ v e, f (set_open_measurements v e) = f e).
Lemma frame_commit_measurement id t o : frame f (commit_measurement id t o).
Proof. unfold Episodes.commit_measurement. fr. Qed.
#[local] Hint Resolve frame_commit_measurement : frames.
End MeasureFrames.

Lemma frame_write_denominators :
  (∀ v c e, f (set_denominators v c e) = f e) → (∀ v e, f (set_fill_ns v e) = f e) →
  (∀ g row, frame f (write (g +:+ "denominators.ndjson") row)) → frame f write_denominators.
Proof.
  intros Hd Hn Hw. unfold write_denominators. fr. apply frame_setter. intros e. by rewrite Hn, Hd.
Qed.
End Frames.

Lemma frame_use {A T} (f : Engine → T) (m : ST Engine A) e e' r : frame f m → m e = (e', r) → f e' = f e.
Proof. intros Hf E. specialize (Hf e). by rewrite E in Hf. Qed.

(** Solve [frame f m] for an operation whose setters [f] ignores by computation. *)
Ltac solve_frame :=
  first [ eapply frame_charge | eapply frame_replace | eapply frame_release | eapply frame_getk | eapply frame_reason
        | eapply frame_write | eapply frame_fits | eapply frame_check_slice | eapply frame_emit_slice | eapply frame_split_slice
        | eapply frame_close_episode | eapply frame_close_episodes | eapply frame_open_episode
        | eapply frame_update_episode | eapply frame_charge_denominator | eapply frame_charge_new
        | eapply frame_charge_fill | eapply frame_move_fill | eapply frame_reprice | eapply frame_commit_fill
        | eapply frame_commit_kind | eapply frame_add_totals | eapply frame_emit_measurement
        | eapply frame_emit_measurements | eapply frame_commit_measurement
        | eapply frame_mapS; intros ?; solve_frame
        | eapply frame_forS; intros ?; solve_frame ];
  intros; first [reflexivity | apply frame_write; intros; reflexivity].

(** [f] after a successful operation, rewritten to [f] before it. *)
Ltac keep f :=
  repeat match goal with
  | Hm : ?m ?e = (?e', Ok _) |- context [f ?e'] =>
      rewrite (frame_use f m e e' _ ltac:(solve_frame) Hm)
  end.

Lemma getk_ok `{Countable K} {A} (m : Engine → gmap K A) k e e' v :
  getk m k e = (e', Ok v) → e' = e ∧ m e !! k = Some v.
Proof. unfold getk. intros Hg. res_inv. destruct (m e !! k) eqn:E; by res_inv. Qed.

(** ** Denominators *)
Definition empty_denominator : Denominator := mkDenominator ∅ ∅ ∅.
Definition denominator (e : Engine) (id : string) : Denominator := default empty_denominator (denominators e !! id).

(** [m] only replaces the totals of [id], by what [g] makes of them. *)
Definition updates (id : string) (e e' : Engine) (d : Denominator) : Prop :=
  denominators e' = <[id := d]> (denominators e).

Lemma updates_refl id e : is_Some (denominators e !! id) → updates id e e (denominator e id).
Proof. intros [d E]. unfold updates, denominator. rewrite E. simpl. by rewrite insert_id. Qed.

Lemma updates_trans id e1 e2 e3 d d' : updates id e1 e2 d → updates id e2 e3 d' → updates id e1 e3 d'.
Proof. unfold updates. intros -> ->. apply insert_insert_eq. Qed.

Lemma updates_kept id e1 e2 e3 d : updates id e1 e2 d → denominators e3 = denominators e2 → updates id e1 e3 d.
Proof. unfold updates. congruence. Qed.

Lemma updates_get id e1 e2 d : updates id e1 e2 d → denominators e2 !! id = Some d.
Proof. unfold updates. intros ->. apply lookup_insert_eq. Qed.

Lemma denominator_updates id e e' d : updates id e e' d → denominator e' id = d.
Proof. intros U. unfold denominator. by rewrite (updates_get _ _ _ _ U). Qed.

Lemma totals_ok id e e' d : totals id e = (e', Ok d) → e' = e ∧ denominator e id = d ∧ is_Some (denominators e !! id).
Proof. intros [-> E]%getk_ok. unfold denominator. rewrite E. eauto. Qed.

Lemma set_totals_ok id d e e' u : set_totals id d e = (e', Ok u) → updates id e e' d.
Proof. intros Hm. unfold set_totals in Hm. by res_inv. Qed.

Lemma init_ok id e e' u : init_totals id e = (e', Ok u) → updates id e e' (denominator e id).
Proof.
  unfold init_totals, set_totals, denominator, updates. intros Hm. res_inv.
  destruct (denominators e !! id) as [d|] eqn:E; res_inv; [by rewrite insert_id|].
  by keep (@denominators W O).
Qed.

(** The two steps that add to a table. *)
Lemma add_status_ok id st n e e' u : add_status id st n e = (e', Ok u) →
  let d := denominator e id in
  updates id e e' (mkDenominator (add_to st n (status_ns d)) (d_class_ns d) (reason_ns d)).
Proof.
  intros Hm. unfold add_status in Hm. apply stbind_ok in Hm as (? & d & (-> & <- & _)%totals_ok & Hm).
  apply stbind_ok in Hm as (e1 & [] & Hc & Hs%set_totals_ok). unfold updates in *. by rewrite Hs; keep (@denominators W O).
Qed.
Lemma add_class_ok id c n e e' u : add_class id c n e = (e', Ok u) →
  let d := denominator e id in
  updates id e e' (mkDenominator (status_ns d) (add_to c n (d_class_ns d)) (reason_ns d)).
Proof.
  intros Hm. unfold add_class in Hm. apply stbind_ok in Hm as (? & d & (-> & <- & _)%totals_ok & Hm).
  apply stbind_ok in Hm as (e1 & [] & Hc & Hs%set_totals_ok). unfold updates in *. by rewrite Hs; keep (@denominators W O).
Qed.
Lemma add_reasons_ok id st is_ n e e' u : add_reasons id st is_ n e = (e', Ok u) →
  let d := denominator e id in
  updates id e e' (mkDenominator (status_ns d) (d_class_ns d) (add_to (st, is_) n (reason_ns d))).
Proof.
  intros Hm. unfold add_reasons in Hm. apply stbind_ok in Hm as (? & d & (-> & <- & _)%totals_ok & Hm).
  apply stbind_ok in Hm as (e1 & [] & Hc & Hs%set_totals_ok). unfold updates in *. by rewrite Hs; keep (@denominators W O).
Qed.

(** The totals of an interval, the reasons' apart. *)
Lemma add_totals_ok id m n e e' idx :
  add_totals id m n e = (e', Ok idx) →
  ∃ r, updates id e e' (mkDenominator (add_to m.1.1.1 n (status_ns (denominator e id)))
         (match m.1.2 with Some c => add_to c n (d_class_ns (denominator e id)) | None => d_class_ns (denominator e id) end) r).
Proof.
  destruct m as [[[st texts] cl] fl]. unfold Episodes.add_totals. intros Hm. cbn [fst snd].
  apply stbind_ok in Hm as (e1 & [] & U1%init_ok & Hm).
  apply stbind_ok in Hm as (e2 & [] & U2%add_status_ok & Hm).
  apply stbind_ok in Hm as (e3 & [] & Hc & Hm).
  apply stbind_ok in Hm as (e4 & is_ & Hr & Hm).
  apply stbind_ok in Hm as (e5 & [] & Hi & [-> ->]%mretS_ok).
  cbv zeta in U2. rewrite (denominator_updates _ _ _ _ U1) in U2. pose proof (updates_trans _ _ _ _ _ _ U1 U2) as U.
  clear U1 U2 e1.
  assert (∃ c, updates id e e3 (mkDenominator (add_to st n (status_ns (denominator e id))) c (reason_ns (denominator e id)))
    ∧ c = match cl with Some c => add_to c n (d_class_ns (denominator e id)) | None => d_class_ns (denominator e id) end)
    as (c & U3 & ->).
  { destruct cl as [c|].
    - apply add_class_ok in Hc. cbv zeta in Hc. rewrite (denominator_updates _ _ _ _ U) in Hc.
      eexists. split; [exact (updates_trans _ _ _ _ _ _ U Hc)|done].
    - apply mretS_ok in Hc as [-> _]. eauto. }
  apply (updates_kept _ _ _ e4) in U3; [|by keep (@denominators W O)].
  destruct is_ as [|i is_].
  - apply mretS_ok in Hi as [-> _]. eauto.
  - apply add_reasons_ok in Hi. cbv zeta in Hi. rewrite (denominator_updates _ _ _ _ U3) in Hi.
    eexists. exact (updates_trans _ _ _ _ _ _ U3 Hi).
Qed.

(** What closing an interval of length [n] does to its entity's totals. *)
Definition adds (m : measured) (n : Z) (d d' : Denominator) : Prop :=
  status_ns d' = add_to m.1.1.1 n (status_ns d) ∧
  d_class_ns d' = match m.1.2 with Some c => add_to c n (d_class_ns d) | None => d_class_ns d end.

Definition interval_closed (id : string) (p : measurement) (T : Z) (e e' : Engine) : Prop :=
  if T <=? p.1.1 then denominators e' = denominators e
  else ∃ d, updates id e e' d ∧ adds p.1.2 (T - p.1.1) (denominator e id) d.

Lemma emit_measurement_ok id p T e e' u :
  emit_measurement (id, p, T) e = (e', Ok u) → interval_closed id p T e e'.
Proof.
  destruct p as [[s m] c]. unfold Episodes.emit_measurement, interval_closed. cbn [fst snd]. intros Hm.
  destruct (T <=? s); [by apply mretS_ok in Hm as [-> _]|].
  apply stbind_ok in Hm as (e1 & idx & (r & Ha)%add_totals_ok & Hm).
  eexists. split; [eapply updates_kept; [exact Ha|]|by split].
  apply stbind_ok in Hm as (e2 & en & [-> _]%getk_ok & Hm).
  destruct (_ && _); [|by apply mretS_ok in Hm as [-> _]].
  apply stbind_ok in Hm as (? & ? & [-> ->]%getS_ok & Hm).
  apply stbind_ok in Hm as (? & i & [-> _]%getk_ok & Hm).
  destruct m as [[[? ?] ?] ?]. by keep (@denominators W O).
Qed.

Lemma interval_untouched id p T e e' k : interval_closed id p T e e' → k ≠ id → denominators e' !! k = denominators e !! k.
Proof.
  unfold interval_closed. destruct (_ <=? _); [by intros -> |]. intros (d & -> & _) Hk. by rewrite lookup_insert_ne.
Qed.

(** [emit_measurements] closes each interval, in some order. *)
Lemma emit_measurements_perm cs e e' u :
  emit_measurements cs e = (e', Ok u) → ∃ l, Permutation l cs ∧ forS emit_measurement l e = (e', Ok u).
Proof.
  unfold Episodes.emit_measurements. intros Hm. apply stbind_ok in Hm as (e1 & keyed & Hk & Hm).
  assert (e1 = e ∧ map snd keyed = cs) as [-> Hs].
  { clear Hm. revert e e1 keyed Hk. induction cs as [|c cs IH]; intros e e1 keyed Hk; simpl in Hk.
    - by apply mretS_ok in Hk as [-> ->].
    - apply stbind_ok in Hk as (e2 & b & Hb & Hk). apply stbind_ok in Hk as (e3 & bs & Hbs & Hr).
      apply mretS_ok in Hr as [-> ->].
      apply stbind_ok in Hb as (e4 & en & [-> _]%getk_ok & Hr). apply mretS_ok in Hr as [-> ->].
      apply IH in Hbs as [-> Hs]. simpl. by rewrite Hs. }
  exists (map snd (sort_by closure_leb keyed)). split; [|exact Hm].
  rewrite <- Hs. apply Permutation_map, sort_by_perm.
Qed.

Lemma forS_cons {S A} (f : A → ST S ()) a l s s' u :
  forS f (a :: l) s = (s', Ok u) → ∃ s1 v, f a s = (s1, Ok v) ∧ forS f l s1 = (s', Ok u).
Proof. intros Hm. by apply stbind_ok in Hm. Qed.

Lemma emit_all_ok T l (e e' : Engine) u :
  NoDup (map (λ c : string * measurement * Z, c.1.1) l) → Forall (λ c, c.2 = T) l →
  forS emit_measurement l e = (e', Ok u) →
  (∀ id p, (id, p, T) ∈ l → ∃ e0 e1 : Engine, denominators e0 !! id = denominators e !! id ∧
     denominators e1 !! id = denominators e' !! id ∧ interval_closed id p T e0 e1) ∧
  (∀ id, id ∉ map (λ c : string * measurement * Z, c.1.1) l → denominators e' !! id = denominators e !! id).
Proof.
  revert e. induction l as [|[[id p] T'] l IH]; intros e Hnd HT Hm.
  { simpl in Hm. apply mretS_ok in Hm as [-> _]. split; [|done]. by intros ? ? ?%not_elem_of_nil. }
  apply forS_cons in Hm as (e1 & [] & Ha & Hm). apply Forall_cons in HT as [HT1 HT]. simpl in HT1. subst T'.
  simpl in Hnd. apply NoDup_cons in Hnd as [Hid Hnd]. apply emit_measurement_ok in Ha.
  destruct (IH e1 Hnd HT Hm) as [IH1 IH2]. split.
  - intros id' p' [[= -> ->]|Hin]%elem_of_cons.
    + exists e, e1. split_and!; [done| |done]. by rewrite IH2.
    + destruct (IH1 _ _ Hin) as (e2 & e3 & H2 & H3 & H4). exists e2, e3. split_and!; [|done..].
      rewrite H2. eapply interval_untouched; [exact Ha|]. intros ->. apply Hid.
      by apply (list_elem_of_fmap_2 (λ c : string * measurement * Z, c.1.1)) in Hin.
  - intros k [Hk1 Hk2]%not_elem_of_cons. rewrite IH2 by done. by eapply interval_untouched.
Qed.

(** ** The measurements invariant *)
Definition in_status (st : string) (c : Commit) : bool := String.eqb (o_status (c_obs c)) st.

(** Closed totals and the open interval account for the whole history. *)
Record accounts (h : list Commit) (d : option Denominator) (p : measurement) (T : Z) : Prop := Accounts {
  ac_start : start_of h ≤ p.1.1 ≤ T;
  ac_status : ∀ st, total (status_ns (default empty_denominator d)) st
    + (if decide (p.1.2.1.1.1 = st) then T - p.1.1 else 0) = spent (in_status st) h T;
  ac_class : ∀ c, total (d_class_ns (default empty_denominator d)) c
    + (if decide (p.1.2.1.2 = Some c) then T - p.1.1 else 0) = spent (in_class (Some c)) h T;
  ac_positive : entries_positive (status_ns (default empty_denominator d))
    ∧ entries_positive (d_class_ns (default empty_denominator d));
  ac_present : is_Some d ↔ start_of h < p.1.1;
  ac_sum : table_sum (status_ns (default empty_denominator d)) = p.1.1 - start_of h;
}.

(** The totals of a closed history. *)
Record exactly (h : list Commit) (d : option Denominator) (T : Z) : Prop := Exactly {
  ex_status : ∀ st, total (status_ns (default empty_denominator d)) st = spent (in_status st) h T;
  ex_class : ∀ c, total (d_class_ns (default empty_denominator d)) c = spent (in_class (Some c)) h T;
  ex_positive : entries_positive (status_ns (default empty_denominator d))
    ∧ entries_positive (d_class_ns (default empty_denominator d));
  ex_present : is_Some d ↔ start_of h < T;
  ex_sum : table_sum (status_ns (default empty_denominator d)) = T - start_of h;
}.

Lemma accounts_closed h p T (e e' : Engine) id :
  h ≠ [] → timed h T → accounts h (denominators e !! id) p T → interval_closed id p T e e' →
  exactly h (denominators e' !! id) T.
Proof.
  intros Hne Ht [Hs Hst Hc [Hp1 Hp2] Hpr Hsum] Hi. unfold interval_closed in Hi. destruct (Z.leb_spec T p.1.1) as [Hz|Hz].
  - rewrite Hi. split; [intros st; rewrite <- Hst; destruct (decide _); lia|intros c; rewrite <- Hc; destruct (decide _); lia|done| |rewrite Hsum; lia].
    rewrite Hpr. assert (p.1.1 = T) as <- by lia. done.
  - destruct Hi as (d & U & E1 & E2). rewrite (updates_get _ _ _ _ U). unfold denominator in *. split; simpl.
    + intros st. by rewrite E1, total_add, <- Hst.
    + intros c. rewrite E2, <- Hc. destruct (p.1.2.1.2) as [c'|].
      * rewrite total_add. repeat destruct (decide _); try congruence; lia.
      * destruct (decide _); [done|lia].
    + rewrite E1, E2. split; [apply positive_add; [done|lia]|]. destruct (p.1.2.1.2); [apply positive_add; [done|lia]|done].
    + split; [intros _; lia|by eauto].
    + rewrite E1, table_sum_add, Hsum. lia.
Qed.

(** Committing nothing new leaves the accounts open; a new interval starts them again. *)
Lemma spent_status h c st T : spent (in_status st) (h ++ [c]) T
  = spent (in_status st) h (c_time c) + (if decide (o_status (c_obs c) = st) then T - c_time c else 0).
Proof.
  rewrite spent_snoc. unfold in_status at 2. destruct (String.eqb_spec (o_status (c_obs c)) st), (decide (o_status (c_obs c) = st)); congruence.
Qed.
Lemma spent_class h c k T : spent (in_class k) (h ++ [c]) T
  = spent (in_class k) h (c_time c) + (if decide (o_class (c_obs c) = k) then T - c_time c else 0).
Proof.
  rewrite spent_snoc. unfold in_class at 2. case_bool_decide; destruct (decide _); congruence.
Qed.

Lemma measured_same_eq m m' : measured_same m m' = true → m.1.1.1 = m'.1.1.1 ∧ m.1.2 = m'.1.2.
Proof.
  destruct m as [[[? ?] ?] ?], m' as [[[? ?] ?] ?]. simpl. rewrite !andb_true_iff, !bool_decide_eq_true.
  intros [[[->%String.eqb_eq _] ->] _]. done.
Qed.

Lemma accounts_extend h d p c T :
  h ≠ [] → accounts h d p (c_time c) → measured_same p.1.2 (measured_of (c_obs c)) = true → c_time c ≤ T →
  accounts (h ++ [c]) d p T.
Proof.
  intros Hne [[Hs0 Hs] Hst Hc Hp Hpr Hsum] [E1 E2]%measured_same_eq HT.
  assert (start_of (h ++ [c]) = start_of h) as Es by by destruct h. simpl in E1, E2.
  split; rewrite ?Es; [lia| | |done..].
  - intros st. rewrite spent_status, <- Hst, E1. destruct (decide _); lia.
  - intros k. rewrite spent_class, <- Hc, E2. destruct (decide _); lia.
Qed.

Lemma accounts_restart h d c n T :
  (h = [] ∧ d = None ∨ h ≠ [] ∧ exactly h d (c_time c)) → c_time c ≤ T → timed h (c_time c) →
  accounts (h ++ [c]) d (c_time c, measured_of (c_obs c), n) T.
Proof.
  intros Hh HT Ht. split; cbn [fst snd measured_of].
  - destruct h as [|c0 h]; simpl; [lia|]. apply timed_start in Ht. lia.
  - intros st. rewrite spent_status. destruct Hh as [[-> ->]|[_ [Hst _ _ _ _]]]; [done|by rewrite Hst].
  - intros k. rewrite spent_class. destruct Hh as [[-> ->]|[_ [_ Hc _ _ _]]]; [done|by rewrite Hc].
  - destruct Hh as [[-> ->]|[_ [_ _ Hp _ _]]]; [split; apply positive_empty|done].
  - destruct Hh as [[-> ->]|[Hne [_ _ _ Hp _]]]; simpl.
    + split; [by intros []|lia].
    + rewrite Hp. by destruct h.
  - destruct Hh as [[-> ->]|[Hne [_ _ _ _ ->]]]; simpl; [rewrite table_sum_empty; lia|]. by destruct h.
Qed.

(** Dictionaries with their order. *)
Lemma alookup_aset {A} k k' (a : A) l : alookup k (aset k' a l) = if decide (k = k') then Some a else alookup k l.
Proof.
  induction l as [|[k1 a1] l IH]; simpl.
  - destruct (String.eqb_spec k k'), (decide (k = k')); congruence.
  - destruct (String.eqb_spec k' k1) as [->|]; simpl.
    + destruct (String.eqb_spec k k1), (decide (k = k1)); congruence.
    + rewrite IH. destruct (String.eqb_spec k k1); [|done]. destruct (decide (k = k')); congruence.
Qed.

Lemma elem_of_aset {A} n k (a : A) l : n ∈ map fst (aset k a l) ↔ n = k ∨ n ∈ map fst l.
Proof.
  induction l as [|[k1 a1] l IH]; simpl; [rewrite list_elem_of_singleton; split; [by left|by intros [->|?%not_elem_of_nil]]|].
  destruct (String.eqb_spec k k1) as [->|]; simpl; rewrite ?elem_of_cons, ?IH; naive_solver.
Qed.

Lemma aset_keys {A} k (a : A) l : NoDup (map fst l) → NoDup (map fst (aset k a l)).
Proof.
  induction l as [|[k1 a1] l IH]; simpl; intros Hnd; [by apply NoDup_singleton|].
  apply NoDup_cons in Hnd as [Hk Hnd]. destruct (String.eqb_spec k k1) as [->|]; simpl; constructor; auto.
  rewrite elem_of_aset. naive_solver.
Qed.

Lemma alookup_elem {A} k (a : A) l : NoDup (map fst l) → (k, a) ∈ l → alookup k l = Some a.
Proof.
  induction l as [|[k1 a1] l IH]; simpl; [by intros _ ?%not_elem_of_nil|].
  intros [Hk Hnd]%NoDup_cons [[= -> ->]|Hin]%elem_of_cons; [by rewrite String.eqb_refl|].
  destruct (String.eqb_spec k k1) as [->|]; [|auto]. exfalso. apply Hk. by apply (list_elem_of_fmap_2 fst) in Hin.
Qed.

Lemma alookup_none {A} k (l : list (string * A)) : alookup k l = None → k ∉ map fst l.
Proof.
  induction l as [|[k1 a1] l IH]; simpl; [by intros _ ?%not_elem_of_nil|].
  destruct (String.eqb_spec k k1); [done|]. intros Hl. apply not_elem_of_cons. auto.
Qed.
Lemma alookup_some {A} k (a : A) l : alookup k l = Some a → (k, a) ∈ l.
Proof.
  induction l as [|[k1 a1] l IH]; simpl; [done|].
  destruct (String.eqb_spec k k1) as [->|]; [intros [= ->]; by left|right; auto].
Qed.

(** ** The invariant of a scope *)
Definition extend (hist : string → list Commit) (id : string) (c : Commit) : string → list Commit :=
  λ k, if String.eqb k id then hist k ++ [c] else hist k.

Record measures (hist : string → list Commit) (e : Engine) : Prop := Measures {
  ms_keys : NoDup (map fst (open_measurements e));
  ms_open : ∀ id, match alookup id (open_measurements e) with
    | None => hist id = [] ∧ denominators e !! id = None
    | Some p => hist id ≠ [] ∧ ∀ T, timed (hist id) T → accounts (hist id) (denominators e !! id) p T
    end;
}.

Lemma commit_measurement_ok hist id c (e e' : Engine) u :
  measures hist e → timed (hist id ++ [c]) (c_time c) →
  commit_measurement id (c_time c) (c_obs c) e = (e', Ok u) → measures (extend hist id c) e'.
Proof.
  intros [Hkeys Hopen] [Ht _]%timed_snoc Hm. unfold Episodes.commit_measurement in Hm.
  apply stbind_ok in Hm as (? & ? & [-> ->]%getS_ok & Hm). pose proof (Hopen id) as Hid.
  destruct (match alookup id (open_measurements e) with Some (_, m', _) => measured_same m' (measured_of (c_obs c)) | None => false end) eqn:Es.
  - apply mretS_ok in Hm as [-> _]. destruct (alookup id (open_measurements e)) as [[[s m] n]|] eqn:El; [|done].
    split; [done|]. intros k. unfold extend. destruct (String.eqb_spec k id) as [->|]; [|apply Hopen].
    rewrite El. destruct Hid as [Hne Hid]. split; [by destruct (hist id)|]. intros T [_ HT]%timed_snoc.
    apply accounts_extend; [done|by apply Hid|done|done].
  - clear Es. apply stbind_ok in Hm as (e1 & [] & Hemit & Hm). apply stbind_ok in Hm as (e2 & [] & Hr & Hm%modifyS_ok).
    set (n := MEASUREMENT + observation_cost (c_obs c) - OBSERVATION) in *.
    assert (open_measurements e2 = open_measurements e ∧ (∀ k, k ≠ id → denominators e2 !! k = denominators e !! k) ∧
      (hist id = [] ∧ denominators e2 !! id = None ∨ hist id ≠ [] ∧ exactly (hist id) (denominators e2 !! id) (c_time c)))
      as (Eo & Ed & Eid).
    { keep (@open_measurements W O). keep (@denominators W O).
      destruct (alookup id (open_measurements e)) as [p|] eqn:El.
      - destruct Hid as [Hne Hid]. assert (open_measurements e1 = open_measurements e) as -> by by keep (@open_measurements W O).
        apply emit_measurements_perm in Hemit as (l & Hp & Hemit).
        apply Permutation_sym, Permutation_length_1_inv in Hp as ->.
        apply forS_cons in Hemit as (e3 & [] & Hi%emit_measurement_ok & Hl). apply mretS_ok in Hl as [-> _].
        split_and!; [done|intros k Hk; by eapply interval_untouched|]. right. split; [done|].
        eapply accounts_closed; [done|done|by apply Hid|exact Hi].
      - apply mretS_ok in Hemit as [-> _]. split_and!; [done|done|]. by left. }
    subst e'. split; cbn [set_open_measurements open_measurements denominators].
    + rewrite Eo. by apply aset_keys.
    + intros k. rewrite Eo, alookup_aset. unfold extend. destruct (String.eqb_spec k id) as [->|Hk].
      * rewrite decide_True by done. split; [by destruct (hist id)|]. intros T [_ HT]%timed_snoc.
        by apply accounts_restart.
      * rewrite decide_False by done. rewrite Ed by done. apply Hopen.
Qed.

(** The rest of a commit leaves measurements and totals alone. *)
Definition measuring (e : Engine) := (open_measurements e, denominators e).
Lemma measures_measuring hist e e' : measuring e' = measuring e → measures hist e → measures hist e'.
Proof. intros [= E1 E2] [Hk Ho]. split; rewrite ?E1; [done|]. intros id. rewrite E2. apply Ho. Qed.

Lemma commit_kinds_measuring en t o sk : frame measuring (forS (commit_kind en t o sk) (kinds x)).
Proof. solve_frame. Qed.

Lemma measures_commit hist en c e e' u :
  measures hist e → timed (hist (en_id en) ++ [c]) (c_time c) →
  commit en (c_time c) (c_obs c) (c_skew c) e = (e', Ok u) → measures (extend hist (en_id en) c) e'.
Proof.
  intros Hms Ht Hm. unfold Episodes.commit in Hm. apply stbind_ok in Hm as (e1 & [] & Ha & Hm).
  eapply commit_measurement_ok in Ha; [|done..]. destruct (_ && _); [by apply mretS_ok in Hm as [-> _]|].
  eapply measures_measuring; [|exact Ha]. by apply (frame_use _ _ _ _ _ (commit_kinds_measuring _ _ _ _) Hm).
Qed.

(** ** Rows *)
Definition rows_in (name : string) (e : Engine) : list json :=
  match writers e !! name with Some w => rows w | None => [] end.

Lemma frame_rows name name' row : name ≠ name' → frame (rows_in name) (write name' row).
Proof.
  intros Hne. unfold write. apply frame_bind; [apply frame_getk|]. intros w.
  destruct (append row w) as [w' r]. apply frame_bind; [|done]. intros e.
  unfold modifyS, rows_in. cbn. by rewrite lookup_insert_ne.
Qed.

Lemma write_ok name row e e' u : write name row e = (e', Ok u) → rows_in name e' = rows_in name e ++ [row].
Proof.
  unfold write. intros Hm. apply stbind_ok in Hm as (e1 & w & [-> Hw]%getk_ok & Hm).
  destruct (append row w) as [w' r] eqn:Ea. apply stbind_ok in Hm as (e2 & [] & ->%modifyS_ok & Hm).
  apply liftR_ok in Hm as [-> ->]. unfold rows_in. cbn [set_writers writers].
  rewrite lookup_insert_eq, Hw. by apply append_rows in Ea.
Qed.

(** File names that end differently. *)
Lemma suffix_ne (g g' s t : string) :
  (String.length s ≤ String.length t)%nat →
  drop (String.length t - String.length s) (chars t) ≠ chars s → g +:+ s ≠ g' +:+ t.
Proof.
  intros Hl Hne E%(f_equal chars). rewrite !chars_app in E. unfold chars in E.
  apply Hne. unfold chars.
  assert (length (String.list_ascii_of_string t) = String.length t) as Lt by apply chars_length.
  assert (length (String.list_ascii_of_string s) = String.length s) as Ls by apply chars_length.
  pose proof (f_equal length E) as El. rewrite !length_app in El.
  apply (f_equal (drop (length (String.list_ascii_of_string g)))) in E.
  rewrite drop_app_length in E. rewrite E.
  replace (length (String.list_ascii_of_string g))
    with (length (String.list_ascii_of_string g') + (String.length t - String.length s))%nat by lia.
  by rewrite drop_app_add.
Qed.

Definition denominators_file (g : string) : string := g +:+ "denominators.ndjson".
Definition episodes_file (g : string) : string := g +:+ "episodes.ndjson".

Lemma file_inj (g g' s : string) : g +:+ s = g' +:+ s → g = g'.
Proof. intros E%(f_equal chars). rewrite !chars_app in E. apply app_inv_tail in E. by apply chars_inj. Qed.

Ltac names :=
  first [ apply suffix_ne; [vm_compute; lia|vm_compute; congruence]
        | apply not_eq_sym, suffix_ne; [vm_compute; lia|vm_compute; congruence]
        | match goal with |- _ ≠ ?n => change n with ("audit/" +:+ "measurements.ndjson") end; names ].
(** [solve_frame] for the rows of a file that the operation does not write. *)
Ltac solve_rows :=
  first [ eapply frame_add_totals | eapply frame_emit_measurement | eapply frame_emit_measurements | eapply frame_commit_measurement
        | eapply frame_emit_slice | eapply frame_close_episode | eapply frame_close_episodes | eapply frame_open_episode
        | eapply frame_update_episode | eapply frame_move_fill | eapply frame_reprice | eapply frame_commit_fill
        | eapply frame_commit_kind | eapply frame_forS; intros ?; solve_rows ];
  intros; first [reflexivity | apply frame_rows; names].

Lemma commit_denominator_rows g en t o sk : frame (rows_in (denominators_file g)) (commit en t o sk).
Proof.
  unfold Episodes.commit. apply frame_bind; [solve_rows|]. intros _. destruct (_ && _); [done|]. solve_rows.
Qed.

(** What [write_denominators] writes. *)
Definition keyed_row (e : Engine) (kd : string * Denominator) (r : (string * Z) * json) : Prop :=
  ∃ en i, entities e !! kd.1 = Some en ∧ index e !! kd.1 = Some i ∧
    r = ((en_group en, i), denominator_row (scope e) (fill_ns e !! kd.1) i kd.2).

Lemma mapS_pure {A B} (f : A → ST Engine B) (R : A → B → Prop) l e e' bs :
  (∀ a e' b, f a e = (e', Ok b) → e' = e ∧ R a b) → mapS f l e = (e', Ok bs) → e' = e ∧ Forall2 R l bs.
Proof.
  intros Hf. revert e' bs. induction l as [|a l IH]; intros e' bs Hm; simpl in Hm.
  - apply mretS_ok in Hm as [-> ->]. by split; [|constructor].
  - apply stbind_ok in Hm as (e1 & b & [-> Hb]%Hf & Hm). apply stbind_ok in Hm as (e2 & k & [-> Hk]%IH & Hm).
    apply mretS_ok in Hm as [-> ->]. split; [done|]. by constructor.
Qed.

Lemma forS_rows (l : list ((string * Z) * json)) e e' u g :
  forS (λ r : (string * Z) * json, write (denominators_file r.1.1) r.2) l e = (e', Ok u) →
  rows_in (denominators_file g) e' = rows_in (denominators_file g) e ++ map snd (filter (λ r, r.1.1 = g) l).
Proof.
  revert e. induction l as [|r l IH]; intros e Hm.
  - apply mretS_ok in Hm as [-> _]. by rewrite filter_nil, app_nil_r.
  - apply forS_cons in Hm as (e1 & [] & Hw & Hm). rewrite (IH _ Hm), filter_cons.
    destruct (decide (r.1.1 = g)) as [<-|Hne].
    + apply write_ok in Hw as ->. rewrite <- app_assoc. done.
    + assert (denominators_file g ≠ denominators_file r.1.1) as Hn by (intros E%file_inj; by apply Hne).
      by rewrite (frame_use _ _ _ _ _ (frame_rows _ _ _ Hn) Hw).
Qed.

Lemma write_denominators_ok e e' u : write_denominators e = (e', Ok u) →
  ∃ keyed, Forall2 (keyed_row e) (map_to_list (denominators e)) keyed ∧
    ∀ g, rows_in (denominators_file g) e'
         = rows_in (denominators_file g) e ++ map snd (filter (λ r, r.1.1 = g) (sort_by row_leb keyed)).
Proof.
  unfold write_denominators. intros Hm. apply stbind_ok in Hm as (? & ? & [-> ->]%getS_ok & Hm).
  apply stbind_ok in Hm as (e1 & keyed & Hk & Hm).
  apply (mapS_pure _ (keyed_row e)) in Hk as [-> Hk].
  2:{ intros kd e2 b Hb. apply stbind_ok in Hb as (e3 & en & [-> Hen]%getk_ok & Hb).
      apply stbind_ok in Hb as (e3 & i & [-> Hi]%getk_ok & Hb). apply mretS_ok in Hb as [-> ->]. split; [done|]. by exists en, i. }
  apply stbind_ok in Hm as (e2 & [] & Hw & Hm). exists keyed. split; [done|]. intros g.
  rewrite <- (forS_rows _ _ _ _ g Hw).
  apply stbind_ok in Hm as (? & ? & [-> ->]%getS_ok & Hm). apply stbind_ok in Hm as (e3 & [] & ->%modifyS_ok & Hm).
  apply stbind_ok in Hm as (e4 & [] & Hr & ->%modifyS_ok).
  change (rows_in (denominators_file g) e4 = rows_in (denominators_file g) e2).
  by keep (rows_in (denominators_file g)).
Qed.

(** ** Runs of commits *)

(** What the rest of the runtime changes between commits: the views with the epochs of
    their ladders, the view of a game when there is one, and the budget they share. *)
Record Env := mkEnv {
  env_views : gmap (string * string) fill_view; env_epochs : gmap (string * string) Z;
  env_game : json; env_budget : Z;
}.
Definition set_env (v : Env) (e : Engine) : Engine :=
  mkEngine (scope e) (entities e) (index e) (fill_specs e) (env_views v) (env_epochs v)
    (option_map (λ _, env_game v) (game e)) (env_budget v) (writers e) (open_measurements e) (denominators e)
    (denominator_cost e) (reasons e) (reason_list e) (episodes e) (episode_rows e) (fill_state e) (fill_ns e).

(** One commit, of an entity, after a change of the environment. *)
Record Step := mkStep { st_env : Env; st_entity : Entity O; st_commit : Commit }.
Definition env_commit (s : Step) : ST Engine () :=
  _ ← modifyS (set_env (st_env s));
  commit (st_entity s) (c_time (st_commit s)) (c_obs (st_commit s)) (c_skew (st_commit s)).
Definition run_commits (cs : list Step) : ST Engine () := forS env_commit cs.
Definition history (cs : list Step) (id : string) : list Commit :=
  map st_commit (filter (λ s, en_id (st_entity s) = id) cs).
(** A scope begins without open intervals, episodes or totals. *)
Definition fresh (e : Engine) : Prop :=
  open_measurements e = [] ∧ denominators e = ∅ ∧ episodes e = ∅ ∧ fill_state e = ∅ ∧ fill_ns e = ∅.

Lemma history_snoc cs v en c id : history (cs ++ [mkStep v en c]) id = extend (history cs) (en_id en) c id.
Proof.
  unfold history, extend. rewrite filter_app, map_app, filter_cons, filter_nil. simpl.
  destruct (decide (en_id en = id)) as [<-|Hne].
  - by rewrite String.eqb_refl.
  - destruct (String.eqb_spec id (en_id en)); [congruence|]. by rewrite app_nil_r.
Qed.

Lemma forS_app_ok {S A} (f : A → ST S ()) l k s s' u :
  forS f (l ++ k) s = (s', Ok u) → ∃ s1 v, forS f l s = (s1, Ok v) ∧ forS f k s1 = (s', Ok u).
Proof.
  revert s. induction l as [|a l IH]; intros s Hm; simpl.
  - exists s, (). by split.
  - apply forS_cons in Hm as (s1 & [] & Ha & Hm). apply IH in Hm as (s2 & [] & Hl & Hk).
    exists s2, (). split; [|done]. apply stbind_ok. eauto.
Qed.

Lemma timed_app h k T : timed (h ++ k) T → timed h T.
Proof.
  revert T. induction k as [|c k IH] using rev_ind; intros T; [by rewrite app_nil_r|].
  rewrite app_assoc. intros [Ht HT]%timed_snoc. apply IH in Ht. by eapply timed_mono.
Qed.

(** An invariant of the commits of a scope, whose entities are each in time order. *)
Lemma run_invariant (P : list Step → Engine → Prop) cs T e e' u :
  (∀ id, timed (history cs id) T) → P [] e → (∀ cs v e, P cs e → P cs (set_env v e)) →
  (∀ cs v en c e e' u, P cs e → (∀ id, timed (history cs id) T) → timed (history cs (en_id en) ++ [c]) (c_time c) →
     c_time c ≤ T →
     commit en (c_time c) (c_obs c) (c_skew c) e = (e', Ok u) → P (cs ++ [mkStep v en c]) e') →
  run_commits cs e = (e', Ok u) → P cs e'.
Proof.
  intros Ht H0' Henv Hstep. revert e' u Ht. induction cs as [|[ev en c] cs IH] using rev_ind; intros e' u Ht Hm.
  - by apply mretS_ok in Hm as [-> _].
  - apply forS_app_ok in Hm as (e1 & v & Hcs & Hm). apply forS_cons in Hm as (e2 & w & Hc & Hn).
    apply mretS_ok in Hn as [-> _]. apply stbind_ok in Hc as (e3 & [] & ->%modifyS_ok & Hc). cbn [st_env st_entity st_commit] in Hc.
    assert (∀ id, timed (history cs id) T) as Ht1.
    { intros id. specialize (Ht id). rewrite history_snoc in Ht. unfold extend in Ht.
      destruct (String.eqb _ _); [by eapply timed_app|done]. }
    pose proof (Ht (en_id en)) as Hen. rewrite history_snoc in Hen. unfold extend in Hen. rewrite String.eqb_refl in Hen.
    apply timed_snoc in Hen as [Hen HT]. eapply Hstep; [eapply Henv, IH; eauto|done| |done|exact Hc]. by apply timed_snoc.
Qed.

Lemma measures_ext hist hist' e : (∀ id, hist id = hist' id) → measures hist e → measures hist' e.
Proof. intros E [Hk Ho]. split; [done|]. intros id. rewrite <- E. apply Ho. Qed.

Lemma measures_run cs T e e' u :
  fresh e → (∀ id, timed (history cs id) T) → run_commits cs e = (e', Ok u) → measures (history cs) e'.
Proof.
  intros (Ho & Hd & _) Ht. apply (run_invariant (λ cs, measures (history cs)) cs T); [done| | |].
  - split; rewrite Ho; simpl; [constructor|]. intros id. by rewrite Hd.
  - intros cs' ev e1 [Hk Hop]. by split.
  - intros cs' ev en c e1 e2 v Hms _ Htc _ Hm. eapply measures_ext; [symmetry; apply history_snoc|]. by eapply measures_commit.
Qed.

(** Closing every open interval at the end of the scope. *)
Lemma measures_closed hist T e e' u :
  measures hist e → (∀ id, timed (hist id) T) →
  emit_measurements (map (λ p, (p, T)) (open_measurements e)) e = (e', Ok u) →
  ∀ id, (hist id = [] ∧ denominators e' !! id = None) ∨ (hist id ≠ [] ∧ exactly (hist id) (denominators e' !! id) T).
Proof.
  intros [Hk Ho] Ht (l & Hp & Hm)%emit_measurements_perm id.
  assert (map (λ c : string * measurement * Z, c.1.1) l ≡ₚ map fst (open_measurements e)) as Hkeys.
  { rewrite Hp, map_map. done. }
  apply (emit_all_ok T) in Hm as [Hin Hout].
  2:{ by rewrite Hkeys. }
  2:{ rewrite Hp. apply Forall_forall. intros c (p & -> & _)%list_elem_of_fmap. done. }
  specialize (Ho id). destruct (alookup id (open_measurements e)) as [p|] eqn:El.
  - right. destruct Ho as [Hne Ho]. split; [done|].
    destruct (Hin id p) as (e0 & e1 & E0 & E1 & Hi).
    { rewrite Hp. apply alookup_some in El. by apply (list_elem_of_fmap_2 (λ p, (p, T))) in El. }
    rewrite <- E1. eapply accounts_closed; [done|apply Ht| |exact Hi]. rewrite E0. apply Ho, Ht.
  - left. destruct Ho as [Hh Hd]. split; [done|]. rewrite <- Hd. apply Hout. rewrite Hkeys. by apply alookup_none.
Qed.

(** The state in which a scope's denominators are written. *)
Lemma close_scope_ok T why cens e e' u :
  close_scope T why cens e = (e', Ok u) →
  ∃ e1 e2 e3 ew, emit_measurements (map (λ p, (p, T)) (open_measurements e)) e = (e1, Ok ()) ∧
    e2 = set_open_measurements [] (set_budget (budget e2) e1) ∧
    close_episodes (map (λ key, (key, T, why, cens)) (sorted_keys (episodes e2))) e2 = (e3, Ok ()) ∧
    forS (λ id, move_fill_state id T None) (sorted_keys (fill_state e3)) e3 = (ew, Ok ()) ∧
    write_denominators ew = (e', Ok u).
Proof.
  unfold Episodes.close_scope. intros Hm.
  apply stbind_ok in Hm as (? & ? & [-> ->]%getS_ok & Hm). apply stbind_ok in Hm as (e1 & [] & He & Hm).
  apply stbind_ok in Hm as (? & ? & [-> ->]%getS_ok & Hm). apply stbind_ok in Hm as (e1' & [] & Hr & Hm).
  apply stbind_ok in Hm as (e2 & [] & E2%modifyS_ok & Hm).
  apply stbind_ok in Hm as (? & ? & [-> ->]%getS_ok & Hm). apply stbind_ok in Hm as (e3 & [] & Hc & Hm).
  apply stbind_ok in Hm as (? & ? & [-> ->]%getS_ok & Hm). apply stbind_ok in Hm as (ew & [] & Hf & Hm).
  exists e1, e2, e3, ew. split_and!; try done. subst e2.
  unfold release, on_budget, zoomS, release_budget, modifyS in Hr. injection Hr as <-. done.
Qed.

(** The rows of [D] and [F] that go to the group [g], in the order of their entities. *)
Definition denominator_rows (e : Engine) (D : gmap string Denominator) (F : gmap string (gmap string Z))
    (g : string) : list json :=
  map snd (filter (λ r, r.1.1 = g) (sort_by row_leb (omap (λ kd : string * Denominator,
    en ← entities e !! kd.1; i ← index e !! kd.1;
    Some ((en_group en, i), denominator_row (scope e) (F !! kd.1) i kd.2)) (map_to_list D)))).

Definition statics (e : Engine) := (scope e, entities e, index e, bool_decide (is_Some (game e))).
Definition totals_and_rows (g : string) (e : Engine) := (denominators e, rows_in (denominators_file g) e).

Lemma run_statics cs e e' u : run_commits cs e = (e', Ok u) → statics e' = statics e.
Proof.
  intros Hm. eapply frame_use; [|exact Hm]. apply frame_forS. intros c. apply frame_bind.
  { apply frame_modifyS. intros e1. unfold statics, set_env. cbn. by destruct (game e1). }
  intros _. unfold Episodes.commit. apply frame_bind; [solve_frame|]. intros _. destruct (_ && _); [done|]. solve_frame.
Qed.
Lemma run_denominator_rows g cs e e' u : run_commits cs e = (e', Ok u) →
  rows_in (denominators_file g) e' = rows_in (denominators_file g) e.
Proof. intros Hm. eapply frame_use; [|exact Hm]. apply frame_forS. intros c. apply frame_bind; [by apply frame_modifyS|]. intros _. apply commit_denominator_rows. Qed.

(** A part of the engine that the end of a scope leaves alone until it writes. *)
Lemma close_keeps {A} (f : Engine → A) cs1 cs2 T l e e1 e2 e3 ew :
  frame f (emit_measurements cs1) → frame f (close_episodes cs2) → (∀ id, frame f (move_fill_state id T None)) →
  (∀ v b e, f (set_open_measurements v (set_budget b e)) = f e) →
  emit_measurements cs1 e = (e1, Ok ()) → e2 = set_open_measurements [] (set_budget (budget e2) e1) →
  close_episodes cs2 e2 = (e3, Ok ()) → forS (λ id, move_fill_state id T None) l e3 = (ew, Ok ()) →
  f ew = f e.
Proof.
  intros F1 F2 F3 F4 Ha -> Hb Hc. rewrite (frame_use f _ _ _ _ (frame_forS _ _ _ F3) Hc).
  rewrite (frame_use f _ _ _ _ F2 Hb), F4. apply (frame_use f _ _ _ _ F1 Ha).
Qed.
Ltac scope_frame :=
  intros; first [reflexivity | eapply frame_emit_measurements | eapply frame_close_episodes | eapply frame_move_fill];
  intros; first [reflexivity | apply frame_write; reflexivity | apply frame_rows; names].

(** What a scope's end writes, for the engine [ew] that writes it. *)
Lemma scope_rows cs T why cens ev e0 e1 e2 u v :
  fresh e0 → (∀ id, timed (history cs id) T) →
  run_commits cs e0 = (e1, Ok u) → close_scope T why cens (set_env ev e1) = (e2, Ok v) →
  ∃ ea eb ec ew : Engine,
    emit_measurements (map (λ p, (p, T)) (open_measurements e1)) (set_env ev e1) = (ea, Ok ()) ∧
    eb = set_open_measurements [] (set_budget (budget eb) ea) ∧
    close_episodes (map (λ key, (key, T, why, cens)) (sorted_keys (episodes eb))) eb = (ec, Ok ()) ∧
    forS (λ id, move_fill_state id T None) (sorted_keys (fill_state ec)) ec = (ew, Ok ()) ∧
    write_denominators ew = (e2, Ok v) ∧
    (∀ id, (history cs id = [] ∧ denominators ew !! id = None) ∨
               (history cs id ≠ [] ∧ exactly (history cs id) (denominators ew !! id) T)) ∧
    ∀ g, rows_in (denominators_file g) e2
         = rows_in (denominators_file g) e0 ++ denominator_rows e0 (denominators ew) (fill_ns ew) g.
Proof.
  intros Hf Ht Hrun (e1a & e1b & e1c & ew & Hem & E1b & Hce & Hfs & Hwd)%close_scope_ok.
  exists e1a, e1b, e1c, ew. do 5 (split; [done|]). pose proof (measures_run _ _ _ _ _ Hf Ht Hrun) as Hms.
  assert (statics ew = statics e0) as Est.
  { rewrite <- (run_statics _ _ _ _ Hrun). transitivity (statics (set_env ev e1)).
    - eapply close_keeps; [scope_frame..|exact Hem|exact E1b|exact Hce|exact Hfs].
    - unfold statics, set_env. cbn. by destruct (game e1). }
  assert (∀ g, rows_in (denominators_file g) ew = rows_in (denominators_file g) e0) as Er.
  { intros g. rewrite <- (run_denominator_rows g _ _ _ _ Hrun). transitivity (rows_in (denominators_file g) (set_env ev e1)); [|done].
    eapply close_keeps; [scope_frame..|exact Hem|exact E1b|exact Hce|exact Hfs]. }
  assert (denominators ew = denominators e1a) as Ed.
  { transitivity (denominators e1c).
    - eapply frame_use; [|exact Hfs]. apply frame_forS. scope_frame.
    - transitivity (denominators e1b); [|by rewrite E1b]. eapply frame_use; [|exact Hce]. scope_frame. }
  split.
  - rewrite Ed. eapply (measures_closed _ T (set_env ev e1)); [by destruct Hms; split|exact Ht|exact Hem].
  - intros g. apply write_denominators_ok in Hwd as (keyed & Hk & Hrows). rewrite Hrows, Er. f_equal.
    unfold denominator_rows. do 3 f_equal. injection Est as Es1 Es2 Es3 _. clear Hrows.
    induction Hk as [|kd r l k (en & i & Hen & Hi & ->) _ IH]; simpl; [done|].
    rewrite <- Es1, <- Es2, <- Es3, Hen. simpl. rewrite Hi. simpl. f_equal.
    rewrite Es1, Es2, Es3. exact IH.
Qed.
End Engine.

(** Frames of an operation, for a part of the engine whose setters compute away or for the
    rows of a file it does not write. *)
Ltac names :=
  first [ apply suffix_ne; [vm_compute; lia|vm_compute; congruence]
        | apply not_eq_sym, suffix_ne; [vm_compute; lia|vm_compute; congruence]
        | match goal with |- _ ≠ ?n => change n with ("audit/" +:+ "measurements.ndjson") end; names ].
Ltac keeps :=
  first [ eapply frame_charge | eapply frame_replace | eapply frame_release | eapply frame_getk | eapply frame_reason
        | eapply frame_fits | eapply frame_check_slice | eapply frame_emit_slice | eapply frame_split_slice
        | eapply frame_close_episode | eapply frame_close_episodes | eapply frame_open_episode
        | eapply frame_update_episode | eapply frame_charge_denominator | eapply frame_charge_new
        | eapply frame_charge_fill | eapply frame_move_fill | eapply frame_reprice | eapply frame_commit_fill
        | eapply frame_commit_kind | eapply frame_emit_measurements | eapply frame_commit_measurement
        | eapply frame_write_denominators | eapply frame_write
        | eapply frame_mapS; intros ?; keeps
        | eapply frame_forS; intros ?; keeps ];
  intros; first [reflexivity | apply frame_write; intros; reflexivity | apply frame_rows; names].
(** Rewrite [f] after a successful operation to [f] before it. *)
Ltac keep f :=
  repeat match goal with
  | Hm : ?m ?e = (?e', Ok _) |- context [f ?e'] =>
      rewrite (frame_use f m e e' _ ltac:(keeps) Hm)
  end.
