(* ===== verification/EpisodesRuns.v ===== *)
(** * Episodes and fills are the runs of their predicate ([src/replay/economic_sdk/runtime.py])

    Every row of an episodes file stands for one stretch of commits of one entity: for an
    ordinary kind the maximal stretches in which its predicate held, for the kind of a fill
    policy the lifetimes of its fills, which together with the no-fill reasons partition
    the time its trigger held. *)
From stdpp Require Import gmap strings sorting.
From S2P Require Import Prelude Order Wire Json EconomicFills FillChecks ObjectKeys LineWriter EconomicTypes Intervals Episodes EpisodeFacts EpisodesProps.

(** ** Runs *)
Definition positive (kind : string) (c : Commit) : bool := bool_decide (kind ∈ o_predicates (c_obs c)).

(** The closed runs, each with its end and the reason, and the run in progress. *)
Definition run_step (kind : string) (st : list (list Commit * Z * string) * list Commit) (c : Commit) :
    list (list Commit * Z * string) * list Commit :=
  if positive kind c then (st.1, st.2 ++ [c])
  else match st.2 with
       | [] => st
       | _ => (st.1 ++ [(st.2, c_time c, end_reason (c_obs c))], [])
       end.
Definition runs_of (kind : string) (h : list Commit) : list (list Commit * Z * string) * list Commit :=
  foldl (run_step kind) ([], []) h.

Lemma runs_of_snoc kind h c : runs_of kind (h ++ [c]) = run_step kind (runs_of kind h) c.
Proof. unfold runs_of. by rewrite foldl_app. Qed.

Lemma runs_timed kind h T : timed h T → timed (runs_of kind h).2 T.
Proof.
  revert T. induction h as [|c h IH] using rev_ind; intros T; [done|]. intros [Ht HT]%timed_snoc.
  rewrite runs_of_snoc. unfold run_step. specialize (IH _ Ht). destruct (positive kind c); cbn [snd].
  - by apply timed_snoc.
  - destruct (runs_of kind h).2 eqn:E; [by rewrite E|done].
Qed.

(** ** The log of closed episodes *)
Record Closed := mkClosed { cl_key : string * string; cl_run : list Commit; cl_end : Z; cl_why : string; cl_censored : bool }.
Definition lifetime (c : Closed) : Z := cl_end c - start_of (cl_run c).

(** The first commit of an episode decides its opening. *)
Record opened_by (key : string * string) (c : Commit) (o : Opening) : Prop := OpenedBy {
  ob_entity : op_entity o = key.1; ob_kind : op_kind o = key.2; ob_start : op_start o = c_time c;
  ob_values : op_values o = o_payload (c_obs c); ob_quotes : Some (op_quotes o) = o_quotes (c_obs c);
  ob_skew : op_skew o = c_skew c; ob_class : op_class o = o_class (c_obs c); ob_reasons : op_reasons o = o_reasons (c_obs c);
}.

Section Engine.
Context (dumps : json → list Byte.byte) (sha256 : list Byte.byte → string)
        (json_loads : string → result json).
Context {W : Type} `{RowWriter W} {O : Type} `{CompareLaws O}.
Context (x : Experiment) (fill_value : Entity O → Z → valuation).

Local Abbreviation Engine := (@Episodes.Engine W O).
Local Abbreviation reason := (Episodes.reason dumps json_loads).
Local Abbreviation emit_slice := (Episodes.emit_slice dumps sha256 x).
Local Abbreviation close_episode := (Episodes.close_episode dumps sha256 json_loads x).
Local Abbreviation close_episodes := (Episodes.close_episodes dumps sha256 json_loads x).
Local Abbreviation open_episode := (Episodes.open_episode dumps x).
Local Abbreviation update_episode := (Episodes.update_episode dumps sha256 x).
Local Abbreviation split_slice := (Episodes.split_slice dumps sha256 x).
Local Abbreviation reprice := (Episodes.reprice dumps x fill_value).
Local Abbreviation commit_fill := (Episodes.commit_fill dumps sha256 json_loads x fill_value).
Local Abbreviation commit_kind := (Episodes.commit_kind dumps sha256 json_loads x fill_value).
Local Abbreviation commit_measurement := (Episodes.commit_measurement dumps json_loads x).
Local Abbreviation commit := (Episodes.commit dumps sha256 json_loads x fill_value).
Local Abbreviation close_scope := (Episodes.close_scope dumps sha256 json_loads x).

(** ** What the operations do to one episode *)
Lemma emit_slice_ok ep T why c (e e' : Engine) ep' :
  emit_slice ep T why c e = (e', Ok ep') →
  ep' = (let '(s, f) := fold_slice (tiers x) T (slice ep) (facts ep) in set_facts f (set_slice s ep)).
Proof.
  intros Hm. unfold Episodes.emit_slice in Hm. unfold fold_slice. destruct (Z.leb_spec T (slice_start (slice ep))).
  - apply mretS_ok in Hm as [_ ->]. by destruct ep.
  - apply stbind_ok in Hm as (e1 & [[n vs] qs] & Hc & Hm). apply liftR_ok in Hc as [-> Hc].
    unfold Intervals.close in Hc. apply bind_ok in Hc as ([] & _ & [= <- <- <-]).
    apply stbind_ok in Hm as (e2 & en & _ & Hm). apply stbind_ok in Hm as (e3 & e4 & _ & Hm).
    apply stbind_ok in Hm as (e5 & id & _ & Hm). apply stbind_ok in Hm as (e6 & [] & _ & Hm).
    apply stbind_ok in Hm as (e7 & [] & _ & Hm). apply mretS_ok in Hm as [_ ->]. done.
Qed.

(** An update with the observation [c] of an episode. *)
Definition updated (c : Commit) (ep : Episode) : Slice * Facts :=
  let s := reclass c (slice ep) in
  match ep_fill ep with
  | None =>
      if quotes_differ (c_obs c) s then
        let '(s', f') := fold_slice (tiers x) (c_time c) s (facts ep) in
        (mkSlice (c_time c) (c_skew c) (o_payload (c_obs c)) (default [] (o_quotes (c_obs c))) (class_now s') (class_since s')
           (slice_classes s') [(c_time c, c_skew c)], f')
      else (reskew c s, facts ep)
  | Some _ => (reskew c s, facts ep)
  end.

Lemma split_slice_ok key ep t o sk (e e' : Engine) ep' :
  split_slice key ep t o sk e = (e', Ok ep') →
  opening ep' = opening ep ∧ ep_fill ep' = ep_fill ep ∧ is_Some (o_quotes o) ∧ 
  let '(s, f) := fold_slice (tiers x) t (slice ep) (facts ep) in
  facts ep' = f ∧ slice ep' = mkSlice t sk (o_payload o) (default [] (o_quotes o)) (class_now s) (class_since s) (slice_classes s) [(t, sk)].
Proof.
  intros Hm. unfold Episodes.split_slice in Hm. apply stbind_ok in Hm as (e1 & q & Hq & Hm).
  apply stbind_ok in Hm as (e2 & e3 & _ & Hm). apply stbind_ok in Hm as (e4 & [] & _ & Hm).
  apply stbind_ok in Hm as (e5 & ep1 & Hem & Hm). apply stbind_ok in Hm as (e6 & [] & _ & Hm).
  apply mretS_ok in Hm as [_ ->]. apply emit_slice_ok in Hem. cbn [set_cost slice facts] in Hem.
  unfold check_retained_slice in Hq. apply stbind_ok in Hq as (e7 & j & Hj & Hq). apply liftR_ok in Hj as [-> Hj].
  apply stbind_ok in Hq as (e8 & [] & _ & Hq). apply mretS_ok in Hq as [_ ->].
  destruct (fold_slice (tiers x) t (slice ep) (facts ep)) as [s f]. subst ep1. cbn.
  split_and!; try done. destruct (o_quotes o); [eauto|done].
Qed.

Lemma update_episode_ok key c (e e' : Engine) u :
  update_episode key (c_time c) (c_obs c) (c_skew c) e = (e', Ok u) →
  ∃ ep ep', episodes e !! key = Some ep ∧ episodes e' = <[key := ep']> (episodes e) ∧
    opening ep' = opening ep ∧ ep_fill ep' = ep_fill ep ∧ (slice ep', facts ep') = updated c ep ∧
    (ep_fill ep = None → is_Some (o_quotes (c_obs c)) ∨ quotes_differ (c_obs c) (slice ep) = false).
Proof.
  intros Hm. unfold Episodes.update_episode, put_episode in Hm.
  apply stbind_ok in Hm as (e1 & ep & [-> Hep]%getk_ok & Hm).
  change (if bool_decide (o_class (c_obs c) = class_now (slice ep)) then slice ep else _) with (reclass c (slice ep)) in Hm.
  set (s := reclass c (slice ep)) in *. set (ep1 := set_slice s ep) in *.
  apply stbind_ok in Hm as (e2 & [] & ->%modifyS_ok & Hm).
  apply stbind_ok in Hm as (e3 & ep2 & Hbody & Hm). apply stbind_ok in Hm as (e4 & m & [-> _]%liftR_ok & Hm).
  apply stbind_ok in Hm as (e4 & first & [-> _]%liftR_ok & Hm). apply stbind_ok in Hm as (e4 & e5 & [-> ->]%getS_ok & Hm).
  apply modifyS_ok in Hm as ->.
  assert (slice_quotes s = slice_quotes (slice ep)) as Eq by (unfold s, reclass; by case_bool_decide).
  assert (episodes e3 = <[key := ep1]> (episodes e) ∧ opening ep2 = opening ep ∧ ep_fill ep2 = ep_fill ep ∧
    (slice ep2, facts ep2) = updated c ep ∧
    (ep_fill ep = None → is_Some (o_quotes (c_obs c)) ∨ quotes_differ (c_obs c) (slice ep) = false))
    as (E3 & Eo & Ef & Eu & Eq').
  { unfold updated. fold s. assert (quotes_differ (c_obs c) (slice ep) = quotes_differ (c_obs c) s) as -> by (unfold quotes_differ; by rewrite Eq).
    assert (∀ ep3, (if skew_moved (c_skew c) s then _ ← requireS (Z.of_nat (length (skew_points s)) <? MAX_SKEW_POINTS) "skew changes per slice";
        _ ← charge (PAIR + SLOT);
        mret (set_slice (mkSlice (slice_start s) (slice_skew s) (slice_values s) (slice_quotes s)
            (class_now s) (class_since s) (slice_classes s) (skew_points s ++ [(c_time c, c_skew c)])) ep1)
      else mret ep1) (set_episodes (<[key := ep1]> (episodes e)) (episode_rows e) e) = (e3, Ok ep3) →
      episodes e3 = <[key := ep1]> (episodes e) ∧ ep3 = set_slice (reskew c s) ep1) as Hskew.
    { intros ep3 Hs. unfold reskew. destruct (skew_moved _ _).
      - apply stbind_ok in Hs as (e4 & [] & [_ ->]%requireS_ok & Hs). apply stbind_ok in Hs as (e5 & [] & Hc & Hs).
        apply mretS_ok in Hs as [-> ->]. split; [|done]. by keep (@episodes W O).
      - by apply mretS_ok in Hs as [-> ->]. }
    change (ep_fill ep1) with (ep_fill ep) in Hbody. destruct (ep_fill ep) eqn:Ef.
    - apply Hskew in Hbody as [-> ->]. by split_and!.
    - destruct (quotes_differ (c_obs c) s) eqn:Ed.
      + assert (episodes e3 = <[key := ep1]> (episodes e)) as E3 by by keep (@episodes W O).
        apply split_slice_ok in Hbody as (Eo & Ef' & Hq & Hs). change (slice ep1) with s in Hs. change (facts ep1) with (facts ep) in Hs.
        destruct (fold_slice _ _ _ _) as [s' f']. destruct Hs as [-> ->]. split_and!; try done.
        * by rewrite Ef'.
        * by left.
      + apply Hskew in Hbody as [-> ->]. split_and!; try done. by right. }
  exists ep. eexists. cbn [set_episodes episodes]. rewrite E3, insert_insert_eq.
  split_and!; [done|reflexivity|by rewrite <- Eo|by rewrite <- Ef|exact Eu|done].
Qed.

Lemma zeros_lookup {A} (a : A) (ts : list (string * Z)) t : t ∈ ts →
  (list_to_map (map (λ t, (t.1, a)) ts) : gmap string A) !! t.1 = Some a.
Proof.
  induction ts as [|t' l IH]; intros Ht; [by apply not_elem_of_nil in Ht|]. simpl.
  destruct (decide (t'.1 = t.1)) as [->|Hne]; [by rewrite lookup_insert_eq|]. rewrite lookup_insert_ne by done.
  apply IH. apply elem_of_cons in Ht as [->|?]; done.
Qed.

Lemma open_episode_ok key c priced (e e' : Engine) u :
  open_episode key (c_time c) (c_obs c) (c_skew c) priced e = (e', Ok u) →
  ∃ ep, episodes e' = <[key := ep]> (episodes e) ∧ ep_fill ep = priced ∧ opened_by key c (opening ep) ∧
    run_holds (tiers x) [c] (facts ep) (slice ep).
Proof.
  intros Hm. unfold Episodes.open_episode, check_retained_slice in Hm.
  apply stbind_ok in Hm as (e1 & q & Hq & Hm). 
  apply stbind_ok in Hm as (e2 & [] & Hp & Hm). apply stbind_ok in Hm as (e3 & m & [-> _]%liftR_ok & Hm).
  apply stbind_ok in Hm as (e3 & e4 & [-> ->]%getS_ok & Hm). apply stbind_ok in Hm as (e5 & [] & [_ ->]%requireS_ok & Hm).
  apply stbind_ok in Hm as (e5 & [] & Hc & ->%modifyS_ok).
  apply stbind_ok in Hq as (e6 & j & Hj & Hq). apply liftR_ok in Hj as [-> Hj].
  apply stbind_ok in Hq as (e7 & [] & Hfit & Hq). apply mretS_ok in Hq as [-> ->].
  assert (episodes e5 = episodes e) as E5.
  { keep (@episodes W O). destruct priced as [[ks pj]|]; [by keep (@episodes W O)|].
    apply mretS_ok in Hp as [-> _]. by keep (@episodes W O). }
  destruct (o_quotes (c_obs c)) as [q|] eqn:Eq; [|done].
  eexists. cbn [set_episodes episodes]. rewrite E5.
  split_and!; [reflexivity|done|by split|]. split; cbn.
  - apply facts_none with (run := []); try done; cbn.
    + intros t Ht. unfold total. by rewrite zeros_lookup.
    + intros t Ht. by rewrite !zeros_lookup.
  - by apply slice_new.
  - by exists c, [].
Qed.

(** The facts of an episode that ends at [T]. *)
Definition closed_at (T : Z) (ep : Episode) : Episode :=
  let '(s, f) := fold_slice (tiers x) T (slice ep) (facts ep) in set_facts f (set_slice s ep).

Lemma closed_opening T ep : opening (closed_at T ep) = opening ep ∧ ep_fill (closed_at T ep) = ep_fill ep.
Proof. unfold closed_at. by destruct (fold_slice _ _ _ _). Qed.
Lemma closed_facts T ep : facts (closed_at T ep) = (fold_slice (tiers x) T (slice ep) (facts ep)).2.
Proof. unfold closed_at. by destruct (fold_slice _ _ _ _). Qed.

Definition has_game (e : Engine) : bool := bool_decide (is_Some (game e)).
Lemma statics_eq (e e' : Engine) : statics e' = statics e →
  scope e' = scope e ∧ entities e' = entities e ∧ index e' = index e ∧ has_game e' = has_game e.
Proof. by intros [= ? ? ? ?]. Qed.

Lemma close_episode_ok key T why cens (e e' : Engine) u :
  close_episode (key, T, why, cens) e = (e', Ok u) →
  ∃ ep, episodes e !! key = Some ep ∧ episodes e' = delete key (episodes e) ∧
    (T ≤ op_start (opening ep) → ∀ g, rows_in (episodes_file g) e' = rows_in (episodes_file g) e) ∧
    (op_start (opening ep) < T → ∃ en i id rs amq fill, entities e !! key.1 = Some en ∧ index e !! key.1 = Some i ∧
       episode_id dumps sha256 (scope e) key.1 (op_kind (opening ep)) (op_start (opening ep)) = Ok id ∧
       ∀ g, rows_in (episodes_file g) e' = rows_in (episodes_file g) e ++
         (if decide (en_group en = g)
          then [episode_row x (scope e) (has_game e) i id (closed_at T ep) T why cens rs amq fill] else [])).
Proof.
  intros Hm. unfold Episodes.close_episode in Hm.
  apply stbind_ok in Hm as (e1 & ep & [-> Hep]%getk_ok & Hm). apply stbind_ok in Hm as (e1 & [] & E1%modifyS_ok & Hm).
  apply stbind_ok in Hm as (e2 & [] & Hr & Hm). apply stbind_ok in Hm as (e3 & ep' & Hem & Hm).
  exists ep. split; [done|].
  assert (episodes e3 = delete key (episodes e)) as E3 by (keep (@episodes W O); by subst e1).
  assert (statics e3 = statics e) as S3 by (keep (@statics W O); by subst e1).
  assert (∀ g, rows_in (episodes_file g) e3 = rows_in (episodes_file g) e) as R3.
  { intros g. keep (rows_in (W:=W) (O:=O) (episodes_file g)). by subst e1. }
  apply emit_slice_ok in Hem. fold (closed_at T ep) in Hem. destruct (closed_opening T ep) as [Eo Ef].
  rewrite <- Hem in Eo, Ef. rewrite Eo in Hm. destruct (Z.leb_spec T (op_start (opening ep))) as [Hz|Hz].
  { apply mretS_ok in Hm as [-> _]. split_and!; [done|done|lia]. }
  apply stbind_ok in Hm as (e4 & en & [-> Hen]%getk_ok & Hm). apply stbind_ok in Hm as (e4 & e5 & [-> ->]%getS_ok & Hm).
  apply stbind_ok in Hm as (e4 & [] & [_ ->]%requireS_ok & Hm). apply stbind_ok in Hm as (e4 & [] & E4%modifyS_ok & Hm).
  apply stbind_ok in Hm as (e5 & i & [-> Hi]%getk_ok & Hm). apply stbind_ok in Hm as (e5 & id & Hid & Hm).
  apply liftR_ok in Hid as [-> Hid]. apply stbind_ok in Hm as (e5 & rs & Hrs & Hm).
  apply stbind_ok in Hm as (e6 & amq & Ha & Hm). apply liftR_ok in Ha as [-> Ha].
  apply stbind_ok in Hm as (e6 & fill & Hfill & Hm). apply stbind_ok in Hm as (e7 & e8 & [-> ->]%getS_ok & Hm).
  assert (e6 = e5) as ->.
  { destruct (ep_fill ep') as [[ks j]|]; [|by apply mretS_ok in Hfill as [-> _]].
    apply stbind_ok in Hfill as (e8 & spec & [-> _]%getk_ok & Hfill). apply stbind_ok in Hfill as (e9 & vs & Hvs & Hfill).
    unfold views_of in Hvs. apply (mapS_pure _ (λ _ _, True)) in Hvs as [-> _]; [|intros ? ? ? [-> _]%getk_ok; done].
    apply stbind_ok in Hfill as (e9 & b & [-> _]%liftR_ok & Hfill). by apply mretS_ok in Hfill as [-> _]. }
  assert (episodes e5 = episodes e3 ∧ statics e5 = statics e3 ∧ ∀ g, rows_in (episodes_file g) e5 = rows_in (episodes_file g) e3)
    as (E5 & S5 & R5).
  { split_and!; [keep (@episodes W O); by subst e4|keep (@statics W O); by subst e4|].
    intros g. keep (rows_in (W:=W) (O:=O) (episodes_file g)). by subst e4. }
  apply statics_eq in S3 as (X1 & X2 & X3 & X4). apply statics_eq in S5 as (Y1 & Y2 & Y3 & Y4).
  split_and!; [|lia|].
  { transitivity (episodes e5); [|by rewrite E5]. by keep (@episodes W O). }
  intros _. exists en, i, id, rs, amq, fill. split_and!.
  - by rewrite <- X2.
  - rewrite <- X3. by subst e4.
  - rewrite <- X1. exact Hid.
  - intros g. fold (has_game e5) in Hm. rewrite Y1, Y4, X1, X4 in Hm. rewrite <- Hem.
    fold (episodes_file (en_group en)) in Hm. destruct (decide (en_group en = g)) as [<-|Hne].
    + apply write_ok in Hm as ->. by rewrite R5, R3.
    + assert (episodes_file g ≠ episodes_file (en_group en)) as Hn by (intros E%file_inj; by apply Hne).
      rewrite (frame_use _ _ _ _ _ (frame_rows _ _ _ Hn) Hm), R5, R3, app_nil_r. done.
Qed.

Lemma close_episodes_perm cs (e e' : Engine) u :
  close_episodes cs e = (e', Ok u) → ∃ l, Permutation l cs ∧ forS close_episode l e = (e', Ok u).
Proof.
  unfold Episodes.close_episodes. intros Hm. apply stbind_ok in Hm as (e1 & keyed & Hk & Hm).
  apply (mapS_pure _ (λ (c : closure) (k : (O * string * Z) * closure), k.2 = c)) in Hk as [-> Hk].
  2:{ intros c e2 b Hb. apply stbind_ok in Hb as (e3 & en & [-> _]%getk_ok & Hb).
      apply stbind_ok in Hb as (e3 & ep & [-> _]%getk_ok & Hb). by apply mretS_ok in Hb as [-> ->]. }
  exists (map snd (sort_by episode_leb keyed)). split; [|exact Hm].
  transitivity (map snd keyed); [apply Permutation_map, sort_by_perm|].
  assert (map snd keyed = cs) as ->; [|done]. clear Hm. induction Hk; simpl; congruence.
Qed.

Lemma close_one_ok key T why cens (e e' : Engine) u :
  close_episodes [(key, T, why, cens)] e = (e', Ok u) → ∃ v, close_episode (key, T, why, cens) e = (e', Ok v).
Proof.
  intros (l & Hp & Hm)%close_episodes_perm. apply Permutation_sym, Permutation_length_1_inv in Hp as ->.
  apply forS_cons in Hm as (e1 & v & Hc & Hm). apply mretS_ok in Hm as [-> _]. eauto.
Qed.

(** ** Episodes and their runs *)
Definition slices_for (kind : string) (run : list Commit) (T : Z) : list (list Commit * Z) :=
  match fill_policy_of x kind with Some _ => [(run, T)] | None => slices_of run T end.

(** The open episode [ep] stands for the run [run]; a fill is one slice. *)
Definition episode_ok (key : string * string) (run : list Commit) (ep : Episode) : Prop :=
  ∃ c l, run = c :: l ∧ opened_by key c (opening ep) ∧
    match fill_policy_of x key.2 with
    | None => ep_fill ep = None ∧ run_holds (tiers x) run (facts ep) (slice ep)
    | Some _ => is_Some (ep_fill ep) ∧ facts_of (tiers x) [] (facts ep) ∧ slice_holds run (slice ep)
    end.

(** A row that describes a closed episode. *)
Definition episode_written (e0 : Engine) (c : Closed) (row : json) : Prop :=
  ∃ i id ep rs amq fill c0 l,
    index e0 !! (cl_key c).1 = Some i ∧
    episode_id dumps sha256 (scope e0) (cl_key c).1 (cl_key c).2 (start_of (cl_run c)) = Ok id ∧
    row = episode_row x (scope e0) (has_game e0) i id ep (cl_end c) (cl_why c) (cl_censored c) rs amq fill ∧
    cl_run c = c0 :: l ∧ opened_by (cl_key c) c0 (opening ep) ∧
    facts_of (tiers x) (slices_for (cl_key c).2 (cl_run c) (cl_end c)) (facts ep) ∧
    (∀ k, total (class_ns (facts ep)) k = spent (in_class k) (cl_run c) (cl_end c)).

Context (Htiers : NoDup (tiers x).*1) (Hpositive : Forall (λ t, 0 ≤ t.2) (tiers x)).

Lemma episode_end key run ep T : episode_ok key run ep → timed run T →
  facts_of (tiers x) (slices_for key.2 run T) (facts (closed_at T ep)) ∧
  (∀ k, total (class_ns (facts (closed_at T ep))) k = spent (in_class k) run T).
Proof.
  intros (c & l & -> & Ho & Hk) Ht. rewrite closed_facts. unfold slices_for.
  destruct (fill_policy_of x key.2).
  - destruct Hk as (_ & Hf & [Hne Hs]). pose proof (facts_fold _ [] _ _ _ _ Htiers Hpositive Ht Hne Hf (Hs _ Ht)) as F.
    split; [exact F|]. intros k. rewrite (fo_class _ _ _ F). unfold sum_slices. simpl. lia.
  - destruct Hk as [_ Hr]. pose proof (run_end _ _ _ _ _ Htiers Hpositive Ht Hr) as F. split; [exact F|].
    intros k. rewrite (fo_class _ _ _ F). apply slices_spent.
Qed.

Lemma quotes_differ_spec o s : quotes_differ o s = false → o_quotes o = Some (slice_quotes s).
Proof. unfold quotes_differ. by rewrite negb_false_iff, bool_decide_eq_true. Qed.

Lemma episode_update key run c ep ep' :
  episode_ok key run ep → timed (run ++ [c]) (c_time c) →
  opening ep' = opening ep → ep_fill ep' = ep_fill ep → (slice ep', facts ep') = updated c ep →
  (ep_fill ep = None → is_Some (o_quotes (c_obs c)) ∨ quotes_differ (c_obs c) (slice ep) = false) →
  episode_ok key (run ++ [c]) ep'.
Proof.
  intros (c0 & l & -> & Ho & Hk) Ht Eo Ef Eu Hq. exists c0, (l ++ [c]). split; [done|]. rewrite Eo, Ef. split; [done|].
  unfold updated in Eu.
  destruct (fill_policy_of x key.2).
  - destruct Hk as (Hf & Hfs & Hs). destruct Hf as [fl Hfl]. rewrite Hfl in Eu. injection Eu as -> ->.
    split_and!; [by rewrite Hfl|done|by apply slice_extend].
  - destruct Hk as [Hf Hr]. rewrite Hf in Eu. split; [done|]. specialize (Hq Hf).
    assert (quotes_differ (c_obs c) (reclass c (slice ep)) = quotes_differ (c_obs c) (slice ep)) as Ed.
    { unfold quotes_differ, reclass. by destruct (bool_decide (o_class (c_obs c) = class_now (slice ep))). }
    rewrite Ed in Eu. destruct (quotes_differ (c_obs c) (slice ep)) eqn:E.
    + destruct Hq as [[q Eq]|?]; [|done]. pose proof (run_split _ (c0 :: l) _ _ c q Htiers Hpositive ltac:(done) Ht Hr Eq) as Hsp.
      destruct (fold_slice _ _ _ _) as [s' f']. injection Eu as -> ->. rewrite Eq. apply Hsp. intros ->.
      unfold quotes_differ in E. rewrite Eq in E. by rewrite bool_decide_eq_true_2 in E.
    + injection Eu as -> ->. apply run_extend; [done|done|done|by apply quotes_differ_spec].
Qed.

Lemma episode_open key c ep : opened_by key c (opening ep) → run_holds (tiers x) [c] (facts ep) (slice ep) →
  (match fill_policy_of x key.2 with None => ep_fill ep = None | Some _ => is_Some (ep_fill ep) end) →
  episode_ok key [c] ep.
Proof.
  intros Ho Hr Hf. exists c, []. split_and!; [done..|]. destruct (fill_policy_of x key.2); [|done].
  destruct Hr as [Hfs Hs _]. done.
Qed.

(** ** The log of a scope *)
Definition group_of (e0 : Engine) (c : Closed) : option string := en_group <$> entities e0 !! (cl_key c).1.

(** The rows of each episodes file are those of the logged episodes that lasted. *)
Definition logged (e0 : Engine) (log : list Closed) (e : Engine) : Prop :=
  statics e = statics e0 ∧
  ∀ g, ∃ rs, rows_in (episodes_file g) e = rows_in (episodes_file g) e0 ++ rs ∧
    Forall2 (episode_written e0) (filter (λ c, group_of e0 c = Some g ∧ 0 < lifetime c) log) rs.

Definition episode_part (g : string) (e : Engine) := (statics e, rows_in (episodes_file g) e).
Lemma logged_frame e0 log (e e' : Engine) :
  (∀ g, episode_part g e' = episode_part g e) → logged e0 log e → logged e0 log e'.
Proof.
  intros Hp [Hs Hr]. split; [rewrite <- Hs; exact (f_equal fst (Hp "x"))|].
  intros g. destruct (Hr g) as (rs & E & Hf). exists rs. split; [|done]. rewrite <- E. exact (f_equal snd (Hp g)).
Qed.

(** The open episode of [key], if any, stands for [run]. *)
Definition open_run (key : string * string) (ep : option Episode) (run : list Commit) : Prop :=
  match ep with None => run = [] | Some ep => episode_ok key run ep end.

Lemma close_logged e0 log key run T why cens (e e' : Engine) u :
  logged e0 log e → open_run key (episodes e !! key) run → timed run T →
  close_episode (key, T, why, cens) e = (e', Ok u) →
  logged e0 (log ++ [mkClosed key run T why cens]) e' ∧ run ≠ [] ∧ episodes e' = delete key (episodes e) ∧
  fill_state e' = fill_state e ∧ fill_ns e' = fill_ns e.
Proof.
  intros [Hs Hr] Hrun Ht Hm. pose proof Hm as (ep & Hep & Eeps & Hshort & Hlong)%close_episode_ok.
  rewrite Hep in Hrun. cbn [open_run] in Hrun. pose proof Hrun as (c & l & Erun & Ho & _).
  assert (op_start (opening ep) = start_of run) as Est by (rewrite (ob_start _ _ _ Ho); by subst run).
  assert (op_kind (opening ep) = key.2) as Ek by apply (ob_kind _ _ _ Ho).
  split_and!; [|by subst run|done|by keep (@fill_state W O)|by keep (@fill_ns W O)].
  assert (statics e' = statics e0) as Hs' by (rewrite <- Hs; by keep (@statics W O)).
  split; [done|]. intros g. destruct (Hr g) as (rs & E & Hf). rewrite filter_app, filter_cons, filter_nil.
  set (cl := mkClosed key run T why cens). assert (lifetime cl = T - op_start (opening ep)) as El by (rewrite Est; done).
  destruct (Z.le_gt_cases T (op_start (opening ep))) as [Hz|Hz].
  - rewrite decide_False by lia. rewrite app_nil_r. exists rs. split; [by rewrite Hshort|done].
  - destruct (Hlong ltac:(lia)) as (en & i & id & rs' & amq & fl & Hen & Hi & Hid & Hrows).
    apply statics_eq in Hs as (X1 & X2 & X3 & X4). specialize (Hrows g). rewrite X1, X4, E in Hrows.
    assert (group_of e0 cl = Some (en_group en)) as Eg by (unfold group_of; simpl; by rewrite <- X2, Hen).
    rewrite Eg. destruct (decide (en_group en = g)) as [<-|Hne].
    + rewrite decide_True by (split; [done|lia]). eexists. split; [by rewrite Hrows, <- app_assoc|].
      apply Forall2_app; [done|]. constructor; [|done].
      destruct (closed_opening T ep) as [Eo _]. destruct (episode_end _ _ _ _ Hrun Ht) as [F1 F2].
      exists i, id, (closed_at T ep), rs', amq, fl, c, l. rewrite Eo. split_and!; try done; cbn [cl cl_key cl_run].
      * by rewrite <- X3.
      * by rewrite <- X1, <- Ek, <- Est.
    + rewrite decide_False by (intros [[= ?] _]; done). rewrite app_nil_r. exists rs.
      split; [by rewrite Hrows, app_nil_r|done].
Qed.

(** ** Fill time *)
Definition state_of (e : Engine) (id : string) : option (Z * string) := (λ s, (fs_since s, fs_state s)) <$> fill_state e !! id.
Definition table (e : Engine) (id : string) : gmap string Z := default ∅ (fill_ns e !! id).
Definition charged (s : string) (n : Z) (F : gmap string Z) : gmap string Z := if n <=? 0 then F else add_to s n F.

(** What [move_fill_state] does to a state and its table. *)
Definition moved (st : option (Z * string)) (t : Z) (to : option string) (F : gmap string Z) : option (Z * string) * gmap string Z :=
  match st with
  | None => ((t,.) <$> to, F)
  | Some (since, s) => if decide (to = Some s) then (st, F) else ((t,.) <$> to, charged s (t - since) F)
  end.

Lemma charge_fill_ok id s n (e e' : Engine) u : charge_fill id s n e = (e', Ok u) →
  fill_state e' = fill_state e ∧ table e' id = charged s n (table e id) ∧ ∀ k, k ≠ id → fill_ns e' !! k = fill_ns e !! k.
Proof.
  unfold charge_fill, charged, table. intros Hm. destruct (n <=? 0); [by apply mretS_ok in Hm as [-> _]|].
  apply stbind_ok in Hm as (? & ? & [-> ->]%getS_ok & Hm). apply stbind_ok in Hm as (e1 & [] & Hi & Hm).
  apply stbind_ok in Hm as (? & F & [-> HF]%getk_ok & Hm). apply stbind_ok in Hm as (e2 & [] & Hn & ->%modifyS_ok).
  cbn [set_fill_ns fill_state fill_ns]. rewrite lookup_insert_eq. keep (@fill_state W O). keep (@fill_ns W O).
  destruct (fill_ns e !! id) as [F0|] eqn:E0.
  - apply mretS_ok in Hi as [-> _]. rewrite E0 in HF. injection HF as <-.
    split_and!; [done|done|]. intros k Hk. by rewrite lookup_insert_ne.
  - apply stbind_ok in Hi as (e3 & [] & ->%modifyS_ok & Hi).
    assert (fill_ns e1 = <[id := ∅]> (fill_ns e)) as E1 by by keep (@fill_ns W O).
    assert (fill_state e1 = fill_state e) as -> by by keep (@fill_state W O).
    rewrite E1, lookup_insert_eq in HF. injection HF as <-. split_and!; [done|done|].
    intros k Hk. by rewrite lookup_insert_ne, E1, lookup_insert_ne.
Qed.

Lemma move_fill_ok id t to (e e' : Engine) u : move_fill_state id t to e = (e', Ok u) →
  (state_of e' id, table e' id) = moved (state_of e id) t (fst <$> to) (table e id) ∧
  ∀ k, k ≠ id → state_of e' k = state_of e k ∧ table e' k = table e k.
Proof.
  unfold move_fill_state, moved, state_of. intros Hm. apply stbind_ok in Hm as (? & ? & [-> ->]%getS_ok & Hm).
  destruct (fill_state e !! id) as [cur|] eqn:Ecur; cbn [fmap option_fmap option_map].
  2:{ destruct to as [[s eps]|]; [|apply mretS_ok in Hm as [-> _]; by rewrite Ecur].
      apply stbind_ok in Hm as (e1 & [] & Hc & ->%modifyS_ok). unfold table. cbn [set_fill_state fill_state fill_ns].
      keep (@fill_ns W O). keep (@fill_state W O). rewrite lookup_insert_eq. split; [done|].
      intros k Hk. by rewrite lookup_insert_ne. }
  assert ((match to with Some (st, _) => String.eqb (fs_state cur) st | None => false end) = bool_decide (fst <$> to = Some (fs_state cur))) as Eb.
  { destruct to as [[s eps]|]; simpl; [|done].
    destruct (String.eqb_spec (fs_state cur) s); case_bool_decide; congruence. }
  rewrite Eb in Hm. destruct (decide (fst <$> to = Some (fs_state cur))) as [Es|Es].
  - rewrite bool_decide_eq_true_2 in Hm by done. apply modifyS_ok in Hm as ->. unfold table. cbn [set_fill_state fill_state fill_ns].
    rewrite lookup_insert_eq. split; [done|]. intros k Hk. by rewrite lookup_insert_ne.
  - rewrite bool_decide_eq_false_2 in Hm by done. apply stbind_ok in Hm as (e1 & [] & (E1 & E2 & E3)%charge_fill_ok & Hm).
    destruct to as [[s eps]|].
    + apply modifyS_ok in Hm as ->. unfold table in *. cbn [set_fill_state fill_state fill_ns]. rewrite lookup_insert_eq, E2.
      split; [done|]. intros k Hk. by rewrite lookup_insert_ne, E1, E3.
    + apply stbind_ok in Hm as (e2 & [] & ->%modifyS_ok & Hr).
      assert (fill_state e' = delete id (fill_state e)) as -> by (keep (@fill_state W O); simpl; by rewrite E1).
      unfold table in *. assert (fill_ns e' = fill_ns e1) as -> by by keep (@fill_ns W O).
      rewrite lookup_delete_eq, E2. split; [done|]. intros k Hk. by rewrite lookup_delete_ne, E3.
Qed.

(** At [t], [S] is the trigger-positive time and [L] the live time so far. *)
Definition since_ns (st : option (Z * string)) (t : Z) : Z := match st with Some (a, _) => t - a | None => 0 end.
Definition live_ns (st : option (Z * string)) (t : Z) : Z :=
  match st with Some (a, s) => if decide (s = FILL_LIVE) then t - a else 0 | None => 0 end.
Record spends (S L : Z) (F : gmap string Z) (st : option (Z * string)) (t : Z) : Prop := Spends {
  sp_sum : table_sum F + since_ns st t = S;
  sp_live : total F FILL_LIVE + live_ns st t = L;
  sp_since : 0 ≤ since_ns st t;
  sp_positive : entries_positive F;
}.

Lemma spends_moved S L F st t to st' F' :
  spends S L F st t → (st', F') = moved st t to F → spends S L F' st' t ∧ snd <$> st' = to.
Proof.
  intros [Hs Hl Hz Hp] Em. unfold moved in Em. destruct st as [[a s]|]; simpl in *.
  - destruct (decide (to = Some s)) as [->|Hne]; injection Em as -> ->; [done|].
    assert (snd <$> ((t,.) <$> to) = to) as Eto by by destruct to.
    split; [|exact Eto]. assert (since_ns ((t,.) <$> to) t = 0 ∧ live_ns ((t,.) <$> to) t = 0) as [Z1 Z2].
    { destruct to as [s'|]; simpl; [|done]. destruct (decide (s' = FILL_LIVE)); lia. }
    unfold charged. destruct (Z.leb_spec (t - a) 0).
    + split; rewrite ?Z1, ?Z2; [lia| |lia|done]. destruct (decide (s = FILL_LIVE)); lia.
    + split; rewrite ?Z1, ?Z2; [rewrite table_sum_add; lia| |lia|apply positive_add; [done|lia]].
      rewrite total_add. destruct (decide (s = FILL_LIVE)); lia.
  - injection Em as -> ->. split; [|by destruct to]. destruct to as [s'|]; simpl; [|by split].
    split; simpl; [lia| |lia|done]. destruct (decide (s' = FILL_LIVE)); lia.
Qed.

Lemma spends_later S L F st t T : spends S L F st t → t ≤ T →
  spends (S + (if st then T - t else 0)) (L + (if decide (snd <$> st = Some FILL_LIVE) then T - t else 0)) F st T.
Proof.
  intros [Hs Hl Hz Hp] HT. destruct st as [[a s]|]; simpl in *; split; simpl; try done; try lia.
  repeat destruct (decide _); try congruence; lia.
Qed.

(** ** Fills *)
Definition run_ns (run : list Commit) (T : Z) : Z := match run with [] => 0 | c :: _ => T - c_time c end.
Definition last_positive (kind : string) (h : list Commit) : bool :=
  match last h with Some c => positive kind c | None => false end.

(** After the commits [h], the fill of a key has the closed lifetimes [lk] and the open run
    [run]; its time is accounted for. *)
Record fill_at (kind : string) (h : list Commit) (lk : list Closed) (run : list Commit)
    (F : gmap string Z) (st : option (Z * string)) (T : Z) : Prop := FillAt {
  ft_spends : spends (spent (positive kind) h T) (sumZ (map lifetime lk) + run_ns run T) F st T;
  ft_open : run ≠ [] ↔ snd <$> st = Some FILL_LIVE;
  ft_trigger : (if st then true else false) = last_positive kind h;
}.

Lemma fill_next kind h c lk run F st T :
  spends (spent (positive kind) h (c_time c)) (sumZ (map lifetime lk) + run_ns run (c_time c)) F st (c_time c) →
  (run ≠ [] ↔ snd <$> st = Some FILL_LIVE) → (if st then true else false) = positive kind c → c_time c ≤ T →
  fill_at kind (h ++ [c]) lk run F st T.
Proof.
  intros Hs Ho Hp HT. split; [|done|by unfold last_positive; rewrite last_snoc].
  pose proof (spends_later _ _ _ _ _ _ Hs HT) as Hl. rewrite spent_snoc, <- Hp.
  assert (run_ns run T = run_ns run (c_time c) + (if decide (snd <$> st = Some FILL_LIVE) then T - c_time c else 0)) as ->.
  { destruct (decide (snd <$> st = Some FILL_LIVE)) as [E|E], run as [|r0 run]; simpl; try lia; exfalso.
    - by apply Ho in E.
    - apply E. by apply Ho. }
  rewrite Z.add_assoc. by destruct st.
Qed.

(** A lifetime that a commit of [h] ended. *)
Definition fill_stretch (kind : string) (h : list Commit) (cl : Closed) : Prop :=
  ∃ pre d post, h = pre ++ cl_run cl ++ d :: post ∧ cl_run cl ≠ [] ∧
    Forall (λ c, positive kind c = true) (cl_run cl) ∧ cl_end cl = c_time d ∧ cl_censored cl = false ∧
    cl_why cl = (if positive kind d then KILL_PRICE else end_reason (c_obs d)).
Definition open_in (kind : string) (h run : list Commit) : Prop :=
  ∃ pre, h = pre ++ run ∧ Forall (λ c, positive kind c = true) run.

Lemma stretch_mono kind h c lk : Forall (fill_stretch kind h) lk → Forall (fill_stretch kind (h ++ [c])) lk.
Proof.
  intros Hl. eapply Forall_impl; [exact Hl|]. intros cl (pre & d & post & -> & Hcl). exists pre, d, (post ++ [c]).
  split; [by rewrite <- !app_assoc|done].
Qed.

Lemma timed_suffix pre h T : timed (pre ++ h) T → timed h T.
Proof. induction pre as [|c pre IH]; [done|]. intros [_ Ht]. auto. Qed.
Lemma open_in_timed kind h run T : open_in kind h run → timed h T → timed run T.
Proof. intros (pre & -> & _). apply timed_suffix. Qed.

Definition fill_key (key : string * string) (h : list Commit) (lk : list Closed) (e : Engine) : Prop :=
  ∃ run, open_run key (episodes e !! key) run ∧ Forall (fill_stretch key.2 h) lk ∧ open_in key.2 h run ∧
    ∀ T, timed h T → fill_at key.2 h lk run (table e key.1) (state_of e key.1) T.

(** Everything but the episode and the fill of [key] stays. *)
Definition only_key (key : string * string) (e e' : Engine) : Prop :=
  (∀ k, k ≠ key → episodes e' !! k = episodes e !! k) ∧
  (∀ i, i ≠ key.1 → state_of e' i = state_of e i ∧ table e' i = table e i).
Lemma only_key_trans key e1 e2 e3 : only_key key e1 e2 → only_key key e2 e3 → only_key key e1 e3.
Proof.
  intros [A1 B1] [A2 B2]. split.
  - intros k Hk. by rewrite A2, A1.
  - intros i Hi. destruct (B1 i Hi), (B2 i Hi). split; congruence.
Qed.

(** A fill that is priced live has kill prices and a row, and only such a fill. *)
Lemma price_cases p spec ladders ms value priced :
  price p spec ladders ms value = Ok priced →
  (∃ ks j, priced = mkPriced FILL_LIVE (Some ks) (Some j)) ∨ (∃ r, priced = mkPriced r None None ∧ r ≠ FILL_LIVE).
Proof.
  unfold price. intros (g & _ & Hp)%bind_ok. destruct (reasons_of g) as [|r0 l].
  - apply bind_ok in Hp as (er & _ & [= <-]). left. eauto.
  - right. destruct (filter _ NO_FILL_PRECEDENCE) as [|r k] eqn:Ef; [done|]. injection Hp as <-. exists r. split; [done|].
    assert (r ∈ filter (λ r, in_list (r0 :: l) r = true) NO_FILL_PRECEDENCE) as Hr by (rewrite Ef; left).
    apply list_elem_of_filter in Hr as [_ Hr]. intros ->. revert Hr.
    change (FILL_LIVE ∉ NO_FILL_PRECEDENCE). apply (bool_decide_unpack _). by vm_compute.
Qed.

Lemma reprice_ok p en key c (e e' : Engine) u :
  reprice p en key (c_time c) (c_obs c) (c_skew c) e = (e', Ok u) →
  (e' = e ∧ ∃ a s, state_of e (en_id en) = Some (a, s) ∧ s ≠ FILL_LIVE) ∨
  ∃ s eps e1, move_fill_state (en_id en) (c_time c) (Some (s, eps)) e1 = (e', Ok u) ∧
    ((s = FILL_LIVE ∧ ∃ kj v, open_episode key (c_time c) (c_obs c) (c_skew c) (Some kj) e = (e1, Ok v)) ∨ (s ≠ FILL_LIVE ∧ e1 = e)).
Proof.
  intros Hm. unfold Episodes.reprice in Hm. apply stbind_ok in Hm as (? & ? & [-> ->]%getS_ok & Hm).
  set (eps := map _ (en_legs en)) in *.
  destruct (match fill_state e !! en_id en with Some s => negb (String.eqb (fs_state s) FILL_LIVE) && bool_decide (fs_epochs s = eps) | None => false end) eqn:Eskip.
  - left. apply mretS_ok in Hm as [-> _]. split; [done|]. unfold state_of. destruct (fill_state e !! en_id en) as [s|]; [|done].
    apply andb_true_iff in Eskip as [Hs _]. exists (fs_since s), (fs_state s). split; [done|]. by destruct (String.eqb_spec (fs_state s) FILL_LIVE).
  - right. clear Eskip. apply stbind_ok in Hm as (e1 & [spec ms] & [-> _]%getk_ok & Hm). apply stbind_ok in Hm as (e1 & vs & Hvs & Hm).
    unfold views_of in Hvs. apply (mapS_pure _ (λ _ _, True)) in Hvs as [-> _]; [|intros ? ? ? [-> _]%getk_ok; done].
    apply stbind_ok in Hm as (e1 & ladders & [-> _]%liftR_ok & Hm). apply stbind_ok in Hm as (e1 & priced & [-> Hp]%liftR_ok & Hm).
    apply stbind_ok in Hm as (e1 & [] & Ho & Hm). exists (state priced), eps, e1. split; [exact Hm|].
    apply price_cases in Hp as [(ks & j & ->)|(r & -> & Hr)]; simpl in Ho.
    + left. split; [done|]. by exists (ks, j), ().
    + right. split; [done|]. by apply mretS_ok in Ho as [-> _].
Qed.

(** Pricing at a commit with a true trigger and no open episode. *)
Lemma reprice_fill p en kind c h lk (e e' : Engine) u :
  let key := (en_id en, kind) in
  fill_policy_of x kind = Some p → positive kind c = true → timed h (c_time c) →
  episodes e !! key = None → Forall (fill_stretch kind (h ++ [c])) lk →
  spends (spent (positive kind) h (c_time c)) (sumZ (map lifetime lk)) (table e (en_id en)) (state_of e (en_id en)) (c_time c) →
  reprice p en key (c_time c) (c_obs c) (c_skew c) e = (e', Ok u) →
  fill_key key (h ++ [c]) lk e' ∧ only_key key e e'.
Proof.
  intros key Hk Hpos Ht He Hlk Hs Hm. subst key. cbn [fst snd] in *.
  apply reprice_ok in Hm as [(-> & a & s & Est & Hns)|(s & eps & e1 & Hmv & Hop)].
  - split; [|by split]. exists []. cbn [fst snd]. unfold open_run. rewrite He. split_and!; [done|done|by exists (h ++ [c]); rewrite app_nil_r|].
    intros T [_ HT]%timed_snoc. apply fill_next; [by rewrite Z.add_0_r| |by rewrite Est|done].
    rewrite Est. simpl. split; [done|]. by intros [= ->].
  - pose proof (move_fill_ok _ _ _ _ _ _ Hmv) as [Emv Hother]. cbn [fmap option_fmap option_map fst] in Emv.
    assert (episodes e' = episodes e1) as E' by by keep (@episodes W O).
    assert (state_of e1 = state_of e ∧ table e1 = table e) as [Es1 Et1].
    { unfold state_of, table. destruct Hop as [(_ & kj & v & Hop)|[_ ->]]; [|done].
      assert (fill_state e1 = fill_state e) as -> by by keep (@fill_state W O).
      by assert (fill_ns e1 = fill_ns e) as -> by by keep (@fill_ns W O). }
    rewrite Es1, Et1 in *. destruct (spends_moved _ _ _ _ _ _ _ _ Hs Emv) as [Hs' Eto].
    destruct Hop as [(-> & kj & v & (ep & E1 & Hf & Ho & Hrun)%open_episode_ok)|[Hns ->]].
    + split; [|split].
      * exists [c]. cbn [fst snd]. rewrite E', E1, lookup_insert_eq. unfold open_run. split_and!; [|done|exists h; by repeat constructor|].
        -- apply episode_open; [done|done|]. cbn [snd]. rewrite Hk, Hf. eauto.
        -- intros T [_ HT]%timed_snoc. apply fill_next; [|by rewrite Eto| |done].
           { simpl. rewrite Z.sub_diag, Z.add_0_r. exact Hs'. }
           rewrite Hpos. by destruct (state_of e' (en_id en)).
      * intros k Hne. by rewrite E', E1, lookup_insert_ne.
      * exact Hother.
    + split; [|split].
      * exists []. cbn [fst snd]. rewrite E', He. unfold open_run. split_and!; [done|done|by exists (h ++ [c]); rewrite app_nil_r|].
        intros T [_ HT]%timed_snoc. apply fill_next; [simpl; by rewrite Z.add_0_r| | |done].
        { rewrite Eto. split; [done|]. by intros [= ->]. }
        rewrite Hpos. by destruct (state_of e' (en_id en)).
      * intros k Hne. by rewrite E'.
      * exact Hother.
Qed.

(** Operations that write no episode row keep the log. *)
Ltac keep_log Hl :=
  refine (logged_frame _ _ _ _ _ Hl);
  let g := fresh "g" in intros g; unfold episode_part; f_equal;
  [keep (@statics W O) | keep (rows_in (W:=W) (O:=O) (episodes_file g))]; try done.

Lemma close_fill_ok e0 log key run h lk c (e e' : Engine) why u :
  logged e0 log e → open_run key (episodes e !! key) run → timed h (c_time c) → open_in key.2 h run →
  Forall (fill_stretch key.2 h) lk →
  fill_at key.2 h lk run (table e key.1) (state_of e key.1) (c_time c) →
  why = (if positive key.2 c then KILL_PRICE else end_reason (c_obs c)) →
  close_episodes [(key, c_time c, why, false)] e = (e', Ok u) →
  let cl := mkClosed key run (c_time c) why false in
  logged e0 (log ++ [cl]) e' ∧ Forall (fill_stretch key.2 (h ++ [c])) (lk ++ [cl]) ∧
  episodes e' = delete key (episodes e) ∧ table e' = table e ∧ state_of e' = state_of e ∧ run ≠ [] ∧
  spends (spent (positive key.2) h (c_time c)) (sumZ (map lifetime (lk ++ [cl]))) (table e key.1) (state_of e key.1) (c_time c).
Proof.
  intros Hl Hrun Ht Hin Hlk [Hs _ _] Hwhy [v Hm]%close_one_ok cl.
  eapply close_logged in Hm as (Hl' & Hne & Ee & Ef & En); [|exact Hl|exact Hrun|by eapply open_in_timed].
  split_and!; [exact Hl'| |done|by unfold table; rewrite En|by unfold state_of; rewrite Ef|done|].
  - apply Forall_app. split; [by apply stretch_mono|]. constructor; [|done]. destruct Hin as (pre & -> & Hp).
    exists pre, c, []. split_and!; try done. by rewrite <- app_assoc.
  - rewrite map_app, sumZ_app. cbn [map sumZ foldr]. destruct run as [|c0 run]; [done|].
    replace (lifetime cl + 0) with (run_ns (c0 :: run) (c_time c)) by (unfold lifetime, cl, run_ns; simpl; lia). exact Hs.
Qed.

Lemma move_off_ok key h lk c (e e' : Engine) u :
  episodes e !! key = None → positive key.2 c = false → timed h (c_time c) → Forall (fill_stretch key.2 (h ++ [c])) lk →
  spends (spent (positive key.2) h (c_time c)) (sumZ (map lifetime lk)) (table e key.1) (state_of e key.1) (c_time c) →
  move_fill_state key.1 (c_time c) None e = (e', Ok u) → fill_key key (h ++ [c]) lk e' ∧ only_key key e e'.
Proof.
  intros He Hp Ht Hlk Hs Hm. assert (episodes e' = episodes e) as E' by by keep (@episodes W O).
  apply move_fill_ok in Hm as [Emv Hother]. destruct (spends_moved _ _ _ _ _ _ _ _ Hs Emv) as [Hs' Eto].
  split; [|by split; [intros k Hk; by rewrite E'|]].
  exists []. unfold open_run. rewrite E', He. split_and!; [done|done|by exists (h ++ [c]); rewrite app_nil_r|].
  intros T [_ HT]%timed_snoc. apply fill_next; [by rewrite Z.add_0_r| | |done]; by destruct (state_of e' key.1).
Qed.

Lemma commit_fill_ok e0 log p en kind c h lk (e e' : Engine) u :
  let key := (en_id en, kind) in
  fill_policy_of x kind = Some p → logged e0 log e → fill_key key h lk e → timed h (c_time c) →
  commit_fill p en key (c_time c) (c_obs c) (c_skew c) e = (e', Ok u) →
  ∃ new, logged e0 (log ++ new) e' ∧ Forall (λ cl, cl_key cl = key) new ∧
    fill_key key (h ++ [c]) (lk ++ new) e' ∧ only_key key e e'.
Proof.
  intros key Hk Hl (run & Hrun & Hlk & Hin & Hat) Ht Hm. specialize (Hat _ Ht) as Hat0.
  unfold Episodes.commit_fill in Hm. change (bool_decide (key.2 ∈ o_predicates (c_obs c))) with (positive kind c) in Hm.
  apply stbind_ok in Hm as (? & ? & [-> ->]%getS_ok & Hm).
  destruct (episodes e !! key) as [ep|] eqn:Eep.
  - destruct (positive kind c) eqn:Ep; cbn [negb] in Hm.
    + apply stbind_ok in Hm as (e1 & [spec ms] & [-> _]%getk_ok & Hm). apply stbind_ok in Hm as (e1 & vs & Hvs & Hm).
      unfold views_of in Hvs. apply (mapS_pure _ (λ _ _, True)) in Hvs as [-> _]; [|intros ? ? ? [-> _]%getk_ok; done].
      apply stbind_ok in Hm as (e1 & ks & [-> Hks]%liftR_ok & Hm). apply stbind_ok in Hm as (e1 & hit & [-> _]%liftR_ok & Hm).
      destruct hit as [[leg best]|].
      * apply stbind_ok in Hm as (e1 & [] & Hput & Hm). apply stbind_ok in Hm as (e2 & [] & Hcl & Hm).
        unfold put_episode in Hput. apply modifyS_ok in Hput. set (ep1 := set_fill _ ep) in *.
        assert (logged e0 log e1) as Hl1 by (subst e1; exact Hl).
        assert (open_run key (episodes e1 !! key) run) as Hrun1.
        { subst e1. cbn [set_episodes episodes]. rewrite lookup_insert_eq. destruct Hrun as (c0 & l & -> & Ho & Hr).
          exists c0, l. split_and!; [done|done|]. revert Hr. cbn [key snd]. rewrite Hk. intros ([fl Hfl] & Hr1 & Hr2).
          split_and!; [|done|done]. unfold ep1. cbn [set_fill ep_fill]. rewrite Hfl. by eexists. }
        assert (table e1 = table e ∧ state_of e1 = state_of e) as [Et1 Es1] by by subst e1.
        eapply (close_fill_ok e0 log key run h lk c) in Hcl as (Hl2 & Hlk2 & Ee2 & Et2 & Es2 & Hne & Hs2);
          [|done|done|done|done|done|rewrite Et1, Es1; exact Hat0|cbn [key snd]; by rewrite Ep].
        eapply (reprice_fill p en kind c h) in Hm as Hr; [|done|done|done| |exact Hlk2|rewrite Et2, Es2; exact Hs2].
        2:{ rewrite Ee2. apply lookup_delete_eq. }
        destruct Hr as [Hr Honly]. exists [mkClosed key run (c_time c) KILL_PRICE false]. split_and!; [|by repeat constructor|exact Hr|].
        -- keep_log Hl2.
        -- eapply only_key_trans; [|exact Honly]. split.
           ++ intros k Hne'. rewrite Ee2, lookup_delete_ne by done. subst e1. cbn [set_episodes episodes]. by rewrite lookup_insert_ne.
           ++ intros i _. by rewrite Et2, Es2, Et1, Es1.
      * exists []. rewrite !app_nil_r.
        pose proof Hm as (ep0 & ep' & Eep0 & Ee' & Eo & Ef & Eu & Hq)%update_episode_ok. rewrite Eep in Eep0. injection Eep0 as <-.
        assert (fill_state e' = fill_state e) as Efs by by keep (@fill_state W O).
        assert (fill_ns e' = fill_ns e) as Efn by by keep (@fill_ns W O).
        assert (run ≠ []) as Hne by (destruct Hrun as (c0 & l & -> & _); done).
        split_and!; [keep_log Hl|done| |].
        -- exists (run ++ [c]). rewrite Ee', lookup_insert_eq. unfold open_run. split_and!.
           ++ eapply episode_update; [exact Hrun| |done..]. apply timed_snoc. split; [by eapply open_in_timed|lia].
           ++ by apply stretch_mono.
           ++ destruct Hin as (pre & -> & Hp). exists pre. split; [by rewrite app_assoc|]. apply Forall_app. by repeat constructor.
           ++ intros T [_ HT]%timed_snoc. unfold table, state_of. rewrite Efs, Efn. destruct Hat0 as [Hs Ho Htr].
              apply fill_next; [| | |done].
              ** destruct run as [|c0 run]; [done|]. exact Hs.
              ** fold (state_of e key.1). rewrite <- Ho. by destruct run.
              ** fold (state_of e key.1). cbn [key snd]. rewrite Ep. apply Ho in Hne. by destruct (state_of e key.1).
        -- split; [intros k Hk'; by rewrite Ee', lookup_insert_ne|]. intros i _. unfold state_of, table. by rewrite Efs, Efn.
    + apply stbind_ok in Hm as (e1 & [] & Hcl & Hm).
      eapply (close_fill_ok e0 log key run h lk c) in Hcl as (Hl2 & Hlk2 & Ee2 & Et2 & Es2 & Hne & Hs2);
        [|done|by rewrite Eep|done|done|done|exact Hat0|cbn [key snd]; by rewrite Ep].
      exists [mkClosed key run (c_time c) (end_reason (c_obs c)) false]. split_and!; [keep_log Hl2|by repeat constructor|..].
      all: eapply (move_off_ok key h) in Hm as [Hf Honly]; [| |exact Ep|done|exact Hlk2|rewrite Et2, Es2; exact Hs2];
        [try exact Hf|rewrite Ee2; apply lookup_delete_eq].
      eapply only_key_trans; [|exact Honly]. split; [intros k Hne'; by rewrite Ee2, lookup_delete_ne|]. intros i _. by rewrite Et2, Es2.
  - unfold open_run in Hrun. subst run. exists []. rewrite !app_nil_r. destruct Hat0 as [Hs _ _]. simpl in Hs. rewrite Z.add_0_r in Hs.
    destruct (positive kind c) eqn:Ep; cbn [negb] in Hm.
    + split_and!; [keep_log Hl|done|..].
      all: eapply (reprice_fill p en kind c h) in Hm as [Hf Honly]; [|done|done|done|done|by apply stretch_mono|exact Hs]; done.
    + split_and!; [keep_log Hl|done|..].
      all: eapply (move_off_ok key h) in Hm as [Hf Honly]; [|done|exact Ep|done|by apply stretch_mono|exact Hs]; done.
Qed.

(** ** Ordinary kinds *)
Definition closed_of (key : string * string) (r : list Commit * Z * string) : Closed := mkClosed key r.1.1 r.1.2 r.2 false.

Definition ordinary_key (key : string * string) (h : list Commit) (lk : list Closed) (e : Engine) : Prop :=
  lk = map (closed_of key) (runs_of key.2 h).1 ∧ open_run key (episodes e !! key) (runs_of key.2 h).2.

Definition fills_of (e : Engine) := (fill_state e, fill_ns e).
Lemma fills_same (e e' : Engine) : fills_of e' = fills_of e → state_of e' = state_of e ∧ table e' = table e.
Proof. intros [= E1 E2]. unfold state_of, table. by rewrite E1, E2. Qed.

Lemma commit_ordinary_ok e0 log en kind c h lk (e e' : Engine) u :
  let key := (en_id en, kind) in
  fill_policy_of x kind = None → logged e0 log e → ordinary_key key h lk e → timed h (c_time c) →
  commit_kind en (c_time c) (c_obs c) (c_skew c) kind e = (e', Ok u) →
  ∃ new, logged e0 (log ++ new) e' ∧ Forall (λ cl, cl_key cl = key) new ∧
    ordinary_key key (h ++ [c]) (lk ++ new) e' ∧ only_key key e e'.
Proof.
  intros key Hk Hl [Elk Hrun] Ht Hm. pose proof (runs_timed kind h _ Ht) as Htr.
  assert (fills_of e' = fills_of e) as [Es Et]%fills_same.
  { unfold Episodes.commit_kind in Hm. rewrite Hk in Hm. apply stbind_ok in Hm as (? & ? & [-> ->]%getS_ok & Hm).
    destruct (episodes e !! _); destruct (decide _); try (by keep fills_of). by apply mretS_ok in Hm as [-> _]. }
  assert (∀ i : string, i ≠ key.1 → state_of e' i = state_of e i ∧ table e' i = table e i) as Hother by (intros; by rewrite Es, Et).
  unfold Episodes.commit_kind in Hm. rewrite Hk in Hm. apply stbind_ok in Hm as (? & ? & [-> ->]%getS_ok & Hm).
  unfold ordinary_key. subst key. cbn [fst snd] in *. rewrite !runs_of_snoc. unfold run_step, positive.
  destruct (episodes e !! (en_id en, kind)) as [ep|] eqn:Eep; cbn [open_run] in Hrun.
  - pose proof Hrun as (c0 & l & Erun & _). destruct (decide (kind ∈ o_predicates (c_obs c))) as [Hp|Hp].
    + rewrite bool_decide_eq_true_2 by done. exists []. rewrite !app_nil_r.
      pose proof Hm as (ep0 & ep' & Eep0 & Ee' & Eo & Ef & Eu & Hq)%update_episode_ok.
      rewrite Eep in Eep0. injection Eep0 as <-.
      split_and!; [keep_log Hl|done|done| |split; [|done]].
      * rewrite Ee', lookup_insert_eq. cbn [snd open_run]. eapply episode_update; [exact Hrun| |done..]. apply timed_snoc. split; [done|lia].
      * intros k Hne. by rewrite Ee', lookup_insert_ne.
    + rewrite bool_decide_eq_false_2 by done. apply close_one_ok in Hm as [v Hm].
      eapply (close_logged e0 log (en_id en, kind)) in Hm as (Hl' & Hne & Ee' & _ & _); [|done|rewrite Eep; exact Hrun|done].
      eexists. split; [exact Hl'|]. rewrite Erun in *. cbn [fst snd]. split_and!; [by constructor| | |split; [|done]].
      * rewrite map_app, <- Elk. done.
      * by rewrite Ee', lookup_delete_eq.
      * intros k Hne'. by rewrite Ee', lookup_delete_ne.
  - exists []. rewrite !app_nil_r, Hrun. destruct (decide (kind ∈ o_predicates (c_obs c))) as [Hp|Hp].
    + rewrite bool_decide_eq_true_2 by done. pose proof Hm as (ep & Ee' & Ef & Ho & Hr)%open_episode_ok.
      split_and!; [keep_log Hl|done|done| |split; [|done]].
      * rewrite Ee', lookup_insert_eq. apply episode_open; [done|done|]. cbn [snd]. by rewrite Hk.
      * intros k Hne. by rewrite Ee', lookup_insert_ne.
    + rewrite bool_decide_eq_false_2 by done. apply mretS_ok in Hm as [-> _]. split_and!; [done..| |by split].
      cbn [snd]. by rewrite Eep, Hrun.
Qed.

(** ** The invariant of a scope *)
Definition key_ok (key : string * string) (h : list Commit) (lk : list Closed) (e : Engine) : Prop :=
  match fill_policy_of x key.2 with None => ordinary_key key h lk e | Some _ => fill_key key h lk e end.
Definition log_of (key : string * string) (log : list Closed) : list Closed := filter (λ cl, cl_key cl = key) log.

Record scope_ok (e0 : Engine) (hist : string * string → list Commit) (log : list Closed) (e : Engine) : Prop := ScopeOk {
  so_logged : logged e0 log e;
  so_keys : ∀ key, key_ok key (hist key) (log_of key log) e;
}.

Lemma fill_kind_unique k k' p p' : fill_policy_of x k = Some p → fill_policy_of x k' = Some p' → k = k'.
Proof.
  unfold fill_policy_of. destruct (fills x) as [q|]; simpl; [|done].
  destruct (String.eqb_spec k (FillChecks.kind q)) as [->|]; [|done].
  by destruct (String.eqb_spec k' (FillChecks.kind q)) as [->|].
Qed.

Lemma key_ok_frame key h lk (e e' : Engine) :
  episodes e' !! key = episodes e !! key →
  (is_Some (fill_policy_of x key.2) → state_of e' key.1 = state_of e key.1 ∧ table e' key.1 = table e key.1) →
  key_ok key h lk e → key_ok key h lk e'.
Proof.
  unfold key_ok, ordinary_key, fill_key. intros Ee Hf. destruct (fill_policy_of x key.2) as [p|].
  - destruct (Hf ltac:(by eexists)) as [-> ->]. by rewrite Ee.
  - by rewrite Ee.
Qed.

Lemma log_of_app key log new : log_of key (log ++ new) = log_of key log ++ log_of key new.
Proof. apply filter_app. Qed.
Lemma log_of_own key log : Forall (λ cl, cl_key cl = key) log → log_of key log = log.
Proof. induction 1 as [|cl l Hc _ IH]; [done|]. unfold log_of in *. rewrite filter_cons, decide_True by done. by f_equal. Qed.
Lemma log_of_other key key' log : Forall (λ cl, cl_key cl = key') log → key ≠ key' → log_of key log = [].
Proof.
  intros Hf Hne. induction Hf as [|cl l Hc _ IH]; [done|]. unfold log_of in *. rewrite filter_cons, decide_False by (intros E; by rewrite Hc in E). exact IH.
Qed.

Lemma commit_kind_ok e0 hist log en kind c (e e' : Engine) u :
  scope_ok e0 hist log e → timed (hist (en_id en, kind)) (c_time c) →
  commit_kind en (c_time c) (c_obs c) (c_skew c) kind e = (e', Ok u) →
  ∃ log', scope_ok e0 (λ k, if decide (k = (en_id en, kind)) then hist k ++ [c] else hist k) log' e'.
Proof.
  intros [Hl Hks] Ht Hm. set (key := (en_id en, kind)) in *. specialize (Hks key) as Hkey. unfold key_ok in Hkey. cbn [key snd] in Hkey.
  assert (∃ new, logged e0 (log ++ new) e' ∧ Forall (λ cl, cl_key cl = key) new ∧
    key_ok key (hist key ++ [c]) (log_of key log ++ new) e' ∧ only_key key e e' ∧
    (fill_policy_of x kind = None → fills_of e' = fills_of e)) as (new & Hl' & Hnew & Hk' & [Hep Hfl] & Hnone).
  { unfold key_ok. cbn [key snd]. destruct (fill_policy_of x kind) as [p|] eqn:Ek.
    - unfold Episodes.commit_kind in Hm. rewrite Ek in Hm.
      eapply commit_fill_ok in Hm as (new & H1' & H2 & H3 & H4); [|done..]. exists new. by split_and!.
    - assert (fills_of e' = fills_of e) as Ef.
      { unfold Episodes.commit_kind in Hm. rewrite Ek in Hm. apply stbind_ok in Hm as (? & ? & [-> ->]%getS_ok & Hm).
        destruct (episodes e !! _); destruct (decide _); try (by keep fills_of). by apply mretS_ok in Hm as [-> _]. }
      eapply commit_ordinary_ok in Hm as (new & H1' & H2 & H3 & H4); [|done..]. exists new. by split_and!. }
  exists (log ++ new). split; [done|]. intros k. rewrite log_of_app. destruct (decide (k = key)) as [->|Hne].
  - by rewrite (log_of_own _ new).
  - rewrite (log_of_other _ _ _ Hnew Hne), app_nil_r. eapply key_ok_frame; [by apply Hep| |apply Hks].
    intros [p Hp]. destruct (fill_policy_of x kind) as [p'|] eqn:Ek.
    + pose proof (fill_kind_unique _ _ _ _ Hp Ek) as E2. apply Hfl. intros E1. apply Hne. unfold key in E1 |- *. destruct k. simpl in *. congruence.
    + by destruct (fills_same _ _ (Hnone eq_refl)) as [-> ->].
Qed.

Lemma scope_ok_ext e0 hist hist' log (e : Engine) : (∀ k, hist k = hist' k) → scope_ok e0 hist log e → scope_ok e0 hist' log e.
Proof. intros E [Hl Hk]. split; [done|]. intros k. by rewrite <- E. Qed.

Lemma commit_kinds_ok e0 hist log en c l (e e' : Engine) u :
  NoDup l → scope_ok e0 hist log e → (∀ k, k ∈ l → timed (hist (en_id en, k)) (c_time c)) →
  forS (commit_kind en (c_time c) (c_obs c) (c_skew c)) l e = (e', Ok u) →
  ∃ log', scope_ok e0 (λ k, if decide (k.1 = en_id en ∧ k.2 ∈ l) then hist k ++ [c] else hist k) log' e'.
Proof.
  revert hist log e. induction l as [|kind l IH]; intros hist log e Hnd Hok Ht Hm.
  - apply mretS_ok in Hm as [-> _]. exists log. eapply scope_ok_ext; [|exact Hok]. intros k. simpl.
    rewrite decide_False; [done|]. by intros [_ ?%not_elem_of_nil].
  - apply NoDup_cons in Hnd as [Hk Hnd]. apply forS_cons in Hm as (e1 & v & Hc & Hm).
    eapply commit_kind_ok in Hc as (log1 & Hok1); [|exact Hok|apply Ht; left].
    eapply IH in Hm as (log2 & Hok2); [|exact Hnd|exact Hok1|].
    2:{ intros k Hin. simpl. rewrite decide_False; [apply Ht; by right|]. intros [= ->]. done. }
    exists log2. eapply scope_ok_ext; [|exact Hok2]. intros [i k]. simpl.
    destruct (decide (i = en_id en ∧ k ∈ l)) as [[-> Hin]|Hn].
    + rewrite decide_False by (intros [= ->]; done). rewrite decide_True; [done|]. split; [done|by right].
    + destruct (decide ((i, k) = (en_id en, kind))) as [[= -> ->]|Hne].
      * rewrite decide_True; [done|]. split; [done|by left].
      * rewrite decide_False; [done|]. intros [-> [->|?]%elem_of_cons]; [done|]. by apply Hn.
Qed.

(** The commits that reach the episodes of a key. *)
Definition episodic (en : Entity O) : bool := negb (String.eqb (en_cls en) CONTROL && negb (controls_episodes x)).
Definition key_history (cs : list (@Step O)) (key : string * string) : list Commit :=
  if decide (key.2 ∈ kinds x)
  then map st_commit (filter (λ s, en_id (st_entity s) = key.1 ∧ episodic (st_entity s) = true) cs) else [].

Lemma key_history_snoc cs v en c key : key_history (cs ++ [mkStep v en c]) key
  = if decide (key.1 = en_id en ∧ key.2 ∈ kinds x ∧ episodic en = true) then key_history cs key ++ [c] else key_history cs key.
Proof.
  unfold key_history. destruct (decide (key.2 ∈ kinds x)) as [Hk|Hk].
  - rewrite filter_app, map_app, filter_cons, filter_nil. cbn [st_entity].
    destruct (decide (en_id en = key.1 ∧ episodic en = true)) as [[E Hep]|Hn].
    + by rewrite decide_True.
    + rewrite decide_False, app_nil_r by naive_solver. done.
  - rewrite decide_False by naive_solver. done.
Qed.

Lemma key_history_timed cs key T : timed (history cs key.1) T → timed (key_history cs key) T.
Proof.
  revert T. induction cs as [|[v en c] cs IH] using rev_ind; intros T.
  - intros _. unfold key_history. by destruct (decide _).
  - rewrite history_snoc, key_history_snoc. unfold extend. destruct (String.eqb_spec key.1 (en_id en)) as [E|E].
    + intros [Ht HT]%timed_snoc. destruct (decide _); [apply timed_snoc; split; [by apply IH|done]|]. eapply timed_mono; [exact HT|by apply IH].
    + intros Ht. rewrite decide_False by naive_solver. by apply IH.
Qed.

Context (Hkinds : NoDup (kinds x)).

Lemma commit_scope_ok e0 cs log v en c (e e' : Engine) u :
  scope_ok e0 (key_history cs) log e → timed (history cs (en_id en)) (c_time c) →
  commit en (c_time c) (c_obs c) (c_skew c) e = (e', Ok u) →
  ∃ log', scope_ok e0 (key_history (cs ++ [mkStep v en c])) log' e'.
Proof.
  intros [Hl Hk] Ht Hm. unfold Episodes.commit in Hm. apply stbind_ok in Hm as (e1 & [] & Hme & Hm).
  assert (scope_ok e0 (key_history cs) log e1) as Hok1.
  { split; [keep_log Hl|]. intros key. assert (fills_of e1 = fills_of e) as [Es Et]%fills_same by by keep fills_of.
    assert (episodes e1 = episodes e) as Ee by by keep (@episodes W O).
    eapply key_ok_frame; [by rewrite Ee| |apply Hk]. intros _. by rewrite Es, Et. }
  fold (episodic en) in Hm. destruct (String.eqb (en_cls en) CONTROL && negb (controls_episodes x)) eqn:Ec.
  - apply mretS_ok in Hm as [-> _]. exists log. eapply scope_ok_ext; [|exact Hok1]. intros key. rewrite key_history_snoc.
    rewrite decide_False; [done|]. unfold episodic. rewrite Ec. by intros (_ & _ & ?).
  - eapply commit_kinds_ok in Hm as (log' & Hok2); [|done|exact Hok1|].
    2:{ intros k _. by apply key_history_timed. }
    exists log'. eapply scope_ok_ext; [|exact Hok2]. intros key. rewrite key_history_snoc. unfold episodic. rewrite Ec.
    destruct (decide (_ ∧ _)), (decide (_ ∧ _ ∧ _)); naive_solver.
Qed.

Lemma fresh_scope_ok (e0 : Engine) : fresh e0 → scope_ok e0 (key_history []) [] e0.
Proof.
  intros (_ & _ & He & Hf & Hn). split.
  - split; [done|]. intros g. exists []. by rewrite app_nil_r.
  - intros key. assert (key_history [] key = []) as -> by (unfold key_history; by destruct (decide _)).
    unfold key_ok, ordinary_key, fill_key, state_of, table. rewrite He, Hf, Hn, !lookup_empty.
    destruct (fill_policy_of x key.2); [|done]. exists []. split_and!; [done|done|by exists []|].
    intros T _. split; [|done|done]. split; [done|done|done|apply positive_empty].
Qed.

(** What changes between commits is no part of the invariant. *)
Lemma statics_env v (e : Engine) : statics (set_env v e) = statics e.
Proof. unfold statics, set_env. cbn. by destruct (game e). Qed.
Lemma scope_ok_env e0 hist log v (e : Engine) : scope_ok e0 hist log e → scope_ok e0 hist log (set_env v e).
Proof.
  intros [[Hs Hr] Hk]. split.
  - split; [by rewrite statics_env|exact Hr].
  - intros key. eapply key_ok_frame; [| |apply Hk]; done.
Qed.

Local Abbreviation run_commits := (EpisodesProps.run_commits dumps sha256 json_loads x fill_value).
Lemma run_scope_ok cs T (e0 e : Engine) u :
  fresh e0 → (∀ id, timed (history cs id) T) → run_commits cs e0 = (e, Ok u) → ∃ log, scope_ok e0 (key_history cs) log e.
Proof.
  intros Hf Ht. apply (run_invariant dumps sha256 json_loads x fill_value (λ cs e, ∃ log, scope_ok e0 (key_history cs) log e) cs T); [done| | |].
  - exists []. by apply fresh_scope_ok.
  - intros cs' ev e1 [log Hok]. exists log. by apply scope_ok_env.
  - intros cs' ev en c e1 e2 v [log Hok] _ [Htc _]%timed_snoc _ Hm. by eapply commit_scope_ok.
Qed.

(** ** The end of a scope *)

(** A fill lifetime that a commit or the end of the scope ended. *)
Definition fill_ended (kind : string) (h : list Commit) (T : Z) (why : string) (cens : bool) (cl : Closed) : Prop :=
  ∃ pre post, h = pre ++ cl_run cl ++ post ∧ cl_run cl ≠ [] ∧ Forall (λ c, positive kind c = true) (cl_run cl) ∧
    match post with
    | d :: _ => cl_end cl = c_time d ∧ cl_censored cl = false ∧
                cl_why cl = (if positive kind d then KILL_PRICE else end_reason (c_obs d))
    | [] => cl_end cl = T ∧ cl_why cl = why ∧ cl_censored cl = cens
    end.

(** The episodes of a key when its scope has ended. *)
Definition ended_runs (key : string * string) (h : list Commit) (T : Z) (why : string) (cens : bool) : list Closed :=
  map (closed_of key) (runs_of key.2 h).1 ++
  match (runs_of key.2 h).2 with [] => [] | run => [mkClosed key run T why cens] end.

Definition closed_ok (key : string * string) (h : list Commit) (T : Z) (why : string) (cens : bool) (lk : list Closed) (e : Engine) : Prop :=
  match fill_policy_of x key.2 with
  | None => lk = ended_runs key h T why cens
  | Some _ => Forall (fill_ended key.2 h T why cens) lk ∧
      spends (spent (positive key.2) h T) (sumZ (map lifetime lk)) (table e key.1) (state_of e key.1) T
  end.

Lemma stretch_ended kind h T why cens lk : Forall (fill_stretch kind h) lk → Forall (fill_ended kind h T why cens) lk.
Proof.
  intros Hl. eapply Forall_impl; [exact Hl|]. intros cl (pre & d & post & Hh & Hne & Hp & He & Hc & Hw). by exists pre, (d :: post).
Qed.

Lemma key_closed key h T why cens lk (e : Engine) :
  key_ok key h lk e → timed h T → episodes e !! key = None → closed_ok key h T why cens lk e.
Proof.
  unfold key_ok, closed_ok, ordinary_key, fill_key, ended_runs. intros Hk Ht He. rewrite He in Hk. destruct (fill_policy_of x key.2).
  - destruct Hk as (run & Hr & Hl & _ & Hat). split; [by apply stretch_ended|]. destruct (Hat T Ht) as [Hs _ _].
    simpl in Hr. subst run. simpl in Hs. by rewrite Z.add_0_r in Hs.
  - destruct Hk as [-> Hr]. simpl in Hr. by rewrite Hr, app_nil_r.
Qed.

Lemma close_key_ok e0 log key h T why cens lk (e e' : Engine) u :
  logged e0 log e → key_ok key h lk e → timed h T → close_episode (key, T, why, cens) e = (e', Ok u) →
  ∃ cl, cl_key cl = key ∧ logged e0 (log ++ [cl]) e' ∧ closed_ok key h T why cens (lk ++ [cl]) e' ∧
    (∀ k, k ≠ key → episodes e' !! k = episodes e !! k) ∧ fills_of e' = fills_of e.
Proof.
  intros Hl Hk Ht Hm. assert (∃ run, open_run key (episodes e !! key) run ∧ timed run T ∧
    match fill_policy_of x key.2 with
    | None => lk = map (closed_of key) (runs_of key.2 h).1 ∧ run = (runs_of key.2 h).2
    | Some _ => Forall (fill_stretch key.2 h) lk ∧ open_in key.2 h run ∧ fill_at key.2 h lk run (table e key.1) (state_of e key.1) T
    end) as (run & Hrun & Htr & Hk').
  { unfold key_ok in Hk. destruct (fill_policy_of x key.2).
    - destruct Hk as (run & Hr & Hlk & Hin & Hat). exists run. split_and!; [done|by eapply open_in_timed|done|done|by apply Hat].
    - destruct Hk as [-> Hr]. exists (runs_of key.2 h).2. split_and!; [done|by apply runs_timed|done|done]. }
  eapply close_logged in Hm as (Hl' & Hne & Ee & Ef & En); [|done|done|done].
  exists (mkClosed key run T why cens). split_and!; [done|exact Hl'| |by intros k Hk''; rewrite Ee, lookup_delete_ne|unfold fills_of; congruence].
  unfold closed_ok, ended_runs. destruct (fill_policy_of x key.2).
  - destruct Hk' as (Hlk & (pre & -> & Hp) & [Hs _ _]). split.
    + apply Forall_app. split; [by apply stretch_ended|]. repeat constructor. exists pre, []. rewrite app_nil_r. by split_and!.
    + unfold table, state_of. rewrite Ef, En, map_app, sumZ_app. destruct run as [|c0 run]; [done|].
      cbn [map sumZ foldr]. rewrite Z.add_0_r. exact Hs.
  - destruct Hk' as [-> ->]. destruct (runs_of key.2 h).2; [done|]. done.
Qed.

Lemma close_all_ok e0 hist T why cens keys log (e e' : Engine) u :
  NoDup keys → logged e0 log e → (∀ key, timed (hist key) T) →
  (∀ key, if decide (key ∈ keys) then key_ok key (hist key) (log_of key log) e else closed_ok key (hist key) T why cens (log_of key log) e) →
  forS close_episode (map (λ key, (key, T, why, cens)) keys) e = (e', Ok u) →
  ∃ log', logged e0 log' e' ∧ fills_of e' = fills_of e ∧ ∀ key, closed_ok key (hist key) T why cens (log_of key log') e'.
Proof.
  revert log e. induction keys as [|key keys IH]; intros log e Hnd Hl Ht Hks Hm.
  - apply mretS_ok in Hm as [-> _]. exists log. split_and!; [done|done|]. intros key. specialize (Hks key).
    rewrite decide_False in Hks; [done|by intros ?%not_elem_of_nil].
  - apply NoDup_cons in Hnd as [Hk Hnd]. cbn [map] in Hm. apply forS_cons in Hm as (e1 & v & Hc & Hm).
    pose proof (Hks key) as Hkey. rewrite decide_True in Hkey by left.
    eapply close_key_ok in Hc as (cl & Ecl & Hl1 & Hcl & Hother & Ef1); [|exact Hl|exact Hkey|apply Ht].
    eapply (IH (log ++ [cl])) in Hm as (log' & Hl' & Ef' & Hall); [exists log'; split_and!; [done|congruence|done]|done|done|done|].
    intros k. specialize (Hks k). rewrite log_of_app. destruct (decide (k = key)) as [->|Hne].
    + rewrite decide_False by done. by rewrite (log_of_own _ [cl]) by by constructor.
    + rewrite (log_of_other k key [cl]) by (try done; by constructor). rewrite app_nil_r. destruct (fills_same _ _ Ef1) as [Es Et].
      destruct (decide (k ∈ keys)) as [Hin|Hin].
      * rewrite decide_True in Hks by by right. eapply key_ok_frame; [by apply Hother| |exact Hks]. intros _. by rewrite Es, Et.
      * rewrite decide_False in Hks by (intros [?|?]%elem_of_cons; done). unfold closed_ok in *. by rewrite Es, Et.
Qed.

Lemma close_scope_episodes e0 hist T why cens log (e e' : Engine) u :
  scope_ok e0 hist log e → (∀ key, timed (hist key) T) →
  close_episodes (map (λ key, (key, T, why, cens)) (sorted_keys (episodes e))) e = (e', Ok u) →
  ∃ log', logged e0 log' e' ∧ ∀ key, closed_ok key (hist key) T why cens (log_of key log') e'.
Proof.
  intros [Hl Hk] Ht (l & Hp & Hm)%close_episodes_perm.
  apply Permutation_map_inv in Hp as (keys & -> & Hp).
  assert (keys ≡ₚ map fst (map_to_list (episodes e))) as Hkeys.
  { rewrite <- Hp. unfold sorted_keys, sorted. apply sort_by_perm. }
  eapply close_all_ok in Hm as (log' & Hl' & _ & Hall); [by exists log'| |done|done|].
  - rewrite Hkeys. apply NoDup_fst_map_to_list.
  - intros key. destruct (decide (key ∈ keys)) as [Hin|Hin]; [apply Hk|]. apply key_closed; [apply Hk|apply Ht|].
    destruct (episodes e !! key) as [ep|] eqn:Ee; [|done]. exfalso. apply Hin. rewrite Hkeys.
    apply elem_of_map_to_list in Ee. by apply (list_elem_of_fmap_2 fst) in Ee.
Qed.

(** Fill states end with the scope. *)
Lemma fills_end T l (e e' : Engine) u id S L :
  forS (λ id, move_fill_state id T None) l e = (e', Ok u) → id ∈ l ∨ state_of e id = None →
  spends S L (table e id) (state_of e id) T → spends S L (table e' id) None T.
Proof.
  revert e. induction l as [|i l IH]; intros e Hm Hin Hs.
  - apply mretS_ok in Hm as [-> _]. destruct Hin as [?%not_elem_of_nil|E]; [done|]. by rewrite E in Hs.
  - apply forS_cons in Hm as (e1 & v & Hmv & Hm). apply move_fill_ok in Hmv as [Emv Hother]. destruct (decide (id = i)) as [->|Hne].
    + destruct (spends_moved _ _ _ _ _ _ _ _ Hs Emv) as [Hs' Est]. eapply IH; [exact Hm| |exact Hs'].
      right. by destruct (state_of e1 i).
    + destruct (Hother id Hne) as [Es Et]. eapply IH; [exact Hm| |by rewrite Es, Et].
      rewrite Es. destruct Hin as [[?|?]%elem_of_cons|?]; [done|by left|by right].
Qed.
End Engine.
