(* ===== verification/Scopes.v ===== *)
(** * What a scope writes ([src/replay/economic_sdk/runtime.py])

    The commits of a scope and its end, against the rows they leave: the denominators of
    every entity, the episodes of every kind, and the fills with the time their trigger
    held.  A scope begins and ends with an empty engine, so the statements compose. *)
From stdpp Require Import gmap strings sorting.
From S2P Require Import Prelude Order Wire Json EconomicFills FillChecks ObjectKeys LineWriter EconomicTypes Intervals Episodes EpisodeFacts EpisodesProps EpisodesRuns.

Section Scope.
Context (dumps : json → list Byte.byte) (sha256 : list Byte.byte → string)
        (json_loads : string → result json).
Context {W : Type} `{RowWriter W} {O : Type} `{CompareLaws O}.
Context (x : Experiment) (fill_value : Entity O → Z → valuation).

Local Abbreviation Engine := (@Episodes.Engine W O).
Local Abbreviation emit_measurements := (Episodes.emit_measurements dumps json_loads x).
Local Abbreviation close_episode := (Episodes.close_episode dumps sha256 json_loads x).
Local Abbreviation close_episodes := (Episodes.close_episodes dumps sha256 json_loads x).
Local Abbreviation close_scope := (Episodes.close_scope dumps sha256 json_loads x).
Local Abbreviation run_commits := (EpisodesProps.run_commits dumps sha256 json_loads x fill_value).
Local Abbreviation logged := (EpisodesRuns.logged dumps sha256 x).

(** The end of a scope leaves an engine as a scope begins. *)
Lemma close_all_gone T why cens keys (e e' : Engine) u :
  forS close_episode (map (λ key, (key, T, why, cens)) keys) e = (e', Ok u) →
  (∀ key, key ∉ keys → episodes e !! key = None) → episodes e' = ∅.
Proof.
  revert e. induction keys as [|key keys IH]; intros e Hm Hk.
  - apply mretS_ok in Hm as [-> _]. apply map_eq. intros k. rewrite lookup_empty. apply Hk. by intros ?%not_elem_of_nil.
  - cbn [map] in Hm. apply forS_cons in Hm as (e1 & v & (ep & _ & Ee & _)%close_episode_ok & Hm). apply (IH _ Hm). intros k Hn.
    rewrite Ee. destruct (decide (k = key)) as [->|Hne]; [apply lookup_delete_eq|]. rewrite lookup_delete_ne by done.
    apply Hk. by intros [?|?]%elem_of_cons.
Qed.

Lemma in_sorted_keys {K A} `{Countable K, CompareLaws K} (m : gmap K A) k : k ∈ sorted_keys m ↔ is_Some (m !! k).
Proof.
  unfold sorted_keys, sorted. rewrite sort_by_perm, list_elem_of_fmap. split.
  - intros ([k' a] & -> & Hin%elem_of_map_to_list). by eexists.
  - intros [a Ha]. exists (k, a). split; [done|]. by apply elem_of_map_to_list.
Qed.

Lemma moves_off T l (e e' : Engine) u :
  forS (λ id, move_fill_state id T None) l e = (e', Ok u) → (∀ id, id ∉ l → state_of e id = None) → ∀ id, state_of e' id = None.
Proof.
  revert e. induction l as [|i l IH]; intros e Hm Hn id.
  - apply mretS_ok in Hm as [-> _]. apply Hn. by intros ?%not_elem_of_nil.
  - apply forS_cons in Hm as (e1 & v & [Emv Hother]%move_fill_ok & Hm). apply (IH _ Hm). intros k Hk.
    destruct (decide (k = i)) as [->|Hne].
    + unfold moved in Emv. destruct (state_of e i) as [[a s]|]; [|by injection Emv]. by injection Emv.
    + destruct (Hother k Hne) as [-> _]. apply Hn. by intros [?|?]%elem_of_cons.
Qed.

Lemma write_denominators_clears (e e' : Engine) u : write_denominators e = (e', Ok u) → denominators e' = ∅ ∧ fill_ns e' = ∅.
Proof.
  unfold write_denominators. intros Hm. apply stbind_ok in Hm as (? & ? & _ & Hm). apply stbind_ok in Hm as (e1 & rs & _ & Hm).
  apply stbind_ok in Hm as (e2 & [] & _ & Hm). apply stbind_ok in Hm as (e3 & e4 & _ & Hm).
  apply stbind_ok in Hm as (e5 & [] & ->%modifyS_ok & Hm). apply stbind_ok in Hm as (e6 & [] & Hr & ->%modifyS_ok).
  split; [done|]. cbn [set_denominators fill_ns]. by keep (@fill_ns W O).
Qed.

(** A scope whose tiers are distinct and not negative, and whose kinds are distinct. *)
Record declared : Prop := Declared {
  de_tiers : NoDup (tiers x).*1; de_positive : Forall (λ t, 0 ≤ t.2) (tiers x); de_kinds : NoDup (kinds x);
}.
Context (Hx : declared).

(** Each episode row of [g] that a scope adds describes one logged episode. *)
Definition episode_rows_of (e0 e2 : Engine) (log : list Closed) (g : string) : Prop :=
  ∃ rs, rows_in (episodes_file g) e2 = rows_in (episodes_file g) e0 ++ rs ∧
    Forall2 (episode_written dumps sha256 x e0) (filter (λ c, group_of e0 c = Some g ∧ 0 < lifetime c) log) rs.

Lemma scope_written cs T why cens ev e0 e1 e2 u v :
  fresh e0 → (∀ id, timed (history cs id) T) →
  run_commits cs e0 = (e1, Ok u) → close_scope T why cens (set_env ev e1) = (e2, Ok v) →
  ∃ (ew : Engine) log, fresh e2 ∧
    (∀ id, (history cs id = [] ∧ denominators ew !! id = None) ∨
           (history cs id ≠ [] ∧ exactly (history cs id) (denominators ew !! id) T)) ∧
    (∀ g, rows_in (denominators_file g) e2
          = rows_in (denominators_file g) e0 ++ denominator_rows e0 (denominators ew) (fill_ns ew) g) ∧
    (∀ g, episode_rows_of e0 e2 log g) ∧
    ∀ key, match fill_policy_of x key.2 with
      | None => log_of key log = ended_runs key (key_history x cs key) T why cens
      | Some _ => Forall (fill_ended key.2 (key_history x cs key) T why cens) (log_of key log) ∧
          spends (spent (positive key.2) (key_history x cs key) T) (sumZ (map lifetime (log_of key log)))
            (table ew key.1) None T
      end.
Proof.
  intros Hf Ht Hrun Hc. destruct Hx as [Htiers Hpos Hkinds].
  pose proof (scope_rows _ _ _ _ _ _ _ _ _ _ _ _ _ _ _ Hf Ht Hrun Hc) as (ea & eb & ec & ew & Hem & Eb & Hce & Hmv & Hwd & Hden & Hdrows).
  destruct (run_scope_ok dumps sha256 json_loads x fill_value Htiers Hpos Hkinds _ _ _ _ _ Hf Ht Hrun) as [log0 Hok1].
  apply (scope_ok_env _ _ _ _ _ _ ev) in Hok1 as [Hl Hk]. set (e1' := set_env ev e1) in *.
  assert (scope_ok dumps sha256 x e0 (key_history x cs) log0 eb) as Hok.
  { split.
    - rewrite Eb. refine (logged_frame _ _ _ _ _ _ _ _ Hl). intros g. unfold episode_part. cbn.
      change (statics (set_open_measurements [] (set_budget (budget eb) ea))) with (statics ea).
      change (rows_in (episodes_file g) (set_open_measurements [] (set_budget (budget eb) ea))) with (rows_in (episodes_file g) ea).
      f_equal; [by keep (@statics W O)|by keep (rows_in (W:=W) (O:=O) (episodes_file g))].
    - intros key. assert (episodes eb = episodes e1') as Ee by (rewrite Eb; cbn; by keep (@episodes W O)).
      assert (fills_of eb = fills_of e1') as [Es Et]%fills_same by (rewrite Eb; change (fills_of ea = fills_of e1'); by keep (@fills_of W O)).
      eapply key_ok_frame; [by rewrite Ee| |apply Hk]. intros _. by rewrite Es, Et. }
  eapply (close_scope_episodes dumps sha256 json_loads x) in Hce as Hall; [|done|done|exact Hok|by intros; apply key_history_timed].
  destruct Hall as (log & Hl' & Hall). exists ew, log. split_and!; [|done|done| |].
  - destruct (write_denominators_clears _ _ _ Hwd) as [Ed En]. split_and!; [|done| | |done].
    + keep (@open_measurements W O). by rewrite Eb.
    + assert (episodes e2 = episodes ec) as -> by by keep (@episodes W O).
      apply close_episodes_perm in Hce as (l & Hp & Hce). symmetry in Hp. symmetry in Hp. apply Permutation_map_inv in Hp as (keys & -> & Hp).
      eapply close_all_gone; [exact Hce|]. intros key Hn. rewrite <- Hp, in_sorted_keys in Hn. by apply eq_None_not_Some.
    + assert (∀ id, state_of e2 id = None) as Hno.
      { intros id. assert (fill_state e2 = fill_state ew) as E2 by by keep (@fill_state W O). unfold state_of. rewrite E2.
        change (state_of ew id = None). eapply moves_off; [exact Hmv|]. intros i Hi. rewrite in_sorted_keys in Hi.
        unfold state_of. apply eq_None_not_Some in Hi. by rewrite Hi. }
      apply map_eq. intros id. rewrite lookup_empty. specialize (Hno id). unfold state_of in Hno. by destruct (fill_state e2 !! id).
  - intros g. destruct Hl' as [_ Hr]. destruct (Hr g) as (rs & E & Hfa). exists rs. split; [|done]. rewrite <- E.
    by keep (rows_in (W:=W) (O:=O) (episodes_file g)).
  - intros key. specialize (Hall key). unfold closed_ok in Hall. destruct (fill_policy_of x key.2); [|done].
    destruct Hall as [Hfa Hs]. split; [done|]. eapply fills_end; [exact Hmv| |exact Hs].
    rewrite in_sorted_keys. unfold state_of. destruct (fill_state ec !! key.1); [left; by eexists|by right].
Qed.

(** ** Properties *)

(** C6. The denominators of a scope are exact.  Whatever was committed between, each
    denominators file gains exactly one row per entity that was observed for a positive
    time, in the order of groups and entities; its status times and class times are the
    times spent in each by the committed observations, all positive, and the status times
    add up to the time from the entity's first commit to the end of the scope.  The engine
    is left as a scope begins. *)
Theorem denominators_exact cs T why cens ev e0 e1 e2 u v :
  fresh e0 → (∀ id, timed (history cs id) T) →
  run_commits cs e0 = (e1, Ok u) → close_scope T why cens (set_env ev e1) = (e2, Ok v) →
  fresh e2 ∧ ∃ D F,
    (∀ id, (history cs id = [] ∧ D !! id = None) ∨ (history cs id ≠ [] ∧ exactly (history cs id) (D !! id) T)) ∧
    ∀ g, rows_in (denominators_file g) e2 = rows_in (denominators_file g) e0 ++ denominator_rows e0 D F g.
Proof.
  intros Hf Ht Hrun Hc. destruct (scope_written _ _ _ _ _ _ _ _ _ _ Hf Ht Hrun Hc) as (ew & log & Hfr & Hd & Hr & _).
  split; [done|]. by exists (denominators ew), (fill_ns ew).
Qed.

(** C3. Episodes are the maximal stretches in which their predicate held.  For every
    entity and every kind that is not priced, the scope closes exactly one episode per
    stretch of consecutive commits whose predicates contain the kind, ended by the commit
    that ended it (for its stated reason) or by the scope; those that lasted have one row
    each in their group's file, whose qualified, viable, class and skew facts are those
    of the stretch's slices of equal consumed quotes. *)
Theorem episodes_are_runs cs T why cens ev e0 e1 e2 u v :
  fresh e0 → (∀ id, timed (history cs id) T) →
  run_commits cs e0 = (e1, Ok u) → close_scope T why cens (set_env ev e1) = (e2, Ok v) →
  ∃ log, (∀ g, episode_rows_of e0 e2 log g) ∧
    ∀ id kind, fill_policy_of x kind = None →
      log_of (id, kind) log = ended_runs (id, kind) (key_history x cs (id, kind)) T why cens.
Proof.
  intros Hf Ht Hrun Hc. destruct (scope_written _ _ _ _ _ _ _ _ _ _ Hf Ht Hrun Hc) as (ew & log & _ & _ & _ & Hr & Hk).
  exists log. split; [done|]. intros id kind Hn. specialize (Hk (id, kind)). cbn [snd] in Hk. by rewrite Hn in Hk.
Qed.

(** C1. Fill time partitions the time a fill's trigger held.  The entries of the fill table
    of each entity are positive and add up to the time its trigger was true; the live
    entry is the total lifetime of its fill episodes, each of which lasted over consecutive
    commits with a true trigger and ended by its kill price, by the end of the trigger or
    with the scope. *)
Theorem fill_time_partition cs T why cens ev e0 e1 e2 u v :
  fresh e0 → (∀ id, timed (history cs id) T) →
  run_commits cs e0 = (e1, Ok u) → close_scope T why cens (set_env ev e1) = (e2, Ok v) →
  ∃ D F log, (∀ g, rows_in (denominators_file g) e2 = rows_in (denominators_file g) e0 ++ denominator_rows e0 D F g) ∧
    (∀ g, episode_rows_of e0 e2 log g) ∧
    ∀ id kind, is_Some (fill_policy_of x kind) →
      let h := key_history x cs (id, kind) in let fill := default ∅ (F !! id) in
      entries_positive fill ∧ table_sum fill = spent (positive kind) h T ∧
      total fill FILL_LIVE = sumZ (map lifetime (log_of (id, kind) log)) ∧
      Forall (fill_ended kind h T why cens) (log_of (id, kind) log).
Proof.
  intros Hf Ht Hrun Hc. destruct (scope_written _ _ _ _ _ _ _ _ _ _ Hf Ht Hrun Hc) as (ew & log & _ & _ & Hd & Hr & Hk).
  exists (denominators ew), (fill_ns ew), log. split; [done|]. split; [done|]. intros id kind [p Hp] h fill.
  specialize (Hk (id, kind)). cbn [snd] in Hk. rewrite Hp in Hk. destruct Hk as [Hfa [Hs Hl _ Hpos]]. simpl in Hs, Hl.
  rewrite !Z.add_0_r in *. by split_and!.
Qed.
End Scope.

(** ** Demonstration: two legs, an ordinary kind and a priced one *)
Definition demo_experiment : Experiment :=
  mkExperiment [("0", 0); ("5", 5)] [] ["gap"; "k"] ∅ ["wide"] [] [] [] ["net"] false true (Some demo_policy).
Definition demo_entity : Entity Z := mkEntity _ "a" [("v", "1"); ("v", "2")] 0 REAL "" JNull None [] None.
Definition demo_env (now : list (list level)) (epoch : Z) : Env :=
  mkEnv (list_to_map (zip (en_legs demo_entity) (demo_views now))) (list_to_map (map (λ l, (l, epoch)) (en_legs demo_entity))) JNull 0.
Definition demo_engine : @Engine (list json) Z :=
  mkEngine 0 {["a" := demo_entity]} {["a" := 0]} {["a" := (demo_spec, [100; 100])]} ∅ ∅ None 0
    (list_to_map [("episodes.ndjson", []); ("denominators.ndjson", [])]) [] ∅ 0 ∅ [] ∅ 0 ∅ ∅.
Definition demo_observation (status : string) (ps : list string) (price : Z) : Observation :=
  mkObservation status [] (Some "wide"%string) [] (list_to_set ps) (JObj [("net", JInt price)]) (Some [[(price, 1)]; [(20, 8)]]) [] false.
Definition demo_step (now : list (list level)) (t : Z) (status : string) (ps : list string) (price : Z) : Step :=
  mkStep (demo_env now t) demo_entity (mkCommit t (demo_observation status ps price) (0, 0)).
Definition demo_steps : list Step :=
  [demo_step demo_ladders 0 EVALUATED ["gap"; "k"] 30; demo_step demo_ladders 10 EVALUATED ["gap"; "k"] 31;
   demo_step [[(90, 5)]; [(90, 8)]] 20 EVALUATED ["k"] 90; demo_step demo_ladders 30 "UNUSABLE" [] 30;
   demo_step demo_ladders 35 EVALUATED ["gap"] 30].
Local Abbreviation demo_ids := String.string_of_list_byte.
Local Abbreviation demo_loads := (λ _ : string, @Err json KeyError).
Local Abbreviation demo_fill_value := (λ (_ : Entity Z) (_ : Z), demo_value).
Definition demo_run : @Engine (list json) Z :=
  (run_commits demo_dumps demo_ids demo_loads demo_experiment demo_fill_value demo_steps demo_engine).1.
Definition demo_end : @Engine (list json) Z :=
  (close_scope demo_dumps demo_ids demo_loads demo_experiment 50 "SCOPE_END" true (set_env (demo_env demo_ladders 50) demo_run)).1.

Lemma demo_run_ok : run_commits demo_dumps demo_ids demo_loads demo_experiment demo_fill_value demo_steps demo_engine = (demo_run, Ok ()).
Proof. unfold demo_run. apply ran. vm_compute. reflexivity. Qed.
Lemma demo_end_ok :
  close_scope demo_dumps demo_ids demo_loads demo_experiment 50 "SCOPE_END" true (set_env (demo_env demo_ladders 50) demo_run) = (demo_end, Ok ()).
Proof. unfold demo_end. apply ran. vm_compute. reflexivity. Qed.
Lemma demo_fresh : fresh demo_engine.
Proof. by split_and!. Qed.
Lemma demo_timed id : timed (history demo_steps id) 50.
Proof.
  unfold history, demo_steps. destruct (decide ("a"%string = id)) as [<-|Hne]; [vm_compute; repeat split; done|].
  rewrite !filter_cons, filter_nil, !decide_False; done.
Qed.
Lemma demo_declared : declared demo_experiment.
Proof. split; [apply (bool_decide_unpack _); by vm_compute|by repeat constructor|apply (bool_decide_unpack _); by vm_compute]. Qed.

(** The rows of the demonstration: two episodes of the ordinary kind and a killed fill. *)
Lemma denominators_exact_witness : fresh demo_end ∧ ∃ D F,
  (∀ id, (history demo_steps id = [] ∧ D !! id = None) ∨ (history demo_steps id ≠ [] ∧ exactly (history demo_steps id) (D !! id) 50)) ∧
  ∀ g, rows_in (denominators_file g) demo_end = rows_in (denominators_file g) demo_engine ++ denominator_rows demo_engine D F g.
Proof.
  exact (denominators_exact demo_dumps demo_ids demo_loads demo_experiment demo_fill_value demo_declared
    demo_steps 50 "SCOPE_END" true (demo_env demo_ladders 50) demo_engine demo_run demo_end () ()
    demo_fresh demo_timed demo_run_ok demo_end_ok).
Defined.

Lemma episodes_are_runs_witness : ∃ log,
  (∀ g, episode_rows_of demo_dumps demo_ids demo_experiment demo_engine demo_end log g) ∧
  ∀ id kind, fill_policy_of demo_experiment kind = None →
    log_of (id, kind) log = ended_runs (id, kind) (key_history demo_experiment demo_steps (id, kind)) 50 "SCOPE_END" true.
Proof.
  exact (episodes_are_runs demo_dumps demo_ids demo_loads demo_experiment demo_fill_value demo_declared
    demo_steps 50 "SCOPE_END" true (demo_env demo_ladders 50) demo_engine demo_run demo_end () ()
    demo_fresh demo_timed demo_run_ok demo_end_ok).
Defined.

Lemma fill_time_partition_witness : ∃ D F log,
  (∀ g, rows_in (denominators_file g) demo_end = rows_in (denominators_file g) demo_engine ++ denominator_rows demo_engine D F g) ∧
  (∀ g, episode_rows_of demo_dumps demo_ids demo_experiment demo_engine demo_end log g) ∧
  ∀ id kind, is_Some (fill_policy_of demo_experiment kind) →
    let h := key_history demo_experiment demo_steps (id, kind) in let fill := default ∅ (F !! id) in
    entries_positive fill ∧ table_sum fill = spent (positive kind) h 50 ∧
    total fill FILL_LIVE = sumZ (map lifetime (log_of (id, kind) log)) ∧
    Forall (fill_ended kind h 50 "SCOPE_END" true) (log_of (id, kind) log).
Proof.
  exact (fill_time_partition demo_dumps demo_ids demo_loads demo_experiment demo_fill_value demo_declared
    demo_steps 50 "SCOPE_END" true (demo_env demo_ladders 50) demo_engine demo_run demo_end () ()
    demo_fresh demo_timed demo_run_ok demo_end_ok).
Defined.

(** ** A fee schedule that changes between two pricings

    [dated_value] makes every basket worthless before its schedule starts at 10. *)
Definition dated_value : Entity Z → Z → valuation := λ _ t, if t <? 10 then λ _ _, Some (-1) else demo_value.
Definition dated_steps : list Step :=
  [mkStep (demo_env demo_ladders 1) demo_entity (mkCommit 0 (demo_observation EVALUATED ["k"] 30) (0, 0));
   mkStep (demo_env demo_ladders 1) demo_entity (mkCommit 10 (demo_observation EVALUATED ["k"] 30) (0, 0))].
Definition dated_end : @Engine (list json) Z * result () :=
  run_commits demo_dumps demo_ids demo_loads demo_experiment dated_value dated_steps demo_engine.

(** Identical ladders do not give the identical result when the value is dated: at 10 the
    basket would be priced live, but the fill is not priced again while its ladders keep
    their epochs, and its time goes on as the no-fill reason of 0. *)
Theorem stale_no_fill :
  dated_end.2 = Ok () ∧ episodes dated_end.1 !! ("a", "k")%string = None ∧
  state_of dated_end.1 "a" = Some (0, "FILL_NONPOSITIVE"%string) ∧
  ∃ priced, price demo_policy demo_spec demo_ladders [100; 100] (dated_value demo_entity 10) = Ok priced ∧ state priced = FILL_LIVE.
Proof.
  split_and!; [vm_compute; reflexivity..|]. eexists. split; [vm_compute; reflexivity|reflexivity].
Qed.
