(* ===== verification/Views.v ===== *)
(** * Detached book views ([src/replay/economic_sdk/views.py])

    [ViewBuilder.build] reads each side of a book once, walks it for every size, and keeps
    the objects of the prior view where they are equal or provably unchanged, so that later
    code may compare inputs by identity.  Objects carry an address; the state of the
    operations is the next free one. *)
From stdpp Require Import gmap strings.
From S2P Require Import Prelude Wire EconomicFills BookProtocol FillChecks.

(** ** Objects *)
Record obj (A : Type) := Obj { addr : Z; it : A }.
Arguments Obj {A} _ _. Arguments addr {A} _. Arguments it {A} _.

(** [a is b]. *)
Definition is_ {A} (a b : obj A) : bool := addr a =? addr b.
Definition alloc {A} (a : A) : ST Z (obj A) :=
  n ← getS; _ ← putS (n + 1); mret (Obj n a).

(** ** [BookView] *)
Abbreviation fills_of := (list (Z * obj Fill)).  (* a dictionary from sizes, in their order *)
Record BookView := mkBookView {
  bv_validity : string; bv_reason : option (obj json); last_change : Z;
  bid_present : bool; ask_present : bool;
  best_bid : option (obj level); best_ask : option (obj level);
  fills : gmap string fills_of; transformed : gmap string fills_of;
  view_levels : Z;
  ladders : gmap string (obj (list level));
}.
(** [self.crossed]. *)
Definition view_crossed (v : BookView) : bool :=
  match best_bid v, best_ask v with
  | Some b, Some a => (it a).1 <? (it b).1
  | _, _ => false
  end.
Definition present (v : BookView) (side : string) : bool :=
  if String.eqb side "bid" then bid_present v else ask_present v.

Definition unavailable_view (time : Z) : BookView :=
  mkBookView "not_initialized" None time false false None None ∅ ∅ 0 ∅.

(** ** Sides *)
Definition read_side (book : Book) (side : string) (sizes_atoms : list Z) : result (list level * list Fill) :=
  ls ← levels book side None;
  fs ← walk ls sizes_atoms;
  Ok (ls, fs).

(** [_same]. *)
Definition same_fill (old new : Fill) : bool :=
  (cost old =? cost new) && (filled_atoms old =? filled_atoms new) && Bool.eqb (depth_limited old) (depth_limited new)
  && bool_decide (consumed old = consumed new) && bool_decide (taken old = taken new).

Definition complement_ladder (ls : list level) (unit : Z) : list level := map (λ l, (unit - l.1, l.2)) ls.
Definition complement_ask (f : Fill) (unit : Z) : Fill :=
  mkFill (filled_atoms f) (unit * filled_atoms f - cost f) (depth_limited f)
    (complement_ladder (taken f) unit) (complement_ladder (consumed f) unit).

(** [beyond]. *)
Definition is_beyond (fs : fills_of) (side : string) (price : Z) : bool :=
  match last fs with
  | None => false
  | Some (_, largest) =>
      if depth_limited (it largest) then false else
      match last (consumed (it largest)) with
      | None => false
      | Some (final, _) => if String.eqb side "ask" then final <? price else price <? final
      end
  end.

(** ** [ViewBuilder] *)
Definition ladder_side (source : string) : option string :=
  if String.eqb source "ask" then Some "ask"%string
  else if String.eqb source "bid" then Some "bid"%string
  else if String.eqb source "kalshi_complement_ask" then Some "bid"%string
  else if String.eqb source "kalshi_complement_bid" then Some "ask"%string
  else None.

Record ViewBuilder := mkViewBuilder {
  vb_sides : list string; vb_sizes : list Z; vb_sizes_atoms : list Z; vb_transforms : list string;
  vb_unit : Z; vb_ladders : list string; vb_ladder_sides : list string;
}.

(** [ViewBuilder.__init__] on the fields of a [BookRequirement] and the scales of a plan. *)
Definition make_builder (sides : list string) (sizes : list Z) (transforms ladders : list string)
    (price_scale quantity_scale : Z) : result ViewBuilder :=
  ls ← mapR (λ source, match ladder_side source with Some s => Ok s | None => Err KeyError end) ladders;
  _ ← require (bool_decide (NoDup ladders)
               && forallb (λ source, in_list sides source || in_list transforms source) ladders
               && forallb (in_list sides) ls) "retained ladder requirement";
  Ok (mkViewBuilder sides sizes (map (λ size, size * 10 ^ quantity_scale) sizes) transforms
        (10 ^ price_scale) ladders ls).

(** [view.fills[side]] and the like. *)
Definition at_key {A} (m : gmap string A) (k : string) : result A :=
  match m !! k with Some a => Ok a | None => Err KeyError end.
Definition at_size {A} (l : list (Z * A)) (size : Z) : result A :=
  match find (λ kv, kv.1 =? size) l with Some kv => Ok kv.2 | None => Err KeyError end.

(** What the loop over the sides keeps of one side. *)
Record SideParts := mkSideParts {
  sp_fills : fills_of; sp_present : bool; sp_best : option (obj level); sp_ladder : option (obj (list level));
}.

Definition best_of (v : BookView) (side : string) : option (obj level) :=
  if String.eqb side "bid" then best_bid v else best_ask v.

Section Builder.
Context (vb : ViewBuilder).

(** Whether a usable prior side is reused: untouched, or touched only beyond what its
    fills consumed. *)
Definition reuse_side (prior : BookView) (sides : gmap string Z) (side : string) : result bool :=
  match sides !! side with
  | None => Ok true
  | Some price =>
      if in_list (vb_ladder_sides vb) side then Ok false
      else fs ← at_key (fills prior) side; Ok (is_beyond fs side price)
  end.

Definition kept_side (prior : BookView) (side : string) : result SideParts :=
  fs ← at_key (fills prior) side;
  l ← (if in_list (vb_ladder_sides vb) side then l ← at_key (ladders prior) side; Ok (Some l) else Ok None);
  Ok (mkSideParts fs (present prior side) (best_of prior side) l).

(** [old if old == new else new]: the prior object for an equal value. *)
Definition keep_equal {A} `{EqDecision A} (old : option (obj A)) (new : obj A) : obj A :=
  match old with Some o => if decide (it o = it new) then o else new | None => new end.

Fixpoint keep_fills (previous : fills_of) (new : list (obj Fill)) : list (obj Fill) :=
  match previous, new with
  | (_, o) :: previous, n :: new => (if same_fill (it o) (it n) then o else n) :: keep_fills previous new
  | _, _ => []
  end.

Definition fresh_side (book : Book) (prior : option BookView) (side : string) : ST Z SideParts :=
  '(ls, fs) ← liftR (read_side book side (vb_sizes_atoms vb));
  l ← alloc ls;
  fs ← mapS alloc fs;
  best ← match ls with [] => mret None | b :: _ => b ← alloc b; mret (Some b) end;
  let fs := match (p ← prior; fills p !! side) with
            | Some ((_ :: _) as previous) => keep_fills previous fs
            | _ => fs
            end in
  mret (mkSideParts (zip2 (vb_sizes vb) fs) (match ls with [] => false | _ => true end)
    (option_map (keep_equal (p ← prior; best_of p side)) best)
    (if in_list (vb_ladder_sides vb) side then Some (keep_equal (p ← prior; ladders p !! side) l) else None)).

Definition build_side (book : Book) (prior : option BookView) (sides : option (gmap string Z)) (side : string) : ST Z SideParts :=
  reused ← (match prior, sides with
            | Some p, Some ss =>
                if String.eqb (validity book) "usable" && String.eqb (bv_validity p) "usable"
                then r ← liftR (reuse_side p ss side); if r : bool then k ← liftR (kept_side p side); mret (Some k) else mret None
                else mret None
            | _, _ => mret None
            end);
  match reused with
  | Some k => mret k
  | None => fresh_side book prior side
  end.

(** The transformed fills [name] of the fills of [side]. *)
Definition transform (prior : option BookView) (now : gmap string fills_of) (name side : string) : ST Z fills_of :=
  let convert : ST Z fills_of :=
    fs ← liftR (at_key now side);
    mapS (λ sf : Z * obj Fill, f ← alloc (complement_ask (it sf.2) (vb_unit vb)); mret (sf.1, f)) fs in
  match (p ← prior; f ← transformed p !! name; g ← fills p !! side; Some (f, g)) with
  | Some ((_ :: _) as previous, before) =>
      same ← liftR (mapR (λ size, fs ← at_key now side; n ← at_size fs size; o ← at_size before size; Ok (is_ n o)) (vb_sizes vb));
      if forallb id same then mret previous else convert
  | _ => convert
  end.

Definition count_levels (fs : fills_of) : Z :=
  sumZ (map (λ sf : Z * obj Fill, Z.of_nat (length (taken (it sf.2))) + Z.of_nat (length (consumed (it sf.2)))) fs).

(** A retained transform ladder, reused while its source is the identical object. *)
Definition transform_ladder (prior : option BookView) (retained : gmap string (obj (list level))) (name side : string)
    : ST Z (gmap string (obj (list level))) :=
  if negb (in_list (vb_ladders vb) name) then mret retained else
  let convert := (l ← liftR (at_key retained side); n ← alloc (complement_ladder (it l) (vb_unit vb)); mret (<[name := n]> retained)) in
  match (p ← prior; l ← ladders p !! name; Some (p, l)) with
  | Some (p, previous) =>
      o ← liftR (at_key (ladders p) side);
      n ← liftR (at_key retained side);
      if is_ o n then mret (<[name := previous]> retained) else convert
  | None => convert
  end.

(** [plain(book.reason)]: a copy, or [None] itself. *)
Definition copy_reason (r : json) : ST Z (option (obj json)) :=
  match r with JNull => mret None | r => r ← alloc r; mret (Some r) end.

(** [build].  The sides of a requirement are distinct. *)
Definition build (book : Book) (time : Z) (prior : option BookView) (sides : option (gmap string Z)) : ST Z BookView :=
  parts ← mapS (λ side, p ← build_side book prior sides side; mret (side, p)) (vb_sides vb);
  let fs := list_to_map (map (λ sp : string * SideParts, (sp.1, sp_fills sp.2)) parts) : gmap string fills_of in
  let find side := (list_to_map parts : gmap string SideParts) !! side in
  let ask := in_list (vb_transforms vb) "kalshi_complement_ask" in
  let bid := in_list (vb_transforms vb) "kalshi_complement_bid" in
  let n := sumZ (map (λ sp : string * SideParts, count_levels (sp_fills sp.2)) parts) in
  ta ← (if ask then t ← transform prior fs "kalshi_complement_ask" "bid"; mret [("kalshi_complement_ask"%string, t)] else mret []);
  tb ← (if bid then t ← transform prior fs "kalshi_complement_bid" "ask"; mret [("kalshi_complement_bid"%string, t)] else mret []);
  let n := if ask then n * 2 else n in
  asks ← liftR (if bid then at_key fs "ask" else Ok []);
  let n := n + count_levels asks in
  let retained := list_to_map (omap (λ sp : string * SideParts, l ← sp_ladder sp.2; Some (sp.1, l)) parts) in
  retained ← transform_ladder prior retained "kalshi_complement_ask" "bid";
  retained ← transform_ladder prior retained "kalshi_complement_bid" "ask";
  why ← copy_reason (reason book);
  mret (mkBookView (validity book) why time
    (match find "bid"%string with Some p => sp_present p | None => false end)
    (match find "ask"%string with Some p => sp_present p | None => false end)
    (p ← find "bid"%string; sp_best p) (p ← find "ask"%string; sp_best p)
    fs (list_to_map (ta ++ tb)) (n + sumZ (map (λ kl : string * obj (list level), Z.of_nat (length (it kl.2))) (map_to_list retained)))
    retained).
End Builder.

(** ** Views without addresses: what a strategy reads *)
Record view_value := mkValue {
  vv_validity : string; vv_reason : json; vv_time : Z;
  vv_bid : bool; vv_ask : bool; vv_best_bid : option level; vv_best_ask : option level;
  vv_fills : gmap string (list (Z * Fill)); vv_transformed : gmap string (list (Z * Fill));
  vv_levels : Z; vv_ladders : gmap string (list level);
}.
Definition values (fs : fills_of) : list (Z * Fill) := map (λ sf, (sf.1, it sf.2)) fs.
Definition erase (v : BookView) : view_value :=
  mkValue (bv_validity v) (match bv_reason v with Some r => it r | None => JNull end) (last_change v) (bid_present v) (ask_present v) (it <$> best_bid v) (it <$> best_ask v)
    (values <$> fills v) (values <$> transformed v) (view_levels v) (it <$> ladders v).

(** ** [touched_sides] *)

(** What a cut did to one book: [None] to rebuild every side, or the extreme touched price
    of each side its operations name. *)
Abbreviation touched := (gmap (string * string) (option (gmap string Z))).

(** [price > prior if side == "bid" else price < prior]. *)
Definition touch (side : string) (price : Z) (sides : gmap string Z) : gmap string Z :=
  match sides !! side with
  | None => <[side := price]> sides
  | Some prior => if (if String.eqb side "bid" then prior <? price else price <? prior) then <[side := price]> sides else sides
  end.

Definition touch_operation (sides : gmap string Z) (op : json) : result (gmap string Z) :=
  s ← jget op "side"; p ← jget op "price"; a ← jget p "atoms"; price ← py_int a;
  match s with
  | JStr side => Ok (touch side price sides)
  | _ => Err (TypeError "side")
  end.

(** A key is a pair of strings once the decoder accepted the cut. *)
Definition touch_transition (result : touched) (t : json) : Prelude.result touched :=
  k ← jget t "key"; i ← jget k "instrument"; o ← jget k "orientation";
  match i, o with
  | JStr i, JStr o =>
      d ← jget t "decision"; kind ← jget d "kind";
      if negb (jeq_str kind "operations") || (match result !! (i, o) with Some None => true | _ => false end)
      then Ok (<[(i, o) := None]> result)
      else
        ops ← jget d "operations"; rows ← py_iter ops;
        sides ← foldR touch_operation (default ∅ (mjoin (result !! (i, o)))) rows;
        Ok (<[(i, o) := Some sides]> result)
  | _, _ => Err (TypeError "key")
  end.

Definition touched_sides (body : json) : result touched :=
  ts ← jget body "book_transitions"; rows ← py_iter ts; foldR touch_transition ∅ rows.
