(* ===== verification/ViewsProps.v ===== *)
(** * Incremental views are full views ([src/replay/economic_sdk/views.py])

    A view built from the view before it, with the sides a cut touched, has the same values
    as a view built from scratch: reused sides are unchanged, and so are fills whose
    consumed levels are all better than the best touched price. *)
From stdpp Require Import gmap strings sorting.
From S2P Require Import Prelude Wire EconomicFills BookProtocol FillChecks Views.

(** ** Ladders that agree up to a price *)
Section Sorted.
Context (s : side).

Lemma ahead_irrefl_ne p q : ahead s p q = true → p ≠ q → ahead s q p = false.
Proof. intros Hp Hne. apply not_true_iff_false. intros Hq. apply Hne. by eapply ahead_antisym. Qed.

(** A sorted list splits at [c]. *)
Lemma sorted_split c l : StronglySorted (λ p q, ahead s p q = true) l →
  l = filter (λ q, ahead s q c = true) l ++ filter (λ q, ahead s q c ≠ true) l.
Proof.
  induction 1 as [|p l Hs IH Hp]; [done|]. rewrite !filter_cons. destruct (decide (ahead s p c = true)) as [Hc|Hc].
  - rewrite decide_False by by intros []. simpl. by f_equal.
  - rewrite decide_True by done. assert (filter (λ q, ahead s q c = true) l = []) as E.
    { destruct (filter (λ q, ahead s q c = true) l) as [|q k] eqn:E; [done|]. exfalso.
      assert (q ∈ filter (λ q, ahead s q c = true) l) as Hq by (rewrite E; left).
      apply list_elem_of_filter in Hq as [Hqc Hq]. rewrite Forall_forall in Hp. apply Hc. eapply ahead_trans; [by apply Hp|done]. }
    rewrite E in *. simpl in *. by f_equal.
Qed.

Lemma filter_sorted {A} (R : A → A → Prop) (P : A → Prop) `{!∀ a, Decision (P a)} l : StronglySorted R l → StronglySorted R (filter P l).
Proof.
  induction 1 as [|a l Hs IH Ha]; [constructor|]. rewrite filter_cons. destruct (decide (P a)); [|done]. constructor; [done|].
  apply Forall_forall. intros b [_ Hb]%list_elem_of_filter. rewrite Forall_forall in Ha. auto.
Qed.

(** Ladders that differ only at prices worse than [c] start with the same levels. *)
Definition above (c : Z) (m : ladder) : list level :=
  map (λ p, (p, default 0 (m !! p))) (filter (λ q, ahead s q c = true) (sorted_prices s (dom m))).
Definition below_level (c : Z) (m : ladder) : list level :=
  map (λ p, (p, default 0 (m !! p))) (filter (λ q, ahead s q c ≠ true) (sorted_prices s (dom m))).

Lemma ladder_split c m : ladder_levels s m = above c m ++ below_level c m.
Proof. unfold ladder_levels, above, below_level. rewrite <- map_app. f_equal. apply sorted_split, sorted_prices_sorted. Qed.

Lemma above_same c (m m' : ladder) : (∀ q, ahead s q c = true → m !! q = m' !! q) → above c m = above c m'.
Proof.
  intros Hm. unfold above.
  assert (filter (λ q, ahead s q c = true) (sorted_prices s (dom m)) = filter (λ q, ahead s q c = true) (sorted_prices s (dom m'))) as ->.
  { assert (AntiSymm eq (λ p q, ahead s p q = true)) by (intros p q; apply ahead_antisym).
    apply (StronglySorted_unique (λ p q, ahead s p q = true)); [apply filter_sorted, sorted_prices_sorted..|].
    apply NoDup_Permutation; [apply NoDup_filter, sorted_prices_nodup..|]. intros q.
    rewrite !list_elem_of_filter, !sorted_prices_elem, !elem_of_dom. split; intros [Hq Hd]; split; try done; [by rewrite <- Hm|by rewrite Hm]. }
  apply map_ext_in. intros q Hq%list_elem_of_In%list_elem_of_filter. f_equal. f_equal. by apply Hm, Hq.
Qed.
End Sorted.

(** ** Fills of a common prefix *)
Lemma fill_consumed_hidden vis hidden n :
  Forall level_ok vis → n ≤ depth vis → fill_consumed (vis ++ hidden) n = fill_consumed vis n.
Proof.
  intros Hv. revert n. induction Hv as [|[p q] vis [? ?] Hv IH]; intros n Hn; simpl.
  - by rewrite fill_consumed_nil.
  - destruct (Z.leb_spec n 0); [done|]. f_equal. apply IH. unfold depth in *; simpl in *; lia.
Qed.

Lemma ref_fill_prefix pre suf suf' t :
  Forall level_ok (pre ++ suf) → Forall level_ok (pre ++ suf') → t ≤ depth pre → ref_fill (pre ++ suf) t = ref_fill (pre ++ suf') t.
Proof.
  intros [Hp Hs]%Forall_app [_ Hs']%Forall_app Ht. apply depth_nonneg in Hs, Hs'. unfold ref_fill. rewrite !depth_app.
  rewrite !Z.min_r by lia. by rewrite !fill_taken_hidden, !fill_consumed_hidden by done.
Qed.

(** The levels a fill consumed are a prefix that covers it. *)
Lemma consumed_prefix ls n : Forall level_ok ls → n ≤ depth ls →
  ∃ suf, ls = fill_consumed ls n ++ suf ∧ n ≤ depth (fill_consumed ls n).
Proof.
  intros Hls. revert n. induction Hls as [|[p q] ls [? ?] Hls IH]; intros n Hn; simpl.
  - exists []. split; [done|]. exact Hn.
  - destruct (Z.leb_spec n 0); [exists ((p, q) :: ls); split; [done|unfold depth; simpl; lia]|].
    destruct (IH (n - q)) as (suf & E & Hd); [unfold depth in *; simpl in *; lia|]. exists suf. simpl. split; [by f_equal|].
    unfold depth in *. simpl. lia.
Qed.

Lemma increasing_le_last sizes n t : increasing sizes = true → last sizes = Some n → t ∈ sizes → t ≤ n.
Proof.
  revert t. induction sizes as [|a l IH]; intros t Hi Hl Ht; [done|]. destruct l as [|b l].
  - simpl in Hl. injection Hl as ->. by apply list_elem_of_singleton in Ht as ->.
  - rewrite last_cons_cons in Hl. simpl in Hi. apply andb_true_iff in Hi as [Hab%Z.ltb_lt Hi].
    apply elem_of_cons in Ht as [->|Ht]; [|by apply IH]. assert (b ≤ n) by (apply (IH b); [done|done|left]). lia.
Qed.

(** [beyond] is right: changes strictly worse than what the largest fill consumed change
    no fill, nor the best level. *)
Lemma beyond_same s (m m' : ladder) lim lim' sizes f price n :
  ladder_ok lim m → ladder_ok lim' m' → increasing sizes = true → last sizes = Some n →
  f = ref_fill (ladder_levels s m) n → depth_limited f = false →
  (∃ c q, last (consumed f) = Some (c, q) ∧ ahead s price c = false) →
  (∀ q, m !! q ≠ m' !! q → ahead s price q = true) →
  map (ref_fill (ladder_levels s m)) sizes = map (ref_fill (ladder_levels s m')) sizes ∧
  ∃ best pre pre', ladder_levels s m = best :: pre ∧ ladder_levels s m' = best :: pre'.
Proof.
  intros Hok Hok' Hi Hl -> Hd (c & q & Hc & Hpc) Hm.
  assert (∀ l (m : ladder), ladder_ok l m → Forall level_ok (ladder_levels s m)) as Hlv.
  { intros l m0 Hm0. apply Forall_forall. intros lv (p & -> & Hp)%list_elem_of_fmap. apply sorted_prices_elem, elem_of_dom in Hp as [v Hv].
    rewrite Hv. destruct (Hm0 _ _ Hv). split; simpl; lia. }
  assert (∀ q, ahead s q c = true → m !! q = m' !! q) as Hsame.
  { intros q' Hq'. destruct (decide (m !! q' = m' !! q')) as [|Hne]; [done|]. apply Hm in Hne. exfalso.
    assert (ahead s price c = true) by (by eapply ahead_trans). congruence. }
  pose proof (ladder_split s c m) as E. pose proof (ladder_split s c m') as E'. rewrite <- (above_same s c m m' Hsame) in E'.
  pose proof (Hlv _ _ Hok) as H1. pose proof (Hlv _ _ Hok') as H2.
  unfold ref_fill in Hd. cbn [depth_limited] in Hd. apply Z.ltb_ge in Hd.
  assert (n ≤ depth (ladder_levels s m)) as Hn by lia.
  unfold ref_fill in Hc. cbn [consumed] in Hc. rewrite Z.min_r in Hc by done.
  destruct (consumed_prefix _ _ H1 Hn) as (suf & Esuf & Hcov). set (k := fill_consumed (ladder_levels s m) n) in *.
  assert (depth k ≤ depth (above s c m)) as Hk.
  { assert (∃ rest, above s c m = k ++ rest) as [rest Er].
    { assert (Forall (λ l, ahead s l.1 c = true) k) as Hkc.
      { apply last_Some in Hc as [k0 Ek]. rewrite Ek. pose proof (sorted_prices_sorted s (dom m)) as Hss.
        assert (map fst (ladder_levels s m) = sorted_prices s (dom m)) as Em by (unfold ladder_levels; rewrite map_map; simpl; apply map_id).
        rewrite <- Em, Esuf, Ek in Hss. rewrite <- app_assoc, map_app in Hss. simpl in Hss.
        apply Forall_app. split; [|constructor; [|done]].
        - apply Forall_forall. intros lv Hlv'. apply StronglySorted_app in Hss as (Hx & _ & _). apply Hx; [|left].
          by apply list_elem_of_fmap_2.
        - simpl. destruct (ahead_total s c c); done. }
      rewrite E in Esuf. clearbody k. clear -Esuf Hkc. assert (Forall (λ l, ahead s l.1 c ≠ true) (below_level s c m)) as Hbl.
      { apply Forall_forall. intros lv (p & -> & [Hp _]%list_elem_of_filter)%list_elem_of_fmap. done. }
      revert Esuf Hkc Hbl. generalize (above s c m) as a, (below_level s c m) as b. intros a b. revert a.
      induction k as [|x k IH]; intros a Ea Hkc Hbl; [by exists a|]. apply Forall_cons in Hkc as [Hx Hkc].
      destruct a as [|y a]; simpl in Ea.
      - subst b. apply Forall_cons in Hbl as [Hbl _]. done.
      - injection Ea as -> Ea. destruct (IH a Ea Hkc Hbl) as [rest ->]. by exists rest. }
    rewrite Er, depth_app. assert (Forall level_ok rest) as Hr by (rewrite E, Er in H1; apply Forall_app in H1 as [H1 _]; by apply Forall_app in H1 as [_ ?]).
    apply depth_nonneg in Hr. lia. }
  split.
  - rewrite E, E' in *. apply map_ext_in. intros t Ht%list_elem_of_In. apply ref_fill_prefix; [done|done|].
    pose proof (increasing_le_last _ _ _ Hi Hl Ht). lia.
  - destruct (above s c m) as [|best pre]; [|by exists best, (pre ++ below_level s c m), (pre ++ below_level s c m')].
    exfalso. apply last_Some in Hc as [k0 Ek].
    assert ((c, q) ∈ ladder_levels s m) as Hin.
    { rewrite Esuf, Ek. apply elem_of_app. left. apply elem_of_app. right. by left. }
    rewrite E in Hin. apply list_elem_of_fmap in Hin as (p & [= <- _] & [Hp _]%list_elem_of_filter). apply Hp. by destruct (ahead_total s c c).
Qed.

(** ** Addresses of a view *)

(** [next] is a free address. *)
Record below (next : Z) (v : BookView) : Prop := Below {
  bl_fills : ∀ side fs sf, fills v !! side = Some fs → sf ∈ fs → addr sf.2 < next;
  bl_ladders : ∀ side l, ladders v !! side = Some l → addr l < next;
  bl_best : ∀ side b, best_of v side = Some b → addr b < next;
  bl_transformed : ∀ name fs sf, transformed v !! name = Some fs → sf ∈ fs → addr sf.2 < next;
  bl_reason : ∀ r, bv_reason v = Some r → addr r < next;
}.

Lemma zip2_fst_snd {A B} (l : list (A * B)) ks : map fst l = ks → l = zip2 ks (map snd l).
Proof. intros <-. induction l as [|[a b] l IH]; simpl; [done|]. by f_equal. Qed.
Lemma zip2_lookup {A B} (l : list A) (k : list B) i a b : l !! i = Some a → k !! i = Some b → zip2 l k !! i = Some (a, b).
Proof. revert k i. induction l as [|x l IH]; intros [|y k] [|i]; simpl; try done; [by intros [= ->] [= ->]|]. apply IH. Qed.
Lemma zip2_map {A B C} (f : B → C) (l : list A) k : map (λ ab, (ab.1, f ab.2)) (zip2 l k) = zip2 l (map f k).
Proof. revert k. induction l as [|x l IH]; intros [|y k]; simpl; [done..|]. by f_equal. Qed.
Lemma zip2_fst {A B} (l : list A) (k : list B) : length l = length k → map fst (zip2 l k) = l.
Proof. revert k. induction l as [|x l IH]; intros [|y k]; simpl; [done..|]. intros [= E]. f_equal. by apply IH. Qed.
Lemma zip2_snd {A B} (l : list A) (k : list B) : length l = length k → map snd (zip2 l k) = k.
Proof. revert k. induction l as [|x l IH]; intros [|y k]; simpl; [done..|]. intros [= E]. f_equal. by apply IH. Qed.

Lemma at_size_zip {A} sizes (l : list A) i size a :
  NoDup sizes → sizes !! i = Some size → l !! i = Some a → at_size (zip2 sizes l) size = Ok a.
Proof.
  intros Hnd. revert l i. induction Hnd as [|x sizes Hx Hnd IH]; intros [|y l] [|i]; simpl; try done.
  - intros [= ->] [= ->]. unfold at_size. simpl. by rewrite Z.eqb_refl.
  - intros Hi Hl. unfold at_size. simpl. destruct (Z.eqb_spec x size) as [->|].
    + exfalso. apply Hx. by apply list_elem_of_lookup_2 in Hi.
    + by apply (IH l i).
Qed.

Lemma mapS_alloc {A} (l : list A) n : ∃ os, mapS alloc l n = (n + Z.of_nat (length l), Ok os) ∧ map it os = l ∧
  ∀ o, o ∈ os → n ≤ addr o < n + Z.of_nat (length l).
Proof.
  revert n. induction l as [|a l IH]; intros n; simpl.
  - exists []. rewrite Z.add_0_r. split_and!; [done|done|]. by intros o ?%not_elem_of_nil.
  - destruct (IH (n + 1)) as (os & E & Em & Ha). exists (Obj n a :: os). split_and!.
    + apply stbind_ok. exists (n + 1), (Obj n a). split; [done|]. apply stbind_ok. eexists _, _. split; [exact E|].
      unfold mret, ST_ret. f_equal. lia.
    + simpl. by f_equal.
    + intros o [->|Ho]%elem_of_cons; [simpl; lia|]. apply Ha in Ho. lia.
Qed.

Section Builder.
Context (vb : ViewBuilder).

(** What [make_builder] and the declared requirement give. *)
Record builder_ok : Prop := BuilderOk {
  bo_sides : NoDup (vb_sides vb); bo_names : ∀ side, side ∈ vb_sides vb → side = "bid"%string ∨ side = "ask"%string;
  bo_length : length (vb_sizes vb) = length (vb_sizes_atoms vb); bo_sizes : NoDup (vb_sizes vb);
  bo_atoms : sizes_ok (vb_sizes_atoms vb) = true;
  bo_ladder_sides : ∀ side, side ∈ vb_ladder_sides vb → side ∈ vb_sides vb;
  bo_ask : "kalshi_complement_ask"%string ∈ vb_transforms vb → "bid"%string ∈ vb_sides vb;
  bo_bid : "kalshi_complement_bid"%string ∈ vb_transforms vb → "ask"%string ∈ vb_sides vb;
  bo_ladder_ask : "kalshi_complement_ask"%string ∈ vb_ladders vb → "bid"%string ∈ vb_ladder_sides vb;
  bo_ladder_bid : "kalshi_complement_bid"%string ∈ vb_ladders vb → "ask"%string ∈ vb_ladder_sides vb;
}.
Context (Hvb : builder_ok).

(** The fills of a side that shows [ls]. *)
Definition ref_side (ls : list level) : list (Z * Fill) := zip2 (vb_sizes vb) (map (ref_fill ls) (vb_sizes_atoms vb)).

Lemma values_zip fs ls : values fs = ref_side ls → fs = zip2 (vb_sizes vb) (map snd fs) ∧ map it (map snd fs) = map (ref_fill ls) (vb_sizes_atoms vb).
Proof.
  intros E. unfold values, ref_side in E. pose proof (bo_length Hvb) as Hlen. split.
  - apply zip2_fst_snd. apply (f_equal (map fst)) in E. rewrite map_map in E. simpl in E. rewrite zip2_fst in E by by rewrite length_map. exact E.
  - apply (f_equal (map snd)) in E. rewrite map_map in E. simpl in E. rewrite zip2_snd in E by by rewrite length_map. by rewrite map_map.
Qed.

(** One side of a view that shows the ladder [ls], with addresses below [n']; what it
    shares with a prior side comes from the same size, the rest is newer than [n]. *)
Record part_ok (ls : list level) (side : string) (n' : Z) (p : SideParts) : Prop := PartOk {
  po_fills : values (sp_fills p) = ref_side ls;
  po_present : sp_present p = match ls with [] => false | _ => true end;
  po_best : it <$> sp_best p = head ls;
  po_ladder : it <$> sp_ladder p = if in_list (vb_ladder_sides vb) side then Some ls else None;
  po_below : (∀ sf, sf ∈ sp_fills p → addr sf.2 < n') ∧ (∀ l, sp_ladder p = Some l → addr l < n') ∧ (∀ b, sp_best p = Some b → addr b < n');
}.
Definition shares (n : Z) (prior : option BookView) (side : string) (p : SideParts) : Prop :=
  ∀ v, prior = Some v →
    (∀ fs i size o k, fills v !! side = Some fs → vb_sizes vb !! i = Some size →
       map snd fs !! i = Some o → map snd (sp_fills p) !! i = Some k → k = o ∨ n ≤ addr k) ∧
    (∀ o k, ladders v !! side = Some o → sp_ladder p = Some k → k = o ∨ n ≤ addr k) ∧
    (∀ k, sp_best p = Some k → best_of v side = Some k ∨ n ≤ addr k).

(** A prior view of the ladders [L]. *)
Record prior_of (L : string → list level) (n : Z) (v : BookView) : Prop := PriorOf {
  pr_below : below n v;
  pr_fills : ∀ side, side ∈ vb_sides vb → ∃ fs, fills v !! side = Some fs ∧ values fs = ref_side (L side);
  pr_present : ∀ side, side ∈ vb_sides vb → present v side = match L side with [] => false | _ => true end;
  pr_best : ∀ side, side ∈ vb_sides vb → it <$> best_of v side = head (L side);
  pr_ladders : ∀ side, side ∈ vb_ladder_sides vb → it <$> ladders v !! side = Some (L side);
  pr_transformed : ∀ name side, (name, side) ∈ [("kalshi_complement_ask", "bid"); ("kalshi_complement_bid", "ask")]%string →
    ∀ fs, transformed v !! name = Some fs → side ∈ vb_sides vb ∧
      values fs = map (λ sf, (sf.1, complement_ask sf.2 (vb_unit vb))) (ref_side (L side));
  pr_transform_ladders : ∀ name side, (name, side) ∈ [("kalshi_complement_ask", "bid"); ("kalshi_complement_bid", "ask")]%string →
    ∀ l, ladders v !! name = Some l → side ∈ vb_ladder_sides vb ∧ it l = complement_ladder (L side) (vb_unit vb);
}.

Lemma same_fill_eq a b : same_fill a b = true → a = b.
Proof.
  destruct a, b. unfold same_fill. simpl. rewrite !andb_true_iff, !Z.eqb_eq, eqb_true_iff, !bool_decide_eq_true.
  intros ((((-> & ->) & ->) & ->) & ->). done.
Qed.
Lemma same_fill_refl a : same_fill a a = true.
Proof. unfold same_fill. by rewrite !Z.eqb_refl, eqb_reflx, !bool_decide_eq_true_2. Qed.

Lemma keep_fills_ok previous new n n' :
  length previous = length new → (∀ sf, sf ∈ previous → addr sf.2 < n') → (∀ o, o ∈ new → n ≤ addr o < n') →
  map it (keep_fills previous new) = map it new ∧ length (keep_fills previous new) = length new ∧
  (∀ o, o ∈ keep_fills previous new → addr o < n') ∧
  (∀ i o k, map snd previous !! i = Some o → keep_fills previous new !! i = Some k → k = o ∨ n ≤ addr k).
Proof.
  revert new. induction previous as [|[s o] previous IH]; intros [|x new]; simpl; try done.
  - intros _ _ _. split_and!; [done..|intros ? ?%not_elem_of_nil; done|done].
  - intros [= Hl] Hp Hn. destruct (IH new Hl) as (E1 & E2 & E3 & E4).
    { intros sf Hsf. apply Hp. by right. } { intros y Hy. apply Hn. by right. }
    assert (addr o < n') as Ho by (apply (Hp (s, o)); left). assert (n ≤ addr x < n') as Hx by (apply Hn; left).
    split_and!.
    + f_equal; [|done]. destruct (same_fill (it o) (it x)) eqn:E; [by apply same_fill_eq|done].
    + congruence.
    + intros y [->|Hy]%elem_of_cons; [destruct (same_fill _ _); lia|by apply E3].
    + intros [|i] o' k; simpl; [|apply E4]. intros [= <-] [= <-]. destruct (same_fill _ _); [by left|right; lia].
Qed.

Lemma fresh_side_ok book prior L side ls n :
  side ∈ vb_sides vb → levels book side None = Ok ls → Forall level_ok ls → (∀ v, prior = Some v → prior_of L n v) →
  ∃ n' p, fresh_side vb book prior side n = (n', Ok p) ∧ n ≤ n' ∧ part_ok ls side n' p ∧ shares n prior side p.
Proof.
  intros Hside Hls Hok Hprior.
  assert (read_side book side (vb_sizes_atoms vb) = Ok (ls, map (ref_fill ls) (vb_sizes_atoms vb))) as Hread.
  { unfold read_side. rewrite Hls. cbn [mbind result_bind]. rewrite <- (app_nil_r ls) at 1.
    rewrite walk_prefix_fills; [done|apply Hvb|done|by left]. }
  destruct (mapS_alloc (map (ref_fill ls) (vb_sizes_atoms vb)) (n + 1)) as (os & Eos & Emap & Haddr). rewrite length_map in Eos, Haddr.
  set (n1 := n + 1 + Z.of_nat (length (vb_sizes_atoms vb))) in *.
  set (best := match ls with [] => None | b :: _ => Some (Obj n1 b) end : option (obj level)).
  set (n2 := match ls with [] => n1 | _ => n1 + 1 end).
  set (fs := match (p ← prior; fills p !! side) with Some ((_ :: _) as previous) => keep_fills previous os | _ => os end).
  set (p := mkSideParts (zip2 (vb_sizes vb) fs) (match ls with [] => false | _ => true end)
    (option_map (keep_equal (p ← prior; best_of p side)) best)
    (if in_list (vb_ladder_sides vb) side then Some (keep_equal (p ← prior; ladders p !! side) (Obj n ls)) else None)).
  assert (length os = length (vb_sizes_atoms vb)) as Hlos by by rewrite <- (length_map it), Emap, length_map.
  pose proof (bo_length Hvb) as Hlen.
  assert (map it fs = map it os ∧ length fs = length os ∧ (∀ o, o ∈ fs → addr o < n2) ∧
    (∀ v old i o k, prior = Some v → fills v !! side = Some old → map snd old !! i = Some o → fs !! i = Some k → k = o ∨ n ≤ addr k))
    as (Efs & Lfs & Bfs & Sfs).
  { assert (∀ o, o ∈ os → n ≤ addr o < n2) as Hos by (intros o Ho; apply Haddr in Ho; unfold n2; destruct ls; lia).
    assert (map it os = map it os ∧ length os = length os ∧ (∀ o, o ∈ os → addr o < n2) ∧
      (∀ v old i o k, prior = Some v → fills v !! side = Some old → map snd old !! i = Some o → os !! i = Some k → k = o ∨ n ≤ addr k)) as Hdef.
    { split_and!; [done|done|intros o Ho; by apply Hos|]. intros v old i o k _ _ _ Hk%list_elem_of_lookup_2. right. by apply Hos. }
    unfold fs. destruct prior as [v|]; [|exact Hdef]. cbn [mbind option_bind].
    destruct (fills v !! side) as [[|sf old]|] eqn:Eold; [exact Hdef| |exact Hdef].
    pose proof (bl_fills _ _ (pr_below _ _ _ (Hprior v eq_refl))) as Hbf. pose proof (pr_fills _ _ _ (Hprior v eq_refl)) as Hpf. destruct (Hpf side Hside) as (fs0 & E0 & Hv0). rewrite Eold in E0. injection E0 as <-.
    destruct (keep_fills_ok (sf :: old) os n n2) as (K1 & K2 & K3 & K4).
    - apply (f_equal length) in Hv0. unfold values, ref_side in Hv0. rewrite length_map, length_zip_with, length_map in Hv0. rewrite Hv0. lia.
    - intros sf' Hsf. pose proof (Hbf _ _ _ Eold Hsf). unfold n2, n1. destruct ls; lia.
    - exact Hos.
    - split_and!; [done..|]. intros v' old' i o k [= <-] Ev. rewrite Eold in Ev. injection Ev as <-. apply K4. }
  exists n2, p. split_and!.
  - unfold fresh_side. apply stbind_ok. exists n, (ls, map (ref_fill ls) (vb_sizes_atoms vb)). split; [unfold liftR; by rewrite Hread|].
    apply stbind_ok. exists (n + 1), (Obj n ls). split; [done|]. apply stbind_ok. exists n1, os. split; [exact Eos|].
    apply stbind_ok. exists n2, best. split; [|done]. unfold best, n2. by destruct ls.
  - unfold n2, n1. destruct ls; lia.
  - split; cbn [p sp_fills sp_present sp_best sp_ladder].
    + unfold values. rewrite zip2_map, Efs, Emap. done.
    + done.
    + unfold best. destruct ls as [|b ls]; [done|]. simpl. f_equal. unfold keep_equal.
      destruct (p ← prior; best_of p side) as [o|]; [|done]. by destruct (decide _).
    + destruct (in_list _ side); [|done]. simpl. f_equal. unfold keep_equal. destruct (p ← prior; ladders p !! side) as [o|]; [|done]. by destruct (decide _).
    + split_and!.
      * intros sf Hsf. apply Bfs. apply (list_elem_of_fmap_2 snd) in Hsf. rewrite zip2_snd in Hsf by by rewrite Lfs, Hlos. exact Hsf.
      * intros l. destruct (in_list _ side); [|done]. intros [= <-]. unfold keep_equal.
        assert (n < n2) as Hn by (unfold n2, n1; destruct ls; lia). destruct prior as [v|]; cbn [mbind option_bind]; [|done].
        destruct (ladders v !! side) as [o|] eqn:Eo; [|done]. destruct (decide _); [|done].
        pose proof (bl_ladders _ _ (pr_below _ _ _ (Hprior v eq_refl)) _ _ Eo). lia.
      * intros b. unfold best. destruct ls as [|b0 ls]; [done|]. simpl. intros [= <-]. unfold keep_equal. unfold n2.
        destruct prior as [v|]; cbn [mbind option_bind]; [|simpl; lia]. destruct (best_of v side) as [o|] eqn:Eo; [|simpl; lia].
        destruct (decide _); [|simpl; lia]. pose proof (bl_best _ _ (pr_below _ _ _ (Hprior v eq_refl)) _ _ Eo). unfold n1. lia.
  - intros v ->. split_and!.
    + intros old i size o k Hold _ Ho Hk. cbn [p sp_fills] in Hk. rewrite zip2_snd in Hk by by rewrite Lfs, Hlos. by eapply Sfs.
    + intros o k Ho. cbn [p sp_ladder mbind option_bind]. rewrite Ho. destruct (in_list _ side); [|done]. intros [= <-]. unfold keep_equal.
      destruct (decide _); [by left|right; simpl; lia].
    + intros k. cbn [p sp_best mbind option_bind]. unfold best. destruct ls as [|b0 ls]; [done|]. simpl. intros [= <-].
      destruct (best_of v side) as [o|]; simpl; [|right; simpl; unfold n1; lia]. destruct (decide _); [by left|right; simpl; unfold n1; lia].
Qed.

(** The sides that [sides] does not rule out show the same fills in [L] and [L']. *)
Definition unaffected (L L' : string → list level) (sides : gmap string Z) (side : string) : Prop :=
  match sides !! side with
  | None => L side = L' side
  | Some price => ∃ s (m m' : ladder) lim lim', side = side_name s ∧ L side = ladder_levels s m ∧ L' side = ladder_levels s m' ∧
      ladder_ok lim m ∧ ladder_ok lim' m' ∧ ∀ q, m !! q ≠ m' !! q → ahead s price q = true
  end.

Lemma last_zip {A B} (l : list A) (k : list B) a b : length l = length k → last (zip2 l k) = Some (a, b) → last l = Some a ∧ last k = Some b.
Proof.
  revert k. induction l as [|x l IH]; intros [|y k]; try done. intros [= E]. destruct l as [|x' l], k as [|y' k]; try done.
  - simpl. by intros [= -> ->].
  - change (zip2 (x :: x' :: l) (y :: y' :: k)) with ((x, y) :: (x', y') :: zip2 l k). rewrite !last_cons_cons.
    change ((x', y') :: zip2 l k) with (zip2 (x' :: l) (y' :: k)). by apply IH.
Qed.

Lemma reuse_ok L L' n v ss side :
  side ∈ vb_sides vb → prior_of L n v → unaffected L L' ss side →
  ∃ r, reuse_side vb v ss side = Ok r ∧
    (r = true → ref_side (L side) = ref_side (L' side) ∧ head (L side) = head (L' side) ∧
       (match L side with [] => false | _ => true end) = (match L' side with [] => false | _ => true end) ∧
       (side ∈ vb_ladder_sides vb → L side = L' side)).
Proof.
  intros Hside [_ Hpf _ _ _ _ _] Hun. unfold reuse_side, unaffected in *. destruct (ss !! side) as [price|]; [|exists true; rewrite Hun; by split_and!].
  destruct (in_list (vb_ladder_sides vb) side) eqn:Ein; [by exists false|].
  destruct (Hpf side Hside) as (fs & Efs & Hfs). unfold at_key. rewrite Efs. eexists. split; [reflexivity|]. intros Hbe.
  destruct Hun as (s & m & m' & lim & lim' & -> & El & El' & Hok & Hok' & Hm).
  destruct (values_zip _ _ Hfs) as [Ez Ev]. unfold is_beyond in Hbe.
  destruct (last fs) as [[sz largest]|] eqn:Elast; [|done]. rewrite Ez in Elast.
  assert (length (vb_sizes vb) = length (map snd fs)) as Hlen.
  { rewrite <- (length_map it (map snd fs)), Ev, length_map. apply Hvb. }
  apply last_zip in Elast as [_ Elast]; [|done]. apply (f_equal (fmap it)) in Elast. rewrite <- fmap_last in Elast. simpl in Elast.
  assert (last (map (ref_fill (L (side_name s))) (vb_sizes_atoms vb)) = Some (it largest)) as El2 by by rewrite <- Ev, <- Elast.
  change (map (ref_fill (L (side_name s))) (vb_sizes_atoms vb)) with (ref_fill (L (side_name s)) <$> vb_sizes_atoms vb) in El2.
  rewrite fmap_last in El2. destruct (last (vb_sizes_atoms vb)) as [top|] eqn:Etop; [|done]. injection El2 as El2.
  destruct (depth_limited (it largest)) eqn:Ed; [done|]. destruct (last (consumed (it largest))) as [[c q]|] eqn:Ec; [|done].
  destruct (beyond_same s m m' lim lim' (vb_sizes_atoms vb) (it largest) price top) as (Hsame & best & pre & pre' & E1 & E2); try done.
  - pose proof (bo_atoms Hvb) as Ha. unfold sizes_ok in Ha. destruct (vb_sizes_atoms vb); [done|]. by apply andb_true_iff in Ha as [_ ?].
  - by rewrite <- El.
  - exists c, q. split; [done|]. destruct s; simpl in Hbe; unfold ahead; apply Z.ltb_lt in Hbe; apply Z.leb_gt; lia.
  - rewrite El, El'. split_and!.
    + unfold ref_side. by rewrite Hsame.
    + by rewrite E1, E2.
    + by rewrite E1, E2.
    + intros Hin. apply in_list_elem in Hin. congruence.
Qed.

Lemma kept_ok L L' n v side :
  side ∈ vb_sides vb → prior_of L n v →
  ref_side (L side) = ref_side (L' side) → head (L side) = head (L' side) →
  (match L side with [] => false | _ => true end) = (match L' side with [] => false | _ => true end) →
  (side ∈ vb_ladder_sides vb → L side = L' side) →
  ∃ p, kept_side vb v side = Ok p ∧ part_ok (L' side) side n p ∧ shares n (Some v) side p.
Proof.
  intros Hside [[Hbf Hbl Hbb _ _] Hpf Hpp Hpb Hpl _ _] E1 E2 E3 E4. unfold kept_side. destruct (Hpf side Hside) as (fs & Efs & Hfs).
  unfold at_key. rewrite Efs. cbn [mbind result_bind].
  assert (∃ l, (if in_list (vb_ladder_sides vb) side then l ← match ladders v !! side with Some a => Ok a | None => Err KeyError end; Ok (Some l) else Ok None)
    = Ok l ∧ it <$> l = (if in_list (vb_ladder_sides vb) side then Some (L' side) else None) ∧ (∀ o, l = Some o → ladders v !! side = Some o)) as (l & El & Hl & Hl').
  { destruct (in_list (vb_ladder_sides vb) side) eqn:Ein; [|by exists None].
    apply in_list_elem in Ein. specialize (Hpl side Ein). destruct (ladders v !! side) as [o|]; [|done]. exists (Some o). simpl in Hpl.
    split_and!; [done| |by intros ? [= ->]]. simpl. rewrite <- E4 by done. done. }
  rewrite El. eexists. split; [reflexivity|]. split.
  - split; cbn [sp_fills sp_present sp_best sp_ladder].
    + by rewrite Hfs.
    + by rewrite Hpp.
    + by rewrite Hpb.
    + done.
    + split_and!; [intros sf Hsf; by eapply Hbf|intros o ->; eapply Hbl; by apply Hl'|intros b Hb; by eapply Hbb].
  - intros v' [= <-]. cbn [sp_fills sp_ladder sp_best]. split_and!.
    + intros fs' i size o k E _ Ho Hk. rewrite Efs in E. injection E as <-. left. congruence.
    + intros o k Ho ->. left. specialize (Hl' k eq_refl). congruence.
    + intros k Hk. by left.
Qed.

Lemma build_side_ok book prior sides L L' side n :
  side ∈ vb_sides vb → levels book side None = Ok (L' side) → Forall level_ok (L' side) → (∀ v, prior = Some v → prior_of L n v) →
  (∀ v ss, prior = Some v → sides = Some ss → validity book = "usable" → bv_validity v = "usable" → unaffected L L' ss side) →
  ∃ n' p, build_side vb book prior sides side n = (n', Ok p) ∧ n ≤ n' ∧ part_ok (L' side) side n' p ∧ shares n prior side p.
Proof.
  intros Hside Hls Hok Hprior Hun. unfold build_side.
  destruct (fresh_side_ok book prior L side _ n Hside Hls Hok Hprior) as (n1 & p1 & E1 & Hn1 & Hp1 & Hs1).
  assert (∀ m, m n = (n, Ok None) → ∃ n' p, (reused ← m; match reused with Some k => mret k | None => fresh_side vb book prior side end) n = (n', Ok p) ∧
    n ≤ n' ∧ part_ok (L' side) side n' p ∧ shares n prior side p) as Hfresh.
  { intros m Em. exists n1, p1. split; [|done]. apply stbind_ok. by exists n, None. }
  destruct prior as [v|]; [|by apply Hfresh]. destruct sides as [ss|]; [|by apply Hfresh].
  destruct (String.eqb (validity book) "usable" && String.eqb (bv_validity v) "usable") eqn:Eu; [|by apply Hfresh].
  apply andb_true_iff in Eu as [Eb%String.eqb_eq Ev%String.eqb_eq].
  destruct (reuse_ok L L' n v ss side Hside (Hprior v eq_refl) (Hun v ss eq_refl eq_refl Eb Ev)) as (r & Er & Hr). destruct r.
  - destruct (Hr eq_refl) as (R1 & R2 & R3 & R4). destruct (kept_ok L L' n v side Hside (Hprior v eq_refl) R1 R2 R3 R4) as (p & Ek & Hp & Hsh).
    exists n, p. split; [|by split]. apply stbind_ok. exists n, (Some p). split; [|done].
    apply stbind_ok. exists n, true. split; [unfold liftR; by rewrite Er|]. apply stbind_ok. exists n, p. split; [unfold liftR; by rewrite Ek|done].
  - apply Hfresh. apply stbind_ok. exists n, false. split; [unfold liftR; by rewrite Er|done].
Qed.

(** The loop over the sides. *)
Definition parts_ok (L' : string → list level) (n n' : Z) (prior : option BookView) (parts : list (string * SideParts)) : Prop :=
  ∀ side p, (side, p) ∈ parts → part_ok (L' side) side n' p ∧ shares n prior side p.

Lemma part_ok_mono ls side n n' p : n ≤ n' → part_ok ls side n p → part_ok ls side n' p.
Proof.
  intros Hn [H1 H2 H3 H4 (H5 & H6 & H7)]. split; try done.
  split_and!; [intros sf Hsf; apply H5 in Hsf; lia|intros l Hl; apply H6 in Hl; lia|intros b Hb; apply H7 in Hb; lia].
Qed.
Lemma below_mono n n' v : n ≤ n' → below n v → below n' v.
Proof.
  intros Hn [B1 B2 B3 B4 B5]. split.
  - intros side fs sf Hf Hsf. specialize (B1 _ _ _ Hf Hsf). lia.
  - intros side l Hl. specialize (B2 _ _ Hl). lia.
  - intros side b Hb. specialize (B3 _ _ Hb). lia.
  - intros name fs sf Hf Hsf. specialize (B4 _ _ _ Hf Hsf). lia.
  - intros r Hr. specialize (B5 _ Hr). lia.
Qed.
Lemma prior_of_mono L n n' v : n ≤ n' → prior_of L n v → prior_of L n' v.
Proof.
  intros Hn [Hb H2 H3 H4 H5 H6 H7]. split; try done. by eapply below_mono.
Qed.
Lemma shares_mono n n' prior side p : n ≤ n' → shares n' prior side p → shares n prior side p.
Proof.
  intros Hn Hs v Hv. destruct (Hs v Hv) as (S1 & S2 & S3). split_and!.
  - intros fs i size o k E1 E2 E3 E4. destruct (S1 fs i size o k E1 E2 E3 E4); [by left|right; lia].
  - intros o k E1 E2. destruct (S2 o k E1 E2); [by left|right; lia].
  - intros k E. destruct (S3 k E); [by left|right; lia].
Qed.

Lemma build_sides_ok book prior sides L L' ss n :
  (∀ side, side ∈ ss → side ∈ vb_sides vb ∧ levels book side None = Ok (L' side) ∧ Forall level_ok (L' side) ∧
     ∀ v ts, prior = Some v → sides = Some ts → validity book = "usable" → bv_validity v = "usable" → unaffected L L' ts side) →
  (∀ v, prior = Some v → prior_of L n v) →
  ∃ n' parts, mapS (λ side, p ← build_side vb book prior sides side; mret (side, p)) ss n = (n', Ok parts) ∧ n ≤ n' ∧
    map fst parts = ss ∧ parts_ok L' n n' prior parts.
Proof.
  revert n. induction ss as [|side ss IH]; intros n Hss Hprior.
  - exists n, []. split_and!; [done|lia|done|]. by intros side p ?%not_elem_of_nil.
  - destruct (Hss side ltac:(left)) as (Hin & Hls & Hok & Hun).
    destruct (build_side_ok book prior sides L L' side n Hin Hls Hok Hprior Hun) as (n1 & p & Ep & Hn1 & Hp & Hsh).
    destruct (IH n1) as (n2 & parts & Es & Hn2 & Em & Hparts); [intros s Hs; apply Hss; by right|intros v Hv; eapply prior_of_mono; [exact Hn1|by apply Hprior]|].
    exists n2, ((side, p) :: parts). split_and!; [|lia|simpl; by f_equal|].
    + apply stbind_ok. exists n1, (side, p). split; [apply stbind_ok; by exists n1, p|]. apply stbind_ok. by exists n2, parts.
    + intros s q [[= -> ->]|Hq]%elem_of_cons; [split; [by eapply part_ok_mono|done]|].
      destruct (Hparts s q Hq) as [Hp' Hs']. split; [done|]. by eapply shares_mono.
Qed.
(** *** What a view of the ladders [L] shows *)
Definition complement_side (ls : list level) : list (Z * Fill) :=
  map (λ sf, (sf.1, complement_ask sf.2 (vb_unit vb))) (ref_side ls).
Definition value_levels (fs : list (Z * Fill)) : Z :=
  sumZ (map (λ sf : Z * Fill, Z.of_nat (length (taken sf.2)) + Z.of_nat (length (consumed sf.2))) fs).
Definition shows (L : string → list level) (side : string) : list level := if in_list (vb_sides vb) side then L side else [].
Definition add_transform_ladder (L : string → list level) (m : gmap string (list level)) (name side : string) : gmap string (list level) :=
  if in_list (vb_ladders vb) name then <[name := complement_ladder (L side) (vb_unit vb)]> m else m.
Definition side_ladders (L : string → list level) : gmap string (list level) :=
  list_to_map (omap (λ side, if in_list (vb_ladder_sides vb) side then Some (side, L side) else None) (vb_sides vb)).

Definition kept_ladders (L : string → list level) : gmap string (list level) :=
  add_transform_ladder L (add_transform_ladder L (side_ladders L) "kalshi_complement_ask" "bid") "kalshi_complement_bid" "ask".

Definition ref_view (L : string → list level) (book : Book) (time : Z) : view_value :=
  let ask := in_list (vb_transforms vb) "kalshi_complement_ask" in
  let bid := in_list (vb_transforms vb) "kalshi_complement_bid" in
  let n := sumZ (map (λ side, value_levels (ref_side (L side))) (vb_sides vb)) in
  mkValue (validity book) (reason book) time
    (match shows L "bid" with [] => false | _ => true end) (match shows L "ask" with [] => false | _ => true end)
    (head (shows L "bid")) (head (shows L "ask"))
    (list_to_map (map (λ side, (side, ref_side (L side))) (vb_sides vb)))
    (list_to_map ((if ask then [("kalshi_complement_ask"%string, complement_side (L "bid"%string))] else [])
      ++ (if bid then [("kalshi_complement_bid"%string, complement_side (L "ask"%string))] else [])))
    ((if ask then n * 2 else n) + (if bid then value_levels (ref_side (L "ask"%string)) else 0)
      + sumZ (map (λ kl : string * list level, Z.of_nat (length kl.2)) (map_to_list (kept_ladders L))))
    (kept_ladders L).

Abbreviation complements := [("kalshi_complement_ask", "bid"); ("kalshi_complement_bid", "ask")]%string.
Lemma complement_no_side name side : (name, side) ∈ complements → name ∉ vb_sides vb.
Proof. intros Hn Hs%(bo_names Hvb). rewrite !elem_of_cons in Hn. destruct Hn as [[= -> ->]|[[= -> ->]|?%not_elem_of_nil]]; naive_solver. Qed.

Lemma side_ladders_lookup L side ls : side_ladders L !! side = Some ls ↔ side ∈ vb_ladder_sides vb ∧ ls = L side.
Proof.
  unfold side_ladders. split.
  - intros (s & Hin & Heq)%elem_of_list_to_map_2%list_elem_of_omap. destruct (in_list _ s) eqn:Es; [|done].
    apply in_list_elem in Es. by injection Heq as -> ->.
  - intros [Hs ->]. apply elem_of_list_to_map_1.
    + assert (∀ l, NoDup l → NoDup (map fst (omap (λ side, if in_list (vb_ladder_sides vb) side then Some (side, L side) else None) l))) as H.
      { induction 1 as [|s l Hn Hnd IH]; [constructor|]. simpl. destruct (in_list _ s); [|done]. simpl. constructor; [|done].
        intros ([s' ls'] & -> & (s'' & Hin & Heq)%list_elem_of_omap)%list_elem_of_fmap. destruct (in_list _ s''); [|done]. injection Heq as -> _. done. }
      apply H, Hvb.
    + apply list_elem_of_omap. exists side. split; [by apply Hvb|]. by apply in_list_elem in Hs as ->.
Qed.
Lemma complement_ask_bid : "kalshi_complement_ask"%string ≠ "kalshi_complement_bid"%string.
Proof. done. Qed.
Lemma kept_side_lookup L side : side ∈ vb_ladder_sides vb → kept_ladders L !! side = Some (L side).
Proof.
  intros Hs. assert (∀ name s, (name, s) ∈ complements → name ≠ side) as Hne.
  { intros name s Hn ->. apply complement_no_side in Hn. apply Hn. by apply Hvb. }
  unfold kept_ladders, add_transform_ladder.
  assert (side_ladders L !! side = Some (L side)) as H0 by by apply side_ladders_lookup.
  assert (∀ name s (m : gmap string (list level)) ls, (name, s) ∈ complements → <[name := ls]> m !! side = m !! side) as Hi.
  { intros name s m ls Hn. apply lookup_insert_ne. by eapply Hne. }
  destruct (in_list (vb_ladders vb) "kalshi_complement_bid"); [rewrite (Hi _ "ask"%string) by (right; left)|];
    (destruct (in_list (vb_ladders vb) "kalshi_complement_ask"); [rewrite (Hi _ "bid"%string) by left|]); exact H0.
Qed.
Lemma kept_complement_lookup L name side ls : (name, side) ∈ complements → kept_ladders L !! name = Some ls →
  side ∈ vb_ladder_sides vb ∧ ls = complement_ladder (L side) (vb_unit vb).
Proof.
  intros Hn Hk. assert (side_ladders L !! name = None) as H0.
  { destruct (side_ladders L !! name) eqn:E; [|done]. apply side_ladders_lookup in E as [E _]. exfalso.
    apply (complement_no_side _ _ Hn). by apply Hvb. }
  unfold kept_ladders, add_transform_ladder in Hk. rewrite !elem_of_cons in Hn. destruct Hn as [[= -> ->]|[[= -> ->]|?%not_elem_of_nil]]; [..|done].
  - destruct (in_list (vb_ladders vb) "kalshi_complement_ask") eqn:Ea;
      [|destruct (in_list (vb_ladders vb) "kalshi_complement_bid"); rewrite ?lookup_insert_ne in Hk by done; congruence].
    split; [by apply (bo_ladder_ask Hvb), in_list_elem|]. destruct (in_list (vb_ladders vb) "kalshi_complement_bid");
      rewrite ?lookup_insert_ne in Hk by done; rewrite lookup_insert_eq in Hk; congruence.
  - destruct (in_list (vb_ladders vb) "kalshi_complement_bid") eqn:Eb;
      [|destruct (in_list (vb_ladders vb) "kalshi_complement_ask"); rewrite ?lookup_insert_ne in Hk by done; congruence].
    split; [by apply (bo_ladder_bid Hvb), in_list_elem|]. rewrite lookup_insert_eq in Hk. congruence.
Qed.

Lemma mapR_lookup {A B} (f : A → result B) (l : list A) (bs : list B) :
  length bs = length l → (∀ i a, l !! i = Some a → ∃ b, bs !! i = Some b ∧ f a = Ok b) → mapR f l = Ok bs.
Proof.
  revert bs. induction l as [|a l IH]; intros [|b bs]; try done. intros [= Hl] H.
  destruct (H 0%nat a eq_refl) as (b' & [= ->] & E). simpl. rewrite E. cbn [mbind result_bind].
  rewrite (IH bs); [done|done|]. intros i. apply (H (S i)).
Qed.

(** The fills of a built side are the objects of the prior one, or they are all converted. *)
Lemma same_fills L ls side n n' v fs p :
  prior_of L n v → fills v !! side = Some fs → values fs = ref_side (L side) → part_ok ls side n' p → shares n (Some v) side p →
  ∃ same, mapR (λ size, k ← at_size (sp_fills p) size; o ← at_size fs size; Ok (is_ k o)) (vb_sizes vb) = Ok same ∧
    (forallb id same = true → sp_fills p = fs).
Proof.
  intros Hv Ev Hfs Hp Hsh. pose proof (po_fills _ _ _ _ Hp) as Hpf. destruct (values_zip _ _ Hfs) as [Ef Mf]. destruct (values_zip _ _ Hpf) as [Ep Mp].
  set (os := map snd fs) in *. set (ks := map snd (sp_fills p)) in *. pose proof (bo_length Hvb) as Hlen.
  assert (length os = length (vb_sizes vb)) as Lo by (rewrite <- (length_map it), Mf, length_map; lia).
  assert (length ks = length (vb_sizes vb)) as Lk by (rewrite <- (length_map it), Mp, length_map; lia).
  exists (zip_with is_ ks os). split.
  - apply mapR_lookup; [rewrite length_zip_with; lia|]. intros i size Hi.
    destruct (lookup_lt_is_Some_2 os i) as [o Ho]; [rewrite Lo; by eapply lookup_lt_Some|].
    destruct (lookup_lt_is_Some_2 ks i) as [k Hk]; [rewrite Lk; by eapply lookup_lt_Some|].
    exists (is_ k o). split; [rewrite lookup_zip_with, Hk; simpl; by rewrite Ho|].
    rewrite Ep, (at_size_zip _ ks i size k) by (done || apply Hvb). cbn [mbind result_bind].
    by rewrite Ef, (at_size_zip _ os i size o) by (done || apply Hvb).
  - intros Hall. assert (ks = os) as Eks; [|rewrite Ef, Ep; by rewrite Eks]. apply list_eq_same_length with (length ks); [lia|lia|].
    intros i k o Hik Hk Ho. destruct (Hsh v eq_refl) as [Hs _].
    destruct (lookup_lt_is_Some_2 (vb_sizes vb) i) as [size Hsz]; [rewrite <- Lk; by eapply lookup_lt_Some|].
    destruct (Hs fs i size o k Ev Hsz Ho Hk) as [|Hn]; [done|]. exfalso.
    rewrite forallb_forall in Hall. assert (is_ k o = true) as Heq%Z.eqb_eq.
    { apply Hall. apply list_elem_of_In, list_elem_of_lookup. exists i. rewrite lookup_zip_with, Hk. simpl. by rewrite Ho. }
    pose proof (bl_fills _ _ (pr_below _ _ _ Hv)) as Hb. assert (addr o < n) by (apply list_elem_of_lookup_2, list_elem_of_fmap in Ho as (sf & -> & Hsf); by apply (Hb side fs)). lia.
Qed.

(** Where the fills of a transform come from. *)
Definition transform_from (n n2 : Z) (prior : option BookView) (name : string) (t : fills_of) : Prop :=
  (∀ sf, sf ∈ t → addr sf.2 < n2) ∧ ((∃ v, prior = Some v ∧ transformed v !! name = Some t) ∨ ∀ sf, sf ∈ t → n ≤ addr sf.2).
Lemma transform_from_mono n n1 n2 prior name t : n1 ≤ n2 → transform_from n n1 prior name t → transform_from n n2 prior name t.
Proof. intros Hn [H1 H2]. split; [|done]. intros sf Hsf. apply H1 in Hsf. lia. Qed.

Lemma transform_ok L ls n prior now name side n1 n' p : n ≤ n1 →
  (name, side) ∈ [("kalshi_complement_ask", "bid"); ("kalshi_complement_bid", "ask")]%string →
  side ∈ vb_sides vb → (∀ v, prior = Some v → prior_of L n v) → now !! side = Some (sp_fills p) → part_ok ls side n' p → shares n prior side p →
  ∃ n2 t, transform vb prior now name side n1 = (n2, Ok t) ∧ n1 ≤ n2 ∧ values t = complement_side ls ∧ transform_from n n2 prior name t.
Proof.
  intros Hn1 Hname Hside Hprior Hnow Hp Hsh. unfold transform. set (convert := x ← liftR (at_key now side); _).
  assert (∃ n2 t, convert n1 = (n2, Ok t) ∧ n1 ≤ n2 ∧ values t = complement_side ls ∧ ∀ sf, sf ∈ t → n1 ≤ addr sf.2 < n2) as Hconv0.
  { unfold convert, at_key. rewrite Hnow. clear Hnow convert. pose proof (po_fills _ _ _ _ Hp) as Hpf. unfold complement_side. rewrite <- Hpf.
    generalize (sp_fills p) as fs. clear. intros fs. revert n1. induction fs as [|[s f] fs IH]; intros n1; [exists n1, []; split_and!; [done|lia|done|by intros sf ?%not_elem_of_nil]|].
    destruct (IH (n1 + 1)) as (n2 & t & E & Hn & Hv & Ha). exists n2, ((s, Obj n1 (complement_ask (it f) (vb_unit vb))) :: t). split_and!; [|lia| |].
    - apply stbind_ok. exists n1, ((s, f) :: fs). split; [done|]. apply stbind_ok. exists (n1 + 1), (s, Obj n1 (complement_ask (it f) (vb_unit vb))).
      split; [done|]. apply stbind_ok. exists n2, t. split; [|done]. apply stbind_ok in E as (n3 & fs' & [= <- <-] & E). exact E.
    - unfold values in *. simpl. by rewrite Hv.
    - intros sf [->|Hsf]%elem_of_cons; [simpl; lia|]. apply Ha in Hsf. lia. }
  assert (∃ n2 t, convert n1 = (n2, Ok t) ∧ n1 ≤ n2 ∧ values t = complement_side ls ∧ transform_from n n2 prior name t) as Hconv.
  { destruct Hconv0 as (n2 & t & E & Hn2 & Hv & Ha). exists n2, t. split_and!; [done..|]. split; [intros sf Hsf; apply Ha in Hsf; lia|].
    right. intros sf Hsf. apply Ha in Hsf. lia. }
  clear Hconv0.
  destruct prior as [v|]; [|exact Hconv]. cbn [mbind option_bind].
  destruct (transformed v !! name) as [previous|] eqn:Et; [|exact Hconv]. destruct (fills v !! side) as [fs|] eqn:Ef; [|by destruct previous].
  destruct previous as [|x previous]; [exact Hconv|].
  specialize (Hprior v eq_refl) as Hv. pose proof (pr_transformed _ _ _ Hv name side Hname _ Et) as [_ Hprev].
  destruct (pr_fills _ _ _ Hv side Hside) as (fs' & Efs & Hfs). rewrite Ef in Efs. injection Efs as <-.
  destruct (same_fills L ls side n n' v fs p Hv Ef Hfs Hp Hsh) as (same & Es & Hs).
  assert (mapR (λ size, fs0 ← at_key now side; k ← at_size fs0 size; o ← at_size fs size; Ok (is_ k o)) (vb_sizes vb) = Ok same) as Es'
    by (unfold at_key; rewrite Hnow; exact Es).
  destruct (forallb id same) eqn:Eall.
  - exists n1, (x :: previous). split_and!; [|lia| |].
    + apply stbind_ok. exists n1, same. split; [unfold liftR; by rewrite Es'|]. by rewrite Eall.
    + rewrite Hprev. unfold complement_side. rewrite <- (po_fills _ _ _ _ Hp). rewrite (Hs eq_refl). by rewrite Hfs.
    + split; [|left; by exists v]. intros sf Hsf. pose proof (bl_transformed _ _ (pr_below _ _ _ Hv) _ _ _ Et Hsf). lia.
  - destruct Hconv as (n2 & t & E & Hn & Ht). exists n2, t. split_and!; [|done|apply Ht|apply Ht]. apply stbind_ok. exists n1, same.
    split; [unfold liftR; by rewrite Es'|]. by rewrite Eall.
Qed.

Lemma transform_ladder_ok L ls n prior R name side n1 :
  (name, side) ∈ [("kalshi_complement_ask", "bid"); ("kalshi_complement_bid", "ask")]%string →
  (∀ v, prior = Some v → prior_of L n v) →
  (in_list (vb_ladders vb) name = true → ∃ k, R !! side = Some k ∧ it k = ls ∧
     ∀ v o, prior = Some v → ladders v !! side = Some o → k = o ∨ n ≤ addr k) → n ≤ n1 →
  ∃ n2 R', transform_ladder vb prior R name side n1 = (n2, Ok R') ∧ n1 ≤ n2 ∧
    if in_list (vb_ladders vb) name then ∃ o, R' = <[name := o]> R ∧ it o = complement_ladder ls (vb_unit vb) ∧ addr o < n2 else R' = R.
Proof.
  intros Hname Hprior HR Hn1. unfold transform_ladder. destruct (in_list (vb_ladders vb) name) eqn:Ein; cbn [negb];
    [|exists n1, R; split_and!; [done|lia|done]].
  destruct (HR eq_refl) as (k & Hk & Els & Hsh). clear HR. set (convert := l ← liftR (at_key R side); _).
  assert (∃ n2 R', convert n1 = (n2, Ok R') ∧ n1 ≤ n2 ∧ ∃ o, R' = <[name := o]> R ∧ it o = complement_ladder ls (vb_unit vb) ∧ addr o < n2) as Hconv.
  { exists (n1 + 1), (<[name := Obj n1 (complement_ladder ls (vb_unit vb))]> R). split_and!; [|lia|eexists; split_and!; [done|done|simpl; lia]].
    unfold convert, at_key. rewrite Hk. subst ls. done. }
  destruct prior as [v|]; [|exact Hconv]. cbn [mbind option_bind]. destruct (ladders v !! name) as [previous|] eqn:Ep; [|exact Hconv].
  specialize (Hprior v eq_refl) as Hv. destruct (pr_transform_ladders _ _ _ Hv name side Hname _ Ep) as [Hls Hprev].
  pose proof (pr_ladders _ _ _ Hv side Hls) as Hl. destruct (ladders v !! side) as [o|] eqn:Eo; [|done]. simpl in Hl. injection Hl as Hl.
  cbn [mbind option_bind]. cbn beta iota. unfold at_key. rewrite Eo, Hk.
  assert (∀ m : ST Z (gmap string (obj (list level))), (o0 ← liftR (Ok o); n0 ← liftR (Ok k); if is_ o0 n0 then mret (<[name := previous]> R) else m) n1
    = (if is_ o k then mret (<[name := previous]> R) else m) n1) as -> by done.
  destruct (is_ o k) eqn:Eis; [|exact Hconv]. apply Z.eqb_eq in Eis. pose proof (bl_ladders _ _ (pr_below _ _ _ Hv)) as Hb. pose proof (Hb _ _ Eo). pose proof (Hb _ _ Ep).
  exists n1, (<[name := previous]> R). split_and!; [done|lia|]. exists previous. split_and!; [done| |lia].
  rewrite Hprev. f_equal. destruct (Hsh v o eq_refl Eo) as [->|]; [congruence|lia].
Qed.

(** *** The sides a loop built *)
Section Parts.
Context (L' : string → list level) (n n' : Z) (prior : option BookView) (parts : list (string * SideParts)).
Context (Hsides : map fst parts = vb_sides vb) (Hparts : parts_ok L' n n' prior parts).

Lemma parts_find side : side ∈ vb_sides vb →
  ∃ p, (list_to_map parts : gmap string SideParts) !! side = Some p ∧ part_ok (L' side) side n' p ∧ shares n prior side p.
Proof.
  intros Hs. rewrite <- Hsides in Hs. apply list_elem_of_fmap in Hs as ([s p] & -> & Hp). exists p. simpl. split; [|by apply Hparts].
  apply elem_of_list_to_map_1; [|done]. change (NoDup (map fst parts)). rewrite Hsides. apply Hvb.
Qed.
Lemma parts_find_none side : side ∉ vb_sides vb → (list_to_map parts : gmap string SideParts) !! side = None.
Proof. intros Hs. apply not_elem_of_list_to_map_1. change (side ∉ map fst parts). by rewrite Hsides. Qed.

Lemma parts_map {B} (f : string * SideParts → B) g :
  (∀ side p, part_ok (L' side) side n' p → f (side, p) = g side) → map f parts = map g (vb_sides vb).
Proof.
  intros H. rewrite <- Hsides, map_map. apply map_ext_in. intros [s p] Hp%list_elem_of_In. apply H. by apply Hparts.
Qed.
Lemma parts_fills : values <$> (list_to_map (map (λ sp : string * SideParts, (sp.1, sp_fills sp.2)) parts) : gmap string fills_of)
  = list_to_map (map (λ side, (side, ref_side (L' side))) (vb_sides vb)).
Proof.
  rewrite <- list_to_map_fmap. f_equal. change (map (prod_map id values) (map (λ sp : string * SideParts, (sp.1, sp_fills sp.2)) parts)
    = map (λ side, (side, ref_side (L' side))) (vb_sides vb)).
  rewrite map_map. apply parts_map. intros side p Hp. unfold prod_map. simpl. by rewrite (po_fills _ _ _ _ Hp).
Qed.
Lemma parts_fills_lookup side fs : (list_to_map (map (λ sp : string * SideParts, (sp.1, sp_fills sp.2)) parts) : gmap string fills_of) !! side = Some fs →
  ∃ p, (side, p) ∈ parts ∧ fs = sp_fills p.
Proof. intros ([s p] & [= -> ->] & Hp)%elem_of_list_to_map_2%list_elem_of_fmap. by exists p. Qed.
Lemma parts_fills_find side : side ∈ vb_sides vb →
  ∃ p, (list_to_map (map (λ sp : string * SideParts, (sp.1, sp_fills sp.2)) parts) : gmap string fills_of) !! side = Some (sp_fills p) ∧
    part_ok (L' side) side n' p ∧ shares n prior side p.
Proof.
  intros Hs. rewrite <- Hsides in Hs. apply list_elem_of_fmap in Hs as ([s p] & -> & Hp). exists p. simpl. split; [|by apply Hparts].
  apply elem_of_list_to_map_1; [|by apply (list_elem_of_fmap_2 (λ sp : string * SideParts, (sp.1, sp_fills sp.2)) parts (s, p))].
  change (NoDup (map fst (map (λ sp : string * SideParts, (sp.1, sp_fills sp.2)) parts))). rewrite map_map. simpl.
  change (NoDup (map fst parts)). rewrite Hsides. apply Hvb.
Qed.

Abbreviation retained0 := (list_to_map (omap (λ sp : string * SideParts, l ← sp_ladder sp.2; Some (sp.1, l)) parts) : gmap string (obj (list level))).
Lemma retained_values : it <$> retained0 = side_ladders L'.
Proof.
  rewrite <- list_to_map_fmap. unfold side_ladders. f_equal. rewrite <- Hsides. revert Hparts. clear. unfold parts_ok.
  induction parts as [|[s p] ps IH]; intros Hp; [done|]. simpl. specialize (IH (λ side q Hq, Hp side q (list_elem_of_further _ _ _ Hq))).
  destruct (Hp s p ltac:(left)) as [Hok _]. pose proof (po_ladder _ _ _ _ Hok) as Hl. destruct (in_list (vb_ladder_sides vb) s); [|by destruct (sp_ladder p)].
  destruct (sp_ladder p); [|done]. injection Hl as Hl.
  cbn. apply f_equal2; [unfold prod_map; simpl; by rewrite Hl|exact IH].
Qed.
Lemma retained_lookup side o : retained0 !! side = Some o → ∃ p, (side, p) ∈ parts ∧ sp_ladder p = Some o.
Proof.
  intros ([s p] & Hp & Hl)%elem_of_list_to_map_2%list_elem_of_omap. simpl in Hl. destruct (sp_ladder p) as [l|] eqn:El; [|done]. simpl in Hl.
  injection Hl as -> ->. by exists p.
Qed.
Lemma retained_side side : side ∈ vb_ladder_sides vb →
  ∃ o, retained0 !! side = Some o ∧ it o = L' side ∧ (∀ v old, prior = Some v → ladders v !! side = Some old → o = old ∨ n ≤ addr o).
Proof.
  intros Hs. assert ((it <$> retained0) !! side = Some (L' side)) as Hv by by rewrite retained_values; apply side_ladders_lookup.
  rewrite lookup_fmap in Hv. destruct (retained0 !! side) as [o|] eqn:Eo; [|done]. injection Hv as Hv. exists o. split_and!; [done|done|].
  intros v old -> Hold. destruct (retained_lookup _ _ Eo) as (p & Hp & Hl). destruct (Hparts _ _ Hp) as [_ Hsh]. by eapply Hsh.
Qed.

Lemma retained_ok L n1 :
  (∀ v, prior = Some v → prior_of L n v) → n ≤ n1 → n' ≤ n1 →
  ∃ n2 R1 n3 R, transform_ladder vb prior retained0 "kalshi_complement_ask" "bid" n1 = (n2, Ok R1) ∧
    transform_ladder vb prior R1 "kalshi_complement_bid" "ask" n2 = (n3, Ok R) ∧ n1 ≤ n3 ∧
    it <$> R = kept_ladders L' ∧ (∀ k o, R !! k = Some o → addr o < n3).
Proof.
  intros Hprior Hn Hn1.
  assert (∀ k o, retained0 !! k = Some o → addr o < n1) as Hb0.
  { intros k o (p & Hp & Hl)%retained_lookup. destruct (Hparts _ _ Hp) as [[_ _ _ _ (_ & Hb & _)] _]. apply Hb in Hl. lia. }
  destruct (transform_ladder_ok L (L' "bid"%string) n prior retained0 "kalshi_complement_ask" "bid" n1) as (n2 & R1 & E1 & Hn2 & H1);
    [left|done|intros Hin%in_list_elem%(bo_ladder_ask Hvb); by apply retained_side|lia|].
  assert (R1 !! "ask"%string = retained0 !! "ask"%string ∧ it <$> R1 = add_transform_ladder L' (side_ladders L') "kalshi_complement_ask" "bid"
    ∧ ∀ k o, R1 !! k = Some o → addr o < n2) as (Ra & Ev & Hb1).
  { unfold add_transform_ladder. destruct (in_list (vb_ladders vb) "kalshi_complement_ask").
    - destruct H1 as (o & -> & Io & Ho). rewrite lookup_insert_ne, fmap_insert, retained_values, Io by done. split_and!; [done..|].
      intros k o' [[_ <-]|[_ Hk]]%lookup_insert_Some; [done|]. apply Hb0 in Hk. lia.
    - subst R1. rewrite retained_values. split_and!; [done..|]. intros k o Hk. apply Hb0 in Hk. lia. }
  destruct (transform_ladder_ok L (L' "ask"%string) n prior R1 "kalshi_complement_bid" "ask" n2) as (n3 & R & E2 & Hn3 & H2);
    [right; left|done|intros Hin%in_list_elem%(bo_ladder_bid Hvb); rewrite Ra; by apply retained_side|lia|].
  exists n2, R1, n3, R. unfold kept_ladders. rewrite <- Ev. unfold add_transform_ladder.
  destruct (in_list (vb_ladders vb) "kalshi_complement_bid"); split_and!; try done; try lia.
  - destruct H2 as (o & -> & Io & Ho). by rewrite fmap_insert, Io.
  - destruct H2 as (o & -> & Io & Ho). intros k o' [[_ <-]|[_ Hk]]%lookup_insert_Some; [done|]. apply Hb1 in Hk. lia.
  - by subst R.
  - subst R. intros k o Hk. apply Hb1 in Hk. lia.
Qed.

Abbreviation fills0 := (list_to_map (map (λ sp : string * SideParts, (sp.1, sp_fills sp.2)) parts) : gmap string fills_of).
Lemma count_values fs : count_levels fs = value_levels (values fs).
Proof. unfold count_levels, value_levels, values. by rewrite map_map. Qed.
Lemma parts_levels : sumZ (map (λ sp : string * SideParts, count_levels (sp_fills sp.2)) parts) = sumZ (map (λ side, value_levels (ref_side (L' side))) (vb_sides vb)).
Proof. f_equal. apply parts_map. intros side p Hp. simpl. by rewrite count_values, (po_fills _ _ _ _ Hp). Qed.

(** What one part says of the finished view. *)
Lemma part_shows side :
  (match (list_to_map parts : gmap string SideParts) !! side with Some p => sp_present p | None => false end)
    = (match shows L' side with [] => false | _ => true end) ∧
  it <$> (p ← (list_to_map parts : gmap string SideParts) !! side; sp_best p) = head (shows L' side).
Proof.
  unfold shows. destruct (in_list (vb_sides vb) side) eqn:Ein.
  - apply in_list_elem in Ein. destruct (parts_find side Ein) as (p & -> & [_ Hp Hb _ _] & _). done.
  - rewrite parts_find_none; [done|]. intros Hs%in_list_elem. congruence.
Qed.

Lemma transforms_ok L n1 name side : n ≤ n1 →
  (name, side) ∈ complements → (∀ v, prior = Some v → prior_of L n v) → (in_list (vb_transforms vb) name = true → side ∈ vb_sides vb) →
  ∃ n2 t, (if in_list (vb_transforms vb) name then t ← transform vb prior fills0 name side; mret [(name, t)] else mret []) n1 = (n2, Ok t) ∧ n1 ≤ n2 ∧
    map (λ kt, (kt.1, values kt.2)) t = (if in_list (vb_transforms vb) name then [(name, complement_side (L' side))] else []) ∧
    ∀ kt, kt ∈ t → transform_from n n2 prior kt.1 kt.2.
Proof.
  intros Hn1 Hn Hprior Hside. destruct (in_list (vb_transforms vb) name); [|exists n1, []; split_and!; [done|lia|done|by intros kt ?%not_elem_of_nil]].
  destruct (parts_fills_find side (Hside eq_refl)) as (p & Ep & Hp & Hsh).
  destruct (transform_ok L (L' side) n prior fills0 name side n1 n' p) as (n2 & t & E & Hn2 & Ht & Hf); [done|done|by apply Hside|done..|].
  exists n2, [(name, t)]. split_and!; [|done|simpl; by rewrite Ht|by intros kt ->%list_elem_of_singleton]. apply stbind_ok. by exists n2, t.
Qed.
End Parts.

Lemma transformed_of L name side vs :
  (name, side) ∈ complements →
  (name, vs) ∈ (if in_list (vb_transforms vb) "kalshi_complement_ask" then [("kalshi_complement_ask"%string, complement_side (L "bid"%string))] else [])
    ++ (if in_list (vb_transforms vb) "kalshi_complement_bid" then [("kalshi_complement_bid"%string, complement_side (L "ask"%string))] else []) →
  side ∈ vb_sides vb ∧ vs = complement_side (L side).
Proof.
  intros Hn Hin. apply elem_of_app in Hin.
  assert (name = "kalshi_complement_ask"%string ∧ side = "bid"%string ∨ name = "kalshi_complement_bid"%string ∧ side = "ask"%string) as [[-> ->]|[-> ->]].
  { rewrite !elem_of_cons in Hn. destruct Hn as [E|[E|?%not_elem_of_nil]]; [left|right|done]; by injection E. }
  - destruct Hin as [Hin|Hin].
    + destruct (in_list _ _) eqn:E; [|by apply not_elem_of_nil in Hin]. apply list_elem_of_singleton in Hin. injection Hin as ->.
      split; [|done]. by apply (bo_ask Hvb), in_list_elem.
    + destruct (in_list _ _); [|by apply not_elem_of_nil in Hin]. by apply list_elem_of_singleton in Hin.
  - destruct Hin as [Hin|Hin].
    + destruct (in_list _ _); [|by apply not_elem_of_nil in Hin]. by apply list_elem_of_singleton in Hin.
    + destruct (in_list _ _) eqn:E; [|by apply not_elem_of_nil in Hin]. apply list_elem_of_singleton in Hin. injection Hin as ->.
      split; [|done]. by apply (bo_bid Hvb), in_list_elem.
Qed.

(** What a view keeps of the one before it: every object is the prior one of the same
    place, or newer than [n]. *)
Record inherits (n : Z) (v v' : BookView) : Prop := Inherits {
  in_fills : ∀ side fs size k, fills v' !! side = Some fs → at_size fs size = Ok k →
    n ≤ addr k ∨ ∃ fs0, fills v !! side = Some fs0 ∧ at_size fs0 size = Ok k;
  in_transformed : ∀ name fs size k, transformed v' !! name = Some fs → at_size fs size = Ok k →
    n ≤ addr k ∨ ∃ fs0, transformed v !! name = Some fs0 ∧ at_size fs0 size = Ok k;
  in_best : ∀ side k, best_of v' side = Some k → n ≤ addr k ∨ best_of v side = Some k;
  in_reason : ∀ k, bv_reason v' = Some k → n ≤ addr k;
}.

Lemma at_size_in {A} (l : list (Z * A)) size a : at_size l size = Ok a → (size, a) ∈ l.
Proof.
  unfold at_size. destruct (find _ l) as [[s b]|] eqn:E; [|done]. intros [= ->]. apply find_some in E as [Hin Heq%Z.eqb_eq].
  simpl in Heq. subst s. by apply list_elem_of_In.
Qed.
Lemma copy_reason_ok r n : ∃ n' why, copy_reason r n = (n', Ok why) ∧ n ≤ n' ∧
  (match why with Some r => it r | None => JNull end) = r ∧ ∀ o, why = Some o → n ≤ addr o < n'.
Proof.
  assert (∃ n' why, (x ← alloc r; mret (Some x)) n = (n', Ok why) ∧ n ≤ n' ∧ (match why with Some r => it r | None => JNull end) = r ∧ ∀ o, why = Some o → n ≤ addr o < n') as H.
  { exists (n + 1), (Some (Obj n r)). split_and!; [done|lia|done|]. intros o [= <-]. simpl. lia. }
  destruct r; try exact H. exists n, None. split_and!; [done|lia|done|done].
Qed.

(** *** The finished view *)
Section Finished.
Context (L L' : string → list level) (n n1 n2 n3 n5 n6 : Z) (prior : option BookView) (parts : list (string * SideParts)).
Context (ta tb : list (string * fills_of)) (R : gmap string (obj (list level))) (why : option (obj json)).
Context (book : Book) (time levels : Z).
Context (Hsides : map fst parts = vb_sides vb) (Hparts : parts_ok L' n n1 prior parts).
Context (Hn : n ≤ n1 ∧ n1 ≤ n2 ∧ n2 ≤ n3 ∧ n3 ≤ n5 ∧ n5 ≤ n6).
Context (Va : map (λ kt, (kt.1, values kt.2)) ta = if in_list (vb_transforms vb) "kalshi_complement_ask" then [("kalshi_complement_ask"%string, complement_side (L' "bid"%string))] else []).
Context (Vb : map (λ kt, (kt.1, values kt.2)) tb = if in_list (vb_transforms vb) "kalshi_complement_bid" then [("kalshi_complement_bid"%string, complement_side (L' "ask"%string))] else []).
Context (Fa : ∀ kt, kt ∈ ta → transform_from n n2 prior kt.1 kt.2) (Fb : ∀ kt, kt ∈ tb → transform_from n n3 prior kt.1 kt.2).
Context (VR : it <$> R = kept_ladders L') (BR : ∀ k o, R !! k = Some o → addr o < n5).
Context (Vw : (match why with Some r => it r | None => JNull end) = reason book) (Fw : ∀ o, why = Some o → n5 ≤ addr o < n6).

Abbreviation finished := (mkBookView (validity book) why time
    (match (list_to_map parts : gmap string SideParts) !! "bid"%string with Some p => sp_present p | None => false end)
    (match (list_to_map parts : gmap string SideParts) !! "ask"%string with Some p => sp_present p | None => false end)
    (p ← (list_to_map parts : gmap string SideParts) !! "bid"%string; sp_best p)
    (p ← (list_to_map parts : gmap string SideParts) !! "ask"%string; sp_best p)
    (list_to_map (map (λ sp : string * SideParts, (sp.1, sp_fills sp.2)) parts)) (list_to_map (ta ++ tb)) levels R).

Lemma finished_transformed name fs : transformed finished !! name = Some fs → transform_from n n3 prior name fs.
Proof.
  cbn [transformed]. intros [Hin|Hin]%elem_of_list_to_map_2%elem_of_app; [|exact (Fb _ Hin)].
  apply (transform_from_mono _ n2); [lia|exact (Fa _ Hin)].
Qed.

Lemma finished_best side b : best_of finished side = Some b →
  ∃ p, sp_best p = Some b ∧ part_ok (L' (if String.eqb side "bid" then "bid" else "ask")%string) (if String.eqb side "bid" then "bid" else "ask") n1 p
    ∧ shares n prior (if String.eqb side "bid" then "bid" else "ask") p.
Proof.
  unfold best_of. cbn [best_bid best_ask]. destruct (String.eqb side "bid");
    (intros (p & Hp%elem_of_list_to_map_2 & Hb)%bind_Some; exists p; split; [exact Hb|by apply Hparts]).
Qed.

Lemma finished_below : below n6 finished.
Proof.
  split.
  - cbn [fills]. intros side fs sf (p & Hp & ->)%parts_fills_lookup Hsf. destruct (Hparts _ _ Hp) as [[_ _ _ _ (Hb & _)] _]. apply Hb in Hsf. lia.
  - cbn [ladders]. intros side l Hl. apply BR in Hl. lia.
  - intros side b (p & Hp & [_ _ _ _ (_ & _ & Hb)] & _)%finished_best. apply Hb in Hp. lia.
  - intros name fs sf [Hf _]%finished_transformed Hsf. apply Hf in Hsf. lia.
  - cbn [bv_reason]. intros r Hr%Fw. lia.
Qed.

Lemma finished_prior : prior_of L' n6 finished.
Proof.
  split; [exact finished_below|..].
  - intros side Hs. destruct (parts_fills_find _ _ _ _ _ Hsides Hparts side Hs) as (p & Ep & Hp & _). exists (sp_fills p). split; [exact Ep|apply Hp].
  - intros side Hs. pose proof (part_shows _ _ _ _ _ Hsides Hparts side) as H. unfold shows in H. rewrite (proj2 (in_list_elem _ _) Hs) in H. unfold present. cbn [bid_present ask_present].
    destruct (bo_names Hvb side Hs) as [-> | ->]; apply H.
  - intros side Hs. pose proof (part_shows _ _ _ _ _ Hsides Hparts side) as H. unfold shows in H. rewrite (proj2 (in_list_elem _ _) Hs) in H. unfold best_of. cbn [best_bid best_ask].
    destruct (bo_names Hvb side Hs) as [-> | ->]; apply H.
  - intros side Hs. cbn [ladders]. rewrite <- lookup_fmap, VR. by apply kept_side_lookup.
  - intros name side Hname fs Hfs. cbn [transformed] in Hfs. apply elem_of_list_to_map_2 in Hfs.
    apply (list_elem_of_fmap_2 (λ kt : string * fills_of, (kt.1, values kt.2))) in Hfs. rewrite fmap_app in Hfs.
    change (map (λ kt : string * fills_of, (kt.1, values kt.2)) ta) with ((λ kt : string * fills_of, (kt.1, values kt.2)) <$> ta) in Va.
    change (map (λ kt : string * fills_of, (kt.1, values kt.2)) tb) with ((λ kt : string * fills_of, (kt.1, values kt.2)) <$> tb) in Vb.
    rewrite Va, Vb in Hfs. apply (transformed_of L' name side (values fs) Hname). exact Hfs.
  - intros name side Hname l Hl. eapply (kept_complement_lookup L'); [done|]. rewrite <- VR, lookup_fmap. cbn [ladders] in Hl. by rewrite Hl.
Qed.

Lemma finished_inherits v : prior = Some v → prior_of L n v → inherits n v finished.
Proof.
  intros Hv Hprior. split.
  - cbn [fills]. intros side fs size k (p & Hp & ->)%parts_fills_lookup Hk. destruct (Hparts _ _ Hp) as [Hok Hsh].
    assert (side ∈ vb_sides vb) as Hside by (rewrite <- Hsides; by apply (list_elem_of_fmap_2 fst parts (side, p))).
    destruct (pr_fills _ _ _ Hprior side Hside) as (fs0 & E0 & Hv0). destruct (values_zip _ _ Hv0) as [Ez0 Em0]. destruct (values_zip _ _ (po_fills _ _ _ _ Hok)) as [Ez Em].
    apply at_size_in in Hk. rewrite Ez in Hk. apply list_elem_of_lookup in Hk as [i Hi]. apply lookup_zip_with_Some in Hi as (sz & k' & [= <- <-] & Hsz & Hk).
    destruct (lookup_lt_is_Some_2 (map snd fs0) i) as [o Ho].
    { apply lookup_lt_Some in Hsz. rewrite <- (length_map it), Em0, length_map. pose proof (bo_length Hvb). lia. }
    destruct (Hsh v Hv) as (S1 & _). destruct (S1 fs0 i size o k E0 Hsz Ho Hk) as [->|]; [right|by left].
    exists fs0. split; [done|]. rewrite Ez0. apply (at_size_zip _ _ i); [apply Hvb|done..].
  - intros name fs size k Hfs Hk. apply finished_transformed in Hfs as [_ [(v0 & Hv0 & Hfs)|Hfs]].
    + right. exists fs. split; [congruence|done].
    + left. apply at_size_in in Hk. exact (Hfs _ Hk).
  - intros side k (p & Hp & _ & Hsh)%finished_best. destruct (Hsh v Hv) as (_ & _ & S3). destruct (S3 k Hp) as [E|]; [right|by left].
    rewrite <- E. unfold best_of. by destruct (String.eqb side "bid").
  - cbn [bv_reason]. intros k Hk%Fw. lia.
Qed.

Lemma finished_value :
  levels = (if in_list (vb_transforms vb) "kalshi_complement_ask" then sumZ (map (λ side, value_levels (ref_side (L' side))) (vb_sides vb)) * 2
            else sumZ (map (λ side, value_levels (ref_side (L' side))) (vb_sides vb)))
    + (if in_list (vb_transforms vb) "kalshi_complement_bid" then value_levels (ref_side (L' "ask"%string)) else 0)
    + sumZ (map (λ kl : string * list level, Z.of_nat (length kl.2)) (map_to_list (kept_ladders L'))) →
  erase finished = ref_view L' book time.
Proof.
  intros ->. unfold erase, ref_view. cbn [bv_validity bv_reason last_change bid_present ask_present best_bid best_ask fills transformed view_levels ladders].
  pose proof (part_shows _ _ _ _ _ Hsides Hparts "bid") as Hbid. pose proof (part_shows _ _ _ _ _ Hsides Hparts "ask") as Hask.
  f_equal; try done; try (apply Hbid || apply Hask).
  - exact (parts_fills _ _ _ _ _ Hsides Hparts).
  - rewrite <- list_to_map_fmap. f_equal. rewrite <- Va, <- Vb. apply (map_app (λ kt : string * fills_of, (kt.1, values kt.2))).
Qed.
End Finished.

Lemma ladder_count (R : gmap string (obj (list level))) :
  sumZ (map (λ kl : string * obj (list level), Z.of_nat (length (it kl.2))) (map_to_list R))
  = sumZ (map (λ kl : string * list level, Z.of_nat (length kl.2)) (map_to_list (it <$> R))).
Proof. f_equal. rewrite map_to_list_fmap. change (prod_map id it <$> map_to_list R) with (map (prod_map id it) (map_to_list R)). by rewrite map_map. Qed.

(** [build] succeeds and shows exactly the ladders, whatever it kept. *)
Lemma build_exact book time prior sides L L' n :
  (∀ side, side ∈ vb_sides vb → levels book side None = Ok (L' side) ∧ Forall level_ok (L' side)) →
  (∀ v, prior = Some v → prior_of L n v) →
  (∀ v ts side, prior = Some v → sides = Some ts → validity book = "usable" → bv_validity v = "usable" → side ∈ vb_sides vb → unaffected L L' ts side) →
  ∃ n' v, build vb book time prior sides n = (n', Ok v) ∧ n ≤ n' ∧ prior_of L' n' v ∧ erase v = ref_view L' book time ∧
    ∀ v0, prior = Some v0 → inherits n v0 v.
Proof.
  intros Hlv Hprior Hun.
  destruct (build_sides_ok book prior sides L L' (vb_sides vb) n) as (n1 & parts & Eparts & Hn1 & Hfst & Hparts);
    [intros side Hs; destruct (Hlv side Hs); split_and!; eauto|done|].
  destruct (transforms_ok _ _ _ _ _ Hfst Hparts L n1 "kalshi_complement_ask" "bid") as (n2 & ta & Ea & Hn2 & Va & Fa);
    [lia|left|done|intros ?%in_list_elem; by apply (bo_ask Hvb)|].
  destruct (transforms_ok _ _ _ _ _ Hfst Hparts L n2 "kalshi_complement_bid" "ask") as (n3 & tb & Eb & Hn3 & Vb & Fb);
    [lia|right; left|done|intros ?%in_list_elem; by apply (bo_bid Hvb)|].
  destruct (retained_ok _ _ _ _ _ Hfst Hparts L n3 Hprior) as (n4 & R1 & n5 & R & E1 & E2 & Hn5 & VR & BR); [lia..|].
  destruct (copy_reason_ok (reason book) n5) as (n6 & why & Ew & Hn6 & Vw & Fw).
  assert (∃ asks, (if in_list (vb_transforms vb) "kalshi_complement_bid" then at_key (list_to_map (map (λ sp : string * SideParts, (sp.1, sp_fills sp.2)) parts) : gmap string fills_of) "ask" else Ok []) = Ok asks ∧
    count_levels asks = if in_list (vb_transforms vb) "kalshi_complement_bid" then value_levels (ref_side (L' "ask"%string)) else 0) as (asks & Easks & Vasks).
  { destruct (in_list (vb_transforms vb) "kalshi_complement_bid") eqn:E; [|by exists []]. apply in_list_elem in E.
    destruct (parts_fills_find _ _ _ _ _ Hfst Hparts "ask" ltac:(by apply (bo_bid Hvb))) as (p & Ep & Hp & _). exists (sp_fills p).
    unfold at_key. rewrite Ep. split; [done|]. by rewrite count_values, (po_fills _ _ _ _ Hp). }
  eexists n6, _. split_and!.
  - unfold build. apply stbind_ok. exists n1, parts. split; [exact Eparts|]. cbv zeta. apply stbind_ok. exists n2, ta. split; [exact Ea|].
    apply stbind_ok. exists n3, tb. split; [exact Eb|]. apply stbind_ok. exists n3, asks. split; [unfold liftR; by rewrite Easks|].
    apply stbind_ok. exists n4, R1. split; [exact E1|]. apply stbind_ok. exists n5, R. split; [exact E2|].
    apply stbind_ok. exists n6, why. split; [exact Ew|reflexivity].
  - lia.
  - eapply finished_prior; try done; lia.
  - eapply finished_value; try done. by rewrite (parts_levels _ _ _ _ _ Hfst Hparts), Vasks, ladder_count, VR.
  - intros v0 Hv0. eapply finished_inherits; first [done|lia|by apply Hprior].
Qed.
End Builder.
