(* ===== verification/ViewsCuts.v ===== *)
(** * Views along accepted cuts ([src/replay/economic_sdk/views.py], [runtime.py])

    The runtime refreshes a book's view after each accepted cut from the prior view and the
    sides the cut touched.  The view it carries is at every moment the view a full build
    of the decoder's current book would give. *)
From stdpp Require Import gmap strings.
From S2P Require Import Prelude Wire EconomicFills BookProtocol Decoder FillChecks Views ViewsProps.

(** ** The refresh of one view *)

(** The builds of [Runtime.__call__] for the book [bk]: one per accepted cut that names it. *)
Fixpoint follow (vb : ViewBuilder) (bk : book_key) (cuts : list (Z * json)) (d : Decoder) (v : BookView) : ST Z BookView :=
  match cuts with
  | [] => mret v
  | (time, body) :: cuts =>
      let (d', r) := cut body d in
      _ ← liftR r;
      changed ← liftR (touched_sides body);
      v ← (match changed !! bk, books d' !! bk with
           | None, _ => mret v
           | Some sides, Some book => build vb book time (Some v) sides
           | Some _, None => liftR (Err KeyError)
           end);
      follow vb bk cuts d' v
  end.

(** ** Operations and what they touch *)

(** The ladders [mm] and [mm'] differ only at prices no better than those of [ss]. *)
Definition covered (ss : gmap string Z) (mm mm' : sided ladder) : Prop :=
  ∀ s q, sget s mm !! q ≠ sget s mm' !! q → ∃ p, ss !! side_name s = Some p ∧ ahead s p q = true.
(** [ss'] touches at least what [ss] does. *)
Definition grows (ss ss' : gmap string Z) : Prop :=
  ∀ s p, ss !! side_name s = Some p → ∃ p', ss' !! side_name s = Some p' ∧ ahead s p' p = true.

Lemma ahead_refl s p : ahead s p p = true.
Proof. by destruct (ahead_total s p p). Qed.
Lemma side_name_inj s s' : side_name s = side_name s' → s = s'.
Proof. by destruct s, s'. Qed.

Lemma covered_trans ss ss' mm mm1 mm2 : covered ss mm mm1 → grows ss ss' → covered ss' mm1 mm2 → covered ss' mm mm2.
Proof.
  intros H1 Hg H2 s q Hne. destruct (decide (sget s mm !! q = sget s mm1 !! q)) as [E|Hne1].
  - apply H2. congruence.
  - destruct (H1 s q Hne1) as (p & Ep & Hp). destruct (Hg s p Ep) as (p' & Ep' & Hp'). exists p'. split; [done|]. by eapply ahead_trans.
Qed.
Lemma covered_refl ss mm : covered ss mm mm.
Proof. by intros s q. Qed.

Lemma touch_grows s p ss : grows ss (touch (side_name s) p ss) ∧ ∃ p', touch (side_name s) p ss !! side_name s = Some p' ∧ ahead s p' p = true.
Proof.
  unfold touch. destruct (ss !! side_name s) as [prior|] eqn:E.
  - destruct (if String.eqb (side_name s) "bid" then prior <? p else p <? prior) eqn:Eb.
    + split; [|exists p; rewrite lookup_insert_eq; by rewrite ahead_refl].
      intros s' p' Hs'. destruct (decide (s' = s)) as [->|Hne].
      * exists p. rewrite lookup_insert_eq. split; [done|]. destruct s; simpl in *; apply Z.ltb_lt in Eb; apply Z.leb_le; rewrite E in Hs'; injection Hs'; lia.
      * exists p'. rewrite lookup_insert_ne by (intros ?%side_name_inj; congruence). by rewrite ahead_refl.
    + split; [intros s' p' Hs'; exists p'; by rewrite ahead_refl|]. exists prior. split; [done|]. destruct s; simpl in *; apply Z.ltb_ge in Eb; apply Z.leb_le; lia.
  - split; [|exists p; rewrite lookup_insert_eq; by rewrite ahead_refl].
    intros s' p' Hs'. exists p'. rewrite lookup_insert_ne by congruence. by rewrite ahead_refl.
Qed.

(** Only the named price of the named side changes. *)
Lemma spec_operation_local lim mm op mm' s p price atoms :
  spec_operation lim mm op = Ok mm' → jget op "side" = Ok (JStr (side_name s)) →
  jget op "price" = Ok price → jget price "atoms" = Ok atoms → py_int atoms = Ok p →
  ∀ s' q, sget s' mm !! q ≠ sget s' mm' !! q → s' = s ∧ q = p.
Proof.
  intros E H1 H2 H3 H4 s' q. unfold spec_operation in E. rewrite H1 in E. cbn [mbind result_bind] in E.
  assert (op_side (JStr (side_name s)) = Ok s) as Hs by by destruct s. rewrite Hs in E. cbn [mbind result_bind] in E.
  rewrite H2 in E. cbn [mbind result_bind] in E. rewrite H3 in E. cbn [mbind result_bind] in E. rewrite H4 in E. cbn [mbind result_bind] in E.
  destruct (require _ _); [|done]. cbn [mbind result_bind] in E. destruct (jget op "change") as [change|]; [|done]. cbn [mbind result_bind] in E.
  destruct (new_quantity _ _) as [new|]; [|done]. cbn [mbind result_bind] in E. destruct (0 <? new).
  - injection E as <-. rewrite sget_sset. destruct (decide (s' = s)) as [->|]; [|done]. destruct (decide (q = p)) as [->|]; [done|].
    by rewrite lookup_insert_ne.
  - destruct (require _ _); [|done]. injection E as <-. rewrite sget_sset. destruct (decide (s' = s)) as [->|]; [|done]. destruct (decide (q = p)) as [->|]; [done|].
    by rewrite lookup_delete_ne.
Qed.

Lemma operation_touches op b b' u :
  operation op b = (b', Ok u) →
  ∃ s p, (∀ ss, touch_operation ss op = Ok (touch (side_name s) p ss)) ∧
    ∀ mm, rep b mm → is_Some (quantities b) → ∃ mm', rep b' mm' ∧ is_Some (quantities b') ∧ validity b' = validity b ∧ ∀ ss, covered (touch (side_name s) p ss) mm mm'.
Proof.
  intros E. pose proof E as E0. unfold operation in E. res_inv.
  match goal with H : op_side ?v = Ok ?t, H' : py_int ?a = Ok ?c |- _ => rename H into Hs, H' into Hp, v into sv, t into s, c into p end.
  exists s, p. assert (sv = JStr (side_name s)) as ->.
  { destruct sv as [| | | | | |name| |]; try discriminate. simpl in Hs. unfold side_of in Hs.
    destruct (String.eqb_spec name "bid") as [->|]; [by injection Hs as <-|]. destruct (String.eqb_spec name "ask") as [->|]; [by injection Hs as <-|done]. }
  split.
  - intros ss. unfold touch_operation.
    repeat (match goal with H : jget _ _ = Ok _ |- context [jget _ _] => rewrite H; clear H; cbn [mbind result_bind] end). by rewrite Hp.
  - intros mm Hr Hq. destruct (operation_simulates b mm op Hr Hq) as (Hh & Hq' & Hsim). rewrite E0 in *. simpl in *.
    destruct (spec_operation _ _ _) as [mm'|] eqn:Es; [|by destruct Hsim]. destruct Hsim as [_ Hr']. exists mm'. split_and!; [done|done|by injection Hh|].
    intros ss s' q Hne. 
    match goal with H1 : jget op "side" = _, H2 : jget op "price" = Ok ?pr, H3 : jget ?pr "atoms" = Ok _ |- _ =>
      destruct (spec_operation_local _ _ _ _ _ _ _ _ Es H1 H2 H3 Hp s' q Hne) as [-> ->] end. by apply touch_grows.
Qed.

Lemma operations_touch ops b b' u :
  operations ops b = (b', Ok u) →
  ∃ rows, py_iter ops = Ok rows ∧ ∀ ss, ∃ ss', foldR touch_operation ss rows = Ok ss' ∧ grows ss ss' ∧
    ∀ mm, rep b mm → is_Some (quantities b) → ∃ mm', rep b' mm' ∧ is_Some (quantities b') ∧ validity b' = validity b ∧ covered ss' mm mm'.
Proof.
  intros E. unfold operations in E. apply stbind_ok in E as (? & rows & [-> Hrows]%liftR_ok & E). exists rows. split; [done|].
  clear Hrows. revert b E. induction rows as [|op rows IH]; intros b E ss; simpl in E.
  - apply mretS_ok in E as [-> _]. exists ss. split_and!; [done|intros s p Hp; exists p; by rewrite ahead_refl|].
    intros mm Hr Hq. exists mm. split_and!; [done..|]. apply covered_refl.
  - apply stbind_ok in E as (b1 & u1 & E1 & E). destruct (operation_touches _ _ _ _ E1) as (s & p & Ht & Hm).
    destruct (IH b1 E (touch (side_name s) p ss)) as (ss' & Ef & Hg & Hm'). exists ss'. simpl. rewrite Ht. split_and!; [done| |].
    + intros s' p' Hp'. destruct (proj1 (touch_grows s p ss) s' p' Hp') as (p1 & Hp1 & Ha1). destruct (Hg s' p1 Hp1) as (p2 & Hp2 & Ha2).
      exists p2. split; [done|]. by eapply ahead_trans.
    + intros mm Hr Hq. destruct (Hm mm Hr Hq) as (mm1 & Hr1 & Hq1 & Hv1 & Hc1). destruct (Hm' mm1 Hr1 Hq1) as (mm2 & Hr2 & Hq2 & Hv2 & Hc2).
      exists mm2. split_and!; [done|done|congruence|]. eapply covered_trans; [apply (Hc1 ss)|exact Hg|exact Hc2].
Qed.

(** ** Transitions and what they touch *)

(** How far a book came from [b0], as [touched] tells it. *)
Definition known (t : option (option (gmap string Z))) (b0 b : Book) : Prop :=
  match t with
  | None => b = b0
  | Some None => True
  | Some (Some ss) => validity b0 = "usable"%string ∧ validity b = "usable"%string ∧
      ∃ mm mm', rep b0 mm ∧ rep b mm' ∧ covered ss mm mm'
  end.

(** What a transition touches, from what the decoder did. *)
Lemma decide_book_touches t origin n b b' u d kind :
  decide_book t origin n b = (b', Ok u) → jget t "decision" = Ok d → jget d "kind" = Ok kind → jeq_str kind "operations" = true →
  validity b = "usable"%string ∧ ∃ ops rows, jget d "operations" = Ok ops ∧ py_iter ops = Ok rows ∧
    ∀ ss, ∃ ss', foldR touch_operation ss rows = Ok ss' ∧ grows ss ss' ∧
      ∀ mm, rep b mm → is_Some (quantities b) → ∃ mm', rep b' mm' ∧ validity b' = "usable"%string ∧ covered ss' mm mm'.
Proof.
  intros H Hd Hk Eop. unfold decide_book in H. res_inv.
  match goal with H : jget t "decision" = Ok ?x |- _ => rewrite Hd in H; injection H as <- end.
  match goal with H : jget d "kind" = Ok ?x |- _ => rewrite Hk in H; injection H as <- end.
  rewrite Eop in *. res_inv.
  match goal with H : jget d "operations" = Ok ?x, H' : operations ?x b = _, H'' : String.eqb _ _ = true |- _ =>
    apply String.eqb_eq in H''; rename H into Ho, H' into Hops, x into ops, H'' into Hu end.
  split; [done|]. destruct (operations_touch _ _ _ _ Hops) as (rows & Hrows & Hf). exists ops, rows. split_and!; [done..|].
  intros ss. destruct (Hf ss) as (ss' & Ef & Hg & Hm). exists ss'. split_and!; [done..|]. intros mm Hr Hq.
  destruct (Hm mm Hr Hq) as (mm' & Hr' & _ & Hv & Hc). exists mm'. split_and!; [done|congruence|done].
Qed.

Lemma transition_touches origin t d d' u bk b b0 :
  transition origin t d = (d', Ok u) → books d !! bk = Some b → book_inv b → (addressed bk t = true → published (limit b) t) →
  ∃ b', books d' !! bk = Some b' ∧ book_inv b' ∧ limit b' = limit b ∧
    ∀ result, known (result !! bk) b0 b → ∃ result', touch_transition result t = Ok result' ∧ known (result' !! bk) b0 b'.
Proof.
  intros H Hb Hi Hpub. unfold transition in H. res_inv.
  match goal with H : get_book _ _ _ = Ok ?f |- _ => rename H into Hg; destruct f as [[bk' b1]|] end;
    [|res_inv; done]. res_inv.
  match goal with H : jget t "key" = Ok ?k, H1 : jget ?k "instrument" = Ok ?i, H2 : jget ?k "orientation" = Ok ?o |- _ =>
    rename H into Hk, H1 into Hki, H2 into Hko, i into vi, o into vo end.
  assert (∃ i o, vi = JStr i ∧ vo = JStr o ∧ bk' = (i, o) ∧ books d !! bk' = Some b1) as (i & o & -> & -> & -> & Hb1).
  { destruct vi as [| | | | | |i| |], vo as [| | | | | |o| |]; simpl in Hg; try discriminate.
    destruct (books d !! (i, o)) as [b'|] eqn:E; [|discriminate]. injection Hg as <- <-. eauto 10. }
  match goal with H : zoomS _ _ _ _ = _ |- _ => rename H into Hz end.
  unfold zoomS in Hz. rewrite Hb1 in Hz. simpl in Hz. destruct (decide_book _ _ _ b1) as [b1' r1] eqn:Ed. injection Hz as <- ->.
  assert (∃ dec kind, jget t "decision" = Ok dec ∧ jget dec "kind" = Ok kind) as (dec & kind & Hdec & Hkind).
  { unfold decide_book in Ed. res_inv. eauto. }
  pose proof (decide_book_ok _ _ _ _ _ _ Ed) as (_ & Hlim & Hinv).
  assert (∀ result, ∃ r', touch_transition result t = Ok (<[(i, o) := r']> result) ∧
    (bk = (i, o) → known (result !! bk) b0 b1 → known (Some r') b0 b1')) as Htouch.
  { intros result. unfold touch_transition. rewrite Hk. cbn [mbind result_bind]. rewrite Hki. cbn [mbind result_bind]. rewrite Hko. cbn [mbind result_bind].
    rewrite Hdec. cbn [mbind result_bind]. rewrite Hkind. cbn [mbind result_bind].
    destruct (negb (jeq_str kind "operations") || _) eqn:Eb; [by exists None|]. apply orb_false_iff in Eb as [Eop%negb_false_iff Enone].
    destruct (decide_book_touches _ _ _ _ _ _ _ _ Ed Hdec Hkind Eop) as (Hu & ops & rows & Hops & Hrows & Hf).
    rewrite Hops. cbn [mbind result_bind]. rewrite Hrows. cbn [mbind result_bind].
    destruct (Hf (default ∅ (mjoin (result !! (i, o))))) as (ss' & Ef & Hg' & Hm). rewrite Ef. cbn [mbind result_bind]. exists (Some ss'). split; [done|].
    intros ->. rewrite Hb in Hb1. injection Hb1 as ->. destruct Hi as [[mm Hr] Hq]. specialize (Hq Hu).
    destruct (result !! (i, o)) as [[ss|]|]; simpl in *; [|done|].
    - intros (Hu0 & _ & m0 & mm1 & Hr0 & Hr1 & Hc). destruct (Hm mm1 Hr1 Hq) as (mm' & Hr' & Hv & Hc').
      split_and!; [done|done|]. exists m0, mm'. split_and!; [done|done|]. by eapply covered_trans.
    - intros ->. destruct (Hm mm Hr Hq) as (mm' & Hr' & Hv & Hc'). split_and!; [done|done|]. by exists mm, mm'. }
  destruct (decide (bk = (i, o))) as [->|Hne].
  - rewrite Hb in Hb1. injection Hb1 as ->. exists b1'. simpl. rewrite lookup_insert_eq. split_and!; [done| |done|].
    + apply Hinv; [|done]. apply Hpub. unfold addressed. rewrite Hk, Hki, Hko. simpl. by rewrite !String.eqb_refl.
    + intros result Hkn. destruct (Htouch result) as (r' & E & H'). eexists. split; [exact E|]. rewrite lookup_insert_eq. by apply H'.
  - exists b. simpl. rewrite lookup_insert_ne by done. split_and!; [done..|]. intros result Hkn. destruct (Htouch result) as (r' & E & _).
    eexists. split; [exact E|]. by rewrite lookup_insert_ne.
Qed.

Lemma cut_touches body d d' u bk b :
  cut body d = (d', Ok u) → books d !! bk = Some b → book_inv b → Forall (published (limit b)) (transitions_for bk body) →
  ∃ b' changed, books d' !! bk = Some b' ∧ book_inv b' ∧ limit b' = limit b ∧ touched_sides body = Ok changed ∧ known (changed !! bk) b b'.
Proof.
  intros H Hb Hi Hpub. unfold cut in H. unfold touched_sides, transitions_for in *. res_inv.
  match goal with H : jget body "book_transitions" = Ok _, H' : py_iter _ = Ok ?l |- _ =>
    rewrite H in *; cbn [mbind result_bind] in *; rewrite H' in *; cbn [mbind result_bind]; clear H' H; rename l into rows end.
  match goal with H : forS (transition ?og) _ _ = _ |- _ => rename og into origin end.
  assert (∀ (b1 : Book) d (result : touched), books d !! bk = Some b1 → book_inv b1 → limit b1 = limit b → known (result !! bk) b b1 → forS (transition origin) rows d = (d', Ok u) →
    ∃ b' changed, books d' !! bk = Some b' ∧ book_inv b' ∧ limit b' = limit b ∧ foldR touch_transition result rows = Ok changed ∧ known (changed !! bk) b b') as Hgen.
  2: { eapply Hgen; try done. }
  clear Hb Hi H d. induction rows as [|t rows IH]; intros b1 d result Hb Hi Hl Hkn H; simpl in H.
  - apply mretS_ok in H as [-> _]. by exists b1, result.
  - apply stbind_ok in H as (d1 & u1 & Ht & H). rewrite filter_cons in Hpub.
    destruct (transition_touches _ _ _ _ _ _ _ b Ht Hb Hi) as (b2 & Hb2 & Hi2 & Hl2 & Htouch).
    { intros Ha. rewrite decide_True in Hpub by done. apply Forall_cons in Hpub as [Hp _]. by rewrite Hl. }
    destruct (Htouch result Hkn) as (result' & E & Hkn'). simpl. rewrite E. cbn [mbind result_bind].
    eapply IH; try done; [|congruence]. destruct (decide _); [by apply Forall_cons in Hpub as [_ ?]|done].
Qed.

(** ** The view along cuts *)
Section Follow.
Context (vb : ViewBuilder) (Hvb : builder_ok vb) (bk : book_key).

(** The levels a book shows. *)
Definition book_levels (b : Book) (side : string) : list level := match levels b side None with Ok l => l | Err _ => [] end.

Lemma side_named side : side = "bid"%string ∨ side = "ask"%string → ∃ s, side = side_name s.
Proof. intros [-> | ->]; [by exists Bid|by exists Ask]. Qed.

Lemma levels_usable b mm s : rep b mm → validity b = "usable"%string → is_Some (quantities b) → book_levels b (side_name s) = ladder_levels s (sget s mm).
Proof. intros Hr Hu Hq. unfold book_levels. by rewrite (levels_rep b mm s None). Qed.

Lemma ladder_levels_ok s lim (m : ladder) : ladder_ok lim m → Forall level_ok (ladder_levels s m).
Proof.
  intros Hm. apply Forall_forall. intros lv (p & -> & Hp)%list_elem_of_fmap. apply sorted_prices_elem, elem_of_dom in Hp as [v Hv].
  rewrite Hv. destruct (Hm _ _ Hv). split; simpl; lia.
Qed.

Lemma levels_shown b side : book_inv b → side ∈ vb_sides vb → levels b side None = Ok (book_levels b side) ∧ Forall level_ok (book_levels b side).
Proof.
  intros [[mm Hr] Hq] Hs. destruct (side_named side) as [s ->]; [by apply (bo_names vb Hvb)|].
  destruct (decide (validity b = "usable"%string)) as [Hu|Hu].
  - specialize (Hq Hu). rewrite (levels_usable b mm s) by done. split; [by rewrite (levels_rep b mm s None)|].
    apply (ladder_levels_ok s (limit b)). apply Hr.
  - assert (levels b (side_name s) None = Ok []) as E; [|unfold book_levels; by rewrite E].
    unfold levels. assert (side_of (side_name s) = Some s) as -> by (by destruct s). cbn [mbind result_bind require]. by apply String.eqb_neq in Hu as ->.
Qed.

Lemma known_unaffected ss b b' side : book_inv b → book_inv b' → known (Some (Some ss)) b b' → side ∈ vb_sides vb → unaffected (book_levels b) (book_levels b') ss side.
Proof.
  intros [_ Hq] [_ Hq'] (Hu & Hu' & mm & mm' & Hr & Hr' & Hc) Hs. destruct (side_named side) as [s ->]; [by apply (bo_names vb Hvb)|].
  unfold unaffected. destruct (ss !! side_name s) as [p|] eqn:E.
  - exists s, (sget s mm), (sget s mm'), (limit b), (limit b'). rewrite (levels_usable b mm s), (levels_usable b' mm' s) by auto.
    split_and!; [done..|apply Hr|apply Hr'|]. intros q Hne. destruct (Hc s q Hne) as (p' & Ep & Hp). congruence.
  - rewrite (levels_usable b mm s), (levels_usable b' mm' s) by auto. f_equal. apply map_eq. intros q.
    destruct (decide (sget s mm !! q = sget s mm' !! q)) as [|Hne]; [done|]. destruct (Hc s q Hne) as (p' & Ep & _). congruence.
Qed.

(** [v] shows exactly what [b] holds. *)
Definition current_view (b : Book) (n : Z) (v : BookView) : Prop :=
  prior_of vb (book_levels b) n v ∧ erase v = ref_view vb (book_levels b) b (last_change v).

Lemma full_build b time n : book_inv b →
  ∃ n' v, build vb b time None None n = (n', Ok v) ∧ current_view b n' v ∧ last_change v = time ∧ bv_validity v = validity b ∧ erase v = ref_view vb (book_levels b) b time.
Proof.
  intros Hi. destruct (build_exact vb Hvb b time None None (book_levels b) (book_levels b) n) as (n' & v & E & _ & Hp & Hv & _); [by intros; apply levels_shown|done..|].
  assert (last_change v = time ∧ bv_validity v = validity b) as [Ht Hva] by (split; [apply (f_equal vv_time) in Hv|apply (f_equal vv_validity) in Hv]; exact Hv).
  exists n', v. split_and!; try done. split; [done|]. by rewrite Ht.
Qed.

Lemma follow_current cuts : ∀ d d' u b v n,
  forS cut (map snd cuts) d = (d', Ok u) → books d !! bk = Some b → book_inv b →
  Forall (λ tb : Z * json, Forall (published (limit b)) (transitions_for bk tb.2)) cuts → current_view b n v →
  ∃ n' v' b', follow vb bk cuts d v n = (n', Ok v') ∧ books d' !! bk = Some b' ∧ book_inv b' ∧ current_view b' n' v'.
Proof.
  induction cuts as [|[time body] cuts IH]; intros d d' u b v n H Hb Hi Hpub Hv; simpl in H.
  - apply mretS_ok in H as [-> _]. by exists n, v, b.
  - apply stbind_ok in H as (d1 & u1 & Hcut & H). apply Forall_cons in Hpub as [Hp Hpub].
    destruct (cut_touches body d d1 u1 bk b Hcut Hb Hi Hp) as (b1 & changed & Hb1 & Hi1 & Hl1 & Htouched & Hkn).
    assert (∃ n1 v1, (match changed !! bk, books d1 !! bk with
      | None, _ => mret v | Some sides, Some book => build vb book time (Some v) sides | Some _, None => liftR (Err KeyError) end) n = (n1, Ok v1)
      ∧ current_view b1 n1 v1) as (n1 & v1 & E1 & Hv1).
    { destruct Hv as [Hprior Hval]. rewrite Hb1. destruct (changed !! bk) as [sides|].
      - destruct (build_exact vb Hvb b1 time (Some v) sides (book_levels b) (book_levels b1) n) as (n1 & v1 & E & _ & Hp1 & Hv1 & _).
        + by intros; apply levels_shown.
        + by intros ? [= <-].
        + intros v0 ts side [= <-] -> Hu1 Hu Hs. by apply (known_unaffected ts b b1 side).
        + exists n1, v1. split; [done|]. split; [done|]. assert (last_change v1 = time) as -> by (apply (f_equal vv_time) in Hv1; exact Hv1). done.
      - simpl in Hkn. subst b1. by exists n, v. }
    destruct (IH d1 d' u b1 v1 n1 H Hb1 Hi1) as (n' & v' & b' & E' & Hrest); [|done|].
    { by rewrite Hl1. }
    exists n', v', b'. split; [|done]. cbn [follow]. rewrite Hcut. apply stbind_ok. exists n, u1. split; [done|].
    apply stbind_ok. exists n, changed. split; [unfold liftR; by rewrite Htouched|]. apply stbind_ok. exists n1, v1. by split.
Qed.

(** C4. A view maintained incrementally is the full view: starting from a full build of a
    book and refreshed after every accepted cut from the prior view and the sides the cut
    touched, reusing whole sides, fills, best quotes, ladders and transforms, the view has
    at the end exactly the values (fills of every size, presence, best quotes, complements,
    retained ladders and work count) that a build from scratch of the decoder's book gives,
    and no refresh ever fails. *)
Theorem incremental_view_is_full cuts d d' b t0 n :
  forS cut (map snd cuts) d = (d', Ok ()) → books d !! bk = Some b → book_inv b →
  Forall (λ tb : Z * json, Forall (published (limit b)) (transitions_for bk tb.2)) cuts →
  ∃ n0 v n1 v1 b', build vb b t0 None None n = (n0, Ok v) ∧ follow vb bk cuts d v n0 = (n1, Ok v1) ∧ books d' !! bk = Some b' ∧
    ∀ m, ∃ m' w, build vb b' (last_change v1) None None m = (m', Ok w) ∧ erase v1 = erase w.
Proof.
  intros H Hb Hi Hpub. destruct (full_build b t0 n Hi) as (n0 & v & E & Hv & _).
  destruct (follow_current cuts d d' () b v n0 H Hb Hi Hpub Hv) as (n1 & v1 & b' & E1 & Hb' & Hi' & [_ Hv1]).
  exists n0, v, n1, v1, b'. split_and!; [done..|]. intros m. destruct (full_build b' (last_change v1) m Hi') as (m' & w & Ew & _ & _ & _ & Hw).
  exists m', w. split; [done|]. by rewrite Hv1, Hw.
Qed.
End Follow.

(** ** Builders *)

(** The rest of [builder_ok] is the requirement's: distinct sides, increasing positive
    sizes, and the side each transform reads. *)
Lemma make_builder_ok sides sizes transforms ladders price_scale quantity_scale vb :
  make_builder sides sizes transforms ladders price_scale quantity_scale = Ok vb → 0 ≤ quantity_scale →
  NoDup sides → (∀ side, side ∈ sides → side = "bid"%string ∨ side = "ask"%string) → sizes_ok sizes = true →
  ("kalshi_complement_ask"%string ∈ transforms → "bid"%string ∈ sides) → ("kalshi_complement_bid"%string ∈ transforms → "ask"%string ∈ sides) →
  builder_ok vb.
Proof.
  intros H Hq Hnd Hnames Hsizes Hask Hbid. unfold make_builder in H. res_inv.
  match goal with H : mapR _ ladders = Ok ?x |- _ => rename H into Hl, x into ls end.
  assert (∀ source s, source ∈ ladders → ladder_side source = Some s → s ∈ ls) as Hls.
  { clear -Hl. revert ls Hl. induction ladders as [|l ladders IH]; intros ls Hl; simpl in Hl; res_inv; intros source s Hs E; [by apply not_elem_of_nil in Hs|].
    apply elem_of_cons in Hs as [->|Hs]; [|right; by eapply IH]. rewrite E in *. res_inv. left. }
  assert (sizes_ok (map (λ size, size * 10 ^ quantity_scale) sizes) = true ∧ NoDup sizes) as [Hat Hnds].
  { unfold sizes_ok in *. pose proof (Z.pow_pos_nonneg 10 quantity_scale ltac:(lia) Hq) as Hu. destruct sizes as [|s0 sizes]; [done|].
    apply andb_true_iff in Hsizes as [Hpos Hinc]. split; [|by apply increasing_nodup]. apply andb_true_iff. split.
    - rewrite forallb_forall in *. intros y (x & <- & Hx%Hpos%Z.ltb_lt)%in_map_iff. apply Z.ltb_lt. nia.
    - clear Hpos. revert s0 Hinc. induction sizes as [|s1 sizes IH]; intros s0 Hinc; [done|]. simpl in *.
      apply andb_true_iff in Hinc as [Hlt%Z.ltb_lt Hinc]. apply andb_true_iff. split; [apply Z.ltb_lt; nia|by apply IH]. }
  split; cbn; try done.
  - by rewrite length_map.
  - intros side Hs. match goal with H : forallb (in_list sides) ls = true |- _ => rewrite forallb_forall in H; apply in_list_elem, H; by apply list_elem_of_In end.
  - intros Hin. by apply (Hls _ _ Hin).
  - intros Hin. by apply (Hls _ _ Hin).
Qed.

(** Two cuts: one of [demo_ops], one that touches only an ask no fill consumed. *)
Definition demo_vb : result ViewBuilder := make_builder ["bid"; "ask"]%string [1; 4] ["kalshi_complement_ask"]%string ["bid"; "kalshi_complement_ask"]%string 2 0.
Definition demo_bk : book_key := ("kalshi:A", "outcome")%string.
Definition demo_far : json := JObj [("kind", JStr "operations"); ("operations", JArr [wire_op "ask" "set" 99 (Some 10)])].
Definition demo_cuts : list (Z * json) :=
  [(7, demo_cut [demo_transition 0 demo_operations]); (9, demo_cut [demo_transition 1 demo_far])].
Definition demo_d : Decoder := set_books {[demo_bk := demo_book]} demo_decoder.

Lemma demo_vb_ok vb : demo_vb = Ok vb → builder_ok vb.
Proof.
  intros Evb. apply (make_builder_ok _ _ _ _ _ _ _ Evb); [lia| | |reflexivity|intros _; left|intros _; right; left].
  - apply (bool_decide_unpack _). vm_compute. exact I.
  - intros side. rewrite !elem_of_cons. intros [->|[->|?%not_elem_of_nil]]; [by left|by right|done].
Qed.
Lemma demo_book_inv : book_inv demo_book.
Proof. destruct demo_book_rep as [Hr Hq]; split; [by eexists|done]. Qed.

(** Only snapshots publish. *)
Lemma operations_published lim t :
  jeq_str (match (d ← jget t "decision"; jget d "kind") with Ok k => k | Err _ => JNull end) "operations" = true → published lim t.
Proof.
  intros H d k bids asks Hd Hk Hs. rewrite Hd in H. simpl in H. rewrite Hk in H. exfalso.
  destruct k; try discriminate H. simpl in H, Hs. apply String.eqb_eq in H as ->. discriminate Hs.
Qed.

Lemma incremental_view_is_full_witness :
  ∃ vb n0 v n1 v1 b', demo_vb = Ok vb ∧ build vb demo_book 5 None None 0 = (n0, Ok v) ∧
    follow vb demo_bk demo_cuts demo_d v n0 = (n1, Ok v1) ∧ books (forS cut (map snd demo_cuts) demo_d).1 !! demo_bk = Some b' ∧
    ∀ m, ∃ m' w, build vb b' (last_change v1) None None m = (m', Ok w) ∧ erase v1 = erase w.
Proof.
  destruct demo_vb as [vb|e] eqn:Evb; [|vm_compute in Evb; discriminate]. exists vb.
  pose proof (demo_vb_ok vb Evb) as Hvb.
  pose proof demo_book_inv as Hi.
  assert (forS cut (map snd demo_cuts) demo_d = ((forS cut (map snd demo_cuts) demo_d).1, Ok ())) as Ecut.
  { destruct (forS cut (map snd demo_cuts) demo_d) as [d' r] eqn:E. simpl. f_equal. apply (f_equal snd) in E. simpl in E. rewrite <- E. vm_compute. reflexivity. }
  assert (∀ b, books (set_books {[demo_bk := b]} demo_decoder) !! demo_bk = Some b) as Hb by (intros b; cbn [set_books books]; apply lookup_singleton_eq).
  specialize (Hb demo_book). change (books demo_d !! demo_bk = Some demo_book) in Hb.
  destruct (incremental_view_is_full vb Hvb demo_bk demo_cuts demo_d _ demo_book 5 0 Ecut Hb Hi) as (n0 & v & n1 & v1 & b' & E0 & E1 & E2 & H).
  { assert (transitions_for demo_bk (demo_cut [demo_transition 0 demo_operations]) = [demo_transition 0 demo_operations]) as T1 by (vm_compute; reflexivity).
    assert (transitions_for demo_bk (demo_cut [demo_transition 1 demo_far]) = [demo_transition 1 demo_far]) as T2 by (vm_compute; reflexivity).
    apply Forall_cons. split; [|apply Forall_cons; split; [|apply Forall_nil_2]]; cbn [snd]; [rewrite T1|rewrite T2];
      (apply Forall_cons; split; [apply operations_published; reflexivity|apply Forall_nil_2]). }
  exists n0, v, n1, v1, b'. by split_and!.
Defined.
