(* ===== verification/Staging.v ===== *)
(** * Evaluation and staging ([src/replay/economic_sdk/runtime.py], lines 252-340 and 395-720)

    What happens to a cut before its observations are committed: views are refreshed, the
    entities the cut can affect are selected by what they declared to read, their
    observations are evaluated or reused from a memo that compares inputs by identity, and
    what is staged at one time is committed when time moves on.  Output layout 2, without
    time-shifted controls, game state and profiles, which leave these paths untouched. *)
From stdpp Require Import gmap strings sorting.
From S2P Require Import Prelude Order Wire Json EconomicFills BookProtocol FillChecks LineWriter EconomicTypes Intervals Episodes Views.

Abbreviation key := (string * string)%type.

(** ** Declared inputs *)

(** The [(kind, source, size)] of a plan. *)
Inductive input :=
| Fill_in (side : string) (size : option Z)
| Transform_in (name : string) (size : option Z)
| Best_in
| Crossed_in.

(** [_SOURCE_SIDES.get(source, frozenset((source,)))]. *)
Definition source_sides (source : string) : gset string :=
  if String.eqb source "best" || String.eqb source "crossed" then {["bid"; "ask"]}
  else if String.eqb source "kalshi_complement_ask" then {["bid"]}
  else if String.eqb source "kalshi_complement_bid" then {["ask"]}
  else {[source]}.

Definition is_transform (source : string) : bool :=
  String.eqb source "kalshi_complement_ask" || String.eqb source "kalshi_complement_bid".
Definition input_of (declared : string * option Z) : input :=
  let '(source, size) := declared in
  if String.eqb source "best" then Best_in
  else if String.eqb source "crossed" then Crossed_in
  else if is_transform source then Transform_in source size
  else Fill_in source size.

(** ** Fingerprints *)

(** The objects a declared input reads.  Validities are interned constants and booleans
    singletons, so that both compare by value; so does [None]. *)
Inductive part :=
| PFill (f : obj Fill)
| PBest (b : option (obj level))
| PCrossed (c : bool)
| PValidity (s : string)
| PReason (r : option (obj json)).

Definition is_opt {A} (a b : option (obj A)) : bool :=
  match a, b with Some a, Some b => is_ a b | None, None => true | _, _ => false end.
(** [is]: of two kinds of object only [None] is shared. *)
Definition is_part (a b : part) : bool :=
  match a, b with
  | PFill f, PFill g => is_ f g
  | PBest b, PBest c => is_opt b c
  | PCrossed b, PCrossed c => Bool.eqb b c
  | PValidity s, PValidity t => String.eqb s t
  | PReason r, PReason q => is_opt r q
  | PBest None, PReason None | PReason None, PBest None => true
  | _, _ => false
  end.

Definition sized_fill (m : gmap string fills_of) (name : string) (size : option Z) : result (obj Fill) :=
  fs ← at_key m name; match size with Some size => at_size fs size | None => Err KeyError end.

Definition input_parts (v : BookView) (i : input) : result (list part) :=
  match i with
  | Fill_in side size => f ← sized_fill (fills v) side size; Ok [PFill f]
  | Transform_in name size => f ← sized_fill (transformed v) name size; Ok [PFill f]
  | Crossed_in => Ok [PCrossed (view_crossed v)]
  | Best_in => Ok [PBest (best_bid v); PBest (best_ask v)]
  end.
Definition view_parts (v : BookView) (plan : list input) : result (list part) :=
  if String.eqb (bv_validity v) "usable" then ps ← mapR (input_parts v) plan; Ok (concat ps)
  else Ok [PValidity (bv_validity v); PReason (bv_reason v)].

(** [_fingerprint]. *)
Definition fingerprint (views : list BookView) (plan : list (list input)) : result (list part) :=
  ps ← mapR (λ vp, view_parts vp.1 vp.2) (zip2 views plan); Ok (concat ps).

(** [_same]. *)
Definition same (left right : list part) : bool := list_same is_part left right.

(** ** Costs ([bounds.py]) *)
Definition fill_cost (f : Fill) : Z := (Z.of_nat (length (taken f)) + Z.of_nat (length (consumed f))) * (PAIR + SLOT).
Definition part_cost (p : part) : Z :=
  SLOT + match p with
         | PFill f => FILL + fill_cost (it f)
         | PBest (Some _) => PAIR
         | PReason (Some r) => match it r with JObj _ => json_cost (it r) | JStr s => str_cost s | _ => 0 end
         | PValidity s => str_cost s
         | _ => 0
         end.
Definition fingerprint_cost (fp : list part) : Z := CONTAINER + sumZ (map part_cost fp).
Definition fills_cost (sizes levels : Z) : Z := sizes * (FILL + SLOT) + levels * (PAIR + SLOT).
Definition view_cost (v : BookView) (sizes : Z) : Z :=
  let sides := Z.of_nat (base.size (fills v)) + Z.of_nat (base.size (transformed v)) in
  VIEW + sides * CONTAINER + fills_cost (sides * sizes) (view_levels v)
  + match bv_reason v with Some r => json_cost (it r) | None => 0 end + 2 * PAIR
  + Z.of_nat (base.size (ladders v)) * (CONTAINER + SLOT).

(** ** Observations *)

(** [==] of two observations. *)
Definition same_observation (a b : Observation) : bool :=
  String.eqb (o_status a) (o_status b) && bool_decide (o_reasons a = o_reasons b) && bool_decide (o_class a = o_class b)
  && list_same json_same (o_fields a) (o_fields b) && bool_decide (o_predicates a = o_predicates b)
  && json_same (o_payload a) (o_payload b) && bool_decide (o_quotes a = o_quotes b)
  && bool_decide (o_skew_legs a = o_skew_legs b) && Bool.eqb (o_context_free a) (o_context_free b).

(** A staged or current value: an observation and, with a predicate, its skew. *)
Definition value := (obj Observation * option skew)%type.
(** [==] of two values: of tuples, whose items compare equal when identical. *)
Definition same_value (a b : value) : bool :=
  (is_ a.1 b.1 || same_observation (it a.1) (it b.1)) && bool_decide (a.2 = b.2).

Definition positive (o : Observation) : bool := negb (bool_decide (o_predicates o = ∅)).

(** [Context]; the experiment digest is a constant of the run. *)
Record EvalContext := mkContext { ctx_time : Z; ctx_sequence : Z; ctx_scope : Z }.

(** ** Skew *)
Fixpoint bucket (edges : list Z) (spread : Z) : Z :=
  match edges with
  | [] => 0
  | edge :: edges => if spread <? edge then 0 else 1 + bucket edges spread
  end.

Definition maximum (l : list Z) : result Z :=
  match l with [] => Err (ValueError "max() arg is an empty sequence") | a :: l => Ok (foldl Z.max a l) end.
Definition minimum (l : list Z) : result Z :=
  match l with [] => Err (ValueError "min() arg is an empty sequence") | a :: l => Ok (foldl Z.min a l) end.

(** [_skew], from the live views. *)
Definition skew_of (edges : list Z) (views : gmap key BookView) (keys : list key) (legs : list nat) : result skew :=
  keys ← (match legs with [] => Ok keys | _ => mapR (λ i, match keys !! i with Some k => Ok k | None => Err IndexError end) legs end);
  changes ← mapR (λ k, match views !! k with Some v => Ok (last_change v) | None => Err KeyError end) keys;
  spread ← (match changes with
            | [a; b] => Ok (let spread := a - b in if spread <? 0 then - spread else spread)
            | _ => a ← maximum changes; b ← minimum changes; Ok (a - b)
            end);
  Ok (spread, bucket edges spread).

(** ** The runtime *)
Section Runtime.
Context (dumps : json → list Byte.byte) (sha256 : list Byte.byte → string)
        (json_loads : string → result json).
Context {W : Type} `{RowWriter W} {O : Type} `{CompareLaws O}.
Context (x : Experiment).
Context (fill_value : Entity O → Z → valuation).
(** The strategy: the entities of a scope (its baskets and their controls), its evaluation
    of an entity over the views of its legs, its fill shape, and [bind]. *)
Context (resolve : Z → result (list (Entity O)))
        (strategy_evaluate : Entity O → list view_value → EvalContext → result Observation)
        (fill_spec : Entity O → result FillSpec) (bind : json → result ()).
(** One builder per required book, in key order, and the price scale of each plan. *)
Context (builders : list (key * ViewBuilder)) (price_scale : key → result Z).

Abbreviation Engine := (@Engine W O).

(** The views of the live books and the next free address. *)
Record Shown := mkShown { next : Z; book_views : gmap key BookView; view_costs : gmap key Z }.
(** What [_scope] derives from the entities. *)
Record Tables := mkTables {
  plans_of : gmap string (list (list input)); reads : gmap (string * key) (gset string); reverse : gmap key (gset string);
  entities_cost : Z; fill_specs_cost : Z;
}.
Record Stage := mkStage {
  memo : gmap string (list part * obj Observation * Z);
  current : gmap string value;
  staged_time : option Z; staged : list (string * (value * Z));  (* in insertion order *)
  instantaneous : gmap string Z;
}.
Record Control := mkControl { clock : CutClock; sequence : Z; bound : bool; terminal : bool; poisoned : bool }.
Record Runtime := mkRuntime { engine : Engine; shown : Shown; tables : Tables; stage : Stage; control : Control }.

Definition set_engine v r := mkRuntime v (shown r) (tables r) (stage r) (control r).
Definition set_shown v r := mkRuntime (engine r) v (tables r) (stage r) (control r).
Definition set_tables v r := mkRuntime (engine r) (shown r) v (stage r) (control r).
Definition set_stage v r := mkRuntime (engine r) (shown r) (tables r) v (control r).
Definition set_control v r := mkRuntime (engine r) (shown r) (tables r) (stage r) v.

Definition set_memo v s := mkStage v (current s) (staged_time s) (staged s) (instantaneous s).
Definition set_current v s := mkStage (memo s) v (staged_time s) (staged s) (instantaneous s).
Definition set_staged_time v s := mkStage (memo s) (current s) v (staged s) (instantaneous s).
Definition set_staged v s := mkStage (memo s) (current s) (staged_time s) v (instantaneous s).
Definition set_instantaneous v s := mkStage (memo s) (current s) (staged_time s) (staged s) v.

Abbreviation R := (ST Runtime).
Definition on_engine {A} (m : ST Engine A) : R A := zoomS engine set_engine m.
Definition on_stage (f : Stage → Stage) : R () := modifyS (λ r, set_stage (f (stage r)) r).
Definition on_control {A} (m : ST Control A) : R A := zoomS control set_control m.
Definition on_clock {A} (m : ST CutClock A) : R A :=
  on_control (zoomS clock (λ c s, mkControl c (sequence s) (bound s) (terminal s) (poisoned s)) m).
Definition on_next {A} (m : ST Z A) : R A :=
  zoomS (λ r, next (shown r)) (λ n r, set_shown (mkShown n (book_views (shown r)) (view_costs (shown r))) r) m.
Definition get {K A} `{Countable K} (m : Runtime → gmap K A) (k : K) : R A :=
  r ← getS; match m r !! k with Some a => mret a | None => liftR (Err KeyError) end.

Definition entities_of (r : Runtime) : gmap string (Entity O) := entities (engine r).

(** *** Views *)

(** What fill checks read of a view. *)
Definition fill_view_of (v : BookView) : fill_view :=
  FillView (bv_validity v) (match bv_reason v with Some r => it r | None => JNull end) (view_crossed v) (it <$> ladders v).

Definition set_views (k : key) (v : fill_view) (eps : gmap key Z) (e : Engine) : Engine :=
  mkEngine (Episodes.scope e) (entities e) (index e) (fill_specs e) (<[k := v]> (views e)) eps (game e) (budget e) (writers e)
    (open_measurements e) (denominators e) (denominator_cost e) (reasons e) (reason_list e) (episodes e) (episode_rows e)
    (fill_state e) (fill_ns e).

(** Whether a ladder is not the prior view's object. *)
Definition ladders_moved (prior : option BookView) (v : BookView) : bool :=
  match prior with
  | None => true
  | Some p => existsb (λ kl : string * obj (list level), match ladders p !! kl.1 with Some l => negb (is_ kl.2 l) | None => true end)
                (map_to_list (ladders v))
  end.

(** [_set_view]. *)
Definition set_view (k : key) (sizes : list Z) (v : BookView) : R () :=
  r ← getS;
  let eps := epochs (engine r) in
  let eps := if bool_decide (is_Some (EconomicTypes.fills x)) && negb (bool_decide (ladders v = ∅)) && ladders_moved (book_views (shown r) !! k) v
             then <[k := default 0 (eps !! k) + 1]> eps else eps in
  let cost := view_cost v (Z.of_nat (length sizes)) in
  _ ← on_engine (replace (default 0 (view_costs (shown r) !! k)) cost);
  _ ← on_engine (modifyS (set_views k (fill_view_of v) eps));
  modifyS (λ r, set_shown (mkShown (next (shown r)) (<[k := v]> (book_views (shown r))) (<[k := cost]> (view_costs (shown r)))) r).

(** [_views]. *)
Definition views_for (en : Entity O) : R (list BookView) := mapS (get (λ r, book_views (shown r))) (en_legs en).

Definition input_fingerprint (id : string) : R (list part) :=
  en ← get entities_of id;
  vs ← views_for en;
  plan ← get (λ r, plans_of (tables r)) id;
  liftR (fingerprint vs plan).

Definition live_skew (en : Entity O) (o : Observation) : R skew :=
  r ← getS; liftR (skew_of (skew_edges x) (book_views (shown r)) (en_legs en) (o_skew_legs o)).

(** *** Evaluation *)

(** [_fresh]: what the strategy returned, checked. *)
Definition check_observation (o : Observation) : result () :=
  _ ← require (in_list (statuses x) (o_status o)) "observation status";
  _ ← require (bool_decide (length (o_fields o) = length (measurement_fields x))) "observation fields";
  _ ← require (Bool.eqb (bool_decide (is_Some (o_class o))) (String.eqb (o_status o) EVALUATED)
               && bool_decide (is_Some (kind_classes x (o_class o)))) "observation value class";
  _ ← require (bool_decide (kind_classes x (o_class o) = Some (o_predicates o))) "observation predicates contradict the declared class map";
  if positive o then
    _ ← require (negb (is_none (o_payload o)) && bool_decide (is_Some (o_quotes o))) "episode observation payload";
    require (forallb (λ leg, Z.of_nat (length leg) <=? MAX_CONSUMED_LEVELS) (default [] (o_quotes o))) "consumed levels per slice"
  else Ok ().

Definition fresh (en : Entity O) (vs : list BookView) : R (obj Observation) :=
  r ← getS;
  time ← liftR (match staged_time (stage r) with Some t => Ok t | None => Err (TypeError "NoneType") end);
  o ← liftR (strategy_evaluate en (map erase vs) (mkContext time (sequence (control r)) (Episodes.scope (engine r))));
  _ ← liftR (check_observation o);
  on_next (alloc o).

Definition set_memo_of (id : string) (m : option (list part * obj Observation * Z)) : R () :=
  on_stage (λ s, set_memo (partial_alter (λ _, m) id (memo s)) s).

(** A context-free observation is kept for the inputs it was derived from. *)
Definition retain_memo (id : string) (fp : list part) (o : obj Observation) (prior : option (list part * obj Observation * Z)) : R () :=
  let old := match prior with Some m => m.2 | None => 0 end in
  if o_context_free (it o) then
    let cost := fingerprint_cost fp + observation_cost (it o) in
    _ ← on_engine (replace old cost);
    set_memo_of id (Some (fp, o, cost))
  else match prior with
       | Some _ => _ ← on_engine (release old); set_memo_of id None
       | None => mret ()
       end.

(** A declared entity: its observation is reused while its fingerprint is the same. *)
Definition evaluate_declared (id : string) (en : Entity O) (vs : list BookView) (plan : list (list input)) : R (obj Observation) :=
  fp ← liftR (fingerprint vs plan);
  r ← getS;
  let prior := memo (stage r) !! id in
  match prior with
  | Some (fp0, o, _) => if same fp0 fp then mret o else o ← fresh en vs; _ ← retain_memo id fp o prior; mret o
  | None => o ← fresh en vs; _ ← retain_memo id fp o prior; mret o
  end.

(** [_evaluate]. *)
Definition evaluate (id : string) : R value :=
  en ← get entities_of id;
  match en_admission en with
  | Some status =>
      o ← on_next (alloc (mkObservation status (en_admission_reasons en) None (unevaluated_fields x) ∅ JNull None [] false));
      mret (o, None)
  | None =>
      vs ← views_for en;
      r ← getS;
      o ← (match plans_of (tables r) !! id with
           | Some plan => evaluate_declared id en vs plan
           | None => fresh en vs
           end);
      if positive (it o) then sk ← live_skew en (it o); mret (o, Some sk) else mret (o, None)
  end.

(** *** Staging *)
Definition begin_stage (time : Z) : R () :=
  r ← getS;
  match staged_time (stage r) with
  | None => on_stage (set_staged_time (Some time))
  | Some t => requireS (t =? time) "staging time"
  end.

(** [_retain_staged]. *)
Definition retain_staged (id : string) (v : value) (count_instantaneous : bool) : R () :=
  r ← getS;
  let cost := observation_cost (it v.1) in
  _ ← (match alookup id (staged (stage r)) with
       | Some (previous, old) =>
           _ ← (if count_instantaneous && positive (it previous.1) && negb (same_value previous v) then
                  let n := default 0 (instantaneous (stage r) !! id) + 1 in
                  _ ← on_stage (λ s, set_instantaneous (<[id := n]> (instantaneous s)) s);
                  if n =? 1 then on_engine (charge (SLOT + STR + 64 + INT)) else mret ()
                else mret ());
           on_engine (replace old cost)
       | None => on_engine (charge cost)
       end);
  on_stage (λ s, set_staged (aset id (v, cost) (staged s)) s).

(** [_stage]. *)
Definition stage_at (time : Z) (ids : gset string) : R () :=
  _ ← begin_stage time;
  forS (λ id, v ← evaluate id; retain_staged id v true) (sorted (elements ids)).

(** The staged value of an entity, or else its current one. *)
Definition value_of (s : Stage) (id : string) : option value :=
  match alookup id (staged s) with Some (v, _) => Some v | None => current s !! id end.

(** [_stage_skew]. *)
Definition stage_skew (time : Z) (id : string) : R () :=
  en ← get entities_of id;
  if String.eqb (en_cls en) CONTROL && negb (controls_episodes x) then mret () else
  r ← getS;
  '(o, previous) ← liftR (match value_of (stage r) id with Some v => Ok v | None => Err KeyError end);
  sk ← live_skew en (it o);
  if bool_decide (Some sk = previous) then mret () else
  _ ← begin_stage time;
  retain_staged id (o, Some sk) false.

(** [_flush_stage]; a skew is read only where a predicate holds. *)
Definition commit_staged (time : Z) (sv : string * (value * Z)) : R () :=
  en ← get entities_of sv.1;
  let '(o, sk) := sv.2.1 in
  _ ← on_stage (λ s, set_current (<[sv.1 := (o, sk)]> (current s)) s);
  on_engine (commit dumps sha256 json_loads x fill_value en time (it o) (default (0, 0) sk)).
Definition staged_order (r : Runtime) (a b : string * (value * Z)) : bool :=
  match entities_of r !! a.1, entities_of r !! b.1 with
  | Some e, Some f => match cmp (en_order e) (en_order f) with Gt => false | _ => true end
  | _, _ => true
  end.
Definition flush_stage : R () :=
  r ← getS;
  match staged_time (stage r) with
  | None => mret ()
  | Some time =>
      _ ← forS (λ sv, _ ← get entities_of sv.1; mret ()) (staged (stage r));
      _ ← forS (commit_staged time) (sort_by (staged_order r) (staged (stage r)));
      _ ← on_engine (release (sumZ (map (λ sv : string * (value * Z), sv.2.2) (staged (stage r)))));
      on_stage (λ s, set_staged_time None (set_staged [] s))
  end.

(** *** Selection *)

(** Whether the memo vouches for [v]: same observation, same inputs. *)
Definition memo_holds (id : string) (v : value) : R bool :=
  r ← getS;
  match memo (stage r) !! id with
  | None => mret false
  | Some (fp0, o, _) => if negb (is_ o v.1) then mret false else fp ← input_fingerprint id; mret (same fp0 fp)
  end.

(** Whether a change of [sides] of the book [k] leaves the value [v] of [id] as it is. *)
Definition unmoved (k : key) (sides : option (gmap string Z)) (id : string) (v : value) : R bool :=
  r ← getS;
  match reads (tables r) !! (id, k) with
  | None => mret false
  | Some read =>
      if negb (o_context_free (it v.1)) then mret false
      else if match sides with Some ss => bool_decide (read ## dom ss) | None => false end then mret true
      else memo_holds id v
  end.

(** One entity of [_select], on the sets [affected] and [skew_only]. *)
Definition select_one (k : key) (sides : option (gmap string Z)) (sets : gset string * gset string) (id : string)
    : R (gset string * gset string) :=
  let '(affected, skew_only) := sets in
  if decide (id ∈ affected) then mret sets else
  r ← getS;
  if bool_decide (is_Some (EconomicTypes.fills x)) && bool_decide (is_Some (fill_state (engine r) !! id)) then mret ({[id]} ∪ affected, skew_only) else
  match value_of (stage r) id with
  | None => mret ({[id]} ∪ affected, skew_only)
  | Some v =>
      ok ← unmoved k sides id v;
      if negb ok then mret ({[id]} ∪ affected, skew_only)
      else mret (affected, if positive (it v.1) then {[id]} ∪ skew_only else skew_only)
  end.

Fixpoint foldS {S A B} (f : B → A → ST S B) (b : B) (l : list A) : ST S B :=
  match l with [] => mret b | a :: l => b ← f b a; foldS f b l end.

(** [_select]; a set is visited in some order. *)
Definition select (sets : gset string * gset string) (changed : key * option (gmap string Z)) : R (gset string * gset string) :=
  r ← getS;
  foldS (select_one changed.1 changed.2) sets (elements (default ∅ (reverse (tables r) !! changed.1))).

(** *** Scopes *)
Definition set_scope_of (n : Z) (ens : gmap string (Entity O)) (ix : gmap string Z) (specs : gmap string (FillSpec * list Z)) (e : Engine) : Engine :=
  mkEngine n ens ix specs (views e) (epochs e) (game e) (budget e) (writers e) (open_measurements e) (denominators e)
    (denominator_cost e) (reasons e) (reason_list e) (episodes e) (episode_rows e) (fill_state e) (fill_ns e).

(** The place of each entity in its output group, by order. *)
Definition index_of (ens : list (Entity O)) : gmap string Z :=
  let by_order (a b : Entity O) := match cmp (en_order a) (en_order b) with Gt => false | _ => true end in
  let place (group : string) :=
    imap (λ i e, (en_id e, Z.of_nat i)) (sort_by by_order (filter (λ e, en_group e = group) ens)) in
  list_to_map (concat (map place (remove_dups (map en_group ens)))).

(** The declared inputs of one entity: without game state a game input is refused. *)
Definition check_inputs (en : Entity O) (inputs : list (list (string * option Z))) : result () :=
  let legs := length (en_legs en) in
  _ ← require ((legs <=? length inputs)%nat && (length inputs <=? S legs)%nat) "basket input arity";
  _ ← require (forallb (forallb (λ i : string * option Z, negb (String.eqb i.1 "game"))) inputs) "basket game input needs game requirement";
  require (length inputs <=? legs)%nat "basket global game input".

Definition add_read (en : Entity O) (rs : gmap (string * key) (gset string)) (ki : key * list (string * option Z)) : gmap (string * key) (gset string) :=
  <[(en_id en, ki.1) := default ∅ (rs !! (en_id en, ki.1)) ∪ union_list (map (λ i, source_sides i.1) ki.2)]> rs.
Definition add_reverse (en : Entity O) (rv : gmap key (gset string)) (k : key) : gmap key (gset string) :=
  <[k := {[en_id en]} ∪ default ∅ (rv !! k)]> rv.

(** The tables of one admitted entity. *)
Definition add_entity (t : Tables) (en : Entity O) : result Tables :=
  match en_admission en with
  | Some _ => Ok t
  | None =>
      _ ← (match en_inputs en with Some inputs => check_inputs en inputs | None => Ok () end);
      Ok (mkTables
        (match en_inputs en with
         | Some inputs => <[en_id en := map (map input_of) (take (length (en_legs en)) inputs)]> (plans_of t)
         | None => plans_of t
         end)
        (match en_inputs en with Some inputs => foldl (add_read en) (reads t) (zip2 (en_legs en) inputs) | None => reads t end)
        (foldl (add_reverse en) (reverse t) (en_legs en)) (entities_cost t) (fill_specs_cost t))
  end.

(** The fill shape of one admitted entity, and its cost. *)
Definition scope_spec (en : Entity O) : result (string * (FillSpec * list Z)) :=
  spec ← fill_spec en;
  _ ← check_spec spec (length (en_legs en));
  _ ← mapR (λ ks : key * string,
        match find (λ kb : key * ViewBuilder, bool_decide (kb.1 = ks.1)) builders with
        | None => Err KeyError
        | Some kb => require (in_list (vb_ladders kb.2) ks.2) "fill ladder not retained"
        end) (zip2 (en_legs en) (sources spec));
  scales ← mapR price_scale (en_legs en);
  Ok (en_id en, (spec, map (λ s, 10 ^ s) scales)).
Definition spec_cost (s : string * (FillSpec * list Z)) : Z :=
  SLOT + json_cost (JArr [JArr (map JStr (sources s.2.1)); JArr (map JInt (units s.2.1)); JArr (map JInt s.2.2)]).

(** [_scope]. *)
Definition load_scope (n : Z) : R () :=
  ens ← liftR (resolve n);
  r ← getS;
  let cost := sumZ (map (λ e, ENTITY + json_cost (en_descriptor e)) ens) in
  _ ← on_engine (replace (entities_cost (tables r)) cost);
  _ ← on_engine (release (sumZ (map (λ m : string * (list part * obj Observation * Z), m.2.2) (map_to_list (memo (stage r))))));
  _ ← on_stage (λ s, set_memo ∅ (set_current ∅ s));
  let empty := mkTables ∅ ∅ ∅ cost (fill_specs_cost (tables r)) in
  t ← liftR (foldR add_entity empty ens);
  _ ← requireS (forallb (λ k, bool_decide (k ∈ map fst builders)) (map fst (map_to_list (reverse t)))) "unrequired basket book";
  let ids := list_to_map (map (λ e, (en_id e, e)) ens) : gmap string (Entity O) in
  match EconomicTypes.fills x with
  | None =>
      _ ← on_engine (modifyS (λ e, set_scope_of n ids (index_of ens) (fill_specs e) e));
      modifyS (set_tables t)
  | Some _ =>
      specs ← liftR (mapR scope_spec (filter (λ e, en_admission e = None) ens));
      let specs_cost := sumZ (map spec_cost specs) in
      _ ← on_engine (replace (fill_specs_cost (tables r)) specs_cost);
      _ ← on_engine (modifyS (λ e, set_scope_of n ids (index_of ens) (list_to_map specs) e));
      modifyS (set_tables (mkTables (plans_of t) (reads t) (reverse t) cost specs_cost))
  end.

(** One boundary of [_advance]. *)
Definition cross (at_ : Z) : R (gset string) :=
  _ ← on_engine (close_scope dumps sha256 json_loads x at_ "SCOPE_END" false);
  _ ← on_clock (modifyS (λ c, (Intervals.advance at_ c).1));
  r ← getS;
  _ ← load_scope (Z.of_nat (Intervals.scope (clock (control r))));
  r ← getS;
  let affected := dom (entities_of r) in
  _ ← (if bool_decide (affected = ∅) then mret () else stage_at at_ affected);
  mret affected.

(** The scope end to cross by [time]. *)
Definition boundary_by (c : CutClock) (time : Z) : option Z :=
  if (S (Intervals.scope c) <? length (scope_ends c))%nat
  then b ← scope_ends c !! Intervals.scope c; if time <? b then None else Some b
  else None.

(** [_advance]: every step leaves a scope behind. *)
Fixpoint advance_scopes (fuel : nat) (time : Z) (entered : gset string) : R (gset string) :=
  match fuel with
  | 0%nat => liftR (Err OutOfFuel)
  | S fuel =>
      r ← getS;
      match boundary_by (clock (control r)) time with
      | None => _ ← on_clock (modifyS (Intervals.set_time time)); mret entered
      | Some at_ =>
          affected ← cross at_;
          if at_ <? time then _ ← flush_stage; advance_scopes fuel time ∅
          else advance_scopes fuel time affected
      end
  end.
Definition advance (time : Z) : R (gset string) :=
  r ← getS; advance_scopes (S (length (scope_ends (clock (control r))))) time ∅.

(** *** [__call__] *)
Definition book_at (books : gmap key Book) (k : key) : result Book :=
  match books !! k with Some b => Ok b | None => Err KeyError end.

Definition initial_view (books : gmap key Book) (start : Z) (kb : key * ViewBuilder) : R () :=
  book ← liftR (book_at books kb.1);
  v ← on_next (build kb.2 book start None None);
  set_view kb.1 (vb_sizes kb.2) v.

Definition call_initial (body : json) (books : gmap key Book) : R () :=
  r ← getS;
  _ ← requireS (sequence (control r) =? 0) "";
  _ ← requireS (negb (bound (control r))) "initial already bound";
  _ ← liftR (bind body);
  _ ← on_control (modifyS (λ c, mkControl (clock c) (sequence c) true (terminal c) (poisoned c)));
  let start := Intervals.start (clock (control r)) in
  _ ← forS (initial_view books start) builders;
  _ ← load_scope 0;
  r ← getS;
  stage_at start (dom (entities_of r)).

Definition refresh_view (books : gmap key Book) (time : Z) (changed : touched) (kb : key * ViewBuilder) : R () :=
  match changed !! kb.1 with
  | None => mret ()
  | Some sides =>
      book ← liftR (book_at books kb.1);
      r ← getS;
      v ← on_next (build kb.2 book time (book_views (shown r) !! kb.1) sides);
      set_view kb.1 (vb_sizes kb.2) v
  end.

(** The loop over the changed books goes through the builders: a book without one is passed
    over, and views of different books do not interact. *)
Definition call_cut (body : json) (books : gmap key Book) : R () :=
  origin ← liftR (jget body "origin");
  '(raw, time) ← on_clock (observe origin);
  r ← getS;
  entered ← (match staged_time (stage r) with
             | Some t => if t <? time then _ ← flush_stage; advance time else mret ∅
             | None => advance time
             end);
  changed ← liftR (touched_sides body);
  r ← getS;
  let affected := if raw <? Intervals.start (clock (control r)) then entered ∪ dom (entities_of r) else entered in
  _ ← forS (refresh_view books time changed) builders;
  '(affected, skew_only) ← foldS select (affected, ∅) (map_to_list changed);
  _ ← (if bool_decide (affected = ∅) then mret () else stage_at time affected);
  forS (stage_skew time) (sorted (elements (skew_only ∖ affected))).

Definition call_terminal : R () :=
  time ← on_clock Intervals.terminal;
  _ ← flush_stage;
  _ ← advance time;
  _ ← on_engine (close_scope dumps sha256 json_loads x time "RUN_END" true);
  on_control (modifyS (λ c, mkControl (clock c) (sequence c) (bound c) true (poisoned c))).

(** The whole callback: an exception poisons the runtime. *)
Definition call (kind : string) (seq : Z) (body : json) (books : gmap key Book) : R () := λ r,
  match (_ ← requireS (negb (poisoned (control r)) && negb (terminal (control r))) "closed economic strategy";
         _ ← requireS (seq =? sequence (control r) + 1) "economic sequence";
         _ ← on_control (modifyS (λ c, mkControl (clock c) seq (bound c) (terminal c) (poisoned c)));
         if String.eqb kind "initial" then call_initial body books else
         _ ← requireS (bound (control r)) "missing initial";
         if String.eqb kind "terminal" then call_terminal else
         _ ← requireS (String.eqb kind "cut") "";
         call_cut body books) r with
  | (r', Ok u) => (r', Ok u)
  | (r', Err e) => (set_control (mkControl (clock (control r')) (sequence (control r')) (bound (control r')) (terminal (control r')) true) r', Err e)
  end.
End Runtime.
