(* ===== verification/Fingerprints.v ===== *)
(** * What a fingerprint vouches for ([_fingerprint] and [_same] of [runtime.py])

    A memo keeps the objects an observation was derived from.  While every object is the
    identical one in the views of today, the declared inputs have the values of then: views
    are replaced only by views that inherit their objects place by place, or hold newer
    ones. *)
From stdpp Require Import gmap strings.
From S2P Require Import Prelude Wire EconomicFills BookProtocol Decoder FillChecks EconomicTypes Views ViewsProps ViewsCuts Staging.

(** ** Declared inputs by value *)
Inductive input_value := VFill (f : option Fill) | VBest (b a : option level) | VCrossed (c : bool).

Definition sized_value (m : gmap string (list (Z * Fill))) (name : string) (size : option Z) : option Fill :=
  fs ← m !! name; sz ← size; kv ← find (λ kv, kv.1 =? sz) fs; Some kv.2.
Definition value_crossed (v : view_value) : bool :=
  match vv_best_bid v, vv_best_ask v with Some b, Some a => a.1 <? b.1 | _, _ => false end.
Definition input_value_of (v : view_value) (i : input) : input_value :=
  match i with
  | Fill_in side size => VFill (sized_value (vv_fills v) side size)
  | Transform_in name size => VFill (sized_value (vv_transformed v) name size)
  | Best_in => VBest (vv_best_bid v) (vv_best_ask v)
  | Crossed_in => VCrossed (value_crossed v)
  end.
(** What a leg shows of its declared inputs: of an unusable book, only why. *)
Definition inputs_of (v : view_value) (plan : list input) : (string * json) + list input_value :=
  if String.eqb (vv_validity v) "usable" then inr (map (input_value_of v) plan) else inl (vv_validity v, vv_reason v).

(** ** Objects remembered *)

(** [o] is remembered from the place [cur]: today's object there is another one unless it
    is [o] itself. *)
Definition safe {A} (n : Z) (cur : option (obj A)) (o : obj A) : Prop :=
  addr o < n ∧ ∀ k, cur = Some k → is_ o k = true → k = o.
Definition opt_safe {A} (n : Z) (cur old : option (obj A)) : Prop := ∀ o, old = Some o → safe n cur o.
Definition place (m : gmap string fills_of) (name : string) (size : option Z) : option (obj Fill) :=
  match sized_fill m name size with Ok k => Some k | Err _ => None end.

Lemma safe_self {A} n (o : obj A) : addr o < n → safe n (Some o) o.
Proof. intros H. split; [done|]. by intros k [= ->]. Qed.
(** Today's object is that of yesterday, or newer than [n]. *)
Lemma safe_next {A} n n' (cur cur' : option (obj A)) o :
  n ≤ n' → (∀ k, cur' = Some k → n ≤ addr k ∨ cur = Some k) → safe n cur o → safe n' cur' o.
Proof.
  intros Hn Hcur [Hb Hs]. split; [lia|]. intros k Hk Hi. destruct (Hcur k Hk) as [Hge|E]; [|by apply Hs].
  apply Z.eqb_eq in Hi. lia.
Qed.

Definition input_memo (n : Z) (v0 : view_value) (v : BookView) (i : input) (ps : list part) : Prop :=
  match i with
  | Fill_in side size => ∃ o, ps = [PFill o] ∧ sized_value (vv_fills v0) side size = Some (it o) ∧ safe n (place (fills v) side size) o
  | Transform_in name size => ∃ o, ps = [PFill o] ∧ sized_value (vv_transformed v0) name size = Some (it o) ∧ safe n (place (transformed v) name size) o
  | Best_in => ∃ b a, ps = [PBest b; PBest a] ∧ it <$> b = vv_best_bid v0 ∧ it <$> a = vv_best_ask v0 ∧
      opt_safe n (best_bid v) b ∧ opt_safe n (best_ask v) a
  | Crossed_in => ps = [PCrossed (value_crossed v0)]
  end.
Definition reason_json (r : option (obj json)) : json := match r with Some r => it r | None => JNull end.
Definition leg_memo (n : Z) (v0 : view_value) (v : BookView) (plan : list input) (ps : list part) : Prop :=
  if String.eqb (vv_validity v0) "usable" then ∃ pss, ps = concat pss ∧ Forall2 (input_memo n v0 v) plan pss
  else ∃ r, ps = [PValidity (vv_validity v0); PReason r] ∧ reason_json r = vv_reason v0 ∧ opt_safe n (bv_reason v) r.

(** *** Remembering *)
Lemma find_values sz (fs : fills_of) :
  find (λ kv : Z * Fill, kv.1 =? sz) (values fs) = (λ kv : Z * obj Fill, (kv.1, it kv.2)) <$> find (λ kv, kv.1 =? sz) fs.
Proof. induction fs as [|[s f] fs IH]; [done|]. simpl. destruct (s =? sz); [done|exact IH]. Qed.

Lemma sized_ok (m : gmap string fills_of) name size o :
  sized_fill m name size = Ok o → sized_value (values <$> m) name size = Some (it o) ∧ ∃ fs sz, m !! name = Some fs ∧ size = Some sz ∧ at_size fs sz = Ok o.
Proof.
  unfold sized_fill, at_key, sized_value. rewrite lookup_fmap. destruct (m !! name) as [fs|]; [|done]. cbn [mbind result_bind].
  destruct size as [sz|]; [|done]. intros E. split; [|by exists fs, sz]. unfold at_size in E. simpl. rewrite find_values.
  destruct (find (λ kv : Z * obj Fill, kv.1 =? sz) fs) as [[s k]|]; [|done]. simpl in *. by injection E as ->.
Qed.

Lemma input_self n v i ps : below n v → input_parts v i = Ok ps → input_memo n (erase v) v i ps.
Proof.
  intros [B1 _ B3 B4 _] E. destruct i as [side size|name size| |]; cbn [input_parts] in E; simpl.
  - apply bind_ok in E as (o & Ef & E). injection E as <-. exists o. destruct (sized_ok _ _ _ _ Ef) as (Hv & fs & sz & E1 & -> & E2). split_and!; [done|done|].
    unfold place. rewrite Ef. apply safe_self. apply (B1 side fs (sz, o)); [done|]. by apply at_size_in.
  - apply bind_ok in E as (o & Ef & E). injection E as <-. exists o. destruct (sized_ok _ _ _ _ Ef) as (Hv & fs & sz & E1 & -> & E2). split_and!; [done|done|].
    unfold place. rewrite Ef. apply safe_self. apply (B4 name fs (sz, o)); [done|]. by apply at_size_in.
  - injection E as <-. exists (best_bid v), (best_ask v). split_and!; [done..| |].
    + intros o Ho. rewrite Ho. apply safe_self. by apply (B3 "bid"%string).
    + intros o Ho. rewrite Ho. apply safe_self. by apply (B3 "ask"%string).
  - injection E as <-. unfold value_crossed, view_crossed. simpl. by destruct (best_bid v), (best_ask v).
Qed.
Lemma leg_self n v plan ps : below n v → view_parts v plan = Ok ps → leg_memo n (erase v) v plan ps.
Proof.
  intros Hb E. unfold view_parts in E. unfold leg_memo. change (vv_validity (erase v)) with (bv_validity v).
  destruct (String.eqb (bv_validity v) "usable").
  - apply bind_ok in E as (pss & Em & E). injection E as <-. exists pss. split; [done|].
    apply mapR_ok in Em. eapply Forall2_impl; [exact Em|]. intros i qs. by apply input_self.
  - injection E as <-. exists (bv_reason v). split_and!; [done|done|]. intros o Ho. rewrite Ho. apply safe_self. by apply (bl_reason _ _ Hb).
Qed.

(** *** As views are replaced *)
Lemma place_next n v v' (get : BookView → gmap string fills_of) :
  (∀ name fs size k, get v' !! name = Some fs → at_size fs size = Ok k → n ≤ addr k ∨ ∃ fs0, get v !! name = Some fs0 ∧ at_size fs0 size = Ok k) →
  ∀ name size k, place (get v') name size = Some k → n ≤ addr k ∨ place (get v) name size = Some k.
Proof.
  intros H name size k Hk. unfold place in *. destruct (sized_fill (get v') name size) as [o|] eqn:E; [|done]. injection Hk as ->.
  apply sized_ok in E as (_ & fs & sz & E1 & -> & E2). destruct (H name fs sz k E1 E2) as [|(fs0 & E3 & E4)]; [by left|right].
  unfold sized_fill, at_key. rewrite E3. cbn [mbind result_bind]. by rewrite E4.
Qed.

Lemma input_next n n' v0 v v' i ps : n ≤ n' → inherits n v v' → input_memo n v0 v i ps → input_memo n' v0 v' i ps.
Proof.
  intros Hn [I1 I2 I3 _]. destruct i as [side size|name size| |]; simpl.
  - intros (o & -> & Hv & Hs). exists o. split_and!; [done|done|]. eapply safe_next; [exact Hn| |exact Hs]. by apply (place_next n v v' fills).
  - intros (o & -> & Hv & Hs). exists o. split_and!; [done|done|]. eapply safe_next; [exact Hn| |exact Hs]. by apply (place_next n v v' transformed).
  - intros (b & a & -> & Hb & Ha & Sb & Sa). exists b, a. split_and!; [done..| |].
    + intros o Ho. eapply safe_next; [exact Hn|exact (I3 "bid"%string)|exact (Sb o Ho)].
    + intros o Ho. eapply safe_next; [exact Hn|exact (I3 "ask"%string)|exact (Sa o Ho)].
  - done.
Qed.
Lemma leg_next n n' v0 v v' plan ps : n ≤ n' → inherits n v v' → leg_memo n v0 v plan ps → leg_memo n' v0 v' plan ps.
Proof.
  intros Hn Hi. unfold leg_memo. destruct (String.eqb (vv_validity v0) "usable").
  - intros (pss & -> & H). exists pss. split; [done|]. eapply Forall2_impl; [exact H|]. intros i qs. by apply input_next.
  - intros (r & -> & Hr & Hs). exists r. split_and!; [done|done|]. intros o Ho. eapply safe_next; [exact Hn| |exact (Hs o Ho)].
    intros k Hk. left. by apply (in_reason _ _ _ Hi).
Qed.
Lemma leg_mono n n' v0 v plan ps : n ≤ n' → leg_memo n v0 v plan ps → leg_memo n' v0 v plan ps.
Proof.
  intros Hn. assert (∀ A (cur : option (obj A)) o, safe n cur o → safe n' cur o) as Hm by (intros A cur o [H1 H2]; split; [lia|done]).
  unfold leg_memo. destruct (String.eqb (vv_validity v0) "usable").
  - intros (pss & -> & H). exists pss. split; [done|]. eapply Forall2_impl; [exact H|].
    intros [side size|name size| |] qs; simpl; [naive_solver..| |done].
    intros (b & a & -> & Hb & Ha & Sb & Sa). exists b, a. split_and!; [done..|intros o Ho; by apply Hm, Sb|intros o Ho; by apply Hm, Sa].
  - intros (r & -> & Hr & Hs). exists r. split_and!; [done|done|]. intros o Ho. by apply Hm, Hs.
Qed.

(** ** Comparing *)
Lemma list_same_app {A} (R : A → A → bool) l1 l2 k1 k2 :
  length l1 = length k1 → list_same R (l1 ++ l2) (k1 ++ k2) = list_same R l1 k1 && list_same R l2 k2.
Proof. revert k1. induction l1 as [|a l1 IH]; intros [|b k1]; try done. intros [= E]. simpl. rewrite IH by done. by rewrite andb_assoc. Qed.

Definition width (i : input) : nat := match i with Best_in => 2 | _ => 1 end.
Lemma memo_width n v0 v i ps : input_memo n v0 v i ps → length ps = width i.
Proof. destruct i; simpl; naive_solver. Qed.
Lemma parts_width v i ps : input_parts v i = Ok ps → length ps = width i.
Proof.
  destruct i; cbn [input_parts]; try (intros [= <-]; done); intros (o & _ & E)%bind_ok; by injection E as <-.
Qed.

Lemma opt_same {A} n (cur old : option (obj A)) : opt_safe n cur old → is_opt old cur = true → old = cur.
Proof. intros Hs. destruct old as [o|], cur as [k|]; try done. simpl. intros Hi. destruct (Hs o eq_refl) as [_ H]. by rewrite (H k eq_refl Hi). Qed.

Lemma is_best b c : is_part (PBest b) (PBest c) = is_opt b c.
Proof. by destruct b. Qed.
Lemma is_reason r q : is_part (PReason r) (PReason q) = is_opt r q.
Proof. by destruct r. Qed.
Lemma input_same n v0 v i ps ps' :
  input_memo n v0 v i ps → input_parts v i = Ok ps' → list_same is_part ps ps' = true → input_value_of v0 i = input_value_of (erase v) i.
Proof.
  destruct i as [side size|name size| |]; cbn [input_parts input_memo input_value_of].
  - intros (o & -> & Hv & _ & Hs) (k & Ek & E)%bind_ok. injection E as <-. simpl. rewrite andb_true_r. intros Hi.
    destruct (sized_ok _ _ _ _ Ek) as [Hk _]. rewrite Hv, Hk. unfold place in Hs. rewrite Ek in Hs. by rewrite (Hs k eq_refl Hi).
  - intros (o & -> & Hv & _ & Hs) (k & Ek & E)%bind_ok. injection E as <-. simpl. rewrite andb_true_r. intros Hi.
    destruct (sized_ok _ _ _ _ Ek) as [Hk _]. rewrite Hv, Hk. unfold place in Hs. rewrite Ek in Hs. by rewrite (Hs k eq_refl Hi).
  - intros (b & a & -> & Hb & Ha & Sb & Sa) [= <-]. cbn [list_same]. rewrite !is_best, andb_true_r. intros [Ib Ia]%andb_true_iff.
    rewrite <- Hb, <- Ha, (opt_same _ _ _ Sb Ib), (opt_same _ _ _ Sa Ia). done.
  - intros -> [= <-]. simpl. rewrite andb_true_r. intros E%eqb_prop. rewrite E.
    unfold value_crossed, view_crossed. simpl. by destruct (best_bid v), (best_ask v).
Qed.

Lemma inputs_same n v0 v plan pss pss' :
  Forall2 (input_memo n v0 v) plan pss → mapR (input_parts v) plan = Ok pss' →
  length (concat pss) = length (concat pss') ∧
  (list_same is_part (concat pss) (concat pss') = true → map (input_value_of v0) plan = map (input_value_of (erase v)) plan).
Proof.
  intros H. revert pss'. induction H as [|i ps plan pss Hi _ IH]; intros pss' E; simpl in E.
  - injection E as <-. by split.
  - apply bind_ok in E as (ps' & E1 & E). apply bind_ok in E as (qss & E2 & E). injection E as <-.
    destruct (IH qss E2) as [Hl Hs]. assert (length ps = length ps') as Hw by by rewrite (memo_width _ _ _ _ _ Hi), (parts_width _ _ _ E1).
    simpl. split; [rewrite !length_app; lia|]. rewrite list_same_app by done. intros [H1 H2]%andb_true_iff.
    f_equal; [by eapply input_same|by apply Hs].
Qed.

(** One leg: either both fingerprints have the same shape, and then vouch for the
    inputs, or their first parts differ in kind. *)
Lemma leg_same n v0 v plan ps ps' : plan ≠ [] → leg_memo n v0 v plan ps → view_parts v plan = Ok ps' →
  (length ps = length ps' ∧ (list_same is_part ps ps' = true → inputs_of v0 plan = inputs_of (erase v) plan)) ∨
  ∀ l l', list_same is_part (ps ++ l) (ps' ++ l') = false.
Proof.
  intros Hplan. unfold leg_memo, view_parts, inputs_of. change (vv_validity (erase v)) with (bv_validity v).
  destruct (String.eqb (vv_validity v0) "usable") eqn:E0, (String.eqb (bv_validity v) "usable") eqn:E1.
  - intros (pss & -> & H) (pss' & E & E2)%bind_ok. injection E2 as <-. left. destruct (inputs_same _ _ _ _ _ _ H E) as [Hl Hs].
    split; [done|]. intros Heq. f_equal. by apply Hs.
  - intros (pss & -> & H) [= <-]. right. intros l l'. destruct H as [|i qs plan pss Hi _]; [done|]. simpl.
    destruct i; simpl in Hi; [destruct Hi as (? & -> & _)|destruct Hi as (? & -> & _)|destruct Hi as ([?|] & ? & -> & _)|subst qs]; done.
  - intros (r & -> & _) (pss' & E & E2)%bind_ok. injection E2 as <-. right. intros l l'. destruct plan as [|i plan]; [done|].
    simpl in E. apply bind_ok in E as (qs & E & E2). apply bind_ok in E2 as (qss & _ & E2). injection E2 as <-.
    destruct i; cbn [input_parts] in E; [apply bind_ok in E as (? & _ & E)|apply bind_ok in E as (? & _ & E)|..]; by injection E as <-.
  - intros (r & -> & Hr & Hs) [= <-]. left. split; [done|]. cbn [list_same]. rewrite is_reason, andb_true_r. cbn [is_part]. intros [E2%String.eqb_eq Hi]%andb_true_iff.
    f_equal. rewrite <- Hr, E2, (opt_same _ _ _ Hs Hi). done.
Qed.

(** *** All legs *)
Fixpoint legs_memo (n : Z) (vs0 : list view_value) (vs : list BookView) (plan : list (list input)) (pss : list (list part)) : Prop :=
  match vs0, vs, plan, pss with
  | [], [], [], [] => True
  | v0 :: vs0, v :: vs, p :: plan, ps :: pss => leg_memo n v0 v p ps ∧ legs_memo n vs0 vs plan pss
  | _, _, _, _ => False
  end.

(** Two lists of views agree on what a plan declares. *)
Definition agree (vs vs' : list view_value) (plan : list (list input)) : Prop :=
  length vs = length plan ∧ length vs' = length plan ∧ zip_with inputs_of vs plan = zip_with inputs_of vs' plan.

Lemma agree_cons v v' vs vs' p plan : inputs_of v p = inputs_of v' p → agree vs vs' plan → agree (v :: vs) (v' :: vs') (p :: plan).
Proof. intros E (H1 & H2 & H3). split_and!; simpl; [lia|lia|by f_equal]. Qed.

Lemma legs_self n vs plan fp : Forall (below n) vs → length vs = length plan → fingerprint vs plan = Ok fp →
  ∃ pss, fp = concat pss ∧ legs_memo n (map erase vs) vs plan pss.
Proof.
  intros Hb Hl E. unfold fingerprint in E. apply bind_ok in E as (pss & E & E2). injection E2 as <-. exists pss. split; [done|].
  revert plan pss Hl E. induction Hb as [|v vs Hv Hb IH]; intros [|p plan] pss; try done; intros Hl E; simpl in E.
  - by injection E as <-.
  - apply bind_ok in E as (ps & E1 & E). apply bind_ok in E as (qss & E2 & E). injection E as <-. simpl. split; [by apply leg_self|].
    apply IH; [by injection Hl|done].
Qed.

Lemma legs_same n vs0 vs plan pss fp' : Forall (λ p, p ≠ []) plan → legs_memo n vs0 vs plan pss →
  fingerprint vs plan = Ok fp' → same (concat pss) fp' = true → agree vs0 (map erase vs) plan.
Proof.
  intros Hne Hm E. unfold fingerprint in E. apply bind_ok in E as (pss' & E & E2). injection E2 as <-. unfold same.
  revert vs0 vs pss pss' Hm E. induction Hne as [|p plan Hp Hne IH]; intros [|v0 vs0] [|v vs] [|ps pss] pss' Hm; try done.
  intros E. simpl in E. apply bind_ok in E as (ps' & E1 & E). apply bind_ok in E as (qss & E2 & E). injection E as <-.
  simpl in Hm. destruct Hm as [Hl Hm]. simpl. destruct (leg_same _ _ _ _ _ _ Hp Hl E1) as [[Hlen Hs]|Hno]; [|by rewrite Hno].
  rewrite list_same_app by done. intros [H1 H2]%andb_true_iff. apply agree_cons; [by apply Hs|]. by eapply IH.
Qed.

Lemma legs_next n n' vs0 vs vs' plan pss : n ≤ n' → Forall2 (λ v v', v' = v ∨ inherits n v v') vs vs' →
  legs_memo n vs0 vs plan pss → legs_memo n' vs0 vs' plan pss.
Proof.
  intros Hn H. revert vs0 plan pss. induction H as [|v v' vs vs' Hv _ IH]; intros [|v0 vs0] [|p plan] [|ps pss]; simpl; try done.
  intros [Hl Hm]. split; [|by apply IH]. destruct Hv as [->|Hv]; [by eapply leg_mono|by eapply leg_next].
Qed.

(** ** Inputs on untouched sides *)
Lemma lookup_sides {A} (f : string → A) (l : list string) s :
  (list_to_map (map (λ s, (s, f s)) l) : gmap string A) !! s = if decide (s ∈ l) then Some (f s) else None.
Proof.
  induction l as [|a l IH]; [by rewrite decide_False by apply not_elem_of_nil|]. simpl. destruct (decide (a = s)) as [->|Hne].
  - rewrite lookup_insert_eq, decide_True by left. done.
  - rewrite lookup_insert_ne, IH by done. destruct (decide (s ∈ l)) as [Hin|Hin].
    + by rewrite decide_True by (by right).
    + rewrite decide_False; [done|]. intros [->|?]%elem_of_cons; done.
Qed.

Section Untouched.
Context (vb : ViewBuilder) (Hvb : builder_ok vb) (L L' : string → list level) (b b' : Book) (t t' : Z).

Lemma untouched_input i : (∀ side, side ∈ source_sides i.1 → side ∈ vb_sides vb → L side = L' side) →
  input_value_of (ref_view vb L b t) (input_of i) = input_value_of (ref_view vb L' b' t') (input_of i).
Proof.
  destruct i as [source size]. intros H. simpl in H. unfold input_of.
  assert (∀ side, side ∈ source_sides source → shows vb L side = shows vb L' side) as Hsh.
  { intros side Hs. unfold shows. destruct (in_list (vb_sides vb) side) eqn:E; [|done]. apply H; [done|by apply in_list_elem]. }
  unfold source_sides in *. destruct (String.eqb source "best" || String.eqb source "crossed") eqn:Ebc.
  { assert (shows vb L "bid" = shows vb L' "bid" ∧ shows vb L "ask" = shows vb L' "ask") as [Eb Ea] by (split; apply Hsh; set_solver).
    destruct (String.eqb source "best"); simpl; [by rewrite Eb, Ea|]. simpl in Ebc. rewrite Ebc. simpl. unfold value_crossed. simpl. by rewrite Eb, Ea. }
  apply orb_false_iff in Ebc as [-> ->]. unfold is_transform. destruct (String.eqb_spec source "kalshi_complement_ask") as [->|Hka].
  { simpl. unfold sized_value. simpl. f_equal.
    destruct (in_list (vb_transforms vb) "kalshi_complement_ask") eqn:Et; simpl.
    - rewrite !lookup_insert_eq. unfold complement_side. rewrite (H "bid"%string); [done|set_solver|]. by apply (bo_ask vb Hvb), in_list_elem.
    - destruct (in_list (vb_transforms vb) "kalshi_complement_bid"); simpl; [|done]. by rewrite !lookup_insert_ne. }
  destruct (String.eqb_spec source "kalshi_complement_bid") as [->|Hkb].
  { simpl. unfold sized_value. simpl. f_equal.
    destruct (in_list (vb_transforms vb) "kalshi_complement_bid") eqn:Et.
    - assert (L "ask"%string = L' "ask"%string) as Ea by (apply H; [set_solver|by apply (bo_bid vb Hvb), in_list_elem]).
      destruct (in_list (vb_transforms vb) "kalshi_complement_ask"); simpl; rewrite ?lookup_insert_ne by done; rewrite !lookup_insert_eq; unfold complement_side; by rewrite Ea.
    - destruct (in_list (vb_transforms vb) "kalshi_complement_ask"); simpl; [by rewrite !lookup_insert_ne|done]. }
  simpl. unfold sized_value. simpl. rewrite !lookup_sides. destruct (decide (source ∈ vb_sides vb)) as [Hin|]; [|done].
  by rewrite (H source) by (done || set_solver).
Qed.

End Untouched.

Lemma untouched_inputs vb b b' t t' (is_ : list (string * option Z)) (rd : gset string) ss :
  builder_ok vb → (∀ i, i ∈ is_ → source_sides i.1 ⊆ rd) → rd ## dom ss → known (Some (Some ss)) b b' → book_inv b → book_inv b' →
  inputs_of (ref_view vb (book_levels b) b t) (map input_of is_) = inputs_of (ref_view vb (book_levels b') b' t') (map input_of is_).
Proof.
  intros Hvb Hrd Hdis Hk Hi Hi'. unfold inputs_of. pose proof Hk as (Hu & Hu' & _). simpl. rewrite Hu, Hu'. simpl. f_equal.
  rewrite !map_map. apply map_ext_in. intros i Hin%list_elem_of_In. apply (untouched_input vb Hvb). intros side Hs Hside.
  pose proof (known_unaffected vb Hvb ss b b' side Hi Hi' Hk Hside) as Hun. unfold unaffected in Hun.
  assert (ss !! side = None) as E by (apply not_elem_of_dom; specialize (Hrd i Hin); set_solver). by rewrite E in Hun.
Qed.
