(* ===== verification/StagingProps.v ===== *)
(** * Staged observations are current ([src/replay/economic_sdk/runtime.py], lines 252-720)

    The runtime evaluates only what a cut can have changed.  For strategies that honour
    their declarations, every entity's observation is nevertheless, after every cut, the
    one the strategy would return for the full views of the decoder's books, and the skew
    of every positive one is that of the live views. *)
From stdpp Require Import gmap strings sorting.
From S2P Require Import Prelude Order Wire Json EconomicFills BookProtocol Decoder FillChecks LineWriter EconomicTypes Intervals Episodes EpisodesProps Views ViewsProps ViewsCuts Staging Fingerprints.

Section Staging.
Context (dumps : json → list Byte.byte) (sha256 : list Byte.byte → string)
        (json_loads : string → result json).
Context {W : Type} `{RowWriter W} {O : Type} `{CompareLaws O}.
Context (x : Experiment).
Context (fill_value : Entity O → Z → valuation).
Context (resolve : Z → result (list (Entity O)))
        (strategy_evaluate : Entity O → list view_value → EvalContext → result Observation)
        (fill_spec : Entity O → result FillSpec) (bind : json → result ()).
Context (builders : list (key * ViewBuilder)) (price_scale : key → result Z).

Local Abbreviation Runtime := (@Staging.Runtime W O).
Local Abbreviation fresh := (Staging.fresh x strategy_evaluate).
Local Abbreviation evaluate_declared := (Staging.evaluate_declared x strategy_evaluate).
Local Abbreviation evaluate := (Staging.evaluate x strategy_evaluate).
Local Abbreviation stage_at := (Staging.stage_at x strategy_evaluate).
Local Abbreviation stage_skew := (Staging.stage_skew x).
Local Abbreviation flush_stage := (Staging.flush_stage dumps sha256 json_loads x fill_value).
Local Abbreviation select_one := (Staging.select_one x).
Local Abbreviation select := (Staging.select x).
Local Abbreviation load_scope := (Staging.load_scope x resolve fill_spec builders price_scale).
Local Abbreviation cross := (Staging.cross dumps sha256 json_loads x resolve strategy_evaluate fill_spec builders price_scale).
Local Abbreviation advance_scopes := (Staging.advance_scopes dumps sha256 json_loads x fill_value resolve strategy_evaluate fill_spec builders price_scale).
Local Abbreviation call := (Staging.call dumps sha256 json_loads x fill_value resolve strategy_evaluate fill_spec bind builders price_scale).

Implicit Type r : Runtime.

(** ** The strategy's side of the contract *)

(** The declared inputs of an entity, leg by leg. *)
Definition plan_of (en : Entity O) : option (list (list input)) :=
  inputs ← en_inputs en; Some (map (map input_of) (take (length (en_legs en)) inputs)).

(** A context-free observation is the same for all views that agree on the declared
    inputs, at any time. *)
Definition honest : Prop := ∀ en plan vs vs' ctx ctx' o,
  plan_of en = Some plan → agree vs vs' plan → strategy_evaluate en vs ctx = Ok o → o_context_free o = true →
  strategy_evaluate en vs' ctx' = Ok o.

(** ** Invariants *)
Record tables_ok (ens : gmap string (Entity O)) (t : Tables) : Prop := TablesOk {
  to_ids : ∀ id en, ens !! id = Some en → en_id en = id;
  to_plans : ∀ id plan, plans_of t !! id = Some plan → ∃ en, ens !! id = Some en ∧ en_admission en = None ∧
    plan_of en = Some plan ∧ length plan = length (en_legs en) ∧ Forall (λ p, p ≠ []) plan;
  to_reads : ∀ id k rd, reads t !! (id, k) = Some rd → ∃ en inputs plan, ens !! id = Some en ∧
    en_inputs en = Some inputs ∧ plans_of t !! id = Some plan ∧
    ∀ i ins, en_legs en !! i = Some k → inputs !! i = Some ins → ∀ s, s ∈ ins → source_sides s.1 ⊆ rd;
  to_reverse : ∀ id en k, ens !! id = Some en → en_admission en = None → k ∈ en_legs en → id ∈ default ∅ (reverse t !! k);
  to_legs : ∀ id en k, ens !! id = Some en → en_admission en = None → k ∈ en_legs en → k ∈ map fst builders;
}.

(** The view of every required book is that of the book [B] gives. *)
Definition views_ok (B : key → Book) r : Prop := ∀ k vb, (k, vb) ∈ builders →
  ∃ v, book_views (shown r) !! k = Some v ∧ book_inv (B k) ∧ current_view vb (B k) (next (shown r)) v.

Definition legs_shown r (en : Entity O) (vs : list BookView) : Prop :=
  Forall2 (λ k v, book_views (shown r) !! k = Some v) (en_legs en) vs.

(** A memo vouches for its observation as long as its fingerprint is found again. *)
Definition memo_good r (id : string) (fp : list part) (o : obj Observation) : Prop :=
  addr o < next (shown r) ∧ ∃ en plan vs0 vs pss ctx, entities_of r !! id = Some en ∧ plans_of (tables r) !! id = Some plan ∧
    legs_shown r en vs ∧ fp = concat pss ∧ legs_memo (next (shown r)) vs0 vs plan pss ∧
    strategy_evaluate en vs0 ctx = Ok (it o) ∧ o_context_free (it o) = true.
Definition memo_ok r : Prop := ∀ id fp o c, memo (stage r) !! id = Some (fp, o, c) → memo_good r id fp o.

(** The value of an entity is the memo's observation only when it is that object. *)
Definition values_ok r : Prop := ∀ id v, value_of (stage r) id = Some v →
  addr v.1 < next (shown r) ∧ ∀ fp o c, memo (stage r) !! id = Some (fp, o, c) → is_ o v.1 = true → o = v.1.

Record inv (B : key → Book) r : Prop := Inv {
  inv_tables : tables_ok (entities_of r) (tables r); inv_views : views_ok B r;
  inv_memo : memo_ok r; inv_values : values_ok r;
  inv_staged : staged_time (stage r) = None → staged (stage r) = [];
  inv_keys : NoDup (map fst (staged (stage r)));
}.

(** *** Freshness *)
Definition unevaluated (status : string) (en : Entity O) : Observation :=
  mkObservation status (en_admission_reasons en) None (unevaluated_fields x) ∅ JNull None [] false.
Definition current_observation r (en : Entity O) (o : Observation) : Prop :=
  match en_admission en with
  | Some status => o = unevaluated status en
  | None => ∃ vs ctx, legs_shown r en vs ∧ strategy_evaluate en (map erase vs) ctx = Ok o
  end.
Definition skew_free (en : Entity O) : bool := String.eqb (en_cls en) CONTROL && negb (controls_episodes x).
Definition current_skew r (en : Entity O) (v : value) : Prop :=
  positive (it v.1) = true → skew_free en = false →
  ∃ sk, skew_of (skew_edges x) (book_views (shown r)) (en_legs en) (o_skew_legs (it v.1)) = Ok sk ∧ v.2 = Some sk.
Definition fresh_value r (id : string) : Prop := ∀ en, entities_of r !! id = Some en →
  ∃ v, value_of (stage r) id = Some v ∧ current_observation r en (it v.1) ∧ current_skew r en v.

(** *** What operations leave alone *)
Definition surroundings r := (entities_of r, book_views (shown r), tables r, control r).
Definition core r := (entities_of r, shown r, tables r, stage r, control r).

Lemma on_engine_core {A} (m : ST (@Episodes.Engine W O) A) : frame (@entities W O) m → frame core (on_engine m).
Proof. intros Hm r. unfold on_engine, zoomS. specialize (Hm (engine r)). destruct (m (engine r)) as [e a]. simpl in *. unfold core, entities_of. simpl. by rewrite Hm. Qed.
Lemma replace_core a b : frame core (on_engine (Episodes.replace a b)).
Proof. apply on_engine_core. by apply frame_replace. Qed.
Lemma release_core a : frame core (on_engine (Episodes.release a)).
Proof. apply on_engine_core. by apply frame_release. Qed.
Lemma charge_core a : frame core (on_engine (Episodes.charge a)).
Proof. apply on_engine_core. by apply frame_charge. Qed.
Lemma core_use {A} (m : ST Runtime A) r r' a : frame core m → m r = (r', a) → core r' = core r.
Proof. intros Hf E. specialize (Hf r). by rewrite E in Hf. Qed.

(** A state with the same core keeps every invariant. *)
Lemma core_parts r r' : core r' = core r → entities_of r' = entities_of r ∧ shown r' = shown r ∧ tables r' = tables r ∧ stage r' = stage r ∧ control r' = control r.
Proof. unfold core. intros [= ? ? ? ? ?]. by split_and!. Qed.
Lemma core_inv B r r' : core r' = core r → inv B r → inv B r'.
Proof.
  intros (E1 & E2 & E3 & E4 & E5)%core_parts [I1 I2 I3 I4 I5 I6]. split; unfold views_ok, memo_ok, memo_good, values_ok, legs_shown in *; by rewrite ?E1, ?E2, ?E3, ?E4.
Qed.
Lemma core_fresh r r' id : core r' = core r → fresh_value r id → fresh_value r' id.
Proof.
  intros (E1 & E2 & E3 & E4 & E5)%core_parts Hf. unfold fresh_value, current_observation, current_skew, legs_shown in *. by rewrite E1, E2, E4.
Qed.

(** *** Reading *)
Lemma get_ok `{Countable K} {A} (m : Runtime → gmap K A) k r r' a : get m k r = (r', Ok a) → r' = r ∧ m r !! k = Some a.
Proof. unfold get. intros E. apply stbind_ok in E as (? & ? & [-> ->]%getS_ok & E). destruct (m r !! k); [|done]. apply mretS_ok in E as [-> ->]. done. Qed.

Lemma views_for_ok en r r' vs : views_for en r = (r', Ok vs) → r' = r ∧ legs_shown r en vs.
Proof.
  unfold views_for, legs_shown. generalize (en_legs en) as ks. intros ks. revert r' vs. induction ks as [|k ks IH]; intros r' vs E; simpl in E.
  - apply mretS_ok in E as [-> ->]. by split.
  - apply stbind_ok in E as (? & v & [-> Hv]%get_ok & E). apply stbind_ok in E as (r1 & vs1 & [-> Hvs]%IH & E). apply mretS_ok in E as [-> ->].
    split; [done|]. by constructor.
Qed.
Lemma legs_shown_unique r en vs vs' : legs_shown r en vs → legs_shown r en vs' → vs = vs'.
Proof.
  unfold legs_shown. intros Hl. revert vs'. induction Hl as [|k v ks vs Hk _ IH]; intros vs' Hl'; inversion Hl'; [done|]. f_equal; [congruence|by apply IH].
Qed.
Lemma legs_shown_length r en vs : legs_shown r en vs → length vs = length (en_legs en).
Proof. intros Hl. symmetry. by eapply Forall2_length. Qed.

Lemma input_fingerprint_ok id r r' fp : input_fingerprint id r = (r', Ok fp) →
  r' = r ∧ ∃ en vs plan, entities_of r !! id = Some en ∧ legs_shown r en vs ∧ plans_of (tables r) !! id = Some plan ∧ fingerprint vs plan = Ok fp.
Proof.
  unfold input_fingerprint. intros E. apply stbind_ok in E as (? & en & [-> He]%get_ok & E). apply stbind_ok in E as (? & vs & [-> Hvs]%views_for_ok & E).
  apply stbind_ok in E as (? & plan & [-> Hp]%get_ok & E). apply liftR_ok in E as [-> Hf]. split; [done|]. by exists en, vs, plan.
Qed.

Lemma live_skew_ok en o r r' sk : live_skew x en o r = (r', Ok sk) →
  r' = r ∧ skew_of (skew_edges x) (book_views (shown r)) (en_legs en) (o_skew_legs o) = Ok sk.
Proof. unfold live_skew. intros E. apply stbind_ok in E as (? & ? & [-> ->]%getS_ok & E). by apply liftR_ok in E. Qed.

(** *** A new object *)
Lemma on_next_alloc {A} (a : A) r r' o : on_next (alloc a) r = (r', Ok o) →
  o = Obj (next (shown r)) a ∧ entities_of r' = entities_of r ∧ tables r' = tables r ∧ stage r' = stage r ∧ control r' = control r ∧
  shown r' = mkShown (next (shown r) + 1) (book_views (shown r)) (view_costs (shown r)).
Proof. unfold on_next, zoomS, alloc. simpl. intros [= <- <-]. by split_and!. Qed.

(** Every view of a leg has its addresses below the next one. *)
Lemma legs_below B r en vs : inv B r → entities_of r !! en_id en = Some en → en_admission en = None → legs_shown r en vs → Forall (below (next (shown r))) vs.
Proof.
  intros Hi He Ha Hl. apply Forall_forall. intros v Hv. apply list_elem_of_lookup in Hv as [i Hv].
  destruct (Forall2_lookup_r _ _ _ _ _ Hl Hv) as (k & Hk & Hkv).
  assert (k ∈ map fst builders) as Hb by (eapply (to_legs _ _ (inv_tables _ _ Hi)); [done|done|by apply list_elem_of_lookup_2 in Hk]).
  apply list_elem_of_fmap in Hb as ([k' vb] & Ek & Hb). simpl in Ek. subst k'. destruct (inv_views _ _ Hi k vb Hb) as (v' & Hv' & _ & [Hp _]).
  assert (v' = v) as -> by congruence. apply Hp.
Qed.

(** The addresses only grow. *)
Record grown r r' : Prop := Grown {
  gr_next : next (shown r) ≤ next (shown r'); gr_views : book_views (shown r') = book_views (shown r);
  gr_entities : entities_of r' = entities_of r; gr_tables : tables r' = tables r; gr_control : control r' = control r;
}.
Lemma grown_core r r' : core r' = core r → grown r r'.
Proof. intros (E1 & E2 & E3 & E4 & E5)%core_parts. split; rewrite ?E2; done. Qed.
Lemma grown_trans r1 r2 r3 : grown r1 r2 → grown r2 r3 → grown r1 r3.
Proof. intros [G1 G2 G3 G4 G5] [K1 K2 K3 K4 K5]. split; [lia|congruence..]. Qed.

Lemma views_grown B r r' : grown r r' → views_ok B r → views_ok B r'.
Proof.
  intros [G1 G2 _ _ _] Hv k vb Hb. destruct (Hv k vb Hb) as (v & E & Hi & Hp & He). exists v. rewrite G2. split_and!; [done|done|].
  split; [by eapply prior_of_mono|done].
Qed.
Lemma legs_grown r r' en vs : grown r r' → legs_shown r en vs ↔ legs_shown r' en vs.
Proof. intros [_ G2 _ _ _]. unfold legs_shown. by rewrite G2. Qed.
Lemma grown_legs r r' en vs vs0 plan pss : grown r r' → legs_shown r en vs → legs_memo (next (shown r)) vs0 vs plan pss →
  legs_shown r' en vs ∧ legs_memo (next (shown r')) vs0 vs plan pss.
Proof.
  intros G Hl Hm. split; [by apply (legs_grown r r')|]. eapply legs_next; [apply G| |exact Hm]. clear. induction vs; constructor; [by left|done].
Qed.
Lemma memo_grown r r' id fp o : grown r r' → memo_good r id fp o → memo_good r' id fp o.
Proof.
  intros G (Ho & en & plan & vs0 & vs & pss & ctx & He & Hp & Hl & -> & Hm & Hev & Hc). pose proof G as [G1 _ G3 G4 _]. split; [lia|].
  exists en, plan, vs0, vs, pss, ctx. rewrite G3, G4. destruct (grown_legs _ _ _ _ _ _ _ G Hl Hm). by split_and!.
Qed.
Lemma fresh_grown r r' id : grown r r' → value_of (stage r') id = value_of (stage r) id → fresh_value r id → fresh_value r' id.
Proof.
  intros G Ev Hf en He. pose proof G as [_ G2 G3 _ _]. rewrite G3 in He. destruct (Hf en He) as (v & Hv & Ho & Hs). exists v. rewrite Ev. split_and!; [done| |].
  - unfold current_observation in *. destruct (en_admission en); [done|]. destruct Ho as (vs & ctx & Hl & Hev). exists vs, ctx. split; [by apply (legs_grown r r')|done].
  - unfold current_skew in *. by rewrite G2.
Qed.

(** ** Evaluation *)

(** Everything of the stage but the memo is as it was. *)
Definition same_stage r r' : Prop :=
  staged (stage r') = staged (stage r) ∧ current (stage r') = current (stage r) ∧ staged_time (stage r') = staged_time (stage r) ∧
  instantaneous (stage r') = instantaneous (stage r).
Lemma same_stage_core r r' : core r' = core r → same_stage r r'.
Proof. intros (_ & _ & _ & E & _)%core_parts. unfold same_stage. by rewrite E. Qed.
Lemma same_stage_value r r' id : same_stage r r' → value_of (stage r') id = value_of (stage r) id.
Proof. intros (E1 & E2 & _). unfold value_of. by rewrite E1, E2. Qed.

Lemma fresh_ok en vs r r' o : fresh en vs r = (r', Ok o) →
  grown r r' ∧ stage r' = stage r ∧ next (shown r) ≤ addr o < next (shown r') ∧ ∃ ctx, strategy_evaluate en (map erase vs) ctx = Ok (it o).
Proof.
  unfold Staging.fresh. intros E. apply stbind_ok in E as (? & ? & [-> ->]%getS_ok & E). apply stbind_ok in E as (? & time & [-> Ht]%liftR_ok & E).
  apply stbind_ok in E as (? & ob & [-> Hev]%liftR_ok & E). apply stbind_ok in E as (? & [] & [-> _]%liftR_ok & E).
  apply on_next_alloc in E as (-> & E1 & E2 & E3 & E4 & E5). simpl. rewrite E5. simpl. split_and!; [|done|lia|lia|by eexists].
  split; rewrite ?E5; simpl; [lia|done..].
Qed.

Lemma set_memo_ok id m r r' u : set_memo_of id m r = (r', Ok u) → r' = set_stage (set_memo (partial_alter (λ _, m) id (memo (stage r))) (stage r)) r.
Proof. unfold set_memo_of, on_stage. intros E. by apply modifyS_ok in E. Qed.

Lemma retain_memo_ok id fp o r r' u : retain_memo id fp o (memo (stage r) !! id) r = (r', Ok u) →
  grown r r' ∧ same_stage r r' ∧ shown r' = shown r ∧ (∀ id', id' ≠ id → memo (stage r') !! id' = memo (stage r) !! id') ∧
  (if o_context_free (it o) then ∃ c, memo (stage r') !! id = Some (fp, o, c) else memo (stage r') !! id = None).
Proof.
  unfold retain_memo. intros E. destruct (o_context_free (it o)).
  - apply stbind_ok in E as (r1 & [] & E1%(core_use _ _ _ _ (replace_core _ _)) & ->%set_memo_ok).
    apply core_parts in E1 as (E1 & E2 & E3 & E4 & E5). rewrite E4. split_and!; simpl; [split; simpl; rewrite ?E2; done|by rewrite ?E4|by rewrite E2| |].
    + intros id' Hne. by rewrite lookup_partial_alter_ne.
    + eexists. by rewrite lookup_partial_alter_eq.
  - destruct (memo (stage r) !! id) as [m|] eqn:Em.
    + apply stbind_ok in E as (r1 & [] & E1%(core_use _ _ _ _ (release_core _)) & ->%set_memo_ok).
      apply core_parts in E1 as (E1 & E2 & E3 & E4 & E5). rewrite E4. split_and!; simpl; [split; simpl; rewrite ?E2; done|by rewrite ?E4|by rewrite E2| |].
      * intros id' Hne. by rewrite lookup_partial_alter_ne.
      * by rewrite lookup_partial_alter_eq.
    + apply mretS_ok in E as [-> _]. split_and!; try done.
Qed.

(** What an evaluation leaves behind. *)
Definition evaluated r r' (id : string) (o : obj Observation) : Prop :=
  grown r r' ∧ same_stage r r' ∧ (∀ id', id' ≠ id → memo (stage r') !! id' = memo (stage r) !! id') ∧ addr o < next (shown r') ∧
  ∀ fp k c, memo (stage r') !! id = Some (fp, k, c) → memo_good r' id fp k ∧ (is_ k o = true → k = o).

(** A new object is not the memo's. *)
Lemma evaluated_new r r' id o : memo_ok r → grown r r' → stage r' = stage r → next (shown r) ≤ addr o < next (shown r') → evaluated r r' id o.
Proof.
  intros Hm G Es Ho. split; [done|]. split; [unfold same_stage; by rewrite Es|]. split; [by intros; rewrite Es|]. split; [lia|].
  intros fp k c Hk. rewrite Es in Hk. specialize (Hm id fp k c Hk). split; [by eapply memo_grown|].
  destruct Hm as [Hb _]. intros Hi%Z.eqb_eq. lia.
Qed.

Context (Hhonest : honest).

Lemma evaluate_declared_ok B id en vs plan r r' o :
  inv B r → entities_of r !! id = Some en → en_admission en = None → plans_of (tables r) !! id = Some plan → legs_shown r en vs →
  evaluate_declared id en vs plan r = (r', Ok o) → evaluated r r' id o ∧ ∃ ctx, strategy_evaluate en (map erase vs) ctx = Ok (it o).
Proof.
  intros Hi He Ha Hp Hl E. unfold Staging.evaluate_declared in E. apply stbind_ok in E as (? & fp & [-> Hfp]%liftR_ok & E).
  apply stbind_ok in E as (? & ? & [-> ->]%getS_ok & E).
  destruct (to_plans _ _ (inv_tables _ _ Hi) id plan Hp) as (en' & He' & _ & Hplan & Hlen & Hne). assert (en' = en) as -> by congruence.
  assert (∀ r1 r2 o, fresh en vs r = (r1, Ok o) → retain_memo id fp o (memo (stage r1) !! id) r1 = (r2, Ok ()) →
    evaluated r r2 id o ∧ ∃ ctx, strategy_evaluate en (map erase vs) ctx = Ok (it o)) as Hfresh.
  { intros r1 r2 o1 Ef Er. apply fresh_ok in Ef as (G1 & Es & Ho & ctx & Hev). apply retain_memo_ok in Er as (G2 & S2 & E2 & Hother & Hmemo).
    split; [|by exists ctx]. split_and!; [by eapply grown_trans|unfold same_stage in *; by rewrite Es in S2| |rewrite E2; lia|].
    - intros id' Hid. rewrite Hother by done. by rewrite Es.
    - intros fp' k c Hk. destruct (o_context_free (it o1)) eqn:Ecf; [|congruence]. destruct Hmemo as [c' Hmemo]. rewrite Hmemo in Hk. injection Hk as <- <- <-.
      split; [|done]. assert (Forall (below (next (shown r))) vs) as Hb.
      { eapply legs_below; try done. by rewrite (to_ids _ _ (inv_tables _ _ Hi) id en He). }
      destruct (legs_self (next (shown r)) vs plan fp Hb) as (pss & -> & Hm); [by rewrite (legs_shown_length _ _ _ Hl), Hlen|done|].
      pose proof (grown_trans _ _ _ G1 G2) as G. destruct (grown_legs _ _ _ _ _ _ _ G Hl Hm) as [Hl' Hm'].
      split; [rewrite E2; lia|]. exists en, plan, (map erase vs), vs, pss, ctx. rewrite (gr_entities _ _ G), (gr_tables _ _ G). by split_and!. }
  assert (∀ r1 o, fresh en vs r = (r1, Ok o) → memo (stage r1) = memo (stage r)) as Hsame.
  { intros r1 o1 Ef. apply fresh_ok in Ef as (_ & Es & _). by rewrite Es. }
  destruct (memo (stage r) !! id) as [[[fp0 o0] c0]|] eqn:Em.
  - destruct (same fp0 fp) eqn:Esame.
    + apply mretS_ok in E as [-> ->]. pose proof (inv_memo _ _ Hi id fp0 o0 c0 Em) as (Ho & en' & plan' & vs0 & vs' & pss & ctx & He2 & Hp2 & Hl2 & -> & Hm & Hev & Hcf).
      assert (en' = en) as -> by congruence. assert (plan' = plan) as -> by congruence. assert (vs' = vs) as -> by by eapply legs_shown_unique.
      split.
      * split_and!; try done. intros fp' k c Hk. rewrite Em in Hk. injection Hk as <- <- <-. split; [|done]. exact (inv_memo _ _ Hi id _ _ _ Em).
      * exists ctx. eapply Hhonest; [exact Hplan|by eapply legs_same|done..].
    + apply stbind_ok in E as (r1 & o1 & Ef & E). apply stbind_ok in E as (r2 & [] & Er & E). apply mretS_ok in E as [-> ->].
      apply (Hfresh r1); [done|]. by rewrite (Hsame _ _ Ef), Em.
  - apply stbind_ok in E as (r1 & o1 & Ef & E). apply stbind_ok in E as (r2 & [] & Er & E). apply mretS_ok in E as [-> ->].
    apply (Hfresh r1); [done|]. by rewrite (Hsame _ _ Ef), Em.
Qed.

Lemma current_skew_none r en o : positive (it o) = false → current_skew r en (o, None).
Proof. intros Hp Ht. simpl in Ht. congruence. Qed.

Lemma evaluate_ok B id r r' v : inv B r → evaluate id r = (r', Ok v) →
  evaluated r r' id v.1 ∧ ∃ en, entities_of r !! id = Some en ∧ current_observation r en (it v.1) ∧ current_skew r en v.
Proof.
  intros Hi E. unfold Staging.evaluate in E. apply stbind_ok in E as (? & en & [-> He]%get_ok & E).
  unfold current_observation. destruct (en_admission en) as [status|] eqn:Ea.
  - apply stbind_ok in E as (r1 & o & Eo & E). apply mretS_ok in E as [-> ->].
    apply on_next_alloc in Eo as (-> & E1 & E2 & E3 & E4 & E5). split.
    + apply evaluated_new; [apply (inv_memo _ _ Hi)|split; rewrite ?E5; simpl; [lia|done..]|done|rewrite E5; simpl; lia].
    + exists en. rewrite Ea. split_and!; [done|done|]. by apply current_skew_none.
  - apply stbind_ok in E as (? & vs & [-> Hl]%views_for_ok & E). apply stbind_ok in E as (? & ? & [-> ->]%getS_ok & E).
    apply stbind_ok in E as (r1 & o & Eo & E).
    assert (evaluated r r1 id o ∧ ∃ ctx, strategy_evaluate en (map erase vs) ctx = Ok (it o)) as [Hev Hobs].
    { destruct (plans_of (tables r) !! id) as [plan|] eqn:Ep; [by eapply evaluate_declared_ok|].
      apply fresh_ok in Eo as (G & Es & Ho & Hobs). split; [|done]. apply evaluated_new; [apply (inv_memo _ _ Hi)|done..]. }
    assert (∃ vs ctx, legs_shown r en vs ∧ strategy_evaluate en (map erase vs) ctx = Ok (it o)) as Hcur by (destruct Hobs as [ctx ?]; by exists vs, ctx).
    destruct (positive (it o)) eqn:Epos.
    + apply stbind_ok in E as (? & sk & [-> Hsk]%live_skew_ok & E). apply mretS_ok in E as [-> ->]. split; [done|]. exists en. rewrite Ea. split_and!; [done|done|].
      intros _ _. exists sk. split; [|done]. destruct Hev as ([_ Hv _ _ _] & _). by rewrite <- Hv.
    + apply mretS_ok in E as [-> ->]. split; [done|]. exists en. rewrite Ea. split_and!; [done|done|]. by apply current_skew_none.
Qed.

(** ** Staging *)
(** The value of [id] is now [v]. *)
Definition staged_as (id : string) (v : value) r r' : Prop :=
  grown r r' ∧ memo (stage r') = memo (stage r) ∧ current (stage r') = current (stage r) ∧ staged_time (stage r') = staged_time (stage r) ∧
  ∃ c, staged (stage r') = aset id (v, c) (staged (stage r)).

Lemma staged_as_value id v r r' id' : staged_as id v r r' → value_of (stage r') id' = if decide (id' = id) then Some v else value_of (stage r) id'.
Proof. intros (_ & _ & E1 & _ & c & E2). unfold value_of. rewrite E2, E1, alookup_aset. by destruct (decide _). Qed.

Lemma retain_staged_ok id v b r r' u : retain_staged id v b r = (r', Ok u) → staged_as id v r r'.
Proof.
  unfold retain_staged. intros E. apply stbind_ok in E as (? & ? & [-> ->]%getS_ok & E). apply stbind_ok in E as (r1 & [] & E1 & ->%modifyS_ok).
  assert (grown r r1 ∧ staged (stage r1) = staged (stage r) ∧ current (stage r1) = current (stage r) ∧ staged_time (stage r1) = staged_time (stage r)
    ∧ memo (stage r1) = memo (stage r)) as (G & S1 & S2 & S3 & S4).
  { assert (∀ r2 n, core r2 = core (set_stage (set_instantaneous n (stage r)) r) → grown r r2 ∧ staged (stage r2) = staged (stage r) ∧
      current (stage r2) = current (stage r) ∧ staged_time (stage r2) = staged_time (stage r) ∧ memo (stage r2) = memo (stage r)) as Hk.
    { intros r2 n (F1 & F2 & F3 & F4 & F5)%core_parts. split; [split|]; rewrite ?F1, ?F2, ?F3, ?F4, ?F5; simpl; done. }
    assert (set_stage (set_instantaneous (instantaneous (stage r)) (stage r)) r = r) as Hid by by destruct r as [? ? ? [] ?].
    destruct (alookup id (staged (stage r))) as [[previous old]|].
    2: { apply (Hk r1 (instantaneous (stage r))). rewrite Hid. exact (core_use _ _ _ _ (charge_core _) E1). }
    apply stbind_ok in E1 as (r2 & [] & E2 & E3). apply (core_use _ _ _ _ (replace_core _ _)) in E3.
    destruct (b && positive (it previous.1) && negb (same_value previous v)).
    - apply stbind_ok in E2 as (r3 & [] & ->%modifyS_ok & E4). eapply Hk. rewrite E3.
      destruct (_ =? 1); [|by apply mretS_ok in E4 as [-> _]]. exact (core_use _ _ _ _ (charge_core _) E4).
    - apply mretS_ok in E2 as [-> _]. apply (Hk r1 (instantaneous (stage r))). by rewrite Hid. }
  unfold staged_as. simpl. split_and!; [split; apply G|done|done|done|]. exists (observation_cost (it v.1)). by rewrite S1.
Qed.

(** *** Values one by one *)

(** [id] has a new value, and everything else is as it was. *)
Record replaced (id : string) r r' : Prop := Replaced {
  rp_grown : grown r r'; rp_time : staged_time (stage r') = staged_time (stage r);
  rp_others : ∀ id', id' ≠ id → value_of (stage r') id' = value_of (stage r) id';
}.

Lemma values_replaced B id v r r1 r' : inv B r → is_Some (staged_time (stage r)) → evaluated r r1 id v.1 → staged_as id v r1 r' →
  inv B r' ∧ replaced id r r' ∧ value_of (stage r') id = Some v.
Proof.
  intros Hi Ht (G1 & S1 & Hother & Hb & Hmemo) Hst. pose proof Hst as (G2 & M2 & _ & T2 & _). pose proof (grown_trans _ _ _ G1 G2) as G.
  assert (∀ id', value_of (stage r') id' = if decide (id' = id) then Some v else value_of (stage r) id') as Hval.
  { intros id'. rewrite (staged_as_value id v r1 r' id' Hst). destruct (decide _); [done|]. by apply same_stage_value. }
  assert (staged_time (stage r') = staged_time (stage r)) as Et by (rewrite T2; by destruct S1 as (_ & _ & ? & _)).
  split_and!; [split|split|].
  - rewrite (gr_entities _ _ G), (gr_tables _ _ G). apply (inv_tables _ _ Hi).
  - eapply views_grown; [exact G|apply Hi].
  - intros id' fp o c Hm. rewrite M2 in Hm. destruct (decide (id' = id)) as [->|Hne].
    + destruct (Hmemo _ _ _ Hm) as [Hg _]. exact (memo_grown r1 r' id fp o G2 Hg).
    + rewrite Hother in Hm by done. eapply memo_grown; [exact G|]. by eapply (inv_memo _ _ Hi).
  - intros id' w Hw. rewrite Hval in Hw. rewrite M2. destruct (decide (id' = id)) as [->|Hne].
    + injection Hw as <-. split; [pose proof (gr_next _ _ G2); lia|]. intros fp o c Hm. by apply Hmemo in Hm as [_ ?].
    + destruct (inv_values _ _ Hi id' w Hw) as [Hb' Hsame]. split; [pose proof (gr_next _ _ G); lia|]. rewrite Hother by done. exact Hsame.
  - intros En. rewrite Et in En. rewrite En in Ht. by destruct Ht.
  - destruct Hst as (_ & _ & _ & _ & c & ->). apply (aset_keys json_loads). destruct S1 as (-> & _). apply Hi.
  - exact G.
  - exact Et.
  - intros id' Hne. rewrite Hval. by rewrite decide_False.
  - rewrite Hval. by rewrite decide_True.
Qed.

Lemma stage_one_ok B id r r' u : inv B r → is_Some (staged_time (stage r)) →
  (v ← evaluate id; retain_staged id v true) r = (r', Ok u) → inv B r' ∧ replaced id r r' ∧ fresh_value r' id.
Proof.
  intros Hi Ht E. apply stbind_ok in E as (r1 & v & Ev & Er%retain_staged_ok).
  apply (evaluate_ok _ _ _ _ _ Hi) in Ev as (Hev & en & He & Hobs & Hsk).
  destruct (values_replaced _ _ _ _ _ _ Hi Ht Hev Er) as (Hi' & Hr & Hv). split_and!; [done|done|].
  intros en' He'. pose proof (rp_grown _ _ _ Hr) as G. rewrite (gr_entities _ _ G) in He'. assert (en' = en) as -> by congruence.
  exists v. split_and!; [done| |].
  - unfold current_observation in *. destruct (en_admission en); [done|]. destruct Hobs as (vs & ctx & Hl & Hobs). exists vs, ctx. split; [by apply (legs_grown r r')|done].
  - unfold current_skew in *. by rewrite (gr_views _ _ G).
Qed.

Lemma replaced_fresh id r r' id' : replaced id r r' → id' ≠ id → fresh_value r id' → fresh_value r' id'.
Proof. intros [G _ Ho] Hne. apply fresh_grown; [done|by apply Ho]. Qed.

(** Only values of [ids] are new. *)
Record restaged (ids : gset string) r r' : Prop := Restaged {
  rs_grown : grown r r';
  rs_others : ∀ id', id' ∉ ids → value_of (stage r') id' = value_of (stage r) id';
}.

Lemma begin_stage_ok B time r r' u : inv B r → begin_stage time r = (r', Ok u) →
  inv B r' ∧ restaged ∅ r r' ∧ staged_time (stage r') = Some time ∧ (staged_time (stage r) = None ∨ staged_time (stage r) = Some time).
Proof.
  intros Hi E. unfold begin_stage in E. apply stbind_ok in E as (? & ? & [-> ->]%getS_ok & E).
  destruct (staged_time (stage r)) as [t|] eqn:Et.
  - apply requireS_ok in E as [E%Z.eqb_eq ->]. subst t. split_and!; [done| |done|by right]. by split.
  - apply modifyS_ok in E as ->. destruct Hi as [I1 I2 I3 I4 I5 I6]. split_and!; [|by split|done|by left]. by split.
Qed.

Lemma forS_stage_ok B l : ∀ r r' u, inv B r → is_Some (staged_time (stage r)) →
  forS (λ id, v ← evaluate id; retain_staged id v true) l r = (r', Ok u) →
  inv B r' ∧ restaged (list_to_set l) r r' ∧ staged_time (stage r') = staged_time (stage r) ∧ ∀ id, id ∈ l → fresh_value r' id.
Proof.
  induction l as [|id l IH]; intros r r' u Hi Ht E; simpl in E.
  - apply mretS_ok in E as [-> _]. split_and!; [done|by split|done|by intros id ?%not_elem_of_nil].
  - apply stbind_ok in E as (r1 & [] & E1 & E). destruct (stage_one_ok _ _ _ _ _ Hi Ht E1) as (Hi1 & Hr1 & Hf1).
    assert (is_Some (staged_time (stage r1))) as Ht1 by by rewrite (rp_time _ _ _ Hr1).
    destruct (IH r1 r' u Hi1 Ht1 E) as (Hi' & [G Ho] & Et & Hf). split_and!; [done| |by rewrite Et; apply Hr1|].
    + split; [eapply grown_trans; [apply Hr1|done]|]. intros id' Hid'. rewrite Ho by set_solver. apply (rp_others _ _ _ Hr1). set_solver.
    + intros id' Hid'. destruct (decide (id' ∈ l)) as [|Hn]; [by apply Hf|]. apply elem_of_cons in Hid' as [->|]; [|done].
      eapply fresh_grown; [exact G|apply Ho; set_solver|done].
Qed.

Lemma stage_at_ok B time ids r r' u : inv B r → stage_at time ids r = (r', Ok u) →
  inv B r' ∧ restaged ids r r' ∧ staged_time (stage r') = Some time ∧ ∀ id, id ∈ ids → fresh_value r' id.
Proof.
  intros Hi E. unfold Staging.stage_at in E. apply stbind_ok in E as (r1 & [] & E1 & E).
  destruct (begin_stage_ok _ _ _ _ _ Hi E1) as (Hi1 & [G1 Ho1] & Et1 & _).
  destruct (forS_stage_ok B _ r1 r' u Hi1 ltac:(by rewrite Et1) E) as (Hi' & [G Ho] & Et & Hf).
  assert (∀ id, id ∈ sorted (elements ids) ↔ id ∈ ids) as Hin by (intros id; rewrite sorted_elem; apply elem_of_elements).
  split_and!; [done| |congruence|intros id Hid; by apply Hf, Hin].
  split; [by eapply grown_trans|]. intros id' Hid'. rewrite Ho, Ho1; [done|set_solver|]. rewrite elem_of_list_to_set. by rewrite Hin.
Qed.

(** *** Skew alone *)
Definition current_value r (id : string) : Prop := ∀ en, entities_of r !! id = Some en →
  ∃ v, value_of (stage r) id = Some v ∧ current_observation r en (it v.1).

Lemma stage_skew_ok B time id r r' u : inv B r → stage_skew time id r = (r', Ok u) →
  inv B r' ∧ restaged {[id]} r r' ∧ (staged_time (stage r') = staged_time (stage r) ∨ staged_time (stage r') = Some time) ∧
  (current_value r id → fresh_value r' id).
Proof.
  intros Hi E. unfold Staging.stage_skew in E. apply stbind_ok in E as (? & en & [-> He]%get_ok & E). fold (skew_free en) in E.
  destruct (skew_free en) eqn:Efree.
  { apply mretS_ok in E as [-> _]. split_and!; [done|by split|by left|]. intros Hc en' He'.
    assert (en' = en) as -> by congruence. destruct (Hc en He) as (v & Hv & Hobs). exists v. split_and!; [done|done|]. intros _ Hf. congruence. }
  apply stbind_ok in E as (? & ? & [-> ->]%getS_ok & E). apply stbind_ok in E as (? & [o previous] & [-> Hv]%liftR_ok & E).
  destruct (value_of (stage r) id) as [w|] eqn:Ew; [|done]. injection Hv as ->.
  apply stbind_ok in E as (? & sk & [-> Hsk]%live_skew_ok & E). case_bool_decide as Eprev.
  - apply mretS_ok in E as [-> _]. split_and!; [done|by split|by left|]. intros Hc en' He'. assert (en' = en) as -> by congruence.
    destruct (Hc en He) as (v & Hv & Hobs). assert (v = (o, previous)) as -> by congruence.
    exists (o, previous). split_and!; [done|done|]. intros _ _. by exists sk.
  - apply stbind_ok in E as (r1 & [] & E1 & E). destruct (begin_stage_ok _ _ _ _ _ Hi E1) as (Hi1 & [G1 Ho1] & Et1 & _).
    apply retain_staged_ok in E. specialize (Ho1 id ltac:(set_solver)) as Ev1. rewrite Ew in Ev1.
    destruct (inv_values _ _ Hi1 id _ Ev1) as [Hb Hsame].
    assert (evaluated r1 r1 id o) as Hev.
    { split_and!; try done. intros fp k c Hk. split; [by eapply (inv_memo _ _ Hi1)|by eapply Hsame]. }
    destruct (values_replaced B id (o, Some sk) _ _ _ Hi1 ltac:(by rewrite Et1) Hev E) as (Hi' & [G' Et' Ho'] & Hv').
    split_and!; [done| |right; congruence|].
    + split; [by eapply grown_trans|]. intros id' Hid'. rewrite Ho', Ho1 by set_solver. done.
    + intros Hc en' He'. pose proof (grown_trans _ _ _ G1 G') as G. rewrite (gr_entities _ _ G) in He'. assert (en' = en) as -> by congruence.
      exists (o, Some sk). split_and!; [done| |].
      * destruct (Hc en He) as (v & Hv & Hobs). assert (v = (o, previous)) as -> by congruence. unfold current_observation in *. destruct (en_admission en); [done|].
        destruct Hobs as (vs & ctx & Hl & Hobs). exists vs, ctx. split; [by apply (legs_grown r r')|done].
      * intros _ _. exists sk. by rewrite (gr_views _ _ G).
Qed.

(** ** Committing *)
Ltac engine_frame := intros; first [reflexivity | apply frame_write; intros; reflexivity].
Lemma commit_entities en t o sk : frame (@entities W O) (commit dumps sha256 json_loads x fill_value en t o sk).
Proof.
  unfold commit. apply frame_bind; [apply frame_commit_measurement; engine_frame|]. intros _. destruct (_ && _); [done|].
  apply frame_forS. intros kind. apply frame_commit_kind; engine_frame.
Qed.
Lemma close_scope_entities t why c : frame (@entities W O) (close_scope dumps sha256 json_loads x t why c).
Proof.
  unfold close_scope. repeat first [apply frame_emit_measurements; engine_frame | apply frame_release; engine_frame
    | apply frame_close_episodes; engine_frame | apply frame_move_fill; engine_frame | apply frame_write_denominators; engine_frame | apply frame_setter; engine_frame | frame_step].
Qed.

Lemma commit_entities_core en t o sk : frame core (on_engine (commit dumps sha256 json_loads x fill_value en t o sk)).
Proof. apply on_engine_core, commit_entities. Qed.

Definition keep_current (m : gmap string value) (sv : string * (value * Z)) : gmap string value := <[sv.1 := sv.2.1]> m.

Lemma commits_ok time l : ∀ r r' u, forS (commit_staged dumps sha256 json_loads x fill_value time) l r = (r', Ok u) →
  grown r r' ∧ shown r' = shown r ∧ stage r' = set_current (foldl keep_current (current (stage r)) l) (stage r).
Proof.
  induction l as [|[id [[o sk] c]] l IH]; intros r r' u E; simpl in E.
  - apply mretS_ok in E as [-> _]. split_and!; [done|done|by destruct (stage r)].
  - apply stbind_ok in E as (r1 & [] & E1 & E). unfold commit_staged in E1. apply stbind_ok in E1 as (? & en & [-> _]%get_ok & E1). cbn [fst snd] in E1.
    apply stbind_ok in E1 as (r2 & [] & ->%modifyS_ok & E1). apply (core_use _ _ _ _ (commit_entities_core _ _ _ _)) in E1.
    apply core_parts in E1 as (F1 & F2 & F3 & F4 & F5). destruct (IH _ _ _ E) as (G & Hs & Hst). rewrite F2 in Hs. rewrite F4 in Hst. simpl in *.
    split_and!; [|done|done]. eapply grown_trans; [|exact G]. split; rewrite ?F1, ?F2, ?F3, ?F5; simpl; done.
Qed.

Lemma keep_current_lookup l : ∀ m id, NoDup (map fst l) → foldl keep_current m l !! id = match alookup id l with Some (v, _) => Some v | None => m !! id end.
Proof.
  induction l as [|[k [v c]] l IH]; intros m id Hnd; [done|]. simpl in Hnd. apply NoDup_cons in Hnd as [Hk Hnd]. simpl. rewrite IH by done.
  destruct (String.eqb_spec id k) as [->|Hne].
  - assert (alookup k l = None) as ->; [|unfold keep_current; simpl; by rewrite lookup_insert_eq].
    clear -Hk. induction l as [|[k' a] l IH]; [done|]. simpl. destruct (String.eqb_spec k k') as [->|]; [exfalso; apply Hk; left|].
    apply IH. intros Hin. apply Hk. by right.
  - unfold keep_current. simpl. by rewrite lookup_insert_ne.
Qed.
Lemma alookup_perm {A} (l k : list (string * A)) id : Permutation l k → NoDup (map fst l) → alookup id l = alookup id k.
Proof.
  intros Hp. induction Hp as [|[a b] l k Hp IH|[a b] [c d] l|l1 l2 l3 Hp1 IH1 Hp2 IH2]; intros Hnd; [done|..].
  - simpl in Hnd. apply NoDup_cons in Hnd as [_ Hnd]. simpl. by rewrite IH.
  - simpl in Hnd. apply NoDup_cons in Hnd as [Hn _]. simpl. destruct (String.eqb_spec id a), (String.eqb_spec id c); subst; try done.
    exfalso. apply Hn. left.
  - rewrite IH1 by done. apply IH2. by rewrite <- Hp1.
Qed.

(** Values move from staged to current. *)
Lemma flush_ok B r r' u : inv B r → flush_stage r = (r', Ok u) →
  inv B r' ∧ restaged ∅ r r' ∧ staged_time (stage r') = None.
Proof.
  intros Hi E. unfold Staging.flush_stage in E. apply stbind_ok in E as (? & ? & [-> ->]%getS_ok & E).
  destruct (staged_time (stage r)) as [time|] eqn:Et; [|apply mretS_ok in E as [-> _]; by split_and!].
  apply stbind_ok in E as (r1 & [] & E1 & E). assert (r1 = r) as ->.
  { clear -E1. revert r1 E1. induction (staged (stage r)) as [|sv l IH]; intros r1 E1; simpl in E1; [by apply mretS_ok in E1 as [-> _]|].
    apply stbind_ok in E1 as (r2 & [] & E2 & E1). apply stbind_ok in E2 as (? & en & [-> _]%get_ok & E2). apply mretS_ok in E2 as [-> _]. by apply IH. }
  apply stbind_ok in E as (r2 & [] & E2 & E). apply commits_ok in E2 as (G & Hs & Hst).
  apply stbind_ok in E as (r3 & [] & E3 & ->%modifyS_ok). apply (core_use _ _ _ _ (release_core _)) in E3. apply core_parts in E3 as (F1 & F2 & F3 & F4 & F5).
  assert (grown r (set_stage (set_staged_time None (set_staged [] (stage r3))) r3)) as G'.
  { eapply grown_trans; [exact G|]. split; simpl; rewrite ?F2; simpl; done. }
  assert (∀ id, value_of (set_staged_time None (set_staged [] (stage r3))) id = value_of (stage r) id) as Hval.
  { intros id. unfold value_of. simpl. rewrite F4, Hst. simpl. rewrite keep_current_lookup.
    - rewrite <- (alookup_perm (staged (stage r))) by (apply Hi || (symmetry; apply sort_by_perm)). done.
    - rewrite sort_by_perm. apply Hi. }
  assert (memo (stage r3) = memo (stage r)) as Hm by by rewrite F4, Hst.
  assert (next (shown r3) = next (shown r)) as Hn by by rewrite F2, Hs.
  split_and!; [split|split|]; simpl.
  - pose proof (gr_entities _ _ G') as He. pose proof (gr_tables _ _ G') as Ht. simpl in He, Ht. rewrite He, Ht. apply Hi.
  - eapply views_grown; [exact G'|apply Hi].
  - intros id fp o c Hk. simpl in Hk. rewrite Hm in Hk. eapply memo_grown; [exact G'|]. by eapply (inv_memo _ _ Hi).
  - intros id v Hv. simpl in Hv. rewrite Hval in Hv. simpl. rewrite Hn, Hm. by apply Hi.
  - done.
  - constructor.
  - exact G'.
  - intros id _. apply Hval.
  - done.
Qed.
End Staging.
