(* ===== verification/StagingScopes.v ===== *)
(** * Loading a scope ([Runtime._scope] and [_advance] of [runtime.py])

    The tables a scope derives from its entities say, for every declared entity, which
    sides of which books its observation may depend on; entering a scope forgets what was
    observed in the one before and stages every entity of the new one. *)
From stdpp Require Import gmap strings sorting.
From S2P Require Import Prelude Order Wire Json EconomicFills BookProtocol Decoder FillChecks LineWriter EconomicTypes Intervals Episodes EpisodesProps Views ViewsProps ViewsCuts Staging Fingerprints StagingProps.

(** ** The tables *)
Section Tables.
Context {O : Type}.
Implicit Types (en : Entity O) (done ens : list (Entity O)) (t : Tables).

(** What a scope's entities are: [resolve] refuses two of one identity, and a declared leg
    names at least one input. *)
Definition well_declared ens : Prop :=
  NoDup (map en_id ens) ∧ ∀ en inputs, en ∈ ens → en_inputs en = Some inputs → Forall (λ ins, ins ≠ []) (take (length (en_legs en)) inputs).

(** The tables of the entities added so far. *)
Record tables_of done t : Prop := TablesOf {
  td_plans : ∀ id plan, plans_of t !! id = Some plan → ∃ en, en ∈ done ∧ en_id en = id ∧ en_admission en = None ∧
    plan_of en = Some plan ∧ length plan = length (en_legs en);
  td_reads : ∀ id k rd, reads t !! (id, k) = Some rd → ∃ en inputs plan, en ∈ done ∧ en_id en = id ∧
    en_inputs en = Some inputs ∧ plans_of t !! id = Some plan ∧
    ∀ i ins, en_legs en !! i = Some k → inputs !! i = Some ins → ∀ s, s ∈ ins → source_sides s.1 ⊆ rd;
  td_reverse : ∀ en k, en ∈ done → en_admission en = None → k ∈ en_legs en → en_id en ∈ default ∅ (reverse t !! k);
}.

Lemma add_read_grows en l rs : ∀ x rd, rs !! x = Some rd → ∃ rd', foldl (add_read en) rs l !! x = Some rd' ∧ rd ⊆ rd'.
Proof.
  revert rs. induction l as [|[k ins] l IH]; intros rs x rd Hx; [by exists rd|]. simpl.
  destruct (decide (x = (en_id en, k))) as [->|Hne].
  - edestruct (IH (add_read en rs (k, ins))) as (rd' & E & Hs); [unfold add_read; simpl; rewrite lookup_insert_eq, Hx; done|].
    exists rd'. split; [done|]. simpl in Hs. set_solver.
  - destruct (IH (add_read en rs (k, ins)) x rd) as (rd' & E & Hs); [|by exists rd'].
    unfold add_read. simpl. by rewrite lookup_insert_ne.
Qed.
Lemma add_read_other en l rs id k : id ≠ en_id en → foldl (add_read en) rs l !! (id, k) = rs !! (id, k).
Proof.
  intros Hne. revert rs. induction l as [|[k' ins] l IH]; intros rs; [done|]. simpl. rewrite IH. unfold add_read. simpl.
  rewrite lookup_insert_ne; [done|congruence].
Qed.
(** Every input of a leg is read on the leg's book. *)
Lemma add_read_covers en l rs k ins s : (k, ins) ∈ l → s ∈ ins →
  ∃ rd, foldl (add_read en) rs l !! (en_id en, k) = Some rd ∧ source_sides s.1 ⊆ rd.
Proof.
  revert rs. induction l as [|[k' ins'] l IH]; intros rs Hin Hs; [by apply not_elem_of_nil in Hin|]. simpl.
  apply elem_of_cons in Hin as [[= -> ->]|Hin]; [|by apply IH].
  edestruct (add_read_grows en l (add_read en rs (k', ins'))) as (rd & E & Hrd); [unfold add_read; simpl; by rewrite lookup_insert_eq|].
  exists rd. split; [done|]. etrans; [|exact Hrd]. etrans; [|apply union_subseteq_r].
  apply (list_elem_of_fmap_2 (λ i : string * option Z, source_sides i.1)) in Hs. simpl in Hs.
  intros y Hy. apply elem_of_union_list. by exists (source_sides s.1).
Qed.

Lemma add_reverse_lookup en ks rv k id : id ∈ default ∅ (foldl (add_reverse en) rv ks !! k) ↔
  id ∈ default ∅ (rv !! k) ∨ id = en_id en ∧ k ∈ ks.
Proof.
  revert rv. induction ks as [|k' ks IH]; intros rv; simpl.
  - split; [by left|]. intros [?|[_ ?%not_elem_of_nil]]; done.
  - rewrite IH. unfold add_reverse. destruct (decide (k = k')) as [->|Hne].
    + rewrite lookup_insert_eq. simpl. rewrite elem_of_cons. set_solver.
    + rewrite lookup_insert_ne by done. rewrite elem_of_cons. set_solver.
Qed.

Lemma check_inputs_ok en inputs u : check_inputs en inputs = Ok u → length (en_legs en) = length inputs.
Proof.
  unfold check_inputs. intros E. res_inv.
  repeat match goal with H : (_ && _) = true |- _ => apply andb_true_iff in H as [? ?] end.
  repeat match goal with H : (_ <=? _)%nat = true |- _ => apply Nat.leb_le in H end. lia.
Qed.

Lemma add_entity_ok done t en t' : en_id en ∉ map en_id done → tables_of done t → add_entity t en = Ok t' → tables_of (done ++ [en]) t'.
Proof.
  intros Hnew [T1 T2 T3] E. unfold add_entity in E.
  assert (∀ id e, e ∈ done → en_id e = id → id ≠ en_id en) as Hid by (intros id e Hin <- Heq; apply Hnew; rewrite <- Heq; by apply list_elem_of_fmap_2).
  destruct (en_admission en) as [status|] eqn:Ea.
  { injection E as <-. split.
    - intros id plan Hp. destruct (T1 id plan Hp) as (e & He & Hrest). exists e. split; [set_solver|done].
    - intros id k rd Hr. destruct (T2 id k rd Hr) as (e & inputs & plan & He & Hrest). exists e, inputs, plan. split; [set_solver|done].
    - intros e k He Ha. apply elem_of_app in He as [He|[->|?%not_elem_of_nil]%elem_of_cons]; [by apply T3|congruence|done]. }
  apply bind_ok in E as (u & Ec & E). injection E as <-. split; simpl.
  - intros id plan Hp. destruct (en_inputs en) as [inputs|] eqn:Ei.
    + apply check_inputs_ok in Ec. destruct (decide (id = en_id en)) as [->|Hne].
      * rewrite lookup_insert_eq in Hp. injection Hp as <-. exists en. split_and!; [set_solver|done|done| |].
        -- unfold plan_of. rewrite Ei. done.
        -- rewrite length_map, length_take. lia.
      * rewrite lookup_insert_ne in Hp by done. destruct (T1 id plan Hp) as (e & He & Hrest). exists e. split; [set_solver|done].
    + destruct (T1 id plan Hp) as (e & He & Hrest). exists e. split; [set_solver|done].
  - intros id k rd Hr. destruct (en_inputs en) as [inputs|] eqn:Ei.
    + destruct (decide (id = en_id en)) as [->|Hne].
      * exists en, inputs, (map (map input_of) (take (length (en_legs en)) inputs)). rewrite lookup_insert_eq. split_and!; [set_solver|done|done|done|].
        intros i ins Hk Hins s Hs. destruct (add_read_covers en (zip2 (en_legs en) inputs) (reads t) k ins s) as (rd' & E & Hsub); [|done|].
        -- by eapply list_elem_of_lookup_2, zip2_lookup.
        -- rewrite E in Hr. by injection Hr as <-.
      * rewrite add_read_other in Hr by done. destruct (T2 id k rd Hr) as (e & ins & plan & He & H1 & H2 & H3 & H4). exists e, ins, plan.
        rewrite lookup_insert_ne by done. split_and!; [set_solver|done..].
    + destruct (T2 id k rd Hr) as (e & ins & plan & He & Hrest). exists e, ins, plan. split; [set_solver|done].
  - intros e k He Ha Hk. apply add_reverse_lookup. apply elem_of_app in He as [He|[->|?%not_elem_of_nil]%elem_of_cons]; [left; by apply T3|by right|done].
Qed.

Lemma add_entities_ok ens : ∀ done t t', NoDup (map en_id (done ++ ens)) → tables_of done t → foldR add_entity t ens = Ok t' → tables_of (done ++ ens) t'.
Proof.
  induction ens as [|en ens IH]; intros done t t' Hnd Ht E; simpl in E.
  - injection E as <-. by rewrite app_nil_r.
  - apply bind_ok in E as (t1 & E1 & E). rewrite cons_middle, app_assoc in Hnd |- *. eapply IH; [done| |done].
    eapply add_entity_ok; [|done|done]. rewrite !map_app in Hnd. apply NoDup_app in Hnd as (Hnd & _ & _).
    apply NoDup_app in Hnd as (_ & Hnd & _). intros Hin. apply (Hnd _ Hin). left.
Qed.

Lemma empty_tables cost specs : tables_of [] (mkTables ∅ ∅ ∅ cost specs).
Proof. split; simpl; [by intros ? ? ?|by intros ? ? ? ?|by intros ? ? ?%not_elem_of_nil]. Qed.

Lemma scope_tables ens t t0 builders : well_declared ens → foldR add_entity t0 ens = Ok t → tables_of [] t0 →
  forallb (λ k, bool_decide (k ∈ map fst builders)) (map fst (map_to_list (reverse t))) = true →
  tables_ok builders (list_to_map (map (λ e, (en_id e, e)) ens)) t.
Proof.
  intros [Hnd Hne] E H0 Hb. pose proof (add_entities_ok ens [] t0 t Hnd H0 E) as [T1 T2 T3]. simpl in *.
  assert (∀ id en, (list_to_map (map (λ e, (en_id e, e)) ens) : gmap string (Entity O)) !! id = Some en ↔ en ∈ ens ∧ en_id en = id) as Hens.
  { intros id en. rewrite <- elem_of_list_to_map.
    - split; [intros (e & [= -> ->] & He)%list_elem_of_fmap; done|]. intros [He <-]. apply list_elem_of_fmap. by exists en.
    - assert (map fst (map (λ e : Entity O, (en_id e, e)) ens) = map en_id ens) as Ek by (rewrite map_map; by apply map_ext). unfold fmap, list_fmap in *.
      change (NoDup (map fst (map (λ e : Entity O, (en_id e, e)) ens))). by rewrite Ek. }
  split.
  - intros id en [_ He]%Hens. done.
  - intros id plan Hp. destruct (T1 id plan Hp) as (en & He & Hid & Ha & Hpl & Hlen). exists en. split_and!; [by apply Hens|done|done|done|].
    unfold plan_of in Hpl. destruct (en_inputs en) as [inputs|] eqn:Ei; [|done]. injection Hpl as <-.
    apply Forall_fmap. eapply Forall_impl; [by eapply Hne|]. intros ins Hins Hm. apply Hins. by destruct ins.
  - intros id k rd Hr. destruct (T2 id k rd Hr) as (en & inputs & plan & He & Hid & Hrest). exists en, inputs, plan. split; [by apply Hens|done].
  - intros id en k [He <-]%Hens. by apply T3.
  - intros id en k [He <-]%Hens Ha Hk. pose proof (T3 en k He Ha Hk) as Hin. rewrite forallb_forall in Hb.
    destruct (reverse t !! k) as [ids|] eqn:Er; [|set_solver]. specialize (Hb k). apply bool_decide_eq_true in Hb; [done|].
    apply list_elem_of_In, list_elem_of_fmap. exists (k, ids). split; [done|]. by apply elem_of_map_to_list.
Qed.
End Tables.

(** ** Scopes of the runtime *)
Section Scopes.
Context (dumps : json → list Byte.byte) (sha256 : list Byte.byte → string)
        (json_loads : string → result json).
Context {W : Type} `{RowWriter W} {O : Type} `{CompareLaws O}.
Context (x : Experiment).
Context (fill_value : Entity O → Z → valuation).
Context (resolve : Z → result (list (Entity O)))
        (strategy_evaluate : Entity O → list view_value → EvalContext → result Observation)
        (fill_spec : Entity O → result FillSpec).
Context (builders : list (key * ViewBuilder)) (price_scale : key → result Z).

Local Abbreviation Runtime := (@Staging.Runtime W O).
Local Abbreviation stage_at := (Staging.stage_at x strategy_evaluate).
Local Abbreviation flush_stage := (Staging.flush_stage dumps sha256 json_loads x fill_value).
Local Abbreviation load_scope := (Staging.load_scope x resolve fill_spec builders price_scale).
Local Abbreviation cross := (Staging.cross dumps sha256 json_loads x resolve strategy_evaluate fill_spec builders price_scale).
Local Abbreviation advance_scopes := (Staging.advance_scopes dumps sha256 json_loads x fill_value resolve strategy_evaluate fill_spec builders price_scale).
Local Abbreviation inv := (StagingProps.inv strategy_evaluate builders).
Local Abbreviation fresh_value := (StagingProps.fresh_value x strategy_evaluate).
Implicit Type r : Runtime.

Context (Hhonest : honest strategy_evaluate).
Context (Hscopes : ∀ n ens, resolve n = Ok ens → well_declared ens).

Definition all_fresh r : Prop := ∀ id, fresh_value r id.

Lemma on_engine_modify f r r' u : on_engine (modifyS f) r = (r', Ok u) → r' = set_engine (f (engine r)) r.
Proof. unfold on_engine, zoomS. simpl. by intros [= <-]. Qed.
Lemma on_stage_ok f r r' u : on_stage f r = (r', Ok u) → r' = set_stage (f (stage r)) r.
Proof. unfold on_stage. by intros ->%modifyS_ok. Qed.
Lemma on_clock_ok {A} (m : ST CutClock A) r r' a : on_clock m r = (r', Ok a) →
  ∃ c, m (clock (control r)) = (c, Ok a) ∧ r' = set_control (mkControl c (sequence (control r)) (bound (control r)) (terminal (control r)) (poisoned (control r))) r.
Proof. unfold on_clock, on_control, zoomS. simpl. destruct (m (clock (control r))) as [c b]. intros [= <- ->]. by exists c. Qed.

(** Control alone is of no concern to views and values. *)
Lemma inv_control B c r : inv B r → inv B (set_control c r).
Proof. intros [I1 I2 I3 I4 I5 I6]. by split. Qed.

(** What a scope starts from: the views of before, and no values. *)
Record entered_scope B r r' : Prop := EnteredScope {
  es_inv : inv B r'; es_shown : shown r' = shown r; es_control : control r' = control r;
  es_time : staged_time (stage r') = staged_time (stage r);
}.

Lemma load_scope_ok B n r r' u : views_ok builders B r → staged (stage r) = [] → load_scope n r = (r', Ok u) → entered_scope B r r'.
Proof.
  intros Hv Hst E. unfold Staging.load_scope in E. apply stbind_ok in E as (? & ens & [-> Hens]%liftR_ok & E).
  apply stbind_ok in E as (? & ? & [-> ->]%getS_ok & E). apply stbind_ok in E as (r1 & [] & E1%(core_use _ _ _ _ (replace_core _ _)) & E).
  apply stbind_ok in E as (r2 & [] & E2%(core_use _ _ _ _ (release_core _)) & E). apply stbind_ok in E as (r3 & [] & ->%on_stage_ok & E).
  apply stbind_ok in E as (? & t & [-> Ht]%liftR_ok & E). apply stbind_ok in E as (? & [] & [Hb ->]%requireS_ok & E).
  pose proof (scope_tables ens t _ builders (Hscopes n ens Hens) Ht (empty_tables _ _) Hb) as Htab. clear Ht Hb.
  rewrite E1 in E2. apply core_parts in E2 as (F1 & F2 & F3 & F4 & F5).
  assert (∀ t' rr, (∀ ids : gmap string (Entity O), tables_ok builders ids t → tables_ok builders ids t') → entities_of rr = list_to_map (map (λ e, (en_id e, e)) ens) →
    shown rr = shown r2 → stage rr = set_memo ∅ (set_current ∅ (stage r2)) → control rr = control r2 → entered_scope B r (set_tables t' rr)) as Hdone.
  { intros t' rr Htt K1 K2 K3 K4. assert (∀ id, value_of (stage (set_tables t' rr)) id = None) as Hnone.
    { intros id. unfold value_of. simpl. rewrite K3. simpl. by rewrite F4, Hst. }
    split; [split| | |]; simpl.
    - change (tables_ok builders (entities_of rr) t'). rewrite K1. apply Htt. exact Htab.
    - intros k vb Hkb. change (shown (set_tables t' rr)) with (shown rr). rewrite K2, F2. by apply Hv.
    - intros id fp o c Hm. change (stage (set_tables t' rr)) with (stage rr) in Hm. by rewrite K3 in Hm.
    - intros id v Hval. by rewrite Hnone in Hval.
    - intros _. by rewrite K3; simpl; rewrite F4.
    - change (stage (set_tables t' rr)) with (stage rr). rewrite K3. simpl. rewrite F4, Hst. constructor.
    - congruence.
    - congruence.
    - rewrite K3. simpl. by rewrite F4. }
  destruct (EconomicTypes.fills x).
  - apply stbind_ok in E as (? & specs & [-> Hspecs]%liftR_ok & E).
    apply stbind_ok in E as (r4 & [] & E4%(core_use _ _ _ _ (replace_core _ _)) & E).
    apply core_parts in E4 as (G1 & G2 & G3 & G4 & G5). apply stbind_ok in E as (r5 & [] & ->%on_engine_modify & ->%modifyS_ok).
    apply Hdone; [|done|exact G2|exact G4|exact G5]. intros ids [T1 T2 T3 T4 T5]. by split.
  - apply stbind_ok in E as (r5 & [] & ->%on_engine_modify & ->%modifyS_ok). apply Hdone; [|done..]. by intros.
Qed.

(** ** Entering scopes *)
Lemma close_scope_core t why c r r' u : on_engine (close_scope dumps sha256 json_loads x t why c) r = (r', Ok u) → core r' = core r.
Proof. apply core_use. apply on_engine_core, close_scope_entities. Qed.

Lemma fresh_control c r : all_fresh r → all_fresh (set_control c r).
Proof. intros Hf id. exact (Hf id). Qed.
Lemma all_fresh_restaged r r' : restaged ∅ r r' → all_fresh r → all_fresh r'.
Proof. intros [G Ho] Hf id. eapply fresh_grown; [exact G|apply Ho; set_solver|apply Hf]. Qed.

Lemma cross_ok B at_ r r' affected : inv B r → staged_time (stage r) = None → cross at_ r = (r', Ok affected) →
  inv B r' ∧ all_fresh r' ∧ clock (control r') = (Intervals.advance at_ (clock (control r))).1.
Proof.
  intros Hi Ht E. unfold Staging.cross in E. apply stbind_ok in E as (r1 & [] & E1%close_scope_core & E).
  pose proof (core_parts _ _ E1) as (F1 & F2 & F3 & F4 & F5). apply (core_inv strategy_evaluate builders B) in E1; [|exact Hi].
  apply stbind_ok in E as (r2 & [] & (c & Ec & ->)%on_clock_ok & E). apply modifyS_ok in Ec as ->.
  apply stbind_ok in E as (? & ? & [-> ->]%getS_ok & E). apply stbind_ok in E as (r3 & [] & E3 & E).
  assert (staged (stage r1) = []) as Hnil by (apply (inv_staged _ _ _ _ E1); by rewrite F4).
  match type of E3 with load_scope _ (set_control ?c _) = _ => apply (inv_control B c) in E1 end.
  destruct (load_scope_ok B _ _ _ _ (inv_views _ _ _ _ E1) Hnil E3) as [Hi3 _ Hc3 _].
  apply stbind_ok in E as (? & ? & [-> ->]%getS_ok & E). apply stbind_ok in E as (r4 & [] & E4 & E). apply mretS_ok in E as [-> ->].
  case_bool_decide as Hnone.
  - apply mretS_ok in E4 as [-> _]. split_and!; [done| |by rewrite Hc3; simpl; rewrite F5].
    intros id en He. apply elem_of_dom_2 in He. rewrite Hnone in He. set_solver.
  - destruct (stage_at_ok json_loads x _ _ Hhonest _ _ _ _ _ _ Hi3 E4) as (Hi4 & [G _] & _ & Hf). split_and!; [done| |].
    + intros id en He. rewrite (gr_entities _ _ G) in He. apply elem_of_dom_2 in He as Hd. apply (Hf id Hd). by rewrite (gr_entities _ _ G).
    + rewrite (gr_control _ _ G), Hc3. simpl. by rewrite F5.
Qed.

(** After the scopes that ended by [t] were left, none is left to leave. *)
Lemma no_boundary t c : boundary_by (Intervals.advance t c).1 t = None.
Proof.
  unfold Intervals.advance. destruct (advance_loop _ t c []) as [c' crossed] eqn:E.
  apply advance_loop_ok in E as (Ee & _ & _ & _ & Hstop); [|lia]. unfold boundary_by. simpl. rewrite Ee.
  destruct (_ <? _)%nat eqn:El; [|done]. destruct (scope_ends c !! Intervals.scope c') as [b|] eqn:Eb; [|done]. simpl.
  apply Nat.ltb_lt in El. specialize (Hstop b eq_refl El). destruct (Z.ltb_spec t b); [done|lia].
Qed.
Lemma boundary_leaves c time at_ : boundary_by c time = Some at_ →
  at_ ≤ time ∧ (Intervals.scope c < Intervals.scope (Intervals.advance at_ c).1)%nat ∧ scope_ends (Intervals.advance at_ c).1 = scope_ends c ∧ (Intervals.scope c < length (scope_ends c))%nat.
Proof.
  unfold boundary_by. destruct (_ <? _)%nat eqn:El; [|done]. destruct (scope_ends c !! Intervals.scope c) as [b|] eqn:Eb; [|done]. simpl.
  destruct (Z.ltb_spec time b); [done|]. intros [= ->]. apply Nat.ltb_lt in El. split; [done|]. pose proof (no_boundary at_ c) as Hno.
  unfold Intervals.advance in *. destruct (advance_loop _ at_ c []) as [c' crossed] eqn:E. apply advance_loop_ok in E as (Ee & _ & Hle & _ & _); [|lia]. simpl in *.
  split_and!; [|done|lia]. destruct (decide (Intervals.scope c' = Intervals.scope c)) as [Es|]; [|lia]. unfold boundary_by in Hno. simpl in Hno. rewrite Ee, Es, Eb in Hno.
  rewrite (proj2 (Nat.ltb_lt _ _) El) in Hno. simpl in Hno. by rewrite Z.ltb_irrefl in Hno.
Qed.

(** Nothing is staged, or no scope is left to leave. *)
Definition may_advance time r : Prop := staged_time (stage r) = None ∨ boundary_by (clock (control r)) time = None.

Lemma flush_all B r r' u : inv B r → all_fresh r → flush_stage r = (r', Ok u) →
  inv B r' ∧ all_fresh r' ∧ staged_time (stage r') = None ∧ control r' = control r.
Proof.
  intros Hi Hf E. apply (flush_ok _ _ _ _ _ _ _ B _ _ _ Hi) in E as (Hi' & Hr & Ht). split_and!; [done| |done|].
  - by eapply all_fresh_restaged.
  - apply Hr.
Qed.

(** What one crossing leaves for the next. *)
Lemma step_ok B time at_ r r1 affected : inv B r → may_advance time r → boundary_by (clock (control r)) time = Some at_ → cross at_ r = (r1, Ok affected) →
  inv B r1 ∧ all_fresh r1 ∧ clock (control r1) = (Intervals.advance at_ (clock (control r))).1 ∧ (at_ <? time = false → may_advance time r1).
Proof.
  intros Hi Hm Hb E. assert (staged_time (stage r) = None) as Ht by (destruct Hm as [|]; [done|congruence]).
  destruct (cross_ok B _ _ _ _ Hi Ht E) as (Hi1 & Hf1 & Hc1). split_and!; [done..|]. intros Hge%Z.ltb_ge. right.
  apply boundary_leaves in Hb as [Hle _]. rewrite Hc1. assert (at_ = time) as -> by lia. apply no_boundary.
Qed.

Lemma advance_scopes_ok B fuel time : ∀ r r' entered e, inv B r → all_fresh r → may_advance time r →
  advance_scopes fuel time entered r = (r', Ok e) → inv B r' ∧ all_fresh r'.
Proof.
  induction fuel as [|fuel IH]; intros r r' entered e Hi Hf Hm E; cbn [Staging.advance_scopes] in E; [by apply liftR_ok in E as [_ ?]|].
  apply stbind_ok in E as (? & ? & [-> ->]%getS_ok & E). destruct (boundary_by (clock (control r)) time) as [at_|] eqn:Eb.
  - apply stbind_ok in E as (r1 & affected & E1 & E). destruct (step_ok B _ _ _ _ _ Hi Hm Eb E1) as (Hi1 & Hf1 & _ & Hm1).
    destruct (at_ <? time); [|by eapply IH; [..|exact E]; auto].
    apply stbind_ok in E as (r2 & [] & E2 & E). destruct (flush_all B _ _ _ Hi1 Hf1 E2) as (Hi2 & Hf2 & Ht2 & _).
    eapply IH; [exact Hi2|exact Hf2|by left|exact E].
  - apply stbind_ok in E as (r1 & [] & (c & _ & ->)%on_clock_ok & E). apply mretS_ok in E as [-> _]. split; [by apply inv_control|by apply fresh_control].
Qed.

(** The fuel of [advance] is enough: every crossing leaves a scope behind. *)
Lemma advance_enough B time f1 : ∀ f2 r entered, inv B r → may_advance time r →
  (length (scope_ends (clock (control r))) - Intervals.scope (clock (control r)) < f1)%nat →
  (length (scope_ends (clock (control r))) - Intervals.scope (clock (control r)) < f2)%nat →
  advance_scopes f1 time entered r = advance_scopes f2 time entered r.
Proof.
  induction f1 as [|f1 IH]; intros [|f2] r entered Hi Hm Hf1 Hf2; [lia..|]. cbn [Staging.advance_scopes].
  unfold mbind, ST_bind, getS. destruct (boundary_by (clock (control r)) time) as [at_|] eqn:Eb; [|done].
  destruct (cross at_ r) as [r1 [affected|e]] eqn:E1; [|done]. destruct (step_ok B _ _ _ _ _ Hi Hm Eb E1) as (Hi1 & Hfr1 & Hc1 & Hm1).
  apply boundary_leaves in Eb as (_ & Hlt & Hends & Hlen).
  destruct (at_ <? time).
  - destruct (flush_stage r1) as [r2 [[]|e]] eqn:E2; [|done]. destruct (flush_all B _ _ _ Hi1 Hfr1 E2) as (Hi2 & _ & Ht2 & Hc2).
    apply IH; [done|by left|..]; rewrite Hc2, Hc1, Hends; lia.
  - apply IH; [done|by apply Hm1|..]; rewrite Hc1, Hends; lia.
Qed.
End Scopes.
