(* ===== verification/StagingCuts.v ===== *)
(** * Observations along accepted cuts ([Runtime.__call__] of [runtime.py])

    After every cut the observation of every entity, staged or current, is the one its
    strategy returns for the views of the decoder's books as they are now, although only the
    entities whose declared inputs may have changed were evaluated again. *)
From stdpp Require Import gmap strings sorting.
From S2P Require Import Prelude Order Wire Json EconomicFills BookProtocol Decoder FillChecks LineWriter EconomicTypes Intervals Episodes EpisodesProps Views ViewsProps ViewsCuts Staging Fingerprints StagingProps StagingScopes.

Section Cuts.
Context (dumps : json → list Byte.byte) (sha256 : list Byte.byte → string)
        (json_loads : string → result json).
Context {W : Type} `{RowWriter W} {O : Type} `{CompareLaws O}.
Context (x : Experiment).
Context (fill_value : Entity O → Z → valuation).
Context (resolve : Z → result (list (Entity O)))
        (strategy_evaluate : Entity O → list view_value → EvalContext → result Observation)
        (fill_spec : Entity O → result FillSpec) (bind : json → result ()).
Context (builders : list (key * ViewBuilder)) (price_scale : key → result Z).

Local Abbreviation Runtime := (@Staging.Runtime W O).
Local Abbreviation stage_at := (Staging.stage_at x strategy_evaluate).
Local Abbreviation stage_skew := (Staging.stage_skew x).
Local Abbreviation select_one := (Staging.select_one x).
Local Abbreviation select := (Staging.select x).
Local Abbreviation inv := (StagingProps.inv strategy_evaluate builders).
Local Abbreviation views_ok := (StagingProps.views_ok builders).
Local Abbreviation fresh_value := (StagingProps.fresh_value x strategy_evaluate).
Local Abbreviation current_value := (StagingProps.current_value x strategy_evaluate).
Local Abbreviation all_fresh := (StagingScopes.all_fresh x strategy_evaluate).
Local Abbreviation set_view := (Staging.set_view x).
Local Abbreviation refresh_view := (Staging.refresh_view x).
Local Abbreviation initial_view := (Staging.initial_view x).
Local Abbreviation call := (Staging.call dumps sha256 json_loads x fill_value resolve strategy_evaluate fill_spec bind builders price_scale).
Implicit Type r : Runtime.

Context (Hhonest : honest strategy_evaluate).
Context (Hscopes : ∀ n ens, resolve n = Ok ens → well_declared ens).
Context (Hkeys : NoDup (map fst builders)) (Hbuilders : ∀ k vb, (k, vb) ∈ builders → builder_ok vb).

(** ** Views replaced *)
Lemma on_next_ok {A} (m : ST Z A) r r' a : on_next m r = (r', Ok a) →
  ∃ n, m (next (shown r)) = (n, Ok a) ∧ r' = set_shown (mkShown n (book_views (shown r)) (view_costs (shown r))) r.
Proof. unfold on_next, zoomS. simpl. destruct (m (next (shown r))) as [n b]. intros [= <- ->]. by exists n. Qed.

Lemma set_view_ok k sizes v r r' u : set_view k sizes v r = (r', Ok u) →
  entities_of r' = entities_of r ∧ tables r' = tables r ∧ stage r' = stage r ∧ control r' = control r ∧
  next (shown r') = next (shown r) ∧ book_views (shown r') = <[k := v]> (book_views (shown r)).
Proof.
  unfold Staging.set_view. intros E. apply stbind_ok in E as (? & ? & [-> ->]%getS_ok & E).
  apply stbind_ok in E as (r1 & [] & E1%(core_use _ _ _ _ (replace_core _ _)) & E). apply core_parts in E1 as (F1 & F2 & F3 & F4 & F5).
  apply stbind_ok in E as (r2 & [] & ->%on_engine_modify & ->%modifyS_ok). unfold entities_of in *. simpl. by rewrite F1, F2, F3, F4, F5.
Qed.

(** Some views were replaced by later ones of their books. *)
Record refreshed (changed : touched) r r' : Prop := Refreshed {
  rf_next : next (shown r) ≤ next (shown r'); rf_entities : entities_of r' = entities_of r; rf_tables : tables r' = tables r;
  rf_stage : stage r' = stage r; rf_control : control r' = control r;
  rf_same : ∀ k, changed !! k = None → book_views (shown r') !! k = book_views (shown r) !! k;
}.
Lemma refreshed_trans changed r1 r2 r3 : refreshed changed r1 r2 → refreshed changed r2 r3 → refreshed changed r1 r3.
Proof. intros [R1 R2 R3 R4 R5 R6] [K1 K2 K3 K4 K5 K6]. split; [lia|congruence..|]. intros k Hk. by rewrite K6, R6. Qed.

(** The views of legs, as views are replaced. *)
Lemma legs_moved (R : BookView → BookView → Prop) r r' en vs : legs_shown r en vs →
  (∀ k v, k ∈ en_legs en → book_views (shown r) !! k = Some v → ∃ v', book_views (shown r') !! k = Some v' ∧ R v v') →
  ∃ vs', legs_shown r' en vs' ∧ Forall2 R vs vs'.
Proof.
  unfold legs_shown. intros Hl. induction Hl as [|k v ks vs Hk _ IH]; intros Hmove; [by exists []; split; constructor|].
  destruct (Hmove k v) as (v' & E & HR); [left|done|]. destruct IH as (vs' & E' & HR'); [intros k' v1 Hin; apply Hmove; by right|].
  exists (v' :: vs'). split; by constructor.
Qed.

Lemma views_replace B B1 k v r r' vb : inv B r → (k, vb) ∈ builders → book_inv (B1 k) → current_view vb (B1 k) (next (shown r')) v →
  (∀ k', k' ≠ k → B1 k' = B k') → next (shown r) ≤ next (shown r') → book_views (shown r') = <[k := v]> (book_views (shown r)) → views_ok B1 r'.
Proof.
  intros Hi Hk Hbi Hcv Hother Hn Hviews k' vb' Hk'. rewrite Hviews. destruct (decide (k' = k)) as [->|Hne].
  - assert (vb' = vb) as ->.
    { apply list_elem_of_lookup in Hk as [i Hki]. apply list_elem_of_lookup in Hk' as [j Hkj].
      assert (i = j) as -> by (eapply (NoDup_lookup _ _ _ k Hkeys); apply list_lookup_fmap_Some; by eexists (_, _)). congruence. }
    exists v. rewrite lookup_insert_eq. by split_and!.
  - rewrite lookup_insert_ne, Hother by done. destruct (inv_views _ _ _ _ Hi k' vb' Hk') as (v' & E & Hb & Hp & He).
    exists v'. split_and!; [done|done|]. split; [|done]. eapply prior_of_mono; [exact Hn|exact Hp].
Qed.

Lemma refresh_one B B1 books time changed k vb r r' u :
  inv B r → (k, vb) ∈ builders → books !! k = Some (B1 k) → known (changed !! k) (B k) (B1 k) → book_inv (B1 k) → (∀ k', k' ≠ k → B1 k' = B k') →
  refresh_view books time changed (k, vb) r = (r', Ok u) → inv B1 r' ∧ refreshed changed r r'.
Proof.
  intros Hi Hk Hbook Hkn Hbi Hother E. unfold Staging.refresh_view in E. simpl in E. destruct (changed !! k) as [sides|] eqn:Ec.
  2: { apply mretS_ok in E as [-> _]. split; [|by split]. destruct Hi as [I1 I2 I3 I4 I5 I6]. split; try done.
       intros k' vb' Hk'. destruct (decide (k' = k)) as [->|Hne]; [|rewrite Hother by done]; [rewrite Hkn|]; by apply I2. }
  unfold book_at in E. rewrite Hbook in E. apply stbind_ok in E as (? & b & [-> [= <-]]%liftR_ok & E). apply stbind_ok in E as (? & ? & [-> ->]%getS_ok & E).
  apply stbind_ok in E as (r1 & w & (n' & Eb & ->)%on_next_ok & E). apply set_view_ok in E as (F1 & F2 & F3 & F4 & F5 & F6). simpl in *.
  destruct (inv_views _ _ _ _ Hi k vb Hk) as (v & Ev & Hb0 & Hprior & Hval). rewrite Ev in Eb.
  destruct (build_exact vb (Hbuilders k vb Hk) (B1 k) time (Some v) sides (book_levels (B k)) (book_levels (B1 k)) (next (shown r))) as (n1 & w1 & E1 & Hn1 & Hp1 & Hv1 & Hin).
  { intros. by apply (levels_shown vb (Hbuilders k vb Hk)). }
  { by intros ? [= <-]. }
  { intros v0 ts side [= <-] -> Hu Hu0 Hs. by apply (known_unaffected vb (Hbuilders k vb Hk) ts (B k) (B1 k)). }
  rewrite Eb in E1. injection E1 as <- <-. specialize (Hin v eq_refl).
  assert (last_change w = time) as Ht by (apply (f_equal vv_time) in Hv1; exact Hv1).
  assert (∀ k' v', book_views (shown r) !! k' = Some v' → ∃ v'', book_views (shown r') !! k' = Some v'' ∧ (v'' = v' ∨ inherits (next (shown r)) v' v'')) as Hmove.
  { intros k' v' Hv'. rewrite F6. destruct (decide (k' = k)) as [->|Hne].
    - exists w. rewrite lookup_insert_eq. split; [done|]. right. congruence.
    - exists v'. rewrite lookup_insert_ne by done. split; [done|by left]. }
  split; [split|split].
  - rewrite F1, F2. apply Hi.
  - eapply (views_replace B B1 k w r); try done; [|by rewrite F5]. rewrite F5. split; [done|]. by rewrite Ht.
  - intros id fp o c Hm. rewrite F3 in Hm. destruct (inv_memo _ _ _ _ Hi id fp o c Hm) as (Ho & en & plan & vs0 & vs & pss & ctx & He & Hp & Hl & -> & Hmm & Hrest).
    split; [lia|]. destruct (legs_moved (λ v v', v' = v ∨ inherits (next (shown r)) v v') r r' en vs Hl) as (vs' & Hl' & Hvs); [intros; by apply Hmove|].
    exists en, plan, vs0, vs', pss, ctx. rewrite F1, F2. split_and!; [done|done|done|done| |apply Hrest|apply Hrest].
    eapply legs_next; [|exact Hvs|exact Hmm]. lia.
  - intros id val Hval'. rewrite F3 in *. destruct (inv_values _ _ _ _ Hi id val Hval'). split; [lia|done].
  - intros Ht'. rewrite F3 in *. by apply (inv_staged _ _ _ _ Hi).
  - rewrite F3. apply Hi.
  - lia.
  - exact F1.
  - exact F2.
  - exact F3.
  - exact F4.
  - intros k' Hk'. rewrite F6, lookup_insert_ne; [done|]. congruence.
Qed.

(** All views at once. *)
Lemma refresh_all (B' : key → Book) books time changed l : ∀ B r r' u, (∀ kb, kb ∈ l → kb ∈ builders) → NoDup (map fst l) → inv B r →
  (∀ k vb, (k, vb) ∈ l → books !! k = Some (B' k) ∧ known (changed !! k) (B k) (B' k) ∧ book_inv (B' k)) →
  forS (refresh_view books time changed) l r = (r', Ok u) →
  refreshed changed r r' ∧ inv (λ k, if decide (k ∈ map fst l) then B' k else B k) r'.
Proof.
  induction l as [|[k vb] l IH]; intros B r r' u Hsub Hnd Hi Hbs E; cbn [forS] in E.
  - apply mretS_ok in E as [-> _]. split; [by split|]. destruct Hi as [I1 I2 I3 I4 I5 I6]. split; try done.
  - apply stbind_ok in E as (r1 & [] & E1 & E). simpl in Hnd. apply NoDup_cons in Hnd as [Hnew Hnd].
    destruct (Hbs k vb) as (Hbook & Hkn & Hbi); [left|].
    destruct (refresh_one B (λ k', if decide (k' = k) then B' k' else B k') books time changed k vb r r1 ()) as [Hi1 Hr1]; try done.
    + apply Hsub. left.
    + by rewrite decide_True.
    + by rewrite decide_True.
    + by rewrite decide_True.
    + intros k' Hne. by rewrite decide_False.
    + destruct (IH (λ k', if decide (k' = k) then B' k' else B k') r1 r' u) as [Hr2 Hi2]; [intros; apply Hsub; by right|done|done| |done|].
      * intros k' vb' Hin. rewrite decide_False; [apply (Hbs k' vb'); by right|]. intros ->. apply Hnew.
        apply list_elem_of_fmap. by exists (k, vb').
      * split; [by eapply refreshed_trans|]. destruct Hi2 as [I1 I2 I3 I4 I5 I6]. split; try done. intros k' vb' Hk'. destruct (I2 k' vb' Hk') as (v & Hv).
        exists v. revert Hv. simpl. destruct (decide (k' ∈ map fst l)) as [Hl|Hl].
        -- rewrite decide_True by (by right). done.
        -- destruct (decide (k' = k)) as [->|Hne]; [rewrite decide_True by (by left)|rewrite decide_False by (by intros [?|?]%elem_of_cons)]; done.
Qed.

(** ** What is not selected *)

(** The memo still vouches for [v]: the fingerprint of today is that of its inputs. *)
Definition vouched r (id : string) (v : value) : Prop := ∃ fp0 o c fp,
  memo (stage r) !! id = Some (fp0, o, c) ∧ is_ o v.1 = true ∧ input_fingerprint id r = (r, Ok fp) ∧ same fp0 fp = true.

(** Why the value of [id] stands although the book [k] changed. *)
Definition spared (sides : option (gmap string Z)) (skew_only : gset string) (k : key) r (id : string) : Prop := ∃ v rd,
  value_of (stage r) id = Some v ∧ o_context_free (it v.1) = true ∧ reads (tables r) !! (id, k) = Some rd ∧
  ((∃ ss, sides = Some ss ∧ rd ## dom ss) ∨ vouched r id v) ∧ (positive (it v.1) = true → id ∈ skew_only).

Lemma memo_holds_ok id v r r' b : memo_holds id v r = (r', Ok b) → r' = r ∧ (b = true → vouched r id v).
Proof.
  unfold memo_holds. intros E. apply stbind_ok in E as (? & ? & [-> ->]%getS_ok & E).
  destruct (memo (stage r) !! id) as [[[fp0 o] c]|] eqn:Em; [|by apply mretS_ok in E as [-> ->]].
  destruct (is_ o v.1) eqn:Ei; [|by apply mretS_ok in E as [-> ->]]. simpl in E.
  apply stbind_ok in E as (r1 & fp & Ef & E). apply mretS_ok in E as [-> ->]. pose proof (input_fingerprint_ok _ _ _ _ Ef) as [-> _].
  split; [done|]. intros Hs. by exists fp0, o, c, fp.
Qed.
Lemma unmoved_ok k sides id v r r' b : unmoved k sides id v r = (r', Ok b) → r' = r ∧
  (b = true → o_context_free (it v.1) = true ∧ ∃ rd, reads (tables r) !! (id, k) = Some rd ∧ ((∃ ss, sides = Some ss ∧ rd ## dom ss) ∨ vouched r id v)).
Proof.
  unfold unmoved. intros E. apply stbind_ok in E as (? & ? & [-> ->]%getS_ok & E).
  destruct (reads (tables r) !! (id, k)) as [rd|] eqn:Er; [|by apply mretS_ok in E as [-> ->]].
  destruct (o_context_free (it v.1)) eqn:Ec; [|by apply mretS_ok in E as [-> ->]]. simpl in E.
  destruct (match sides with Some ss => bool_decide (rd ## dom ss) | None => false end) eqn:Es.
  - apply mretS_ok in E as [-> ->]. split; [done|]. intros _. split; [done|]. exists rd. split; [done|]. left.
    destruct sides as [ss|]; [|done]. apply bool_decide_eq_true in Es. by exists ss.
  - apply memo_holds_ok in E as [-> Hb]. split; [done|]. intros Ht. split; [done|]. exists rd. split; [done|]. right. by apply Hb.
Qed.

Lemma select_one_ok k sides A S id r r' A' S' : select_one k sides (A, S) id r = (r', Ok (A', S')) →
  r' = r ∧ A ⊆ A' ∧ S ⊆ S' ∧ (id ∉ A' → spared sides S' k r id).
Proof.
  unfold Staging.select_one. intros E. destruct (decide (id ∈ A)) as [Hin|Hin].
  { apply mretS_ok in E as [-> [= -> ->]]. by split_and!. }
  apply stbind_ok in E as (? & ? & [-> ->]%getS_ok & E). destruct (_ && _).
  { apply mretS_ok in E as [-> [= -> ->]]. split_and!; [done|set_solver|done|set_solver]. }
  destruct (value_of (stage r) id) as [v|] eqn:Ev.
  2: { apply mretS_ok in E as [-> [= -> ->]]. split_and!; [done|set_solver|done|set_solver]. }
  apply stbind_ok in E as (r1 & ok & (-> & Hok)%unmoved_ok & E). destruct ok; simpl in E.
  2: { apply mretS_ok in E as [-> [= -> ->]]. split_and!; [done|set_solver|done|set_solver]. }
  apply mretS_ok in E as [-> [= -> ->]]. destruct (Hok eq_refl) as (Hc & rd & Hr & Hwhy).
  split_and!; [done|done|destruct (positive _); set_solver|]. intros _. exists v, rd. split_and!; [done..|]. intros ->. set_solver.
Qed.

Lemma spared_mono sides S S' k r id : S ⊆ S' → spared sides S k r id → spared sides S' k r id.
Proof. intros Hs (v & rd & P1 & P2 & P3 & P4 & P5). exists v, rd. split_and!; [done..|]. intros Hp. by apply Hs, P5. Qed.

Lemma foldS_select {A} (f : gset string * gset string → A → ST Runtime (gset string * gset string)) (P : A → gset string * gset string → Prop) r l :
  (∀ a s r' s', f s a r = (r', Ok s') → r' = r ∧ s.1 ⊆ s'.1 ∧ s.2 ⊆ s'.2 ∧ P a s') →
  (∀ a s s', s.1 ⊆ s'.1 → s.2 ⊆ s'.2 → P a s → P a s') →
  ∀ s r' s', foldS f s l r = (r', Ok s') → r' = r ∧ s.1 ⊆ s'.1 ∧ s.2 ⊆ s'.2 ∧ ∀ a, a ∈ l → P a s'.
Proof.
  intros Hf HP. induction l as [|a l IH]; intros s r' s' E; simpl in E.
  - apply mretS_ok in E as [-> ->]. split_and!; try done. by intros a ?%not_elem_of_nil.
  - apply stbind_ok in E as (r1 & s1 & (-> & P1 & P2 & P3)%Hf & E). destruct (IH _ _ _ E) as (-> & K1 & K2 & K3).
    split_and!; [done|set_solver|set_solver|]. intros b [->|Hb]%elem_of_cons; [by eapply HP|by apply K3].
Qed.

(** All changes together. *)
Lemma select_all changed A r r' A' S' : foldS select (A, ∅) (map_to_list changed) r = (r', Ok (A', S')) →
  r' = r ∧ A ⊆ A' ∧ ∀ k sides id, changed !! k = Some sides → id ∈ default ∅ (reverse (tables r) !! k) → id ∉ A' → spared sides S' k r id.
Proof.
  set (P (c : key * option (gmap string Z)) (s : gset string * gset string) := ∀ id, id ∈ default ∅ (reverse (tables r) !! c.1) → id ∉ s.1 → spared c.2 s.2 c.1 r id).
  assert (∀ k sides id (s s' : gset string * gset string), s.1 ⊆ s'.1 → s.2 ⊆ s'.2 → (id ∉ s.1 → spared sides s.2 k r id) → id ∉ s'.1 → spared sides s'.2 k r id) as Hmono.
  { intros k sides id s s' P1 P2 Hp Hid. eapply spared_mono; [exact P2|]. apply Hp. set_solver. }
  intros E. apply (foldS_select select P r) in E as (-> & HA & _ & HP).
  - split_and!; [done|done|]. intros k sides id Hk Hid Hn. apply (HP (k, sides)); [by apply elem_of_map_to_list|done|done].
  - intros [k sides] s r1 s1 Es. unfold Staging.select in Es. apply stbind_ok in Es as (? & ? & [-> ->]%getS_ok & Es). simpl in Es.
    apply (foldS_select (select_one k sides) (λ id s, id ∉ s.1 → spared sides s.2 k r id) r) in Es as (-> & P1 & P2 & P3).
    + split_and!; [done..|]. intros id Hid. apply P3. by apply elem_of_elements.
    + intros id [A1 S1] r2 [A2 S2]. apply select_one_ok.
    + intros id s2 s3. by apply Hmono.
  - intros [k sides] s s' P1 P2 Hp id Hid. eapply Hmono; [exact P1|exact P2|]. by apply Hp.
Qed.

(** ** Values that stand *)
Lemma mapR_ext_in {A C} (f g : A → result C) l : (∀ a, a ∈ l → f a = g a) → mapR f l = mapR g l.
Proof.
  induction l as [|a l IH]; intros Hfg; [done|]. simpl. rewrite (Hfg a) by left. destruct (g a); [|done]. cbn [mbind result_bind].
  by rewrite IH by (intros; apply Hfg; by right).
Qed.
Lemma skew_same (edges : list Z) (m m' : gmap key BookView) (keys : list key) (legs : list nat) : (∀ k, k ∈ keys → m !! k = m' !! k) → skew_of edges m keys legs = skew_of edges m' keys legs.
Proof.
  intros Hm. unfold skew_of. assert (∀ ks, (∀ k, k ∈ ks → k ∈ keys) →
    mapR (λ k, match m !! k with Some v => Ok (last_change v) | None => Err KeyError end) ks =
    mapR (λ k, match m' !! k with Some v => Ok (last_change v) | None => Err KeyError end) ks) as Hks.
  { intros ks Hsub. apply mapR_ext_in. intros k Hk. by rewrite Hm by auto. }
  destruct legs as [|leg legs]; [cbn [mbind result_bind]; by rewrite Hks|].
  destruct (mapR _ (leg :: legs)) as [ks|] eqn:E; [|done]. cbn [mbind result_bind]. rewrite Hks; [done|].
  intros k Hk. apply mapR_ok in E. apply list_elem_of_lookup in Hk as [j Hj]. destruct (Forall2_lookup_r _ _ _ _ _ E Hj) as (i & _ & Hi).
  destruct (keys !! i) as [k'|] eqn:Ek; [|done]. injection Hi as <-. by apply list_elem_of_lookup_2 in Ek.
Qed.

(** By the memo. *)
Lemma vouched_current B r id v en : inv B r → value_of (stage r) id = Some v → vouched r id v → entities_of r !! id = Some en →
  ∃ vs ctx, legs_shown r en vs ∧ strategy_evaluate en (map erase vs) ctx = Ok (it v.1).
Proof.
  intros Hi Hv (fp0 & o & c & fp & Hm & His & Hf & Hs) He. destruct (inv_values _ _ _ _ Hi id v Hv) as [_ Hval]. rewrite <- (Hval _ _ _ Hm His).
  destruct (inv_memo _ _ _ _ Hi id _ _ _ Hm) as (_ & en0 & plan & vs0 & vs & pss & ctx & He0 & Hp & Hl & -> & Hmm & Hev & Hc).
  assert (en0 = en) as -> by congruence. apply input_fingerprint_ok in Hf as (_ & en1 & vs1 & plan1 & He1 & Hl1 & Hp1 & Hfp).
  assert (en1 = en) as -> by congruence. assert (plan1 = plan) as -> by congruence. assert (vs1 = vs) as -> by by eapply legs_shown_unique.
  destruct (to_plans _ _ _ (inv_tables _ _ _ _ Hi) id plan Hp) as (en2 & He2 & _ & Hplan & _ & Hne). assert (en2 = en) as -> by congruence.
  exists vs, ctx. split; [done|]. eapply Hhonest; [exact Hplan|by eapply legs_same|done..].
Qed.

(** What the books of two moments have to do with each other. *)
Definition came_from (changed : touched) (B B' : key → Book) : Prop := ∀ k vb, (k, vb) ∈ builders →
  known (changed !! k) (B k) (B' k) ∧ book_inv (B' k).

(** By the sides read: a leg's declared inputs are the same. *)
Lemma leg_untouched B B' changed r r' k v v' ins rd : inv B r → inv B' r' → refreshed changed r r' → came_from changed B B' → k ∈ map fst builders →
  book_views (shown r) !! k = Some v → book_views (shown r') !! k = Some v' → (∀ s, s ∈ ins → source_sides s.1 ⊆ rd) →
  changed !! k = None ∨ (∃ ss, changed !! k = Some (Some ss) ∧ rd ## dom ss) →
  inputs_of (erase v) (map input_of ins) = inputs_of (erase v') (map input_of ins).
Proof.
  intros Hi Hi' Hr Hfrom Hk Hv Hv' Hrd Hc. destruct (changed !! k) as [sides|] eqn:Ec.
  - destruct Hc as [|(ss & [= ->] & Hdis)]; [done|]. apply list_elem_of_fmap in Hk as ([k' vb] & Ek & Hk). simpl in Ek. subst k'.
    destruct (inv_views _ _ _ _ Hi k vb Hk) as (v1 & E1 & Hb1 & _ & Hval1). destruct (inv_views _ _ _ _ Hi' k vb Hk) as (v2 & E2 & Hb2 & _ & Hval2).
    assert (v1 = v) as -> by congruence. assert (v2 = v') as -> by congruence. rewrite Hval1, Hval2.
    destruct (Hfrom k vb Hk) as [Hkn _]. rewrite Ec in Hkn. by apply (untouched_inputs vb _ _ _ _ ins rd ss (Hbuilders k vb Hk)).
  - assert (v' = v) as ->; [|done]. rewrite (rf_same _ _ _ Hr k Ec) in Hv'. congruence.
Qed.

Lemma untouched_current B B' changed r r' id en vs ctx o inputs plan : inv B r → inv B' r' → refreshed changed r r' → came_from changed B B' →
  entities_of r' !! id = Some en → en_admission en = None → en_inputs en = Some inputs → plans_of (tables r') !! id = Some plan →
  legs_shown r en vs → strategy_evaluate en (map erase vs) ctx = Ok o → o_context_free o = true →
  (∀ k, k ∈ en_legs en → changed !! k = None ∨ ∃ ss rd, changed !! k = Some (Some ss) ∧ reads (tables r') !! (id, k) = Some rd ∧ rd ## dom ss) →
  ∃ vs', legs_shown r' en vs' ∧ strategy_evaluate en (map erase vs') ctx = Ok o.
Proof.
  intros Hi Hi' Hr Hfrom He Ha Hin Hp Hl Hev Hc Hwhy. pose proof (inv_tables _ _ _ _ Hi') as Ht.
  destruct (to_plans _ _ _ Ht id plan Hp) as (en1 & He1 & _ & Hplan & Hlen & _). assert (en1 = en) as -> by congruence.
  destruct (legs_moved (λ _ _, True) r r' en vs Hl) as (vs' & Hl' & _).
  { intros k v Hk _. pose proof (to_legs _ _ _ Ht id en k He Ha Hk) as Hb. apply list_elem_of_fmap in Hb as ([k' vb] & Ek & Hb). simpl in Ek. subst k'.
    destruct (inv_views _ _ _ _ Hi' k vb Hb) as (v' & E & _). by exists v'. }
  exists vs'. split; [done|]. eapply Hhonest; [exact Hplan| |done|done].
  pose proof Hplan as Hplan'. unfold plan_of in Hplan'. rewrite Hin in Hplan'. injection Hplan' as <-.
  pose proof (legs_shown_length _ _ _ Hl) as N1. pose proof (legs_shown_length _ _ _ Hl') as N2.
  split_and!; [by rewrite length_map, N1|by rewrite length_map, N2|]. apply list_eq. intros i. rewrite !lookup_zip_with.
  change (map erase vs) with (erase <$> vs). change (map erase vs') with (erase <$> vs'). rewrite !list_lookup_fmap.
  destruct (en_legs en !! i) as [k|] eqn:Ek.
  2: { apply lookup_ge_None in Ek. assert (vs !! i = None) as -> by (apply lookup_ge_None; lia). assert (vs' !! i = None) as -> by (apply lookup_ge_None; lia). done. }
  destruct (Forall2_lookup_l _ _ _ _ _ Hl Ek) as (v & Ev & Hv). destruct (Forall2_lookup_l _ _ _ _ _ Hl' Ek) as (v' & Ev' & Hv'). rewrite Ev, Ev'. simpl.
  rewrite lookup_take_lt by (by eapply lookup_lt_Some). destruct (inputs !! i) as [ins|] eqn:Ei; [|done]. simpl. f_equal.
  pose proof (list_elem_of_lookup_2 _ _ _ Ek) as Hk. pose proof (to_legs _ _ _ Ht id en k He Ha Hk) as Hb.
  destruct (Hwhy k Hk) as [En|(ss & rd & Ess & Erd & Hdis)].
  - apply (leg_untouched B B' changed r r' k v v' ins (⋃ map (λ s, source_sides s.1) ins)); try done; [|by left].
    intros s Hs y Hy. apply elem_of_union_list. exists (source_sides s.1). split; [|done]. by apply (list_elem_of_fmap_2 (λ s : string * option Z, source_sides s.1)).
  - destruct (to_reads _ _ _ Ht id k rd Erd) as (en2 & inputs2 & plan2 & He2 & Hin2 & _ & Hsub). assert (en2 = en) as -> by congruence.
    assert (inputs2 = inputs) as -> by congruence. apply (leg_untouched B B' changed r r' k v v' ins rd); try done; [by apply (Hsub i)|]. right. by exists ss.
Qed.

Lemma either_all {A} (P : A → Prop) (Q : Prop) (l : list A) : (∀ a, a ∈ l → P a ∨ Q) → (∀ a, a ∈ l → P a) ∨ Q.
Proof.
  induction l as [|a l IH]; intros Hl; [left; by intros a ?%not_elem_of_nil|].
  destruct (Hl a) as [Ha|]; [left| |by right]. destruct IH as [IH|]; [intros b Hb; apply Hl; by right| |by right].
  left. intros b [->|Hb]%elem_of_cons; auto.
Qed.

(** An entity no change selected has a current value, with its skew unless it is in [S]. *)
Lemma unselected B B' changed S r r' id : inv B r → inv B' r' → refreshed changed r r' → came_from changed B B' → fresh_value r id →
  (∀ k sides, changed !! k = Some sides → id ∈ default ∅ (reverse (tables r') !! k) → spared sides S k r' id) →
  current_value r' id ∧ (id ∉ S → fresh_value r' id).
Proof.
  intros Hi Hi' Hr Hfrom Hf Hspared.
  cut (∀ en, entities_of r' !! id = Some en → ∃ v, value_of (stage r') id = Some v ∧ current_observation x strategy_evaluate r' en (it v.1) ∧
    (id ∉ S → current_skew x r' en v)).
  { intros Hall. split; [intros en He|intros Hn en He]; destruct (Hall en He) as (v & Hv & Ho & Hs); exists v; split_and!; auto. }
  intros en He. rewrite (rf_entities _ _ _ Hr) in He. destruct (Hf en He) as (v & Hv & Ho & Hs). exists v. rewrite (rf_stage _ _ _ Hr). split; [done|].
  unfold current_observation in *. destruct (en_admission en) as [status|] eqn:Ea; [split; [done|]; intros _ Hp; by rewrite Ho in Hp|].
  destruct Ho as (vs & ctx & Hl & Hev). rewrite <- (rf_entities _ _ _ Hr) in He.
  destruct (decide (Forall (λ k, changed !! k = None) (en_legs en))) as [Hnone|Hsome].
  - rewrite Forall_forall in Hnone. assert (∀ k, k ∈ en_legs en → book_views (shown r') !! k = book_views (shown r) !! k) as Hsame by (intros; apply (rf_same _ _ _ Hr); auto).
    split.
    + exists vs, ctx. split; [|done]. destruct (legs_moved eq r r' en vs Hl) as (vs' & Hl' & E).
      { intros k v0 Hk Hv0. exists v0. by rewrite Hsame. }
      assert (vs = vs') as <-; [|done]. clear -E. induction E; congruence.
    + intros _ Hp Hfree. destruct (Hs Hp Hfree) as (sk & Hsk & E). exists sk. split; [|done]. rewrite <- Hsk. by apply skew_same.
  - assert (∀ k sides, k ∈ en_legs en → changed !! k = Some sides → spared sides S k r' id) as Hsp.
    { intros k sides Hk Hc. apply Hspared; [done|]. by eapply (to_reverse _ _ _ (inv_tables _ _ _ _ Hi')). }
    apply not_Forall_Exists in Hsome; [|apply _]. apply Exists_exists in Hsome as (k0 & Hk0 & Hc0). destruct (changed !! k0) as [sides0|] eqn:Ec0; [|done].
    destruct (Hsp k0 sides0 Hk0 Ec0) as (v0 & rd0 & Hv0 & Hfree0 & Hrd0 & _ & Hpos). rewrite (rf_stage _ _ _ Hr) in Hv0. assert (v0 = v) as -> by congruence.
    split; [|intros Hn Hp; by destruct (Hn (Hpos Hp))].
    destruct (either_all (λ k, changed !! k = None ∨ ∃ ss rd, changed !! k = Some (Some ss) ∧ reads (tables r') !! (id, k) = Some rd ∧ rd ## dom ss)
      (vouched r' id v) (en_legs en)) as [Hall|Hvouch].
    + intros k Hk. destruct (changed !! k) as [sides|] eqn:Ec; [|left; by left].
      destruct (Hsp k sides Hk Ec) as (v1 & rd & Hv1 & _ & Hrd & [(ss & -> & Hdis)|Hvo] & _); [left; right; by exists ss, rd|right].
      rewrite (rf_stage _ _ _ Hr) in Hv1. assert (v1 = v) as -> by congruence. done.
    + destruct (to_reads _ _ _ (inv_tables _ _ _ _ Hi') id k0 rd0 Hrd0) as (en1 & inputs & plan & He1 & Hin & Hp & _). assert (en1 = en) as -> by congruence.
      destruct (untouched_current B B' changed r r' id en vs ctx (it v.1) inputs plan) as (vs' & Hl' & Hev'); try done. by exists vs', ctx.
    + apply (vouched_current B' r' id v en); try done. by rewrite (rf_stage _ _ _ Hr).
Qed.

(** ** Staging what was selected *)
Lemma restaged_current ids r r' id : restaged ids r r' → id ∉ ids → current_value r id → current_value r' id.
Proof.
  intros [G Ho] Hid Hc en He. rewrite (gr_entities _ _ G) in He. destruct (Hc en He) as (v & Hv & Hobs). exists v. rewrite Ho by done. split; [done|].
  unfold current_observation in *. destruct (en_admission en); [done|]. destruct Hobs as (vs & ctx & Hl & Hev). exists vs, ctx. split; [|done]. by apply (legs_grown r r').
Qed.
Lemma restaged_fresh ids r r' id : restaged ids r r' → id ∉ ids → fresh_value r id → fresh_value r' id.
Proof. intros [G Ho] Hid. apply fresh_grown; [done|by apply Ho]. Qed.

Lemma skews_ok B time l : ∀ r r' u, NoDup l → inv B r → forS (stage_skew time) l r = (r', Ok u) →
  inv B r' ∧ restaged (list_to_set l) r r' ∧ ∀ id, id ∈ l → current_value r id → fresh_value r' id.
Proof.
  induction l as [|id l IH]; intros r r' u Hnd Hi E; cbn [forS] in E.
  - apply mretS_ok in E as [-> _]. split_and!; [done|by split|by intros id ?%not_elem_of_nil].
  - apply stbind_ok in E as (r1 & [] & E1 & E). apply NoDup_cons in Hnd as [Hn Hnd].
    destruct (stage_skew_ok json_loads x _ _ Hhonest B time id r r1 () Hi E1) as (Hi1 & Hr1 & _ & Hf1).
    destruct (IH r1 r' u Hnd Hi1 E) as (Hi' & Hr' & Hf'). split_and!; [done| |].
    + destruct Hr1 as [G1 O1], Hr' as [G' O']. split; [by eapply grown_trans|]. intros id' Hid'. rewrite O', O1 by set_solver. done.
    + intros id' [->|Hin]%elem_of_cons Hc.
      * eapply restaged_fresh; [exact Hr'|by rewrite elem_of_list_to_set|by apply Hf1].
      * apply Hf'; [done|]. eapply restaged_current; [exact Hr1| |done]. intros ->%elem_of_singleton. done.
Qed.

(** ** The callback *)
Local Abbreviation flush_stage := (Staging.flush_stage dumps sha256 json_loads x fill_value).
Local Abbreviation load_scope := (Staging.load_scope x resolve fill_spec builders price_scale).
Local Abbreviation advance := (Staging.advance dumps sha256 json_loads x fill_value resolve strategy_evaluate fill_spec builders price_scale).
Local Abbreviation call_cut := (Staging.call_cut dumps sha256 json_loads x fill_value resolve strategy_evaluate fill_spec builders price_scale).
Local Abbreviation call_initial := (Staging.call_initial x resolve strategy_evaluate fill_spec bind builders price_scale).

(** [B] names the books of every builder. *)
Definition held (B : key → Book) (books : gmap key Book) : Prop := ∀ k vb, (k, vb) ∈ builders → books !! k = Some (B k).

Lemma inv_books B B' r : (∀ k, k ∈ map fst builders → B k = B' k) → inv B r → inv B' r.
Proof.
  intros HB [I1 I2 I3 I4 I5 I6]. split; try done. intros k vb Hk. rewrite <- HB by (apply list_elem_of_fmap; by exists (k, vb)). by apply I2.
Qed.

Lemma stage_some B time ids r r' u : inv B r → (if bool_decide (ids = ∅) then mret () else stage_at time ids) r = (r', Ok u) →
  inv B r' ∧ restaged ids r r' ∧ ∀ id, id ∈ ids → fresh_value r' id.
Proof.
  intros Hi E. case_bool_decide as Hn.
  - apply mretS_ok in E as [-> _]. split_and!; [done|by split|set_solver].
  - destruct (stage_at_ok json_loads x _ _ Hhonest _ _ _ _ _ _ Hi E) as (Hi' & Hr & _ & Hf). by split_and!.
Qed.

Lemma enter_ok B time r r' entered : inv B r → all_fresh r →
  (match staged_time (stage r) with
   | Some t => if t <? time then _ ← flush_stage; advance time else mret ∅
   | None => advance time
   end) r = (r', Ok entered) → inv B r' ∧ all_fresh r'.
Proof.
  intros Hi Hf E. assert (∀ r1 r2 e, inv B r1 → all_fresh r1 → staged_time (stage r1) = None → advance time r1 = (r2, Ok e) → inv B r2 ∧ all_fresh r2) as Hadv.
  { intros r1 r2 e Hi1 Hf1 Ht Ea. unfold Staging.advance in Ea. apply stbind_ok in Ea as (? & ? & [-> ->]%getS_ok & Ea).
    eapply (advance_scopes_ok dumps sha256 json_loads x fill_value resolve strategy_evaluate fill_spec builders price_scale Hhonest Hscopes);
      [exact Hi1|exact Hf1|by left|exact Ea]. }
  destruct (staged_time (stage r)) as [t|] eqn:Et; [|by eapply Hadv].
  destruct (t <? time); [|by apply mretS_ok in E as [-> _]]. apply stbind_ok in E as (r1 & [] & E1 & E).
  destruct (flush_all dumps sha256 json_loads x fill_value resolve strategy_evaluate builders Hhonest Hscopes B r r1 () Hi Hf E1) as (Hi1 & Hf1 & Ht1 & _). by eapply Hadv.
Qed.

Lemma call_cut_ok B B' body books changed r r' u : inv B r → all_fresh r → touched_sides body = Ok changed → held B' books → came_from changed B B' →
  call_cut body books r = (r', Ok u) → inv B' r' ∧ all_fresh r'.
Proof.
  intros Hi Hf Hc Hheld Hfrom E. unfold Staging.call_cut in E. apply stbind_ok in E as (? & origin & [-> _]%liftR_ok & E).
  apply stbind_ok in E as (r1 & [raw time] & (c & _ & ->)%on_clock_ok & E).
  apply stbind_ok in E as (? & ? & [-> ->]%getS_ok & E). apply stbind_ok in E as (r2 & entered & E2 & E).
  apply (enter_ok B) in E2 as [Hi2 Hf2]; [|by apply inv_control|by apply fresh_control].
  apply stbind_ok in E as (? & changed' & [-> Hc']%liftR_ok & E). assert (changed' = changed) as -> by congruence.
  apply stbind_ok in E as (? & ? & [-> ->]%getS_ok & E). apply stbind_ok in E as (r3 & [] & E3 & E).
  apply (refresh_all B' books time changed builders B) in E3 as [Hr Hi3]; [|done..|by intros k vb Hk; destruct (Hfrom k vb Hk); split; [by eapply Hheld|]].
  apply (inv_books _ B') in Hi3; [|intros k Hk; by rewrite decide_True].
  apply stbind_ok in E as (r4 & [A S] & E4 & E). apply select_all in E4 as (-> & _ & Hsp).
  apply stbind_ok in E as (r5 & [] & E5 & E). apply (stage_some B') in E5 as (Hi5 & Hr5 & Hf5); [|done].
  apply (skews_ok B') in E as (Hi' & Hr' & Hf'); [|rewrite sorted_perm; apply NoDup_elements|done]. split; [done|]. intros id.
  assert (∀ id, id ∈ sorted (elements (S ∖ A)) ↔ id ∈ S ∖ A) as Hin by (intros ?; rewrite sorted_elem; apply elem_of_elements).
  destruct (decide (id ∈ A)) as [HA|HA].
  { eapply restaged_fresh; [exact Hr'| |by apply Hf5]. rewrite elem_of_list_to_set, Hin. set_solver. }
  destruct (unselected B B' changed S _ r3 id Hi2 Hi3 Hr Hfrom (Hf2 id)) as [Hcur Hfr].
  { intros k sides Hk Hid. by apply Hsp. }
  destruct (decide (id ∈ S)) as [HS|HS].
  - apply Hf'; [apply Hin; set_solver|]. by eapply restaged_current.
  - eapply restaged_fresh; [exact Hr'|rewrite elem_of_list_to_set, Hin; set_solver|]. eapply restaged_fresh; [exact Hr5|done|by apply Hfr].
Qed.

(** *** The first cut *)
Lemma initial_views_ok B books start l : ∀ r r' u, NoDup (map fst l) → (∀ k vb, (k, vb) ∈ l → (k, vb) ∈ builders) → held B books →
  (∀ k vb, (k, vb) ∈ builders → book_inv (B k)) → forS (initial_view books start) l r = (r', Ok u) →
  stage r' = stage r ∧ next (shown r) ≤ next (shown r') ∧ (∀ k, k ∉ map fst l → book_views (shown r') !! k = book_views (shown r) !! k) ∧
  ∀ k vb, (k, vb) ∈ l → ∃ v, book_views (shown r') !! k = Some v ∧ current_view vb (B k) (next (shown r')) v.
Proof.
  induction l as [|[k vb] l IH]; intros r r' u Hnd Hsub Hheld Hinv E; cbn [forS] in E.
  - apply mretS_ok in E as [-> _]. split_and!; [done|done|done|by intros ? ? ?%not_elem_of_nil].
  - apply stbind_ok in E as (r1 & [] & E1 & E). simpl in Hnd. apply NoDup_cons in Hnd as [Hnew Hnd].
    assert ((k, vb) ∈ builders) as Hk by (apply Hsub; left).
    unfold Staging.initial_view, book_at in E1. simpl in E1. rewrite (Hheld k vb Hk) in E1. apply stbind_ok in E1 as (? & b & [-> [= <-]]%liftR_ok & E1).
    apply stbind_ok in E1 as (r2 & w & (n' & Eb & ->)%on_next_ok & E1). apply set_view_ok in E1 as (_ & _ & F3 & _ & F5 & F6). simpl in *.
    destruct (full_build vb (Hbuilders k vb Hk) (B k) start (next (shown r)) (Hinv k vb Hk)) as (n1 & w1 & Eb1 & Hcv & _).
    destruct (build_exact vb (Hbuilders k vb Hk) (B k) start None None (book_levels (B k)) (book_levels (B k)) (next (shown r))) as (n2 & w2 & Eb2 & Hn2 & _);
      [intros; by apply (levels_shown vb (Hbuilders k vb Hk)); [apply (Hinv k vb Hk)|]|done..|].
    rewrite Eb in Eb1, Eb2. injection Eb1 as <- <-. injection Eb2 as <- <-.
    destruct (IH r1 r' u Hnd (λ k' vb' Hin, Hsub k' vb' (list_elem_of_further _ _ _ Hin)) Hheld Hinv E) as (G1 & G2 & G3 & G4).
    split_and!; [congruence|lia| |].
    + intros k' [Hne Hn]%not_elem_of_cons. rewrite G3, F6, lookup_insert_ne by done. done.
    + intros k' vb' [[= -> ->]|Hin]%elem_of_cons; [|by apply G4]. exists w. rewrite G3, F6, lookup_insert_eq by done. split; [done|].
      destruct Hcv as [Hp Hv]. split; [|done]. eapply prior_of_mono; [|exact Hp]. lia.
Qed.

Lemma call_initial_ok B body books r r' u : staged (stage r) = [] → held B books → (∀ k vb, (k, vb) ∈ builders → book_inv (B k)) →
  call_initial body books r = (r', Ok u) → inv B r' ∧ all_fresh r'.
Proof.
  intros Hst Hheld Hinv E. unfold Staging.call_initial in E. apply stbind_ok in E as (? & ? & [-> ->]%getS_ok & E).
  apply stbind_ok in E as (? & [] & [_ ->]%requireS_ok & E). apply stbind_ok in E as (? & [] & [_ ->]%requireS_ok & E).
  apply stbind_ok in E as (? & [] & [-> _]%liftR_ok & E). apply stbind_ok in E as (r1 & [] & E1 & E).
  assert (∃ c, r1 = set_control c r) as [c ->] by (unfold on_control, zoomS, modifyS in E1; injection E1 as <-; by eexists).
  apply stbind_ok in E as (r2 & [] & E2 & E). apply (initial_views_ok B) in E2 as (F1 & _ & _ & F4); [|by auto..].
  apply stbind_ok in E as (r3 & [] & E3 & E). apply stbind_ok in E as (? & ? & [-> ->]%getS_ok & E).
  assert (views_ok B r2) as Hv.
  { intros k vb Hk. destruct (F4 k vb Hk) as (v & Ev & Hcv). exists v. split_and!; [done|by eapply Hinv|done]. }
  destruct (load_scope_ok x resolve strategy_evaluate fill_spec builders price_scale Hscopes B 0 r2 r3 () Hv) as [Hi3 _ _ _]; [by rewrite F1|exact E3|].
  destruct (stage_at_ok json_loads x _ _ Hhonest _ _ _ _ _ _ Hi3 E) as (Hi' & [G _] & _ & Hf). split; [done|].
  intros id en He. rewrite (gr_entities _ _ G) in He. apply elem_of_dom_2 in He as Hd. apply (Hf id Hd). by rewrite (gr_entities _ _ G).
Qed.

Lemma call_accepted kind seq body books r r' u : call kind seq body books r = (r', Ok u) → kind = "initial"%string ∨ kind = "cut"%string →
  ∃ c, (if String.eqb kind "initial" then call_initial body books else call_cut body books) (set_control c r) = (r', Ok u).
Proof.
  intros E Hkind. unfold Staging.call in E. match type of E with context [match ?m ?s with _ => _ end] => destruct (m s) as [r1 [u1|e]] eqn:E1; [|done] end.
  injection E as <- <-. apply stbind_ok in E1 as (? & [] & [_ ->]%requireS_ok & E1). apply stbind_ok in E1 as (? & [] & [_ ->]%requireS_ok & E1).
  apply stbind_ok in E1 as (r2 & [] & E2 & E1).
  assert (∃ c, r2 = set_control c r) as [c ->] by (unfold on_control, zoomS, modifyS in E2; injection E2 as <-; by eexists). exists c.
  destruct Hkind as [-> | ->]; simpl in *; [done|]. by apply stbind_ok in E1 as (? & [] & [_ ->]%requireS_ok & E1).
Qed.

(** ** A run of the replay *)

(** The decoder applies each cut and the runtime is then called with its books, from the
    first callback on, which builds every view. *)
Inductive run : Decoder → Runtime → Prop :=
| run_initial d seq body r r' :
    staged (stage r) = [] → (∀ k b, books d !! k = Some b → book_inv b) → (∀ k, k ∈ map fst builders → is_Some (books d !! k)) →
    call "initial" seq body (books d) r = (r', Ok ()) → run d r'
| run_cut d d' seq body r r' :
    run d r → cut body d = (d', Ok ()) →
    (∀ k b, k ∈ map fst builders → books d !! k = Some b → Forall (published (limit b)) (transitions_for k body)) →
    call "cut" seq body (books d') r = (r', Ok ()) → run d' r'.

Definition book_in (d : Decoder) (k : key) : Book := default (new_book 0) (books d !! k).

Lemma run_ok d r : run d r → held (book_in d) (books d) ∧ (∀ k vb, (k, vb) ∈ builders → book_inv (book_in d k)) ∧ inv (book_in d) r ∧ all_fresh r.
Proof.
  assert (∀ k vb, (k, vb) ∈ builders → k ∈ map fst builders) as Hin by (intros k vb Hk; apply list_elem_of_fmap; by exists (k, vb)).
  induction 1 as [d seq body r r' Hst Hinv Hbooks E|d d' seq body r r' _ (Hheld & Hinv & Hi & Hf) Hcut Hpub E].
  - assert (held (book_in d) (books d)) as Hheld.
    { intros k vb Hk. unfold book_in. by destruct (Hbooks k (Hin k vb Hk)) as [b ->]. }
    assert (∀ k vb, (k, vb) ∈ builders → book_inv (book_in d k)) as Hinv' by (intros k vb Hk; apply (Hinv k); by eapply Hheld).
    split_and!; [done|done|..]; apply call_accepted in E as [c E]; [|by left| |by left]; simpl in E;
      by destruct (call_initial_ok (book_in d) _ _ _ _ _ (Hst : staged (stage (set_control c r)) = []) Hheld Hinv' E).
  - assert (∀ k vb, (k, vb) ∈ builders → ∃ b' changed, books d' !! k = Some b' ∧ book_inv b' ∧ touched_sides body = Ok changed ∧ known (changed !! k) (book_in d k) b') as Hnew.
    { intros k vb Hk. destruct (cut_touches body d d' () k (book_in d k) Hcut (Hheld k vb Hk) (Hinv k vb Hk)) as (b' & changed & ? & ? & _ & ? & ?);
        [apply Hpub; [by eapply Hin|by eapply Hheld]|by exists b', changed]. }
    assert (held (book_in d') (books d')) as Hheld'.
    { intros k vb Hk. unfold book_in. by destruct (Hnew k vb Hk) as (b' & _ & -> & _). }
    assert (∀ k vb, (k, vb) ∈ builders → book_inv (book_in d' k)) as Hinv'.
    { intros k vb Hk. destruct (Hnew k vb Hk) as (b' & _ & Hb' & ? & _). unfold book_in. by rewrite Hb'. }
    apply call_accepted in E as [c E]; [|by right]. simpl in E.
    assert (∃ changed, touched_sides body = Ok changed) as [changed Hch].
    { unfold Staging.call_cut in E. apply stbind_ok in E as (? & ? & _ & E). apply stbind_ok in E as (? & [] & _ & E). apply stbind_ok in E as (? & ? & _ & E).
      apply stbind_ok in E as (? & ? & _ & E). apply stbind_ok in E as (? & changed & [_ Hch]%liftR_ok & _). by exists changed. }
    assert (came_from changed (book_in d) (book_in d')) as Hfrom.
    { intros k vb Hk. split; [|by eapply Hinv']. destruct (Hnew k vb Hk) as (b' & changed' & Hb' & _ & Hc' & Hkn). unfold book_in at 2. rewrite Hb'.
      assert (changed' = changed) as -> by congruence. done. }
    split_and!; [done|done|..]; by destruct (call_cut_ok (book_in d) (book_in d') _ _ _ _ _ _ (inv_control _ _ _ c _ Hi) (fresh_control _ _ c _ Hf) Hch Hheld' Hfrom E).
Qed.

(** What a leg's view shows: the full view of the decoder's book. *)
Definition shows_book (d : Decoder) (k : key) (v : BookView) : Prop := ∃ vb b,
  (k, vb) ∈ builders ∧ books d !! k = Some b ∧ erase v = ref_view vb (book_levels b) b (last_change v).

(** C2. Selective evaluation loses nothing: along any run of the replay, whatever a cut
    did not select keeps a value that is still right.  For a strategy whose context-free
    observations depend on the declared inputs alone, every entity of the scope has after
    every accepted cut a staged or current value whose observation is the one the strategy
    returns for the full views of the decoder's current books (a refused entity has its
    unevaluated one), and where a predicate holds and its episodes are tracked the skew
    kept with it is that of the live views. *)
Theorem staged_observations_current d r : run d r → ∀ id en, entities_of r !! id = Some en →
  ∃ v, value_of (stage r) id = Some v ∧
    match en_admission en with
    | Some status => it v.1 = unevaluated x status en
    | None => ∃ vs ctx, Forall2 (λ k v, book_views (shown r) !! k = Some v ∧ shows_book d k v) (en_legs en) vs ∧
        strategy_evaluate en (map erase vs) ctx = Ok (it v.1)
    end ∧
    (positive (it v.1) = true → skew_free x en = false →
      ∃ sk, skew_of (skew_edges x) (book_views (shown r)) (en_legs en) (o_skew_legs (it v.1)) = Ok sk ∧ v.2 = Some sk).
Proof.
  intros Hrun id en He. destruct (run_ok d r Hrun) as (Hheld & _ & Hi & Hf). destruct (Hf id en He) as (v & Hv & Ho & Hs). exists v. split_and!; [done| |done].
  unfold current_observation in Ho. destruct (en_admission en) as [status|] eqn:Ea; [done|]. destruct Ho as (vs & ctx & Hl & Hev). exists vs, ctx. split; [|done].
  apply Forall2_same_length_lookup_2; [by apply Forall2_length in Hl|]. intros i k w Hk Hw. pose proof (Forall2_lookup_lr _ _ _ _ _ _ Hl Hk Hw) as Hkw. split; [done|].
  pose proof (to_legs _ _ _ (inv_tables _ _ _ _ Hi) id en k He Ea (list_elem_of_lookup_2 _ _ _ Hk)) as Hb. apply list_elem_of_fmap in Hb as ([k' vb] & Ek & Hb).
  simpl in Ek. subst k'. destruct (inv_views _ _ _ _ Hi k vb Hb) as (w' & Ew & _ & _ & Hval). simpl in Hkw. assert (w' = w) as -> by congruence.
  exists vb, (book_in d k). split_and!; [done|by eapply Hheld|done].
Qed.
End Cuts.

(** ** Demonstration: one declared entity, two scopes, a cut that reaches its input and one that does not *)
Definition staged_demo_experiment : Experiment :=
  mkExperiment [("0", 0)] [] ["gap"] {["gap" := ["wide"]]} ["wide"; "narrow"] [] [] [] [] false true None.
Definition staged_demo_entity : Entity Z :=
  mkEntity _ "a" [ViewsCuts.demo_bk] 0 REAL "" JNull None [] (Some [[("bid"%string, Some 4)]]).
Definition staged_demo_observe (shown : list ((string * json) + list input_value)) : Observation :=
  match shown with
  | [inr [VFill (Some f)]] =>
      if 20 <? cost f then mkObservation EVALUATED [] (Some "wide"%string) [] {["gap"]} (JObj [("cost", JInt (cost f))]) (Some [taken f]) [] true
      else mkObservation EVALUATED [] (Some "narrow"%string) [] ∅ JNull None [] true
  | _ => mkObservation "UNUSABLE" [] None [] ∅ JNull None [] true
  end.
Definition staged_demo_strategy (en : Entity Z) (vs : list view_value) (_ : EvalContext) : result Observation :=
  Ok (staged_demo_observe (match plan_of en with Some plan => zip_with inputs_of vs plan | None => [] end)).
Definition staged_demo_resolve (_ : Z) : result (list (Entity Z)) := Ok [staged_demo_entity].
Definition staged_demo_builders : list (key * ViewBuilder) :=
  match ViewsCuts.demo_vb with Ok vb => [(ViewsCuts.demo_bk, vb)] | Err _ => [] end.
Definition staged_demo_body (kind s e : string) (decision : json) (n : Z) : json :=
  JObj [("origin", Intervals.demo_cut kind s e); ("book_transitions", JArr [demo_transition n decision])].
Definition staged_demo_bodies : list json :=
  [staged_demo_body "window" "0" "20" demo_operations 0; staged_demo_body "group" "9" "" ViewsCuts.demo_far 1; staged_demo_body "group" "12" "" ViewsCuts.demo_far 2].
Definition staged_demo_runtime : @Staging.Runtime (list json) Z :=
  mkRuntime (mkEngine 0 ∅ ∅ ∅ ∅ ∅ None 0 (list_to_map [("episodes.ndjson", []); ("denominators.ndjson", [])]) [] ∅ 0 ∅ [] ∅ 0 ∅ ∅)
    (mkShown 0 ∅ ∅) (mkTables ∅ ∅ ∅ 0 0) (mkStage ∅ ∅ None [] ∅) (mkControl (new_clock 5 20 "clip" [8; 20]) (-1) false false false).
Definition staged_demo_call : string → Z → json → gmap key Book → ST (@Staging.Runtime (list json) Z) () :=
  Staging.call demo_dumps String.string_of_list_byte (λ _, Err KeyError) staged_demo_experiment (λ _ _, demo_value) staged_demo_resolve staged_demo_strategy
    (λ _, Err KeyError) (λ _, Ok ()) staged_demo_builders (λ _, Ok 2).
Definition staged_demo_run : Decoder → @Staging.Runtime (list json) Z → Prop :=
  run demo_dumps String.string_of_list_byte (λ _, Err KeyError) staged_demo_experiment (λ _ _, demo_value) staged_demo_resolve staged_demo_strategy
    (λ _, Err KeyError) (λ _, Ok ()) staged_demo_builders (λ _, Ok 2).

(** The decoder and the runtime after the first callback and [n] cuts. *)
Fixpoint staged_demo_after (n : nat) : Decoder * @Staging.Runtime (list json) Z :=
  match n with
  | 0%nat => (ViewsCuts.demo_d, (staged_demo_call "initial" 0 JNull (books ViewsCuts.demo_d) staged_demo_runtime).1)
  | S n => let '(d, r) := staged_demo_after n in let body := nth n staged_demo_bodies JNull in let d := (cut body d).1 in
      (d, (staged_demo_call "cut" (Z.of_nat (S n)) body (books d) r).1)
  end.

Lemma staged_demo_honest : honest staged_demo_strategy.
Proof. intros en plan vs vs' ctx ctx' o Hp (_ & _ & Ha) Hev _. unfold staged_demo_strategy in *. rewrite Hp in *. by rewrite <- Ha. Qed.
Lemma staged_demo_declared n ens : staged_demo_resolve n = Ok ens → well_declared ens.
Proof.
  intros [= <-]. split; [apply NoDup_singleton|]. intros en inputs ->%list_elem_of_singleton [= <-]. by apply Forall_singleton.
Qed.
Lemma staged_demo_keys : NoDup (map fst staged_demo_builders).
Proof. unfold staged_demo_builders. destruct ViewsCuts.demo_vb; [apply NoDup_singleton|apply NoDup_nil_2]. Qed.
Lemma staged_demo_builders_ok k vb : (k, vb) ∈ staged_demo_builders → builder_ok vb.
Proof.
  unfold staged_demo_builders. destruct ViewsCuts.demo_vb as [vb'|] eqn:E; [|by intros ?%not_elem_of_nil].
  intros [= -> ->]%list_elem_of_singleton. by apply demo_vb_ok.
Qed.

Lemma staged_demo_step n d r body : staged_demo_after n = (d, r) → staged_demo_run d r → body = nth n staged_demo_bodies JNull → (cut body d).2 = Ok () →
  (staged_demo_call "cut" (Z.of_nat (S n)) body (books (cut body d).1) r).2 = Ok () →
  (∀ k t, t ∈ transitions_for k body → jeq_str (match (d ← jget t "decision"; jget d "kind") with Ok k => k | Err _ => JNull end) "operations" = true) →
  staged_demo_run (staged_demo_after (S n)).1 (staged_demo_after (S n)).2.
Proof.
  intros E Hrun -> Hcut Hcall Hops. cbn [staged_demo_after]. rewrite E. cbn [fst snd]. eapply run_cut; [exact Hrun|by apply ran| |by apply ran].
  intros k b _ _. apply Forall_forall. intros t Ht. apply operations_published. by eapply Hops.
Qed.

Lemma staged_observations_current_witness : ∃ v, value_of (stage (staged_demo_after 3).2) "a" = Some v ∧ addr v.1 = 24 ∧
  ∃ vs ctx, Forall2 (λ k v, book_views (shown (staged_demo_after 3).2) !! k = Some v ∧ shows_book staged_demo_builders (staged_demo_after 3).1 k v) [ViewsCuts.demo_bk] vs ∧
    staged_demo_strategy staged_demo_entity (map erase vs) ctx = Ok (it v.1).
Proof.
  assert (staged_demo_run (staged_demo_after 0).1 (staged_demo_after 0).2) as R0.
  { eapply run_initial; [| | |apply ran]; [reflexivity| | |vm_compute; reflexivity].
    - intros k b Hb. cbn [staged_demo_after fst] in Hb. unfold ViewsCuts.demo_d in Hb. cbn [set_books books] in Hb.
      apply lookup_singleton_Some in Hb as [<- <-]. apply demo_book_inv.
    - intros k Hk. assert (k = ViewsCuts.demo_bk) as ->; [|exists demo_book; apply lookup_singleton_eq].
      unfold staged_demo_builders in Hk. destruct ViewsCuts.demo_vb; [by apply list_elem_of_singleton in Hk|by apply not_elem_of_nil in Hk]. }
  assert (∀ n, (n < 3)%nat → staged_demo_run (staged_demo_after n).1 (staged_demo_after n).2 → staged_demo_run (staged_demo_after (S n)).1 (staged_demo_after (S n)).2) as Rstep.
  { intros n Hn Hr. eapply staged_demo_step; [apply surjective_pairing|exact Hr|reflexivity|..].
    - destruct n as [|[|[|]]]; [vm_compute; reflexivity..|lia].
    - destruct n as [|[|[|]]]; [vm_compute; reflexivity..|lia].
    - intros k t Ht. destruct n as [|[|[|]]]; [..|lia]; unfold transitions_for, staged_demo_bodies, staged_demo_body in Ht; cbn in Ht;
        destruct (decide _); apply list_elem_of_singleton in Ht as -> || apply not_elem_of_nil in Ht; try done; reflexivity. }
  assert (entities_of (staged_demo_after 3).2 !! "a"%string = Some staged_demo_entity) as He by (vm_compute; reflexivity).
  assert (staged_demo_run (staged_demo_after 3).1 (staged_demo_after 3).2) as R3 by (do 3 (apply Rstep; [lia|]); exact R0).
  destruct (staged_observations_current _ _ _ _ _ _ _ _ _ _ _ staged_demo_honest staged_demo_declared staged_demo_keys staged_demo_builders_ok _ _ R3 "a" staged_demo_entity He) as (v & Hv & Ho & _).
  exists v. split; [exact Hv|]. split; [|exact Ho]. assert ((λ v : value, addr v.1) <$> value_of (stage (staged_demo_after 3).2) "a" = Some 24) as Ha by (vm_compute; reflexivity).
  rewrite Hv in Ha. by injection Ha.
Defined.
