(* ===== verification/Entities.v ===== *)
(** * Entities of a scope ([src/replay/economic_sdk/entities.py], [output.py])

    A strategy's baskets, admitted or refused, each followed by the control entities the
    SDK builds from it: the same basket with one leg taken from its cyclic neighbour among
    its peers, or with one leg read in the past. *)
From stdpp Require Import gmap strings sorting.
From S2P Require Import Prelude Order Wire Json LineWriter FillChecks EconomicTypes Episodes Views Staging StagingScopes.

(** [ADMISSIONS]. *)
Definition ADMISSIONS : list string := ["NOT_CAPTURED"; "UNSUPPORTED_SHAPE"; "UNSUPPORTED_SCALE"; "NO_MATCH"].

Inductive Control := cyclic_neighbor | time_shift (shift_ns : Z).
#[global] Instance Control_eq_dec : EqDecision Control.
Proof. solve_decision. Defined.

Definition control_name (c : Control) : string :=
  match c with cyclic_neighbor => "cyclic_neighbor" | time_shift shift_ns => "time_shift_" +:+ str_int shift_ns end.
Definition group_of (c : option Control) : string :=
  match c with None => "" | Some c => "controls/" +:+ control_name c +:+ "/" end.

(** [list.index]: the first element that is or equals [a]. *)
Fixpoint index_by {A} (same : A → A → bool) (a : A) (l : list A) : option nat :=
  match l with
  | [] => None
  | b :: l => if same b a then Some 0%nat else S <$> index_by same a l
  end.

Section Entities.
Context (dumps : json → list Byte.byte) (sha256 : list Byte.byte → string).
(** Items of close-order keys, peer groups and peer orders are the strategy's. *)
Context {A : Type} `{EqDecision A} (of_bool : bool → A) (of_int : Z → A).
Context {G : Type} `{EqDecision G} {P : Type} `{EqDecision P} `{Compare P}.

(** [Basket]. *)
Record Basket := mkBasket {
  b_descriptor : json; b_legs : list key; b_order : list A;
  b_admission : option string; b_reasons : list string;
  b_control_leg : option nat; b_peer_group : G; b_peer_order : P;
  b_inputs : option (list (list (string * option Z)));
}.
(** [Entity], with its control, shift and basket. *)
Record Resolved := mkResolved { r_entity : Entity (list A); r_control : option Control; r_shift : option (nat * Z); r_basket : Basket }.

Definition same_basket (a b : Basket) : bool :=
  json_same (b_descriptor a) (b_descriptor b) && bool_decide (b_legs a = b_legs b) && bool_decide (b_order a = b_order b)
  && bool_decide (b_admission a = b_admission b) && bool_decide (b_reasons a = b_reasons b) && bool_decide (b_control_leg a = b_control_leg b)
  && bool_decide (b_peer_group a = b_peer_group b) && bool_decide (b_peer_order a = b_peer_order b) && bool_decide (b_inputs a = b_inputs b).

(** The scales of the planned books; what the strategy and the experiment declare. *)
Context (plans : gmap key (string * string)) (native_scales : bool) (controls : list Control).
Context (control_descriptor : Basket → Control → json → option string → result json).

Definition new_entity (descriptor : json) (legs : list key) (order : list A) (admission : option string) (reasons : list string)
    (cls : string) (control : option Control) (shift : option (nat * Z)) (basket : Basket) : result Resolved :=
  id ← digest dumps sha256 descriptor;
  Ok (mkResolved (mkEntity _ id legs order cls (group_of control) descriptor admission reasons (b_inputs basket)) control shift basket).

Definition scale_admission (legs : list key) : result (option string) :=
  if native_scales then Ok None else
  scales ← mapR (λ k, match plans !! k with Some p => Ok p | None => Err KeyError end) legs;
  Ok (if (length (remove_dups scales) =? 1)%nat then None else Some "UNSUPPORTED_SCALE"%string).

(** A basket as the strategy admits it, or as its scales do. *)
Definition admitted := (Basket * option string * list string)%type.
Definition admission_of (b : Basket) : result admitted :=
  _ ← require (negb (bool_decide (b_legs b = [])) || bool_decide (is_Some (b_admission b))) "basket shape";
  _ ← require (match b_admission b with None => true | Some a => in_list (take 3 ADMISSIONS) a end) "basket admission";
  match b_admission b with
  | None =>
      _ ← require (forallb (λ k, bool_decide (is_Some (plans !! k))) (b_legs b)) "basket leg not planned";
      a ← scale_admission (b_legs b);
      Ok (b, a, [])
  | Some a => Ok (b, Some a, b_reasons b)
  end.

(** The peers of a group: its admitted baskets that take controls, by peer order. *)
Definition is_peer (g : G) (a : admitted) : bool :=
  bool_decide (a.1.2 = None) && bool_decide (is_Some (b_control_leg a.1.1)) && bool_decide (b_peer_group a.1.1 = g).
Definition peer_leb (a b : Basket) : bool := match cmp (b_peer_order a) (b_peer_order b) with Gt => false | _ => true end.
Definition peers (real : list admitted) (g : G) : list Basket :=
  sort_by peer_leb (map (λ a, a.1.1) (filter (λ a, is_peer g a = true) real)).

Definition item {B} (l : list B) (i : nat) : result B := match l !! i with Some b => Ok b | None => Err IndexError end.
Definition neighbor (group : list Basket) (b : Basket) : result Basket :=
  match index_by same_basket b group with
  | None => Err (ValueError "not in list")
  | Some i => item group ((i + 1) mod length group)
  end.

(** [basket.legs[:index] + (leg,) + basket.legs[index + 1:]]. *)
Definition replace_leg (legs : list key) (index : nat) (leg : key) : list key := take index legs ++ [leg] ++ drop (S index) legs.

Definition control_entity (real : list admitted) (b : Basket) (index : nat) (admission : option string) (reasons : list string)
    (control : Control) : result Resolved :=
  '(legs, replacement, admission', reasons', shift, order) ←
    (match control with
     | cyclic_neighbor =>
         '(legs, replacement, admission', reasons') ←
           (match admission with
            | None =>
                let group := peers real (b_peer_group b) in
                if (length group <? 2)%nat then Ok (b_legs b, JNull, Some "NO_MATCH"%string, []) else
                other ← neighbor group b;
                ls ← jget (b_descriptor other) "legs";
                replacement ← jindex ls false index;
                leg ← item (b_legs other) index;
                let legs := replace_leg (b_legs b) index leg in
                a ← scale_admission legs;
                Ok (legs, replacement, a, [])
            | Some _ => Ok (b_legs b, JNull, admission, reasons)
            end);
         Ok (legs, replacement, admission', reasons', None, [of_bool true; of_int 0])
     | time_shift shift_ns =>
         Ok (b_legs b, JNull, admission, reasons, match admission with None => Some (index, shift_ns) | Some _ => None end,
             [of_bool true; of_int shift_ns])
     end);
  descriptor ← control_descriptor b control replacement admission';
  new_entity descriptor legs (b_order b ++ order) admission' reasons' CONTROL (Some control) shift b.

(** The dictionary by identity, in insertion order. *)
Definition add (es : list Resolved) (e : Resolved) : result (list Resolved) :=
  _ ← require (negb (in_list (map (λ e, en_id (r_entity e)) es) (en_id (r_entity e)))) "duplicate entity identity";
  Ok (es ++ [e]).

Definition resolve_basket (real : list admitted) (es : list Resolved) (a : admitted) : result (list Resolved) :=
  let '(b, admission, reasons) := a in
  e ← new_entity (b_descriptor b) (b_legs b) (b_order b ++ [of_bool false; of_int 0]) admission reasons REAL None None b;
  es ← add es e;
  match b_control_leg b with
  | None => Ok es
  | Some index => foldR (λ es control, e ← control_entity real b index admission reasons control; add es e) es controls
  end.

(** [resolve]. *)
Definition resolve (baskets : list Basket) : result (list Resolved) :=
  real ← mapR admission_of baskets;
  foldR (resolve_basket real) [] real.

(** ** What is resolved *)

(** The entities of one basket: itself, then one per control when it takes any. *)
Definition expected (b : Basket) : list (Basket * option Control) :=
  (b, None) :: match b_control_leg b with None => [] | Some _ => map (λ c, (b, Some c)) controls end.

(** What each entity is, from its basket's admission. *)
Definition described (real : list admitted) (e : Resolved) : Prop :=
  digest dumps sha256 (en_descriptor (r_entity e)) = Ok (en_id (r_entity e)) ∧
  en_inputs (r_entity e) = b_inputs (r_basket e) ∧ en_group (r_entity e) = group_of (r_control e) ∧
  ∃ admission reasons, (r_basket e, admission, reasons) ∈ real ∧
    match r_control e with
    | None => en_cls (r_entity e) = REAL ∧ en_legs (r_entity e) = b_legs (r_basket e) ∧ en_admission (r_entity e) = admission ∧
        en_descriptor (r_entity e) = b_descriptor (r_basket e) ∧ r_shift e = None
    | Some cyclic_neighbor => en_cls (r_entity e) = CONTROL ∧ r_shift e = None ∧
        match admission with
        | Some _ => en_admission (r_entity e) = admission ∧ en_legs (r_entity e) = b_legs (r_basket e)
        | None => let group := peers real (b_peer_group (r_basket e)) in
            (length group < 2)%nat ∧ en_admission (r_entity e) = Some "NO_MATCH"%string ∧ en_legs (r_entity e) = b_legs (r_basket e) ∨
            (2 ≤ length group)%nat ∧ ∃ index other leg, b_control_leg (r_basket e) = Some index ∧ neighbor group (r_basket e) = Ok other ∧
              b_legs other !! index = Some leg ∧ en_legs (r_entity e) = replace_leg (b_legs (r_basket e)) index leg ∧
              scale_admission (en_legs (r_entity e)) = Ok (en_admission (r_entity e))
        end
    | Some (time_shift shift_ns) => en_cls (r_entity e) = CONTROL ∧ en_legs (r_entity e) = b_legs (r_basket e) ∧ en_admission (r_entity e) = admission ∧
        r_shift e = match admission with None => (λ index, (index, shift_ns)) <$> b_control_leg (r_basket e) | Some _ => None end
    end.

Definition keyed (es : list Resolved) : Prop := NoDup (map (λ e, en_id (r_entity e)) es).

Lemma add_ok es e es' : add es e = Ok es' → keyed es → es' = es ++ [e] ∧ keyed es'.
Proof.
  unfold add, keyed. intros E Hnd. apply bind_ok in E as (u & E1%require_ok & E). injection E as <-. split; [done|].
  apply negb_true_iff in E1. rewrite map_app. apply NoDup_app. split_and!; [done| |apply NoDup_singleton].
  intros id Hid ->%list_elem_of_singleton. apply in_list_elem in Hid. congruence.
Qed.

Lemma new_entity_ok descriptor legs order admission reasons cls control shift b e :
  new_entity descriptor legs order admission reasons cls control shift b = Ok e →
  ∃ id, digest dumps sha256 descriptor = Ok id ∧
    e = mkResolved (mkEntity _ id legs order cls (group_of control) descriptor admission reasons (b_inputs b)) control shift b.
Proof. unfold new_entity. intros E. apply bind_ok in E as (id & Ed & E). injection E as <-. by exists id. Qed.

Lemma control_entity_ok real b index admission reasons control e : (b, admission, reasons) ∈ real → b_control_leg b = Some index →
  control_entity real b index admission reasons control = Ok e → r_basket e = b ∧ r_control e = Some control ∧ described real e.
Proof.
  intros Hin Hleg E. unfold control_entity in E. apply bind_ok in E as ([[[[[legs replacement] a] rs] shift] order] & E1 & E).
  apply bind_ok in E as (descriptor & _ & E). apply new_entity_ok in E as (id & Hd & ->). split; [done|]. split; [done|]. split; [exact Hd|]. split; [done|]. split; [done|].
  exists admission, reasons. simpl. split; [done|]. destruct control as [|shift_ns].
  - apply bind_ok in E1 as ([[[legs1 replacement1] a1] rs1] & E1 & E2). injection E2 as <- <- <- <- <- <-. split_and!; [done|done|].
    destruct admission as [adm|]; [by injection E1 as <- <- <- <-|].
    destruct (length _ <? 2)%nat eqn:El; [apply Nat.ltb_lt in El; injection E1 as <- <- <- <-; by left|]. apply Nat.ltb_ge in El. right. split; [done|].
    apply bind_ok in E1 as (other & Eo & E1). apply bind_ok in E1 as (ls & _ & E1). apply bind_ok in E1 as (rep & _ & E1).
    apply bind_ok in E1 as (leg & El' & E1). apply bind_ok in E1 as (a2 & Ea & E1). injection E1 as <- <- <- <-.
    exists index, other, leg. unfold item in El'. destruct (b_legs other !! index); [|done]. injection El' as ->. by split_and!.
  - injection E1 as <- <- <- <- <- <-. split_and!; [done..|]. rewrite Hleg. by destruct admission.
Qed.

Definition shape (es : list Resolved) : list (Basket * option Control) := map (λ e, (r_basket e, r_control e)) es.

Lemma controls_ok real b index admission reasons cs : ∀ es es', (b, admission, reasons) ∈ real → b_control_leg b = Some index →
  keyed es → Forall (described real) es →
  foldR (λ es control, e ← control_entity real b index admission reasons control; add es e) es cs = Ok es' →
  keyed es' ∧ Forall (described real) es' ∧ shape es' = shape es ++ map (λ c, (b, Some c)) cs.
Proof.
  induction cs as [|c cs IH]; intros es es' Hin Hleg Hk Hd E; simpl in E.
  - injection E as <-. by rewrite app_nil_r.
  - apply bind_ok in E as (es1 & E1 & E). apply bind_ok in E1 as (e & Ee & E1). apply add_ok in E1 as [-> Hk1]; [|done].
    destruct (control_entity_ok _ _ _ _ _ _ _ Hin Hleg Ee) as (Hb & Hc & Hde).
    destruct (IH _ _ Hin Hleg Hk1 ltac:(apply Forall_app; by split; [|apply Forall_singleton]) E) as (? & ? & ->).
    split_and!; [done|done|]. unfold shape. rewrite map_app. simpl. rewrite Hb, Hc, <- app_assoc. done.
Qed.

Lemma resolve_all real l : ∀ es es', (∀ a, a ∈ l → a ∈ real) → keyed es → Forall (described real) es → foldR (resolve_basket real) es l = Ok es' →
  keyed es' ∧ Forall (described real) es' ∧ shape es' = shape es ++ concat (map (λ a, expected a.1.1) l).
Proof.
  induction l as [|[[b admission] reasons] l IH]; intros es es' Hsub Hk Hd E; simpl in E.
  - injection E as <-. by rewrite app_nil_r.
  - apply bind_ok in E as (es1 & E1 & E). apply bind_ok in E1 as (e & Ee & E1). apply bind_ok in E1 as (es2 & E2 & E1).
    apply add_ok in E2 as [-> Hk2]; [|done]. apply new_entity_ok in Ee as (id & Hdig & ->).
    assert ((b, admission, reasons) ∈ real) as Hin by (apply Hsub; left).
    match type of Hk2 with keyed (_ ++ [?e0]) => assert (described real e0) as Hde by (split; [exact Hdig|]; split; [done|]; split; [done|]; exists admission, reasons; by split_and!) end.
    assert (∃ es3, keyed es3 ∧ Forall (described real) es3 ∧ shape es3 = shape es ++ expected b ∧ foldR (resolve_basket real) es3 l = Ok es') as (es3 & Hk3 & Hd3 & Hs3 & E3).
    { exists es1. unfold expected. destruct (b_control_leg b) as [index|] eqn:Eleg.
      - apply (controls_ok real b index) in E1 as (? & ? & Hs); [|done|done|done|apply Forall_app; by split; [|apply Forall_singleton]].
        split_and!; [done|done| |done]. rewrite Hs. unfold shape. rewrite map_app. simpl. by rewrite <- app_assoc.
      - injection E1 as <-. split_and!; [done|apply Forall_app; by split; [|apply Forall_singleton]| |done]. unfold shape. by rewrite map_app. }
    destruct (IH es3 es' (λ a Ha, Hsub a (list_elem_of_further _ _ _ Ha)) Hk3 Hd3 E3) as (? & ? & ->). split_and!; [done|done|].
    rewrite Hs3. simpl. by rewrite <- app_assoc.
Qed.

(** ** Neighbours *)

(** [==] tells the baskets apart. *)
Definition told_apart (l : list Basket) : Prop := NoDup l ∧ ∀ a b, a ∈ l → b ∈ l → same_basket a b = true ↔ a = b.

Lemma index_here l : ∀ i b, told_apart l → l !! i = Some b → index_by same_basket b l = Some i.
Proof.
  induction l as [|a l IH]; intros i b [Hnd Hsame] Hi; [done|]. apply NoDup_cons in Hnd as [Ha Hnd]. simpl. destruct i as [|i]; simpl in Hi.
  - injection Hi as <-. by rewrite (proj2 (Hsame a a ltac:(left) ltac:(left))).
  - assert (b ∈ l) as Hb by by eapply list_elem_of_lookup_2. destruct (same_basket a b) eqn:E.
    + apply (Hsame a b) in E as ->; [done|left|by right].
    + rewrite (IH i b); [done| |done]. split; [done|]. intros c d Hc Hd. apply Hsame; by right.
Qed.

(** The neighbours of a group of two or more are its rotation. *)
Lemma neighbors_rotate group : told_apart group → (2 ≤ length group)%nat →
  mapR (neighbor group) group = Ok (drop 1 group ++ take 1 group) ∧ Forall2 (λ b other, b ≠ other) group (drop 1 group ++ take 1 group).
Proof.
  intros Hg Hlen. assert (∀ i b other, group !! i = Some b → (drop 1 group ++ take 1 group) !! i = Some other →
    group !! ((i + 1) mod length group)%nat = Some other) as Hrot.
  { intros i b other Hi Ho. pose proof (lookup_lt_Some _ _ _ Hi) as Hlt. destruct (decide (i + 1 < length group)%nat) as [Hin|Hout].
    - rewrite Nat.mod_small by done. rewrite lookup_app_l in Ho by (rewrite length_drop; lia). rewrite lookup_drop in Ho. by rewrite Nat.add_comm.
    - assert (i = length group - 1)%nat as -> by lia. rewrite lookup_app_r in Ho by (rewrite length_drop; lia). rewrite length_drop in Ho.
      rewrite Nat.sub_diag in Ho. rewrite lookup_take_lt in Ho by lia. replace (length group - 1 + 1)%nat with (length group) by lia. by rewrite Nat.Div0.mod_same. }
  assert (length group = length (drop 1 group ++ take 1 group)) as Hl by (rewrite length_app, length_drop, length_take; lia).
  split.
  - apply mapR_ok, Forall2_same_length_lookup_2; [done|]. intros i b other Hi Ho. unfold neighbor. rewrite (index_here group i b) by done.
    unfold item. by rewrite (Hrot i b other).
  - apply Forall2_same_length_lookup_2; [done|]. intros i b other Hi Ho ->. pose proof (Hrot i other other Hi Ho) as Hr. pose proof (lookup_lt_Some _ _ _ Hi) as Hlt.
    assert (i = (i + 1) mod length group)%nat as Heq by (by eapply NoDup_lookup; [apply Hg|..]).
    destruct (decide (i + 1 < length group)%nat) as [Hin|Hout]; [rewrite Nat.mod_small in Heq by done; lia|].
    replace (i + 1)%nat with (length group) in Heq by lia. rewrite Nat.Div0.mod_same in Heq. lia.
Qed.

Lemma admit_basket b a : admission_of b = Ok a → a.1.1 = b.
Proof.
  unfold admission_of. intros E. apply bind_ok in E as (u & _ & E). apply bind_ok in E as (u' & _ & E). destruct (b_admission b); [by injection E as <-|].
  apply bind_ok in E as (u2 & _ & E). apply bind_ok in E as (adm & _ & E). by injection E as <-.
Qed.
Lemma admit_all baskets real : mapR admission_of baskets = Ok real → map (λ a, a.1.1) real = baskets.
Proof. intros E%mapR_ok. induction E as [|b a baskets real Ha _ IH]; [done|]. simpl. rewrite IH. f_equal. by apply admit_basket. Qed.

Lemma peers_apart real g : told_apart (map (λ a, a.1.1) real) → told_apart (peers real g).
Proof.
  intros [Hnd Hs]. assert (∀ b, b ∈ peers real g → b ∈ map (λ a : admitted, a.1.1) real) as Hsub.
  { intros b Hb. unfold peers in Hb. rewrite sort_by_perm in Hb. apply list_elem_of_fmap in Hb as (a & -> & Ha). apply list_elem_of_filter in Ha as [_ Ha].
    by apply (list_elem_of_fmap_2 (λ a : admitted, a.1.1)). }
  split; [|intros; apply Hs; by apply Hsub]. unfold peers. rewrite sort_by_perm. clear Hs Hsub. induction real as [|a real IH]; [constructor|].
  simpl in Hnd. apply NoDup_cons in Hnd as [Ha Hnd]. rewrite filter_cons. destruct (decide _); [|by apply IH]. simpl. apply NoDup_cons. split; [|by apply IH].
  intros Hin. apply Ha. apply list_elem_of_fmap in Hin as (a' & E & Ha'). apply list_elem_of_filter in Ha' as [_ Ha']. rewrite E. by apply (list_elem_of_fmap_2 (λ a : admitted, a.1.1)).
Qed.

(** A group's peers are its admitted baskets that take controls. *)
Lemma peers_elem real g b : b ∈ peers real g ↔ is_Some (b_control_leg b) ∧ b_peer_group b = g ∧ ∃ reasons, (b, None, reasons) ∈ real.
Proof.
  unfold peers. rewrite sort_by_elem. split.
  - intros ([[b' admission] reasons] & -> & [Hp Hin]%list_elem_of_filter)%list_elem_of_fmap. unfold is_peer in Hp. simpl in *.
    apply andb_true_iff in Hp as [[Ha%bool_decide_eq_true Hl%bool_decide_eq_true]%andb_true_iff Hg%bool_decide_eq_true]. subst admission. eauto.
  - intros (Hl & Hg & reasons & Hin). apply list_elem_of_fmap. exists (b, None, reasons). split; [done|]. apply list_elem_of_filter. split; [|done].
    unfold is_peer. simpl. by rewrite !bool_decide_eq_true_2.
Qed.

(** The runtime's assumption on the entities of a scope, from the baskets alone. *)
Lemma resolved_declared baskets es : resolve baskets = Ok es →
  (∀ b inputs, b ∈ baskets → b_inputs b = Some inputs → Forall (λ ins, ins ≠ []) inputs) → well_declared (map r_entity es).
Proof.
  intros E Hne. unfold resolve in E. apply bind_ok in E as (real & Er & E). pose proof (admit_all _ _ Er) as Hb.
  apply resolve_all in E as (Hk & Hd & _); [|done|constructor|by apply Forall_nil_2]. split; [by rewrite map_map|].
  intros en inputs (e & -> & He)%list_elem_of_fmap Hi. rewrite Forall_forall in Hd. destruct (Hd e He) as (_ & Ei & _ & admission & reasons & Hin & _).
  apply Forall_take. apply (Hne (r_basket e)); [|congruence]. rewrite <- Hb.
  by apply (list_elem_of_fmap_2 (λ a : admitted, a.1.1) _ (r_basket e, admission, reasons)).
Qed.

(** C21. A scope's denominator is exactly what was declared, and the cyclic controls are a
    derangement of the peers.  When a scope of baskets that [==] tells apart resolves, its
    entities have distinct identities, each the digest of its descriptor; they are, basket by
    basket, the real entity followed by one control per declared control; every entity has the
    class, legs, shift and admission its basket and control give it; the peers of a group are
    its admitted baskets that take controls; and in every peer group of two or more the leg a
    control substitutes comes from another basket, each peer being the donor of exactly one. *)
Theorem scope_entities_exact baskets es : resolve baskets = Ok es → told_apart baskets →
  NoDup (map (λ e, en_id (r_entity e)) es) ∧ map (λ e, (r_basket e, r_control e)) es = concat (map expected baskets) ∧
  ∃ real, mapR admission_of baskets = Ok real ∧ Forall (described real) es ∧
    (∀ g b, b ∈ peers real g ↔ is_Some (b_control_leg b) ∧ b_peer_group b = g ∧ ∃ reasons, (b, None, reasons) ∈ real) ∧
    ∀ g, (2 ≤ length (peers real g))%nat → ∃ donors, mapR (neighbor (peers real g)) (peers real g) = Ok donors ∧
      Permutation donors (peers real g) ∧ Forall2 (λ b other, b ≠ other) (peers real g) donors.
Proof.
  intros E Ht. unfold resolve in E. apply bind_ok in E as (real & Er & E). pose proof (admit_all _ _ Er) as Hb.
  apply resolve_all in E as (Hk & Hd & Hs); [|done|constructor|by apply Forall_nil_2]. split_and!; [done| |].
  - unfold shape in Hs. rewrite Hs. simpl. by rewrite <- Hb, map_map.
  - exists real. split_and!; [done|done|intros; apply peers_elem|]. intros g Hg. rewrite <- Hb in Ht. destruct (neighbors_rotate (peers real g) (peers_apart _ _ Ht) Hg) as [Hm Hne].
    eexists. split_and!; [exact Hm| |exact Hne]. rewrite Permutation_app_comm. by rewrite take_drop.
Qed.
End Entities.

(** ** Demonstration: three peers, one of another scale, one that takes no controls *)
Definition entities_demo_basket (name : string) (order : Z) : @Basket Z string Z :=
  mkBasket (JObj [("name", JStr name); ("legs", JArr [JStr "hub"; JStr name])]) [("k", "hub"); ("k", name)] [order] None [] (Some 1%nat) "g" order None.
Definition entities_demo_solo : @Basket Z string Z :=
  mkBasket (JObj [("name", JStr "solo"); ("legs", JArr [JStr "hub"; JStr "solo"])]) [("k", "hub"); ("k", "a")] [5] None [] None "g" 5 None.
Definition entities_demo_baskets : list (@Basket Z string Z) :=
  [entities_demo_basket "c" 3; entities_demo_basket "a" 1; entities_demo_basket "odd" 4; entities_demo_solo; entities_demo_basket "b" 2].
Definition entities_demo_plans : gmap key (string * string) :=
  list_to_map (map (λ n, (("k", n), (if String.eqb n "odd" then "4" else "2", "0"))) ["hub"; "a"; "b"; "c"; "odd"])%string.
Definition entities_demo_descriptor (b : @Basket Z string Z) (c : Control) (replacement : json) (admission : option string) : result json :=
  Ok (JObj [("control", JStr (control_name c)); ("of", b_descriptor b); ("leg", replacement)]).
Definition entities_demo : result (list (@Resolved Z string Z)) :=
  resolve demo_dumps String.string_of_list_byte (λ b, if b : bool then 1 else 0) id entities_demo_plans false [cyclic_neighbor; time_shift 5] entities_demo_descriptor
    entities_demo_baskets.

Lemma scope_entities_exact_witness : ∃ es, entities_demo = Ok es ∧
  map (λ e, (en_legs (r_entity e), en_admission (r_entity e))) (filter (λ e, r_control e = Some cyclic_neighbor) es) =
    [([("k", "hub"); ("k", "a")], None); ([("k", "hub"); ("k", "b")], None); ([("k", "hub"); ("k", "odd")], Some "UNSUPPORTED_SCALE"); ([("k", "hub"); ("k", "c")], None)]%string ∧
  length es = 13%nat ∧ NoDup (map (λ e, en_id (r_entity e)) es).
Proof.
  destruct entities_demo as [es|e] eqn:E; [|vm_compute in E; discriminate]. exists es.
  assert (told_apart entities_demo_baskets) as Ht.
  { split.
    - apply (NoDup_fmap_1 b_peer_order). apply (bool_decide_unpack _). vm_compute. exact I.
    - intros a b Ha Hb. repeat (apply elem_of_cons in Ha as [->|Ha]); [..|by apply not_elem_of_nil in Ha];
        repeat (apply elem_of_cons in Hb as [->|Hb]); try (by apply not_elem_of_nil in Hb); vm_compute; split; congruence. }
  destruct (scope_entities_exact _ _ _ _ _ _ _ _ _ es E Ht) as (Hnd & _ & _). split; [done|].
  vm_compute in E. injection E as <-. split; [vm_compute; reflexivity|]. split; [reflexivity|exact Hnd].
Defined.
