(* ===== verification/ProfileStreams.v ===== *)
(** * The profile's written streams ([src/replay/economic_sdk/transitions.py], class [Stream])

    The market profile writes two row streams about every captured book: top-of-book rows and
    level changes.  They share the table of written books (a Kalshi [complement] is written
    as part of its Yes book), the scan of a cut and the lazy opening of the first scope. *)
From stdpp Require Import gmap strings sorting.
From S2P Require Import Prelude Order Wire Json LineWriter EconomicTypes BookProtocol.

Abbreviation key := (string * string)%type.

(** ** [str] and [int] of integers *)

(** [STATE]. *)
Definition STATE : Z := 512.

(** [str(n)]: like [int], limited to 4300 digits. *)
Definition TEXT_LIMIT : Z := 10 ^ Z.of_nat MAX_STR_DIGITS.
Definition text (n : Z) : result string :=
  if Z.abs n <? TEXT_LIMIT then Ok (str_int n) else Err (ValueError "Exceeds the limit for integer string conversion").

(** ** Plans, members and the written books *)
Record Plan := mkPlan { venue : string; price_scale : Z; plan_price_scale : json; plan_quantity_scale : json }.
Record Member := mkMember { market_id : string; member_books : list key }.

(** [RANK]. *)
Definition RANK (kind : json) : result Z :=
  match kind with
  | JStr s => if String.eqb s "operations" then Ok 0 else if String.eqb s "snapshot" then Ok 1
              else if String.eqb s "invalidation" then Ok 2 else Err KeyError
  | JArr _ | JObj _ => Err (TypeError "unhashable")
  | _ => Err KeyError
  end.

(** A pair of strings read as a dictionary key. *)
Definition json_key (v : json) : result (option key) :=
  i ← jget v "instrument"; o ← jget v "orientation";
  match i, o with
  | (JArr _ | JObj _), _ | _, (JArr _ | JObj _) => Err (TypeError "unhashable")
  | JStr i, JStr o => Ok (Some (i, o))
  | _, _ => Ok None
  end.

(** The key of a transition. *)
Definition key_of (t : json) : result (option key) := k ← jget t "key"; json_key k.

Section Stream.
Context (plans : gmap key Plan) (scopes : list (list Member)).

Definition present : gset key :=
  list_to_set (filter (λ k, is_Some (plans !! k)) (concat (map (λ m, member_books m) (concat scopes)))).
Definition is_kalshi (k : key) : bool := match plans !! k with Some p => String.eqb (venue p) "kalshi" | None => false end.

(** [written_key]; asked only of planned keys. *)
Definition written_key (k : key) : key :=
  if String.eqb k.2 "complement" && is_kalshi k && bool_decide ((k.1, "outcome"%string) ∈ present) then (k.1, "outcome"%string) else k.

(** [book_table]: the written books in index order. *)
Definition table : list key := sorted (elements (set_map written_key present : gset key)).
Definition index : gmap key Z := list_to_map (imap (λ i k, (k, Z.of_nat i)) table).
Definition written_of (k : key) : option key := if decide (k ∈ present) then Some (written_key k) else None.
Definition unit_of (k : key) : Z := match plans !! k with Some p => 10 ^ price_scale p | None => 1 end.

(** ** One cut *)

(** [_touches]: the keys with a transition, in order, and the strongest cause per written book. *)
Definition touch_cause (causes : gmap key json) (written : option key) (kind : json) : result (gmap key json) :=
  match written with
  | None => Ok causes
  | Some w =>
      rank ← RANK kind;
      before ← (match causes !! w with Some c => RANK c | None => Ok (-1) end);
      Ok (if before <=? rank then <[w := kind]> causes else causes)
  end.
Definition touch_key (acc : list key * gmap key json) (t : json) : result (list key * gmap key json) :=
  k ← key_of t;
  match k with
  | None => Err (ProtocolError "unplanned transition")
  | Some k =>
      _ ← require (bool_decide (is_Some (plans !! k))) "unplanned transition";
      _ ← require (negb (bool_decide (k ∈ acc.1))) "duplicate book transition in one cut";
      d ← jget t "decision"; kind ← jget d "kind";
      causes ← touch_cause acc.2 (written_of k) kind;
      Ok (acc.1 ++ [k], causes)
  end.
Definition touches (body : json) : result (list key * gmap key json) :=
  ts ← jget body "book_transitions"; rows ← py_iter ts; foldR touch_key ([], ∅) rows.

(** [_scan]: the venue-time records of the book events of each written book, and the trades. *)
Definition scan_event (want_trades : bool) (acc : gmap key (list json) * list json) (o : json) : result (gmap key (list json) * list json) :=
  e ← jget o "event"; kind ← jget e "kind";
  if jeq_str kind "book" then
    v ← jget e "value"; inner ← jget v "value"; k ← json_key inner;
    clock ← (match inner with JObj d => Ok (default JNull (dget d "venue_time")) | _ => Err AttributeError end);
    match (k ← k; written_of k), clock with
    | Some w, JNull => Ok acc
    | Some w, _ => Ok (<[w := default [] (acc.1 !! w) ++ [clock]]> acc.1, acc.2)
    | None, _ => Ok acc
    end
  else if want_trades && jeq_str kind "trade" then Ok (acc.1, acc.2 ++ [o])
  else Ok acc.
Definition scan (body : json) (want_trades : bool) : result (gmap key (list json) * list json) :=
  es ← jget body "market_events"; rows ← py_iter es; foldR (scan_event want_trades) (∅, []) rows.

(** *** [venue_keys] *)
Definition add_name (names : list json) (v : json) : result (list json) :=
  match v with
  | JArr _ | JObj _ => Err (TypeError "unhashable")
  | _ => Ok (if existsb (λ w, json_same w v) names then names else names ++ [v])
  end.
Definition one (names : list json) : json := match names with [v] => v | _ => JStr "mixed" end.
Record Clocks := mkClocks { first : option Z; last_ : option Z; sent : option Z; time_kinds : list json; resolutions : list json }.
Definition add_clock (c : Clocks) (v : json) : result Clocks :=
  e ← jget v "event_ns";
  c ← (match e with
       | JNull => Ok c
       | _ => at_ ← py_int e; k ← jget v "event_kind"; ks ← add_name (time_kinds c) k;
              r ← jget v "event_resolution"; rs ← add_name (resolutions c) r;
              Ok (mkClocks (Some (match first c with None => at_ | Some f => Z.min f at_ end))
                    (Some (match last_ c with None => at_ | Some l => Z.max l at_ end)) (sent c) ks rs)
       end);
  s ← jget v "sent_ns";
  match s with
  | JNull => Ok c
  | _ => at_ ← py_int s; Ok (mkClocks (first c) (last_ c) (Some (match sent c with None => at_ | Some l => Z.max l at_ end)) (time_kinds c) (resolutions c))
  end.
Definition venue_keys (values : list json) : result (list (string * json)) :=
  c ← foldR add_clock (mkClocks None None None [] []) values;
  head ← (match last_ c with
          | None => Ok []
          | Some l =>
              l' ← text l;
              f ← (if decide (first c = last_ c) then Ok [] else f ← text (default 0 (first c)); Ok [("venue_first_ns"%string, JStr f)]);
              Ok ([("venue_ns"%string, JStr l')] ++ f ++ [("venue_kind"%string, one (time_kinds c)); ("venue_res"%string, one (resolutions c))])
          end);
  tail ← (match sent c with None => Ok [] | Some s => s ← text s; Ok [("sent_ns"%string, JStr s)] end);
  Ok (head ++ tail).

(** [_row]. *)
Definition row (kind : string) (scope : Z) (k : key) (sequence time : Z) (fields : list (string * json)) : result json :=
  i ← (match index !! k with Some i => Ok i | None => Err KeyError end);
  t ← text time;
  Ok (JObj ([("type"%string, JStr kind); ("scope"%string, JInt scope); ("book"%string, JInt i); ("cut"%string, JInt sequence); ("t_ns"%string, JStr t)] ++ fields)).

(** *** Scope entry *)

(** Written keys of a scope, in index order. *)
Definition by_index (a b : key) : bool := default 0 (index !! a) <=? default 0 (index !! b).
Definition in_index_order (ks : list key) : list key := sort_by by_index ks.
Definition opened (scoped : gset key) : list key := in_index_order (filter (λ k, is_Some (index !! k)) (elements scoped)).

Section Opening.
Context {S : Type} (lazy : S → option (Z * Z * gset key)) (set_lazy : option (Z * Z * gset key) → S → S).
Context (opening : Z → key → Z → Z → ST S ()).

Definition open (scope at_ : Z) (scoped : gset key) (sequence : Z) : ST S () :=
  forS (λ k, opening scope k at_ sequence) (opened scoped).
(** Scope 0 opens at the first cut that counts, once the cuts before the start are applied. *)
Definition flush (sequence : Z) : ST S () :=
  s ← getS;
  match lazy s with
  | None => mret ()
  | Some (scope, at_, scoped) => _ ← modifyS (set_lazy None); open scope at_ scoped sequence
  end.
Definition open_scope (scope at_ : Z) (scoped : gset key) (sequence : Z) : ST S () :=
  _ ← flush sequence; open scope at_ scoped sequence.
End Opening.
End Stream.

(** ** The validity of a book in words *)
Section Validity.
(** [str] of a decoded float, list or object. *)
Context (py_repr : json → string).

(** [str] of a decoded value. *)
Definition py_str (v : json) : result string :=
  match v with
  | JStr s => Ok s
  | JInt n => text n
  | JBool b => Ok (if b then "True" else "False")%string
  | JNull => Ok "None"%string
  | _ => Ok (py_repr v)
  end.

Definition validity_text (b : Book) : result string :=
  if String.eqb (validity b) "usable" || String.eqb (validity b) "not_initialized" then Ok (validity b) else
  kind ← (if truthy (reason b) then
            match reason b with
            | JObj d => match dget d "kind" with Some v => py_str v | None => Ok "unknown"%string end
            | _ => Err AttributeError
            end
          else Ok "unknown"%string);
  Ok ("unusable:" +:+ kind).
End Validity.

(** ** What the collector drives a stream with *)
Inductive event :=
| Crossing (scope at_ : Z) (scoped : gset key) (sequence : Z)
| Applied (sequence raw time : Z) (body : json).

(** From the first cut that counts, or the first crossing, every cut counts. *)
Fixpoint in_order (start : Z) (counting : bool) (es : list event) : Prop :=
  match es with
  | [] => True
  | Crossing _ _ _ _ :: es => in_order start true es
  | Applied _ raw _ _ :: es => (counting = true → start ≤ raw) ∧ in_order start (counting || (start <=? raw)) es
  end.

(** ** Integers written and read back *)
Lemma code_digit_space c : is_digit c = true → is_space c = false.
Proof.
  intros [Ha Hb]%andb_true_iff. apply Z.leb_le in Ha, Hb. unfold is_space. apply orb_false_iff. split; apply andb_false_iff; right; apply Z.leb_gt; lia.
Qed.
Lemma lstrip_none l : match l with c :: _ => is_space c = false | [] => True end → lstrip l = l.
Proof. destruct l as [|c l]; simpl; [done|]. by intros ->. Qed.
Lemma digits_under_true l acc : forallb is_digit l = true → digits_under true acc l = Some (foldl (λ n c, n * 10 + (code c - 48)) acc l).
Proof. revert acc. induction l as [|c l IH]; intros acc; simpl; [done|]. intros [-> Hl]%andb_true_iff. by apply IH. Qed.
Lemma digits_under_value l : forallb is_digit l = true → l ≠ [] → digits_under false 0 l = Some (digits_value l).
Proof. destruct l as [|c l]; [done|]. simpl. intros [-> Hl]%andb_true_iff _. by rewrite digits_under_true. Qed.

Lemma decimal_digits n : 0 ≤ n → forallb is_digit (decimal n) = true ∧ decimal n ≠ [] ∧ digits_value (decimal n) = n.
Proof.
  intros Hn. destruct (decimal_canonical n Hn) as (Hc & Hv & _). split_and!; [|by intros E; rewrite E in Hc|done].
  destruct (decimal n) as [|c [|c' l]]; [done|simpl in *; by rewrite Hc|]. cbn [canonical] in Hc. apply andb_true_iff in Hc as [[Hc _]%andb_true_iff Hl].
  cbn [forallb]. by rewrite Hc.
Qed.
Lemma decimal_short n : 0 ≤ n < TEXT_LIMIT → (length (decimal n) <= MAX_STR_DIGITS)%nat.
Proof.
  intros [Hn Hlt]. assert (1 ≤ Z.of_nat MAX_STR_DIGITS) by (unfold MAX_STR_DIGITS; lia). destruct (decide (n = 0)) as [->|Hne]; [simpl; lia|].
  destruct (decimal_canonical n Hn) as (Hc & Hv & Hh). destruct (canonical_bounds _ Hc) as [_ Hb]. rewrite Hv in Hb. specialize (Hb (Hh ltac:(lia))).
  destruct (decide (length (decimal n) <= MAX_STR_DIGITS)%nat) as [|Hlong]; [done|]. exfalso.
  assert (TEXT_LIMIT ≤ 10 ^ (Z.of_nat (length (decimal n)) - 1)); [|lia]. unfold TEXT_LIMIT. apply Z.pow_le_mono_r; lia.
Qed.
Lemma filter_digits l : forallb is_digit l = true → filter (λ c, is_digit c = true) l = l.
Proof. induction l as [|c l IH]; [done|]. simpl. intros [Hc Hl]%andb_true_iff. rewrite filter_cons, decide_True by done. by rewrite IH. Qed.
Lemma strip_digits c l : is_space c = false → (c :: l = [c] ∨ forallb is_digit l = true) → rev (lstrip (rev (lstrip (c :: l)))) = c :: l.
Proof.
  intros Hc Hl. rewrite (lstrip_none (c :: l)) by done. rewrite (lstrip_none (rev (c :: l))); [apply rev_involutive|].
  destruct Hl as [->|Hl]; [done|]. destruct l as [|d l _] using rev_ind; [done|]. simpl. rewrite rev_app_distr. simpl.
  rewrite forallb_app in Hl. simpl in Hl. apply code_digit_space. by destruct (is_digit d); [|rewrite !andb_false_r in Hl].
Qed.

(** [int(str(n)) == n]. *)
Lemma int_of_text n s : text n = Ok s → py_int (JStr s) = Ok n.
Proof.
  unfold text. destruct (Z.ltb_spec (Z.abs n) (TEXT_LIMIT)) as [Hn|]; [|done]. intros [= <-]. destruct (decimal_digits (Z.abs n)) as (Hd & Hne & Hv); [lia|].
  pose proof (decimal_short (Z.abs n) ltac:(lia)) as Hlen. unfold py_int, parse_int, str_int. destruct (Z.ltb_spec n 0) as [Hneg|Hpos].
  - rewrite Z.abs_neq in * by lia. change (chars ("-" +:+ String.string_of_list_ascii (decimal (- n)))) with ((Ascii.ascii_of_nat 45) :: chars (String.string_of_list_ascii (decimal (- n)))).
    unfold chars. rewrite String.list_ascii_of_string_of_list_ascii. rewrite filter_cons, decide_False by done. rewrite filter_digits by done.
    rewrite (proj2 (Nat.leb_le _ _) Hlen). cbn [negb]. rewrite strip_digits by (done || by right). change (code (Ascii.ascii_of_nat 45) =? 45) with true. cbn iota.
    rewrite digits_under_value by done. rewrite Hv. simpl. f_equal. lia.
  - rewrite Z.abs_eq in * by lia. unfold chars. rewrite String.list_ascii_of_string_of_list_ascii. rewrite filter_digits by done.
    rewrite (proj2 (Nat.leb_le _ _) Hlen). cbn [negb]. destruct (decimal n) as [|c l] eqn:E; [done|]. pose proof Hd as Hd0. simpl in Hd. apply andb_true_iff in Hd as [Hc Hl].
    rewrite strip_digits by (by apply code_digit_space || by right). assert (48 ≤ code c ≤ 57) by by apply is_digit_range in Hc; lia.
    destruct (Z.eqb_spec (code c) 45); [lia|]. destruct (Z.eqb_spec (code c) 43); [lia|]. by rewrite digits_under_value, Hv.
Qed.
Lemma text_bound n s : text n = Ok s → s = str_int n.
Proof. unfold text. destruct (_ <? _); [|done]. by intros [= <-]. Qed.


(** ** What [_touches] finds *)
Definition kind_of (t : json) : result json := d ← jget t "decision"; jget d "kind".

Lemma rank_range c r : RANK c = Ok r → 0 ≤ r.
Proof.
  destruct c as [| | | | | |s| |]; try done. simpl.
  repeat match goal with |- context [if ?b then _ else _] => destruct b end; intros [= <-]; done.
Qed.
Lemma rank_zero c r : RANK c = Ok r → r ≤ 0 → c = JStr "operations".
Proof.
  destruct c as [| | | | | |s| |]; try done. simpl. destruct (String.eqb_spec s "operations") as [->|]; [done|].
  repeat match goal with |- context [if ?b then _ else _] => destruct b end; intros [= <-]; lia.
Qed.

Section StreamFacts.
Context (plans : gmap key Plan) (scopes : list (list Member)).

(** Of the transitions seen so far: every cause is a transition's, and the strongest. *)
Definition caused (seen : list (json * key)) (causes : gmap key json) : Prop :=
  (∀ w, is_Some (causes !! w) → ∃ t k, (t, k) ∈ seen ∧ written_of plans scopes k = Some w) ∧
  (∀ t k w, (t, k) ∈ seen → written_of plans scopes k = Some w →
     ∃ kind r c r', kind_of t = Ok kind ∧ RANK kind = Ok r ∧ causes !! w = Some c ∧ RANK c = Ok r' ∧ r ≤ r').

Lemma touch_cause_ok seen causes t k kind causes' :
  touch_cause causes (written_of plans scopes k) kind = Ok causes' → kind_of t = Ok kind → caused seen causes → caused (seen ++ [(t, k)]) causes'.
Proof.
  intros E Hkind [Hs Hc]. unfold touch_cause in E. destruct (written_of plans scopes k) as [w0|] eqn:Ew.
  2: { injection E as <-. split.
       - intros w Hw. destruct (Hs w Hw) as (t' & k' & Hin & Hk). exists t', k'. split; [apply elem_of_app; by left|done].
       - intros t' k' w [Hin|[= -> ->]%list_elem_of_singleton]%elem_of_app Hk; [by eapply Hc|congruence]. }
  apply bind_ok in E as (rank & Hr & E). apply bind_ok in E as (before & Hb & E). injection E as <-. split.
  - intros w Hw. destruct (decide (w = w0)) as [->|Hne].
    + exists t, k. split; [apply elem_of_app; right; by apply list_elem_of_singleton|done].
    + assert (is_Some (causes !! w)) as Hw'. { destruct (before <=? rank); [by rewrite lookup_insert_ne in Hw|done]. }
      destruct (Hs w Hw') as (t' & k' & Hin & Hk). exists t', k'. split; [apply elem_of_app; by left|done].
  - assert (∃ c r', (if before <=? rank then <[w0:=kind]> causes else causes) !! w0 = Some c ∧ RANK c = Ok r' ∧ rank ≤ r' ∧ before ≤ r') as (c0 & r0 & Hc0 & Hr0 & Hle & Hbe).
    { destruct (Z.leb_spec before rank).
      - exists kind, rank. rewrite lookup_insert_eq. split_and!; [done|done|lia|done].
      - destruct (causes !! w0) as [c|] eqn:Ec; [|injection Hb as <-; pose proof (rank_range _ _ Hr); lia].
        exists c, before. split_and!; [done|done|lia|lia]. }
    intros t' k' w Hin Hk. destruct (decide (w = w0)) as [->|Hne].
    + apply elem_of_app in Hin as [Hin|[= -> ->]%list_elem_of_singleton].
      * destruct (Hc t' k' w0 Hin Hk) as (kind' & r & c & r' & ? & ? & Ec & Hr' & ?). exists kind', r, c0, r0. split_and!; try done.
        rewrite Ec in Hb. assert (r' = before) as -> by congruence. lia.
      * by exists kind, rank, c0, r0.
    + apply elem_of_app in Hin as [Hin|[= -> ->]%list_elem_of_singleton]; [|congruence].
      destruct (Hc t' k' w Hin Hk) as (kind' & r & c & r' & ? & ? & Ec & ? & ?). exists kind', r, c, r'. split_and!; try done.
      destruct (before <=? rank); [by rewrite lookup_insert_ne|done].
Qed.

Lemma touches_ok body keys causes : touches plans scopes body = Ok (keys, causes) →
  ∃ rows, (ts ← jget body "book_transitions"; py_iter ts) = Ok rows ∧ Forall2 (λ t k, key_of t = Ok (Some k)) rows keys ∧ NoDup keys ∧
    Forall (λ k, is_Some (plans !! k)) keys ∧ caused (zip rows keys) causes.
Proof.
  unfold touches. intros H. apply bind_ok in H as (ts & Ets & H). apply bind_ok in H as (rows & Erows & H). exists rows. rewrite Ets. split; [done|].
  assert (∀ rows0 keys0 causes0, Forall2 (λ t k, key_of t = Ok (Some k)) rows0 keys0 → NoDup keys0 → Forall (λ k, is_Some (plans !! k)) keys0 →
    caused (zip rows0 keys0) causes0 → foldR (touch_key plans scopes) (keys0, causes0) rows = Ok (keys, causes) →
    Forall2 (λ t k, key_of t = Ok (Some k)) (rows0 ++ rows) keys ∧ NoDup keys ∧ Forall (λ k, is_Some (plans !! k)) keys ∧ caused (zip (rows0 ++ rows) keys) causes) as Hgen.
  2: { apply (Hgen [] [] ∅); try done; [constructor|]. split; [by intros w []|by intros t k w Hin%elem_of_nil]. }
  clear Erows H. induction rows as [|t rows IH]; intros rows0 keys0 causes0 Hk Hnd Hp Hc H; simpl in H.
  - injection H as <- <-. rewrite app_nil_r. done.
  - apply bind_ok in H as ([keys1 causes1] & H1 & H). unfold touch_key in H1. apply bind_ok in H1 as ([k|] & Ek & H1); [|done].
    res_inv. rewrite cons_middle, app_assoc. apply (IH (rows0 ++ [t]) (keys0 ++ [k]) causes1); [| | | |done].
    + apply Forall2_app; [done|by repeat constructor].
    + apply NoDup_app. split_and!; [done| |apply NoDup_singleton]. intros k' Hin ->%list_elem_of_singleton.
      match goal with H : negb (bool_decide _) = true |- _ => apply negb_true_iff, bool_decide_eq_false in H; done end.
    + apply Forall_app. split; [done|]. constructor; [|constructor]. by match goal with H : bool_decide _ = true |- _ => apply bool_decide_eq_true in H end.
    + rewrite zip_with_app by (by eapply Forall2_length). eapply touch_cause_ok; [done| |done]. unfold kind_of.
      match goal with H : jget t "decision" = _ |- _ => rewrite H end. done.
Qed.

(** A cut whose cause for a written book is [operations] has only operations for it. *)
Lemma only_operations seen causes t k w : caused seen causes → (t, k) ∈ seen → written_of plans scopes k = Some w →
  causes !! w = Some (JStr "operations") → kind_of t = Ok (JStr "operations").
Proof.
  intros [_ Hc] Hin Hk Hw. destruct (Hc t k w Hin Hk) as (kind & r & c & r' & Ht & Hr & Ec & Hr' & Hle). rewrite Hw in Ec. injection Ec as <-.
  injection Hr' as <-. by rewrite (rank_zero _ _ Hr) in Ht.
Qed.

(** ** The table of written books *)
Lemma present_planned k : k ∈ present plans scopes → is_Some (plans !! k).
Proof. unfold present. rewrite elem_of_list_to_set, list_elem_of_filter. by intros [? _]. Qed.

Lemma written_of_ok k w : written_of plans scopes k = Some w ↔ k ∈ present plans scopes ∧ written_key plans scopes k = w.
Proof. unfold written_of. destruct (decide _); naive_solver. Qed.
Lemma table_elem w : w ∈ table plans scopes ↔ ∃ k, written_of plans scopes k = Some w.
Proof.
  unfold table. rewrite sorted_elem, elem_of_elements, elem_of_map. setoid_rewrite written_of_ok. naive_solver.
Qed.
Lemma written_key_cases k : written_key plans scopes k = k ∨
  (k.2 = "complement"%string ∧ is_kalshi plans k = true ∧ written_key plans scopes k = (k.1, "outcome"%string) ∧ (k.1, "outcome"%string) ∈ present plans scopes).
Proof.
  unfold written_key. destruct (_ && _ && _) eqn:E; [right|by left]. apply andb_true_iff in E as [[Ec%String.eqb_eq Ek]%andb_true_iff Ep%bool_decide_eq_true].
  done.
Qed.
Lemma written_self k w : written_of plans scopes k = Some w → written_of plans scopes w = Some w.
Proof.
  rewrite !written_of_ok. intros [Hk <-]. destruct (written_key_cases k) as [E|(_ & _ & -> & Hp)]; [by rewrite !E|].
  split; [done|]. unfold written_key. done.
Qed.
(** A book that feeds another is its Kalshi complement. *)
Lemma written_other k w : written_of plans scopes k = Some w → k ≠ w → is_kalshi plans k = true ∧ k = (w.1, "complement"%string).
Proof.
  rewrite written_of_ok. intros [_ <-] Hne. destruct (written_key_cases k) as [E|(Ec & Hk & -> & _)]; [by rewrite E in Hne|].
  split; [done|]. destruct k; simpl in *; congruence.
Qed.

Lemma table_nodup : NoDup (table plans scopes).
Proof. unfold table. rewrite sorted_perm. apply NoDup_elements. Qed.
Lemma index_lookup w i : index plans scopes !! w = Some i ↔ ∃ n, i = Z.of_nat n ∧ table plans scopes !! n = Some w.
Proof.
  unfold index. rewrite <- elem_of_list_to_map.
  - rewrite elem_of_lookup_imap. naive_solver.
  - rewrite fmap_imap. assert (imap (λ n, fst ∘ (λ k : key, (k, Z.of_nat n))) (table plans scopes) = table plans scopes) as ->; [|apply table_nodup].
    rewrite (imap_ext _ (const id)) by done. rewrite imap_const. apply list_fmap_id.
Qed.
Lemma index_inj w w' i : index plans scopes !! w = Some i → index plans scopes !! w' = Some i → w = w'.
Proof. rewrite !index_lookup. intros (n & -> & H) (n' & E & H'). assert (n' = n) as -> by lia. congruence. Qed.
Lemma index_written w : is_Some (index plans scopes !! w) ↔ written_of plans scopes w = Some w.
Proof.
  split.
  - intros [i (n & _ & H)%index_lookup]. apply list_elem_of_lookup_2, table_elem in H as [k Hk]. by eapply written_self.
  - intros H. assert (w ∈ table plans scopes) as [n Hn]%list_elem_of_lookup_1 by (apply table_elem; by exists w).
    exists (Z.of_nat n). apply index_lookup. eauto.
Qed.
Lemma in_index_order_elem ks w : w ∈ in_index_order plans scopes ks ↔ w ∈ ks.
Proof. apply sort_by_elem. Qed.
Lemma in_index_order_nodup ks : NoDup ks → NoDup (in_index_order plans scopes ks).
Proof. unfold in_index_order. by rewrite sort_by_perm. Qed.
Lemma opened_elem scoped w : w ∈ opened plans scopes scoped ↔ w ∈ scoped ∧ written_of plans scopes w = Some w.
Proof. unfold opened. rewrite in_index_order_elem, list_elem_of_filter, elem_of_elements, index_written. tauto. Qed.
End StreamFacts.
