(* ===== verification/ProfileDemo.v ===== *)
(** * A run of the profile's streams

    Inputs of a small run that the witnesses of both streams evaluate. *)
From stdpp Require Import gmap strings.
From S2P Require Import Prelude Wire BookProtocol Decoder ProfileStreams.

(** A Kalshi book with its complement and a native book: snapshots before the start, level
    changes on both sides of the pair, a crossing, a trade and a change of the native book
    and its invalidation. *)
Definition level_plan (v : string) : Plan := mkPlan v 2 (JStr "2") (JStr "0").
Definition demo_yes : key := ("kalshi:A", "outcome")%string.
Definition demo_no : key := ("kalshi:A", "complement")%string.
Definition demo_native : key := ("polymarket:B", "outcome")%string.
Definition level_plans : gmap key Plan := {[ demo_yes := level_plan "kalshi"; demo_no := level_plan "kalshi"; demo_native := level_plan "polymarket" ]}.
Definition level_scopes : list (list Member) := [[mkMember "m" [demo_yes; demo_no]; mkMember "n" [demo_native]]].
Definition level_scoped : gset key := {[ demo_yes; demo_no; demo_native ]}.
Definition level_decoder : Decoder :=
  Decoder.set_books {[ demo_yes := new_book 2; demo_no := new_book 2; demo_native := new_book 2 ]} demo_decoder.
Definition level_transition (k : key) (previous : Z) (decision : json) : json := JObj
  [("key", JObj [("instrument", JStr k.1); ("orientation", JStr k.2)]); ("revision", JStr (str_int (previous + 1)));
   ("previous_revision", JStr (str_int previous)); ("dependency", JNull); ("decision", decision)]%string.
Definition level_cut (events ts : list json) : json := JObj [("origin", JNull); ("book_transitions", JArr ts); ("market_events", JArr events)]%string.
Definition level_trade (k : key) (price quantity : Z) : json := JObj
  [("disposition", JStr "observed");
   ("event", JObj [("kind", JStr "trade"); ("value", JObj
     [("instrument", JStr k.1); ("orientation", JStr k.2); ("price", JObj [("atoms", JStr (str_int price)); ("scale", JStr "2")]);
      ("quantity", JObj [("atoms", JStr (str_int quantity)); ("scale", JStr "0")]); ("aggressor", JStr "ask")])])]%string.
Definition level_changes (ops : list json) : json := JObj [("kind", JStr "operations"); ("operations", JArr ops)]%string.
Definition level_events : list event :=
  [Applied 1 50 100 (level_cut [] [level_transition demo_yes 0 demo_snapshot; level_transition demo_no 0 demo_snapshot; level_transition demo_native 0 demo_snapshot]);
   Applied 2 110 110 (level_cut [] [level_transition demo_yes 1 (level_changes [wire_op "bid" "delete" 42 None; wire_op "ask" "set" 99 (Some 1)]);
                                 level_transition demo_no 1 (level_changes [wire_op "bid" "increase" 41 (Some 4); wire_op "bid" "decrease" 3 (Some 2)])]);
   Crossing 1 150 level_scoped 3;
   Applied 3 150 150 (level_cut [level_trade demo_native 44 6] [level_transition demo_native 1 (level_changes [wire_op "ask" "set" 44 (Some 6); wire_op "ask" "decrease" 45 (Some 2)])]);
   Applied 4 160 160 (level_cut [] [level_transition demo_native 2 (JObj [("kind", JStr "invalidation"); ("reason", JNull)]%string)])].

Definition from_result {A} (a : A) (x : result A) : A := match x with Ok a => a | Err _ => a end.
Definition level_repr (v : json) : string := "".

Definition succeeds {A} (x : result A) : bool := match x with Ok _ => true | Err _ => false end.
Lemma succeeded {S A B} (p : S * result (A * B)) a : succeeds p.2 = true → p = (p.1, Ok ((from_result a p.2).1, (from_result a p.2).2)).
Proof. by destruct p as [s [[]|]]. Qed.
Lemma succeeded_unit {S} (p : S * result ()) : succeeds p.2 = true → p = (p.1, Ok ()).
Proof. by destruct p as [s [[]|]]. Qed.

Lemma level_plans_lookup k p : level_plans !! k = Some p → (k = demo_yes ∨ k = demo_no ∨ k = demo_native) ∧ p = level_plan (if decide (k = demo_native) then "polymarket" else "kalshi").
Proof.
  unfold level_plans. intros Hp. apply lookup_insert_Some in Hp as [[<- <-]|[_ Hp]]; [by auto|].
  apply lookup_insert_Some in Hp as [[<- <-]|[_ Hp]]; [by auto|]. apply lookup_singleton_Some in Hp as [<- <-]. by auto.
Qed.
Lemma level_one_venue i o o' p p' : level_plans !! (i, o) = Some p → level_plans !! (i, o') = Some p' → venue p = venue p'.
Proof.
  intros [[E|[E|E]] ->]%level_plans_lookup [[E'|[E'|E']] ->]%level_plans_lookup; injection E as -> ->; injection E' as E1; subst; try done; discriminate.
Qed.

Lemma level_two_sided k : is_Some (level_plans !! k) → k.2 = "outcome"%string ∨ k.2 = "complement"%string.
Proof. intros [p [[-> | [-> | ->]] _]%level_plans_lookup]; auto. Qed.
Lemma level_present k : is_Some (level_plans !! k) → k ∈ present level_plans level_scopes.
Proof. intros [p [[-> | [-> | ->]] _]%level_plans_lookup]; by vm_compute. Qed.
