(* ===== verification/Levels.v ===== *)
(** * Level changes of the market profile ([src/replay/economic_sdk/levels.py])

    The recorder mirrors the levels of every planned book, checks the mirror against the
    decoder on every cut, and writes full ladders at anchors and signed level changes
    between them; [iter_levels] of [profile_streams.py] reads the ladders back. *)
From stdpp Require Import gmap strings sorting.
From S2P Require Import Prelude Order Wire Json LineWriter EconomicTypes BookProtocol ProfileStreams.

Definition LEVEL : Z := SLOT + 2 * INT.

(** [_Mirror]. *)
Record Mirror := mkMirror { sides : sided ladder; m_best : sided (option Z); valid : bool }.
Definition empty_mirror : Mirror := mkMirror (Sided ∅ ∅) (Sided None None) false.

Definition mirror_top (m : Mirror) (s : side) : result (option (Z * Z)) :=
  match sget s (m_best m) with
  | None => Ok None
  | Some p => match sget s (sides m) !! p with Some q => Ok (Some (p, q)) | None => Err KeyError end
  end.
Definition settle (s : side) (m : Mirror) : Mirror := mkMirror (sides m) (sset s (extreme s (dom (sget s (sides m)))) (m_best m)) (valid m).

Definition bare (x : sided ladder) : bool := bool_decide (on_bid x = ∅) && bool_decide (on_ask x = ∅).

(** Signed changes by side ([true] for asks) and price. *)
Abbreviation deltas_t := (gmap (bool * Z) Z).
Definition is_ask (s : side) : bool := match s with Bid => false | Ask => true end.

(** ** One book *)

(** [_replace], with the state budget. *)
Definition replace_side (s : side) (levels : ladder) (m : Mirror) : ST Z Mirror :=
  let old := sget s (sides m) in
  _ ← charge_budget (Z.of_nat (base.size levels) * LEVEL);
  _ ← release_budget (Z.of_nat (base.size old) * LEVEL);
  mret (settle s (mkMirror (sset s levels (sides m)) (m_best m) (valid m))).

(** [{int(p): int(q) for p, q in rows}]. *)
Definition read_level (acc : ladder) (v : json) : result ladder :=
  pq ← unpack2 v; p ← py_int pq.1; q ← py_int pq.2; Ok (<[p := q]> acc).
Definition read_ladder (v : json) : result ladder := rows ← py_iter v; foldR read_level ∅ rows.

(** The new quantity of one level: the mirror, its best price and the budget. *)
Definition set_level (s : side) (p new : Z) (m : Mirror) : ST Z Mirror :=
  if 0 <? new then
    m ← (if decide (is_Some (sget s (sides m) !! p)) then mret m
         else
           _ ← charge_budget LEVEL;
           mret (match sget s (m_best m) with
                 | Some t => if better s p t then mkMirror (sides m) (sset s (Some p) (m_best m)) (valid m) else m
                 | None => mkMirror (sides m) (sset s (Some p) (m_best m)) (valid m)
                 end));
    mret (mkMirror (sset s (<[p := new]> (sget s (sides m))) (sides m)) (m_best m) (valid m))
  else if decide (is_Some (sget s (sides m) !! p)) then
    let m' := mkMirror (sset s (delete p (sget s (sides m))) (sides m)) (m_best m) (valid m) in
    _ ← release_budget LEVEL;
    mret (if decide (sget s (m_best m) = Some p) then settle s m' else m')
  else mret m.

(** One level change: the mirror and the changes so far. *)
Definition apply_operation (x : Mirror * deltas_t) (op : json) : ST Z (Mirror * deltas_t) :=
  let '(m, deltas) := x in
  sv ← liftR (jget op "side");
  let s := if jeq_str sv "bid" then Bid else Ask in
  price ← liftR (jget op "price"); atoms ← liftR (jget price "atoms"); p ← liftR (py_int atoms);
  change ← liftR (jget op "change");
  let old := default 0 (sget s (sides m) !! p) in
  new ← liftR (new_quantity change (Ok old));
  _ ← requireS (0 <=? new) "level mirror underflow";
  m ← set_level s p new m;
  mret (m, if new =? old then deltas else <[(is_ask s, p) := default 0 (deltas !! (is_ask s, p)) + new - old]> deltas).

Fixpoint apply_operations (x : Mirror * deltas_t) (ops : list json) : ST Z (Mirror * deltas_t) :=
  match ops with [] => mret x | op :: ops => x ← apply_operation x op; apply_operations x ops end.

(** [_apply]: [Some] changes for operations. *)
Definition apply (m : Mirror) (t : json) : ST Z (Mirror * option deltas_t) :=
  d ← liftR (jget t "decision"); kind ← liftR (jget d "kind");
  if jeq_str kind "snapshot" then
    bids ← liftR (jget d "bids"); bids ← liftR (read_ladder bids); m ← replace_side Bid bids m;
    asks ← liftR (jget d "asks"); asks ← liftR (read_ladder asks); m ← replace_side Ask asks m;
    mret (m, None)
  else if jeq_str kind "invalidation" then
    m ← replace_side Bid ∅ m; m ← replace_side Ask ∅ m; mret (m, None)
  else
    _ ← requireS (jeq_str kind "operations") "unknown decision";
    ops ← liftR (jget d "operations"); ops ← liftR (py_iter ops);
    '(m, deltas) ← apply_operations (m, ∅) ops;
    mret (m, Some deltas).

(** ** The recorder *)
Section LevelRecorder.
Context {W : Type} `{RowWriter W}.
Context (plans : gmap key Plan) (scopes : list (list Member)) (start : Z).
(** [str] of a decoded float, list or object. *)
Context (py_repr : json → string).

Record LevelRecorder := mkLevelRecorder {
  mirror : gmap key Mirror; validity_of : gmap key string; lazy : option (Z * Z * gset key); budget : Z; writer : W;
}.
Definition set_mirror v r := mkLevelRecorder v (validity_of r) (lazy r) (budget r) (writer r).
Definition set_validity v r := mkLevelRecorder (mirror r) v (lazy r) (budget r) (writer r).
Definition set_lazy v r := mkLevelRecorder (mirror r) (validity_of r) v (budget r) (writer r).
Definition set_budget v r := mkLevelRecorder (mirror r) (validity_of r) (lazy r) v (writer r).
Definition set_writer v r := mkLevelRecorder (mirror r) (validity_of r) (lazy r) (budget r) v.
Abbreviation R := (ST LevelRecorder).

Definition on_budget {A} (m : ST Z A) : R A := zoomS budget set_budget m.
Definition write (v : json) : R () := zoomS writer set_writer (append v).
Definition mirror_at (k : key) : R Mirror := r ← getS; match mirror r !! k with Some m => mret m | None => liftR (Err KeyError) end.
Definition put_mirror (k : key) (m : Mirror) : R () := modifyS (λ r, set_mirror (<[k := m]> (mirror r)) r).

(** [_check]. *)
Definition check (k : key) (b : Book) : R () :=
  m ← mirror_at k;
  mb ← liftR (mirror_top m Bid); bb ← liftR (best_bid b);
  ok ← (if decide (mb = bb) then
          ma ← liftR (mirror_top m Ask); ba ← liftR (best_ask b);
          mret (bool_decide (ma = ba) && (valid m || bare (sides m)))
        else mret false);
  requireS ok "level mirror diverged from the decoder".

Definition book_at (books : gmap key Book) (k : key) : result Book := match books !! k with Some b => Ok b | None => Err KeyError end.

(** What follows a cut's operations on one book. *)
Definition refresh (books : gmap key Book) (k : key) : R () :=
  b ← liftR (book_at books k);
  m ← mirror_at k;
  _ ← put_mirror k (mkMirror (sides m) (m_best m) (String.eqb (validity b) "usable"));
  v ← liftR (validity_text py_repr b);
  _ ← modifyS (λ r, set_validity (<[k := v]> (validity_of r)) r);
  check k b.

(** One book of [initial]. *)
Definition initial_book (books : gmap key Book) (k : key) : R () :=
  b ← liftR (book_at books k);
  m ← mirror_at k;
  v ← liftR (validity_text py_repr b);
  _ ← modifyS (λ r, set_validity (<[k := v]> (validity_of r)) r);
  bids ← liftR (levels b "bid" None);
  _ ← on_budget (charge_budget (Z.of_nat (length bids) * LEVEL));
  let m := settle Bid (mkMirror (sset Bid (list_to_map (reverse bids) ∪ on_bid (sides m)) (sides m)) (m_best m) (String.eqb (validity b) "usable")) in
  asks ← liftR (levels b "ask" None);
  _ ← on_budget (charge_budget (Z.of_nat (length asks) * LEVEL));
  let m := settle Ask (mkMirror (sset Ask (list_to_map (reverse asks) ∪ on_ask (sides m)) (sides m)) (m_best m) (valid m)) in
  _ ← put_mirror k m;
  check k b.
Definition initial (books : gmap key Book) (scoped : gset key) : R () :=
  _ ← forS (initial_book books) (map fst (map_to_list plans));
  modifyS (set_lazy (Some (0, start, scoped))).

(** *** Construction

    [Stream.__init__] and [LevelRecorder.__init__]. *)
Definition new_recorder (budget : Z) (w : W) : LevelRecorder := mkLevelRecorder ((λ _, empty_mirror) <$> plans) ∅ None budget w.
Definition create : R () := on_budget (charge_budget (Z.of_nat (base.size plans) * STATE)).

(** *** Rows *)

(** The planned keys that feed a written book. *)
Definition sources (k : key) : list key := filter (λ s, written_of plans scopes s = Some k) (elements (present plans scopes)).

(** Levels seen from the complement. *)
Definition project (unit : Z) (m : ladder) : ladder := kmap (λ p, unit - p) m.

(** [_ladder]: bids and asks of a written book, best first. *)
Fixpoint projected_asks (mirrors : gmap key Mirror) (k : key) (ss : list key) (asks : list (Z * Z)) : result (list (Z * Z)) :=
  match ss with
  | [] => Ok asks
  | s :: ss =>
      if decide (s = k) then projected_asks mirrors k ss asks else
      match mirrors !! s with
      | None => Err KeyError
      | Some m => projected_asks mirrors k ss (if valid m then ladder_levels Ask (project (unit_of plans k) (on_bid (sides m))) else asks)
      end
  end.
Definition ladder_at (mirrors : gmap key Mirror) (k : key) : result (list (Z * Z) * list (Z * Z)) :=
  match mirrors !! k with
  | None => Err KeyError
  | Some m =>
      if negb (valid m) then Ok ([], []) else
      asks ← (if is_kalshi plans k then projected_asks mirrors k (sources k) [] else Ok (ladder_levels Ask (on_ask (sides m))));
      Ok (ladder_levels Bid (on_bid (sides m)), asks)
  end.

Definition pair_json (pq : Z * Z) : result json := p ← text pq.1; q ← text pq.2; Ok (JArr [JStr p; JStr q]).
Definition ladder_row (scope : Z) (k : key) (sequence time : Z) (cause : json) (extra : result (list (string * json))) : R () :=
  r ← getS;
  '(bids, asks) ← liftR (ladder_at (mirror r) k);
  bids ← liftR (mapR pair_json bids); asks ← liftR (mapR pair_json asks);
  v ← liftR (match validity_of r !! k with Some v => Ok v | None => Err KeyError end);
  extra ← liftR extra;
  row ← liftR (row plans scopes "ladder" scope k sequence time
    ([("cause"%string, cause); ("validity"%string, JStr v); ("bids"%string, JArr bids); ("asks"%string, JArr asks)] ++ extra));
  write row.
(** [_opening]. *)
Definition opening (scope : Z) (k : key) (at_ sequence : Z) : R () := ladder_row scope k sequence at_ (JStr "open") (Ok []).
Definition flush (sequence : Z) : R () := ProfileStreams.flush plans scopes lazy set_lazy opening sequence.
Definition open_scope (scope at_ : Z) (scoped : gset key) (sequence : Z) : R () :=
  ProfileStreams.open_scope plans scopes lazy set_lazy opening scope at_ scoped sequence.

(** [_diff]: the changes of the sources in the written book's terms. *)
Definition entry_of (mirrors : gmap key Mirror) (k s : key) (change : bool * Z) : option (bool * Z) :=
  let '(ask, price) := change in
  if decide (s = k) then (if is_kalshi plans k && ask then None else Some (ask, price))
  else if ask || negb (match mirrors !! k with Some m => valid m | None => false end) then None
  else Some (true, unit_of plans k - price).
Definition merge_change (mirrors : gmap key Mirror) (k s : key) (merged : deltas_t) (change : (bool * Z) * Z) : deltas_t :=
  match entry_of mirrors k s change.1 with
  | None => merged
  | Some e => <[e := default 0 (merged !! e) + change.2]> merged
  end.
Definition merge_source (mirrors : gmap key Mirror) (deltas : gmap key deltas_t) (k : key) (merged : deltas_t) (s : key) : deltas_t :=
  foldl (merge_change mirrors k s) merged (map_to_list (default ∅ (deltas !! s))).
Definition merged (mirrors : gmap key Mirror) (deltas : gmap key deltas_t) (k : key) : deltas_t :=
  foldl (merge_source mirrors deltas k) ∅ (sources k).
Definition diff_leb (a b : (bool * Z) * Z) : bool :=
  match a.1.1, b.1.1 with false, true => true | true, false => false | _, _ => a.1.2 <=? b.1.2 end.
Definition diff_json (c : (bool * Z) * Z) : result json :=
  p ← text c.1.2; d ← text c.2; Ok (JArr [JStr (if c.1.1 : bool then "ask" else "bid"); JStr p; JStr d]).
Definition diff (mirrors : gmap key Mirror) (deltas : gmap key deltas_t) (k : key) : result (list json) :=
  mapR diff_json (filter (λ c : (bool * Z) * Z, c.2 ≠ 0) (sort_by diff_leb (map_to_list (merged mirrors deltas k)))).

(** *** [cut] *)
Definition transition_of (ts : list json) (k : key) : result json :=
  match find (λ t, match key_of t with Ok (Some k') => bool_decide (k' = k) | _ => false end) ts with
  | Some t => Ok t
  | None => Err KeyError
  end.
Definition apply_key (ts : list json) (k : key) : R (key * option deltas_t) :=
  m ← mirror_at k;
  t ← liftR (transition_of ts k);
  '(m, deltas) ← on_budget (apply m t);
  _ ← put_mirror k m;
  mret (k, deltas).

Definition write_change (clocks : gmap key (list json)) (causes : gmap key json) (deltas : gmap key deltas_t) (scope sequence time : Z) (k : key) : R () :=
  cause ← liftR (match causes !! k with Some c => Ok c | None => Err KeyError end);
  r ← getS;
  if negb (jeq_str cause "operations") then
    ladder_row scope k sequence time cause (venue_keys (default [] (clocks !! k)))
  else
    levels ← liftR (diff (mirror r) deltas k);
    match levels with
    | [] => mret ()
    | _ =>
        extra ← liftR (venue_keys (default [] (clocks !! k)));
        row ← liftR (row plans scopes "diff" scope k sequence time ([("levels"%string, JArr levels)] ++ extra));
        write row
    end.

Definition cut (body : json) (books : gmap key Book) (sequence raw time : Z) (scoped : gset key) (scope : Z) : R () :=
  let gated := start <=? raw in
  _ ← (if gated then flush sequence else mret ());
  '(keys, causes) ← liftR (touches plans scopes body);
  ts ← liftR (ts ← jget body "book_transitions"; py_iter ts);
  applied ← mapS (apply_key ts) (sorted keys);
  _ ← forS (refresh books) keys;
  if negb gated then mret () else
  '(clocks, _) ← liftR (scan plans scopes body false);
  let deltas := list_to_map (omap (λ kd : key * option deltas_t, d ← kd.2; Some (kd.1, d)) applied) : gmap key deltas_t in
  forS (write_change clocks causes deltas scope sequence time)
    (in_index_order plans scopes (filter (λ k, k ∈ scoped) (map fst (map_to_list causes)))).
End LevelRecorder.

(** ** [iter_levels]: the ladders after each row *)
Abbreviation held_t := (gmap (Z * Z) (ladder * ladder)).
Definition apply_change (x : ladder * ladder) (v : json) : result (ladder * ladder) :=
  l ← py_iter v;
  match l with
  | [side; price; delta] =>
      let levels := if jeq_str side "bid" then x.1 else x.2 in
      p ← py_int price; d ← py_int delta;
      let quantity := default 0 (levels !! p) + d in
      _ ← require (0 <=? quantity) "diff drives a level negative";
      let levels := if quantity =? 0 then delete p levels else <[p := quantity]> levels in
      Ok (if jeq_str side "bid" then (levels, x.2) else (x.1, levels))
  | _ => Err (ValueError "unpack")
  end.
Definition read_row (held : held_t) (row : json) : result held_t :=
  s ← jget row "scope"; b ← jget row "book";
  match s, b with
  | JInt s, JInt b =>
      kind ← jget row "type";
      if jeq_str kind "ladder" then
        bids ← jget row "bids"; bids ← read_ladder bids; asks ← jget row "asks"; asks ← read_ladder asks;
        Ok (<[(s, b) := (bids, asks)]> held)
      else
        x ← (match held !! (s, b) with Some x => Ok x | None => Err KeyError end);
        ls ← jget row "levels"; ls ← py_iter ls;
        x ← foldR apply_change x ls;
        Ok (<[(s, b) := x]> held)
  | _, _ => Err (TypeError "not a written row")
  end.
(** What the rows leave of each book of each scope. *)
Definition iter_levels (rows : list json) : result held_t := foldR read_row ∅ rows.
