(* ===== verification/LevelsBooks.v ===== *)
(** * The level mirror follows the decoder's books

    Every accepted operation, snapshot and invalidation leaves the recorder's mirror of a
    book with exactly the ladders the decoder's book has, the right best prices, and
    signed changes that account for the difference. *)
From stdpp Require Import gmap strings sorting.
From S2P Require Import Prelude Order Wire Json LineWriter EconomicTypes BookProtocol Decoder ProfileStreams Levels.

(** ** One operation *)
Definition best_ok (m : Mirror) : Prop := ∀ s, is_best s (dom (sget s (sides m))) (sget s (m_best m)).
Definition quantity_at (x : sided ladder) (s : side) (p : Z) : Z := default 0 (sget s x !! p).
Definition accounted (x y : sided ladder) (d : deltas_t) : Prop :=
  ∀ s p, quantity_at y s p = quantity_at x s p + default 0 (d !! (is_ask s, p)).

Lemma is_ask_inj s s' : is_ask s = is_ask s' → s = s'.
Proof. by destruct s, s'. Qed.
Lemma op_side_read v s : op_side v = Ok s → (if jeq_str v "bid" then Bid else Ask) = s.
Proof.
  destruct v as [| | | | | |name| |]; try discriminate. simpl. unfold side_of. destruct (String.eqb_spec name "bid") as [->|].
  - by intros [= <-].
  - destruct (String.eqb_spec name "ask"); [by intros [= <-]|done].
Qed.
Lemma settle_best s m : (∀ s', s' ≠ s → is_best s' (dom (sget s' (sides m))) (sget s' (m_best m))) → best_ok (settle s m).
Proof.
  intros H s'. unfold settle. simpl. rewrite sget_sset. destruct (decide (s' = s)) as [->|]; [apply extreme_best|by apply H].
Qed.

Lemma accounted_set x y d s p new : accounted x y d →
  accounted x (sset s (if 0 <? new then <[p := new]> (sget s y) else delete p (sget s y)) y)
    (if new =? quantity_at y s p then d else <[(is_ask s, p) := default 0 (d !! (is_ask s, p)) + new - quantity_at y s p]> d) ∨ new < 0.
Proof.
  intros H. destruct (Z.ltb_spec new 0) as [|Hn]; [by right|]. left. intros s' p'. specialize (H s' p'). unfold quantity_at in *. rewrite sget_sset.
  destruct (decide (s' = s ∧ p' = p)) as [[-> ->]|Hne].
  - rewrite decide_True by done.
    assert (default 0 ((if 0 <? new then <[p := new]> (sget s y) else delete p (sget s y)) !! p) = new) as ->.
    { destruct (Z.ltb_spec 0 new); [by rewrite lookup_insert_eq|]. rewrite lookup_delete_eq. simpl. lia. }
    destruct (Z.eqb_spec new (default 0 (sget s y !! p))) as [E|]; [lia|]. rewrite lookup_insert_eq. simpl. lia.
  - assert ((is_ask s, p) ≠ (is_ask s', p')) by (intros [= E ->]; apply Hne; split; [by apply is_ask_inj|done]).
    assert (default 0 ((if new =? default 0 (sget s y !! p) then d else <[(is_ask s, p) := default 0 (d !! (is_ask s, p)) + new - default 0 (sget s y !! p)]> d) !! (is_ask s', p'))
      = default 0 (d !! (is_ask s', p'))) as ->.
    { destruct (_ =? _); [done|]. by rewrite lookup_insert_ne. }
    rewrite <- H. destruct (decide (s' = s)) as [->|]; [|done]. assert (p' ≠ p) by naive_solver.
    destruct (0 <? new); [by rewrite lookup_insert_ne|by rewrite lookup_delete_ne].
Qed.

Lemma set_level_ok s p new m n n' m' : set_level s p new m n = (n', Ok m') → 0 ≤ new → best_ok m →
  sides m' = sset s (if 0 <? new then <[p := new]> (sget s (sides m)) else delete p (sget s (sides m))) (sides m) ∧ best_ok m' ∧ valid m' = valid m.
Proof.
  intros E Hn Hb. unfold set_level in E. destruct (0 <? new).
  - res_inv. destruct (decide (is_Some _)) as [Hin|Hout]; res_inv.
    + split_and!; [done| |done]. intros s'. simpl. rewrite sget_sset. destruct (decide (s' = s)) as [->|]; [|apply Hb].
      rewrite dom_insert_lookup_L by done. apply Hb.
    + match goal with |- context [sides ?m1] => set (m1' := m1) in * end.
      assert (sides m1' = sides m ∧ valid m1' = valid m ∧ (∀ s', s' ≠ s → sget s' (m_best m1') = sget s' (m_best m)) ∧
        sget s (m_best m1') = match sget s (m_best m) with None => Some p | Some t => if better s p t then Some p else Some t end) as (Es & Ev & Eo & Et).
      { subst m1'. destruct (sget s (m_best m)) as [t|] eqn:Et; [destruct (better s p t)|]; simpl; split_and!; rewrite ?sget_sset, ?decide_True; try done;
          intros s' Hs'; by rewrite sget_sset, decide_False. }
      split_and!; [by simpl; rewrite Es| |by simpl]. intros s'. simpl. rewrite Es, sget_sset. destruct (decide (s' = s)) as [->|]; [|rewrite Eo by done; apply Hb].
      rewrite dom_insert_L, Et. apply is_best_insert; [apply Hb|]. by rewrite elem_of_dom.
  - destruct (decide (is_Some _)) as [Hin|Hout]; res_inv.
    + destruct (decide (sget s (m_best m) = Some p)) as [Et|Et].
      * split_and!; [done| |done]. apply settle_best. intros s' Hs'. simpl. rewrite sget_sset, decide_False by done. apply Hb.
      * split_and!; [done| |done]. intros s'. simpl. rewrite sget_sset. destruct (decide (s' = s)) as [->|]; [|apply Hb].
        rewrite dom_delete_L. specialize (Hb s). destruct (sget s (m_best m)) as [t|]; simpl in *; [|by rewrite Hb; set_solver].
        split; [|set_solver]. apply elem_of_difference. split; [by apply Hb|set_solver].
    + split_and!; [|done..]. rewrite delete_id; [by rewrite sset_sget|]. by apply eq_None_not_Some.
Qed.

Lemma apply_operation_spec m d op n n' m' d' lim mm' x :
  apply_operation (m, d) op n = (n', Ok (m', d')) → spec_operation lim (sides m) op = Ok mm' → best_ok m → accounted x (sides m) d →
  sides m' = mm' ∧ best_ok m' ∧ accounted x mm' d' ∧ valid m' = valid m.
Proof.
  intros E Es Hb Ha. unfold apply_operation in E. unfold spec_operation in Es. res_inv.
  repeat match goal with H1 : jget ?a ?f = Ok ?x, H2 : jget ?a ?f = Ok ?y |- _ => rewrite H1 in H2; injection H2 as <- end.
  match goal with H : op_side _ = Ok _ |- _ => apply op_side_read in H; rewrite H in *; clear H end.
  repeat match goal with H1 : py_int ?a = Ok ?x, H2 : py_int ?a = Ok ?y |- _ => rewrite H1 in H2; injection H2 as <- end.
  repeat match goal with H1 : new_quantity ?a ?b = Ok ?x, H2 : new_quantity ?a ?b = Ok ?y |- _ => rewrite H1 in H2; injection H2 as <- end.
  match goal with H : set_level _ _ ?new _ _ = _, Hn : (0 <=? ?new) = true |- _ =>
    apply Z.leb_le in Hn; destruct (set_level_ok _ _ _ _ _ _ _ H Hn Hb) as (Esides & Hbest & Hvalid) end.
  match goal with H : set_level ?s ?p ?new _ _ = _ |- _ =>
    destruct (accounted_set x (sides m) d s p new Ha) as [Hacc|]; [|lia];
    assert (sides x23 = mm') as Emm end.
  { destruct (0 <? x19); res_inv; done. }
  assert (m' = x23 ∧ d' = (if x19 =? default 0 (sget x1 (sides m) !! x15) then d
    else <[(is_ask x1, x15) := default 0 (d !! (is_ask x1, x15)) + x19 - default 0 (sget x1 (sides m) !! x15)]> d)) as [-> ->] by (by injection E).
  split_and!; [done..| |done]. rewrite <- Emm, Esides. exact Hacc.
Qed.

Lemma apply_operations_spec lim x ops : ∀ m d n n' m' d' mm',
  apply_operations (m, d) ops n = (n', Ok (m', d')) → foldR (spec_operation lim) (sides m) ops = Ok mm' → best_ok m → accounted x (sides m) d →
  sides m' = mm' ∧ best_ok m' ∧ accounted x mm' d' ∧ valid m' = valid m.
Proof.
  induction ops as [|op ops IH]; intros m d n n' m' d' mm' E Es Hb Ha; simpl in *.
  - injection E as _ <- <-. injection Es as <-. done.
  - apply stbind_ok in E as (n1 & [m1 d1] & E1 & E). apply bind_ok in Es as (mm1 & Es1 & Es).
    destruct (apply_operation_spec _ _ _ _ _ _ _ _ _ _ E1 Es1 Hb Ha) as (Em & Hb1 & Ha1 & Hv1). rewrite <- Em in Es, Ha1.
    destruct (IH _ _ _ _ _ _ _ E Es Hb1 Ha1) as (? & ? & ? & ?). split_and!; [done..|congruence].
Qed.

(** ** Ladders read from the wire *)
Lemma read_level_rows l rows acc : Forall2 wire_level rows l → foldR read_level acc rows = Ok (insert_all acc l).
Proof.
  intros H. revert acc. induction H as [|row [p q] rows l (a & c & -> & Ha & Hc) _ IH]; intros acc; [done|].
  assert (read_level acc (JArr [a; c]) = Ok (<[p := q]> acc)) as E.
  { simpl in Ha, Hc. unfold read_level. change (unpack2 (JArr [a; c])) with (Ok (a, c) : result (json * json)). simpl. by rewrite Ha; simpl; rewrite Hc. }
  cbn [foldR]. rewrite E. cbn [mbind result_bind]. apply IH.
Qed.
Lemma read_wire lim ladder l : wire_ladder lim ladder l → read_ladder ladder = Ok (list_to_map l).
Proof.
  intros (rows & -> & Hrows & Hinc & _). unfold read_ladder. simpl. rewrite (read_level_rows l) by done. f_equal.
  apply insert_all_map. by apply increasing_nodup.
Qed.

Lemma replace_side_ok s l m n n' m' : replace_side s l m n = (n', Ok m') →
  m' = settle s (mkMirror (sset s l (sides m)) (m_best m) (valid m)).
Proof. unfold replace_side. intros E. by res_inv. Qed.

(** Both sides replaced. *)
Lemma replaced_both m l k (m1 m2 : Mirror) : m1 = settle Bid (mkMirror (sset Bid l (sides m)) (m_best m) (valid m)) →
  m2 = settle Ask (mkMirror (sset Ask k (sides m1)) (m_best m1) (valid m1)) → sides m2 = Sided l k ∧ best_ok m2 ∧ valid m2 = valid m.
Proof.
  intros -> ->. split_and!; [by destruct m as [[] ? ?]| |done]. apply settle_best. intros [] Hs; [|done]. simpl. apply (extreme_best Bid).
Qed.

(** ** One decision *)

(** [m] mirrors [b]; a mirror is empty while the book is unusable. *)
Definition mirrors (b : Book) (m : Mirror) : Prop :=
  best_ok m ∧ valid m = String.eqb (validity b) "usable" ∧ (∃ mm, rep b mm) ∧
  if valid m then rep b (sides m) ∧ is_Some (quantities b) else sides m = no_levels.

Definition revalued (b : Book) (m : Mirror) : Mirror := mkMirror (sides m) (m_best m) (String.eqb (validity b) "usable").

Lemma mirrors_usable b m : best_ok m → validity b = "usable"%string → rep b (sides m) → is_Some (quantities b) → mirrors b (revalued b m).
Proof. intros Hb Hv Hr Hq. unfold revalued. rewrite Hv. split_and!; [done|by rewrite Hv|eauto|done]. Qed.

Lemma operations_mirrored ops b b' u rows m n n' m' d :
  operations ops b = (b', Ok u) → py_iter ops = Ok rows → apply_operations (m, ∅) rows n = (n', Ok (m', d)) → mirrors b m → validity b = "usable"%string →
  mirrors b' (revalued b' m') ∧ validity b' = "usable"%string ∧ valid m = true ∧ accounted (sides m) (sides m') d.
Proof.
  intros H Hrows Ha (Hb & Hv & _ & Hlev) Hu. rewrite Hu in Hv. change (valid m = true) in Hv. rewrite Hv in Hlev. destruct Hlev as [Hr Hq].
  destruct (operations_simulate b (sides m) ops Hr Hq) as (Hh & Hq' & Hsim). rewrite H in *. simpl in *.
  unfold spec_operations in Hsim. rewrite Hrows in Hsim. cbn [mbind result_bind] in Hsim. destruct (foldR _ _ _) as [mm'|] eqn:Es; [|by destruct Hsim].
  destruct Hsim as [_ Hr']. assert (validity b' = "usable"%string) as Hu' by (injection Hh as _ Hval; congruence).
  destruct (apply_operations_spec _ (sides m) _ _ _ _ _ _ _ _ Ha Es Hb) as (<- & Hb' & Hacc & _).
  { intros s p. rewrite lookup_empty. simpl. lia. }
  split_and!; try done. by apply mirrors_usable.
Qed.

Lemma snapshot_mirrored bids asks b b' b1 u lb la l k m n1 n2 n3 m1 m2 :
  snapshot bids asks b = (b', Ok u) → wire_ladder (limit b) bids lb → wire_ladder (limit b) asks la → mirrors b m →
  rep b1 = rep b' → quantities b1 = quantities b' → validity b1 = "usable"%string →
  read_ladder bids = Ok l → replace_side Bid l m n1 = (n2, Ok m1) → read_ladder asks = Ok k → replace_side Ask k m1 n2 = (n3, Ok m2) →
  mirrors b1 (revalued b1 m2).
Proof.
  intros H Hwb Hwa (_ & _ & [mm Hr] & _) Erep Eq Hu El E1%replace_side_ok Ek E2%replace_side_ok. rewrite (read_wire _ _ _ Hwb) in El. rewrite (read_wire _ _ _ Hwa) in Ek.
  injection El as <-. injection Ek as <-. destruct (replaced_both _ _ _ _ _ E1 E2) as (Es & Hb & _).
  destruct (snapshot_rep b mm bids asks lb la Hr Hwb Hwa) as (b2 & E & _ & Hq & Hr'). rewrite H in E. injection E as <-.
  apply mirrors_usable; [done|done|by rewrite Es, Erep|by rewrite Eq].
Qed.

Lemma clear_mirrored b b' b1 u m n1 n2 n3 m1 m2 :
  clear b = (b', Ok u) → mirrors b m → rep b1 = rep b' → validity b1 = "unusable"%string →
  replace_side Bid ∅ m n1 = (n2, Ok m1) → replace_side Ask ∅ m1 n2 = (n3, Ok m2) → mirrors b1 (revalued b1 m2).
Proof.
  intros H (_ & _ & [mm Hr] & _) Erep Hu E1%replace_side_ok E2%replace_side_ok. destruct (replaced_both _ _ _ _ _ E1 E2) as (Es & Hb & _).
  destruct (clear_rep b mm Hr) as (b2 & E & _ & _ & Hr'). rewrite H in E. injection E as <-.
  unfold revalued. rewrite Hu. split_and!; [done|by rewrite Hu| |done]. exists no_levels. by rewrite Erep.
Qed.

(** The decision and [apply], on a book and its mirror. *)
Lemma decision_mirrored b t origin rev b' u m n n' m' d dec kind :
  decide_book t origin rev b = (b', Ok u) → apply m t n = (n', Ok (m', d)) → mirrors b m → published (limit b) t →
  jget t "decision" = Ok dec → jget dec "kind" = Ok kind →
  limit b' = limit b ∧ mirrors b' (revalued b' m') ∧ (is_Some d ↔ jeq_str kind "operations" = true) ∧
  (∀ c, d = Some c → valid m = true ∧ validity b' = "usable"%string ∧ accounted (sides m) (sides m') c).
Proof.
  intros H Ha Hm Hpub Hdec Hkind. pose proof (decide_book_ok _ _ _ _ _ _ H) as (_ & Hlim & _). split; [done|].
  unfold decide_book in H. unfold apply in Ha. res_inv.
  repeat match goal with H1 : jget ?a ?f = Ok ?x, H2 : jget ?a ?f = Ok ?y |- _ => rewrite H1 in H2; injection H2 as <- end.
  destruct (jeq_str x6 "operations") eqn:Eop; [|destruct (jeq_str x6 "snapshot") eqn:Esn].
  - apply jeq_str_eq in Eop as ->. cbn in Ha. res_inv.
    repeat match goal with H1 : jget ?a ?f = Ok ?x, H2 : jget ?a ?f = Ok ?y |- _ => rewrite H1 in H2; injection H2 as <- end.
    destruct x7 as [m1 d1]. injection Ha as _ <- <-.
    match goal with H : operations _ _ = _, H' : apply_operations _ _ _ = _, Hr : py_iter _ = Ok _, Hu : String.eqb _ _ = true |- _ =>
      apply String.eqb_eq in Hu; destruct (operations_mirrored _ _ _ _ _ _ _ _ _ _ H Hr H' Hm Hu) as (? & ? & ? & ?) end.
    split_and!; [done|by split|by intros c [= <-]].
  - apply jeq_str_eq in Esn as ->. cbn in Ha. res_inv.
    repeat match goal with H1 : jget ?a ?f = Ok ?x, H2 : jget ?a ?f = Ok ?y |- _ => rewrite H1 in H2; injection H2 as <- end.
    match goal with Hd : jget t "decision" = _, Hk : jget x4 "kind" = _, Hb : jget x4 "bids" = Ok ?b1, Ha' : jget x4 "asks" = Ok ?a1 |- _ =>
      destruct (Hpub _ _ _ _ Hd Hk eq_refl Hb Ha') as [[lb Hlb] [la Hla]] end.
    injection Ha as _ <- <-. split_and!; [|by split; [intros []|]|done]. by eapply snapshot_mirrored.
  - res_inv. match goal with H : jeq_str x6 "invalidation" = true |- _ => apply jeq_str_eq in H as -> end. cbn in Ha. res_inv.
    injection Ha as _ <- <-. split_and!; [|by split; [intros []|]|done]. by eapply clear_mirrored.
Qed.

(** ** One cut of the decoder, book by book *)
Definition decided (bs bs' : gmap key Book) (t : json) (k : key) : Prop :=
  ∃ b b' origin rev, bs !! k = Some b ∧ bs' !! k = Some b' ∧ decide_book t origin rev b = (b', Ok ()).

Lemma transition_decides origin t d d' u k : transition origin t d = (d', Ok u) → key_of t = Ok (Some k) →
  decided (books d) (books d') t k ∧ ∀ k', k' ≠ k → books d' !! k' = books d !! k'.
Proof.
  intros H Hk. unfold transition in H. unfold key_of, json_key in Hk. res_inv.
  match goal with H : get_book _ _ _ = Ok ?f |- _ => rename H into Hg; destruct f as [[bk b]|] end; [|res_inv; done]. res_inv.
  repeat match goal with H1 : jget ?a ?f = Ok ?x, H2 : jget ?a ?f = Ok ?y |- _ => rewrite H1 in H2; injection H2 as <- end.
  match goal with H : get_book _ ?i ?o = _ |- _ => destruct i as [| | | | | |i'| |], o as [| | | | | |o'| |]; simpl in *; try discriminate end.
  injection Hk as <-. destruct (books d !! (i', o')) as [b0|] eqn:Eb; [|discriminate]. injection Hg as <- <-.
  match goal with H : zoomS _ _ _ _ = _ |- _ => rename H into Hz end. unfold zoomS in Hz. rewrite Eb in Hz. simpl in Hz.
  destruct (decide_book _ _ _ b0) as [b1 r1] eqn:Ed. injection Hz as <- ->. destruct u. simpl. split.
  - unfold decided. simpl. rewrite lookup_insert_eq. eauto 10.
  - intros k' Hne. by rewrite lookup_insert_ne.
Qed.

Lemma transitions_decide origin rows ks : ∀ d d' u, forS (transition origin) rows d = (d', Ok u) → Forall2 (λ t k, key_of t = Ok (Some k)) rows ks → NoDup ks →
  Forall2 (decided (books d) (books d')) rows ks ∧ ∀ k, k ∉ ks → books d' !! k = books d !! k.
Proof.
  intros d d' u H Hk. revert d H. induction Hk as [|t k rows ks Ht _ IH]; intros d H Hnd; simpl in H.
  - apply mretS_ok in H as [-> _]. done.
  - apply stbind_ok in H as (d1 & u1 & H1 & H). apply NoDup_cons in Hnd as [Hk Hnd].
    destruct (transition_decides _ _ _ _ _ _ H1 Ht) as [(b & b' & og & rev & Hb & Hb' & E) Ho]. destruct (IH d1 H Hnd) as [Hall Hrest]. split.
    + constructor.
      * exists b, b', og, rev. split_and!; [done| |done]. by rewrite Hrest.
      * assert (∀ t' k', k' ∈ ks → decided (books d1) (books d') t' k' → decided (books d) (books d') t' k') as Hmono.
        { intros t' k' Hin (b1 & b2 & og' & rev' & H1' & H2' & H3'). exists b1, b2, og', rev'. rewrite <- Ho; [done|]. by intros ->. }
        clear -Hall Hmono. induction Hall as [|t' k' rows ks Hd _ IH]; constructor; [apply Hmono; [left|done]|]. apply IH. intros t1 k1 Hin. apply Hmono. by right.
    + intros k' Hk'. apply not_elem_of_cons in Hk' as [Hne Hk']. rewrite Hrest by done. by apply Ho.
Qed.

Lemma cut_decides body d d' u rows ks : Decoder.cut body d = (d', Ok u) → (ts ← jget body "book_transitions"; py_iter ts) = Ok rows →
  Forall2 (λ t k, key_of t = Ok (Some k)) rows ks → NoDup ks →
  Forall2 (decided (books d) (books d')) rows ks ∧ ∀ k, k ∉ ks → books d' !! k = books d !! k.
Proof.
  intros H Hrows. unfold Decoder.cut in H. apply bind_ok in Hrows as (ts & Hts & Hrows). res_inv.
  repeat match goal with H1 : jget ?a ?f = Ok ?x, H2 : jget ?a ?f = Ok ?y |- _ => rewrite H1 in H2; injection H2 as <- end.
  repeat match goal with H1 : py_iter ?a = Ok ?x, H2 : py_iter ?a = Ok ?y |- _ => rewrite H1 in H2; injection H2 as <- end.
  by eapply transitions_decide.
Qed.

(** The check of a mirror never fails. *)
Lemma mirror_top_ok b m s : mirrors b m → mirror_top m s = top b s.
Proof.
  intros (Hb & Hv & _ & Hlev). unfold mirror_top. rewrite (is_best_unique _ _ _ _ (Hb s) (extreme_best s _)). destruct (valid m).
  - destruct Hlev as [Hr Hq]. rewrite (top_rep b (sides m) s); [|done|symmetry in Hv; by apply String.eqb_eq in Hv|done]. unfold extreme, ladder_levels.
    pose proof (sorted_prices_elem s (dom (sget s (sides m)))) as He. destruct (sorted_prices _ _) as [|p l]; [done|]. simpl.
    assert (is_Some (sget s (sides m) !! p)) as [v ->] by (apply elem_of_dom, He; left). done.
  - rewrite Hlev. assert (sget s no_levels = (∅ : ladder)) as -> by (by destruct s). rewrite dom_empty_L. simpl.
    unfold top. rewrite <- Hv. by destruct (sget s (best b)).
Qed.
Lemma mirrors_bare b m : mirrors b m → valid m || bare (sides m) = true.
Proof. intros (_ & _ & _ & H). destruct (valid m); [done|]. rewrite H. unfold bare, no_levels. simpl. by rewrite bool_decide_eq_true_2. Qed.
Lemma top_shown b m s : mirrors b m → is_ok (top b s).
Proof.
  intros (Hb & Hv & _ & Hlev). destruct (valid m).
  - destruct Hlev as [Hr Hq]. eexists. apply (top_rep b (sides m) s); [done| |done]. symmetry in Hv. by apply String.eqb_eq in Hv.
  - unfold top. rewrite <- Hv. destruct (sget s (best b)); by eexists.
Qed.
