(* ===== verification/LevelsCuts.v ===== *)
(** * The recorder along a cut

    After each accepted cut the mirrors follow the decoder's books, and the signed changes
    of the cut account for every book the cut moved by operations. *)
From stdpp Require Import gmap strings sorting.
From S2P Require Import Prelude Order Wire Json LineWriter EconomicTypes BookProtocol Decoder ProfileStreams Levels LevelsBooks.

Lemma Forall2_pairs {A B} (P : A → B → Prop) l k a b : Forall2 P l k → (a, b) ∈ zip l k → P a b.
Proof. induction 1 as [|x y l k Hxy _ IH]; simpl; [by intros ?%elem_of_nil|]. intros [[= -> ->]|?]%elem_of_cons; auto. Qed.

Lemma nodup_fst_eq {A B} (l : list (A * B)) a b b' : NoDup (map fst l) → (a, b) ∈ l → (a, b') ∈ l → b = b'.
Proof.
  induction l as [|[x y] l IH]; [by intros _ ?%elem_of_nil|]. simpl. intros [Hx Hnd]%NoDup_cons.
  assert (∀ c, (x, c) ∈ l → False) as Hno. { intros c Hc. apply Hx. apply list_elem_of_fmap. by exists (x, c). }
  intros [[= -> ->]|H1]%elem_of_cons [[= ]|H2]%elem_of_cons; subst; [done|by edestruct Hno|by edestruct Hno|by apply IH].
Qed.

(** The changes of a cut, from what [apply] returned. *)
Definition changes_of (applied : list (key * option deltas_t)) : gmap key deltas_t :=
  list_to_map (omap (λ kd : key * option deltas_t, d ← kd.2; Some (kd.1, d)) applied).

Lemma changes_keys (applied : list (key * option deltas_t)) k : k ∈ (omap (λ kd : key * option deltas_t, d ← kd.2; Some (kd.1, d)) applied).*1 → k ∈ map fst applied.
Proof.
  intros ([k' d] & -> & ([k1 d1] & Hin & E)%list_elem_of_omap)%list_elem_of_fmap. destruct d1; [|done]. injection E as -> ->.
  apply list_elem_of_fmap. by exists (k', Some d).
Qed.
Lemma changes_nodup (applied : list (key * option deltas_t)) : NoDup (map fst applied) → NoDup (omap (λ kd : key * option deltas_t, d ← kd.2; Some (kd.1, d)) applied).*1.
Proof.
  induction applied as [|[k d] applied IH]; simpl; [constructor|]. intros [Hk Hnd]%NoDup_cons. destruct d; simpl; [|by apply IH].
  constructor; [|by apply IH]. by intros ?%changes_keys.
Qed.
Lemma changes_lookup applied k d : NoDup (map fst applied) → (k, d) ∈ applied → changes_of applied !! k = d.
Proof.
  intros Hnd Hin. unfold changes_of. destruct d as [d|].
  - apply elem_of_list_to_map_1; [by apply changes_nodup|]. apply list_elem_of_omap. by exists (k, Some d).
  - apply not_elem_of_list_to_map_1. intros ([k' d'] & -> & ([k1 d1] & Hin' & E)%list_elem_of_omap)%list_elem_of_fmap. simpl in *.
    destruct d1 as [d1|]; [|done]. injection E as -> ->. by pose proof (nodup_fst_eq _ _ _ _ Hnd Hin Hin').
Qed.
Lemma changes_none applied k : k ∉ map fst applied → changes_of applied !! k = None.
Proof. intros Hk. apply not_elem_of_list_to_map_1. by intros ?%changes_keys. Qed.

Lemma transition_of_ok rows keys k t : Forall2 (λ t k, key_of t = Ok (Some k)) rows keys → transition_of rows k = Ok t → (t, k) ∈ zip rows keys.
Proof.
  unfold transition_of. induction 1 as [|t' k' rows keys Hk _ IH]; simpl; [done|]. rewrite Hk. case_bool_decide as E.
  - intros [= ->]. rewrite E. by left.
  - intros Ht. right. by apply IH.
Qed.

Section Recorder.
Context {W : Type} `{RowWriter W}.
Context (plans : gmap key Plan) (scopes : list (list Member)) (start : Z) (py_repr : json → string).
Abbreviation Rec := (LevelRecorder (W := W)).

(** Every planned book and its mirror. *)
Definition tracked (lim : key → Z) (bs : gmap key Book) (mm : gmap key Mirror) : Prop :=
  ∀ k, is_Some (plans !! k) → ∃ b m, bs !! k = Some b ∧ mm !! k = Some m ∧ mirrors b m ∧ limit b = lim k.

(** ** Applying the transitions *)
Lemma mirror_at_ok k (r r' : Rec) m : mirror_at k r = (r', Ok m) → r' = r ∧ mirror r !! k = Some m.
Proof. unfold mirror_at. intros E. apply stbind_ok in E as (? & ? & [-> ->]%getS_ok & E). destruct (mirror r !! k); by res_inv. Qed.

(** What [apply_key] did to a key. *)
Definition applied_at (ts : list json) (mm mm' : gmap key Mirror) (k : key) (kd : key * option deltas_t) : Prop :=
  kd.1 = k ∧ ∃ m t n n' m', mm !! k = Some m ∧ transition_of ts k = Ok t ∧ apply m t n = (n', Ok (m', kd.2)) ∧ mm' !! k = Some m'.
Definition aside (r : Rec) := (validity_of r, lazy r, writer r).

Lemma apply_key_ok ts k (r r' : Rec) kd : apply_key ts k r = (r', Ok kd) →
  applied_at ts (mirror r) (mirror r') k kd ∧ aside r' = aside r ∧ ∀ k', k' ≠ k → mirror r' !! k' = mirror r !! k'.
Proof.
  unfold apply_key. intros E. apply stbind_ok in E as (r1 & m & [-> Hm]%mirror_at_ok & E). apply stbind_ok in E as (r1 & t & [-> Ht]%liftR_ok & E).
  apply stbind_ok in E as (r1 & [m' d] & E1 & E). unfold on_budget, zoomS in E1. destruct (apply m t (budget r)) as [n' res] eqn:Ea. injection E1 as <- ->.
  unfold put_mirror in E. res_inv. split_and!; [|done|].
  - split; [done|]. exists m, t, (budget r), n', m'. simpl. by rewrite lookup_insert_eq.
  - intros k' Hne. simpl. by rewrite lookup_insert_ne.
Qed.

Lemma apply_keys_ok ts ks : ∀ (r r' : Rec) applied, mapS (apply_key ts) ks r = (r', Ok applied) → NoDup ks →
  Forall2 (applied_at ts (mirror r) (mirror r')) ks applied ∧ aside r' = aside r ∧ ∀ k, k ∉ ks → mirror r' !! k = mirror r !! k.
Proof.
  induction ks as [|k ks IH]; intros r r' applied E Hnd; simpl in E.
  - apply mretS_ok in E as [-> ->]. done.
  - apply stbind_ok in E as (r1 & kd & E1 & E). apply stbind_ok in E as (r2 & kds & E2 & E). apply mretS_ok in E as [-> ->].
    apply NoDup_cons in Hnd as [Hk Hnd]. destruct (apply_key_ok _ _ _ _ _ E1) as ((Hkd & m & t & n & n' & m' & Hm & Ht & Ha & Hm') & Has & Ho).
    destruct (IH _ _ _ E2 Hnd) as (Hall & Has2 & Hrest). split_and!; [|congruence|].
    + constructor; [split; [done|]; exists m, t, n, n', m'; split_and!; [done..|by rewrite Hrest]|].
      clear -Hall Ho Hk. induction Hall as [|k' kd' ks kds (? & m & t & n & n' & m' & Hm & Hrest) _ IH]; constructor.
      * split; [done|]. exists m, t, n, n', m'. split; [|done]. rewrite <- Ho; [done|]. intros ->. apply Hk. by left.
      * apply IH. intros Hin. apply Hk. by right.
    + intros k' [Hne Hk']%not_elem_of_cons. rewrite Hrest by done. by apply Ho.
Qed.

(** ** [refresh] *)
Definition outputs (r : Rec) := (lazy r, writer r).

Lemma check_frame k b (r r' : Rec) u : check k b r = (r', Ok u) → r' = r.
Proof.
  unfold check. intros E. apply stbind_ok in E as (? & ? & [-> _]%mirror_at_ok & E). res_inv. destruct (decide _); by res_inv.
Qed.
Lemma refresh_ok bs k (r r' : Rec) u : refresh py_repr bs k r = (r', Ok u) →
  ∃ b m, bs !! k = Some b ∧ mirror r !! k = Some m ∧ mirror r' = <[k := revalued b m]> (mirror r) ∧ outputs r' = outputs r.
Proof.
  unfold refresh, book_at. intros E. apply stbind_ok in E as (r1 & b & [-> Hb]%liftR_ok & E). apply stbind_ok in E as (r1 & m & [-> Hm]%mirror_at_ok & E).
  destruct (bs !! k) as [b'|]; [injection Hb as ->|done]. unfold put_mirror in E. res_inv.
  match goal with H : check _ _ _ = _ |- _ => apply check_frame in H as -> end. by exists b, m.
Qed.
Lemma refreshes_ok bs ks : ∀ (r r' : Rec) u, forS (refresh py_repr bs) ks r = (r', Ok u) → NoDup ks →
  (∀ k, k ∈ ks → ∃ b m, bs !! k = Some b ∧ mirror r !! k = Some m ∧ mirror r' !! k = Some (revalued b m)) ∧
  (∀ k, k ∉ ks → mirror r' !! k = mirror r !! k) ∧ outputs r' = outputs r.
Proof.
  induction ks as [|k ks IH]; intros r r' u E Hnd; simpl in E.
  - apply mretS_ok in E as [-> _]. split_and!; [|done|done]. by intros k Hk%elem_of_nil.
  - apply stbind_ok in E as (r1 & u1 & E1 & E). apply NoDup_cons in Hnd as [Hk Hnd].
    destruct (refresh_ok _ _ _ _ _ E1) as (b & m & Hb & Hm & Em & Ho). destruct (IH _ _ _ E Hnd) as (Hin & Hout & Ho2). rewrite Em in Hin, Hout. split_and!.
    + intros k' [->|Hk']%elem_of_cons.
      * exists b, m. split_and!; [done..|]. rewrite Hout by done. by rewrite lookup_insert_eq.
      * destruct (Hin k' Hk') as (b' & m' & ? & Hm' & ?). exists b', m'. split_and!; [done| |done]. rewrite lookup_insert_ne in Hm'; [done|]. by intros ->.
    + intros k' [Hne Hk']%not_elem_of_cons. rewrite Hout by done. by rewrite lookup_insert_ne.
    + congruence.
Qed.

(** ** The books and mirrors across a cut *)
Definition by_operations (deltas : gmap key deltas_t) (mm mm' : gmap key Mirror) (k : key) : Prop :=
  ∃ c m m', deltas !! k = Some c ∧ mm !! k = Some m ∧ mm' !! k = Some m' ∧ valid m = true ∧ valid m' = true ∧ accounted (sides m) (sides m') c.
Definition left_alone (deltas : gmap key deltas_t) (mm mm' : gmap key Mirror) (k : key) : Prop := deltas !! k = None ∧ mm' !! k = mm !! k.

Lemma addressed_key t k : key_of t = Ok (Some k) → addressed k t = true.
Proof.
  unfold key_of, addressed, json_key. intros E. res_inv. repeat match goal with H : jget _ _ = Ok _ |- _ => rewrite H; clear H end.
  match goal with H : match ?i with _ => _ end = _ |- _ => destruct i as [| | | | | |i'| |] end;
    match goal with H : match ?o with _ => _ end = _ |- _ => destruct o as [| | | | | |o'| |] | _ => idtac end; try discriminate.
  injection E as <-. simpl. by rewrite !String.eqb_refl.
Qed.

(** What the decoder trusts the publisher for, at the planned books. *)
Definition published_at (lim : key → Z) (body : json) : Prop :=
  ∀ k, is_Some (plans !! k) → Forall (published (lim k)) (transitions_for k body).

(** What a cut does to one of its keys, on the book and on the mirror. *)
Lemma key_moved lim body (d d' : Decoder) (r r1 r2 : Rec) keys rows applied k :
  (ts ← jget body "book_transitions"; py_iter ts) = Ok rows → Forall2 (λ t k, key_of t = Ok (Some k)) rows keys →
  Forall2 (decided (books d) (books d')) rows keys → Forall2 (applied_at rows (mirror r) (mirror r1)) (sorted keys) applied → NoDup (map fst applied) →
  (∀ k, k ∈ keys → ∃ b m, books d' !! k = Some b ∧ mirror r1 !! k = Some m ∧ mirror r2 !! k = Some (revalued b m)) →
  tracked lim (books d) (mirror r) → published_at lim body → is_Some (plans !! k) → k ∈ keys →
  ∃ t b' m m2, (t, k) ∈ zip rows keys ∧ books d' !! k = Some b' ∧ mirror r !! k = Some m ∧ mirror r2 !! k = Some m2 ∧ limit b' = lim k ∧ mirrors b' m2 ∧
    (kind_of t = Ok (JStr "operations") → ∃ c, changes_of applied !! k = Some c ∧ valid m = true ∧ valid m2 = true ∧ accounted (sides m) (sides m2) c).
Proof.
  intros Hrows Hkeys Hdec Hap Hnd Hin2 Htr Hpub Hp Hk. destruct (Htr k Hp) as (b & m & Hb & Hm & Hmir & Hlim).
  assert (k ∈ sorted keys) as [i Hi]%list_elem_of_lookup_1 by by apply sorted_elem.
  destruct (Forall2_lookup_l _ _ _ _ _ Hap Hi) as (kd & Hkd & Hkd1 & m0 & t & n & n' & m' & Hm0 & Ht & Ha & Hm'). rewrite Hm in Hm0. injection Hm0 as <-.
  pose proof (transition_of_ok _ _ _ _ Hkeys Ht) as Hpair. destruct (Forall2_pairs _ _ _ _ _ Hdec Hpair) as (b0 & b' & og & rev & Hb0 & Hb' & Ed).
  rewrite Hb in Hb0. injection Hb0 as <-. destruct (Hin2 k Hk) as (b1 & m1 & Hb1 & Hm1 & Hm2). rewrite Hb' in Hb1. injection Hb1 as <-.
  rewrite Hm' in Hm1. injection Hm1 as <-. pose proof (Forall2_pairs _ _ _ _ _ Hkeys Hpair) as Hkt. simpl in Hkt.
  assert (published (limit b) t) as Hpt.
  { specialize (Hpub k Hp). rewrite Forall_forall, <- Hlim in Hpub. apply Hpub. unfold transitions_for. rewrite Hrows. apply list_elem_of_filter.
    split; [by apply addressed_key|]. by eapply elem_of_zip_l. }
  assert (∃ dec kind, jget t "decision" = Ok dec ∧ jget dec "kind" = Ok kind) as (dec & kind & Hd & Hki) by (unfold decide_book in Ed; res_inv; eauto).
  destruct (decision_mirrored _ _ _ _ _ _ _ _ _ _ _ _ _ Ed Ha Hmir Hpt Hd Hki) as (Hl & Hmir2 & Hk1 & Hk2).
  exists t, b', m, (revalued b' m'). split_and!; try done; [congruence|]. unfold kind_of. rewrite Hd. cbn [mbind result_bind]. rewrite Hki. intros [= ->].
  destruct (proj2 Hk1 eq_refl) as [c Hc]. exists c. destruct (Hk2 c Hc) as (? & Hu & ?). split_and!; [|done|unfold revalued; simpl; by rewrite Hu|done].
  apply changes_lookup; [done|]. rewrite <- Hkd1, <- Hc, <- surjective_pairing. by eapply list_elem_of_lookup_2.
Qed.

Lemma cut_followed lim body d d' u (r r1 r2 : Rec) keys causes rows applied u' :
  Decoder.cut body d = (d', Ok u) → touches plans scopes body = Ok (keys, causes) → (ts ← jget body "book_transitions"; py_iter ts) = Ok rows →
  mapS (apply_key rows) (sorted keys) r = (r1, Ok applied) → forS (refresh py_repr (books d')) keys r1 = (r2, Ok u') →
  tracked lim (books d) (mirror r) → published_at lim body →
  tracked lim (books d') (mirror r2) ∧ lazy r2 = lazy r ∧ writer r2 = writer r ∧ caused plans scopes (zip rows keys) causes ∧
  ∀ k, (∃ t, (t, k) ∈ zip rows keys ∧ (kind_of t = Ok (JStr "operations") → by_operations (changes_of applied) (mirror r) (mirror r2) k)) ∨
       (k ∉ keys ∧ left_alone (changes_of applied) (mirror r) (mirror r2) k).
Proof.
  intros Hcut Htouch Hrows Happ Href Htr Hpub. destruct (touches_ok _ _ _ _ _ Htouch) as (rows' & Hrows' & Hkeys & Hnd & Hplanned & Hcaused).
  rewrite Hrows in Hrows'. injection Hrows' as <-. destruct (cut_decides _ _ _ _ _ _ Hcut Hrows Hkeys Hnd) as [Hdec Hsame].
  assert (NoDup (sorted keys)) as Hnd' by by rewrite sorted_perm.
  destruct (apply_keys_ok _ _ _ _ _ Happ Hnd') as (Hap & Has & Hout). destruct (refreshes_ok _ _ _ _ _ Href Hnd) as (Hin2 & Hout2 & Ho2).
  assert (map fst applied = sorted keys) as Hfst.
  { clear -Hap. induction Hap as [|k kd ks kds [Hk _] _ IH]; simpl; [done|]. by rewrite Hk, IH. }
  rewrite Forall_forall in Hplanned. assert (NoDup (map fst applied)) as Hnda by by rewrite Hfst.
  pose proof (λ k Hk, key_moved lim body d d' r r1 r2 keys rows applied k Hrows Hkeys Hdec Hap Hnda Hin2 Htr Hpub (Hplanned k Hk) Hk) as Hmoved.
  split_and!; [| |unfold outputs, aside in *; congruence|done|].
  - intros k Hk. destruct (decide (k ∈ keys)) as [Hin|Hnin].
    + destruct (Hmoved k Hin) as (t & b' & m & m2 & _ & Hb' & _ & Hm2 & Hl & Hmir & _). by exists b', m2.
    + destruct (Htr k Hk) as (b & m & Hb & Hm & Hmir & Hlim). exists b, m. rewrite Hsame, Hout2, Hout by (by rewrite ?sorted_elem). done.
  - unfold outputs, aside in *. injection Has as _ ? _. injection Ho2 as ? _. congruence.
  - intros k. destruct (decide (k ∈ keys)) as [Hin|Hnin]; [left|right].
    + destruct (Hmoved k Hin) as (t & b' & m & m2 & Hp & _ & Hm & Hm2 & _ & _ & Hop). exists t. split; [done|].
      intros [c (? & ? & ? & ?)]%Hop. by exists c, m, m2.
    + split; [done|]. split; [apply changes_none; by rewrite Hfst, sorted_elem|]. by rewrite Hout2, Hout by (by rewrite ?sorted_elem).
Qed.
End Recorder.
