(* ===== verification/LevelsRows.v ===== *)
(** * Rows of the level stream, read back

    A ladder row read back is the ladder it was written from; a diff row read back takes
    the written book from the ladders before the cut to the ladders after it. *)
From stdpp Require Import gmap strings sorting.
From S2P Require Import Prelude Order Wire Json LineWriter EconomicTypes BookProtocol Decoder ProfileStreams Levels LevelsBooks LevelsCuts.

(** ** Ladders *)
Lemma ladder_levels_keys s (m : ladder) : map fst (ladder_levels s m) = sorted_prices s (dom m).
Proof. unfold ladder_levels. rewrite map_map. apply map_id. Qed.
Lemma ladder_levels_map s (m : ladder) : list_to_map (ladder_levels s m) = m.
Proof.
  assert (NoDup (ladder_levels s m).*1) as Hnd by (change (NoDup (map fst (ladder_levels s m))); rewrite ladder_levels_keys; apply sorted_prices_nodup).
  apply map_eq. intros p. destruct (m !! p) as [q|] eqn:E.
  - apply elem_of_list_to_map_1; [done|]. apply list_elem_of_fmap. exists p. rewrite E. split; [done|]. apply sorted_prices_elem, elem_of_dom. by exists q.
  - apply not_elem_of_list_to_map_1. change (p ∉ map fst (ladder_levels s m)). rewrite ladder_levels_keys, sorted_prices_elem, elem_of_dom, E. by intros [].
Qed.

Lemma pairs_read l js : mapR pair_json l = Ok js → Forall2 wire_level js l.
Proof.
  rewrite mapR_ok. induction 1 as [|[p q] v l js E _ IH]; constructor; [|done]. unfold pair_json in E. res_inv.
  eexists _, _. split_and!; [done|by apply int_of_text..].
Qed.
Lemma ladder_read s (m : ladder) js : mapR pair_json (ladder_levels s m) = Ok js → read_ladder (JArr js) = Ok m.
Proof.
  intros E. unfold read_ladder. cbn [py_iter mbind result_bind]. rewrite (read_level_rows (ladder_levels s m)) by by apply pairs_read. f_equal.
  rewrite insert_all_map; [apply ladder_levels_map|]. rewrite ladder_levels_keys. apply sorted_prices_nodup.
Qed.

(** ** Changes *)
Definition positive (m : ladder) : Prop := ∀ p q, m !! p = Some q → 0 < q.
Definition at_price (m : ladder) (p : Z) : Z := default 0 (m !! p).
Lemma positive_nonneg m p : positive m → 0 ≤ at_price m p.
Proof. intros H. unfold at_price. destruct (m !! p) as [q|] eqn:E; simpl; [|done]. specialize (H p q E). lia. Qed.
Lemma positive_ext m m' : positive m → positive m' → (∀ p, at_price m p = at_price m' p) → m = m'.
Proof.
  intros H H' E. apply map_eq. intros p. specialize (E p). unfold at_price in E. destruct (m !! p) as [q|] eqn:E1, (m' !! p) as [q'|] eqn:E2; simpl in E; [congruence| | |done].
  - specialize (H _ _ E1). lia.
  - specialize (H' _ _ E2). lia.
Qed.
Definition set_price (m : ladder) (p q : Z) : ladder := if q =? 0 then delete p m else <[p := q]> m.
Lemma set_price_at m p q p' : at_price (set_price m p q) p' = if decide (p' = p) then q else at_price m p'.
Proof.
  unfold set_price, at_price. destruct (Z.eqb_spec q 0) as [->|]; destruct (decide (p' = p)) as [->|].
  - by rewrite lookup_delete_eq.
  - by rewrite lookup_delete_ne.
  - by rewrite lookup_insert_eq.
  - by rewrite lookup_insert_ne.
Qed.
Lemma set_price_positive m p q : positive m → 0 ≤ q → positive (set_price m p q).
Proof.
  intros H Hq p' q'. unfold set_price. destruct (Z.eqb_spec q 0) as [->|].
  - intros [_ E]%lookup_delete_Some. by eapply H.
  - intros [[_ <-]|[_ E]]%lookup_insert_Some; [lia|by eapply H].
Qed.

(** Both sides of a written book, [true] for asks. *)
Definition pick (x : ladder * ladder) (ask : bool) : ladder := if ask then x.2 else x.1.
Definition both_positive (x : ladder * ladder) : Prop := ∀ a, positive (pick x a).
Definition change_by (changes : deltas_t) (x y : ladder * ladder) : Prop :=
  ∀ a p, at_price (pick y a) p = at_price (pick x a) p + default 0 (changes !! (a, p)).

Lemma apply_change_ok x c v y : diff_json c = Ok v → both_positive x → both_positive y →
  at_price (pick y c.1.1) c.1.2 = at_price (pick x c.1.1) c.1.2 + c.2 →
  ∃ x', apply_change x v = Ok x' ∧ both_positive x' ∧
    ∀ a p, at_price (pick x' a) p = if decide ((a, p) = c.1) then at_price (pick y a) p else at_price (pick x a) p.
Proof.
  destruct c as [[a p] d]. intros E Hx Hy Heq. simpl in Heq. unfold diff_json in E. apply bind_ok in E as (ps & Ep & E). apply bind_ok in E as (ds & Ed & E).
  injection E as <-. apply int_of_text in Ep, Ed. cbn [fst snd] in Ep, Ed.
  set (q := at_price (pick x a) p + d) in *. assert (0 ≤ q) as Hq by (rewrite <- Heq; by apply positive_nonneg).
  exists (if a then (x.1, set_price x.2 p q) else (set_price x.1 p q, x.2)). split_and!.
  - unfold apply_change. cbn [py_iter mbind result_bind fst snd]. rewrite Ep. cbn [mbind result_bind]. rewrite Ed. cbn [mbind result_bind].
    destruct a; cbn [jeq_str String.eqb Ascii.eqb Bool.eqb fst snd]; unfold at_price, pick in q; fold q; rewrite (proj2 (Z.leb_le _ _) Hq); done.
  - intros []; destruct a; simpl; try (apply set_price_positive; [|done]); [apply (Hx true)|apply (Hx true)|apply (Hx false)|apply (Hx false)].
  - intros a' p'. destruct a', a; simpl; rewrite ?set_price_at; repeat case_decide; try done; simplify_eq; done.
Qed.

Lemma changes_read : ∀ cs vs x y, mapR diff_json cs = Ok vs → NoDup cs.*1 → both_positive x → both_positive y → change_by (list_to_map cs) x y →
  foldR apply_change x vs = Ok y.
Proof.
  induction cs as [|c cs IH]; intros vs x y E Hnd Hx Hy Hc; simpl in E.
  - injection E as <-. simpl. f_equal. destruct x as [xb xa], y as [yb ya]. f_equal.
    + apply positive_ext; [apply (Hx false)|apply (Hy false)|]. intros p. specialize (Hc false p). simpl in Hc. rewrite lookup_empty in Hc. simpl in Hc. lia.
    + apply positive_ext; [apply (Hx true)|apply (Hy true)|]. intros p. specialize (Hc true p). simpl in Hc. rewrite lookup_empty in Hc. simpl in Hc. lia.
  - apply bind_ok in E as (v & Ev & E). apply bind_ok in E as (vs' & Evs & E). injection E as <-. rewrite fmap_cons in Hnd. apply NoDup_cons in Hnd as [Hk Hnd].
    destruct (apply_change_ok x c v y Ev Hx Hy) as (x' & E1 & Hx' & Hat).
    { rewrite (Hc c.1.1 c.1.2). f_equal. destruct c as [[a p] d]. simpl. by rewrite lookup_insert_eq. }
    cbn [foldR]. rewrite E1. cbn [mbind result_bind]. apply (IH vs'); try done. intros a p. rewrite Hat. destruct (decide ((a, p) = c.1)) as [Eq|Hne].
    + rewrite Eq, not_elem_of_list_to_map_1 by done. simpl. lia.
    + rewrite (Hc a p). f_equal. destruct c as [ap d]. simpl in *. by rewrite lookup_insert_ne.
Qed.

Section Written.
Context (plans : gmap key Plan) (scopes : list (list Member)).
Abbreviation written_of := (written_of plans scopes).

(** The books of an instrument trade on one venue. *)
Context (one_venue : ∀ i o o' p p', plans !! (i, o) = Some p → plans !! (i, o') = Some p' → venue p = venue p').

Lemma sources_elem w s : s ∈ sources plans scopes w ↔ written_of s = Some w.
Proof.
  unfold sources. rewrite list_elem_of_filter, elem_of_elements. split; [by intros [? _]|]. intros E. split; [done|]. by apply written_of_ok in E as [? _].
Qed.
Lemma sources_nodup w : NoDup (sources plans scopes w).
Proof. apply NoDup_filter, NoDup_elements. Qed.

Lemma written_planned k w : written_of k = Some w → is_Some (plans !! k).
Proof. intros [H _]%written_of_ok. by eapply present_planned. Qed.
Lemma other_kalshi w s : written_of s = Some w → s ≠ w → s = (w.1, "complement"%string) ∧ is_kalshi plans w = true.
Proof.
  intros E Hne. destruct (written_other _ _ _ _ E Hne) as [Hk Hs]. split; [done|].
  destruct (written_planned _ _ E) as [p Hp]. destruct (written_planned _ _ (written_self _ _ _ _ E)) as [p' Hp']. unfold is_kalshi in *. rewrite Hp in Hk. rewrite Hp'.
  subst s. destruct w as [i o]. by rewrite (one_venue i o "complement"%string p' p).
Qed.

(** The book whose bids are a written Kalshi book's asks. *)
Definition counter (w : key) : option key :=
  let c := (w.1, "complement"%string) in if decide (c ≠ w ∧ written_of c = Some w) then Some c else None.
Lemma counter_some w c : counter w = Some c ↔ written_of c = Some w ∧ c ≠ w.
Proof.
  unfold counter. split.
  - destruct (decide _) as [[? ?]|]; [|done]. by intros [= <-].
  - intros [E Hne]. destruct (other_kalshi _ _ E Hne) as [-> _]. by rewrite decide_True.
Qed.

(** What the rows say of a written book whose sources have these mirrors. *)
Definition bids_of (mm : gmap key Mirror) (k : key) : ladder := match mm !! k with Some m => if valid m then on_bid (sides m) else ∅ | None => ∅ end.
Definition shown (mm : gmap key Mirror) (w : key) : ladder * ladder :=
  match mm !! w with
  | Some m =>
      if negb (valid m) then (∅, ∅)
      else (on_bid (sides m),
            if is_kalshi plans w then (match counter w with Some c => project (unit_of plans w) (bids_of mm c) | None => ∅ end) else on_ask (sides m))
  | None => (∅, ∅)
  end.

#[local] Instance project_inj u : Inj (=) (=) (λ p : Z, u - p).
Proof. intros x y. lia. Qed.
Lemma project_at u m p : at_price (project u m) p = at_price m (u - p).
Proof. unfold at_price, project. assert (p = u - (u - p)) as E by lia. rewrite E at 1. by rewrite (lookup_kmap (λ p, u - p)). Qed.
Lemma project_positive u m : positive m → positive (project u m).
Proof. intros H p q (p' & -> & E)%(lookup_kmap_Some (λ p, u - p)). by eapply H. Qed.

(** *** [_ladder] *)
Lemma projected_asks_ok mm w ss : ∀ asks, NoDup ss → (∀ s, s ∈ ss → written_of s = Some w) → (∀ s, s ∈ ss → is_Some (mm !! s)) →
  projected_asks plans mm w ss asks = Ok (match counter w with
    | Some c => if decide (c ∈ ss) then (match mm !! c with Some m => if valid m then ladder_levels Ask (project (unit_of plans w) (on_bid (sides m))) else asks | None => asks end) else asks
    | None => asks end).
Proof.
  induction ss as [|s ss IH]; intros asks Hnd Hw Hm; simpl.
  - by destruct (counter w).
  - apply NoDup_cons in Hnd as [Hs Hnd]. assert (written_of s = Some w) as Hsw by (apply Hw; left).
    assert (∀ s', s' ∈ ss → written_of s' = Some w) as Hw' by (intros; apply Hw; by right).
    assert (∀ s', s' ∈ ss → is_Some (mm !! s')) as Hm' by (intros; apply Hm; by right). destruct (decide (s = w)) as [->|Hne].
    + rewrite IH by done. destruct (counter w) as [c|] eqn:Ec; [|done]. apply counter_some in Ec as [_ Hc].
      destruct (decide (c ∈ ss)), (decide (c ∈ w :: ss)) as [Hin|Hout]; try done; [by destruct Hout; right|]. by apply elem_of_cons in Hin as [|].
    + destruct (Hm s) as [m Em]; [left|]. rewrite Em. rewrite IH by done. pose proof (proj2 (counter_some w s) (conj Hsw Hne)) as Ec. rewrite Ec, Em.
      rewrite decide_False by done. rewrite decide_True by left. done.
Qed.

Lemma ladder_at_ok mm w : written_of w = Some w → (∀ k, is_Some (plans !! k) → is_Some (mm !! k)) →
  ladder_at plans scopes mm w = Ok (ladder_levels Bid (shown mm w).1, ladder_levels Ask (shown mm w).2).
Proof.
  intros Hw Hmm. unfold ladder_at, shown. destruct (Hmm w (written_planned _ _ Hw)) as [m ->]. destruct (valid m); [|done]. cbn [negb].
  destruct (is_kalshi plans w); [|done]. rewrite projected_asks_ok.
  - destruct (counter w) as [c|] eqn:Ec; [|done]. pose proof Ec as [Hc _]%counter_some. rewrite decide_True by by apply sources_elem.
    unfold bids_of. destruct (Hmm c (written_planned _ _ Hc)) as [mc ->]. by destruct (valid mc).
  - apply sources_nodup.
  - intros s. apply sources_elem.
  - intros s Hs%sources_elem. by eapply Hmm, written_planned.
Qed.

(** *** [_diff] *)
Definition origin_of (mm : gmap key Mirror) (w s : key) (e : bool * Z) : option (bool * Z) :=
  if decide (s = w) then (if is_kalshi plans w && e.1 then None else Some e)
  else if negb e.1 || negb (match mm !! w with Some m => valid m | None => false end) then None
  else Some (false, unit_of plans w - e.2).
Lemma entry_origin mm w s c e : entry_of plans mm w s c = Some e ↔ origin_of mm w s e = Some c.
Proof.
  unfold entry_of, origin_of. destruct c as [a p], e as [a' p']. simpl. destruct (decide (s = w)).
  - destruct (is_kalshi plans w), a, a'; simpl; naive_solver.
  - destruct (match mm !! w with Some m => valid m | None => false end), a, a'; simpl; split; try done; intros [= E]; f_equal; f_equal; lia.
Qed.
Definition part (mm : gmap key Mirror) (deltas : gmap key deltas_t) (w s : key) (e : bool * Z) : Z :=
  match origin_of mm w s e with Some c => default 0 (default ∅ (deltas !! s) !! c) | None => 0 end.

Lemma merge_changes mm w s e : ∀ (l : list ((bool * Z) * Z)) acc, NoDup l.*1 →
  default 0 (foldl (merge_change plans mm w s) acc l !! e) = default 0 (acc !! e) + match origin_of mm w s e with Some c => default 0 ((list_to_map l : deltas_t) !! c) | None => 0 end.
Proof.
  induction l as [|[c d] l IH]; intros acc Hnd; simpl.
  - destruct (origin_of mm w s e); rewrite ?lookup_empty; simpl; lia.
  - rewrite fmap_cons in Hnd. apply NoDup_cons in Hnd as [Hc Hnd]. rewrite IH by done. unfold merge_change. simpl.
    destruct (entry_of plans mm w s c) as [e'|] eqn:Ee; [destruct (decide (e' = e)) as [->|Hne]|].
    + apply entry_origin in Ee. rewrite Ee, !lookup_insert_eq, not_elem_of_list_to_map_1 by done. simpl. lia.
    + rewrite lookup_insert_ne by done. f_equal. destruct (origin_of mm w s e) as [c'|] eqn:Eo; [|done]. apply entry_origin in Eo.
      rewrite lookup_insert_ne; [done|]. intros ->. congruence.
    + f_equal. destruct (origin_of mm w s e) as [c'|] eqn:Eo; [|done]. apply entry_origin in Eo. rewrite lookup_insert_ne; [done|]. intros ->. congruence.
Qed.
Lemma merge_source_at mm deltas w acc s e : default 0 (merge_source plans mm deltas w acc s !! e) = default 0 (acc !! e) + part mm deltas w s e.
Proof. unfold merge_source, part. rewrite merge_changes by apply NoDup_fst_map_to_list. by rewrite list_to_map_to_list. Qed.
Lemma merged_at mm deltas w ss e : ∀ acc, default 0 (foldl (merge_source plans mm deltas w) acc ss !! e) = default 0 (acc !! e) + sumZ (map (λ s, part mm deltas w s e) ss).
Proof. induction ss as [|s ss IH]; intros acc; simpl; [lia|]. rewrite IH, merge_source_at. lia. Qed.

(** The one source that gives an entry. *)
Lemma sum_one `{EqDecision A} (f : A → Z) l a : NoDup l → (∀ b, b ∈ l → b ≠ a → f b = 0) → (a ∉ l → f a = 0) → sumZ (map f l) = f a.
Proof.
  intros Hnd. induction l as [|b l IH]; intros Ho Ha; simpl; [symmetry; apply Ha, not_elem_of_nil|]. apply NoDup_cons in Hnd as [Hb Hnd].
  destruct (decide (b = a)) as [->|Hne].
  - assert (sumZ (map f l) = 0) as ->; [|lia]. assert (∀ b, b ∈ l → f b = 0) as Hz.
    { intros b Hin. apply Ho; [by right|]. by intros ->. }
    clear -Hz. induction l as [|b l IH]; simpl; [done|]. rewrite Hz, IH; [done| |left]. intros. apply Hz. by right.
  - rewrite (Ho b); [|left|done]. rewrite IH; [lia|done| |].
    + intros b' Hin. apply Ho. by right.
    + intros Hout. apply Ha. by intros [->|]%elem_of_cons.
Qed.

(** A written book between two cuts, all of whose sources moved by operations or not at all. *)
Definition quiet (deltas : gmap key deltas_t) (mm mm' : gmap key Mirror) (w : key) : Prop :=
  ∀ s, written_of s = Some w → by_operations deltas mm mm' s ∨ left_alone deltas mm mm' s.

Lemma merged_part mm deltas w e s : written_of w = Some w →
  (∀ s', written_of s' = Some w → s' ≠ s → part mm deltas w s' e = 0) → (written_of s ≠ Some w → part mm deltas w s e = 0) →
  default 0 (merged plans scopes mm deltas w !! e) = part mm deltas w s e.
Proof.
  intros Hw Ho Hs. unfold merged. rewrite merged_at, lookup_empty. simpl. apply (sum_one (λ s, part mm deltas w s e)).
  - apply sources_nodup.
  - intros s' Hin%sources_elem Hne. by apply Ho.
  - intros Hout. apply Hs. by intros ?%sources_elem.
Qed.

Lemma quiet_valid deltas mm mm' s : by_operations deltas mm mm' s ∨ left_alone deltas mm mm' s → is_Some (mm !! s) →
  ∃ m m', mm !! s = Some m ∧ mm' !! s = Some m' ∧ valid m = valid m' ∧ accounted (sides m) (sides m') (default ∅ (deltas !! s)) ∧ (valid m = false → deltas !! s = None).
Proof.
  intros [(c & m & m' & Ed & Hm & Hm' & Hv & Hv' & Ha)|[Ed Em]] [m0 Hm0].
  - exists m, m'. rewrite Ed. split_and!; [done|done|congruence|done|congruence].
  - exists m0, m0. rewrite Em, Ed. split_and!; [done..| |done]. intros s' p. simpl. rewrite lookup_empty. simpl. lia.
Qed.
Lemma bids_moved deltas mm mm' c p : by_operations deltas mm mm' c ∨ left_alone deltas mm mm' c → is_Some (mm !! c) →
  at_price (bids_of mm' c) p = at_price (bids_of mm c) p + default 0 (default ∅ (deltas !! c) !! (false, p)).
Proof.
  intros Hq Hs. destruct (quiet_valid _ _ _ _ Hq Hs) as (m & m' & Hm & Hm' & Hv & Ha & Hn). unfold bids_of. rewrite Hm, Hm', <- Hv.
  destruct (valid m); [apply (Ha Bid)|]. by rewrite Hn.
Qed.

Lemma quiet_change deltas mm mm' w : written_of w = Some w → quiet deltas mm mm' w → (∀ k, is_Some (plans !! k) → is_Some (mm !! k)) →
  change_by (merged plans scopes mm' deltas w) (shown mm w) (shown mm' w).
Proof.
  intros Hw Hq Hmm. destruct (quiet_valid _ _ _ _ (Hq w Hw) (Hmm w (written_planned _ _ Hw))) as (m & m' & Hm & Hm' & Hv & Ha & Hn).
  assert (∀ e s, s ≠ w → e.1 = false ∨ is_kalshi plans w = false ∨ valid m = false → written_of s = Some w → part mm' deltas w s e = 0) as Hother.
  { intros e s Hne He Hs. destruct (other_kalshi _ _ Hs Hne) as [_ Hk]. unfold part, origin_of. rewrite decide_False, Hm', <- Hv by done.
    destruct e as [[] p], (valid m); simpl; try done. simpl in He. destruct He as [?|[?|?]]; congruence. }
  assert (∀ e, e.1 = true → is_kalshi plans w = true → part mm' deltas w w e = 0) as Hself.
  { intros [[] p] [=] Hk. unfold part, origin_of. rewrite decide_True, Hk by done. done. }
  assert (∀ e, e.1 = false ∨ is_kalshi plans w = false → part mm' deltas w w e = default 0 (default ∅ (deltas !! w) !! e)) as Hown.
  { intros [[] p] He; unfold part, origin_of; rewrite decide_True by done; [|by rewrite andb_false_r]. destruct He as [|Hk]; [done|]. by rewrite Hk. }
  intros a p. unfold shown. rewrite Hm, Hm', <- Hv. destruct (valid m) eqn:Ev; simpl.
  2: { rewrite (merged_part mm' deltas w (a, p) w Hw); [|by intros; apply Hother; auto|done].
       destruct (decide (a = true ∧ is_kalshi plans w = true)) as [[-> Hk]|Hne]; [rewrite Hself by done; by rewrite Z.add_0_r|].
       rewrite Hown by (destruct a, (is_kalshi plans w); naive_solver). rewrite Hn by done. simpl. rewrite lookup_empty. by destruct a. }
  destruct a; simpl.
  - destruct (is_kalshi plans w) eqn:Hk.
    + destruct (counter w) as [c|] eqn:Ec.
      * pose proof Ec as [Hc Hne]%counter_some. rewrite !project_at. rewrite (bids_moved deltas mm mm' c); [|by apply Hq|by eapply Hmm, written_planned].
        f_equal. rewrite (merged_part mm' deltas w (true, p) c Hw).
        -- unfold part, origin_of. rewrite decide_False, Hm', <- Hv by done. done.
        -- intros s Hs Hsc. destruct (decide (s = w)) as [->|Hsw]; [by apply Hself|]. destruct Hsc. assert (counter w = Some s) by by apply counter_some. congruence.
        -- done.
      * rewrite (merged_part mm' deltas w (true, p) w Hw); [by rewrite Hself|intros s Hs Hsw|done].
        assert (counter w = Some s) by by apply counter_some. congruence.
    + rewrite (merged_part mm' deltas w (true, p) w Hw); [|by intros; apply Hother; auto|done]. rewrite Hown by auto. apply (Ha Ask).
  - rewrite (merged_part mm' deltas w (false, p) w Hw); [|by intros; apply Hother; auto|done]. rewrite Hown by auto. apply (Ha Bid).
Qed.
End Written.
