(* ===== verification/LevelsProps.v ===== *)
(** * The level stream holds the decoder's books

    The recorder is driven as the profile's collector drives it: a cut of the decoder and
    then of the recorder, or a crossing into the next scope.  Reading its rows back gives, for
    every written book of the open scope, exactly the ladders of the decoder's book. *)
From stdpp Require Import gmap strings sorting.
From S2P Require Import Prelude Order Wire Json LineWriter EconomicTypes BookProtocol Decoder ProfileStreams ProfileDemo Levels LevelsBooks LevelsCuts LevelsRows.

Section Run.
Context {W : Type} `{RowWriter W}.
Context (plans : gmap key Plan) (scopes : list (list Member)) (start : Z) (py_repr : json → string).
Context (one_venue : ∀ i o o' p p', plans !! (i, o) = Some p → plans !! (i, o') = Some p' → venue p = venue p').
Abbreviation Rec := (LevelRecorder (W := W)).
Abbreviation written := (λ w, written_of plans scopes w = Some w).
Abbreviation index := (index plans scopes).
Abbreviation shown := (shown plans scopes).

(** ** One row *)
Definition read_back (r : Rec) (held : held_t) : Prop := iter_levels (rows (writer r)) = Ok held.
Definition current (held : held_t) (scope : Z) (mm : gmap key Mirror) (w : key) : Prop :=
  ∀ i, index !! w = Some i → held !! (scope, i) = Some (shown mm w).
Definition mirrored (mm : gmap key Mirror) : Prop := ∀ k, is_Some (plans !! k) → is_Some (mm !! k).

Lemma write_read (r r' : Rec) v u held : write v r = (r', Ok u) → read_back r held →
  mirror r' = mirror r ∧ lazy r' = lazy r ∧ iter_levels (rows (writer r')) = read_row held v.
Proof.
  unfold write, zoomS. destruct (append v (writer r)) as [w' res] eqn:E. intros [= <- ->] Hh. apply append_rows in E. split_and!; [done..|].
  simpl. rewrite E. unfold iter_levels. rewrite foldR_app. unfold read_back, iter_levels in Hh. rewrite Hh. simpl. by destruct (read_row held v).
Qed.

Lemma row_ok kind scope w sequence time fields v : row plans scopes kind scope w sequence time fields = Ok v →
  ∃ i t, index !! w = Some i ∧ v = JObj ([("type", JStr kind); ("scope", JInt scope); ("book", JInt i); ("cut", JInt sequence); ("t_ns", JStr t)]%string ++ fields).
Proof. unfold row. intros E. apply bind_ok in E as (i & Ei & E). destruct (index !! w) as [i'|]; [injection Ei as ->|done]. res_inv. eauto. Qed.

Lemma ladder_row_ok scope w sequence time cause extra (r r' : Rec) u held :
  ladder_row plans scopes scope w sequence time cause extra r = (r', Ok u) → written w → mirrored (mirror r) → read_back r held →
  mirror r' = mirror r ∧ lazy r' = lazy r ∧ ∃ i, index !! w = Some i ∧ read_back r' (<[(scope, i) := shown (mirror r) w]> held).
Proof.
  unfold ladder_row. intros E Hw Hmm Hh. apply stbind_ok in E as (? & ? & [-> ->]%getS_ok & E). rewrite (ladder_at_ok plans scopes one_venue) in E by done.
  apply stbind_ok in E as (? & ? & [-> [= <-]]%liftR_ok & E). apply stbind_ok in E as (? & bids & [-> Hbids]%liftR_ok & E).
  apply stbind_ok in E as (? & asks & [-> Hasks]%liftR_ok & E). apply stbind_ok in E as (? & v & [-> _]%liftR_ok & E).
  apply stbind_ok in E as (? & ex & [-> _]%liftR_ok & E). apply stbind_ok in E as (? & row & [-> Hrow]%liftR_ok & E).
  destruct (write_read _ _ _ _ _ E Hh) as (Em & El & Er). split_and!; [done..|]. destruct (row_ok _ _ _ _ _ _ _ Hrow) as (i & t & Hi & ->).
  exists i. split; [done|]. unfold read_back. rewrite Er. unfold read_row. cbn -[read_ladder]. 
  rewrite (ladder_read _ _ _ Hbids). cbn -[read_ladder]. rewrite (ladder_read _ _ _ Hasks). cbn. by rewrite <- surjective_pairing.
Qed.

Lemma current_insert held scope mm w i w' mm' : index !! w = Some i → current held scope mm' w' → w' ≠ w → current (<[(scope, i) := shown mm w]> held) scope mm' w'.
Proof. intros Hi Hc Hne i' Hi'. rewrite lookup_insert_ne; [by apply Hc|]. intros [= ->]. apply Hne. by eapply index_inj. Qed.
Lemma current_here held scope mm w i : index !! w = Some i → current (<[(scope, i) := shown mm w]> held) scope mm w.
Proof. intros Hi i' Hi'. assert (i' = i) as -> by congruence. by rewrite lookup_insert_eq. Qed.

(** ** Opening a scope *)
Lemma levels_openings_ok scope at_ sequence ws : ∀ (r r' : Rec) u held,
  forS (λ k, opening plans scopes scope k at_ sequence) ws r = (r', Ok u) → (∀ w, w ∈ ws → written w) → mirrored (mirror r) → read_back r held →
  mirror r' = mirror r ∧ lazy r' = lazy r ∧ ∃ held', read_back r' held' ∧
    ∀ w, w ∈ ws ∨ current held scope (mirror r) w → current held' scope (mirror r) w.
Proof.
  induction ws as [|w ws IH]; intros r r' u held E Hw Hmm Hh; simpl in E.
  - apply mretS_ok in E as [-> _]. split_and!; [done..|]. exists held. split; [done|]. by intros w [?%elem_of_nil|].
  - apply stbind_ok in E as (r1 & u1 & E1 & E). unfold opening in E1.
    destruct (ladder_row_ok _ _ _ _ _ _ _ _ _ _ E1 (Hw w (list_elem_of_here _ _)) Hmm Hh) as (Em & El & i & Hi & Hh1).
    destruct (IH r1 r' u (<[(scope, i) := shown (mirror r) w]> held) E) as (Em2 & El2 & held' & Hh' & Hc); [intros; apply Hw; by right|by rewrite Em|done|].
    split_and!; [congruence..|]. exists held'. split; [done|]. rewrite Em in Hc. intros w' Hw'. apply Hc. destruct (decide (w' = w)) as [->|Hne].
    + right. by apply current_here.
    + destruct Hw' as [[|]%elem_of_cons|Hcur]; [done|by left|]. right. by apply current_insert.
Qed.

Lemma levels_flush_ok sequence (r r' : Rec) u cur held :
  flush plans scopes sequence r = (r', Ok u) → mirrored (mirror r) → read_back r held →
  match lazy r with Some (s, _, sc) => (s, sc) = cur | None => ∀ w, w ∈ cur.2 → written w → current held cur.1 (mirror r) w end →
  mirror r' = mirror r ∧ lazy r' = None ∧ ∃ held', read_back r' held' ∧ ∀ w, w ∈ cur.2 → written w → current held' cur.1 (mirror r) w.
Proof.
  unfold flush, ProfileStreams.flush. intros E Hmm Hh Hl. apply stbind_ok in E as (? & ? & [-> ->]%getS_ok & E). destruct (lazy r) as [[[s at_] sc]|] eqn:El.
  - subst cur. apply stbind_ok in E as (r1 & u1 & E1 & E). apply modifyS_ok in E1 as ->. unfold open in E.
    destruct (levels_openings_ok _ _ _ _ _ _ _ held E) as (Em & El' & held' & Hh' & Hc); [by intros w [_ ?]%opened_elem|done|done|].
    split_and!; [done..|]. exists held'. split; [done|]. intros w Hw Hwr. apply Hc. left. by apply opened_elem.
  - apply mretS_ok in E as [-> _]. split_and!; [done..|]. by exists held.
Qed.

Lemma levels_open_scope_ok scope at_ scoped sequence (r r' : Rec) u cur held :
  open_scope plans scopes scope at_ scoped sequence r = (r', Ok u) → mirrored (mirror r) → read_back r held →
  match lazy r with Some (s, _, sc) => (s, sc) = cur | None => ∀ w, w ∈ cur.2 → written w → current held cur.1 (mirror r) w end →
  mirror r' = mirror r ∧ lazy r' = None ∧ ∃ held', read_back r' held' ∧ ∀ w, w ∈ scoped → written w → current held' scope (mirror r) w.
Proof.
  unfold open_scope, ProfileStreams.open_scope. intros E Hmm Hh Hl. apply stbind_ok in E as (r1 & u1 & E1 & E).
  destruct (levels_flush_ok _ _ _ _ _ _ E1 Hmm Hh Hl) as (Em & El & held1 & Hh1 & _). unfold open in E.
  destruct (levels_openings_ok _ _ _ _ _ _ _ held1 E) as (Em2 & El2 & held' & Hh' & Hc); [by intros w [_ ?]%opened_elem|by rewrite Em|done|].
  split_and!; [congruence..|]. exists held'. split; [done|]. intros w Hw Hwr. rewrite <- Em. apply Hc. left. by apply opened_elem.
Qed.

(** ** One change row *)
Lemma changes_filtered (d : deltas_t) cs e : cs = filter (λ c : (bool * Z) * Z, c.2 ≠ 0) (sort_by diff_leb (map_to_list d)) →
  NoDup cs.*1 ∧ default 0 ((list_to_map cs : deltas_t) !! e) = default 0 (d !! e).
Proof.
  intros ->. set (cs := filter _ _). assert (∀ e v, (e, v) ∈ cs ↔ d !! e = Some v ∧ v ≠ 0) as Hin.
  { intros e' v. unfold cs. rewrite list_elem_of_filter, sort_by_elem, elem_of_map_to_list. simpl. tauto. }
  assert (NoDup cs.*1) as Hnd.
  { assert (NoDup (sort_by diff_leb (map_to_list d)).*1) as Hs by (rewrite (fmap_Permutation fst _ _ (sort_by_perm diff_leb (map_to_list d))); apply NoDup_fst_map_to_list).
    unfold cs. revert Hs. generalize (sort_by diff_leb (map_to_list d)) as l. clear.
    induction l as [|[e v] l IH]; [done|]. rewrite fmap_cons, filter_cons. intros [He Hnd]%NoDup_cons. destruct (decide _); [|by apply IH].
    rewrite fmap_cons. constructor; [|by apply IH]. intros ([e' v'] & E & [_ Hin]%list_elem_of_filter)%list_elem_of_fmap. apply He. apply list_elem_of_fmap. by exists (e', v'). }
  split; [done|]. destruct (d !! e) as [v|] eqn:E; [destruct (decide (v = 0)) as [->|Hv]|].
  - rewrite not_elem_of_list_to_map_1; [done|]. intros ([e' v'] & -> & [He' Hv']%Hin)%list_elem_of_fmap. simpl in E. congruence.
  - rewrite (elem_of_list_to_map_1 cs e v); [done|done|]. by apply Hin.
  - rewrite not_elem_of_list_to_map_1; [done|]. intros ([e' v'] & -> & [He' Hv']%Hin)%list_elem_of_fmap. simpl in E. congruence.
Qed.

Lemma diff_read mm deltas w vs x y : diff plans scopes mm deltas w = Ok vs → both_positive x → both_positive y →
  change_by (merged plans scopes mm deltas w) x y → foldR apply_change x vs = Ok y.
Proof.
  unfold diff. intros E Hx Hy Hc. eapply changes_read; [exact E| |done|done|].
  - by eapply (changes_filtered _ _ (true, 0)).
  - intros a p. rewrite (Hc a p). f_equal. symmetry. by eapply changes_filtered.
Qed.

Lemma write_change_ok clocks causes deltas scope sequence time w (r r' : Rec) u held mm :
  write_change plans scopes clocks causes deltas scope sequence time w r = (r', Ok u) → written w → mirrored (mirror r) → mirrored mm → read_back r held →
  current held scope mm w → (causes !! w = Some (JStr "operations") → quiet plans scopes deltas mm (mirror r) w) →
  both_positive (shown mm w) → both_positive (shown (mirror r) w) →
  mirror r' = mirror r ∧ lazy r' = lazy r ∧ ∃ held', read_back r' held' ∧ current held' scope (mirror r) w ∧
    ∀ w' mm', w' ≠ w → current held scope mm' w' → current held' scope mm' w'.
Proof.
  unfold write_change. intros E Hw Hmr Hmm Hh Hcur Hquiet Hpx Hpy. apply stbind_ok in E as (? & cause & [-> Hcause]%liftR_ok & E).
  destruct (causes !! w) as [c|]; [injection Hcause as ->|done]. apply stbind_ok in E as (? & ? & [-> ->]%getS_ok & E).
  destruct (jeq_str cause "operations") eqn:Ec; cbn [negb] in E.
  - apply jeq_str_eq in Ec as ->. specialize (Hquiet eq_refl). pose proof (quiet_change plans scopes one_venue deltas mm (mirror r) w Hw Hquiet Hmm) as Hchange.
    apply stbind_ok in E as (? & vs & [-> Hvs]%liftR_ok & E). pose proof (diff_read _ _ _ _ _ _ Hvs Hpx Hpy Hchange) as Hread. destruct vs as [|v vs].
    + apply mretS_ok in E as [-> _]. injection Hread as Eq. split_and!; [done..|]. exists held. split_and!; [done| |done]. unfold current. by rewrite <- Eq.
    + apply stbind_ok in E as (? & ex & [-> _]%liftR_ok & E). apply stbind_ok in E as (? & row & [-> Hrow]%liftR_ok & E).
      destruct (write_read _ _ _ _ _ E Hh) as (Em & El & Er). split_and!; [done..|]. destruct (row_ok _ _ _ _ _ _ _ Hrow) as (i & t & Hi & ->).
      exists (<[(scope, i) := shown (mirror r) w]> held). split_and!; [|by apply current_here|by intros; apply current_insert].
      unfold read_back. rewrite Er. unfold read_row. cbn -[foldR apply_change]. rewrite (Hcur i Hi). cbn -[foldR apply_change]. by rewrite Hread.
  - destruct (ladder_row_ok _ _ _ _ _ _ _ _ _ _ E Hw Hmr Hh) as (Em & El & i & Hi & Hh'). split_and!; [done..|].
    exists (<[(scope, i) := shown (mirror r) w]> held). split_and!; [done|by apply current_here|by intros; apply current_insert].
Qed.

Lemma write_changes_ok clocks causes deltas scope sequence time mm ws : ∀ (r r' : Rec) u held,
  forS (write_change plans scopes clocks causes deltas scope sequence time) ws r = (r', Ok u) → NoDup ws → mirrored (mirror r) → mirrored mm → read_back r held →
  (∀ w, w ∈ ws → written w ∧ current held scope mm w ∧ (causes !! w = Some (JStr "operations") → quiet plans scopes deltas mm (mirror r) w)) →
  (∀ w, written w → both_positive (shown mm w) ∧ both_positive (shown (mirror r) w)) →
  mirror r' = mirror r ∧ lazy r' = lazy r ∧ ∃ held', read_back r' held' ∧
    ∀ w, w ∈ ws ∨ current held scope (mirror r) w → current held' scope (mirror r) w.
Proof.
  induction ws as [|w ws IH]; intros r r' u held E Hnd Hmr Hmm Hh Hw Hpos; simpl in E.
  - apply mretS_ok in E as [-> _]. split_and!; [done..|]. exists held. split; [done|]. by intros w [?%elem_of_nil|].
  - apply stbind_ok in E as (r1 & u1 & E1 & E). apply NoDup_cons in Hnd as [Hnin Hnd]. destruct (Hw w) as (Hwr & Hcur & Hq); [left|].
    destruct (write_change_ok _ _ _ _ _ _ _ _ _ _ _ _ E1 Hwr Hmr Hmm Hh Hcur Hq) as (Em & El & held1 & Hh1 & Hc1 & Ho1); [by apply Hpos..|].
    destruct (IH r1 r' u held1 E Hnd) as (Em2 & El2 & held' & Hh' & Hc'); rewrite ?Em; try done.
    { intros w' Hw'. destruct (Hw w') as (? & ? & ?); [by right|]. split_and!; [done| |done]. apply Ho1; [|done]. by intros ->. }
    split_and!; [congruence..|]. exists held'. split; [done|]. rewrite Em in Hc'. intros w' Hw'. apply Hc'. destruct (decide (w' = w)) as [->|Hne]; [by right|].
    destruct Hw' as [[->|]%elem_of_cons|Hcur']; [done|by left|]. right. by apply Ho1.
Qed.

(** ** A cut *)
Lemma tracked_positive lim bs mm w : tracked plans lim bs mm → written w → both_positive (shown mm w).
Proof.
  intros Ht Hw. assert (∀ k s m, mm !! k = Some m → is_Some (plans !! k) → valid m = true → positive (sget s (sides m))) as Hpos.
  { intros k s m Hm Hk Hv. destruct (Ht k Hk) as (b & m' & _ & Hm' & (_ & _ & _ & Hlev) & _). rewrite Hm in Hm'. injection Hm' as <-. rewrite Hv in Hlev.
    destruct Hlev as [(_ & Hok & _) _]. intros p q Hpq. by destruct (Hok s p q Hpq). }
  assert (positive ∅) as Hempty by by intros p q [=]. intros a. unfold shown, LevelsRows.shown.
  destruct (mm !! w) as [m|] eqn:Em; [|by destruct a]. destruct (valid m) eqn:Ev; [|by destruct a]. pose proof (written_planned _ _ _ _ Hw) as Hp.
  destruct a; simpl; [|by apply (Hpos w Bid)]. destruct (is_kalshi plans w); [|by apply (Hpos w Ask)].
  destruct (counter plans scopes w) as [c|] eqn:Ec; [|done]. apply (counter_some plans scopes one_venue) in Ec as [Hc _]. apply project_positive.
  unfold bids_of. destruct (mm !! c) as [mc|] eqn:Emc; [|done]. destruct (valid mc) eqn:Evc; [|done]. apply (Hpos c Bid); [done| |done]. by eapply written_planned.
Qed.
Lemma tracked_mirrored lim bs mm : tracked plans lim bs mm → mirrored mm.
Proof. intros Ht k Hk. destruct (Ht k Hk) as (_ & m & _ & Hm & _). by exists m. Qed.

(** What holds between two cuts: the mirrors follow the books and, once a scope was
    written, the rows read back as the ladders of the mirrors. *)
Definition level_inv (lim : key → Z) (d : Decoder) (cur : Z * gset key) (r : Rec) : Prop :=
  tracked plans lim (books d) (mirror r) ∧ ∃ held, read_back r held ∧
  match lazy r with Some (s, _, sc) => (s, sc) = cur | None => ∀ w, w ∈ cur.2 → written w → current held cur.1 (mirror r) w end.

(** The sources of a book whose cause is [operations] moved by operations or not at all;
    those of a book without a cause did not move. *)
Lemma cause_quiet rows keys causes deltas mm mm' w :
  caused plans scopes (zip rows keys) causes →
  (∀ k, (∃ t, (t, k) ∈ zip rows keys ∧ (kind_of t = Ok (JStr "operations") → by_operations deltas mm mm' k)) ∨ (k ∉ keys ∧ left_alone deltas mm mm' k)) →
  causes !! w = Some (JStr "operations") → quiet plans scopes deltas mm mm' w.
Proof.
  intros Hc Hk Hw s Hs. destruct (Hk s) as [(t & Hin & Hop)|[_ Hal]]; [left|by right]. apply Hop. by eapply only_operations.
Qed.
Lemma no_cause_same rows keys causes deltas mm mm' w : written w →
  caused plans scopes (zip rows keys) causes →
  (∀ k, (∃ t, (t, k) ∈ zip rows keys ∧ (kind_of t = Ok (JStr "operations") → by_operations deltas mm mm' k)) ∨ (k ∉ keys ∧ left_alone deltas mm mm' k)) →
  causes !! w = None → shown mm' w = shown mm w.
Proof.
  intros Hw [_ Hc] Hk Hn. assert (∀ s, written_of plans scopes s = Some w → mm' !! s = mm !! s) as Hsame.
  { intros s Hs. destruct (Hk s) as [(t & Hin & _)|[_ [_ Hal]]]; [|done]. destruct (Hc t s w Hin Hs) as (kind & r & c & r' & _ & _ & E & _). congruence. }
  unfold shown, LevelsRows.shown. rewrite (Hsame w Hw). destruct (counter plans scopes w) as [c|] eqn:Ec; [|done]. apply (counter_some plans scopes one_venue) in Ec as [Hcw _].
  unfold bids_of. by rewrite (Hsame c Hcw).
Qed.

Lemma levels_cut_ok lim body d d' u (r r' : Rec) u' cur sequence raw time :
  Decoder.cut body d = (d', Ok u) → cut plans scopes start py_repr body (books d') sequence raw time cur.2 cur.1 r = (r', Ok u') →
  level_inv lim d cur r → published_at plans lim body → (lazy r = None → start ≤ raw) →
  level_inv lim d' cur r' ∧ (lazy r' = None ↔ (lazy r = None ∨ start ≤ raw)).
Proof.
  intros Hcut E (Htr & held & Hh & Hcur) Hpub Hgate. unfold cut in E. apply stbind_ok in E as (r1 & u1 & E1 & E).
  assert (mirror r1 = mirror r ∧ ∃ held1, read_back r1 held1 ∧ lazy r1 = (if start <=? raw then None else lazy r) ∧
    match lazy r1 with Some (s, _, sc) => (s, sc) = cur | None => ∀ w, w ∈ cur.2 → written w → current held1 cur.1 (mirror r) w end) as (Em1 & held1 & Hh1 & El1 & Hcur1).
  { destruct (start <=? raw).
    - destruct (levels_flush_ok _ _ _ _ cur held E1 (tracked_mirrored _ _ _ Htr) Hh Hcur) as (Em & El & held1 & Hh1 & Hc). split; [done|]. exists held1. by rewrite El.
    - apply mretS_ok in E1 as [-> _]. split; [done|]. by exists held. }
  apply stbind_ok in E as (r2 & [keys causes] & [-> Htouch]%liftR_ok & E). apply stbind_ok in E as (r2 & rows & [-> Hrows]%liftR_ok & E).
  apply stbind_ok in E as (r2 & applied & Happ & E). apply stbind_ok in E as (r3 & u3 & Href & E). rewrite <- Em1 in Htr.
  destruct (cut_followed plans scopes py_repr lim body d d' u r1 r2 r3 keys causes rows applied u3 Hcut Htouch Hrows Happ Href Htr Hpub) as (Htr' & El & Ew & Hcaused & Hmoves).
  assert (read_back r3 held1) as Hh3 by by unfold read_back; rewrite Ew.
  destruct (Z.leb_spec start raw) as [Hraw|Hraw]; cbn [negb] in E.
  2: { apply mretS_ok in E as [-> _]. rewrite El, El1. split; [|split; [by left|intros [|]; [done|lia]]]. split; [done|]. exists held1. split; [done|].
       rewrite El. rewrite El1 in *. destruct (lazy r) as [[[s at_] sc]|]; [done|]. exfalso. specialize (Hgate eq_refl). lia. }
  apply stbind_ok in E as (r4 & [clocks trades] & [-> Hscan]%liftR_ok & E). rewrite El1 in Hcur1.
  destruct (write_changes_ok _ _ _ _ _ _ (mirror r1) _ _ _ _ held1 E) as (Em4 & El4 & held4 & Hh4 & Hc4).
  - apply in_index_order_nodup, NoDup_filter, NoDup_fst_map_to_list.
  - by eapply tracked_mirrored.
  - by eapply tracked_mirrored.
  - done.
  - intros w [Hin ([w' c] & -> & Hc%elem_of_map_to_list)%list_elem_of_fmap]%in_index_order_elem%list_elem_of_filter. simpl in *.
    assert (written w') as Hwr. { destruct Hcaused as [Hc1 _]. destruct (Hc1 w') as (t & k & _ & Hk); [by exists c|]. by eapply written_self. }
    split_and!; [done|rewrite Em1; by apply Hcur1|]. intros Hop. by eapply cause_quiet.
  - intros w Hw. split; by eapply tracked_positive.
  - rewrite El4, El, El1. split; [|split; [by right|done]]. split; [by rewrite Em4|]. exists held4. split; [done|]. rewrite El4, El, El1. rewrite Em4.
    intros w Hw Hwr. apply Hc4. destruct (causes !! w) as [c|] eqn:Ec.
    + left. apply in_index_order_elem, list_elem_of_filter. split; [done|]. apply list_elem_of_fmap. exists (w, c). split; [done|]. by apply elem_of_map_to_list.
    + right. unfold current. rewrite (no_cause_same _ _ _ _ _ _ _ Hwr Hcaused Hmoves Ec), Em1. by apply Hcur1.
Qed.

(** ** The initial books *)
Lemma book_sides b : book_inv b → ∃ x : sided ladder, (∀ s, levels b (side_name s) None = Ok (ladder_levels s (sget s x))) ∧
  if String.eqb (validity b) "usable" then rep b x ∧ is_Some (quantities b) else x = no_levels.
Proof.
  intros [[mm Hr] Hq]. destruct (String.eqb_spec (validity b) "usable") as [Hu|Hu].
  - exists mm. split; [|by auto]. intros s. by rewrite (levels_rep b mm s None) by (done || auto).
  - exists no_levels. split; [|done]. intros s. unfold levels. assert (side_of (side_name s) = Some s) as -> by (by destruct s). cbn [mbind result_bind require].
    apply String.eqb_neq in Hu as ->. assert (sget s no_levels = (∅ : ladder)) as -> by (by destruct s). unfold ladder_levels. by rewrite dom_empty_L.
Qed.
Lemma updated_empty s (m : ladder) : list_to_map (reverse (ladder_levels s m)) ∪ (∅ : ladder) = m.
Proof.
  rewrite (right_id_L ∅ (∪)). rewrite <- (ladder_levels_map s m) at 2. apply list_to_map_proper; [|by rewrite reverse_Permutation].
  rewrite fmap_reverse, reverse_Permutation. change (NoDup (map fst (ladder_levels s m))). rewrite ladder_levels_keys. apply sorted_prices_nodup.
Qed.

Lemma initial_book_ok bs k b (r r' : Rec) u : initial_book py_repr bs k r = (r', Ok u) → mirror r !! k = Some empty_mirror → bs !! k = Some b → book_inv b →
  ∃ m, mirrors b m ∧ mirror r' = <[k := m]> (mirror r) ∧ writer r' = writer r ∧ lazy r' = lazy r.
Proof.
  unfold initial_book, book_at. intros E Hm Hb Hi. rewrite Hb in E. apply stbind_ok in E as (? & ? & [-> [= <-]]%liftR_ok & E).
  apply stbind_ok in E as (? & m & [-> Hm']%mirror_at_ok & E). rewrite Hm in Hm'. injection Hm' as <-.
  destruct (book_sides b Hi) as (x & Hx & Hlev). change "bid"%string with (side_name Bid) in E. change "ask"%string with (side_name Ask) in E. rewrite !Hx in E.
  unfold on_budget, put_mirror in E. apply stbind_ok in E as (? & v & [-> _]%liftR_ok & E). apply stbind_ok in E as (? & ? & ->%modifyS_ok & E).
  apply stbind_ok in E as (? & ? & [-> [= <-]]%liftR_ok & E). apply stbind_ok in E as (r1 & ? & E1 & E). apply stbind_ok in E as (? & ? & [-> [= <-]]%liftR_ok & E).
  apply stbind_ok in E as (r2 & ? & E2 & E). apply stbind_ok in E as (r3 & ? & ->%modifyS_ok & ->%check_frame).
  assert (mirror r2 = mirror r ∧ writer r2 = writer r ∧ lazy r2 = lazy r) as (Em & Ew & El).
  { unfold zoomS in E1, E2. destruct (charge_budget _ _) as [n1 res1] in E1. destruct (charge_budget _ _) as [n2 res2] in E2. by injection E2 as <- _; injection E1 as <- _. }
  eexists. split; [|split_and!; [simpl; by rewrite Em|done|done]].
  cbn [settle sset sget sides m_best valid empty_mirror on_bid on_ask]. rewrite !updated_empty. unfold mirrors. cbn [sides m_best valid].
  assert (Sided (on_bid x) (on_ask x) = x) as Ex by by destruct x. split_and!; [intros []; simpl; [apply (extreme_best Bid)|apply (extreme_best Ask)]|done|apply Hi|].
  simpl. rewrite Ex. done.
Qed.

Lemma initial_books_ok lim bs : ∀ ks (r r' : Rec) u, forS (initial_book py_repr bs) ks r = (r', Ok u) → NoDup ks → (∀ k, k ∈ ks → mirror r !! k = Some empty_mirror) →
  (∀ k, k ∈ ks → ∃ b, bs !! k = Some b ∧ book_inv b ∧ limit b = lim k) →
  (∀ k, k ∈ ks → ∃ b m, bs !! k = Some b ∧ mirror r' !! k = Some m ∧ mirrors b m ∧ limit b = lim k) ∧ (∀ k, k ∉ ks → mirror r' !! k = mirror r !! k) ∧ writer r' = writer r.
Proof.
  induction ks as [|k ks IH]; intros r r' u E Hnd Hm Hb; simpl in E.
  - apply mretS_ok in E as [-> _]. split_and!; [by intros k ?%elem_of_nil|done|done].
  - apply stbind_ok in E as (r1 & u1 & E1 & E). apply NoDup_cons in Hnd as [Hk Hnd]. destruct (Hb k) as (b & Hbk & Hi & Hl); [left|].
    destruct (initial_book_ok _ _ _ _ _ _ E1 (Hm k (list_elem_of_here _ _)) Hbk Hi) as (m & Hmir & Em & Ew & _).
    destruct (IH r1 r' u E Hnd) as (Hin & Hout & Ew').
    { intros k' Hk'. rewrite Em, lookup_insert_ne; [apply Hm; by right|by intros ->]. }
    { intros k' Hk'. apply Hb. by right. }
    split_and!; [|intros k' [Hne Hk']%not_elem_of_cons; rewrite Hout by done; rewrite Em; by rewrite lookup_insert_ne|congruence].
    intros k' [->|Hk']%elem_of_cons; [|by apply Hin]. exists b, m. rewrite Hout by done. by rewrite Em, lookup_insert_eq.
Qed.

Definition begin (bs : gmap key Book) (scoped : gset key) : ST Rec () := _ ← create plans; initial plans start py_repr bs scoped.

Lemma levels_begin_ok lim d scoped n w (r' : Rec) u : begin (books d) scoped (new_recorder plans n w) = (r', Ok u) → rows w = [] →
  (∀ k, is_Some (plans !! k) → ∃ b, books d !! k = Some b ∧ book_inv b ∧ limit b = lim k) → level_inv lim d (0, scoped) r' ∧ is_Some (lazy r').
Proof.
  unfold begin, create, initial. intros E Hw Hb. apply stbind_ok in E as (r1 & u1 & E1 & E). apply stbind_ok in E as (r2 & u2 & E2 & ->%modifyS_ok).
  assert (mirror r1 = (λ _, empty_mirror) <$> plans ∧ writer r1 = w) as [Em Ew].
  { unfold on_budget, zoomS in E1. destruct (charge_budget _ _) as [n1 res1]. by injection E1 as <- _. }
  assert (∀ k, k ∈ map fst (map_to_list plans) ↔ is_Some (plans !! k)) as Hks.
  { intros k. rewrite list_elem_of_fmap. split; [intros ([k' p] & -> & Hp%elem_of_map_to_list); by exists p|intros [p Hp]; exists (k, p); by rewrite elem_of_map_to_list]. }
  destruct (initial_books_ok lim (books d) _ _ _ _ E2) as (Hin & _ & Ew2).
  - apply NoDup_fst_map_to_list.
  - intros k [p Hp]%Hks. by rewrite Em, lookup_fmap, Hp.
  - intros k Hk%Hks. by apply Hb.
  - split; [|by eexists]. split; [intros k Hk%Hks; by apply Hin|]. exists ∅. split; [|done]. unfold read_back. simpl. by rewrite Ew2, Ew, Hw.
Qed.

(** ** The collector *)
(** [Collector._advance] and [Collector.cut], for this stream: the open scope and its books. *)
Fixpoint play (es : list event) (d : Decoder) (cur : Z * gset key) : ST Rec (Decoder * (Z * gset key)) :=
  match es with
  | [] => mret (d, cur)
  | Crossing scope at_ scoped sequence :: es => _ ← open_scope plans scopes scope at_ scoped sequence; play es d (scope, scoped)
  | Applied sequence raw time body :: es =>
      let (d', x) := Decoder.cut body d in
      _ ← liftR x;
      _ ← cut plans scopes start py_repr body (books d') sequence raw time cur.2 cur.1;
      play es d' cur
  end.

Definition published_events (lim : key → Z) (es : list event) : Prop :=
  Forall (λ e, match e with Applied _ _ _ body => published_at plans lim body | Crossing _ _ _ _ => True end) es.

Lemma levels_play_ok lim es : ∀ d cur d' cur' counting (r r' : Rec), play es d cur r = (r', Ok (d', cur')) → level_inv lim d cur r → published_events lim es →
  in_order start counting es → (lazy r = None → counting = true) → level_inv lim d' cur' r'.
Proof.
  induction es as [|[scope at_ scoped sequence|sequence raw time body] es IH]; intros d cur d' cur' counting r r' E Hinv Hpub Hord Hc; simpl in E.
  - apply mretS_ok in E as [-> E]. by injection E as -> ->.
  - apply stbind_ok in E as (r1 & u1 & E1 & E). apply Forall_cons in Hpub as [_ Hpub]. destruct Hinv as (Htr & held & Hh & Hcur).
    destruct (levels_open_scope_ok _ _ _ _ _ _ _ _ _ E1 (tracked_mirrored _ _ _ Htr) Hh Hcur) as (Em & El & held1 & Hh1 & Hc1).
    eapply (IH d (scope, scoped)); [exact E| |done|exact Hord|done]. split; [by rewrite Em|]. exists held1. rewrite El, Em. done.
  - destruct (Decoder.cut body d) as [d1 x] eqn:Ed. apply stbind_ok in E as (? & u1 & [-> ->]%liftR_ok & E). apply stbind_ok in E as (r1 & u2 & E1 & E).
    apply Forall_cons in Hpub as [Hp Hpub]. destruct Hord as [Hg Hord].
    destruct (levels_cut_ok lim body d d1 u1 r r1 u2 cur sequence raw time Ed E1 Hinv Hp) as [Hinv1 Hl1]; [by auto|].
    eapply (IH d1 cur); [exact E|done|done|exact Hord|]. intros [Hl|Hl]%Hl1; [by rewrite (Hc Hl)|]. rewrite (proj2 (Z.leb_le _ _) Hl). apply orb_true_r.
Qed.

(** ** The rows and the books *)
Definition book_side (b : Book) (s : side) : ladder := match levels b (side_name s) None with Ok l => list_to_map l | Err _ => ∅ end.
(** The ladders the decoder's books give a written book: a Kalshi book's asks are the
    bids of its complement seen from the other side. *)
Definition book_ladders (bs : gmap key Book) (w : key) : ladder * ladder :=
  match bs !! w with
  | Some b =>
      if negb (String.eqb (validity b) "usable") then (∅, ∅)
      else (book_side b Bid,
            if is_kalshi plans w then
              match counter plans scopes w with
              | Some c => match bs !! c with Some bc => project (unit_of plans w) (book_side bc Bid) | None => ∅ end
              | None => ∅
              end
            else book_side b Ask)
  | None => (∅, ∅)
  end.

Lemma mirror_side b m s : mirrors b m → book_side b s = if valid m then sget s (sides m) else ∅.
Proof.
  intros (_ & Hv & _ & Hlev). unfold book_side. destruct (valid m).
  - symmetry in Hv. apply String.eqb_eq in Hv. destruct Hlev as [Hr Hq]. rewrite (levels_rep b (sides m) s None) by done. apply ladder_levels_map.
  - unfold levels. assert (side_of (side_name s) = Some s) as -> by (by destruct s). cbn [mbind result_bind require]. by rewrite <- Hv.
Qed.
Lemma shown_books lim bs mm w : tracked plans lim bs mm → written w → shown mm w = book_ladders bs w.
Proof.
  intros Ht Hw. unfold shown, LevelsRows.shown, book_ladders. destruct (Ht w (written_planned _ _ _ _ Hw)) as (b & m & -> & -> & Hm & _).
  rewrite !(mirror_side b m) by done. pose proof Hm as (_ & <- & _). destruct (valid m); [|done]. simpl. f_equal.
  destruct (is_kalshi plans w); [|done]. destruct (counter plans scopes w) as [c|] eqn:Ec; [|done].
  apply (counter_some plans scopes one_venue) in Ec as [Hc _]. destruct (Ht c (written_planned _ _ _ _ Hc)) as (bc & mc & -> & Hmc & Hmirc & _).
  unfold bids_of. by rewrite Hmc, (mirror_side bc mc).
Qed.

(** The recorder's check of a mirror never fails, and needs no part of the run to be told so. *)
Lemma check_passes lim d cur (r : Rec) k b : level_inv lim d cur r → is_Some (plans !! k) → books d !! k = Some b → check k b r = (r, Ok ()).
Proof.
  intros [Ht _] Hk Hb. destruct (Ht k Hk) as (b' & m & Hb' & Hm & Hmir & _). rewrite Hb in Hb'. injection Hb' as <-.
  unfold check, mirror_at, mbind, ST_bind, getS. rewrite Hm. cbn [mret ST_ret liftR]. rewrite (mirror_top_ok b m Bid), (mirror_top_ok b m Ask) by done.
  destruct (top_shown b m Bid Hmir) as [tb Eb], (top_shown b m Ask Hmir) as [ta Ea]. unfold best_bid, best_ask. rewrite Eb, Ea, decide_True by done.
  by rewrite bool_decide_eq_true_2, (mirrors_bare b m Hmir).
Qed.

(** C7. The recorded level rows rebuild the decoder's books: over any accepted run of cuts
    and scope crossings, from the initial books and with an empty file, reading the rows
    back (full ladders, then signed changes) never fails and gives, for every written book of
    the open scope, exactly the ladders of the decoder's book, a Kalshi book's asks being
    its complement's bids seen from the other side; and every mirror agrees with its book. *)
Theorem level_rows_rebuild_books lim n w scoped es d0 d cur (r1 r2 : Rec) :
  (∀ k, is_Some (plans !! k) → ∃ b, books d0 !! k = Some b ∧ book_inv b ∧ limit b = lim k) → rows w = [] →
  begin (books d0) scoped (new_recorder plans n w) = (r1, Ok ()) → play es d0 (0, scoped) r1 = (r2, Ok (d, cur)) →
  published_events lim es → in_order start false es →
  ∃ held, iter_levels (rows (writer r2)) = Ok held ∧
    (lazy r2 = None → ∀ w i, w ∈ cur.2 → index !! w = Some i → held !! (cur.1, i) = Some (book_ladders (books d) w)) ∧
    ∀ k b, is_Some (plans !! k) → books d !! k = Some b → check k b r2 = (r2, Ok ()).
Proof.
  intros Hbooks Hrows Hbegin Hplay Hpub Hord. destruct (levels_begin_ok lim d0 scoped n w r1 () Hbegin Hrows Hbooks) as [Hinv1 Hlazy].
  assert (level_inv lim d cur r2) as Hinv.
  { apply (levels_play_ok lim es d0 (0, scoped) d cur false r1 r2); try done. intros E. rewrite E in Hlazy. by destruct Hlazy. }
  pose proof Hinv as (Htr & held & Hh & Hcur). exists held. split_and!; [done| |intros k b; by eapply check_passes].
  intros El w' i Hw Hi. rewrite El in Hcur. assert (written w') as Hwr by (apply index_written; by exists i).
  rewrite (Hcur w' Hw Hwr i Hi). f_equal. by eapply shown_books.
Qed.
End Run.

(** ** A run *)
Definition level_new : LevelRecorder (W := list json) := new_recorder level_plans 0 [].
Definition level_begun : LevelRecorder (W := list json) := (begin level_plans 100 level_repr (books level_decoder) level_scoped level_new).1.
Definition level_played : LevelRecorder (W := list json) * result (Decoder * (Z * gset key)) := play level_plans level_scopes 100 level_repr level_events level_decoder (0, level_scoped) level_begun.
Definition level_end : Decoder * (Z * gset key) := from_result (level_decoder, (0, ∅)) level_played.2.

Lemma level_begin_ok : begin level_plans 100 level_repr (books level_decoder) level_scoped level_new = (level_begun, Ok ()).
Proof. unfold level_begun. refine (succeeded_unit _ _). by vm_compute. Qed.
Lemma level_play_ok : play level_plans level_scopes 100 level_repr level_events level_decoder (0, level_scoped) level_begun = (level_played.1, Ok (level_end.1, level_end.2)).
Proof. unfold level_end, level_played. refine (succeeded _ (level_decoder, (0, ∅)) _). by vm_compute. Qed.

Lemma level_books k : is_Some (level_plans !! k) → ∃ b, books level_decoder !! k = Some b ∧ book_inv b ∧ limit b = 100.
Proof.
  intros [p [Hk _]%level_plans_lookup]. exists (new_book 2). split; [|split; [by apply new_book_inv|done]].
  destruct Hk as [-> | [-> | ->]]; by vm_compute.
Qed.

(** A body is well published when each of its transitions is. *)
Lemma level_published events ts : Forall (published 100) ts → published_at level_plans (λ _, 100) (level_cut events ts).
Proof.
  rewrite Forall_forall. intros Hts k _. apply Forall_forall. intros t Ht. apply Hts. unfold transitions_for in Ht. by apply list_elem_of_filter in Ht as [_ ?].
Qed.
Lemma level_other_published k previous kind fields : jeq_str (JStr kind) "snapshot" = false → published 100 (level_transition k previous (JObj (("kind", JStr kind) :: fields)%string)).
Proof. intros Hkind d v bids asks [= <-] [= <-] E. congruence. Qed.
Lemma level_snapshot_published k previous : published 100 (level_transition k previous demo_snapshot).
Proof. intros d v bids asks [= <-] [= <-] _ [= <-] [= <-]. destruct demo_ladders_wire. eauto. Qed.
Lemma level_events_published : published_events level_plans (λ _, 100) level_events.
Proof.
  unfold published_events, level_events.
  repeat first [apply Forall_cons; split | exact I | apply level_published | apply level_snapshot_published | (apply level_other_published; reflexivity) | apply Forall_nil; exact I].
Qed.

Lemma level_rows_rebuild_books_witness :
  ∃ held, iter_levels (writer level_played.1) = Ok held ∧ length (writer level_played.1) = 7%nat ∧
    held !! (1, 0) = Some ({[3 := 5; 40 := 7]}, {[58 := 1; 59 := 4; 60 := 7; 97 := 3]}) ∧ held !! (1, 1) = Some (∅, ∅).
Proof.
  destruct (level_rows_rebuild_books level_plans level_scopes 100 level_repr level_one_venue (λ _, 100) 0 [] level_scoped level_events level_decoder level_end.1 level_end.2
    level_begun level_played.1) as (held & Hread & Hheld & _).
  - apply level_books.
  - reflexivity.
  - exact level_begin_ok.
  - exact level_play_ok.
  - exact level_events_published.
  - simpl. split_and!; lia || done.
  - assert (lazy level_played.1 = None) as Hlazy by (vm_compute; reflexivity). exists held. split_and!; [done|by vm_compute| |].
    + refine (eq_trans (Hheld Hlazy demo_yes 0 _ _) _); by vm_compute.
    + refine (eq_trans (Hheld Hlazy demo_native 1 _ _) _); by vm_compute.
Defined.

(** An invalidation row need not have empty ladders: when the complement alone is invalidated
    the row of its Yes book keeps the Yes book's bids. *)
Definition complement_invalidated : list event := level_events ++
  [Applied 5 170 170 (level_cut [] [level_transition demo_no 2 (JObj [("kind", JStr "invalidation"); ("reason", JNull)]%string)])].
Fact invalidation_row_keeps_bids : ∃ r row,
  play level_plans level_scopes 100 level_repr complement_invalidated level_decoder (0, level_scoped) level_begun = r ∧ succeeds r.2 = true ∧
  list.last (writer r.1) = Some row ∧ jget row "cause" = Ok (JStr "invalidation") ∧
  jget row "bids" = Ok (JArr [JArr [JStr "40"; JStr "7"]; JArr [JStr "3"; JStr "5"]])%string.
Proof. eexists _, _. split; [reflexivity|]. by vm_compute. Qed.
