(* ===== verification/Tops.v ===== *)
(** * Top-of-book rows of the market profile ([src/replay/economic_sdk/transitions.py])

    The recorder remembers the validity and best quotes of every planned book as of the
    last cut; it writes a [top] row when the quotes of a written book change and at every
    snapshot or invalidation, and a [trade] row per observed trade.  [iter_transitions] of
    [profile_streams.py] reads the rows back with the moves between them. *)
From stdpp Require Import gmap strings sorting.
From S2P Require Import Prelude Order Wire Json LineWriter EconomicTypes BookProtocol ProfileStreams.

Abbreviation quote := (option (Z * Z)).
(** [(validity, bid, ask)]. *)
Abbreviation top_t := (string * quote * quote)%type.

(** [quote_text]. *)
Definition quote_text (q : quote) : result json :=
  match q with
  | None => Ok JNull
  | Some (p, n) => p ← text p; n ← text n; Ok (JArr [JStr p; JStr n])
  end.

Section TransitionRecorder.
Context {W : Type} `{RowWriter W}.
Context (plans : gmap key Plan) (scopes : list (list Member)) (start : Z) (py_repr : json → string).

(** ** [book_table] *)
Definition add_member (market : string) (members : gmap key string) (k : key) : gmap key string :=
  match plans !! k, members !! k with Some _, None => <[k := market]> members | _, _ => members end.
Definition members : gmap key string :=
  foldl (λ acc m, foldl (add_member (market_id m)) acc (member_books m)) ∅ (concat scopes).
(** The other side of a Kalshi instrument. *)
Definition other_side (k : key) : key := (k.1, if String.eqb k.2 "outcome" then "complement" else "outcome")%string.
Definition table_row (tick_atoms : gmap string json) (k : key) : result json :=
  plan ← (match plans !! k with Some p => Ok p | None => Err KeyError end);
  let projected := String.eqb (venue plan) "kalshi" in
  market ← (match members !! k with Some m => Ok m | None => Err KeyError end);
  tick ← (match tick_atoms !! venue plan with Some t => Ok t | None => Err KeyError end);
  Ok (JObj [("instrument", JStr k.1); ("orientation", JStr k.2); ("venue", JStr (venue plan)); ("market_id", JStr market);
            ("price_scale", plan_price_scale plan); ("quantity_scale", plan_quantity_scale plan); ("tick_atoms", tick);
            ("ask_source", JStr (if projected then "projected" else "native"));
            ("ask_source_book", if projected && bool_decide (is_Some (plans !! other_side k)) then JArr [JStr (other_side k).1; JStr (other_side k).2] else JNull)]%string).
Definition book_table (tick_atoms : gmap string json) : result (list json) := mapR (table_row tick_atoms) (table plans scopes).

(** [Collector.counterpart]. *)
Definition counterpart (k : key) : option key :=
  if is_kalshi plans k && bool_decide (is_Some (plans !! other_side k)) then Some (other_side k) else None.

(** ** The recorder *)
Record TransitionRecorder := mkTransitionRecorder {
  state : gmap key top_t; last : gmap key top_t; lazy : option (Z * Z * gset key); budget : Z; writer : W;
}.
Definition set_state v r := mkTransitionRecorder v (last r) (lazy r) (budget r) (writer r).
Definition set_last v r := mkTransitionRecorder (state r) v (lazy r) (budget r) (writer r).
Definition set_lazy v r := mkTransitionRecorder (state r) (last r) v (budget r) (writer r).
Definition set_budget v r := mkTransitionRecorder (state r) (last r) (lazy r) v (writer r).
Definition set_writer v r := mkTransitionRecorder (state r) (last r) (lazy r) (budget r) v.
Abbreviation R := (ST TransitionRecorder).
Definition write (v : json) : R () := zoomS writer set_writer (append v).

Definition new_recorder (budget : Z) (w : W) : TransitionRecorder := mkTransitionRecorder ∅ ∅ None budget w.
Definition create : R () := zoomS budget set_budget (charge_budget (Z.of_nat (base.size plans) * STATE)).

(** [_remember]: what is kept of a book. *)
Definition observe (k : key) (b : Book) : result top_t :=
  v ← validity_text py_repr b;
  if negb (String.eqb v "usable") then Ok (v, None, None)
  else
    ask ← (if is_kalshi plans k then Ok None else best_ask b);
    bid ← best_bid b;
    Ok (v, bid, ask).
Definition remember (books : gmap key Book) (k : key) : R () :=
  b ← liftR (match books !! k with Some b => Ok b | None => Err KeyError end);
  s ← liftR (observe k b);
  modifyS (λ r, set_state (<[k := s]> (state r)) r).
Definition initial (books : gmap key Book) (scoped : gset key) : R () :=
  _ ← forS (remember books) (map fst (map_to_list plans));
  modifyS (set_lazy (Some (0, start, scoped))).

(** [_top], of a lookup of remembered states. *)
Definition top_with (look : key → result top_t) (k : key) : result top_t :=
  s ← look k;
  let '(v, bid, ask) := s in
  if negb (String.eqb v "usable") then Ok (v, None, None)
  else if is_kalshi plans k then
    ask ← (match counterpart k with
           | None => Ok None
           | Some other =>
               o ← look other;
               let '(v', bid', _) := o in
               Ok (if String.eqb v' "usable" then (match bid' with Some (p, q) => Some (unit_of plans k - p, q) | None => None end) else None)
           end);
    Ok (v, bid, ask)
  else Ok (v, bid, ask).
Definition state_of (r : TransitionRecorder) (k : key) : result top_t := match state r !! k with Some s => Ok s | None => Err KeyError end.
Definition top (k : key) : R top_t := r ← getS; liftR (top_with (state_of r) k).

(** *** Rows *)
Definition top_row (scope : Z) (k : key) (sequence time : Z) (cause : json) (t : top_t) (extra : result (list (string * json))) : R () :=
  extra ← liftR extra;
  bid ← liftR (quote_text t.1.2); ask ← liftR (quote_text t.2);
  row ← liftR (row plans scopes "top" scope k sequence time
    ([("cause"%string, cause); ("validity"%string, JStr t.1.1); ("bid"%string, bid); ("ask"%string, ask)] ++ extra));
  write row.
(** [_opening]. *)
Definition opening (scope : Z) (k : key) (at_ sequence : Z) : R () :=
  t ← top k;
  _ ← modifyS (λ r, set_last (<[k := t]> (last r)) r);
  top_row scope k sequence at_ (JStr "open") t (Ok []).
Definition flush (sequence : Z) : R () := ProfileStreams.flush plans scopes lazy set_lazy opening sequence.
Definition open_scope (scope at_ : Z) (scoped : gset key) (sequence : Z) : R () :=
  ProfileStreams.open_scope plans scopes lazy set_lazy opening scope at_ scoped sequence.

(** *** [cut] *)
(** The trades of the cut, by written book. *)
Definition take_trade (scoped : gset key) (trades : gmap key (list json)) (o : json) : result (gmap key (list json)) :=
  e ← jget o "event"; v ← jget e "value"; k ← json_key v;
  match k with
  | Some k =>
      if bool_decide (k ∈ scoped) then
        d ← jget o "disposition";
        if negb (jeq_str d "duplicate") && bool_decide (is_Some (index plans scopes !! k)) then
          plan ← (match plans !! k with Some p => Ok p | None => Err KeyError end);
          p ← jget v "price"; ps ← jget p "scale";
          if json_eqb ps (plan_price_scale plan) then
            q ← jget v "quantity"; qs ← jget q "scale";
            Ok (if json_eqb qs (plan_quantity_scale plan) then <[k := default [] (trades !! k) ++ [o]]> trades else trades)
          else Ok trades
        else Ok trades
      else Ok trades
  | None => Ok trades
  end.
Definition trade_row (scope sequence time : Z) (k : key) (o : json) : R () :=
  v ← liftR (e ← jget o "event"; jget e "value");
  clock ← liftR (match v with JObj d => Ok (default JNull (dget d "venue_time")) | _ => Err AttributeError end);
  price ← liftR (p ← jget v "price"; a ← jget p "atoms"; a ← py_int a; text a);
  qty ← liftR (q ← jget v "quantity"; a ← jget q "atoms"; a ← py_int a; text a);
  aggressor ← liftR (jget v "aggressor");
  disposition ← liftR (jget o "disposition");
  extra ← liftR (venue_keys (match clock with JNull => [] | _ => [clock] end));
  row ← liftR (row plans scopes "trade" scope k sequence time
    ([("price"%string, JStr price); ("qty"%string, JStr qty); ("aggressor"%string, aggressor); ("disposition"%string, disposition)] ++ extra));
  write row.
Definition write_top (clocks : gmap key (list json)) (scope sequence time : Z) (k : key) (cause : json) : R () :=
  t ← top k;
  r ← getS;
  l ← liftR (match last r !! k with Some l => Ok l | None => Err KeyError end);
  if negb (bool_decide (t = l)) || negb (jeq_str cause "operations") then
    _ ← modifyS (λ r, set_last (<[k := t]> (last r)) r);
    top_row scope k sequence time cause t (venue_keys (default [] (clocks !! k)))
  else mret ().
Definition write_book (clocks : gmap key (list json)) (causes : gmap key json) (trades : gmap key (list json)) (scope sequence time : Z) (k : key) : R () :=
  _ ← (match causes !! k with Some cause => write_top clocks scope sequence time k cause | None => mret () end);
  forS (trade_row scope sequence time k) (default [] (trades !! k)).

Definition cut (body : json) (books : gmap key Book) (sequence raw time : Z) (scoped : gset key) (scope : Z) : R () :=
  let gated := start <=? raw in
  _ ← (if gated then flush sequence else mret ());
  '(keys, causes) ← liftR (touches plans scopes body);
  _ ← forS (remember books) keys;
  if negb gated then mret () else
  '(clocks, observed) ← liftR (scan plans scopes body true);
  trades ← liftR (foldR (take_trade scoped) ∅ observed);
  forS (write_book clocks causes trades scope sequence time)
    (in_index_order plans scopes (filter (λ k, k ∈ scoped) (elements (dom causes ∪ dom trades)))).
End TransitionRecorder.

(** ** [iter_transitions] *)

(** [int(new[0]) - int(old[0])]. *)
Definition move (old new : json) : result (option Z) :=
  match old, new with
  | JNull, _ | _, JNull => Ok None
  | _, _ => n ← jindex new false 0; n ← py_int n; o ← jindex old false 0; o ← py_int o; Ok (Some (n - o))
  end.
Definition ticks (tick : Z) (m : option Z) : result (option Z) :=
  match m with
  | None => Ok None
  | Some m => if tick =? 0 then Err (Raised "ZeroDivisionError" "") else Ok (if m mod tick =? 0 then Some (m / tick) else None)
  end.
Definition number (m : option Z) : json := match m with Some n => JInt n | None => JNull end.
Definition extend (row : json) (fields : list (string * json)) : result json :=
  match row with JObj d => Ok (JObj (d ++ fields)) | _ => Err (TypeError "item assignment") end.

Definition side_moves (tick : Z) (name : string) (before : option json) (row : json) : result (list (string * json)) :=
  let old := default JNull before in
  new ← jget row name;
  m ← move old new; t ← ticks tick m;
  Ok [(("prev_" +:+ name)%string, old); ((name +:+ "_move_atoms")%string, number m); ((name +:+ "_move_ticks")%string, number t)].
Definition tick_of (books : list json) (b : Z) : result Z :=
  let i := if b <? 0 then b + Z.of_nat (length books) else b in
  if i <? 0 then Err IndexError else
  match books !! Z.to_nat i with
  | Some v => t ← jget v "tick_atoms"; py_int t
  | None => Err IndexError
  end.
Definition read_row (books : list json) (x : gmap (Z * Z) (json * json) * list json) (row : json) : result (gmap (Z * Z) (json * json) * list json) :=
  let '(previous, out) := x in
  kind ← jget row "type";
  if jeq_str kind "top" then
    s ← jget row "scope"; b ← jget row "book";
    match s, b with
    | JInt s, JInt b =>
        cause ← jget row "cause";
        let before := if jeq_str cause "open" then None else previous !! (s, b) in
        tick ← tick_of books b;
        bid ← side_moves tick "bid" (fst <$> before) row;
        ask ← side_moves tick "ask" (snd <$> before) row;
        row' ← extend row (bid ++ ask);
        nb ← jget row "bid"; na ← jget row "ask";
        Ok (<[(s, b) := (nb, na)]> previous, out ++ [row'])
    | _, _ => Err (TypeError "not a written row")
    end
  else Ok (previous, out ++ [row]).
Definition iter_transitions (books rows : list json) : result (gmap (Z * Z) (json * json) * list json) := foldR (read_row books) (∅, []) rows.
