(* ===== verification/TopsProps.v ===== *)
(** * The top-of-book stream follows the quotes

    Along any accepted run, the last [top] row of every written book of the open scope shows
    the best levels of the ladders of the decoder's books, the ladders that the level rows
    rebuild; a row caused by operations always differs from the row before it, and
    [iter_transitions] reads the rows back with those quotes and moves. *)
From stdpp Require Import gmap strings sorting.
From S2P Require Import Prelude Order Wire Json LineWriter EconomicTypes BookProtocol Decoder ViewsCuts ProfileStreams ProfileDemo LevelsBooks LevelsCuts LevelsRows LevelsProps Tops.

(** ** The last row of a book *)

(** What a [top] row shows, and for which scope and book. *)
Definition shows (row : json) : option (Z * Z * (json * json * json)) :=
  match jget row "type" with
  | Ok t =>
      if jeq_str t "top" then
        match jget row "scope", jget row "book", jget row "validity", jget row "bid", jget row "ask" with
        | Ok (JInt s), Ok (JInt b), Ok v, Ok bid, Ok ask => Some (s, b, (v, bid, ask))
        | _, _, _, _, _ => None
        end
      else None
  | Err _ => None
  end.
Definition note (held : gmap (Z * Z) (json * json * json)) (row : json) : gmap (Z * Z) (json * json * json) :=
  match shows row with Some (s, b, t) => <[(s, b) := t]> held | None => held end.
Definition last_tops (rows : list json) : gmap (Z * Z) (json * json * json) := foldl note ∅ rows.

(** Every row caused by operations differs from the last row of its book. *)
Definition news (held : gmap (Z * Z) (json * json * json)) (row : json) : Prop :=
  ∀ s b t, shows row = Some (s, b, t) → jget row "cause" = Ok (JStr "operations") → held !! (s, b) ≠ Some t.
Fixpoint all_news (held : gmap (Z * Z) (json * json * json)) (rows : list json) : Prop :=
  match rows with [] => True | row :: rows => news held row ∧ all_news (note held row) rows end.

Lemma last_tops_snoc rows row : last_tops (rows ++ [row]) = note (last_tops rows) row.
Proof. unfold last_tops. by rewrite foldl_app. Qed.
Lemma all_news_snoc held rows row : all_news held rows → news (foldl note held rows) row → all_news held (rows ++ [row]).
Proof. revert held. induction rows as [|r rows IH]; intros held; simpl; [done|]. intros [? ?] ?. split; [done|]. by apply IH. Qed.

(** The three texts of a top. *)
Definition top_json (t : top_t) : result (json * json * json) :=
  bid ← quote_text t.1.2; ask ← quote_text t.2; Ok (JStr t.1.1, bid, ask).
Lemma quote_text_inj q q' v : quote_text q = Ok v → quote_text q' = Ok v → q = q'.
Proof.
  destruct q as [[p n]|], q' as [[p' n']|]; simpl; intros E E'; res_inv; try done.
  repeat match goal with H : text _ = Ok _ |- _ => apply int_of_text in H end. congruence.
Qed.
Lemma top_json_inj t t' j : top_json t = Ok j → top_json t' = Ok j → t = t'.
Proof.
  destruct t as [[v b] a], t' as [[v' b'] a']. unfold top_json. simpl. intros E E'. res_inv.
  f_equal; [f_equal|]; by eapply quote_text_inj.
Qed.

(** ** The best level of a ladder *)

(** [q] is the best level of the ladder [l]: its highest bid or its lowest ask. *)
Definition best_level (s : side) (l : ladder) (q : quote) : Prop :=
  match q with
  | None => l = ∅
  | Some (p, n) => l !! p = Some n ∧ ∀ p', is_Some (l !! p') → match s with Bid => p' ≤ p | Ask => p ≤ p' end
  end.
(** How a row shows a quote. *)
Definition shown_quote (q : quote) : json := match q with None => JNull | Some (p, n) => JArr [JStr (str_int p); JStr (str_int n)] end.

Lemma quote_text_shown q v : quote_text q = Ok v → v = shown_quote q.
Proof. destruct q as [[p n]|]; simpl; intros E; res_inv; [|done]. repeat match goal with H : text _ = Ok _ |- _ => apply text_bound in H as -> end. done. Qed.
Lemma ladder_best s l : best_level s l (head (ladder_levels s l)).
Proof.
  unfold ladder_levels. pose proof (sorted_prices_elem s (dom l)) as He. pose proof (sorted_prices_sorted s (dom l)) as Hs.
  destruct (sorted_prices s (dom l)) as [|p ps]; simpl.
  - apply dom_empty_inv_L. apply set_eq. intros p. rewrite <- He. set_solver.
  - assert (is_Some (l !! p)) as [n Hn] by (apply elem_of_dom, He; left). rewrite Hn. split; [done|]. intros p' Hp'.
    apply StronglySorted_inv in Hs as [_ Hs]. apply elem_of_dom, He, elem_of_cons in Hp' as [->|Hp']; [by destruct s|].
    pose proof (proj1 (Forall_forall _ _) Hs p' Hp') as Ha. unfold ahead in Ha. cbv beta in Ha. destruct s; by apply Z.leb_le in Ha.
Qed.
Lemma best_level_unique s l q q' : best_level s l q → best_level s l q' → q = q'.
Proof.
  destruct q as [[p n]|], q' as [[p' n']|]; simpl; [|by intros [E _] ->; rewrite lookup_empty in E|by intros -> [E _]; rewrite lookup_empty in E|done].
  intros [E H] [E' H']. specialize (H p' (mk_is_Some _ _ E')). specialize (H' p (mk_is_Some _ _ E)). assert (p = p') as -> by (destruct s; lia). congruence.
Qed.
Lemma best_is s l q : best_level s l q → q = head (ladder_levels s l).
Proof. intros H. by eapply best_level_unique, ladder_best. Qed.
Lemma best_projected unit l q : best_level Bid l q → best_level Ask (Levels.project unit l) (match q with Some (p, n) => Some (unit - p, n) | None => None end).
Proof.
  assert (Inj (=) (=) (λ p : Z, unit - p)) as Hinj by (intros x y; lia). unfold Levels.project.
  destruct q as [[p n]|]; simpl; [|intros ->; by apply kmap_empty]. intros [Hn Hp]. split; [by apply (lookup_kmap_Some (λ p, unit - p)); exists p|].
  intros p' [n' (p0 & -> & E)%(lookup_kmap_Some (λ p, unit - p))]. specialize (Hp p0 (mk_is_Some _ _ E)). lia.
Qed.

(** The best level of a book, from the levels it lists. *)
Lemma book_best b s : book_inv b → validity b = "usable"%string → ∃ q, BookProtocol.top b s = Ok q ∧ best_level s (book_side b s) q.
Proof.
  intros [[mm Hr] Hq] Hu. specialize (Hq Hu). exists (head (ladder_levels s (sget s mm))). split; [by apply top_rep|].
  unfold book_side. rewrite (levels_rep b mm s None) by done. cbn [cap]. rewrite ladder_levels_map. apply ladder_best.
Qed.
Lemma book_unusable b s : validity b ≠ "usable"%string → book_side b s = ∅.
Proof.
  intros Hu%String.eqb_neq. unfold book_side, levels. assert (side_of (side_name s) = Some s) as -> by (by destruct s). cbn [mbind result_bind require]. by rewrite Hu.
Qed.
Lemma validity_usable py_repr b v : validity_text py_repr b = Ok v → (v = "usable"%string ↔ validity b = "usable"%string).
Proof.
  unfold validity_text. destruct (String.eqb_spec (validity b) "usable") as [->|Hu]; [by intros [= <-]|].
  destruct (String.eqb_spec (validity b) "not_initialized") as [->|]; [by intros [= <-]|]. cbn [orb]. intros E. apply bind_ok in E as (kind & _ & [= <-]). split; done.
Qed.

Section Run.
Context {W : Type} `{RowWriter W}.
Context (plans : gmap key Plan) (scopes : list (list Member)) (start : Z) (py_repr : json → string).
(** The books of an instrument trade on one venue, are its outcome and its complement, and
    every planned book belongs to a member of some scope. *)
Context (one_venue : ∀ i o o' p p', plans !! (i, o) = Some p → plans !! (i, o') = Some p' → venue p = venue p').
Context (two_sided : ∀ k, is_Some (plans !! k) → k.2 = "outcome"%string ∨ k.2 = "complement"%string).
Context (all_present : ∀ k, is_Some (plans !! k) → k ∈ present plans scopes).
Abbreviation Rec := (TransitionRecorder (W := W)).
Abbreviation written := (λ w, written_of plans scopes w = Some w).
Abbreviation index := (index plans scopes).
Abbreviation state_of := (state_of (W := W)).
Abbreviation top_with := (top_with plans).
Abbreviation observe := (observe plans py_repr).

Lemma counterpart_written w o : written w → counterpart plans w = Some o → written_of plans scopes o = Some w ∧ is_Some (plans !! o).
Proof.
  unfold counterpart. intros Hw E. destruct (is_kalshi plans w) eqn:Hk; [|done]. cbn [andb] in E. case_bool_decide as Ho; [|done]. injection E as <-. split; [|done].
  destruct w as [i o]. unfold other_side in *. simpl in *. apply written_of_ok in Hw as [Hp Hw]. pose proof (present_planned _ _ _ Hp) as Hpl.
  destruct (two_sided _ Hpl) as [Eo|Eo]; simpl in Eo; subst o; simpl in *.
  - apply written_of_ok. split; [by apply all_present|]. unfold written_key. simpl. rewrite bool_decide_eq_true_2 by done.
    assert (is_kalshi plans (i, "complement"%string) = true) as ->; [|done]. destruct Ho as [p Ep], Hpl as [p' Ep']. unfold is_kalshi in *. rewrite Ep' in Hk. rewrite Ep.
    by rewrite (one_venue i "complement" "outcome" p p').
  - exfalso. unfold written_key in Hw. simpl in Hw. rewrite Hk in Hw. rewrite bool_decide_eq_true_2 in Hw by by apply all_present. done.
Qed.

Lemma top_ext look look' w : look w = look' w → (∀ o, counterpart plans w = Some o → look o = look' o) → top_with look w = top_with look' w.
Proof.
  intros Ew Eo. unfold top_with, Tops.top_with. rewrite Ew. destruct (look' w) as [[[v bid] ask]|]; [|done]. cbn [mbind result_bind].
  destruct (negb _); [done|]. destruct (is_kalshi plans w); [|done]. destruct (counterpart plans w) as [o|]; [|done]. by rewrite (Eo o).
Qed.

(** ** The rows of a recorder *)
Definition file (r : Rec) : gmap (Z * Z) (json * json * json) := last_tops (rows (writer r)).
Definition fresh_rows (r : Rec) : Prop := all_news ∅ (rows (writer r)).
(** The last row of [w] shows what the recorder holds as its last top. *)
Definition filed (r : Rec) (scope : Z) (w : key) : Prop :=
  ∀ i, index !! w = Some i → ∃ t j, last r !! w = Some t ∧ top_json t = Ok j ∧ file r !! (scope, i) = Some j.
Definition up_to_date (r : Rec) (w : key) : Prop := ∃ t, last r !! w = Some t ∧ top_with (state_of r) w = Ok t.

(** A row of the stream: a trade, or a top of a written book. *)
Definition row_ok (row : json) : Prop :=
  jget row "type" = Ok (JStr "trade") ∨
  ∃ d s i v b a bq aq c w, row = JObj d ∧ shows row = Some (s, i, (v, bq, aq)) ∧ quote_text b = Ok bq ∧ quote_text a = Ok aq ∧ jget row "cause" = Ok c ∧ index !! w = Some i.
Definition rows_ok (r : Rec) : Prop := Forall row_ok (rows (writer r)).

Lemma tops_write_ok (r r' : Rec) v u : Tops.write v r = (r', Ok u) →
  state r' = state r ∧ last r' = last r ∧ lazy r' = lazy r ∧ file r' = note (file r) v ∧ (fresh_rows r → news (file r) v → fresh_rows r') ∧ (rows_ok r → row_ok v → rows_ok r').
Proof.
  unfold Tops.write, zoomS. destruct (append v (writer r)) as [w' res] eqn:E. intros [= <- ->]. apply append_rows in E. unfold file, fresh_rows, rows_ok. simpl. rewrite E.
  split_and!; [done..|apply last_tops_snoc| |]; [|intros ? ?; by apply Forall_app; split; [|constructor]]. intros Hf Hn. by apply all_news_snoc.
Qed.

(** A top row just written for [w]. *)
Lemma top_row_ok scope w sequence time cause t extra (r r' : Rec) u :
  top_row plans scopes scope w sequence time cause t extra r = (r', Ok u) →
  state r' = state r ∧ last r' = last r ∧ lazy r' = lazy r ∧ ∃ i j, index !! w = Some i ∧ top_json t = Ok j ∧ file r' = <[(scope, i) := j]> (file r) ∧
    (fresh_rows r → (cause = JStr "operations" → file r !! (scope, i) ≠ Some j) → fresh_rows r') ∧ (rows_ok r → rows_ok r').
Proof.
  unfold top_row. intros E. apply stbind_ok in E as (? & ex & [-> _]%liftR_ok & E). apply stbind_ok in E as (? & bid & [-> Hb]%liftR_ok & E).
  apply stbind_ok in E as (? & ask & [-> Ha]%liftR_ok & E). apply stbind_ok in E as (? & row & [-> Hrow]%liftR_ok & E).
  destruct (tops_write_ok _ _ _ _ E) as (Es & El & Ez & Ef & Hf & Hok). split_and!; [done..|].
  unfold ProfileStreams.row in Hrow. apply bind_ok in Hrow as (i & Ei & Hrow). destruct (index !! w) as [i'|] eqn:Hi; [injection Ei as ->|done]. res_inv.
  exists i, (JStr t.1.1, bid, ask). split_and!; [done|unfold top_json; by rewrite Hb; simpl; rewrite Ha|done| |].
  - intros Hfr Hn. apply Hf; [done|]. intros s b t' Hs Hc. injection Hs as <- <- <-. injection Hc as ->. by apply Hn.
  - intros Hr. apply Hok; [done|]. right. eexists _, _, _, _, _, _, _, _, _, _. split_and!; try done. all: simpl; try done.
Qed.

(** What a run of writes keeps, and what it brings up to date. *)
Definition kept (r r' : Rec) : Prop := state r' = state r ∧ lazy r' = lazy r ∧ (fresh_rows r → fresh_rows r') ∧ (rows_ok r → rows_ok r').
Definition current (r : Rec) (scope : Z) (w : key) : Prop := filed r scope w ∧ up_to_date r w.

Lemma kept_trans r1 r2 r3 : kept r1 r2 → kept r2 r3 → kept r1 r3.
Proof. intros (E1 & E2 & E3 & E4) (F1 & F2 & F3 & F4). split_and!; [congruence..|auto|auto]. Qed.
Lemma kept_refl r : kept r r.
Proof. done. Qed.

(** A write of [w] brings it up to date and leaves the others. *)
Lemma renewed (r r1 r' : Rec) scope w i j t : index !! w = Some i → top_json t = Ok j → top_with (state_of r) w = Ok t →
  r1 = set_last (<[w := t]> (last r)) r → state r' = state r1 → last r' = last r1 → file r' = <[(scope, i) := j]> (file r1) →
  current r' scope w ∧ ∀ w', w' ≠ w → (filed r scope w' → filed r' scope w') ∧ (up_to_date r w' → up_to_date r' w').
Proof.
  intros Hi Hj Ht -> Es El Ef. assert (state_of r' = state_of r) as Hst by (unfold Tops.state_of; by rewrite Es). split.
  - split.
    + intros i' Hi'. assert (i' = i) as -> by congruence. exists t, j. rewrite El, Ef. simpl. by rewrite !lookup_insert_eq.
    + exists t. rewrite El, Hst. simpl. by rewrite lookup_insert_eq.
  - intros w' Hne. split.
    + intros Hf i' Hi'. destruct (Hf i' Hi') as (t' & j' & Hl & Hj' & Hfile). exists t', j'. rewrite El, Ef. simpl. rewrite lookup_insert_ne by done.
      split_and!; [done..|]. rewrite lookup_insert_ne; [done|]. intros [= ->]. apply Hne. by eapply index_inj.
    + intros (t' & Hl & Ht'). exists t'. rewrite El, Hst. simpl. by rewrite lookup_insert_ne.
Qed.

Lemma top_run w (r r' : Rec) t : Tops.top plans w r = (r', Ok t) → r' = r ∧ top_with (state_of r) w = Ok t.
Proof. unfold Tops.top. intros E. apply stbind_ok in E as (? & ? & [-> ->]%getS_ok & E). by apply liftR_ok in E as [-> E]. Qed.

Lemma opening_ok scope w at_ sequence (r r' : Rec) u : opening plans scopes scope w at_ sequence r = (r', Ok u) →
  kept r r' ∧ current r' scope w ∧ ∀ w', w' ≠ w → (filed r scope w' → filed r' scope w') ∧ (up_to_date r w' → up_to_date r' w').
Proof.
  unfold opening. intros E. apply stbind_ok in E as (? & t & [-> Ht]%top_run & E). apply stbind_ok in E as (r1 & ? & ->%modifyS_ok & E).
  destruct (top_row_ok _ _ _ _ _ _ _ _ _ _ E) as (Es & El & Ez & i & j & Hi & Hj & Ef & Hf & Hok). split.
  - split_and!; [done|done| |done]. intros Hfr. by apply Hf.
  - by eapply (renewed r).
Qed.

Lemma tops_openings_ok scope at_ sequence ws : ∀ (r r' : Rec) u, forS (λ k, opening plans scopes scope k at_ sequence) ws r = (r', Ok u) →
  kept r r' ∧ ∀ w, w ∈ ws ∨ current r scope w → current r' scope w.
Proof.
  induction ws as [|w ws IH]; intros r r' u E; simpl in E.
  - apply mretS_ok in E as [-> _]. split; [done|]. by intros w [?%elem_of_nil|].
  - apply stbind_ok in E as (r1 & u1 & E1 & E). destruct (opening_ok _ _ _ _ _ _ _ E1) as (Hk1 & Hc1 & Ho1). destruct (IH _ _ _ E) as (Hk2 & Hc2).
    split; [by eapply kept_trans|]. intros w' Hw'. apply Hc2. destruct (decide (w' = w)) as [->|Hne]; [by right|].
    destruct Hw' as [[->|]%elem_of_cons|[Hf Hu]]; [done|by left|]. right. split; by apply (Ho1 w' Hne).
Qed.

(** [flush] writes the scope the stream was told to open. *)
Lemma tops_flush_ok sequence (r r' : Rec) u cur : flush plans scopes sequence r = (r', Ok u) →
  match lazy r with Some (s, _, sc) => (s, sc) = cur | None => ∀ w, w ∈ cur.2 → written w → current r cur.1 w end →
  state r' = state r ∧ lazy r' = None ∧ (fresh_rows r → fresh_rows r') ∧ (rows_ok r → rows_ok r') ∧ ∀ w, w ∈ cur.2 → written w → current r' cur.1 w.
Proof.
  unfold flush, ProfileStreams.flush. intros E Hl. apply stbind_ok in E as (? & ? & [-> ->]%getS_ok & E). destruct (lazy r) as [[[s at_] sc]|] eqn:El.
  - subst cur. apply stbind_ok in E as (r1 & u1 & ->%modifyS_ok & E). unfold open in E. destruct (tops_openings_ok _ _ _ _ _ _ _ E) as ((Es & Ez & Hf & Hok) & Hc).
    split_and!; [done..|]. intros w Hw Hwr. apply Hc. left. by apply opened_elem.
  - by apply mretS_ok in E as [-> _].
Qed.
Lemma tops_open_scope_ok scope at_ scoped sequence (r r' : Rec) u cur : open_scope plans scopes scope at_ scoped sequence r = (r', Ok u) →
  match lazy r with Some (s, _, sc) => (s, sc) = cur | None => ∀ w, w ∈ cur.2 → written w → current r cur.1 w end →
  state r' = state r ∧ lazy r' = None ∧ (fresh_rows r → fresh_rows r') ∧ (rows_ok r → rows_ok r') ∧ ∀ w, w ∈ scoped → written w → current r' scope w.
Proof.
  unfold open_scope, ProfileStreams.open_scope. intros E Hl. apply stbind_ok in E as (r1 & u1 & E1 & E).
  destruct (tops_flush_ok _ _ _ _ _ E1 Hl) as (Es & Ez & Hf & Hok & _). unfold open in E. destruct (tops_openings_ok _ _ _ _ _ _ _ E) as ((Es2 & Ez2 & Hf2 & Hok2) & Hc).
  split_and!; [congruence..|auto|auto|]. intros w Hw Hwr. apply Hc. left. by apply opened_elem.
Qed.

(** ** The rows of one cut *)
Lemma trade_row_ok scope sequence time w o (r r' : Rec) u : trade_row plans scopes scope sequence time w o r = (r', Ok u) →
  kept r r' ∧ last r' = last r ∧ file r' = file r.
Proof.
  unfold trade_row. intros E. repeat (apply stbind_ok in E as (? & ? & [-> ?]%liftR_ok & E)).
  match goal with H : ProfileStreams.row _ _ _ _ _ _ _ _ = Ok _ |- _ => rename H into Hrow end.
  destruct (tops_write_ok _ _ _ _ E) as (Es & El & Ez & Ef & Hf & Hok). unfold ProfileStreams.row in Hrow. apply bind_ok in Hrow as (i & Ei & Hrow). res_inv.
  split; [|split; [done|by rewrite Ef]]. split_and!; [done..| |].
  - intros Hfr. apply Hf; [done|]. intros s b t' Hs. discriminate Hs.
  - intros Hr. apply Hok; [done|]. by left.
Qed.
Lemma trade_rows_ok scope sequence time w os : ∀ (r r' : Rec) u, forS (trade_row plans scopes scope sequence time w) os r = (r', Ok u) →
  kept r r' ∧ last r' = last r ∧ file r' = file r.
Proof.
  induction os as [|o os IH]; intros r r' u E; simpl in E; [by apply mretS_ok in E as [-> _]|]. apply stbind_ok in E as (r1 & u1 & E1 & E).
  destruct (trade_row_ok _ _ _ _ _ _ _ _ E1) as (K1 & L1 & F1). destruct (IH _ _ _ E) as (K2 & L2 & F2). split_and!; [by eapply kept_trans|congruence..].
Qed.
Lemma unwritten (r r' : Rec) scope w : state r' = state r → last r' = last r → file r' = file r → (filed r scope w → filed r' scope w) ∧ (up_to_date r w → up_to_date r' w).
Proof. intros Es El Ef. unfold filed, up_to_date, Tops.state_of. by rewrite Es, El, Ef. Qed.

Lemma write_top_ok clocks scope sequence time w cause (r r' : Rec) u : write_top plans scopes clocks scope sequence time w cause r = (r', Ok u) → written w →
  filed r scope w →
  kept r r' ∧ current r' scope w ∧ ∀ w', w' ≠ w → (filed r scope w' → filed r' scope w') ∧ (up_to_date r w' → up_to_date r' w').
Proof.
  unfold write_top. intros E Hw Hfiled. apply stbind_ok in E as (? & t & [-> Ht]%top_run & E). apply stbind_ok in E as (? & ? & [-> ->]%getS_ok & E).
  apply stbind_ok in E as (? & l & [-> Hl]%liftR_ok & E). destruct (last r !! w) as [l'|] eqn:El; [injection Hl as ->|done].
  assert (is_Some (index !! w)) as [i Hi] by by apply index_written. destruct (Hfiled i Hi) as (l0 & j0 & El0 & Hj0 & Hfile). rewrite El in El0. injection El0 as <-.
  destruct (negb (bool_decide (t = l)) || negb (jeq_str cause "operations")) eqn:Eb.
  - apply stbind_ok in E as (r1 & ? & ->%modifyS_ok & E). destruct (top_row_ok _ _ _ _ _ _ _ _ _ _ E) as (Es & El2 & Ez & i' & j & Hi' & Hj & Ef & Hf & Hok).
    rewrite Hi in Hi'. injection Hi' as <-. split; [|by eapply (renewed r)]. split_and!; [done|done| |done].
    intros Hfr. apply Hf; [done|]. intros ->. change (jeq_str (JStr "operations") "operations") with true in Eb. rewrite orb_false_r in Eb.
    apply negb_true_iff, bool_decide_eq_false in Eb. change (file r !! (scope, i) ≠ Some j). rewrite Hfile. intros [= ->]. apply Eb. by eapply top_json_inj.
  - apply mretS_ok in E as [-> _]. apply orb_false_iff in Eb as [Eb%negb_false_iff%bool_decide_eq_true _]. subst t.
    split_and!; [done| |done]. split; [done|]. by exists l.
Qed.

Lemma write_book_ok clocks causes trades scope sequence time w (r r' : Rec) u : write_book plans scopes clocks causes trades scope sequence time w r = (r', Ok u) → written w →
  filed r scope w →
  kept r r' ∧ filed r' scope w ∧ (is_Some (causes !! w) ∨ up_to_date r w → up_to_date r' w) ∧ ∀ w', w' ≠ w → (filed r scope w' → filed r' scope w') ∧ (up_to_date r w' → up_to_date r' w').
Proof.
  unfold write_book. intros E Hw Hfiled. apply stbind_ok in E as (r1 & u1 & E1 & E). destruct (trade_rows_ok _ _ _ _ _ _ _ _ E) as (K2 & L2 & F2).
  assert (∀ w', (filed r1 scope w' → filed r' scope w') ∧ (up_to_date r1 w' → up_to_date r' w')) as Hlast by (intros w'; apply unwritten; [apply K2|done|done]).
  destruct (causes !! w) as [c|].
  - destruct (write_top_ok _ _ _ _ _ _ _ _ _ E1 Hw Hfiled) as (K1 & [Hf1 Hu1] & Ho1). split_and!; [by eapply kept_trans|by apply Hlast|intros _; by apply Hlast|].
    intros w' Hne. destruct (Ho1 w' Hne). split; intros; apply Hlast; auto.
  - apply mretS_ok in E1 as [-> _]. split_and!; [done|by apply Hlast|intros [[? [=]]|]; by apply Hlast|]. intros w' _. apply Hlast.
Qed.

Lemma write_books_ok clocks causes trades scope sequence time ws : ∀ (r r' : Rec) u, forS (write_book plans scopes clocks causes trades scope sequence time) ws r = (r', Ok u) →
  (∀ w, w ∈ ws → written w ∧ filed r scope w) →
  kept r r' ∧ ∀ w, filed r scope w → (w ∈ ws ∧ is_Some (causes !! w)) ∨ up_to_date r w → current r' scope w.
Proof.
  induction ws as [|w ws IH]; intros r r' u E Hw; simpl in E.
  - apply mretS_ok in E as [-> _]. split; [done|]. intros w Hf [[?%elem_of_nil _]|Hu]; [done|by split].
  - apply stbind_ok in E as (r1 & u1 & E1 & E). destruct (Hw w) as [Hwr Hf]; [left|].
    destruct (write_book_ok _ _ _ _ _ _ _ _ _ _ E1 Hwr Hf) as (K1 & Hf1 & Hu1 & Ho1).
    assert (∀ w', filed r scope w' → filed r1 scope w') as Hf'. { intros w'. destruct (decide (w' = w)) as [->|Hne]; [done|by apply Ho1]. }
    destruct (IH _ _ _ E) as (K2 & Hc2). { intros w' Hin. destruct (Hw w'); [by right|]. split; [done|]. by apply Hf'. }
    split; [by eapply kept_trans|]. intros w' Hfw Hor. apply Hc2; [by apply Hf'|]. destruct (decide (w' = w)) as [->|Hne].
    + right. apply Hu1. destruct Hor as [[_ Hc]|Hu]; auto.
    + destruct Hor as [[[->|Hin]%elem_of_cons Hc]|Hu]; [done|by left|]. right. by apply (Ho1 w' Hne).
Qed.

(** ** The remembered books *)
Definition look_books (bs : gmap key Book) (k : key) : result top_t := b ← (match bs !! k with Some b => Ok b | None => Err KeyError end); observe k b.
Definition remembered (bs : gmap key Book) (r : Rec) : Prop := ∀ k, is_Some (plans !! k) → is_ok (look_books bs k) ∧ state_of r k = look_books bs k.
(** The top of a written book, from the decoder's books. *)
Definition top_of (bs : gmap key Book) (w : key) : result top_t := top_with (look_books bs) w.

Lemma remembered_top bs r w : remembered bs r → written w → top_with (state_of r) w = top_of bs w.
Proof.
  intros Hr Hw. apply top_ext.
  - apply Hr, (present_planned plans scopes). by apply written_of_ok in Hw as [? _].
  - intros o Ho. by apply Hr, (counterpart_written w).
Qed.

Definition aside (r : Rec) := (last r, lazy r, writer r).
Lemma remembers_ok bs ks : ∀ (r r' : Rec) u, forS (remember plans py_repr bs) ks r = (r', Ok u) →
  aside r' = aside r ∧ (∀ k, k ∈ ks → is_ok (look_books bs k) ∧ state_of r' k = look_books bs k) ∧ (∀ k, k ∉ ks → state_of r' k = state_of r k).
Proof.
  induction ks as [|k ks IH]; intros r r' u E; simpl in E.
  - apply mretS_ok in E as [-> _]. split_and!; [done|by intros k ?%elem_of_nil|done].
  - apply stbind_ok in E as (r1 & u1 & E1 & E). unfold remember in E1. apply stbind_ok in E1 as (? & b & [-> Hb]%liftR_ok & E1).
    apply stbind_ok in E1 as (? & t & [-> Ht]%liftR_ok & ->%modifyS_ok). destruct (IH _ _ _ E) as (Ha & Hin & Hout). split_and!; [done| |].
    + assert (look_books bs k = Ok t) as El by (unfold look_books; by rewrite Hb).
      intros k' [->|Hk']%elem_of_cons; [|by apply Hin]. split; [by exists t|]. destruct (decide (k ∈ ks)); [by apply Hin|].
      rewrite Hout by done. rewrite El. unfold Tops.state_of. simpl. by rewrite lookup_insert_eq.
    + intros k' [Hne Hk']%not_elem_of_cons. rewrite Hout by done. unfold Tops.state_of. simpl. by rewrite lookup_insert_ne.
Qed.

(** What holds between two cuts. *)
Definition top_inv (d : Decoder) (cur : Z * gset key) (r : Rec) : Prop :=
  remembered (books d) r ∧ fresh_rows r ∧ rows_ok r ∧
  match lazy r with Some (s, _, sc) => (s, sc) = cur | None => ∀ w, w ∈ cur.2 → written w → current r cur.1 w end.

Lemma cut_remembers body d d' u (r r' : Rec) keys causes u' : Decoder.cut body d = (d', Ok u) → touches plans scopes body = Ok (keys, causes) →
  forS (remember plans py_repr (books d')) keys r = (r', Ok u') → remembered (books d) r →
  remembered (books d') r' ∧ aside r' = aside r ∧ ∀ w scope, written w → causes !! w = None → current r scope w → current r' scope w.
Proof.
  intros Hcut Htouch E Hr. destruct (touches_ok _ _ _ _ _ Htouch) as (rows & Hrows & Hkeys & Hnd & _ & [_ Hc]).
  destruct (cut_decides _ _ _ _ _ _ Hcut Hrows Hkeys Hnd) as [_ Hsame]. destruct (remembers_ok _ _ _ _ _ E) as (Ha & Hin & Hout).
  split_and!; [|done|].
  - intros k Hk. destruct (decide (k ∈ keys)) as [Hi|Hn]; [by apply Hin|]. rewrite Hout by done. destruct (Hr k Hk) as [Hok ->]. unfold look_books in *. by rewrite Hsame.
  - intros w scope Hw Hnone [Hf (t & Hl & Ht)]. unfold aside in Ha. injection Ha as El _ Ew. split.
    + unfold filed, file in *. by rewrite El, Ew.
    + exists t. rewrite El. split; [done|]. rewrite <- Ht.
      assert (∀ s, written_of plans scopes s = Some w → s ∉ keys) as Hno.
      { intros s Hs [i Hi]%list_elem_of_lookup_1. destruct (Forall2_lookup_r _ _ _ _ _ Hkeys Hi) as (t' & Ht' & _).
        destruct (Hc t' s w) as (? & ? & c & ? & _ & _ & Ec & _); [|done|congruence]. apply elem_of_lookup_zip_with. eauto 10. }
      apply top_ext; [by apply Hout, Hno|]. intros o Ho. apply Hout, Hno. by apply counterpart_written.
Qed.

Lemma trades_written scoped os : ∀ acc trades, foldR (take_trade plans scopes scoped) acc os = Ok trades → (∀ w, w ∈ dom acc → written w) → ∀ w, w ∈ dom trades → written w.
Proof.
  induction os as [|o os IH]; intros acc trades E Hacc; simpl in E; [by injection E as <-|]. apply bind_ok in E as (acc1 & E1 & E). apply (IH acc1 trades E).
  unfold take_trade in E1. res_inv. match goal with H : match ?k with _ => _ end = Ok _ |- _ => destruct k as [k|]; [|by injection H as <-] end.
  case_bool_decide; [|by injection E1 as <-]. res_inv. destruct (negb _ && _) eqn:Ei; [|by injection E1 as <-].
  apply andb_true_iff in Ei as [_ Ei%bool_decide_eq_true]. res_inv. destruct (json_eqb _ _); [|by injection E1 as <-]. res_inv.
  destruct (json_eqb _ _); [|done]. intros w Hw. rewrite dom_insert_L in Hw. apply elem_of_union in Hw as [->%elem_of_singleton|Hw]; [|by apply Hacc]. by apply index_written.
Qed.

Lemma tops_cut_ok body d d' u (r r' : Rec) u' cur sequence raw time :
  Decoder.cut body d = (d', Ok u) → cut plans scopes start py_repr body (books d') sequence raw time cur.2 cur.1 r = (r', Ok u') →
  top_inv d cur r → (lazy r = None → start ≤ raw) → top_inv d' cur r' ∧ (lazy r' = None ↔ (lazy r = None ∨ start ≤ raw)).
Proof.
  intros Hcut E (Hrem & Hfr & Hok & Hcur) Hgate. unfold cut in E. apply stbind_ok in E as (r1 & u1 & E1 & E).
  assert (state r1 = state r ∧ fresh_rows r1 ∧ rows_ok r1 ∧ lazy r1 = (if start <=? raw then None else lazy r) ∧
    match lazy r1 with Some (s, _, sc) => (s, sc) = cur | None => ∀ w, w ∈ cur.2 → written w → current r1 cur.1 w end) as (Es1 & Hfr1 & Hok1 & Ez1 & Hcur1).
  { destruct (start <=? raw).
    - destruct (tops_flush_ok _ _ _ _ cur E1 Hcur) as (Es & Ez & Hf & Ho & Hc). rewrite Ez. split_and!; auto.
    - by apply mretS_ok in E1 as [-> _]. }
  apply stbind_ok in E as (r2 & [keys causes] & [-> Htouch]%liftR_ok & E). apply stbind_ok in E as (r2 & u2 & E2 & E).
  assert (remembered (books d) r1) as Hrem1 by (unfold remembered, Tops.state_of in *; by rewrite Es1).
  destruct (cut_remembers _ _ _ _ _ _ _ _ _ Hcut Htouch E2 Hrem1) as (Hrem2 & Ha & Hsame). unfold aside in Ha. injection Ha as El2 Ez2 Ew2.
  assert (fresh_rows r2 ∧ rows_ok r2) as [Hfr2 Hok2] by (unfold fresh_rows, rows_ok in *; by rewrite Ew2).
  destruct (Z.leb_spec start raw) as [Hraw|Hraw]; cbn [negb] in E.
  2: { apply mretS_ok in E as [-> _]. rewrite Ez2, Ez1. split; [|split; [by left|intros [|]; [done|lia]]]. split_and!; [done..|].
       rewrite Ez2. rewrite Ez1 in *. destruct (lazy r) as [[[s at_] sc]|]; [done|]. exfalso. specialize (Hgate eq_refl). lia. }
  apply stbind_ok in E as (r3 & [clocks observed] & [-> Hscan]%liftR_ok & E). apply stbind_ok in E as (r3 & trades & [-> Htrades]%liftR_ok & E). rewrite Ez1 in Hcur1.
  assert (∀ w, w ∈ cur.2 → written w → filed r2 cur.1 w) as Hfiled.
  { intros w Hw Hwr. destruct (Hcur1 w Hw Hwr) as [Hf _]. unfold filed, file in *. by rewrite El2, Ew2. }
  destruct (write_books_ok _ _ _ _ _ _ _ _ _ _ E) as ((Es & Ez & Hf & Ho) & Hc).
  { intros w [Hin Hel]%in_index_order_elem%list_elem_of_filter. assert (written w) as Hwr; [|split; [done|by apply Hfiled]].
    apply elem_of_elements, elem_of_union in Hel as [[c Hcw]%elem_of_dom|Htr].
    - destruct (touches_ok _ _ _ _ _ Htouch) as (rows & _ & _ & _ & _ & [Hc1 _]). destruct (Hc1 w) as (t & k & _ & Hk); [by exists c|]. by eapply written_self.
    - eapply trades_written; [exact Htrades| |exact Htr]. intros w' Hw'. by rewrite dom_empty_L in Hw'. }
  rewrite Ez, Ez2, Ez1. split; [|split; [by right|done]]. split_and!; [|by apply Hf|by apply Ho|].
  - unfold remembered, Tops.state_of in *. by rewrite Es.
  - rewrite Ez, Ez2, Ez1. intros w Hw Hwr. apply Hc; [by apply Hfiled|]. destruct (causes !! w) as [c|] eqn:Ec.
    + left. split; [|by exists c]. apply in_index_order_elem, list_elem_of_filter. split; [done|]. apply elem_of_elements, elem_of_union. left. apply elem_of_dom. by exists c.
    + right. by apply (Hsame w cur.1 Hwr Ec), Hcur1.
Qed.

(** ** The collector *)
Definition begin (bs : gmap key Book) (scoped : gset key) : ST Rec () := _ ← create plans; initial plans start py_repr bs scoped.

Lemma tops_begin_ok d scoped n w (r' : Rec) u : begin (books d) scoped (new_recorder n w) = (r', Ok u) → rows w = [] → top_inv d (0, scoped) r' ∧ is_Some (lazy r').
Proof.
  unfold begin, create, initial. intros E Hw. apply stbind_ok in E as (r1 & u1 & E1 & E). apply stbind_ok in E as (r2 & u2 & E2 & ->%modifyS_ok).
  assert (writer r1 = w) as Ew. { unfold zoomS in E1. destruct (charge_budget _ _) as [n1 res1]. by injection E1 as <- _. }
  destruct (remembers_ok _ _ _ _ _ E2) as (Ha & Hin & _). unfold aside in Ha. injection Ha as _ _ Ew2. split; [|by eexists]. split_and!; [| | |done].
  - intros k [p Hp]. unfold remembered, Tops.state_of in *. apply Hin. apply list_elem_of_fmap. exists (k, p). split; [done|]. by apply elem_of_map_to_list.
  - unfold fresh_rows. simpl. by rewrite Ew2, Ew, Hw.
  - unfold rows_ok. simpl. by rewrite Ew2, Ew, Hw.
Qed.

(** [Collector._advance] and [Collector.cut], for this stream. *)
Fixpoint play (es : list event) (d : Decoder) (cur : Z * gset key) : ST Rec (Decoder * (Z * gset key)) :=
  match es with
  | [] => mret (d, cur)
  | Crossing scope at_ scoped sequence :: es => _ ← open_scope plans scopes scope at_ scoped sequence; play es d (scope, scoped)
  | Applied sequence raw time body :: es =>
      let (d', x) := Decoder.cut body d in
      _ ← liftR x;
      _ ← cut plans scopes start py_repr body (books d') sequence raw time cur.2 cur.1;
      play es d' cur
  end.

Lemma tops_play_ok es : ∀ d cur d' cur' counting (r r' : Rec), play es d cur r = (r', Ok (d', cur')) → top_inv d cur r →
  in_order start counting es → (lazy r = None → counting = true) → top_inv d' cur' r'.
Proof.
  induction es as [|[scope at_ scoped sequence|sequence raw time body] es IH]; intros d cur d' cur' counting r r' E Hinv Hord Hc; simpl in E.
  - apply mretS_ok in E as [-> E]. by injection E as -> ->.
  - apply stbind_ok in E as (r1 & u1 & E1 & E). destruct Hinv as (Hrem & Hfr & Hok & Hcur). destruct (tops_open_scope_ok _ _ _ _ _ _ _ _ E1 Hcur) as (Es & Ez & Hf & Ho & Hc1).
    eapply (IH d (scope, scoped)); [exact E| |exact Hord|done]. split_and!; [|auto|auto|by rewrite Ez]. unfold remembered, Tops.state_of in *. by rewrite Es.
  - destruct (Decoder.cut body d) as [d1 x] eqn:Ed. apply stbind_ok in E as (? & u1 & [-> ->]%liftR_ok & E). apply stbind_ok in E as (r1 & u2 & E1 & E).
    destruct Hord as [Hg Hord]. destruct (tops_cut_ok body d d1 u1 r r1 u2 cur sequence raw time Ed E1 Hinv) as [Hinv1 Hl1]; [by auto|].
    eapply (IH d1 cur); [exact E|done|exact Hord|]. intros [Hl|Hl]%Hl1; [by rewrite (Hc Hl)|]. rewrite (proj2 (Z.leb_le _ _) Hl). apply orb_true_r.
Qed.

(** ** [iter_transitions] *)
Lemma quote_move q q' v v' : quote_text q = Ok v → quote_text q' = Ok v' →
  move v v' = Ok (match q, q' with Some (p, _), Some (p', _) => Some (p' - p) | _, _ => None end).
Proof.
  destruct q as [[p n]|], q' as [[p' n']|]; simpl; intros E E'; res_inv; try done.
  repeat match goal with H : text _ = Ok _ |- _ => apply int_of_text in H end.
  revert H0 H2. unfold move. cbn. destruct (parse_int x), (parse_int x1); cbn; intros; by simplify_eq.
Qed.
Lemma side_moves_ok tick name before row q q0 new : tick ≠ 0 → jget row name = Ok new → quote_text q = Ok new → quote_text q0 = Ok (default JNull before) →
  is_ok (side_moves tick name before row).
Proof.
  intros Ht Hn Hq Hq0. unfold side_moves. rewrite Hn. cbn [mbind result_bind]. rewrite (quote_move q0 q _ _ Hq0 Hq). cbn [mbind result_bind].
  unfold ticks. apply Z.eqb_neq in Ht. rewrite Ht. destruct (match q0 with Some _ => _ | None => _ end); by eexists.
Qed.

(** The quotes of the last rows, without their validity. *)
Definition quotes_held (held : gmap (Z * Z) (json * json * json)) : gmap (Z * Z) (json * json) := (λ x, (x.1.2, x.2)) <$> held.
Definition quoted (held : gmap (Z * Z) (json * json * json)) : Prop :=
  ∀ k v bq aq, held !! k = Some (v, bq, aq) → ∃ b a, quote_text b = Ok bq ∧ quote_text a = Ok aq.

Lemma shows_inv row s b v bq aq : shows row = Some (s, b, (v, bq, aq)) →
  jget row "type" = Ok (JStr "top") ∧ jget row "scope" = Ok (JInt s) ∧ jget row "book" = Ok (JInt b) ∧ jget row "bid" = Ok bq ∧ jget row "ask" = Ok aq.
Proof.
  unfold shows. destruct (jget row "type") as [t|]; [|done]. destruct (jeq_str t "top") eqn:Et; [|done]. apply jeq_str_eq in Et as ->.
  destruct (jget row "scope") as [[]|]; try done. destruct (jget row "book") as [[]|]; try done. destruct (jget row "validity"); [|done].
  destruct (jget row "bid"); [|done]. destruct (jget row "ask"); [|done]. by intros [= -> -> -> -> ->].
Qed.

Lemma read_row_ok books row held out : row_ok row → quoted held → (∀ w i, index !! w = Some i → ∃ t, tick_of books i = Ok t ∧ t ≠ 0) →
  quoted (note held row) ∧ ∃ row', read_row books (quotes_held held, out) row = Ok (quotes_held (note held row), out ++ [row']).
Proof.
  intros [Ht|(d & s & i & v & b & a & bq & aq & c & w & -> & Hs & Hb & Ha & Hc & Hi)] Hq Htick.
  - assert (shows row = None) as Hs by (unfold shows; by rewrite Ht). unfold note. rewrite Hs. split; [done|]. exists row. unfold read_row. by rewrite Ht.
  - unfold note. rewrite Hs. split.
    + intros k v' bq' aq' [[_ [= -> -> ->]]|[_ Hk]]%lookup_insert_Some; [by exists b, a|by eapply Hq].
    + destruct (shows_inv _ _ _ _ _ _ Hs) as (Et & Es & Ebk & Ebid & Eask). destruct (Htick w i Hi) as (t & Etick & Hne).
      unfold read_row. rewrite Et, Es, Ebk, Hc. cbn [mbind result_bind jeq_str]. change (String.eqb "top" "top") with true. cbn iota. rewrite Etick. cbn [mbind result_bind].
      set (before := if jeq_str c "open" then None else _).
      assert (∃ b0 a0, quote_text b0 = Ok (default JNull (fst <$> before)) ∧ quote_text a0 = Ok (default JNull (snd <$> before))) as (b0 & a0 & Hb0 & Ha0).
      { unfold before. destruct (jeq_str c "open"); [by exists None, None|]. unfold quotes_held. rewrite lookup_fmap.
        destruct (held !! (s, i)) as [[[v0 bq0] aq0]|] eqn:E; [|by exists None, None]. destruct (Hq _ _ _ _ E) as (b0 & a0 & ? & ?). by exists b0, a0. }
      destruct (side_moves_ok t "bid" (fst <$> before) (JObj d) b b0 bq Hne Ebid Hb Hb0) as [fb ->].
      destruct (side_moves_ok t "ask" (snd <$> before) (JObj d) a a0 aq Hne Eask Ha Ha0) as [fa ->].
      cbn [mbind result_bind extend]. rewrite Ebid, Eask. cbn [mbind result_bind]. eexists. unfold quotes_held. by rewrite fmap_insert.
Qed.
Lemma iter_ok books rs : ∀ held out, Forall row_ok rs → quoted held → (∀ w i, index !! w = Some i → ∃ t, tick_of books i = Ok t ∧ t ≠ 0) →
  ∃ out', foldR (read_row books) (quotes_held held, out) rs = Ok (quotes_held (foldl note held rs), out') ∧ length out' = (length out + length rs)%nat.
Proof.
  induction rs as [|row rs IH]; intros held out Hok Hq Ht; cbn [foldR foldl]; [exists out; split; [done|simpl; lia]|]. apply Forall_cons in Hok as [Hr Hok].
  destruct (read_row_ok books row held out Hr Hq Ht) as [Hq' [row' ->]]. cbn [mbind result_bind].
  destruct (IH (note held row) (out ++ [row']) Hok Hq' Ht) as (out' & E & Hl). exists out'. split; [done|]. rewrite Hl, length_app. simpl. lia.
Qed.

Lemma book_ticks tick_atoms books : book_table plans scopes tick_atoms = Ok books →
  (∀ k p t, plans !! k = Some p → tick_atoms !! venue p = Some t → ∃ n, py_int t = Ok n ∧ n ≠ 0) →
  ∀ w i, index !! w = Some i → ∃ t, tick_of books i = Ok t ∧ t ≠ 0.
Proof.
  intros E%mapR_ok Ht w i (n & -> & Hn)%index_lookup. destruct (Forall2_lookup_l _ _ _ _ _ E Hn) as (row & Hrow & Erow). unfold table_row in Erow.
  destruct (plans !! w) as [p|] eqn:Ep; [|done]. cbn [mbind result_bind] in Erow. apply bind_ok in Erow as (m & _ & Erow).
  destruct (tick_atoms !! venue p) as [t|] eqn:Et; [|done]. cbn [mbind result_bind] in Erow. destruct (Ht w p t Ep Et) as (a & Ha & Hne). exists a. split; [|done].
  unfold tick_of. destruct (Z.ltb_spec (Z.of_nat n) 0); [lia|]. destruct (Z.ltb_spec (Z.of_nat n) 0); [lia|]. rewrite Nat2Z.id, Hrow. injection Erow as <-.
  cbn -[py_int]. done.
Qed.

(** ** The tops and the books *)

(** The planned books, as the decoder keeps them. *)
Definition sound (lim : key → Z) (bs : gmap key Book) : Prop := ∀ k, is_Some (plans !! k) → ∃ b, bs !! k = Some b ∧ book_inv b ∧ limit b = lim k.

Lemma play_sound lim es : ∀ d cur d' cur' (r r' : Rec), play es d cur r = (r', Ok (d', cur')) → published_events plans lim es → sound lim (books d) → sound lim (books d').
Proof.
  induction es as [|[scope at_ scoped sequence|sequence raw time body] es IH]; intros d cur d' cur' r r' E Hpub Hs; simpl in E.
  - apply mretS_ok in E as [_ E]. by injection E as -> _.
  - apply stbind_ok in E as (r1 & u1 & _ & E). apply Forall_cons in Hpub as [_ Hpub]. by eapply IH.
  - destruct (Decoder.cut body d) as [d1 x] eqn:Ed. apply stbind_ok in E as (? & u1 & [-> ->]%liftR_ok & E). apply stbind_ok in E as (r1 & u2 & _ & E).
    apply Forall_cons in Hpub as [Hp Hpub]. eapply IH; [exact E|done|]. intros k Hk. destruct (Hs k Hk) as (b & Hb & Hi & Hl).
    destruct (cut_touches _ _ _ _ _ _ Ed Hb Hi) as (b' & _ & Hb' & Hi' & Hl' & _); [rewrite Hl; by apply Hp|]. exists b'. split_and!; [done..|congruence].
Qed.

(** The complement a Kalshi book's asks come from. *)
Lemma counter_counterpart w : written w → is_kalshi plans w = true → counter plans scopes w = counterpart plans w.
Proof.
  intros Hw Hk. destruct (counterpart plans w) as [o|] eqn:Ho.
  - destruct (counterpart_written w o Hw Ho) as [Hwo _]. apply (counter_some plans scopes one_venue). split; [done|]. intros ->.
    unfold counterpart in Ho. rewrite Hk in Ho. cbn [andb] in Ho. case_bool_decide; [|done]. injection Ho as E. destruct w as [i o]. unfold other_side in E. simpl in E.
    injection E as E. destruct (String.eqb_spec o "outcome") as [->|]; [done|]. by subst.
  - unfold counter. destruct (decide _) as [[Hne Hc]|]; [|done]. exfalso. unfold counterpart in Ho. rewrite Hk in Ho. cbn [andb] in Ho.
    destruct w as [i o]. pose proof (written_planned _ _ _ _ Hc) as Hp. apply written_of_ok in Hw as [Hpw _].
    destruct (two_sided _ (present_planned _ _ _ Hpw)) as [Eo|Eo]; simpl in *; subst o; [|done]. unfold other_side in Ho. simpl in Ho. by rewrite bool_decide_eq_true_2 in Ho.
Qed.

(** The recorder's top of a written book, in terms of the ladders of the books. *)
Lemma top_of_ladders lim bs w t : sound lim bs → written w → top_of bs w = Ok t →
  ∃ b, bs !! w = Some b ∧ validity_text py_repr b = Ok t.1.1 ∧ best_level Bid (book_ladders plans scopes bs w).1 t.1.2 ∧ best_level Ask (book_ladders plans scopes bs w).2 t.2.
Proof.
  intros Hs Hw E. unfold top_of, top_with, Tops.top_with, look_books in E. pose proof (written_planned _ _ _ _ Hw) as Hp.
  destruct (Hs w Hp) as (b & Hb & Hi & _). rewrite Hb in E. cbn [mbind result_bind] in E. unfold observe, Tops.observe in E. exists b. split; [done|].
  unfold book_ladders. rewrite Hb. destruct (validity_text py_repr b) as [v|] eqn:Ev; [|done]. cbn [mbind result_bind] in E.
  pose proof (validity_usable _ _ _ Ev) as Hu. destruct (String.eqb_spec v "usable") as [->|Hv]; cbn [negb] in E.
  2: { assert (t = (v, None, None)) as ->. { cbn [mbind result_bind] in E. destruct (String.eqb_spec v "usable"); [done|]. by injection E. }
       rewrite (proj2 (String.eqb_neq _ _)) by (by rewrite <- Hu). done. }
  assert (validity b = "usable"%string) as Hb' by by apply Hu. rewrite Hb'. change (String.eqb "usable" "usable") with true. cbn [negb].
  destruct (book_best b Bid Hi Hb') as (bid & Ebid & Hbid), (book_best b Ask Hi Hb') as (ask & Eask & Hask). unfold best_bid, best_ask in E. rewrite Ebid, Eask in E.
  destruct (is_kalshi plans w) eqn:Hk; cbn [mbind result_bind] in E; change (negb (String.eqb "usable" "usable")) with false in E; cbn iota in E.
  2: { injection E as <-. by split_and!. }
  rewrite (counter_counterpart w Hw Hk). destruct (counterpart plans w) as [o|] eqn:Ho; [|by injection E as <-].
  destruct (counterpart_written w o Hw Ho) as [_ Hpo]. destruct (Hs o Hpo) as (bo & Hbo & Hio & _). rewrite Hbo in E |- *. cbn [mbind result_bind] in E.
  destruct (validity_text py_repr bo) as [vo|] eqn:Evo; [|done]. cbn [mbind result_bind] in E. pose proof (validity_usable _ _ _ Evo) as Huo.
  destruct (String.eqb_spec vo "usable") as [->|Hvo]; cbn [negb] in E.
  - assert (validity bo = "usable"%string) as Hbo' by by apply Huo. destruct (book_best bo Bid Hio Hbo') as (bido & Ebo & Hbo2). unfold best_bid in E. rewrite Ebo in E.
    destruct (book_best bo Ask Hio Hbo') as (asko & Eao & _). unfold best_ask in E. rewrite Eao in E.
    assert (t = ("usable"%string, bid, match bido with Some (p, q) => Some (unit_of plans w - p, q) | None => None end)) as ->.
    { destruct (is_kalshi plans o); cbn [mbind result_bind] in E; by injection E. }
    split_and!; [done..|]. by apply best_projected.
  - cbn [mbind result_bind] in E. rewrite (proj2 (String.eqb_neq _ _) Hvo) in E. injection E as <-. split_and!; [done..|].
    assert (validity bo ≠ "usable"%string) as Hbo' by (by intros ?%Huo). simpl. rewrite (book_unusable bo Bid Hbo'). apply kmap_empty.
Qed.

(** C8. The recorded tops follow the books: over any accepted run of cuts and scope
    crossings, from the initial books and with an empty file, a row caused by operations always
    differs from the last row of its book; the last row of every written book of the open
    scope shows the validity of the decoder's book and the highest bid and the lowest ask, with
    their quantities, of the ladders the books list (a Kalshi book's asks being its
    complement's bids seen from the other side; no quote where the side is empty); and
    [iter_transitions] reads the file to its end with these quotes. *)
Theorem top_rows_follow_quotes lim tick_atoms table n w scoped es d0 d cur (r1 r2 : Rec) :
  (∀ k, is_Some (plans !! k) → ∃ b, books d0 !! k = Some b ∧ book_inv b ∧ limit b = lim k) → published_events plans lim es →
  begin (books d0) scoped (new_recorder n w) = (r1, Ok ()) → rows w = [] → play es d0 (0, scoped) r1 = (r2, Ok (d, cur)) → in_order start false es →
  book_table plans scopes tick_atoms = Ok table → (∀ k p t, plans !! k = Some p → tick_atoms !! venue p = Some t → ∃ a, py_int t = Ok a ∧ a ≠ 0) →
  all_news ∅ (rows (writer r2)) ∧
  (lazy r2 = None → ∀ w i, w ∈ cur.2 → index !! w = Some i →
     ∃ b v bid ask, books d !! w = Some b ∧ validity_text py_repr b = Ok v ∧
       best_level Bid (book_ladders plans scopes (books d) w).1 bid ∧ best_level Ask (book_ladders plans scopes (books d) w).2 ask ∧
       last_tops (rows (writer r2)) !! (cur.1, i) = Some (JStr v, shown_quote bid, shown_quote ask)) ∧
  ∃ out, iter_transitions table (rows (writer r2)) = Ok (quotes_held (last_tops (rows (writer r2))), out) ∧ length out = length (rows (writer r2)).
Proof.
  intros Hbooks Hpub Hbegin Hrows Hplay Hord Htable Hticks. destruct (tops_begin_ok d0 scoped n w r1 () Hbegin Hrows) as [Hinv1 Hlazy].
  assert (top_inv d cur r2) as (Hrem & Hfr & Hok & Hcur).
  { apply (tops_play_ok es d0 (0, scoped) d cur false r1 r2); try done. intros E. rewrite E in Hlazy. by destruct Hlazy. }
  split_and!; [done| |].
  - intros El w' i Hw Hi. rewrite El in Hcur. assert (written w') as Hwr by (apply index_written; by exists i).
    destruct (Hcur w' Hw Hwr) as [Hf (t & Hl & Ht)]. destruct (Hf i Hi) as (t' & j & Hl' & Hj & Hfile). rewrite Hl in Hl'. injection Hl' as <-.
    rewrite (remembered_top (books d)) in Ht by done.
    destruct (top_of_ladders lim (books d) w' t (play_sound _ _ _ _ _ _ _ _ Hplay Hpub Hbooks) Hwr Ht) as (b & Hb & Hv & Hbid & Hask).
    exists b, t.1.1, t.1.2, t.2. split_and!; [done..|]. etrans; [exact Hfile|]. f_equal. unfold top_json in Hj.
    apply bind_ok in Hj as (jb & Ejb%quote_text_shown & Hj). apply bind_ok in Hj as (ja & Eja%quote_text_shown & [= <-]). by subst.
  - destruct (iter_ok table (rows (writer r2)) ∅ []) as (out & E & Hlen); [done|by intros k v bq aq ?|by eapply book_ticks|]. by exists out.
Qed.
End Run.

(** ** A run *)
Definition top_ticks : gmap string json := {[ "kalshi"%string := JStr "1"; "polymarket"%string := JStr "1" ]}.
Definition top_new : TransitionRecorder (W := list json) := new_recorder 0 [].
Definition top_begun : TransitionRecorder (W := list json) := (begin level_plans 100 level_repr (books level_decoder) level_scoped top_new).1.
Definition top_played : TransitionRecorder (W := list json) * result (Decoder * (Z * gset key)) :=
  play level_plans level_scopes 100 level_repr level_events level_decoder (0, level_scoped) top_begun.
Definition top_end : Decoder * (Z * gset key) := from_result (level_decoder, (0, ∅)) top_played.2.
Definition top_books : list json := from_result [] (book_table level_plans level_scopes top_ticks).

Lemma top_begin_ok : begin level_plans 100 level_repr (books level_decoder) level_scoped top_new = (top_begun, Ok ()).
Proof. unfold top_begun. refine (succeeded_unit _ _). by vm_compute. Qed.
Lemma top_play_ok : play level_plans level_scopes 100 level_repr level_events level_decoder (0, level_scoped) top_begun = (top_played.1, Ok (top_end.1, top_end.2)).
Proof. unfold top_end, top_played. refine (succeeded _ (level_decoder, (0, ∅)) _). by vm_compute. Qed.
Lemma top_ticks_ok k p t : level_plans !! k = Some p → top_ticks !! venue p = Some t → ∃ a, py_int t = Ok a ∧ a ≠ 0.
Proof.
  intros [_ ->]%level_plans_lookup E. exists 1. split; [|done]. destruct (decide (k = demo_native)); vm_compute in E; by injection E as <-.
Qed.

(** The run without its last event: the native book is still usable. *)
Definition top_short : TransitionRecorder (W := list json) * result (Decoder * (Z * gset key)) :=
  play level_plans level_scopes 100 level_repr (take 4 level_events) level_decoder (0, level_scoped) top_begun.
Definition top_short_end : Decoder * (Z * gset key) := from_result (level_decoder, (0, ∅)) top_short.2.
Lemma top_short_ok : play level_plans level_scopes 100 level_repr (take 4 level_events) level_decoder (0, level_scoped) top_begun = (top_short.1, Ok (top_short_end.1, top_short_end.2)).
Proof. unfold top_short_end, top_short. refine (succeeded _ (level_decoder, (0, ∅)) _). by vm_compute. Qed.

Lemma top_usable (bs : gmap key Book) k b v : bs !! k = Some b → validity_text level_repr b = Ok v →
  (validity <$> (bs !! k : option Book)) = Some "usable"%string → v = "usable"%string.
Proof. intros -> Hv [= Hu]. by eapply validity_usable. Qed.
Lemma top_rows_follow_quotes_witness :
  all_news ∅ (writer top_played.1) ∧ length (writer top_played.1) = 8%nat ∧
  last_tops (writer top_played.1) !! (1, 0) = Some (JStr "usable", JArr [JStr "40"; JStr "7"], JArr [JStr "58"; JStr "1"])%string ∧
  (∃ v, last_tops (writer top_played.1) !! (1, 1) = Some (JStr v, JNull, JNull)) ∧
  last_tops (writer top_short.1) !! (1, 1) = Some (JStr "usable", JArr [JStr "42"; JStr "1"], JArr [JStr "44"; JStr "6"])%string ∧
  ∃ out, iter_transitions top_books (writer top_played.1) = Ok (quotes_held (last_tops (writer top_played.1)), out).
Proof.
  destruct (top_rows_follow_quotes level_plans level_scopes 100 level_repr level_one_venue level_two_sided level_present (λ _, 100) top_ticks top_books 0 [] level_scoped level_events
    level_decoder top_end.1 top_end.2 top_begun top_played.1) as (Hnews & Hlast & out & Hiter & _).
  - apply level_books.
  - exact level_events_published.
  - exact top_begin_ok.
  - reflexivity.
  - exact top_play_ok.
  - simpl. split_and!; lia || done.
  - by vm_compute.
  - apply top_ticks_ok.
  - destruct (top_rows_follow_quotes level_plans level_scopes 100 level_repr level_one_venue level_two_sided level_present (λ _, 100) top_ticks top_books 0 [] level_scoped (take 4 level_events)
      level_decoder top_short_end.1 top_short_end.2 top_begun top_short.1) as (_ & Hshort & _).
    + apply level_books.
    + apply Forall_take, level_events_published.
    + exact top_begin_ok.
    + reflexivity.
    + exact top_short_ok.
    + simpl. split_and!; lia || done.
    + by vm_compute.
    + apply top_ticks_ok.
    + assert (lazy top_played.1 = None) as Hlazy by (vm_compute; reflexivity). assert (lazy top_short.1 = None) as Hlazy' by (vm_compute; reflexivity).
      split_and!; [exact Hnews|by vm_compute| | | |by exists out].
      * destruct (Hlast Hlazy demo_yes 0) as (b & v & bid & ask & Hb & Hv & ->%best_is & ->%best_is & Hheld); [by vm_compute..|].
        rewrite (top_usable _ _ _ _ Hb Hv) in Hheld by by vm_compute. refine (eq_trans Hheld _). by vm_compute.
      * destruct (Hlast Hlazy demo_native 1) as (b & v & bid & ask & _ & _ & ->%best_is & ->%best_is & Hheld); [by vm_compute..|].
        exists v. refine (eq_trans Hheld _). by vm_compute.
      * destruct (Hshort Hlazy' demo_native 1) as (b & v & bid & ask & Hb & Hv & ->%best_is & ->%best_is & Hheld); [by vm_compute..|].
        rewrite (top_usable _ _ _ _ Hb Hv) in Hheld by by vm_compute. refine (eq_trans Hheld _). by vm_compute.
Defined.
